(* ===== verification/_CoqProject ===== *)
-Q . S2P
Prelude.v
Rlp.v
RlpStream.v
RlpProofs.v
RlpStreamProofs.v
RlpDecodeProofs.v
RlpTypeProofs.v
RlpRawProofs.v
RlpProperties.v
Common.v
Params.v
Types.v
Toy.v
TrieDatabase.v
Trie.v
TrieTree.v
TrieEncode.v
TrieWalk.v
TrieDbProofs.v
TrieHash.v
TrieProofs.v
TrieProperties.v
TrieDbList.v
TrieDbRefs.v
TrieDbFlush.v
TrieDbProperties.v
TrieProve.v
CliqueSnapshot.v
CliqueVoting.v
CliqueTurns.v
CliqueEngine.v
CliqueEngineSpec.v
CliqueProperties.v
CliqueEngineProperties.v
VmCore.v
VmGas.v
VmOps.v
VmPrecompiled.v
VmInterp.v
Transactions.v
Transition.v
VmArithmetic.v
VmGasProofs.v
VmFuel.v
VmStateSpec.v
TransactionProofs.v
State.v
Receipts.v
Blocks.v
ChainDb.v
Genesis.v
ChainDbProofs.v
HeaderChain.v
HeaderChainStore.v
HeaderChainProofs.v
HeaderChainRewind.v
HeaderChainQueries.v
Processor.v
StateProofs.v
StateLaws.v
StateSafety.v
StateFinalise.v
GenesisProofs.v
ToyStore.v
VmStateProofs.v
VmAnalysis.v
VmSafety.v
VmSafeOps.v
VmSafeLoop.v
StateProperties.v
VmProperties.v
VmSafetyProperties.v
TransitionProofs.v
ProcessorProofs.v
TransactionProperties.v
ProcessorProperties.v
ToyChain.v
BlockValidator.v
ChainDbProperties.v
HeaderChainProperties.v
