(* ===== verification/Prelude.v ===== *)
(** * Indigo: a verification of its proof-of-authority chain

    Indigo (src/) is a fork of go-ethereum whose blocks are sealed by authorised signers.
    This library models the parts that decide which blocks are valid and what they do:

    - the encoding RLP that everything is hashed and stored in (src/rlp);
    - the consensus engine clique, with its votes and snapshots (src/consensus/clique);
    - the Merkle trie that accounts and storage are kept in, with its cache of nodes over
      the database (src/trie);
    - the state of the accounts with its journal (src/core/state);
    - the virtual machine that runs contracts (src/core/vm);
    - transactions, receipts, bloom filters and blocks (src/core/types);
    - the state transition, which applies a message to the state, and the processor, which
      applies the transactions of a block and pays the reward (src/core);
    - the chain: its database, the chain of headers with reorganisations and rewinding, the
      validation of blocks, and the genesis block (src/core).

    They depend on each other in this order: the processor recovers the sender of each
    transaction, has the transition buy gas, run the machine on the state database and
    refund, finalises the state, and makes the receipt; the engine gives the author and
    the reward, and seals and verifies the headers.  The validator compares the roots in a
    header with the block and with what the processor made of it; the chain of headers keeps
    the canonical numbers of the branch with the highest total difficulty.

    ** How code is modelled

    A Go function is a Rocq function with the name of the source.  A function that returns
    an error has type [result]: a value, an error, a panic, or [NoFuel], which only loops
    without a structural bound give and which theorems exclude.  Methods that change their
    receiver are computations of the monad [M].  uint64 arithmetic wraps by [u64], big
    integers are [Z], addresses and hashes are the integers of their bytes, byte slices
    are lists of bytes, maps are finite maps [gmap].  Where the order of a Go map could
    matter the order is a parameter.

    ** The files

    - [Prelude]: results, the monad, machine integers and bytes, and the tactics and lemmas
      that all files share.
    - [Rlp], [RlpStream]: the encoder with its buffer, the splitting functions, and the
      decoder with its stream.  [RlpProofs], [RlpStreamProofs], [RlpDecodeProofs],
      [RlpTypeProofs], [RlpRawProofs]: lemmas.  [RlpProperties]: the encoder writes the
      format, decoding inverts encoding and accepts only canonical input, and it ends.
    - [Common], [Params], [Types]: conversions and arithmetic, protocol constants and forks
      with the compatibility check of configurations, and block headers.
    - [TrieDatabase], [Trie]: the cache of trie nodes with its reference counts and its list
      of nodes to flush, and tries with their encodings, hashing and commits, and secure
      tries.  [TrieTree]: trees without a database, which tries stand for; [TrieEncode],
      [TrieWalk], [TrieDbProofs], [TrieHash], [TrieProofs]: lemmas.  [TrieProperties]: tries
      are maps, root hashes stand for the contents, and what is committed opens again.
      [TrieDbList], [TrieDbRefs], [TrieDbFlush]: the list of nodes to flush, the reference
      counts, and writing to the disk.  [TrieDbProperties]: over all histories of the cache,
      referenced nodes are never lost, dereferencing collects garbage, and flushing does not
      change what can be read.
    - [TrieProve]: Merkle proofs and their verification; proofs cannot lie, and every key
      has one.
    - [CliqueSnapshot], [CliqueEngine]: voting snapshots, and the engine's verification,
      preparation, sealing and RPC methods.  [CliqueVoting], [CliqueTurns],
      [CliqueEngineSpec]: lemmas, with the specification of the snapshot of a block.
      [CliqueProperties], [CliqueEngineProperties]: membership needs a majority of voters,
      seals in a window are by different signers, the signer in turn may always seal,
      the caches do not change a snapshot, and what the engine prepares and seals passes
      its own verification.
    - [VmCore], [VmGas], [VmOps], [VmPrecompiled], [VmInterp]: stack, memory and analysis,
      gas, instructions, precompiled contracts, and the interpreter with calls and
      creations.  [VmArithmetic], [VmGasProofs], [VmFuel], [VmStateProofs], [VmAnalysis],
      [VmSafety], [VmSafeOps], [VmSafeLoop]: lemmas.  [VmProperties],
      [VmSafetyProperties]: execution ends, does not panic, creates no ether, rolls back
      when it fails, and changes nothing in static calls; the arithmetic is that of
      256-bit words, and jumps go to instructions.
    - [VmStateSpec]: what the machine relies on in a state database, as classes; the
      theorems about the machine are proved against them.
    - [State]: the state database of package core/state, an instance of these classes by
      [StateProofs], [StateLaws] and [StateSafety].  [StateFinalise]: what finalising does,
      proved against what the database relies on in its tries.  [StateProperties]:
      reverting restores everything, and updates refine their specification.
    - [Transactions], [Receipts]: transactions with their signers, and receipts with their
      bloom filters; [TransactionProofs]; [TransactionProperties]: signing
      and recovering, replay protection, round trips, and no false negatives of blooms.
    - [Blocks]: blocks with their roots and encodings, and lemmas.  [BlockValidator]: the
      validation of blocks; a header fixes its body, and assembled blocks validate.
    - [ChainDb]: the keys and entries of the chain's database; [ChainDbProofs]: entries do not
      overlap.  [Genesis], [GenesisProofs]: the genesis block, and the chain opened on it.
      [ChainDbProperties]: blocks, receipts and transactions are read back, and the setup of
      the genesis block can be repeated.
    - [HeaderChain]: the chain of headers.  [HeaderChainStore], [HeaderChainProofs],
      [HeaderChainRewind], [HeaderChainQueries]: stored headers as a tree, writing and
      reorganising, rewinding, and ancestors.  [HeaderChainProperties]: in every chain that is
      reached the canonical numbers lead to the ancestors of the head, imports keep the
      heaviest header at the head, rewinding leaves the chain below, and ancestors are found.
    - [Transition], [Processor]: applying messages and blocks; [TransitionProofs],
      [ProcessorProofs]; [ProcessorProperties]: gas and ether add up over messages and
      blocks, failed messages only pay, and finalising removes exactly the dead accounts.
    - [Toy], [ToyStore], [ToyChain]: a hash, a store and a tree of headers that evaluate, for
      the instances of the theorems on concrete inputs.  No theorem depends on them.

    ** What is assumed

    Keccak-256 and the recovery of public keys are the class [Crypto] of [Types], SHA-256,
    RIPEMD-160 and the pairing curve [NativeCrypto] of [VmPrecompiled], with the lengths of
    their results as [NativeLaws].  Theorems that need more say so: [KeyHashLaws] is that
    the hash tells addresses and storage keys apart, and [Collision], that two different
    codes have one hash, is a named outcome; [Distinct] of [TrieHash] is that the hash tells
    the nodes of the tries in question apart.  The state database sees tries through the
    interface [Database] of src/core/state/database.go, with [DatabaseLaws] and [TrieLaws].
    Which writes of the disk under the trie's cache succeed is the class [DiskWrites].  The
    engine's caches, database and JSON are the classes of [CliqueSnapshot] and
    [CliqueEngine].  The caches of the chain of headers are the class [LRU] with [LRULaws],
    that a cache holds at most what was put in; [Universe] of [HeaderChainStore] is that the
    headers in question can be stored and have different hashes.  The JSON of configurations
    is [ConfigJSON], and the configurations of the public networks are [Networks].  Writes to
    the chain's database succeed, as those of the in-memory one do.

    ** Bounds and fuel

    The interpreter takes a fuel that every round and every call uses up; a round costs at
    least one gas, so that a fuel above the gas is always enough ([VmGasProofs]), and more
    fuel does not change the result ([VmFuel]).  The theorems about panics need gas below
    2^60 and byte strings below 2^62, far above what a block or a memory holds.  The loops
    of the decoder and of snapshots have the input length and the block number as fuel,
    which theorems show to be enough.  A walk in a trie visits at most two nodes for each
    nibble of its key, which [walkFuel] allows for; dereferencing uses up one reference with each
    call.  Keys and values of tries are below 2^30
    and 2^32 bytes, so that the sizes of encodings do not overflow.  The loops over canonical
    numbers and ancestors take one unit of fuel for each header, and a fuel above the numbers
    of the head and of the new header is enough.  Difficulties are below 2^128 and numbers
    below 2^64 - 1, the number that stands for a missing one.

    ** Not modelled

    Networking, the protocols eth and les, the transaction pool, the miner and the block
    chain's insertion loop are goroutines with locks, channels and timers around the parts
    above; of [BlockChain] only what validation reads is modelled.  Databases, key stores, RPC, consoles and commands are input and output.  The
    elliptic curves and hash functions are parameters.  Tracing, JSON and the
    integer pool of the machine do not change results.  Of the trie, the iterators, the
    synchronisation of nodes and the counters of cache misses are left out. *)

From stdpp Require Import base numbers list gmap sets option.
From Stdlib Require Import ZArith Lia Strings.Byte.

#[global] Open Scope Z_scope.
#[global] Set Default Goal Selector "!".

(** ** Results of Go calls *)

(** A Go function that returns [(T, error)] either returns a value, returns an
    error, or panics.  [NoFuel] is only produced by the fuel of the models of
    unbounded loops; theorems show it away. *)
Inductive result (E A : Type) : Type :=
| Ok (a : A)
| Err (e : E)
| Panic
| NoFuel.
Arguments Ok {E A} a.
Arguments Err {E A} e.
Arguments Panic {E A}.
Arguments NoFuel {E A}.

Definition rbind {E A B : Type} (m : result E A) (k : A -> result E B) : result E B :=
  match m with
  | Ok a => k a
  | Err e => Err e
  | Panic => Panic
  | NoFuel => NoFuel
  end.

Definition isOk {E A : Type} (m : result E A) : bool :=
  match m with Ok _ => true | _ => false end.

Declare Scope go_scope.
Delimit Scope go_scope with go.
#[global] Open Scope go_scope.

Notation "'let*' x ':=' m 'in' k" := (rbind m (fun x => k))
  (at level 200, x pattern, m at level 100, k at level 200,
   format "'[v' 'let*'  x  ':='  m  'in' '/' k ']'") : go_scope.
Notation "'guard*' b 'else' e 'in' k" := (if b then k else Err e)
  (at level 200, b at level 100, e at level 100, k at level 200,
   format "'[v' 'guard*'  b  'else'  e  'in' '/' k ']'") : go_scope.

(** A nil pointer dereference panics. *)
Definition deref {E A : Type} (o : option A) : result E A :=
  match o with Some a => Ok a | None => Panic end.

(** ** Stateful Go code *)

(** A method that reads and writes a state [S]; the state survives errors. *)
Definition M (S E A : Type) : Type := S -> result E A * S.

Definition ret {S E A : Type} (a : A) : M S E A := fun s => (Ok a, s).
Definition throw {S E A : Type} (e : E) : M S E A := fun s => (Err e, s).
Definition panic {S E A : Type} : M S E A := fun s => (Panic, s).
Definition lift {S E A : Type} (r : result E A) : M S E A := fun s => (r, s).
Definition gets {S E A : Type} (f : S -> A) : M S E A := fun s => (Ok (f s), s).
Definition modify {S E : Type} (f : S -> S) : M S E unit := fun s => (Ok tt, f s).

Definition mbind {S E A B : Type} (m : M S E A) (k : A -> M S E B) : M S E B :=
  fun s =>
    let '(r, s') := m s in
    match r with
    | Ok a => k a s'
    | Err e => (Err e, s')
    | Panic => (Panic, s')
    | NoFuel => (NoFuel, s')
    end.

Notation "'let!' x ':=' m 'in' k" := (mbind m (fun x => k))
  (at level 200, x pattern, m at level 100, k at level 200,
   format "'[v' 'let!'  x  ':='  m  'in' '/' k ']'") : go_scope.

(** ** Tactics *)

(** Splits a successful [rbind] chain in hypothesis [H] into the success of
    each call, and an [if] or a [match] on the way into its cases. *)
Ltac go_step H :=
  match type of H with
  | rbind ?m _ = Ok _ =>
      let E := fresh "E" in destruct m eqn:E; simpl in H; try discriminate H
  | (if ?b then _ else _) = Ok _ =>
      let E := fresh "E" in destruct b eqn:E; try discriminate H
  | match ?m with _ => _ end = Ok _ =>
      let E := fresh "E" in destruct m eqn:E; try discriminate H
  | Ok _ = Ok _ => injection H as H; try subst
  end.
Ltac go_inv H := repeat go_step H.

(** Turns boolean comparisons in the context into propositions. *)
Ltac bools :=
  repeat match goal with
  | H : _ && _ = true |- _ => apply andb_prop in H; destruct H
  | H : _ || _ = false |- _ => apply orb_false_elim in H; destruct H
  | H : negb _ = true |- _ => apply negb_true_iff in H
  | H : negb _ = false |- _ => apply negb_false_iff in H
  | H : (_ =? _)%Z = true |- _ => apply Z.eqb_eq in H
  | H : (_ =? _)%Z = false |- _ => apply Z.eqb_neq in H
  | H : (_ <? _)%Z = true |- _ => apply Z.ltb_lt in H
  | H : (_ <? _)%Z = false |- _ => apply Z.ltb_ge in H
  | H : (_ <=? _)%Z = true |- _ => apply Z.leb_le in H
  | H : (_ <=? _)%Z = false |- _ => apply Z.leb_gt in H
  | H : bool_decide _ = true |- _ => apply bool_decide_eq_true in H
  | H : bool_decide _ = false |- _ => apply bool_decide_eq_false in H
  end.

(** Splits [m s = (Ok a, s')] for a [mbind] chain into its calls. *)
Ltac m_step H :=
  match type of H with
  | mbind ?m _ ?s = (Ok _, _) =>
      let r := fresh "r" in let s1 := fresh "st" in let E := fresh "E" in
      unfold mbind at 1 in H; destruct (m s) as [r s1] eqn:E; destruct r; try discriminate H
  end.

Create HintDb indigo.

(** ** Lists *)

Lemma filter_ext_in {A} (P Q : A -> Prop) `{!forall x, Decision (P x)} `{!forall x, Decision (Q x)}
    (l : list A) :
  (forall x, x ∈ l -> P x <-> Q x) -> filter P l = filter Q l.
Proof.
  induction l as [|x l IH]; intros Hiff; [done|]. rewrite !filter_cons.
  pose proof (Hiff x (list_elem_of_here _ _)). rewrite IH by (intros; apply Hiff; by right).
  repeat case_decide; tauto.
Qed.

(** ** Machine integers *)

Definition MaxUint64 : Z := 2 ^ 64 - 1.

(** The value of an unbounded integer stored in a [uint64] and in an [int64]. *)
Definition u64 (z : Z) : Z := z mod 2 ^ 64.
Definition i64 (z : Z) : Z := (z + 2 ^ 63) mod 2 ^ 64 - 2 ^ 63.
Definition is_u64 (z : Z) : Prop := 0 <= z < 2 ^ 64.

Lemma u64_range z : 0 <= u64 z < 2 ^ 64.
Proof. apply Z.mod_pos_bound. lia. Qed.

Lemma u64_is_u64 z : is_u64 (u64 z).
Proof. apply u64_range. Qed.

Lemma u64_small z : is_u64 z -> u64 z = z.
Proof. intros H. by apply Z.mod_small. Qed.

Lemma i64_small z : - 2 ^ 63 <= z < 2 ^ 63 -> i64 z = z.
Proof. intros H. unfold i64. rewrite Z.mod_small; lia. Qed.

#[export] Hint Resolve u64_is_u64 : indigo.

(** ** Bytes *)

#[global] Instance byte_eq_dec : EqDecision byte.
Proof. intros x y. destruct (Byte.eqb x y) eqn:E.
  - left. by apply Byte.byte_dec_bl.
  - right. intros ->. assert (Byte.eqb y y = true) by (by apply Byte.byte_dec_lb). congruence.
Defined.

Definition byte_to_Z (b : byte) : Z := Z.of_N (Byte.to_N b).
Definition byte_of_Z (z : Z) : byte :=
  match Byte.of_N (Z.to_N (z mod 256)) with Some b => b | None => x00 end.

Lemma byte_to_Z_range b : 0 <= byte_to_Z b < 256.
Proof.
  unfold byte_to_Z. pose proof (Byte.to_N_bounded b). lia.
Qed.

Lemma byte_to_of_Z z : byte_to_Z (byte_of_Z z) = z mod 256.
Proof.
  unfold byte_of_Z, byte_to_Z. pose proof (Z.mod_pos_bound z 256 ltac:(lia)) as Hz.
  destruct (Byte.of_N (Z.to_N (z mod 256))) eqn:E.
  - rewrite (Byte.to_of_N _ E). lia.
  - apply Byte.of_N_None_iff in E. lia.
Qed.

Lemma byte_to_Z_inj b c : byte_to_Z b = byte_to_Z c -> b = c.
Proof.
  unfold byte_to_Z. intros H%N2Z.inj.
  pose proof (Byte.of_to_N b). pose proof (Byte.of_to_N c). congruence.
Qed.

Lemma byte_of_to_Z b : byte_of_Z (byte_to_Z b) = b.
Proof.
  apply byte_to_Z_inj. rewrite byte_to_of_Z. apply Z.mod_small, byte_to_Z_range.
Qed.

(** ** Big-endian byte strings *)

(** [new(big.Int).SetBytes(bs)] *)
Fixpoint be_acc (acc : Z) (bs : list byte) : Z :=
  match bs with
  | [] => acc
  | b :: bs' => be_acc (acc * 256 + byte_to_Z b) bs'
  end.
Definition be_value (bs : list byte) : Z := be_acc 0 bs.

(** The [n] low bytes of [z], most significant first. *)
Fixpoint be_bytes (n : nat) (z : Z) : list byte :=
  match n with
  | O => []
  | S n' => be_bytes n' (z / 256) ++ [byte_of_Z z]
  end.

(** [x.BitLen()] *)
Definition BitLen (z : Z) : Z := if z =? 0 then 0 else Z.log2 (Z.abs z) + 1.

(** [x.Bytes()]: the minimal big-endian encoding of the absolute value. *)
Definition big_bytes (z : Z) : list byte :=
  be_bytes (Z.to_nat ((BitLen z + 7) / 8)) (Z.abs z).

(** [x.Uint64()] and [x.Int64()] *)
Definition bigUint64 (z : Z) : Z := Z.abs z mod 2 ^ 64.
Definition bigInt64 (z : Z) : Z :=
  if z <? 0 then i64 (- i64 (bigUint64 z)) else i64 (bigUint64 z).

Lemma be_acc_value acc bs : be_acc acc bs = acc * 256 ^ Z.of_nat (length bs) + be_value bs.
Proof.
  unfold be_value. revert acc. induction bs as [|b bs IH]; intros acc.
  - simpl. lia.
  - cbn [be_acc length]. rewrite IH, (IH (0 * 256 + byte_to_Z b)).
    rewrite Nat2Z.inj_succ, Z.pow_succ_r by lia. ring.
Qed.

Lemma be_value_cons b bs :
  be_value (b :: bs) = byte_to_Z b * 256 ^ Z.of_nat (length bs) + be_value bs.
Proof. unfold be_value at 1. cbn [be_acc]. rewrite be_acc_value. f_equal. Qed.

Lemma be_value_single b : be_value [b] = byte_to_Z b.
Proof. rewrite be_value_cons. cbn. lia. Qed.

Lemma be_value_app bs cs :
  be_value (bs ++ cs) = be_value bs * 256 ^ Z.of_nat (length cs) + be_value cs.
Proof.
  induction bs as [|b bs IH]; [reflexivity|].
  rewrite <- app_comm_cons, !be_value_cons, IH, length_app, Nat2Z.inj_add, Z.pow_add_r by lia.
  ring.
Qed.

Lemma be_value_range bs : 0 <= be_value bs < 256 ^ Z.of_nat (length bs).
Proof.
  induction bs as [|b bs IH]; [cbv; split; congruence|].
  rewrite be_value_cons. pose proof (byte_to_Z_range b).
  cbn [length]. rewrite Nat2Z.inj_succ, Z.pow_succ_r by lia. nia.
Qed.

Lemma length_be_bytes n z : length (be_bytes n z) = n.
Proof.
  revert z. induction n as [|n IH]; intros z; [done|].
  cbn [be_bytes]. rewrite length_app, IH. simpl. lia.
Qed.

Lemma be_value_be_bytes n z : be_value (be_bytes n z) = z mod 256 ^ Z.of_nat n.
Proof.
  revert z. induction n as [|n IH]; intros z.
  - simpl. by rewrite Z.mod_1_r.
  - cbn [be_bytes]. rewrite be_value_app, IH, be_value_single, byte_to_of_Z.
    change (256 ^ Z.of_nat (length [byte_of_Z z])) with 256.
    replace (256 ^ Z.of_nat (S n)) with (256 * 256 ^ Z.of_nat n)
      by (rewrite Nat2Z.inj_succ, Z.pow_succ_r by lia; done).
    rewrite (Z.rem_mul_r z 256) by lia. lia.
Qed.

Lemma be_bytes_be_value bs : be_bytes (length bs) (be_value bs) = bs.
Proof.
  induction bs as [|b bs IH] using rev_ind; [done|].
  rewrite length_app, Nat.add_comm. cbn [length Nat.add be_bytes].
  rewrite be_value_app. change (256 ^ Z.of_nat (length [b])) with 256.
  rewrite be_value_single.
  pose proof (byte_to_Z_range b).
  rewrite Z.div_add_l, Z.div_small, Z.add_0_r, IH by lia.
  f_equal. f_equal. apply byte_to_Z_inj. rewrite byte_to_of_Z.
  rewrite Z.add_comm, Z.mod_add, Z.mod_small by lia. done.
Qed.

Lemma be_value_inj bs cs : length bs = length cs -> be_value bs = be_value cs -> bs = cs.
Proof.
  intros Hl Hv. rewrite <- (be_bytes_be_value bs), <- (be_bytes_be_value cs). congruence.
Qed.

Lemma BitLen_nonneg z : 0 <= BitLen z.
Proof. unfold BitLen. case_match; [lia|]. pose proof (Z.log2_nonneg (Z.abs z)). lia. Qed.

Lemma BitLen_bound z : Z.abs z < 2 ^ BitLen z.
Proof.
  unfold BitLen. case_match eqn:E; bools; [subst; done|].
  pose proof (Z.log2_spec (Z.abs z)). lia.
Qed.

Lemma BitLen_le z n : 0 <= n -> BitLen z <= n <-> Z.abs z < 2 ^ n.
Proof.
  intros Hn. unfold BitLen. case_match eqn:E; bools.
  - subst. pose proof (Z.pow_pos_nonneg 2 n). simpl. lia.
  - rewrite Z.log2_lt_pow2 by lia. lia.
Qed.

Lemma be_value_big_bytes z : be_value (big_bytes z) = Z.abs z.
Proof.
  unfold big_bytes. rewrite be_value_be_bytes. apply Z.mod_small.
  split; [lia|]. eapply Z.lt_le_trans; [apply BitLen_bound|].
  pose proof (BitLen_nonneg z). set (k := (BitLen z + 7) / 8).
  assert (BitLen z <= 8 * k) by (subst k; pose proof (Z.div_mod (BitLen z + 7) 8);
    pose proof (Z.mod_pos_bound (BitLen z + 7) 8); lia).
  assert (0 <= k) by (subst k; apply Z.div_pos; lia).
  rewrite Z2Nat.id by lia. change 256 with (2 ^ 8). rewrite <- Z.pow_mul_r by lia.
  apply Z.pow_le_mono_r; lia.
Qed.

