(* ===== verification/Rlp.v ===== *)
(** * Package rlp: encoding, and splitting of encoded values

    The encoder of src/rlp/encode.go with its buffer: string data goes to [ebStr],
    list headers to [ebHeads] with the place where they belong, and [toBytes]
    merges the two.  The source finds the writer of a value by reflection on its
    type; here a value is a tree [rlpValue] whose constructors stand for the
    writers.  [rlpBytes] is the encoding as the format defines it; the encoder is
    proved to compute it in [RlpProofs].  Also the functions of src/rlp/raw.go that
    split encoded values without decoding them. *)

From stdpp Require Import base numbers list option.
From Stdlib Require Import ZArith Lia Strings.Byte.
From S2P Require Import Prelude.

(** ** Values and errors *)

(** What the writers distinguish: byte strings and arrays, unsigned integers, bools,
    [*big.Int] (nil or not), [RawValue], lists, structs and arrays, slices with the
    tag "tail", whose elements go straight into the enclosing list, and nil pointers to
    other types, with the value that is written for them.  A pointer that is not nil
    writes what it points to and has no constructor of its own. *)
Inductive rlpValue :=
| RBytes (bs : list byte)
| RUint (z : Z)
| RBool (b : bool)
| RBig (z : option Z)
| RRaw (bs : list byte)
| RList (l : list rlpValue)
| RTail (l : list rlpValue)
| RNil (zero : rlpValue).

(** The errors of decode.go and encode.go; [wrapStreamError] and [addErrorContext]
    only add text to them. *)
Inductive rlpErr :=
| errNegativeBig
| EOL
| ErrExpectedString
| ErrExpectedList
| ErrCanonInt
| ErrCanonSize
| ErrElemTooLarge
| ErrValueTooLarge
| ErrMoreThanOneValue
| errNotInList
| errNotAtEOL
| errUintOverflow
| errInvalidBool
| errInputTooLong
| errInputTooShort
| errTooFewElements
| errEOF
| errUnexpectedEOF.

#[global] Instance rlpErr_eq_dec : EqDecision rlpErr.
Proof. solve_decision. Defined.

(** ** encode.go *)

(** The bytes that [putint] writes. *)
Definition putint (i : Z) : list byte :=
  let b k := byte_of_Z (Z.shiftr i k) in
  if i <? 2 ^ 8 then [b 0]
  else if i <? 2 ^ 16 then [b 8; b 0]
  else if i <? 2 ^ 24 then [b 16; b 8; b 0]
  else if i <? 2 ^ 32 then [b 24; b 16; b 8; b 0]
  else if i <? 2 ^ 40 then [b 32; b 24; b 16; b 8; b 0]
  else if i <? 2 ^ 48 then [b 40; b 32; b 24; b 16; b 8; b 0]
  else if i <? 2 ^ 56 then [b 48; b 40; b 32; b 24; b 16; b 8; b 0]
  else [b 56; b 48; b 40; b 32; b 24; b 16; b 8; b 0].

(** [intsize]: at most eight rounds for a uint64. *)
Fixpoint intsizeLoop (fuel : nat) (size i : Z) : Z :=
  match fuel with
  | O => size
  | S fuel => let i := Z.shiftr i 8 in if i =? 0 then size else intsizeLoop fuel (size + 1) i
  end.
Definition intsize (i : Z) : Z := intsizeLoop 8 1 i.

Definition headsize (size : Z) : Z := if size <? 56 then 1 else 1 + intsize size.

Definition puthead (smalltag largetag size : Z) : list byte :=
  if size <? 56 then [byte_of_Z (smalltag + size)]
  else let sizebytes := putint size in
       byte_of_Z (largetag + Z.of_nat (length sizebytes)) :: sizebytes.

(** *** The buffer *)

Record listhead := mkHead { lhOffset : Z; lhSize : Z }.
Record encbuf := mkEncbuf { ebStr : list byte; ebHeads : list listhead; ebLhsize : Z }.
Definition newEncbuf : encbuf := mkEncbuf [] [] 0.

Definition headEncode (h : listhead) : list byte := puthead 0xc0 0xf7 (lhSize h).
Definition ebSize (w : encbuf) : Z := Z.of_nat (length (ebStr w)) + ebLhsize w.
Definition ebAppend (b : list byte) (w : encbuf) : encbuf := mkEncbuf (ebStr w ++ b) (ebHeads w) (ebLhsize w).

Definition encodeStringHeader (size : Z) (w : encbuf) : encbuf := ebAppend (puthead 0x80 0xb7 size) w.

(** A single byte up to 0x7f is its own encoding. *)
Definition encodeString (b : list byte) (w : encbuf) : encbuf :=
  match b with
  | [x] => if byte_to_Z x <=? 0x7f then ebAppend [x] w else ebAppend b (encodeStringHeader 1 w)
  | _ => ebAppend b (encodeStringHeader (Z.of_nat (length b)) w)
  end.

(** [list] and [listEnd]: the header is found again by its index. *)
Definition ebList (w : encbuf) : nat * encbuf :=
  (length (ebHeads w),
   mkEncbuf (ebStr w) (ebHeads w ++ [mkHead (Z.of_nat (length (ebStr w))) (ebLhsize w)]) (ebLhsize w)).
Definition ebListEnd (lh : nat) (w : encbuf) : encbuf :=
  match ebHeads w !! lh with
  | None => w
  | Some h =>
      let size := ebSize w - lhOffset h - lhSize h in
      mkEncbuf (ebStr w) (<[lh := mkHead (lhOffset h) size]> (ebHeads w))
        (ebLhsize w + if size <? 56 then 1 else 1 + intsize size)
  end.

(** *** The writers *)

Definition writeUint (i : Z) (w : encbuf) : encbuf :=
  if i =? 0 then ebAppend [x80] w
  else if i <? 128 then ebAppend [byte_of_Z i] w
  else let s := putint i in ebAppend (byte_of_Z (0x80 + Z.of_nat (length s)) :: s) w.

Definition writeBool (b : bool) (w : encbuf) : encbuf := ebAppend [if b then x01 else x80] w.

Definition writeBigInt (i : Z) (w : encbuf) : result rlpErr encbuf :=
  if i <? 0 then Err errNegativeBig
  else if i =? 0 then Ok (ebAppend [x80] w)
  else Ok (encodeString (big_bytes i) w).

Fixpoint writeValue (v : rlpValue) (w : encbuf) : result rlpErr encbuf :=
  let fix writeAll (l : list rlpValue) (w : encbuf) : result rlpErr encbuf :=
    match l with
    | [] => Ok w
    | v :: l => let* w := writeValue v w in writeAll l w
    end in
  match v with
  | RBytes bs => Ok (encodeString bs w)
  | RUint z => Ok (writeUint z w)
  | RBool b => Ok (writeBool b w)
  | RBig None => Ok (ebAppend [x80] w)
  | RBig (Some z) => writeBigInt z w
  | RRaw bs => Ok (ebAppend bs w)
  | RList l =>
      let '(lh, w) := ebList w in
      let* w := writeAll l w in
      Ok (ebListEnd lh w)
  | RTail l => writeAll l w
  | RNil zero => writeValue zero w
  end.

(** *** Merging *)

(** [copy(out[pos:], src)], which stops at the end of [out]. *)
Definition copyAt (out : list byte) (pos : nat) (src : list byte) : list byte :=
  let src := take (length out - pos) src in
  take pos out ++ src ++ drop (pos + length src) out.

(** The loop of [toBytes].  A slice with crossed bounds and a header that does not
    fit panic. *)
Fixpoint toBytesLoop (heads : list listhead) (str : list byte) (strpos pos : nat) (out : list byte)
    : result rlpErr (nat * nat * list byte) :=
  match heads with
  | [] => Ok (strpos, pos, out)
  | h :: heads =>
      let before := take (Z.to_nat (lhOffset h) - strpos) (drop strpos str) in
      let n := (length before `min` (length out - pos))%nat in
      let out := copyAt out pos before in
      let enc := headEncode h in
      if (Z.to_nat (lhOffset h) <? strpos)%nat || (length out <? pos + n + length enc)%nat then Panic
      else toBytesLoop heads str (strpos + n) (pos + n + length enc) (copyAt out (pos + n) enc)
  end.

Definition toBytes (w : encbuf) : result rlpErr (list byte) :=
  let* (strpos, pos, out) := toBytesLoop (ebHeads w) (ebStr w) 0 0 (replicate (Z.to_nat (ebSize w)) x00) in
  Ok (copyAt out pos (drop strpos (ebStr w))).

Definition EncodeToBytes (v : rlpValue) : result rlpErr (list byte) :=
  let* w := writeValue v newEncbuf in toBytes w.

(** ** The format *)

Definition encString (b : list byte) : list byte :=
  match b with
  | [x] => if byte_to_Z x <=? 0x7f then [x] else x81 :: [x]
  | _ => puthead 0x80 0xb7 (Z.of_nat (length b)) ++ b
  end.
Definition encList (payload : list byte) : list byte :=
  puthead 0xc0 0xf7 (Z.of_nat (length payload)) ++ payload.

Fixpoint rlpBytes (v : rlpValue) : list byte :=
  match v with
  | RBytes bs => encString bs
  | RUint z => encString (big_bytes z)
  | RBool b => [if b then x01 else x80]
  | RBig z => encString (big_bytes (default 0 z))
  | RRaw bs => bs
  | RList l => encList (mjoin (rlpBytes <$> l))
  | RTail l => mjoin (rlpBytes <$> l)
  | RNil zero => rlpBytes zero
  end.

(** Unsigned integers in range, and no negative big integers. *)
Fixpoint encodable (v : rlpValue) : bool :=
  match v with
  | RUint z => (0 <=? z) && (z <? 2 ^ 64)
  | RBig (Some z) => 0 <=? z
  | RList l | RTail l => forallb encodable l
  | RNil zero => encodable zero
  | _ => true
  end.

(** ** raw.go *)

Inductive Kind := KByte | KString | KList.
#[global] Instance Kind_eq_dec : EqDecision Kind.
Proof. solve_decision. Defined.

Definition ListSize (contentSize : Z) : Z := u64 (headsize contentSize + contentSize).

(** [readSize]: the switch has no case beyond eight bytes, but a tag has none either. *)
Definition readSize (b : list byte) (slen : Z) : result rlpErr Z :=
  if slen >? Z.of_nat (length b) then Err errUnexpectedEOF
  else
    let s := be_value (take (Z.to_nat slen) b) in
    match b with
    | [] => Panic
    | b0 :: _ => if (s <? 56) || (byte_to_Z b0 =? 0) then Err ErrCanonSize else Ok s
    end.

(** The kind, the size of the tag and the size of the content. *)
Definition readKind (buf : list byte) : result rlpErr (Kind * Z * Z) :=
  match buf with
  | [] => Err errUnexpectedEOF
  | b0 :: rest =>
      let b := byte_to_Z b0 in
      let* (k, tagsize, contentsize) :=
        if b <? 0x80 then Ok (KByte, 0, 1)
        else if b <? 0xb8 then
          let contentsize := b - 0x80 in
          if (contentsize =? 1) && match rest with b1 :: _ => byte_to_Z b1 <? 128 | [] => false end
          then Err ErrCanonSize
          else Ok (KString, 1, contentsize)
        else if b <? 0xc0 then
          let* contentsize := readSize rest (b - 0xb7) in Ok (KString, b - 0xb7 + 1, contentsize)
        else if b <? 0xf8 then Ok (KList, 1, b - 0xc0)
        else
          let* contentsize := readSize rest (b - 0xf7) in Ok (KList, b - 0xf7 + 1, contentsize) in
      if contentsize >? u64 (Z.of_nat (length buf) - tagsize) then Err ErrValueTooLarge
      else Ok (k, tagsize, contentsize)
  end.

(** [Split]: kind, content and the bytes after the value. *)
Definition Split (b : list byte) : result rlpErr (Kind * list byte * list byte) :=
  let* (k, ts, cs) := readKind b in
  Ok (k, take (Z.to_nat cs) (drop (Z.to_nat ts) b), drop (Z.to_nat (ts + cs)) b).

Definition SplitString (b : list byte) : result rlpErr (list byte * list byte) :=
  let* (k, content, rest) := Split b in
  if bool_decide (k = KList) then Err ErrExpectedString else Ok (content, rest).

Definition SplitList (b : list byte) : result rlpErr (list byte * list byte) :=
  let* (k, content, rest) := Split b in
  if negb (bool_decide (k = KList)) then Err ErrExpectedList else Ok (content, rest).

(** Every round drops at least one byte. *)
Fixpoint countLoop (fuel : nat) (i : Z) (b : list byte) : result rlpErr Z :=
  match fuel with
  | O => NoFuel
  | S fuel =>
      match b with
      | [] => Ok i
      | _ =>
          let* (_, tagsize, size) := readKind b in
          countLoop fuel (i + 1) (drop (Z.to_nat (tagsize + size)) b)
      end
  end.
Definition CountValues (b : list byte) : result rlpErr Z := countLoop (S (length b)) 0 b.
