(* ===== verification/RlpStream.v ===== *)
(** * Package rlp: decoding

    The [Stream] of src/rlp/decode.go and the decoders built on it.  A stream reads
    from a byte source; it keeps the position in each enclosing list and caches the
    kind of the value ahead.  The source chooses a decoder by reflection on the
    type it decodes into; here that type is a [goType], and [decoder] follows the
    cases of [makeDecoder].

    Loops over list elements and the recursion of [decodeInterface] have the input
    length as fuel. *)

From stdpp Require Import base numbers list option.
From Stdlib Require Import ZArith Lia Strings.Byte.
From S2P Require Import Prelude Rlp.

(** ** Stream *)

Record listpos := mkListpos { lpPos : Z; lpSize : Z }.

(** [sIn] is the unread input of the reader; [sKind] is [None] for the source's -1;
    the innermost list is the head of [sStack]. *)
Record Stream := mkStream {
  sIn : list byte;
  sRemaining : Z;
  sLimited : bool;
  sKind : option Kind;
  sSize : Z;
  sByteval : byte;
  sKinderr : option rlpErr;
  sStack : list listpos
}.

Definition s_with_in (x : list byte) (s : Stream) : Stream :=
  mkStream x (sRemaining s) (sLimited s) (sKind s) (sSize s) (sByteval s) (sKinderr s) (sStack s).
Definition s_with_remaining (x : Z) (s : Stream) : Stream :=
  mkStream (sIn s) x (sLimited s) (sKind s) (sSize s) (sByteval s) (sKinderr s) (sStack s).
Definition s_with_kind (x : option Kind) (s : Stream) : Stream :=
  mkStream (sIn s) (sRemaining s) (sLimited s) x (sSize s) (sByteval s) (sKinderr s) (sStack s).
Definition s_with_size (x : Z) (s : Stream) : Stream :=
  mkStream (sIn s) (sRemaining s) (sLimited s) (sKind s) x (sByteval s) (sKinderr s) (sStack s).
Definition s_with_byteval (x : byte) (s : Stream) : Stream :=
  mkStream (sIn s) (sRemaining s) (sLimited s) (sKind s) (sSize s) x (sKinderr s) (sStack s).
Definition s_with_kinderr (x : option rlpErr) (s : Stream) : Stream :=
  mkStream (sIn s) (sRemaining s) (sLimited s) (sKind s) (sSize s) (sByteval s) x (sStack s).
Definition s_with_stack (x : list listpos) (s : Stream) : Stream :=
  mkStream (sIn s) (sRemaining s) (sLimited s) (sKind s) (sSize s) (sByteval s) (sKinderr s) x.

Notation SM := (M Stream rlpErr).

(** [Reset] on a fresh stream over a byte slice: without a limit of its own the
    stream takes the length of the input. *)
Definition NewStream (b : list byte) (inputLimit : Z) : Stream :=
  mkStream b (if inputLimit >? 0 then inputLimit else Z.of_nat (length b)) true None 0 x00 None [].
Definition NewListStream (b : list byte) (len : Z) : Stream :=
  s_with_size len (s_with_kind (Some KList) (NewStream b len)).

Definition rearm : SM unit := modify (s_with_kind None).

Definition willRead (n : Z) : SM unit := fun s =>
  let s := s_with_kind None s in
  let '(over, s) :=
    match sStack s with
    | tos :: st =>
        if n >? u64 (lpSize tos - lpPos tos) then (true, s)
        else (false, s_with_stack (mkListpos (u64 (lpPos tos + n)) (lpSize tos) :: st) s)
    | [] => (false, s)
    end in
  if over then (Err ErrElemTooLarge, s)
  else if sLimited s then
    if n >? sRemaining s then (Err ErrValueTooLarge, s)
    else (Ok tt, s_with_remaining (sRemaining s - n) s)
  else (Ok tt, s).

Definition readByte : SM byte :=
  let! _ := willRead 1 in
  fun s => match sIn s with
           | [] => (Err errUnexpectedEOF, s)
           | b :: r => (Ok b, s_with_in r s)
           end.

Definition readFull (n : Z) : SM (list byte) :=
  let! _ := willRead n in
  fun s => let b := take (Z.to_nat n) (sIn s) in
           let s := s_with_in (drop (Z.to_nat n) (sIn s)) s in
           if Z.of_nat (length b) <? n then (Err errUnexpectedEOF, s) else (Ok b, s).

Definition readUint (size : Z) : SM Z :=
  if size =? 0 then let! _ := rearm in ret 0
  else if size =? 1 then let! b := readByte in ret (byte_to_Z b)
  else
    let! buf := readFull size in
    match buf with
    | b :: _ => if byte_to_Z b =? 0 then throw ErrCanonSize else ret (be_value buf)
    | [] => ret 0
    end.

(** The kind and the size ahead, and an error; both are stored even with an error. *)
Definition sReadKind (s : Stream) : (Kind * Z * option rlpErr) * Stream :=
  let '(r, s) := readByte s in
  match r with
  | Err e =>
      let e := match sStack s, e with
               | [], errUnexpectedEOF | [], ErrValueTooLarge => errEOF
               | _, _ => e
               end in
      ((KByte, 0, Some e), s)
  | Ok b0 =>
      let s := s_with_byteval x00 s in
      let b := byte_to_Z b0 in
      let sized (k : Kind) (n : Z) :=
        let '(r, s) := readUint n s in
        match r with
        | Ok size => ((k, size, if size <? 56 then Some ErrCanonSize else None), s)
        | Err e => ((k, 0, Some e), s)
        | _ => ((k, 0, None), s)
        end in
      if b <? 0x80 then ((KByte, 0, None), s_with_byteval b0 s)
      else if b <? 0xb8 then ((KString, b - 0x80, None), s)
      else if b <? 0xc0 then sized KString (b - 0xb7)
      else if b <? 0xf8 then ((KList, b - 0xc0, None), s)
      else sized KList (b - 0xf7)
  | _ => ((KByte, 0, None), s)
  end.

Definition atEnd (s : Stream) : bool :=
  match sStack s with tos :: _ => lpPos tos =? lpSize tos | [] => false end.

(** The value ahead must fit into the input or into the enclosing list. *)
Definition checkFits (size : Z) (s : Stream) : option rlpErr :=
  match sStack s with
  | [] => if sLimited s && (size >? sRemaining s) then Some ErrValueTooLarge else None
  | tos :: _ => if size >? u64 (lpSize tos - lpPos tos) then Some ErrElemTooLarge else None
  end.

(** [Kind] *)
Definition sKindOf : SM (Kind * Z) := fun s =>
  match sKind s with
  | Some k => (match sKinderr s with None => Ok (k, sSize s) | Some e => Err e end, s)
  | None =>
      let s := s_with_kinderr None s in
      if atEnd s then (Err EOL, s)
      else
        let '((k, size, err), s) := sReadKind s in
        let err := match err with Some e => Some e | None => checkFits size s end in
        (match err with None => Ok (k, size) | Some e => Err e end,
         s_with_kinderr err (s_with_size size (s_with_kind (Some k) s)))
  end.

Definition sBytes : SM (list byte) :=
  let! (kind, size) := sKindOf in
  match kind with
  | KByte => let! _ := rearm in let! s := gets (fun s => s) in ret [sByteval s]
  | KString =>
      let! b := readFull size in
      if (size =? 1) && match b with b0 :: _ => byte_to_Z b0 <? 128 | [] => false end
      then throw ErrCanonSize else ret b
  | KList => throw ErrExpectedString
  end.

Definition sRaw : SM (list byte) :=
  let! (kind, size) := sKindOf in
  match kind with
  | KByte => let! _ := rearm in let! s := gets (fun s => s) in ret [sByteval s]
  | KString => let! b := readFull size in ret (puthead 0x80 0xb7 size ++ b)
  | KList => let! b := readFull size in ret (puthead 0xc0 0xf7 size ++ b)
  end.

Definition sUint (maxbits : Z) : SM Z :=
  let! (kind, size) := sKindOf in
  match kind with
  | KByte =>
      let! s := gets (fun s => s) in
      if byte_to_Z (sByteval s) =? 0 then throw ErrCanonInt
      else let! _ := rearm in ret (byte_to_Z (sByteval s))
  | KString =>
      if size >? maxbits / 8 then throw errUintOverflow
      else fun s =>
        let '(r, s) := readUint size s in
        match r with
        | Err ErrCanonSize => (Err ErrCanonInt, s)
        | Ok v => if (size >? 0) && (v <? 128) then (Err ErrCanonSize, s) else (Ok v, s)
        | r => (r, s)
        end
  | KList => throw ErrExpectedString
  end.

Definition sBool : SM bool :=
  let! num := sUint 8 in
  if num =? 0 then ret false else if num =? 1 then ret true else throw errInvalidBool.

Definition sList : SM Z :=
  let! (kind, size) := sKindOf in
  match kind with
  | KList =>
      let! _ := modify (fun s => s_with_size 0 (s_with_kind None
                          (s_with_stack (mkListpos 0 size :: sStack s) s))) in
      ret size
  | _ => throw ErrExpectedList
  end.

Definition sListEnd : SM unit := fun s =>
  match sStack s with
  | [] => (Err errNotInList, s)
  | tos :: st =>
      if negb (lpPos tos =? lpSize tos) then (Err errNotAtEOL, s)
      else
        let st := match st with
                  | outer :: st => mkListpos (u64 (lpPos outer + lpSize tos)) (lpSize outer) :: st
                  | [] => []
                  end in
        (Ok tt, s_with_size 0 (s_with_kind None (s_with_stack st s)))
  end.

(** ** Decoders *)

(** The types that [makeDecoder] distinguishes.  Pointers without the tag "nil"
    decode like the type they point to, and strings like byte slices. *)
Inductive goType :=
| TUint (bits : Z)
| TBool
| TBig
| TBytes
| TByteArray (n : nat)
| TSlice (t : goType)
| TTail (t : goType)
| TArray (n : nat) (t : goType)
| TStruct (fields : list goType)
| TOptional (t : goType)
| TInterface
| TRaw.

Definition decodeBigInt : SM rlpValue :=
  let! b := sBytes in
  match b with
  | b0 :: _ => if byte_to_Z b0 =? 0 then throw ErrCanonInt else ret (RBig (Some (be_value b)))
  | [] => ret (RBig (Some 0))
  end.

(** An array of bytes.  The error of [Uint] is ignored, and with it that the byte
    stays ahead. *)
Definition decodeByteArray (vlen : Z) : SM rlpValue :=
  let! (kind, size) := sKindOf in
  match kind with
  | KByte =>
      if vlen =? 0 then throw errInputTooLong
      else if vlen >? 1 then throw errInputTooShort
      else fun s =>
        let '(r, s) := sUint 64 s in
        (Ok (RBytes [byte_of_Z (match r with Ok v => v | _ => 0 end)]), s)
  | KString =>
      if vlen <? size then throw errInputTooLong
      else if vlen >? size then throw errInputTooShort
      else
        let! b := readFull vlen in
        if (size =? 1) && match b with b0 :: _ => byte_to_Z b0 <? 128 | [] => false end
        then throw ErrCanonSize else ret (RBytes b)
  | KList => throw ErrExpectedString
  end.

(** The loop of [decodeSliceElems], up to the end of the list. *)
Fixpoint decodeElems (fuel : nat) (elem : SM rlpValue) : SM (list rlpValue) := fun s =>
  match fuel with
  | O => (NoFuel, s)
  | S fuel =>
      let '(r, s) := elem s in
      match r with
      | Err EOL => (Ok [], s)
      | Ok v =>
          let '(r, s) := decodeElems fuel elem s in
          (let* vs := r in Ok (v :: vs), s)
      | Err e => (Err e, s)
      | Panic => (Panic, s)
      | NoFuel => (NoFuel, s)
      end
  end.
Definition decodeSliceElems (elem : SM rlpValue) : SM (list rlpValue) := fun s =>
  decodeElems (S (length (sIn s))) elem s.

Definition decodeListSlice (elems : SM (list rlpValue)) : SM rlpValue :=
  let! size := sList in
  if size =? 0 then let! _ := sListEnd in ret (RList [])
  else
    let! l := elems in
    let! _ := sListEnd in
    ret (RList l).

(** The elements of an array and the fields of a struct: too few end with EOL. *)
Fixpoint decodeArrayElems (n : nat) (elem : SM rlpValue) : SM (list rlpValue) :=
  match n with
  | O => ret []
  | S n => fun s =>
      let '(r, s) := elem s in
      match r with
      | Err EOL => (Err errTooFewElements, s)
      | Ok v => let '(r, s) := decodeArrayElems n elem s in (let* vs := r in Ok (v :: vs), s)
      | Err e => (Err e, s)
      | Panic => (Panic, s)
      | NoFuel => (NoFuel, s)
      end
  end.

Definition decodeFieldsWith (decoders : list (SM rlpValue)) : SM (list rlpValue) :=
  foldr (fun dec rest s =>
    let '(r, s) := dec s in
    match r with
    | Err EOL => (Err errTooFewElements, s)
    | Ok v => let '(r, s) := rest s in (let* vs := r in Ok (v :: vs), s)
    | Err e => (Err e, s)
    | Panic => (Panic, s)
    | NoFuel => (NoFuel, s)
    end) (ret []) decoders.

(** [decodeInterface]: lists of lists and strings. *)
Fixpoint decodeInterface (fuel : nat) : SM rlpValue :=
  match fuel with
  | O => fun s => (NoFuel, s)
  | S fuel =>
      let! (kind, _) := sKindOf in
      if bool_decide (kind = KList) then decodeListSlice (decodeSliceElems (decodeInterface fuel))
      else let! b := sBytes in ret (RBytes b)
  end.

(** What is written for a nil pointer to the type: the zero value, or for a struct or
    an array of other things than bytes an empty list. *)
Definition nilValue (t : goType) : rlpValue :=
  match t with
  | TStruct _ | TArray _ _ | TSlice _ | TInterface => RList []
  | TTail _ => RTail []
  | TUint _ => RUint 0
  | TBool => RBool false
  | TBig => RBig None
  | TRaw => RRaw []
  | _ => RBytes []
  end.

(** [makeDecoder] *)
Fixpoint decoder (t : goType) : SM rlpValue :=
  match t with
  | TUint bits => let! v := sUint bits in ret (RUint v)
  | TBool => let! b := sBool in ret (RBool b)
  | TBig => decodeBigInt
  | TBytes => let! b := sBytes in ret (RBytes b)
  | TByteArray n => decodeByteArray (Z.of_nat n)
  | TSlice t => decodeListSlice (decodeSliceElems (decoder t))
  | TTail t => let! l := decodeSliceElems (decoder t) in ret (RTail l)
  | TArray n t =>
      let! _ := sList in
      let! l := decodeArrayElems n (decoder t) in
      let! _ := sListEnd in
      ret (RList l)
  | TStruct ts =>
      let! _ := sList in
      let! l := decodeFieldsWith (decoder <$> ts) in
      let! _ := sListEnd in
      ret (RList l)
  | TOptional t => fun s =>
      let '(r, s) := sKindOf s in
      match r with
      | Ok (kind, size) =>
          if (size =? 0) && negb (bool_decide (kind = KByte))
          then (Ok (RNil (nilValue t)), s_with_kind None s)
          else decoder t s
      | Err e => (Err e, s_with_kind None s)
      | Panic => (Panic, s)
      | NoFuel => (NoFuel, s)
      end
  | TInterface => fun s => decodeInterface (S (length (sIn s))) s
  | TRaw => let! b := sRaw in ret (RRaw b)
  end.

(** [DecodeBytes]: one value and nothing after it. *)
Definition DecodeBytes (b : list byte) (t : goType) : result rlpErr rlpValue :=
  let '(r, s) := decoder t (NewStream b (Z.of_nat (length b))) in
  let* v := r in
  match sIn s with [] => Ok v | _ => Err ErrMoreThanOneValue end.

(** [Decode] from a reader over bytes: what follows the value is left unread. *)
Definition Decode (b : list byte) (t : goType) : result rlpErr rlpValue := fst (decoder t (NewStream b 0)).
