(* ===== verification/RlpProofs.v ===== *)
(** * Package rlp: the encoder computes the format

    The encoder's buffer keeps string data and list headers apart; [pieces] says
    what the two stand for, and every writer adds the pieces of its value. *)

From stdpp Require Import base numbers list option.
From Stdlib Require Import ZArith Lia Strings.Byte.
From S2P Require Import Prelude Rlp.

(** ** Induction on values *)

Section Induction.
Context (P : rlpValue -> Prop).
Context (HBytes : forall bs, P (RBytes bs)) (HUint : forall z, P (RUint z)) (HBool : forall b, P (RBool b))
  (HBig : forall z, P (RBig z)) (HRaw : forall bs, P (RRaw bs))
  (HList : forall l, Forall P l -> P (RList l)) (HTail : forall l, Forall P l -> P (RTail l))
  (HNil : forall v, P v -> P (RNil v)).

Fixpoint rlpValue_ind' (v : rlpValue) : P v :=
  let fix all (l : list rlpValue) : Forall P l :=
    match l with
    | [] => Forall_nil_2 _
    | v :: l => Forall_cons_2 _ _ _ (rlpValue_ind' v) (all l)
    end in
  match v with
  | RBytes bs => HBytes bs
  | RUint z => HUint z
  | RBool b => HBool b
  | RBig z => HBig z
  | RRaw bs => HRaw bs
  | RList l => HList l (all l)
  | RTail l => HTail l (all l)
  | RNil v => HNil v (rlpValue_ind' v)
  end.

End Induction.

(** ** Sizes *)

Lemma shiftr_byte i k : 0 <= k -> Z.shiftr i k = i / 2 ^ k.
Proof. apply Z.shiftr_div_pow2. Qed.

(** The bytes of a number without leading zeros. *)
Definition minBytes (n : nat) (i : Z) : Prop := 256 ^ (Z.of_nat n - 1) <= i < 256 ^ Z.of_nat n.

Lemma big_bytes_min n i : (0 < n)%nat -> minBytes n i -> big_bytes i = be_bytes n i.
Proof.
  intros Hn [Hlo Hhi]. unfold big_bytes. assert (Hpos : 0 < i).
  { assert (0 < 256 ^ (Z.of_nat n - 1)) by (apply Z.pow_pos_nonneg; lia). lia. }
  rewrite Z.abs_eq by lia. f_equal. unfold BitLen. destruct (Z.eqb_spec i 0); [lia|]. rewrite Z.abs_eq by lia.
  change 256 with (2 ^ 8) in *. rewrite <- !Z.pow_mul_r in * by lia.
  assert (8 * (Z.of_nat n - 1) <= Z.log2 i) by (apply Z.log2_le_pow2; lia).
  assert (Z.log2 i < 8 * Z.of_nat n) by (apply Z.log2_lt_pow2; lia).
  enough ((Z.log2 i + 1 + 7) / 8 = Z.of_nat n) by lia.
  symmetry. apply (Z.div_unique_pos _ _ _ (Z.log2 i - 8 * (Z.of_nat n - 1))); lia.
Qed.

Lemma byte_of_Z_mod z : byte_of_Z (z mod 256) = byte_of_Z z.
Proof. unfold byte_of_Z. by rewrite Z.mod_mod by lia. Qed.

(** [putint] gives the minimal bytes of a positive number. *)
Lemma putint_spec i :
  0 < i < 2 ^ 64 -> exists n, (1 <= n <= 8)%nat /\ minBytes n i /\ putint i = be_bytes n i.
Proof.
  intros Hi.
  assert (Hb : forall n, be_bytes n i = (fun k => byte_of_Z (Z.shiftr i (8 * Z.of_nat k))) <$> reverse (seq 0 n)).
  { clear Hi. assert (Hg : forall n j, 0 <= j -> be_bytes n (i / 2 ^ (8 * j)) =
      (fun k => byte_of_Z (Z.shiftr i (8 * Z.of_nat k))) <$> reverse (seq (Z.to_nat j) n)).
    { induction n as [|n IH]; intros j Hj; [done|]. cbn [be_bytes seq]. rewrite reverse_cons, fmap_app.
      rewrite Z.div_div by (try apply Z.pow_pos_nonneg; lia). change 256 with (2 ^ 8).
      rewrite <- Z.pow_add_r by lia. replace (8 * j + 8) with (8 * (j + 1)) by lia.
      rewrite IH by lia. replace (Z.to_nat (j + 1)) with (S (Z.to_nat j)) by lia. f_equal. cbn.
      rewrite shiftr_byte by lia. by rewrite Z2Nat.id by lia. }
    intros n. pose proof (Hg n 0 ltac:(lia)) as E. by rewrite Z.mul_0_r, Z.pow_0_r, Z.div_1_r in E. }
  unfold putint.
  repeat match goal with |- context [i <? ?x] => destruct (Z.ltb_spec i x) end;
    [exists 1%nat|exists 2%nat|exists 3%nat|exists 4%nat|exists 5%nat|exists 6%nat|exists 7%nat|exists 8%nat];
    (split; [lia|]; split; [unfold minBytes; cbn; lia|rewrite Hb; cbn; done]).
Qed.

Lemma putint_big i : 0 < i < 2 ^ 64 -> putint i = big_bytes i.
Proof. intros Hi. destruct (putint_spec i Hi) as (n & Hn & Hm & ->). symmetry. by apply big_bytes_min; [lia|]. Qed.

Lemma intsizeLoop_min fuel size n i :
  (1 <= n <= fuel)%nat -> minBytes n i -> intsizeLoop fuel size i = size + Z.of_nat n - 1.
Proof.
  revert size n i. induction fuel as [|fuel IH]; intros size n i Hn [Hlo Hhi]; [lia|]. cbn [intsizeLoop].
  rewrite shiftr_byte by lia. change (2 ^ 8) with 256.
  destruct (decide (n = 1%nat)) as [->|Hn1].
  - change (256 ^ (Z.of_nat 1 - 1)) with 1 in Hlo. change (256 ^ Z.of_nat 1) with 256 in Hhi.
    rewrite (Z.div_small i 256) by lia. cbn. lia.
  - assert (Hm : minBytes (n - 1) (i / 256)).
    { unfold minBytes. replace (Z.of_nat (n - 1)) with (Z.of_nat n - 1) by lia.
      assert (E1 : 256 ^ (Z.of_nat n - 1) = 256 ^ (Z.of_nat n - 1 - 1) * 256).
      { replace (Z.of_nat n - 1) with (Z.succ (Z.of_nat n - 1 - 1)) at 1 by lia. rewrite Z.pow_succ_r by lia. lia. }
      assert (E2 : 256 ^ Z.of_nat n = 256 * 256 ^ (Z.of_nat n - 1)).
      { replace (Z.of_nat n) with (Z.succ (Z.of_nat n - 1)) at 1 by lia. by rewrite Z.pow_succ_r by lia. }
      split; [apply Z.div_le_lower_bound; lia|apply Z.div_lt_upper_bound; lia]. }
    assert (Hp : 0 < 256 ^ (Z.of_nat (n - 1) - 1)) by (apply Z.pow_pos_nonneg; lia).
    destruct (Z.eqb_spec (i / 256) 0) as [E|_]; [unfold minBytes in Hm; lia|].
    rewrite (IH _ (n - 1)%nat) by (done || lia). lia.
Qed.

Lemma intsize_putint i : 0 < i < 2 ^ 64 -> intsize i = Z.of_nat (length (putint i)).
Proof.
  intros Hi. destruct (putint_spec i Hi) as (n & Hn & Hm & ->). rewrite length_be_bytes.
  unfold intsize. rewrite (intsizeLoop_min 8 1 n) by (done || lia). lia.
Qed.

Lemma headsize_puthead small large size :
  0 <= size < 2 ^ 64 -> headsize size = Z.of_nat (length (puthead small large size)).
Proof.
  intros Hs. unfold headsize, puthead. destruct (Z.ltb_spec size 56); [done|].
  rewrite intsize_putint by lia. cbn [length]. lia.
Qed.

Lemma encodeString_spec b w : encodeString b w = ebAppend (encString b) w.
Proof.
  unfold encodeString, encString, encodeStringHeader, ebAppend.
  destruct b as [|x [|y b]]; cbn [ebStr ebHeads ebLhsize]; [by rewrite <- app_assoc| |by rewrite <- app_assoc].
  destruct (_ <=? _); [done|]. by rewrite <- app_assoc.
Qed.

Lemma encString_single z : 0 < z < 128 -> encString (big_bytes z) = [byte_of_Z z].
Proof.
  intros Hz. rewrite (big_bytes_min 1) by (unfold minBytes; cbn; lia). cbn [be_bytes app encString].
  rewrite byte_to_of_Z, Z.mod_small by lia. by destruct (Z.leb_spec z 127); [|lia].
Qed.

Lemma writeUint_spec z w : 0 <= z < 2 ^ 64 -> writeUint z w = ebAppend (encString (big_bytes z)) w.
Proof.
  intros Hz. unfold writeUint. destruct (Z.eqb_spec z 0) as [->|Hne]; [done|].
  destruct (Z.ltb_spec z 128); [by rewrite encString_single by lia|].
  rewrite putint_big by lia. f_equal. destruct (putint_spec z ltac:(lia)) as (n & Hn & Hm & E).
  rewrite (putint_big z) in E by lia. rewrite E, length_be_bytes.
  destruct (decide (n = 1%nat)) as [->|Hn1].
  - cbn [be_bytes app encString]. rewrite byte_to_of_Z.
    change (minBytes 1 z) with (256 ^ 0 <= z < 256 ^ 1) in Hm. rewrite Z.mod_small by lia.
    by destruct (Z.leb_spec z 127); [lia|].
  - unfold encString. pose proof (length_be_bytes n z) as Hl. destruct (be_bytes n z) as [|a [|c l]]; cbn in Hl; [lia..|].
    unfold puthead. cbn [length]. destruct (Z.ltb_spec (Z.of_nat (S (S (length l)))) 56); [|lia]. cbn [app]. by rewrite Hl.
Qed.

Lemma writeBigInt_spec z w : 0 <= z -> writeBigInt z w = Ok (ebAppend (encString (big_bytes z)) w).
Proof.
  intros Hz. unfold writeBigInt. destruct (Z.ltb_spec z 0); [lia|].
  destruct (Z.eqb_spec z 0) as [->|]; [done|]. by rewrite encodeString_spec.
Qed.

(** ** The encoder's buffer *)

(** The bytes that string data stands for, with headers that belong into it;
    offsets count from [base]. *)
Fixpoint pieces (base : Z) (heads : list listhead) (s : list byte) : list byte :=
  match heads with
  | [] => s
  | h :: heads =>
      let n := Z.to_nat (lhOffset h - base) in
      take n s ++ headEncode h ++ pieces (lhOffset h) heads (drop n s)
  end.

(** The headers are in order and lie inside [n] bytes from [base]. *)
Fixpoint within (base n : Z) (heads : list listhead) : Prop :=
  match heads with
  | [] => True
  | h :: heads => base <= lhOffset h <= base + n /\ within (lhOffset h) (base + n - lhOffset h) heads
  end.

Definition headsTotal (heads : list listhead) : Z :=
  foldr (fun h n => Z.of_nat (length (headEncode h)) + n) 0 heads.

Lemma headsTotal_app h1 h2 : headsTotal (h1 ++ h2) = headsTotal h1 + headsTotal h2.
Proof. unfold headsTotal. induction h1 as [|h h1 IH]; [done|]. cbn [app foldr]. rewrite IH. lia. Qed.

Lemma headsTotal_nonneg hs : 0 <= headsTotal hs.
Proof. unfold headsTotal. induction hs as [|h hs IH]; cbn [foldr]; lia. Qed.

Lemma length_pieces base hs s :
  within base (Z.of_nat (length s)) hs -> Z.of_nat (length (pieces base hs s)) = Z.of_nat (length s) + headsTotal hs.
Proof.
  unfold headsTotal. revert base s. induction hs as [|h hs IH]; intros base s Hw; cbn [pieces foldr]; [lia|].
  destruct Hw as [Hb Hw]. rewrite !length_app, length_take, !Nat2Z.inj_add, IH.
  - rewrite length_drop. lia.
  - rewrite length_drop. replace (Z.of_nat _) with (base + Z.of_nat (length s) - lhOffset h) by lia. done.
Qed.

Lemma pieces_app base h1 s1 h2 s2 :
  within base (Z.of_nat (length s1)) h1 ->
  within (base + Z.of_nat (length s1)) (Z.of_nat (length s2)) h2 ->
  pieces base (h1 ++ h2) (s1 ++ s2) = pieces base h1 s1 ++ pieces (base + Z.of_nat (length s1)) h2 s2 /\
  within base (Z.of_nat (length (s1 ++ s2))) (h1 ++ h2).
Proof.
  revert base s1. induction h1 as [|h h1 IH]; intros base s1 Hw1 Hw2.
  - cbn [app pieces]. destruct h2 as [|h h2]; [done|]. cbn [pieces within] in *. destruct Hw2 as [Hb Hw2].
    rewrite length_app, Nat2Z.inj_add.
    split; [|split; [lia|]; by replace (base + (Z.of_nat (length s1) + Z.of_nat (length s2)) - lhOffset h)
      with (base + Z.of_nat (length s1) + Z.of_nat (length s2) - lhOffset h) by lia].
    rewrite take_app, drop_app, (take_ge s1), (drop_ge s1) by lia. cbn [app].
    rewrite <- app_assoc. do 2 f_equal; [f_equal; lia|]. f_equal. f_equal. f_equal. lia.
  - cbn [app pieces within] in *. destruct Hw1 as [Hb Hw1]. set (n := Z.to_nat (lhOffset h - base)) in *.
    destruct (IH (lhOffset h) (drop n s1)) as [IH1 IH2].
    + rewrite length_drop. by replace (Z.of_nat _) with (base + Z.of_nat (length s1) - lhOffset h) by lia.
    + rewrite length_drop. by replace (lhOffset h + Z.of_nat _) with (base + Z.of_nat (length s1)) by lia.
    + rewrite take_app_le, drop_app_le by lia. rewrite IH1, <- !app_assoc, length_drop.
      replace (lhOffset h + Z.of_nat _) with (base + Z.of_nat (length s1)) by lia.
      split; [done|]. rewrite !length_app, length_drop in *. split; [lia|].
      by replace (base + Z.of_nat _ - lhOffset h) with (Z.of_nat (length s1 - n + length s2)) by lia.
Qed.

(** What a writer adds to the buffer. *)
Definition Adds (w w' : encbuf) (b : list byte) : Prop :=
  exists s hs, ebStr w' = ebStr w ++ s /\ ebHeads w' = ebHeads w ++ hs /\
    within (Z.of_nat (length (ebStr w))) (Z.of_nat (length s)) hs /\
    pieces (Z.of_nat (length (ebStr w))) hs s = b /\ ebLhsize w' = ebLhsize w + headsTotal hs.

Lemma Adds_append b w : Adds w (ebAppend b w) b.
Proof. exists b, []. cbn. rewrite app_nil_r. by split_and!; try lia. Qed.

Lemma Adds_trans w w1 w2 b1 b2 : Adds w w1 b1 -> Adds w1 w2 b2 -> Adds w w2 (b1 ++ b2).
Proof.
  intros (s1 & h1 & E1 & H1 & W1 & P1 & L1) (s2 & h2 & E2 & H2 & W2 & P2 & L2).
  exists (s1 ++ s2), (h1 ++ h2). rewrite E2, H2, E1, H1, L2, L1, headsTotal_app, <- !app_assoc.
  rewrite E1, length_app, Nat2Z.inj_add in W2, P2.
  destruct (pieces_app _ h1 s1 h2 s2 W1 W2) as [EP EW]. rewrite EP, P1, P2. split_and!; try done. lia.
Qed.

Lemma Adds_nil w : Adds w w [].
Proof. exists [], []. rewrite !app_nil_r. by split_and!; cbn; try lia. Qed.

Lemma Adds_list w w1 payload :
  Adds (snd (ebList w)) w1 payload -> Z.of_nat (length payload) < 2 ^ 64 ->
  Adds w (ebListEnd (fst (ebList w)) w1) (encList payload).
Proof.
  intros (s & hs & E & H & Hw & HP & L) Hlen. cbn [ebList fst snd ebStr ebHeads ebLhsize] in *.
  pose proof (length_pieces _ _ _ Hw) as Hl. rewrite HP in Hl. pose proof (headsTotal_nonneg hs) as Hh.
  assert (Es : ebSize w1 - Z.of_nat (length (ebStr w)) - ebLhsize w = Z.of_nat (length payload))
    by (unfold ebSize; rewrite E, length_app; lia).
  unfold ebListEnd. rewrite H, <- app_assoc. cbn [app].
  rewrite lookup_app_r, Nat.sub_diag by lia. cbn [lookup list_lookup lhOffset lhSize]. rewrite Es.
  exists s, (mkHead (Z.of_nat (length (ebStr w))) (Z.of_nat (length payload)) :: hs).
  cbn [ebStr ebHeads ebLhsize]. split_and!; try done.
  - rewrite insert_app_r_alt, Nat.sub_diag by lia. done.
  - split; cbn [lhOffset]; [lia|]. by replace (_ + _ - _) with (Z.of_nat (length s)) by lia.
  - cbn [pieces lhOffset]. rewrite Z.sub_diag. change (Z.to_nat 0) with 0%nat. rewrite take_0, drop_0, HP. done.
  - cbn [headsTotal foldr]. fold (headsTotal hs). unfold headEncode at 1. cbn [lhSize].
    rewrite <- (headsize_puthead 0xc0 0xf7) by lia. unfold headsize. destruct (_ <? 56); lia.
Qed.

(** A list writes its elements one after the other. *)
Fixpoint writeAll (l : list rlpValue) (w : encbuf) : result rlpErr encbuf :=
  match l with
  | [] => Ok w
  | v :: l => let* w := writeValue v w in writeAll l w
  end.

Lemma writeValue_list l w :
  writeValue (RList l) w = let* w1 := writeAll l (snd (ebList w)) in Ok (ebListEnd (fst (ebList w)) w1).
Proof. done. Qed.
Lemma writeValue_tail l w : writeValue (RTail l) w = writeAll l w.
Proof. done. Qed.

Lemma length_encList p : (length p < length (encList p))%nat.
Proof. unfold encList, puthead. rewrite length_app. destruct (_ <? _); cbn [length]; lia. Qed.

Lemma writeAll_adds l w :
  Forall (fun v => forall w, encodable v = true -> Z.of_nat (length (rlpBytes v)) < 2 ^ 64 ->
    exists w', writeValue v w = Ok w' /\ Adds w w' (rlpBytes v)) l ->
  forallb encodable l = true -> Z.of_nat (length (mjoin (rlpBytes <$> l))) < 2 ^ 64 ->
  exists w', writeAll l w = Ok w' /\ Adds w w' (mjoin (rlpBytes <$> l)).
Proof.
  intros H. revert w. induction H as [|v l Hv H IH]; intros w He Hl.
  - exists w. split; [done|apply Adds_nil].
  - cbn [forallb] in He. apply andb_prop in He as [He1 He2]. 
    change (mjoin (rlpBytes <$> v :: l)) with (rlpBytes v ++ mjoin (rlpBytes <$> l)) in *. rewrite length_app in Hl. destruct (Hv w He1 ltac:(lia)) as (w1 & E1 & A1).
    destruct (IH w1 He2 ltac:(lia)) as (w2 & E2 & A2). exists w2. cbn [writeAll]. rewrite E1. split; [done|].
    by eapply Adds_trans.
Qed.

Lemma writeValue_adds v w :
  encodable v = true -> Z.of_nat (length (rlpBytes v)) < 2 ^ 64 ->
  exists w', writeValue v w = Ok w' /\ Adds w w' (rlpBytes v).
Proof.
  revert w. induction v as [bs|z|b|z|bs|l IH|l IH|v IH] using rlpValue_ind'; intros w He Hl.
  - eexists. split; [done|]. rewrite encodeString_spec. apply Adds_append.
  - cbn in He. bools. eexists. split; [done|]. rewrite writeUint_spec by lia. apply Adds_append.
  - eexists. split; [done|]. apply Adds_append.
  - destruct z as [z|]; cbn [writeValue rlpBytes default].
    + cbn in He. bools. eexists. split; [by apply writeBigInt_spec|]. apply Adds_append.
    + eexists. split; [done|]. apply Adds_append.
  - eexists. split; [done|]. apply Adds_append.
  - cbn [encodable rlpBytes] in *. pose proof (length_encList (mjoin (rlpBytes <$> l))).
    destruct (writeAll_adds l (snd (ebList w)) IH He ltac:(lia)) as (w1 & E1 & A1).
    rewrite writeValue_list, E1. eexists. split; [done|]. by apply Adds_list; [|lia].
  - rewrite writeValue_tail. by apply writeAll_adds.
  - by apply IH.
Qed.

(** ** Merging the buffer *)

Lemma copyAt_fits done src rest k :
  (length src <= length rest)%nat -> k = length done -> copyAt (done ++ rest) k src = done ++ src ++ drop (length src) rest.
Proof.
  intros Hl ->. unfold copyAt. rewrite length_app.
  replace (length done + length rest - length done)%nat with (length rest) by lia.
  rewrite (take_ge src) by lia. rewrite take_app_length. f_equal. f_equal.
  rewrite drop_app. rewrite drop_ge by lia. cbn. f_equal. lia.
Qed.

Lemma toBytesLoop_pieces heads str strpos done n :
  within (Z.of_nat strpos) (Z.of_nat (length str) - Z.of_nat strpos) heads -> (strpos <= length str)%nat ->
  n = length (pieces (Z.of_nat strpos) heads (drop strpos str)) ->
  exists strpos' done',
    toBytesLoop heads str strpos (length done) (done ++ replicate n x00) =
      Ok (strpos', length done', done' ++ replicate (length str - strpos') x00) /\
    (strpos' <= length str)%nat /\
    done' ++ drop strpos' str = done ++ pieces (Z.of_nat strpos) heads (drop strpos str).
Proof.
  revert strpos done n. induction heads as [|h heads IH]; intros strpos done n Hw Hs ->.
  - exists strpos, done. cbn [toBytesLoop pieces]. rewrite length_drop. by split_and!.
  - destruct Hw as [Hb Hw]. cbn [toBytesLoop pieces].
    set (before := take (Z.to_nat (lhOffset h) - strpos) (drop strpos str)).
    assert (Eb : take (Z.to_nat (lhOffset h - Z.of_nat strpos)) (drop strpos str) = before) by (unfold before; f_equal; lia).
    rewrite Eb. set (rest := pieces (lhOffset h) heads _).
    assert (Lb : length before = (Z.to_nat (lhOffset h) - strpos)%nat)
      by (unfold before; rewrite length_take, length_drop; lia).
    set (enc := headEncode h). rewrite !length_app.
    replace (length before `min` _)%nat with (length before) by (rewrite length_replicate; lia).
    rewrite copyAt_fits by (rewrite ?length_replicate; lia). rewrite drop_replicate.
    destruct (Nat.ltb_spec (Z.to_nat (lhOffset h)) strpos); [lia|]. cbn [orb].
    match goal with |- context [(?a <? ?b)%nat] => destruct (Nat.ltb_spec a b) as [H1|_] end.
    { rewrite !length_app, length_replicate in H1. lia. }
    rewrite app_assoc, copyAt_fits by (rewrite ?length_app, ?length_replicate; lia). rewrite drop_replicate.
    replace (length before + (length enc + length rest) - length before - length enc)%nat with (length rest) by lia.
    replace (strpos + length before)%nat with (Z.to_nat (lhOffset h)) by lia.
    assert (Ed : drop (Z.to_nat (lhOffset h - Z.of_nat strpos)) (drop strpos str) = drop (Z.to_nat (lhOffset h)) str)
      by (rewrite drop_drop; f_equal; lia).
    destruct (IH (Z.to_nat (lhOffset h)) ((done ++ before) ++ enc) (length rest)) as (p' & d' & E & Hp & Ht).
    + rewrite Z2Nat.id by lia. by replace (Z.of_nat (length str) - lhOffset h)
        with (Z.of_nat strpos + (Z.of_nat (length str) - Z.of_nat strpos) - lhOffset h) by lia.
    + lia.
    + unfold rest. rewrite Ed, Z2Nat.id by lia. done.
    + rewrite !length_app in E. rewrite app_assoc, E. exists p', d'. split_and!; try done.
      rewrite Ht, Z2Nat.id by lia. unfold rest. rewrite Ed. by rewrite <- !app_assoc.
Qed.

(** The encoder writes the format. *)
Lemma EncodeToBytes_spec v :
  encodable v = true -> Z.of_nat (length (rlpBytes v)) < 2 ^ 64 -> EncodeToBytes v = Ok (rlpBytes v).
Proof.
  intros He Hl. destruct (writeValue_adds v newEncbuf He Hl) as (w & E & s & hs & E1 & E2 & Hw & HP & L).
  unfold EncodeToBytes. rewrite E. cbn [rbind newEncbuf ebStr ebHeads ebLhsize app length] in *. unfold toBytes, ebSize.
  rewrite E1, E2, L. pose proof (length_pieces _ _ _ Hw) as Hlen. rewrite HP in Hlen.
  destruct (toBytesLoop_pieces hs s 0 [] (length (rlpBytes v))) as (p & d & Eq & Hp & Ht).
  - by rewrite Z.sub_0_r.
  - lia.
  - rewrite drop_0. by rewrite HP.
  - replace (Z.to_nat _) with (length (rlpBytes v)) by lia. cbn [app length] in Eq. rewrite Eq. cbn [rbind].
    rewrite copyAt_fits by (rewrite ?length_replicate, ?length_drop; lia). rewrite length_drop, drop_replicate.
    rewrite Nat.sub_diag. cbn [replicate]. rewrite app_nil_r, Ht. by rewrite drop_0, HP.
Qed.
