(* ===== verification/RlpStreamProofs.v ===== *)
(** * Package rlp: the stream reads what the format defines

    [IsHead] relates the kind and size of a value to the bytes of its header; on a
    well-formed stream [Kind] succeeds exactly on headers whose value fits, and each
    reader consumes exactly one canonical encoding. *)

From stdpp Require Import base numbers list option.
From Stdlib Require Import ZArith Lia Strings.Byte.
From S2P Require Import Prelude Rlp RlpStream RlpProofs.

(** ** Well-formed streams *)

(** Positions inside lists that fit into each other and into [n] bytes of input;
    [add] is what the list around a finished one moves by. *)
Fixpoint wfStack (add : Z) (st : list listpos) (n : Z) : Prop :=
  match st with
  | [] => 0 <= n
  | tos :: st =>
      let pos := lpPos tos + add in
      0 <= lpPos tos /\ lpPos tos <= pos <= lpSize tos /\ lpSize tos < 2 ^ 64 /\ lpSize tos - pos <= n /\
      wfStack (lpSize tos) st (n - (lpSize tos - pos))
  end.

Record WF (s : Stream) : Prop := {
  wf_limited : sLimited s = true;
  wf_remaining : sRemaining s = Z.of_nat (length (sIn s));
  wf_length : Z.of_nat (length (sIn s)) < 2 ^ 64;
  wf_stack : wfStack 0 (sStack s) (Z.of_nat (length (sIn s)))
}.

(** The bytes that can be read before the end of the list or of the input. *)
Definition avail (s : Stream) : Z :=
  match sStack s with [] => Z.of_nat (length (sIn s)) | tos :: _ => lpSize tos - lpPos tos end.

Definition bump (n : Z) (st : list listpos) : list listpos :=
  match st with [] => [] | tos :: st => mkListpos (lpPos tos + n) (lpSize tos) :: st end.

(** The stream after [n] bytes. *)
Definition move (n : nat) (s : Stream) : Stream :=
  mkStream (drop n (sIn s)) (sRemaining s - Z.of_nat n) (sLimited s) None (sSize s) (sByteval s) (sKinderr s)
    (bump (Z.of_nat n) (sStack s)).

Lemma avail_le s : WF s -> 0 <= avail s <= Z.of_nat (length (sIn s)).
Proof. intros [_ _ _ H]. unfold avail. destruct (sStack s) as [|tos st]; cbn [wfStack] in H; lia. Qed.

Lemma wfStack_nonneg add st n : wfStack add st n -> 0 <= n.
Proof. destruct st; cbn [wfStack]; lia. Qed.

Lemma WF_move n s : WF s -> Z.of_nat n <= avail s -> WF (move n s).
Proof.
  intros Hw Hn. pose proof (avail_le s Hw) as Ha. destruct Hw as [H1 H2 H3 H4].
  split; cbn [move sIn sRemaining sLimited sStack]; rewrite ?length_drop; try done; try lia.
  unfold avail in Hn. destruct (sStack s) as [|tos st]; cbn [bump wfStack lpPos lpSize] in *; [lia|].
  destruct H4 as (A & B & C & D & E). split_and!; try lia.
  replace (Z.of_nat (length (sIn s) - n) - (lpSize tos - (lpPos tos + Z.of_nat n + 0)))
    with (Z.of_nat (length (sIn s)) - (lpSize tos - (lpPos tos + 0))) by lia. done.
Qed.

Lemma avail_move n s : Z.of_nat n <= avail s -> WF s -> avail (move n s) = avail s - Z.of_nat n.
Proof.
  intros Hn Hw. pose proof (avail_le s Hw). unfold avail in *. cbn [move sIn sStack].
  destruct (sStack s) as [|tos st]; cbn [bump lpPos lpSize]; [rewrite length_drop; lia|lia].
Qed.

(** ** Reading bytes *)

Lemma willRead_spec n s :
  WF s -> 0 <= n < 2 ^ 64 ->
  if n <=? avail s
  then willRead n s = (Ok tt, mkStream (sIn s) (sRemaining s - n) (sLimited s) None (sSize s) (sByteval s)
                                (sKinderr s) (bump n (sStack s)))
  else exists e s', willRead n s = (Err e, s').
Proof.
  intros Hw Hn. pose proof (avail_le s Hw) as Ha. destruct Hw as [H1 H2 H3 H4]. unfold willRead, avail in *.
  cbv zeta. cbn [sStack s_with_kind].
  destruct (sStack s) as [|tos st] eqn:E; cbn [wfStack bump] in *; rewrite ?Z.gtb_ltb;
    cbn [sLimited sRemaining s_with_kind s_with_stack].
  - rewrite H1, H2. destruct (Z.ltb_spec (Z.of_nat (length (sIn s))) n), (Z.leb_spec n (Z.of_nat (length (sIn s)))); try lia;
      [by eexists _, _|]. unfold s_with_remaining, s_with_kind. cbn. by rewrite E, H1.
  - rewrite (u64_small (lpSize tos - lpPos tos)) by (unfold is_u64; lia).
    destruct (Z.ltb_spec (lpSize tos - lpPos tos) n), (Z.leb_spec n (lpSize tos - lpPos tos)); try lia; [by eexists _, _|].
    rewrite (u64_small (lpPos tos + n)) by (unfold is_u64; lia). unfold s_with_remaining, s_with_stack, s_with_kind. cbn.
    rewrite H1, H2, Z.gtb_ltb. destruct (Z.ltb_spec (Z.of_nat (length (sIn s))) n); [lia|done].
Qed.

Lemma readFull_spec n s :
  WF s -> 0 <= n < 2 ^ 64 ->
  if n <=? avail s then readFull n s = (Ok (take (Z.to_nat n) (sIn s)), move (Z.to_nat n) s)
  else exists e s', readFull n s = (Err e, s').
Proof.
  intros Hw Hn. pose proof (avail_le s Hw) as Ha. pose proof (willRead_spec n s Hw Hn) as H.
  unfold readFull, mbind. destruct (Z.leb_spec n (avail s)).
  - rewrite H. cbn [sIn]. rewrite length_take. destruct (Z.ltb_spec (Z.of_nat (Z.to_nat n `min` length (sIn s))) n); [lia|].
    unfold move, s_with_in. cbn. by rewrite Z2Nat.id by lia.
  - destruct H as (e & s' & ->). by eexists _, _.
Qed.

Lemma readByte_spec s :
  WF s ->
  if 1 <=? avail s then exists b r, sIn s = b :: r /\ readByte s = (Ok b, move 1 s)
  else exists e s', readByte s = (Err e, s').
Proof.
  intros Hw. pose proof (avail_le s Hw) as Ha. pose proof (willRead_spec 1 s Hw ltac:(lia)) as H.
  unfold readByte, mbind. destruct (Z.leb_spec 1 (avail s)).
  - rewrite H. cbn [sIn]. destruct (sIn s) as [|b r] eqn:E; [cbn in Ha; lia|]. exists b, r. split; [done|].
    unfold move, s_with_in. cbn. by rewrite E.
  - destruct H as (e & s' & ->). by eexists _, _.
Qed.

Lemma readUint_sound n s z s' :
  WF s -> 1 <= n <= 8 -> readUint n s = (Ok z, s') ->
  n <= avail s /\ s' = move (Z.to_nat n) s /\ z = be_value (take (Z.to_nat n) (sIn s)) /\
  (n = 1 \/ exists b r, take (Z.to_nat n) (sIn s) = b :: r /\ byte_to_Z b <> 0).
Proof.
  intros Hw Hn. unfold readUint. destruct (Z.eqb_spec n 0); [lia|]. destruct (Z.eqb_spec n 1) as [->|].
  - pose proof (readByte_spec s Hw) as H. unfold mbind. destruct (Z.leb_spec 1 (avail s)).
    + destruct H as (b & r & E & ->). intros [= <- <-]. split_and!; try done; [|by left].
      rewrite E. change (take (Z.to_nat 1) (b :: r)) with [b]. by rewrite be_value_single.
    + destruct H as (e & s1 & ->). done.
  - pose proof (readFull_spec n s Hw ltac:(lia)) as H. unfold mbind. destruct (Z.leb_spec n (avail s)).
    + rewrite H. pose proof (avail_le s Hw). destruct (take (Z.to_nat n) (sIn s)) as [|b r] eqn:E.
      { apply (f_equal length) in E. rewrite length_take in E. cbn in E. lia. }
      destruct (Z.eqb_spec (byte_to_Z b) 0); [done|]. intros [= <- <-]. split_and!; try done. right. by exists b, r.
    + destruct H as (e & s1 & ->). done.
Qed.

Lemma readUint_complete n s b r :
  WF s -> 1 <= n <= 8 -> n <= avail s -> take (Z.to_nat n) (sIn s) = b :: r -> (n = 1 \/ byte_to_Z b <> 0) ->
  readUint n s = (Ok (be_value (b :: r)), move (Z.to_nat n) s).
Proof.
  intros Hw Hn Ha E Hb. unfold readUint. destruct (Z.eqb_spec n 0); [lia|]. destruct (Z.eqb_spec n 1) as [->|].
  - pose proof (readByte_spec s Hw) as H. destruct (Z.leb_spec 1 (avail s)); [|lia].
    destruct H as (b1 & r1 & E1 & H). unfold mbind. rewrite H. rewrite E1 in E. injection E as -> <-.
    by rewrite be_value_single.
  - pose proof (readFull_spec n s Hw ltac:(lia)) as H. destruct (Z.leb_spec n (avail s)); [|lia].
    unfold mbind. rewrite H, E. destruct Hb as [|Hb]; [done|]. by destruct (Z.eqb_spec (byte_to_Z b) 0).
Qed.

(** ** Headers *)

(** The canonical header of a value; a single byte is its own header. *)
Definition IsHead (k : Kind) (size : Z) (hd : list byte) : Prop :=
  match k with
  | KByte => size = 0 /\ exists b, hd = [b] /\ byte_to_Z b < 0x80
  | KString => 0 <= size < 2 ^ 64 /\ hd = puthead 0x80 0xb7 size
  | KList => 0 <= size < 2 ^ 64 /\ hd = puthead 0xc0 0xf7 size
  end.
Definition headByte (k : Kind) (hd : list byte) : byte :=
  match k, hd with KByte, [b] => b | _, _ => x00 end.

(** The stream with a value ahead. *)
Definition ahead (k : Kind) (size : Z) (b : byte) (s : Stream) : Stream :=
  mkStream (sIn s) (sRemaining s) (sLimited s) (Some k) size b None (sStack s).

Lemma minBytes_value bs b r : bs = b :: r -> byte_to_Z b <> 0 -> minBytes (length bs) (be_value bs).
Proof.
  intros -> Hb. unfold minBytes. split; [|apply be_value_range]. rewrite be_value_cons. cbn [length].
  pose proof (byte_to_Z_range b). pose proof (be_value_range r).
  replace (Z.of_nat (S (length r)) - 1) with (Z.of_nat (length r)) by lia. nia.
Qed.

Lemma minBytes_unique n m i : minBytes n i -> minBytes m i -> n = m.
Proof.
  intros [A B] [C D]. destruct (Nat.lt_trichotomy n m) as [H|[H|H]]; [|done|].
  - assert (256 ^ Z.of_nat n <= 256 ^ (Z.of_nat m - 1)) by (apply Z.pow_le_mono_r; lia). lia.
  - assert (256 ^ Z.of_nat m <= 256 ^ (Z.of_nat n - 1)) by (apply Z.pow_le_mono_r; lia). lia.
Qed.

(** A size field that [readUint] accepts is the one that [putint] writes. *)
Lemma sizeField bs :
  (1 <= length bs <= 8)%nat -> 56 <= be_value bs ->
  (length bs = 1%nat \/ exists b r, bs = b :: r /\ byte_to_Z b <> 0) ->
  putint (be_value bs) = bs /\ be_value bs < 2 ^ 64.
Proof.
  intros Hl Hv Hc. pose proof (be_value_range bs) as Hr.
  assert (H64 : 256 ^ Z.of_nat (length bs) <= 2 ^ 64).
  { change (2 ^ 64) with (256 ^ 8). apply Z.pow_le_mono_r; lia. }
  assert (Hm : minBytes (length bs) (be_value bs)).
  { destruct Hc as [Hc|(b & r & E & Hb)]; [|by eapply minBytes_value].
    unfold minBytes. rewrite Hc in *. cbn. cbn in Hr. lia. }
  destruct (putint_spec (be_value bs) ltac:(lia)) as (n & Hn & Hm' & ->).
  rewrite (minBytes_unique _ _ _ Hm' Hm). split; [apply be_bytes_be_value|lia].
Qed.

Lemma puthead_large small large size :
  56 <= size < 2 ^ 64 ->
  exists b r, putint size = b :: r /\ byte_to_Z b <> 0 /\ (length (b :: r) <= 8)%nat /\ be_value (b :: r) = size /\
    puthead small large size = byte_of_Z (large + Z.of_nat (length (b :: r))) :: b :: r.
Proof.
  intros Hs. destruct (putint_spec size ltac:(lia)) as (n & Hn & Hm & E).
  pose proof (length_be_bytes n size) as Hl. pose proof (be_value_be_bytes n size) as Hv. rewrite <- E in Hl, Hv.
  unfold minBytes in Hm. rewrite Z.mod_small in Hv by lia.
  destruct (putint size) as [|b r] eqn:Ep; [cbn in Hl; lia|]. exists b, r. split_and!; try done.
  - intros Hb. rewrite be_value_cons, Hb in Hv. cbn [length] in Hl. pose proof (be_value_range r) as Hr.
    replace (Z.of_nat n - 1) with (Z.of_nat (length r)) in Hm by lia. lia.
  - lia.
  - unfold puthead. destruct (Z.ltb_spec size 56); [lia|]. by rewrite Ep.
Qed.

Lemma checkFits_spec size s : WF s -> checkFits size s = None <-> size <= avail s.
Proof.
  intros [H1 H2 H3 H4]. unfold checkFits, avail. destruct (sStack s) as [|tos st]; cbn [wfStack] in H4.
  - rewrite H1, H2, Z.gtb_ltb. cbn [andb]. destruct (Z.ltb_spec (Z.of_nat (length (sIn s))) size); split; try done; lia.
  - rewrite u64_small, Z.gtb_ltb by (unfold is_u64; lia).
    destruct (Z.ltb_spec (lpSize tos - lpPos tos) size); split; try done; lia.
Qed.

Lemma WF_kinderr e s : WF s -> WF (s_with_kinderr e s).
Proof. intros []. by split. Qed.
Lemma WF_byteval b s : WF s -> WF (s_with_byteval b s).
Proof. intros []. by split. Qed.

Lemma atEnd_avail s : WF s -> 1 <= avail s -> atEnd s = false.
Proof.
  intros Hw Ha. unfold atEnd, avail in *. destruct (sStack s); [done|]. apply Z.eqb_neq. lia.
Qed.

Lemma tag_value z : 0 <= z < 256 -> byte_to_Z (byte_of_Z z) = z.
Proof. intros Hz. rewrite byte_to_of_Z. by apply Z.mod_small. Qed.

Lemma move_move n m s : move n (move m s) = move (m + n) s.
Proof.
  unfold move. cbn. rewrite drop_drop. f_equal; [lia|]. destruct (sStack s); [done|]. cbn. f_equal. f_equal. lia.
Qed.

Lemma move_byteval n b s : move n (s_with_byteval b s) = s_with_byteval b (move n s).
Proof. done. Qed.

(** The next case of a tag, where only one is possible. *)
Ltac tagCase :=
  match goal with |- context [if ?a <? ?n then _ else _] =>
    destruct (Z.ltb_spec a n); try (exfalso; cbn [length] in *; lia) end.

(** The header field by field: what [sReadKind] answers from the first byte on. *)
Lemma sReadKind_complete s k size hd rest :
  WF s -> sIn s = hd ++ rest -> IsHead k size hd -> Z.of_nat (length hd) <= avail s ->
  sReadKind s = ((k, size, None), s_with_byteval (headByte k hd) (move (length hd) s)).
Proof.
  intros Hw E Hh Ha.
  assert (Hne : exists b r, hd = b :: r).
  { destruct k; [destruct Hh as (_ & b & -> & _)|destruct Hh as (_ & ->)..];
      [by exists b, []|unfold puthead; destruct (_ <? _); by eexists _, _..]. }
  destruct Hne as (b & r & ->). cbn [length] in Ha.
  pose proof (readByte_spec s Hw) as Hr. destruct (Z.leb_spec 1 (avail s)); [|lia].
  destruct Hr as (b' & r' & E' & Hr). rewrite E' in E. injection E as -> Er.
  unfold sReadKind. rewrite Hr. cbv zeta.
  assert (Hw1 : WF (s_with_byteval x00 (move 1 s))) by (by apply WF_byteval, WF_move; [|lia]).
  assert (Hsized : forall n, r <> [] -> n = Z.of_nat (length r) -> 1 <= n <= 8 -> be_value r = size -> 56 <= size ->
    (exists c q, r = c :: q /\ byte_to_Z c <> 0) ->
    readUint n (s_with_byteval x00 (move 1 s)) = (Ok size, s_with_byteval x00 (move (length (b :: r)) s))).
  { intros n Hnil -> Hn <- H56 (c & q & -> & Hc).
    rewrite (readUint_complete _ _ c q); try done.
    - f_equal. rewrite Nat2Z.id, move_byteval, move_move. done.
    - unfold avail in *. cbn [s_with_byteval move sStack sIn]. destruct (sStack s) as [|tos st]; cbn [bump lpPos lpSize].
      + rewrite length_drop. lia.
      + lia.
    - rewrite Nat2Z.id. cbn [s_with_byteval move sIn]. rewrite E'. change (drop 1 (b :: r')) with r'. rewrite Er. apply take_app_length.
    - by right. }
  destruct k; [destruct Hh as (-> & b0 & [= -> ->] & Hb); by tagCase|..].
  - destruct Hh as (Hs & Eh). unfold puthead in Eh. destruct (Z.ltb_spec size 56).
    + injection Eh as -> ->. rewrite tag_value by lia. repeat tagCase.
      replace (0x80 + size - 0x80) with size by lia. done.
    + destruct (puthead_large 0x80 0xb7 size ltac:(lia)) as (c & q & Ep & Hc & Hl & Hv & Eq).
      cbn zeta in Eh. rewrite Ep in Eh. injection Eh as -> ->. cbn [length] in Hl. rewrite tag_value by (cbn [length]; lia).
      do 3 tagCase. rewrite Hsized; [|done|cbn [length]; lia|cbn [length]; lia|done|lia|by exists c, q]. by tagCase.
  - destruct Hh as (Hs & Eh). unfold puthead in Eh. destruct (Z.ltb_spec size 56).
    + injection Eh as -> ->. rewrite tag_value by lia. repeat tagCase.
      replace (0xc0 + size - 0xc0) with size by lia. done.
    + destruct (puthead_large 0xc0 0xf7 size ltac:(lia)) as (c & q & Ep & Hc & Hl & Hv & Eq).
      cbn zeta in Eh. rewrite Ep in Eh. injection Eh as -> ->. cbn [length] in Hl. rewrite tag_value by (cbn [length]; lia).
      do 4 tagCase. rewrite Hsized; [|done|cbn [length]; lia|cbn [length]; lia|done|lia|by exists c, q]. by tagCase.
Qed.

Lemma byte_tag b z : byte_to_Z b = z -> byte_of_Z z = b.
Proof. intros <-. apply byte_of_to_Z. Qed.

Lemma sized_sound s b r small large n z s1 :
  WF s -> sIn s = b :: r -> 1 <= avail s -> 1 <= n <= 8 -> byte_to_Z b = large + n ->
  readUint n (s_with_byteval x00 (move 1 s)) = (Ok z, s1) -> 56 <= z ->
  exists hd rest, sIn s = hd ++ rest /\ z < 2 ^ 64 /\ hd = puthead small large z /\ Z.of_nat (length hd) <= avail s.
Proof.
  intros Hw E Ha Hn Hb Hr Hz.
  assert (Hw1 : WF (s_with_byteval x00 (move 1 s))) by (by apply WF_byteval, WF_move; [|lia]).
  assert (Hav : avail (s_with_byteval x00 (move 1 s)) = avail s - 1).
  { change (avail (s_with_byteval x00 (move 1 s))) with (avail (move 1 s)). by rewrite avail_move by (done || lia). }
  pose proof (avail_le _ Hw1) as Hle.
  apply readUint_sound in Hr as (H1 & _ & H3 & H4); [|done|done]. rewrite Hav in H1, Hle.
  cbn [s_with_byteval move sIn] in *. rewrite E in *. change (drop 1 (b :: r)) with r in *.
  set (bs := take (Z.to_nat n) r) in *. assert (Hl : length bs = Z.to_nat n) by (unfold bs; rewrite length_take; lia).
  destruct (sizeField bs) as [Hp Hlt]; [lia|lia|destruct H4 as [->|]; [left; lia|by right]|]. subst z.
  exists (b :: bs), (drop (Z.to_nat n) r). split_and!.
  - unfold bs. cbn [app]. by rewrite take_drop.
  - done.
  - unfold puthead. destruct (Z.ltb_spec (be_value bs) 56); [lia|]. rewrite Hp, Hl, Z2Nat.id by lia.
    by rewrite (byte_tag b).
  - cbn [length]. lia.
Qed.

Lemma sReadKind_sound s k size s1 :
  WF s -> sReadKind s = ((k, size, None), s1) ->
  exists hd rest, sIn s = hd ++ rest /\ IsHead k size hd /\ Z.of_nat (length hd) <= avail s.
Proof.
  intros Hw. unfold sReadKind. pose proof (readByte_spec s Hw) as H. destruct (Z.leb_spec 1 (avail s)) as [Ha|].
  2: { by destruct H as (e & s' & ->). }
  destruct H as (b & r & E & ->). cbv zeta. pose proof (byte_to_Z_range b) as Hb.
  assert (Hsized : forall kd n small, (match kd with KByte => False | KString => small = 0x80 /\ byte_to_Z b = 0xb7 + n
      | KList => small = 0xc0 /\ byte_to_Z b = 0xf7 + n end) -> 1 <= n <= 8 ->
    (let '(r, s) := readUint n (s_with_byteval x00 (move 1 s)) in
     match r with
     | Ok size => ((kd, size, if size <? 56 then Some ErrCanonSize else None), s)
     | Err e => ((kd, 0, Some e), s)
     | _ => ((kd, 0, None), s)
     end) = ((k, size, None), s1) ->
    exists hd rest, sIn s = hd ++ rest /\ IsHead k size hd /\ Z.of_nat (length hd) <= avail s).
  { intros kd n small Hkd Hn. assert (Hnb : forall q, fst (readUint n (s_with_byteval x00 (move 1 s))) = q -> q <> Panic /\ q <> NoFuel).
    { intros q <-. assert (Hw1 : WF (s_with_byteval x00 (move 1 s))) by (by apply WF_byteval, WF_move; [|lia]).
      unfold readUint. destruct (n =? 0); [done|]. destruct (n =? 1).
      - pose proof (readByte_spec _ Hw1) as H. unfold mbind. destruct (1 <=? _);
          [destruct H as (? & ? & _ & ->)|destruct H as (? & ? & ->)]; done.
      - pose proof (readFull_spec n _ Hw1 ltac:(lia)) as H. unfold mbind. destruct (n <=? _); [rewrite H|destruct H as (? & ? & ->)];
          [|done]. destruct (take _ _); [done|]. by destruct (_ =? _). }
    destruct (readUint n _) as [[z|e| |] s2] eqn:Er; [|done|by destruct (Hnb Panic)|by destruct (Hnb NoFuel)].
    destruct (Z.ltb_spec z 56); [done|]. intros [= <- <- <-].
    destruct kd; [done|destruct Hkd as [-> Hb']..];
      (eapply sized_sound in Er as (hd & rest & E1 & E2 & E3 & E4); try done; exists hd, rest; split_and!; try done; split; [lia|done]). }
  destruct (Z.ltb_spec (byte_to_Z b) 0x80).
  { intros [= <- <- _]. exists [b], r. split_and!; [done| |cbn; lia]. split; [done|by exists b]. }
  destruct (Z.ltb_spec (byte_to_Z b) 0xb8).
  { intros [= <- <- _]. exists [b], r. split_and!; [done| |cbn; lia]. split; [lia|]. unfold puthead.
    destruct (Z.ltb_spec (byte_to_Z b - 128) 56); [|lia]. f_equal. symmetry. apply byte_tag. lia. }
  destruct (Z.ltb_spec (byte_to_Z b) 0xc0); [apply (Hsized KString _ 0x80); lia|].
  destruct (Z.ltb_spec (byte_to_Z b) 0xf8); [|apply (Hsized KList _ 0xc0); lia].
  intros [= <- <- _]. exists [b], r. split_and!; [done| |cbn; lia]. split; [lia|]. unfold puthead.
  destruct (Z.ltb_spec (byte_to_Z b - 192) 56); [|lia]. f_equal. symmetry. apply byte_tag. lia.
Qed.

(** [Kind] succeeds on the canonical header of a value that fits, and leaves the
    stream after the header. *)
Lemma Kind_complete s k size hd rest :
  WF s -> sKind s = None -> sIn s = hd ++ rest -> IsHead k size hd -> Z.of_nat (length hd) + size <= avail s ->
  sKindOf s = (Ok (k, size), ahead k size (headByte k hd) (move (length hd) s)).
Proof.
  intros Hw Hk E Hh Ha. assert (Hs : 0 <= size) by (destruct k, Hh; lia).
  assert (Hl : 1 <= Z.of_nat (length hd)).
  { destruct k; [destruct Hh as (_ & b & -> & _)|destruct Hh as (_ & ->)..]; [done|unfold puthead; destruct (_ <? _); cbn; lia..]. }
  unfold sKindOf. rewrite Hk. set (s0 := s_with_kinderr None s). pose proof (WF_kinderr None s Hw : WF s0) as Hw0.
  rewrite (atEnd_avail s0) by (done || (change (avail s0) with (avail s); lia)).
  rewrite (sReadKind_complete s0 k size hd rest Hw0) by (done || (change (avail s0) with (avail s); lia)).
  assert (Hf : checkFits size (s_with_byteval (headByte k hd) (move (length hd) s0)) = None).
  { apply checkFits_spec; [by apply WF_byteval, WF_move; [|change (avail s0) with (avail s); lia]|].
    change (avail (s_with_byteval (headByte k hd) (move (length hd) s0))) with (avail (move (length hd) s)).
    rewrite avail_move by (done || lia). lia. }
  rewrite Hf. done.
Qed.

Lemma Kind_sound s k size s1 :
  WF s -> sKind s = None -> sKindOf s = (Ok (k, size), s1) ->
  exists hd rest, sIn s = hd ++ rest /\ IsHead k size hd /\ Z.of_nat (length hd) + size <= avail s /\
    s1 = ahead k size (headByte k hd) (move (length hd) s).
Proof.
  intros Hw Hk HK. pose proof HK as HK'. unfold sKindOf in HK. rewrite Hk in HK.
  set (s0 := s_with_kinderr None s) in *. pose proof (WF_kinderr None s Hw : WF s0) as Hw0.
  destruct (atEnd s0); [done|]. destruct (sReadKind s0) as [[[k1 z1] err] s2] eqn:E.
  destruct err as [e|]; [done|]. destruct (checkFits z1 s2) eqn:Ef; [done|]. injection HK as <- <- _.
  destruct (sReadKind_sound s0 k1 z1 s2 Hw0 E) as (hd & rest & E1 & Hh & Ha).
  rewrite (sReadKind_complete s0 k1 z1 hd rest Hw0 E1 Hh Ha) in E. injection E as <-.
  assert (Hfit : Z.of_nat (length hd) + z1 <= avail s).
  { apply checkFits_spec in Ef; [|by apply WF_byteval, WF_move].
    change (avail (s_with_byteval (headByte k1 hd) (move (length hd) s0))) with (avail (move (length hd) s)) in Ef.
    rewrite avail_move in Ef by done. change (avail s0) with (avail s) in Ha. lia. }
  exists hd, rest. split_and!; try done. rewrite (Kind_complete s k1 z1 hd rest) in HK' by done. by injection HK'.
Qed.
