(* ===== verification/RlpDecodeProofs.v ===== *)
(** * Package rlp: the decoders invert the encoder

    [Reads m ok] says that [m] reads the encodings of the values in [ok]: it accepts
    each of them where it fits, accepts nothing else, and always comes to an end.
    It holds for the decoders of the types in [typeOk]. *)

From stdpp Require Import base numbers list option.
From Stdlib Require Import ZArith Lia Strings.Byte.
From S2P Require Import Prelude Rlp RlpStream RlpProofs RlpStreamProofs.

(** ** Decoders and the values they read *)

(** Streams at the same position with no value ahead. *)
Record Same (s s' : Stream) : Prop := {
  sm_in : sIn s' = sIn s;
  sm_remaining : sRemaining s' = sRemaining s;
  sm_limited : sLimited s' = sLimited s;
  sm_stack : sStack s' = sStack s;
  sm_kind : sKind s' = None
}.

Notation len b := (Z.of_nat (length b)).

(** The bytes that a decoder took, with room for them. *)
Definition Took (b : list byte) (s s' : Stream) : Prop :=
  exists rest, sIn s = b ++ rest /\ len b <= avail s /\ Same (move (length b) s) s'.

(** A stream of at most [n] bytes between two values. *)
Record At (n : nat) (s : Stream) : Prop := {
  at_wf : WF s;
  at_kind : sKind s = None;
  at_length : (length (sIn s) <= n)%nat
}.

(** Results that do not come from a decoder's own loops or from the end of a list. *)
Definition proper {A} (r : result rlpErr A) : Prop :=
  match r with Panic | NoFuel | Err EOL => False | _ => True end.

(** With [c], no value has a second encoding. *)
Record Reads {A} (c : bool) (n : nat) (enc : A -> list byte) (m : SM A) (ok : A -> Prop) : Prop := {
  rd_complete : forall s v rest, At n s -> ok v -> sIn s = enc v ++ rest -> len (enc v) <= avail s ->
    exists s', m s = (Ok v, s') /\ Same (move (length (enc v)) s) s';
  rd_sound : forall s v s', At n s -> m s = (Ok v, s') ->
    exists b, b <> [] /\ (c = true -> ok v /\ b = enc v) /\ Took b s s';
  rd_total : forall s, At n s -> atEnd s = false -> proper (fst (m s));
  rd_end : forall s, At n s -> atEnd s = true -> exists s', m s = (Err EOL, s') /\ Same s s';
  rd_nonempty : forall v, ok v -> enc v <> []
}.

(** A decoder that starts with [Kind] can start where [Kind] has been called. *)
Definition Again {A} (m : SM A) : Prop :=
  forall s ks s1, sKindOf s = (Ok ks, s1) -> m s1 = m s.

Lemma Same_refl s : sKind s = None -> Same s s.
Proof. done. Qed.
Lemma Same_move s s' n : Same s s' -> Same (move n s) (move n s').
Proof. intros [A B C D E]. unfold move. split; cbn; congruence. Qed.
Lemma Same_trans s1 s2 s3 : Same s1 s2 -> Same s2 s3 -> Same s1 s3.
Proof. intros [A B C D E] [A' B' C' D' E']. split; congruence. Qed.
Lemma Same_WF s s' : Same s s' -> WF s -> WF s'.
Proof. intros [A B C D E] [A' B' C' D']. split; congruence. Qed.
Lemma Same_avail s s' : Same s s' -> avail s' = avail s.
Proof. intros [A B C D E]. unfold avail. by rewrite D, A. Qed.

Lemma Took_At n b s s' : Took b s s' -> At n s -> At (n - length b) s'.
Proof.
  intros (rest & E & Ha & Hs) [Hw Hk Hl]. split.
  - eapply Same_WF; [done|]. by apply WF_move.
  - apply Hs.
  - rewrite (sm_in _ _ Hs). cbn [move sIn]. rewrite length_drop. lia.
Qed.
Lemma At_le n n' s : (n <= n')%nat -> At n s -> At n' s.
Proof. intros ? []. split; [done..|lia]. Qed.

Lemma Took_trans b1 b2 s s1 s2 : WF s -> Took b1 s s1 -> Took b2 s1 s2 -> Took (b1 ++ b2) s s2.
Proof.
  intros Hw (r1 & E1 & A1 & S1) (r2 & E2 & A2 & S2). exists r2.
  rewrite (sm_in _ _ S1) in E2. cbn [move sIn] in E2. rewrite E1 in E2. rewrite drop_app_length in E2.
  rewrite (Same_avail _ _ S1), avail_move in A2 by done. rewrite length_app. split_and!.
  - by rewrite E1, E2, <- app_assoc.
  - lia.
  - eapply Same_trans; [|exact S2]. rewrite <- move_move. by apply Same_move.
Qed.

Lemma Kind_total s : fst (sKindOf s) <> Panic /\ fst (sKindOf s) <> NoFuel.
Proof.
  unfold sKindOf. destruct (sKind s); [by destruct (sKinderr s)|]. cbv zeta. destruct (atEnd _); [done|].
  destruct (sReadKind _) as [[[k z] err] s1]. destruct err as [e|]; [done|]. by destruct (checkFits z s1).
Qed.

Lemma Kind_end s : sKind s = None -> atEnd s = true -> sKindOf s = (Err EOL, s_with_kinderr None s).
Proof. intros Hk Ha. unfold sKindOf. rewrite Hk. cbv zeta. change (atEnd (s_with_kinderr None s)) with (atEnd s). by rewrite Ha. Qed.

Lemma Kind_again s ks s1 : sKindOf s = (Ok ks, s1) -> sKindOf s1 = (Ok ks, s1).
Proof.
  unfold sKindOf at 1. destruct (sKind s) as [k|] eqn:Ek.
  - destruct (sKinderr s) eqn:Ee; [done|]. intros [= <- <-]. unfold sKindOf. by rewrite Ek, Ee.
  - cbv zeta. destruct (atEnd _); [done|]. destruct (sReadKind _) as [[[k z] err] s2].
    destruct err as [e|]; [done|]. destruct (checkFits z s2); [done|]. by intros [= <- <-].
Qed.

(** EOL is never the error of a header. *)
Lemma willRead_eol n s e s' : willRead n s = (Err e, s') -> e = ErrElemTooLarge \/ e = ErrValueTooLarge.
Proof.
  unfold willRead. cbv zeta. destruct (sStack _) as [|tos st].
  - destruct (sLimited _); [|done]. destruct (_ >? _); [|done]. intros [= <- _]. by right.
  - destruct (_ >? _); [intros [= <- _]; by left|]. destruct (sLimited _); [|done].
    destruct (_ >? _); [|done]. intros [= <- _]. by right.
Qed.
Lemma readFull_eol n s e s' : readFull n s = (Err e, s') -> e <> EOL.
Proof.
  unfold readFull, mbind. destruct (willRead n s) as [[[]|e0| |] s1] eqn:E; try done.
  - destruct (_ <? n); [|done]. by intros [= <- _].
  - intros [= <- _]. apply willRead_eol in E. by destruct E as [->| ->].
Qed.
Lemma readByte_eol s e s' : readByte s = (Err e, s') -> e <> EOL.
Proof.
  unfold readByte, mbind. destruct (willRead 1 s) as [[[]|e0| |] s1] eqn:E; try done.
  - destruct (sIn s1); [|done]. by intros [= <- _].
  - intros [= <- _]. apply willRead_eol in E. by destruct E as [->| ->].
Qed.
Lemma readUint_eol n s e s' : readUint n s = (Err e, s') -> e <> EOL.
Proof.
  unfold readUint. destruct (n =? 0); [done|]. destruct (n =? 1); unfold mbind.
  - destruct (readByte s) as [[b|e0| |] s1] eqn:E; try done. intros [= <- _]. by eapply readByte_eol.
  - destruct (readFull n s) as [[b|e0| |] s1] eqn:E; try done.
    + destruct b as [|b r]; [done|]. destruct (_ =? 0); [|done]. by intros [= <- _].
    + intros [= <- _]. by eapply readFull_eol.
Qed.

Lemma sReadKind_eol s k z e s1 : sReadKind s = ((k, z, Some e), s1) -> e <> EOL.
Proof.
  unfold sReadKind. destruct (readByte s) as [[b|e0| |] s2] eqn:E; try done.
  - cbv zeta. repeat (destruct (_ <? _); [try done|]); try done;
      (destruct (readUint _ _) as [[x|e1| |] s3] eqn:Er; try done;
       [destruct (_ <? 56); [|done]; by intros [= <- <- <- _]|intros [= <- <- <- _]; by eapply readUint_eol]).
  - intros [= <- <- <- _]. apply readByte_eol in E. by destruct (sStack s2), e0.
Qed.

Lemma Kind_eol s s' : sKind s = None -> sKindOf s = (Err EOL, s') -> atEnd s = true.
Proof.
  intros Hk. unfold sKindOf. rewrite Hk. cbv zeta. change (atEnd (s_with_kinderr None s)) with (atEnd s).
  destruct (atEnd s); [done|]. destruct (sReadKind _) as [[[k z] err] s1] eqn:E. destruct err as [e|].
  - intros [= -> _]. by apply sReadKind_eol in E.
  - unfold checkFits. destruct (sStack s1); [destruct (_ && _)|destruct (_ >? _)]; done.
Qed.

Lemma Kind_proper s : sKind s = None -> atEnd s = false -> proper (fst (sKindOf s)).
Proof.
  intros Hk Ha. destruct (Kind_total s). destruct (sKindOf s) as [[x|e| |] s1] eqn:E; try done.
  destruct e; try done. cbn. apply Kind_eol in E; [congruence|done].
Qed.

(** ** Decoders that go on after the header *)

(** What [f] does with the payload of a header. *)
Record Body {A} (c : bool) (n : nat) (enc : A -> list byte) (f : Kind * Z -> SM A) (ok : A -> Prop) : Prop := {
  bd_complete : forall v, ok v -> len (enc v) < 2 ^ 64 ->
    exists k hd body, enc v = hd ++ body /\ IsHead k (len body) hd /\
      forall s rest, At n s -> sIn s = body ++ rest -> len body <= avail s ->
        exists s', f (k, len body) (ahead k (len body) (headByte k hd) s) = (Ok v, s') /\ Same (move (length body) s) s';
  bd_sound : forall k size hd s v s', At n s -> IsHead k size hd -> size <= avail s ->
    f (k, size) (ahead k size (headByte k hd) s) = (Ok v, s') ->
    exists body, (c = true -> ok v /\ enc v = hd ++ body) /\ Took body s s';
  bd_total : forall k size hd s, At n s -> IsHead k size hd -> size <= avail s ->
    proper (fst (f (k, size) (ahead k size (headByte k hd) s)));
  bd_nonempty : forall v, ok v -> enc v <> []
}.

Lemma IsHead_length k size hd : IsHead k size hd -> (1 <= length hd)%nat /\ 0 <= size < 2 ^ 64.
Proof.
  destruct k; [intros (-> & b & -> & _)|intros (? & ->)..]; split; try done; unfold puthead; destruct (_ <? _); cbn; lia.
Qed.

Section Readers.
Context {A : Type} (c : bool) (enc : A -> list byte).

Lemma Reads_kind n f ok :
  (forall n', (n' < n)%nat -> Body c n' enc f ok) -> (forall v, ok v -> enc v <> []) ->
  Reads c n enc (let! ks := sKindOf in f ks) ok.
Proof.
  intros Hf Hne. split; [intros s v rest [Hw Hk Hl] Hv E Ha|intros s v s' [Hw Hk Hl]|intros s [Hw Hk Hl] He|intros s [Hw Hk Hl] He|done].
  - pose proof (avail_le s Hw). pose proof (wf_length s Hw). rewrite E, length_app in Hl.
    assert (0 < length (enc v))%nat. { specialize (Hne v Hv). destruct (enc v); [done|cbn; lia]. }
    destruct (bd_complete _ _ _ _ _ (Hf (n - 1)%nat ltac:(lia)) v Hv ltac:(lia)) as (k & hd & body & Ev & Hh & Hc).
    destruct (IsHead_length _ _ _ Hh). rewrite Ev, length_app in Ha. rewrite Ev, <- app_assoc in E.
    unfold mbind. rewrite (Kind_complete s k (len body) hd (body ++ rest) Hw Hk E Hh) by lia.
    destruct (Hc (move (length hd) s) rest) as (s' & -> & Hs).
    + split; [apply WF_move; [done|lia]|done|]. cbn [move sIn]. rewrite E, drop_app_length.
      rewrite Ev, !length_app in Hl. rewrite length_app. lia.
    + cbn [move sIn]. by rewrite E, drop_app_length.
    + rewrite avail_move by (done || lia). lia.
    + exists s'. split; [done|]. by rewrite Ev, length_app, <- move_move.
  - unfold mbind. destruct (sKindOf s) as [[[k size]|e| |] s1] eqn:Ek; try done. intros Hf'.
    destruct (Kind_sound s k size s1 Hw Hk Ek) as (hd & rest & E & Hh & Ha & ->).
    destruct (IsHead_length _ _ _ Hh). rewrite E, length_app in Hl.
    assert (Hat : At (n - 1) (move (length hd) s)).
    { split; [apply WF_move; [done|lia]|done|]. cbn [move sIn]. rewrite E, drop_app_length. lia. }
    destruct (bd_sound _ _ _ _ _ (Hf (n - 1)%nat ltac:(lia)) k size hd _ v s' Hat Hh) as (body & Hb & Ht).
    { rewrite avail_move by (done || lia). lia. }
    { done. }
    exists (hd ++ body). split_and!; [destruct hd; [cbn in *; lia|done]| |].
    + intros Hc. by destruct (Hb Hc).
    + eapply Took_trans; [done| |exact Ht]. exists rest. split_and!; [done|lia|by apply Same_refl].
  - pose proof (Kind_proper s Hk He) as Hp. unfold mbind. destruct (sKindOf s) as [[[k size]|e| |] s1] eqn:Ek; try done.
    destruct (Kind_sound s k size s1 Hw Hk Ek) as (hd & rest & E & Hh & Ha & ->).
    destruct (IsHead_length _ _ _ Hh). rewrite E, length_app in Hl.
    eapply bd_total; [apply (Hf (n - 1)%nat); lia| |done|rewrite avail_move by (done || lia); lia].
    split; [apply WF_move; [done|lia]|done|]. cbn [move sIn]. rewrite E, drop_app_length. lia.
  - exists (s_with_kinderr None s). unfold mbind. by rewrite (Kind_end s Hk He).
Qed.

Lemma Again_kind f : Again (A := A) (let! ks := sKindOf in f ks).
Proof. intros s ks s1 H. unfold mbind. by rewrite (Kind_again s ks s1 H), H. Qed.

Lemma Reads_ext n m m' ok : (forall s, m' s = m s) -> Reads c n enc m ok -> Reads c n enc m' ok.
Proof. intros E [H1 H2 H3 H4 H5]. split; intros s; rewrite ?E; eauto. Qed.
Lemma Again_ext (m m' : SM A) : (forall s, m' s = m s) -> Again m -> Again m'.
Proof. intros E H s ks s1 Hk. rewrite !E. eauto. Qed.

(** A check and a conversion of the value. *)
Lemma Reads_map {B} (encB : B -> list byte) n m ok okB (g : A -> result rlpErr B) :
  Reads c n enc m ok ->
  (forall x, proper (g x)) -> (forall x y, ok x -> g x = Ok y -> okB y /\ encB y = enc x) ->
  (forall y, okB y -> exists x, ok x /\ g x = Ok y) ->
  Reads c n encB (let! x := m in fun s => (g x, s)) okB.
Proof.
  intros [H1 H2 H3 H4 H5] Hg Hs Hc. split.
  - intros s y rest Hat Hy. destruct (Hc y Hy) as (x & Hx & E). destruct (Hs x y Hx E) as [_ ->]. intros Ei Ha.
    destruct (H1 s x rest Hat Hx Ei Ha) as (s' & Em & HS). exists s'. unfold mbind. by rewrite Em, E.
  - intros s y s' Hat. unfold mbind. destruct (m s) as [[x|e| |] s1] eqn:Em; try done. intros [= E <-].
    destruct (H2 s x s1 Hat Em) as (b & Hb & Hb' & Ht). exists b. split_and!; [done| |done].
    intros Hct. destruct (Hb' Hct) as [Hx ->]. by destruct (Hs x y Hx E) as [Hy ->].
  - intros s Hat He. specialize (H3 s Hat He). unfold mbind. destruct (m s) as [[x|e| |] s1]; try done. apply Hg.
  - intros s Hat He. destruct (H4 s Hat He) as (s' & Em & HS). exists s'. unfold mbind. by rewrite Em.
  - intros y Hy. destruct (Hc y Hy) as (x & Hx & E). destruct (Hs x y Hx E) as [_ ->]. auto.
Qed.
Lemma Again_map {B} (m : SM A) (g : A -> SM B) : Again m -> Again (let! x := m in g x).
Proof. intros H s ks s1 Hk. unfold mbind. by rewrite (H s ks s1 Hk). Qed.
End Readers.

(** ** Strings *)

Definition short (b : list byte) : bool := match b with [x] => byte_to_Z x <? 128 | _ => false end.

Lemma encString_cases b :
  if short b then exists x, b = [x] /\ byte_to_Z x < 128 /\ encString b = [x]
  else encString b = puthead 0x80 0xb7 (len b) ++ b.
Proof.
  destruct b as [|x [|y r]]; try done. cbn [short encString]. destruct (Z.ltb_spec (byte_to_Z x) 128).
  - exists x. by destruct (Z.leb_spec (byte_to_Z x) 0x7f); [|lia].
  - by destruct (Z.leb_spec (byte_to_Z x) 0x7f); [lia|].
Qed.

Lemma encString_nonempty b : encString b <> [].
Proof.
  pose proof (encString_cases b) as H. destruct (short b); [by destruct H as (x & _ & _ & ->)|]. rewrite H.
  unfold puthead. by destruct (_ <? _).
Qed.

Lemma short_length b size : Z.of_nat (length b) = size ->
  (size =? 1) && match b with b0 :: _ => byte_to_Z b0 <? 128 | [] => false end = short b.
Proof. intros <-. destruct b as [|x [|y r]]; try done. destruct (Z.eqb_spec (len (x :: y :: r)) 1) as [E|]; [cbn in E; lia|done]. Qed.

Lemma WF_ahead k z b s : WF s -> WF (ahead k z b s).
Proof. intros []. by split. Qed.
Lemma Same_ahead n k z b s : Same (move n s) (move n (ahead k z b s)).
Proof. done. Qed.

(** The payload of a string. *)
Lemma readFull_ahead n k b s size :
  At n s -> 0 <= size < 2 ^ 64 -> size <= avail s ->
  exists body rest, sIn s = body ++ rest /\ len body = size /\
    readFull size (ahead k size b s) = (Ok body, move (length body) (ahead k size b s)).
Proof.
  intros [Hw Hk Hl] Hs Ha. pose proof (avail_le s Hw). pose proof (readFull_spec size (ahead k size b s) (WF_ahead _ _ _ _ Hw) Hs) as H1.
  change (avail (ahead k size b s)) with (avail s) in H1. destruct (Z.leb_spec size (avail s)); [|lia].
  change (sIn (ahead k size b s)) with (sIn s) in H1.
  assert (Hlen : length (take (Z.to_nat size) (sIn s)) = Z.to_nat size) by (rewrite length_take; lia).
  exists (take (Z.to_nat size) (sIn s)), (drop (Z.to_nat size) (sIn s)). split_and!.
  - by rewrite take_drop.
  - lia.
  - by rewrite H1, Hlen.
Qed.

Lemma readFull_body n k b s body rest :
  At n s -> sIn s = body ++ rest -> len body <= avail s ->
  readFull (len body) (ahead k (len body) b s) = (Ok body, move (length body) (ahead k (len body) b s)).
Proof.
  intros Hat E Ha. pose proof (avail_le s (at_wf _ _ Hat)). pose proof (wf_length s (at_wf _ _ Hat)).
  destruct (readFull_ahead n k b s (len body) Hat ltac:(lia) Ha) as (body' & rest' & E' & Hl & Hr).
  assert (body' = body) as ->; [|done]. rewrite E in E'. apply app_inj_1 in E' as [-> _]; [done|lia].
Qed.

Lemma headByte_single b : headByte KByte [b] = b.
Proof. done. Qed.

Lemma Same_stay s s' : Same s s' -> Same (move 0 s) s'.
Proof.
  intros [A B C D E]. split; cbn; try done; [lia|]. rewrite D. destruct (sStack s) as [|[] ?]; cbn; [done|].
  by rewrite Z.add_0_r.
Qed.

(** A decoder of strings: [g] is what it makes of the content. *)
Section Strings.
Context {A : Type} (c : bool) (n : nat) (enc : A -> list byte) (ok : A -> Prop).
Context (f : Kind * Z -> SM A) (g : list byte -> option A).
Context (fByte : byte -> result rlpErr A) (fString : list byte -> result rlpErr A).
Hypothesis f_byte : forall x s, At n s -> byte_to_Z x < 128 ->
  exists s', f (KByte, 0) (ahead KByte 0 x s) = (fByte x, s') /\ (forall v, fByte x = Ok v -> Same s s').
Hypothesis f_string : forall b s rest, At n s -> sIn s = b ++ rest -> len b <= avail s ->
  exists s', f (KString, len b) (ahead KString (len b) x00 s) = (fString b, s') /\
    (forall v, fString b = Ok v -> Same (move (length b) s) s').
Hypothesis f_list : forall size s, f (KList, size) s = (Err ErrExpectedString, s).
Hypothesis fByte_ok : forall x, byte_to_Z x < 128 -> proper (fByte x) /\ forall v, fByte x = Ok v <-> g [x] = Some v.
Hypothesis fString_ok : forall b, proper (fString b) /\ forall v, fString b = Ok v <-> short b = false /\ g b = Some v.
Hypothesis g_ok : forall b v, g b = Some v -> ok v /\ enc v = encString b.
Hypothesis ok_g : forall v, ok v -> exists b, g b = Some v.

Lemma string_body k size hd s :
  At n s -> IsHead k size hd -> size <= avail s ->
  exists r s', f (k, size) (ahead k size (headByte k hd) s) = (r, s') /\ proper r /\
    forall v, r = Ok v -> ok v /\ exists body, enc v = hd ++ body /\ Took body s s'.
Proof.
  intros Hat Hh Ha. destruct k; [destruct Hh as (-> & x & -> & Hx)|destruct Hh as (Hz & ->)|].
  - destruct (f_byte x s Hat Hx) as (s' & E & HS), (fByte_ok x Hx) as [Hp Hv]. exists (fByte x), s'. split_and!; [done..|].
    intros v E'. specialize (HS v E'). apply Hv, g_ok in E' as [Hok Hc]. split; [done|]. exists []. split.
    + rewrite Hc. cbn. by destruct (Z.leb_spec (byte_to_Z x) 127); [|lia].
    + exists (sIn s). split_and!; [done|cbn; lia|by apply Same_stay].
  - pose proof (avail_le s (at_wf _ _ Hat)). set (b := take (Z.to_nat size) (sIn s)).
    assert (Hb : len b = size) by (unfold b; rewrite length_take; lia).
    assert (E : sIn s = b ++ drop (Z.to_nat size) (sIn s)) by (unfold b; by rewrite take_drop).
    rewrite <- Hb in Ha |- *. change (headByte KString _) with x00.
    destruct (f_string b s _ Hat E Ha) as (s' & Ef & HS), (fString_ok b) as [Hp Hv]. exists (fString b), s'. split_and!; [done..|].
    intros v E'. specialize (HS v E'). apply Hv in E' as [Es Eg]. apply g_ok in Eg as [Hok Hc]. split; [done|].
    exists b. split; [|by exists (drop (Z.to_nat size) (sIn s))].
    pose proof (encString_cases b) as Hcs. rewrite Es in Hcs. by rewrite Hc, Hcs.
  - rewrite f_list. eexists _, _. split_and!; [done..|]. by intros v [=].
Qed.

Lemma Body_string : Body c n enc f ok.
Proof.
  split.
  - intros v Hv Hl. destruct (ok_g v Hv) as (b & Hg). destruct (g_ok b v Hg) as [_ Hc]. rewrite Hc in *.
    pose proof (encString_cases b) as Hcs. destruct (short b) eqn:Es.
    + destruct Hcs as (x & -> & Hx & ->). exists KByte, [x], []. split_and!; [done|by split; [|exists x]|].
      intros s rest Hat E Ha. destruct (f_byte x s Hat Hx) as (s' & Ef & HS).
      apply (proj2 (fByte_ok x Hx)) in Hg. exists s'. rewrite Hg in *. split; [done|]. by eapply Same_stay, HS.
    + exists KString, (puthead 0x80 0xb7 (len b)), b. rewrite Hcs in *. rewrite length_app in Hl.
      split_and!; [done|split; [lia|done]|]. intros s rest Hat E Ha. destruct (f_string b s rest Hat E Ha) as (s' & Ef & HS).
      pose proof (proj2 (proj2 (fString_ok b) v) (conj Es Hg)) as Hr. exists s'. rewrite Hr in *. split; [done|]. by eapply HS.
  - intros k size hd s v s' Hat Hh Ha Ef. destruct (string_body k size hd s Hat Hh Ha) as (r & s1 & Ef' & _ & Hv).
    rewrite Ef in Ef'. injection Ef' as <- <-. destruct (Hv v eq_refl) as (Hok & body & Hb & Ht). eauto.
  - intros k size hd s Hat Hh Ha. by destruct (string_body k size hd s Hat Hh Ha) as (r & s1 & -> & Hp & _).
  - intros v Hv. destruct (ok_g v Hv) as (b & Hg). destruct (g_ok b v Hg) as [_ ->]. apply encString_nonempty.
Qed.
End Strings.

Lemma Reads_bytes c n : Reads c n encString sBytes (fun _ => True).
Proof.
  unfold sBytes. eapply Reads_ext; [intros s; reflexivity|]. apply Reads_kind; [|intros; apply encString_nonempty].
  intros n' _. apply (Body_string c n' encString _ _ Some (fun x => Ok [x])
    (fun b => if short b then Err ErrCanonSize else Ok b)).
  - intros x s [] Hx. by eexists.
  - intros b s rest Hat E Ha. eexists. split; [|intros v _; apply (Same_ahead _ KString (len b) x00)]. unfold mbind at 1.
    rewrite (readFull_body n' KString _ s b rest Hat E Ha), short_length by done. by destruct (short b).
  - done.
  - intros x _. split; [done|]. intros v. split; by intros [= <-].
  - intros b. destruct (short b); split; try done; intros v; split; [done|by intros [? _]|by intros [= <-]|by intros [_ [= <-]]].
  - by intros b v [= <-].
  - intros v _. by exists v.
Qed.

(** ** Integers *)

(** No leading zeros *)
Definition canonical (b : list byte) : bool :=
  match b with x :: _ => negb (byte_to_Z x =? 0) | [] => true end.

Lemma big_bytes_value b : canonical b = true -> big_bytes (be_value b) = b.
Proof.
  destruct b as [|x r]; [done|]. cbn [canonical]. intros Hx. apply negb_true_iff, Z.eqb_neq in Hx.
  rewrite (big_bytes_min (length (x :: r))) by ((cbn; lia) || by eapply minBytes_value). apply be_bytes_be_value.
Qed.

Lemma big_bytes_minBytes z : 0 < z -> minBytes (length (big_bytes z)) z.
Proof.
  intros Hz. unfold big_bytes. rewrite length_be_bytes. unfold BitLen. destruct (Z.eqb_spec z 0); [lia|].
  rewrite Z.abs_eq by lia. pose proof (Z.log2_nonneg z). pose proof (Z.log2_spec z Hz) as [Hlo Hhi].
  replace (Z.log2 z + 1 + 7) with (Z.log2 z + 1 * 8) by lia. rewrite Z.div_add by lia.
  pose proof (Z.div_mod (Z.log2 z) 8 ltac:(lia)). pose proof (Z.mod_pos_bound (Z.log2 z) 8 ltac:(lia)).
  unfold minBytes. rewrite Z2Nat.id by lia. change 256 with (2 ^ 8). rewrite <- !Z.pow_mul_r by lia. split.
  - eapply Z.le_trans; [|exact Hlo]. apply Z.pow_le_mono_r; lia.
  - eapply Z.lt_le_trans; [exact Hhi|]. apply Z.pow_le_mono_r; lia.
Qed.

Lemma big_bytes_canonical z : 0 <= z -> canonical (big_bytes z) = true.
Proof.
  intros Hz. destruct (Z.eq_dec z 0) as [->|]; [done|]. pose proof (big_bytes_minBytes z ltac:(lia)) as [Hm _].
  pose proof (be_value_big_bytes z) as Hv. rewrite Z.abs_eq in Hv by done. destruct (big_bytes z) as [|x r]; [done|].
  cbn [canonical]. apply negb_true_iff, Z.eqb_neq. intros Hx. rewrite be_value_cons, Hx in Hv.
  pose proof (be_value_range r). replace (Z.of_nat (length (x :: r)) - 1) with (Z.of_nat (length r)) in Hm by (cbn; lia). lia.
Qed.

Lemma big_bytes_length z m : 0 <= z < 256 ^ m -> 0 <= m -> len (big_bytes z) <= m.
Proof.
  intros Hz Hm. destruct (Z.eq_dec z 0) as [->|]; [done|]. pose proof (big_bytes_minBytes z ltac:(lia)) as [Hlo _].
  destruct (Z.le_gt_cases (len (big_bytes z)) m); [done|].
  assert (256 ^ m <= 256 ^ (len (big_bytes z) - 1)) by (apply Z.pow_le_mono_r; lia). lia.
Qed.

Lemma readUint_body n s b rest :
  At n s -> sIn s = b ++ rest -> len b <= avail s -> len b <= 8 ->
  exists s', readUint (len b) (ahead KString (len b) x00 s) =
    (if (2 <=? len b) && negb (canonical b) then Err ErrCanonSize else Ok (be_value b), s') /\ Same (move (length b) s) s'.
Proof.
  intros Hat E Ha H8. destruct b as [|x r].
  - eexists. split; [reflexivity|]. apply Same_stay. done.
  - set (b := x :: r) in *. eexists. split; [|apply (Same_ahead (length b) KString (len b) x00)].
    unfold readUint. destruct (Z.eqb_spec (len b) 0); [cbn in *; lia|]. destruct (Z.eqb_spec (len b) 1) as [E1|].
    + assert (r = []) as ->. { destruct r; [done|cbn in E1; lia]. } cbn in E1.
      pose proof (readByte_spec (ahead KString (len b) x00 s) (WF_ahead _ _ _ _ (at_wf _ _ Hat))) as H.
      change (avail (ahead KString (len b) x00 s)) with (avail s) in H. destruct (Z.leb_spec 1 (avail s)); [|cbn in Ha; lia].
      destruct H as (y & q & E2 & H). unfold mbind. rewrite H. cbn in E2. rewrite E in E2. cbn in E2.
      injection E2 as <- <-. unfold b. by rewrite be_value_single.
    + unfold mbind. rewrite (readFull_body n KString x00 s b rest Hat E Ha). unfold b; cbn [canonical].
      destruct (Z.leb_spec 2 (len (x :: r))); [|cbn in *; lia]. by destruct (byte_to_Z x =? 0).
Qed.

Definition uintOf (m : Z) (b : list byte) : option Z :=
  if canonical b && (len b <=? m) then Some (be_value b) else None.
Definition uintString (m : Z) (b : list byte) : result rlpErr Z :=
  if len b >? m then Err errUintOverflow
  else if (2 <=? len b) && negb (canonical b) then Err ErrCanonInt
  else if (len b >? 0) && (be_value b <? 128) then Err ErrCanonSize
  else Ok (be_value b).

Lemma uintString_ok m b :
  proper (uintString m b) /\ forall v, uintString m b = Ok v <-> short b = false /\ uintOf m b = Some v.
Proof.
  unfold uintString, uintOf. rewrite !Z.gtb_ltb. destruct (Z.ltb_spec m (len b)), (Z.leb_spec (len b) m); try lia.
  { split; [done|]. intros v. rewrite andb_false_r. split; [done|by intros [_ ?]]. }
  rewrite andb_true_r. destruct b as [|x [|y r]].
  - split; [done|]. intros v. cbn. split; [by intros [= <-]|by intros [_ [= <-]]].
  - cbn [short canonical]. rewrite be_value_single. cbn. destruct (Z.ltb_spec (byte_to_Z x) 128).
    + split; [done|]. intros v. split; [done|by intros [? _]].
    + destruct (Z.eqb_spec (byte_to_Z x) 0); [lia|]. split; [done|]. intros v. split; [by intros [= <-]|by intros [_ [= <-]]].
  - destruct (Z.leb_spec 2 (len (x :: y :: r))); [|cbn in *; lia]. cbn [short]. destruct (canonical (x :: y :: r)) eqn:Ec; cbn [andb negb].
    + destruct (Z.ltb_spec (be_value (x :: y :: r)) 128) as [Hs|].
      * cbn [canonical] in Ec. apply negb_true_iff, Z.eqb_neq in Ec. pose proof (minBytes_value _ _ _ (eq_refl (x :: y :: r)) Ec) as [Hm _].
        assert (256 ^ 1 <= 256 ^ (Z.of_nat (length (x :: y :: r)) - 1)) by (apply Z.pow_le_mono_r; lia). lia.
      * rewrite andb_false_r. split; [done|]. intros v. split; [by intros [= <-]|by intros [_ [= <-]]].
    + split; [done|]. intros v. split; [done|by intros [_ ?]].
Qed.

Lemma uintOf_ok m b v : 0 <= m -> uintOf m b = Some v -> 0 <= v < 256 ^ m /\ big_bytes v = b.
Proof.
  intros Hm. unfold uintOf. destruct (canonical b) eqn:Ec; [|done]. destruct (Z.leb_spec (len b) m); [|done].
  intros [= <-]. pose proof (be_value_range b). split; [|by apply big_bytes_value].
  assert (256 ^ len b <= 256 ^ m) by (apply Z.pow_le_mono_r; lia). lia.
Qed.

Lemma Reads_uint c n m : 1 <= m <= 8 ->
  Reads c n (fun z => encString (big_bytes z)) (sUint (8 * m)) (fun z => 0 <= z < 256 ^ m).
Proof.
  intros Hm. unfold sUint. eapply Reads_ext; [intros s; reflexivity|]. apply Reads_kind; [|intros; apply encString_nonempty].
  intros n' _. apply (Body_string c n' _ _ _ (uintOf m)
    (fun x => if byte_to_Z x =? 0 then Err ErrCanonInt else Ok (byte_to_Z x)) (uintString m)).
  - intros x s Hat Hx. unfold mbind. cbn. destruct (byte_to_Z x =? 0); eexists; (split; [reflexivity|done]).
  - intros b s rest Hat E Ha. unfold uintString. rewrite (Z.mul_comm 8 m), Z.div_mul, !Z.gtb_ltb by done.
    destruct (Z.ltb_spec m (len b)); [by eexists|]. destruct (readUint_body n' s b rest Hat E Ha ltac:(lia)) as (s' & -> & HS).
    exists s'. destruct (_ && _); [done|]. by destruct (_ && _).
  - done.
  - intros x Hx. unfold uintOf. cbn [canonical]. destruct (Z.eqb_spec (byte_to_Z x) 0) as [E|E]; cbn [negb andb].
    + split; [done|]. by intros v.
    + destruct (Z.leb_spec (len [x]) m); [|cbn in *; lia]. rewrite be_value_single. split; [done|]. intros v. split; by intros [= <-].
  - apply uintString_ok.
  - intros b v Hv. destruct (uintOf_ok m b v ltac:(lia) Hv) as [? ->]. done.
  - intros v Hv. exists (big_bytes v). unfold uintOf. rewrite big_bytes_canonical by lia.
    destruct (Z.leb_spec (len (big_bytes v)) m) as [|Hl]; [cbn; by rewrite be_value_big_bytes, Z.abs_eq by lia|].
    pose proof (big_bytes_length v m Hv). lia.
Qed.
