(* ===== verification/RlpTypeProofs.v ===== *)
(** * Package rlp: the decoders of the Go types

    Lists, arrays, structs and optional pointers, and the decoder of every type in
    [typeOk]. *)

From stdpp Require Import base numbers list option.
From Stdlib Require Import ZArith Lia Strings.Byte.
From S2P Require Import Prelude Rlp RlpStream RlpProofs RlpStreamProofs RlpDecodeProofs.

(** ** The values of a type *)

(** The decoders that keep to the format: the integers have one of Go's widths, a
    byte array of length one and the rest of a list are left out, and with [c] so are
    the pointers that may be nil, whose nil value has two encodings.  Only a field of a
    struct has the tag "nil", so these do not point to each other. *)
Fixpoint typeOk (c : bool) (t : goType) : bool :=
  match t with
  | TUint bits => bool_decide (bits ∈ [8; 16; 32; 64])
  | TBool | TBig | TBytes | TInterface => true
  | TByteArray n => negb (n =? 1)%nat
  | TSlice t | TArray _ t => typeOk c t
  | TStruct ts => forallb (typeOk c) ts
  | TOptional t => negb c && typeOk c t && match t with TInterface | TOptional _ => false | _ => true end
  | TTail _ | TRaw => false
  end.

Fixpoint isItem (v : rlpValue) : bool :=
  match v with RBytes _ => true | RList l => forallb isItem l | _ => false end.

Definition isNil (t : goType) (v : rlpValue) : bool :=
  match nilValue t, v with
  | RList _, RList [] | RBytes _, RBytes [] | RBig _, RBig None | RBool _, RBool false => true
  | RUint _, RUint z => z =? 0
  | _, _ => false
  end.

Fixpoint hasType (t : goType) (v : rlpValue) : bool :=
  match t, v with
  | TUint bits, RUint z => (0 <=? z) && (z <? 2 ^ bits)
  | TBool, RBool _ => true
  | TBig, RBig (Some z) => 0 <=? z
  | TBytes, RBytes _ => true
  | TByteArray n, RBytes b => (length b =? n)%nat
  | TSlice t, RList l => forallb (hasType t) l
  | TArray n t, RList l => (length l =? n)%nat && forallb (hasType t) l
  | TStruct ts, RList l =>
      (fix go (ts : list goType) (l : list rlpValue) : bool :=
         match ts, l with
         | [], [] => true
         | t :: ts, v :: l => hasType t v && go ts l
         | _, _ => false
         end) ts l
  | TInterface, v => isItem v
  | TOptional t, RNil zero => isNil t zero
  | TOptional t, v => hasType t v && negb (bool_decide (rlpBytes v = [x80])) && negb (bool_decide (rlpBytes v = [xc0]))
  | _, _ => false
  end.

(** ** Single values *)

Lemma Reads_iff {A} c n (enc : A -> list byte) m ok ok' :
  (forall v, ok v <-> ok' v) -> Reads c n enc m ok -> Reads c n enc m ok'.
Proof.
  intros E [H1 H2 H3 H4 H5]. split; [intros s v rest Hat Hv; apply H1; [done|by apply E]| |done|done|intros v Hv; apply H5; by apply E].
  intros s v s' Hat Hm. destruct (H2 s v s' Hat Hm) as (b & Hb & Hc & Ht). exists b. split_and!; [done| |done].
  intros Hct. destruct (Hc Hct). by split; [apply E|].
Qed.

Lemma Reads_big c n : Reads c n rlpBytes decodeBigInt (fun v => hasType TBig v = true).
Proof.
  eapply Reads_ext; [|apply (Reads_map c encString rlpBytes n _ _ _
    (fun b => match b with b0 :: _ => if byte_to_Z b0 =? 0 then Err ErrCanonInt else Ok (RBig (Some (be_value b)))
              | [] => Ok (RBig (Some 0)) end) (Reads_bytes c n))].
  - intros s. unfold decodeBigInt, mbind. destruct (sBytes s) as [[b|e| |] s1]; try done. destruct b as [|b0 r]; [done|].
    by destruct (byte_to_Z b0 =? 0).
  - intros [|x r]; [done|]. by destruct (byte_to_Z x =? 0).
  - intros [|x r] y _; [by intros [= <-]|]. destruct (Z.eqb_spec (byte_to_Z x) 0); [done|]. intros [= <-]. cbn [hasType rlpBytes from_option id].
    split; [apply Z.leb_le, be_value_range|]. rewrite big_bytes_value; [done|]. cbn. by apply negb_true_iff, Z.eqb_neq.
  - intros [| | | [z|] | | | |]; try done. cbn [hasType]. intros Hz%Z.leb_le. exists (big_bytes z). split; [done|].
    pose proof (big_bytes_canonical z Hz) as Hc. pose proof (be_value_big_bytes z) as Hv. rewrite Z.abs_eq in Hv by done.
    destruct (big_bytes z) as [|x r]; cbn [canonical] in Hc; [by rewrite <- Hv|]. apply negb_true_iff in Hc. by rewrite Hc, Hv.
Qed.

Lemma Reads_uint_type c n bits : bits ∈ [8; 16; 32; 64] ->
  Reads c n rlpBytes (decoder (TUint bits)) (fun v => hasType (TUint bits) v = true).
Proof.
  intros Hb. assert (exists m, 1 <= m <= 8 /\ bits = 8 * m) as (m & Hm & ->).
  { repeat (apply elem_of_cons in Hb as [->|Hb]); [by exists 1|by exists 2|by exists 4|by exists 8|by apply elem_of_nil in Hb]. }
  assert (E : 2 ^ (8 * m) = 256 ^ m) by (rewrite Z.pow_mul_r by lia; done).
  eapply Reads_ext; [|apply (Reads_map c _ rlpBytes n _ _ _ (fun z => Ok (RUint z)) (Reads_uint c n m Hm))]; [done|done| |].
  - intros x y Hx [= <-]. cbn [hasType]. rewrite E. split; [|done]. apply andb_true_iff. rewrite Z.leb_le, Z.ltb_lt. lia.
  - intros [|z| | | | | |]; try done. cbn [hasType]. rewrite E, andb_true_iff, Z.leb_le, Z.ltb_lt. intros Hz. by exists z.
Qed.

Lemma Reads_bool c n : Reads c n rlpBytes (decoder TBool) (fun v => hasType TBool v = true).
Proof.
  eapply Reads_ext; [|apply (Reads_map c _ rlpBytes n _ _ _
    (fun z => if z =? 0 then Ok (RBool false) else if z =? 1 then Ok (RBool true) else Err errInvalidBool)
    (Reads_uint c n 1 ltac:(lia)))].
  - intros s. cbn [decoder]. unfold sBool, mbind. change (8 * 1) with 8. destruct (sUint 8 s) as [[z|e| |] s1]; try done.
    destruct (z =? 0); [done|]. by destruct (z =? 1).
  - intros z. destruct (z =? 0); [done|]. by destruct (z =? 1).
  - intros z y _. destruct (Z.eqb_spec z 0) as [->|]; [by intros [= <-]|]. destruct (Z.eqb_spec z 1) as [->|]; [by intros [= <-]|done].
  - intros [| |b| | | | |]; try done. intros _. exists (if b then 1 else 0). by destruct b.
Qed.

Lemma Reads_bytes_type c n : Reads c n rlpBytes (decoder TBytes) (fun v => hasType TBytes v = true).
Proof.
  eapply Reads_ext; [|apply (Reads_map c _ rlpBytes n _ _ _ (fun b => Ok (RBytes b)) (Reads_bytes c n))]; [done|done| |].
  - by intros x y _ [= <-].
  - intros [b| | | | | | |]; try done. by exists b.
Qed.

Definition arrayString (m : Z) (b : list byte) : result rlpErr rlpValue :=
  if m <? len b then Err errInputTooLong
  else if m >? len b then Err errInputTooShort
  else if short b then Err ErrCanonSize else Ok (RBytes b).

Lemma Reads_array_bytes c n m : m <> 1%nat ->
  Reads c n rlpBytes (decodeByteArray (Z.of_nat m)) (fun v => hasType (TByteArray m) v = true).
Proof.
  intros Hm. unfold decodeByteArray. eapply Reads_ext; [intros s; reflexivity|].
  apply Reads_kind; [|intros [] H; try done; apply encString_nonempty].
  intros n' _. apply (Body_string c n' _ _ _ (fun b => if (length b =? m)%nat then Some (RBytes b) else None)
    (fun x => if Z.of_nat m =? 0 then Err errInputTooLong else Err errInputTooShort) (arrayString (Z.of_nat m))).
  - intros x s Hat Hx. destruct (Z.eqb_spec (Z.of_nat m) 0); [by eexists|]. rewrite Z.gtb_ltb. destruct (Z.ltb_spec 1 (Z.of_nat m)); [by eexists|lia].
  - intros b s rest Hat E Ha. unfold arrayString. destruct (Z.ltb_spec (Z.of_nat m) (len b)); [by eexists|]. rewrite Z.gtb_ltb.
    destruct (Z.ltb_spec (len b) (Z.of_nat m)); [by eexists|]. eexists. split; [|intros v _; apply (Same_ahead _ KString (len b) x00)].
    replace (Z.of_nat m) with (len b) by lia. unfold mbind at 1.
    rewrite (readFull_body n' KString _ s b rest Hat E Ha), short_length by done. by destruct (short b).
  - done.
  - intros x _. split; [by destruct (_ =? 0)|]. intros v. cbn [length]. destruct (Nat.eqb_spec 1 m); [done|].
    by destruct (_ =? 0).
  - intros b. unfold arrayString. rewrite Z.gtb_ltb. destruct (Nat.eqb_spec (length b) m) as [<-|].
    + rewrite Z.ltb_irrefl. destruct (short b); split; try done; intros v; (split; [done || by intros [= <-]|by intros [? [=]]]) || split; [by intros [= <-]|by intros [_ [= <-]]].
    + destruct (Z.ltb_spec (Z.of_nat m) (len b)); [|destruct (Z.ltb_spec (len b) (Z.of_nat m)); [|lia]];
        (split; [done|]; intros v; split; [done|by intros [_ [=]]]).
  - intros b v. destruct (length b =? m)%nat eqn:E; [|done]. by intros [= <-].
  - intros [b| | | | | | |]; try done. cbn [hasType]. intros E. exists b. by rewrite E.
Qed.

(** ** Lists *)

Notation join l := (mjoin (rlpBytes <$> l)).

(** What reads the elements of a list of the given size. *)
Record Elems (c : bool) (n : nat) (m : Z -> SM (list rlpValue)) (okl : list rlpValue -> Prop) : Prop := {
  el_complete : forall s l rest, At n s -> sStack s <> [] -> okl l -> sIn s = join l ++ rest -> avail s = len (join l) ->
    exists s', m (len (join l)) s = (Ok l, s') /\ Same (move (length (join l)) s) s';
  el_sound : forall s l s', At n s -> sStack s <> [] -> m (avail s) s = (Ok l, s') ->
    exists b, (c = true -> okl l /\ b = join l) /\ Took b s s';
  el_total : forall s, At n s -> sStack s <> [] -> proper (fst (m (avail s) s))
}.

Definition listBody (m : Z -> SM (list rlpValue)) (ks : Kind * Z) : SM rlpValue :=
  match ks.1 with
  | KList =>
      let! _ := modify (fun s => s_with_size 0 (s_with_kind None (s_with_stack (mkListpos 0 ks.2 :: sStack s) s))) in
      let! l := m ks.2 in
      let! _ := sListEnd in
      ret (RList l)
  | _ => throw ErrExpectedList
  end.

Lemma sList_then m s :
  (let! size := sList in let! l := m size in let! _ := sListEnd in ret (RList l)) s =
  (let! ks := sKindOf in listBody m ks) s.
Proof. unfold sList, listBody, mbind. destruct (sKindOf s) as [[[[] z]|e| |] s1]; done. Qed.

(** Inside a list of [size] bytes *)
Definition enter (size : Z) (s : Stream) : Stream :=
  s_with_size 0 (s_with_kind None (s_with_stack (mkListpos 0 size :: sStack s) s)).

Lemma wfStack_push st n size : wfStack 0 st n -> 0 <= size <= n ->
  match st with tos :: _ => size <= lpSize tos - lpPos tos | [] => True end -> wfStack size st (n - size).
Proof.
  destruct st as [|tos st]; cbn [wfStack]; [lia|]. intros (A & B & C & D & E) Hs Hf. split_and!; try lia.
  replace (n - size - (lpSize tos - (lpPos tos + size))) with (n - (lpSize tos - (lpPos tos + 0))) by lia. done.
Qed.

Lemma enter_At n size s hb : At n s -> 0 <= size < 2 ^ 64 -> size <= avail s -> At n (enter size (ahead KList size hb s)).
Proof.
  intros [Hw Hk Hl] Hs Ha. pose proof (avail_le s Hw). destruct Hw as [A B C D]. split; [|done|done]. split; try done.
  cbn [enter ahead sStack sIn s_with_size s_with_kind s_with_stack wfStack lpPos lpSize]. split_and!; try lia.
  rewrite Z.add_0_r, Z.sub_0_r. apply wfStack_push; [done|lia|]. unfold avail in Ha. by destruct (sStack s).
Qed.

Lemma leave n size s hb (b : list byte) s2 :
  At n s -> 0 <= size < 2 ^ 64 -> size <= avail s -> Same (move (length b) (enter size (ahead KList size hb s))) s2 ->
  exists s3, sListEnd s2 = (if len b =? size then Ok tt else Err errNotAtEOL, s3) /\
    (len b = size -> Same (move (length b) s) s3).
Proof.
  intros [Hw Hk Hl] Hs Ha [A B C D E]. cbn in A, B, C, D. unfold sListEnd. rewrite D. cbn [lpPos lpSize]. rewrite Z.add_0_l.
  destruct (Z.eqb_spec (len b) size) as [Eb|Eb]; cbn [negb]; eexists; (split; [reflexivity|]); [|done].
  intros _. split; try done. cbn. rewrite Eb. pose proof (wf_stack s Hw) as Hst. unfold avail in Ha.
  destruct (sStack s) as [|tos st]; [done|]. cbn [wfStack] in Hst. cbn [bump].
  rewrite u64_small by (unfold is_u64; lia). done.
Qed.

Lemma encList_head (p : list byte) : len p < 2 ^ 64 -> IsHead KList (len p) (puthead 0xc0 0xf7 (len p)).
Proof. intros. split; [lia|done]. Qed.

Lemma Body_list c n m okl :
  Elems c n m okl -> Body c n rlpBytes (listBody m) (fun v => exists l, v = RList l /\ okl l).
Proof.
  intros [H1 H2 H3]. split.
  - intros v (l & -> & Hl) Hlen. cbn [rlpBytes] in *. unfold encList in *. rewrite length_app in Hlen.
    exists KList, (puthead 0xc0 0xf7 (len (join l))), (join l). split_and!; [done|by apply encList_head; lia|].
    intros s rest Hat E Ha. set (size := len (join l)) in *. set (hb := headByte _ _).
    destruct (H1 (enter size (ahead KList size hb s)) l rest) as (s2 & Em & HS); [by apply enter_At; [|lia|]|done..|cbn; lia|].
    destruct (leave n size s hb (join l) s2 Hat ltac:(lia) Ha HS) as (s3 & El & HS3).
    exists s3. split; [|by apply HS3]. unfold listBody, mbind, modify. cbn [fst snd]. fold (enter size (ahead KList size hb s)).
    fold size in Em. rewrite Em, El. fold size. by rewrite Z.eqb_refl.
  - intros k size hd s v s' Hat Hh Ha. destruct k; [done..|]. destruct Hh as (Hz & ->). set (hb := headByte _ _).
    unfold listBody, mbind, modify. cbn [fst snd]. fold (enter size (ahead KList size hb s)).
    pose proof (enter_At n size s hb Hat Hz Ha) as He. set (s1 := enter size (ahead KList size hb s)) in *.
    assert (Hav : avail s1 = size) by (cbn; lia). rewrite <- Hav at 1. destruct (m (avail s1) s1) as [[l|e| |] s2] eqn:Em; try done.
    destruct (H2 s1 l s2 He ltac:(done) Em) as (b & Hb & rest & E & Hab & HS). destruct (leave n size s hb b s2 Hat Hz Ha HS) as (s3 & -> & HS3).
    destruct (Z.eqb_spec (len b) size) as [Eb|]; [|done]. intros [= <- <-]. exists b. split.
    + intros Hc. destruct (Hb Hc) as [Hl ->]. split; [by exists l|]. cbn [rlpBytes]. unfold encList. by rewrite Eb.
    + exists rest. split_and!; [done|lia|by apply HS3].
  - intros k size hd s Hat Hh Ha. destruct k; [done..|]. destruct Hh as (Hz & ->). set (hb := headByte _ _).
    unfold listBody, mbind, modify. cbn [fst snd]. fold (enter size (ahead KList size hb s)).
    pose proof (enter_At n size s hb Hat Hz Ha) as He. set (s1 := enter size (ahead KList size hb s)) in *.
    assert (Hav : avail s1 = size) by (cbn; lia). rewrite <- Hav at 1. specialize (H3 s1 He ltac:(done)).
    destruct (m (avail s1) s1) as [[l|e| |] s2] eqn:Em; try done.
    destruct (H2 s1 l s2 He ltac:(done) Em) as (b & Hb & rest & E & Hab & HS). destruct (leave n size s hb b s2 Hat Hz Ha HS) as (s3 & -> & HS3).
    by destruct (_ =? _).
  - intros v (l & -> & _). cbn. unfold encList, puthead. by destruct (_ <? _).
Qed.

Lemma Reads_list c n m okl :
  (forall n', (n' < n)%nat -> Elems c n' m okl) ->
  Reads c n rlpBytes (let! size := sList in let! l := m size in let! _ := sListEnd in ret (RList l))
    (fun v => exists l, v = RList l /\ okl l).
Proof.
  intros H. eapply Reads_ext; [apply sList_then|]. apply Reads_kind.
  - intros n' Hn. by apply Body_list, H.
  - intros v (l & -> & _). cbn. unfold encList, puthead. by destruct (_ <? _).
Qed.
Lemma Again_list m : Again (let! size := sList in let! l := m size in let! _ := sListEnd in ret (RList l)).
Proof. eapply Again_ext; [apply sList_then|]. apply Again_kind. Qed.

(** ** Slices *)

Lemma Took_nil s s' : WF s -> Same s s' -> Took [] s s'.
Proof. intros Hw HS. exists (sIn s). split_and!; [done|apply avail_le; done|by apply Same_stay]. Qed.
Lemma Took_stack b s s' : Took b s s' -> sStack s <> [] -> sStack s' <> [].
Proof. intros (rest & _ & _ & HS). rewrite (sm_stack _ _ HS). cbn. by destruct (sStack s). Qed.
Lemma Took_length b s s' : Took b s s' -> length (sIn s) = (length b + length (sIn s'))%nat.
Proof. intros (rest & E & _ & HS). rewrite (sm_in _ _ HS). cbn. by rewrite E, drop_app_length, length_app. Qed.
Lemma Same_Took n b s s' rest :
  At n s -> sIn s = b ++ rest -> len b <= avail s -> Same (move (length b) s) s' -> Took b s s'.
Proof. intros. by exists rest. Qed.
Lemma Took_rest b rest s s' : Took b s s' -> sIn s = b ++ rest -> sIn s' = rest.
Proof. intros (r & E & _ & HS) E'. rewrite (sm_in _ _ HS). cbn. by rewrite E', drop_app_length. Qed.
Lemma Took_avail b s s' : Took b s s' -> WF s -> avail s' = avail s - len b.
Proof. intros (r & E & Ha & HS) Hw. by rewrite (Same_avail _ _ HS), avail_move. Qed.

Lemma atEnd_in_list s : sStack s <> [] -> atEnd s = bool_decide (avail s = 0).
Proof.
  intros Hst. unfold atEnd, avail. destruct (sStack s); [done|]. destruct (Z.eqb_spec (lpPos l) (lpSize l));
    [rewrite bool_decide_eq_true_2|rewrite bool_decide_eq_false_2]; lia.
Qed.

Section Elements.
Context (c : bool) (n : nat) (elem : SM rlpValue) (ok : rlpValue -> Prop).
Hypothesis R : Reads c n rlpBytes elem ok.

(** One element, by what the decoder answers. *)
Lemma elem_step s :
  At n s -> sStack s <> [] ->
  match elem s with
  | (Ok v, s') => exists b, b <> [] /\ (c = true -> ok v /\ b = rlpBytes v) /\ Took b s s' /\ At n s' /\ sStack s' <> []
  | (Err EOL, s') => Took [] s s'
  | (r, _) => proper r
  end.
Proof.
  intros Hat Hst. destruct (atEnd s) eqn:He.
  - destruct (rd_end _ _ _ _ _ R s Hat He) as (s' & -> & HS). by apply Took_nil; [apply Hat|].
  - pose proof (rd_total _ _ _ _ _ R s Hat He) as Hp. destruct (elem s) as [[v|e| |] s'] eqn:E; try done; [|by destruct e].
    destruct (rd_sound _ _ _ _ _ R s v s' Hat E) as (b & Hb & Hc & Ht). exists b. split_and!; try done.
    + eapply At_le; [|by eapply Took_At]. lia.
    + by eapply Took_stack.
Qed.

Lemma decodeElems_complete l : forall fuel s rest,
  (length l < fuel)%nat -> At n s -> sStack s <> [] -> Forall ok l -> sIn s = join l ++ rest -> avail s = len (join l) ->
  exists s', decodeElems fuel elem s = (Ok l, s') /\ Same (move (length (join l)) s) s'.
Proof.
  induction l as [|v l IH]; intros fuel s rest Hf Hat Hst Hl E Ha; (destruct fuel as [|fuel]; [lia|]); cbn [decodeElems].
  - destruct (rd_end _ _ _ _ _ R s Hat) as (s' & -> & HS).
    { rewrite atEnd_in_list by done. by rewrite bool_decide_eq_true_2. }
    exists s'. split; [done|]. by apply Same_stay.
  - change (join (v :: l)) with (rlpBytes v ++ join l) in *. rewrite length_app in Ha.
    rewrite <- app_assoc in E. destruct (rd_complete _ _ _ _ _ R s v (join l ++ rest) Hat (Forall_inv Hl) E ltac:(lia)) as (s1 & E1 & HS).
    pose proof (Same_Took n _ s s1 _ Hat E ltac:(lia) HS) as Ht. rewrite E1.
    destruct (IH fuel s1 rest) as (s2 & -> & HS2).
    + cbn in Hf. lia.
    + eapply At_le; [|by eapply Took_At]. lia.
    + by eapply Took_stack.
    + by eapply Forall_inv_tail.
    + by eapply Took_rest.
    + rewrite (Took_avail _ _ _ Ht (at_wf _ _ Hat)). lia.
    + exists s2. split; [done|]. eapply Same_trans; [|exact HS2]. rewrite length_app, <- move_move. by apply Same_move.
Qed.

Lemma decodeElems_sound fuel : forall s l s',
  At n s -> sStack s <> [] -> decodeElems fuel elem s = (Ok l, s') ->
  exists b, (c = true -> Forall ok l /\ b = join l) /\ Took b s s'.
Proof.
  induction fuel as [|fuel IH]; intros s l s' Hat Hst; [done|]. cbn [decodeElems].
  pose proof (elem_step s Hat Hst) as H. destruct (elem s) as [[v|e| |] s1]; try done.
  - destruct H as (b & Hb & Hc & Ht & Hat1 & Hst1).
    destruct (decodeElems fuel elem s1) as [[vs|e| |] s2] eqn:E; try done. intros [= <- <-].
    destruct (IH s1 vs s2 Hat1 Hst1 E) as (b2 & Hc2 & Ht2). exists (b ++ b2). split.
    + intros Hct. destruct (Hc Hct) as [Hv ->], (Hc2 Hct) as [Hvs ->]. split; [by apply Forall_cons|done].
    + eapply Took_trans; [apply Hat|done..].
  - destruct e; try done. intros [= <- <-]. exists []. split; [|done]. intros _. by split; [apply Forall_nil|].
Qed.

Lemma decodeElems_total fuel : forall s,
  At n s -> sStack s <> [] -> (length (sIn s) < fuel)%nat -> proper (fst (decodeElems fuel elem s)).
Proof.
  induction fuel as [|fuel IH]; intros s Hat Hst Hf; [lia|]. cbn [decodeElems].
  pose proof (elem_step s Hat Hst) as H. destruct (elem s) as [[v|e| |] s1]; try done; [|by destruct e].
  destruct H as (b & Hb & Hc & Ht & Hat1 & Hst1). apply Took_length in Ht.
  assert (0 < length b)%nat by (destruct b; [done|cbn; lia]). specialize (IH s1 Hat1 Hst1 ltac:(lia)).
  by destruct (decodeElems fuel elem s1) as [[vs|e| |] s2].
Qed.

Lemma join_length l : Forall ok l -> (length l <= length (join l))%nat.
Proof.
  induction l as [|v l IH]; intros Hl; [done|]. change (join (v :: l)) with (rlpBytes v ++ join l). rewrite length_app.
  specialize (IH (Forall_inv_tail Hl)). pose proof (rd_nonempty _ _ _ _ _ R v (Forall_inv Hl)).
  destruct (rlpBytes v); [done|]. cbn. lia.
Qed.

Lemma Elems_slice : Elems c n (fun size => if size =? 0 then ret [] else decodeSliceElems elem) (Forall ok).
Proof.
  split.
  - intros s l rest Hat Hst Hl E Ha. pose proof (join_length l Hl) as Hj. destruct (Z.eqb_spec (len (join l)) 0) as [E0|].
    + assert (length l = 0%nat) as ->%nil_length_inv by lia. exists s. split; [done|]. by apply Same_stay, Same_refl, Hat.
    + eapply decodeElems_complete; try done. rewrite E, length_app. lia.
  - intros s l s' Hat Hst. destruct (avail s =? 0).
    + intros [= <- <-]. exists []. split; [intros _; by split; [apply Forall_nil|]|]. by apply Took_nil; [apply Hat|apply Same_refl, Hat].
    + by apply decodeElems_sound.
  - intros s Hat Hst. destruct (_ =? 0); [done|]. apply decodeElems_total; [done..|lia].
Qed.
End Elements.

Lemma decodeListSlice_eq elems s :
  decodeListSlice elems s =
  (let! size := sList in let! l := (if size =? 0 then ret [] else elems) in let! _ := sListEnd in ret (RList l)) s.
Proof. unfold decodeListSlice, mbind. destruct (sList s) as [[z|e| |] s1]; try done. by destruct (z =? 0). Qed.

Lemma Reads_slice c n elem ok :
  (forall n', (n' < n)%nat -> Reads c n' rlpBytes elem ok) ->
  Reads c n rlpBytes (decodeListSlice (decodeSliceElems elem)) (fun v => exists l, v = RList l /\ Forall ok l).
Proof.
  intros H. eapply Reads_ext; [apply decodeListSlice_eq|].
  apply (Reads_list c n (fun size => if size =? 0 then ret [] else decodeSliceElems elem)).
  intros n' Hn. by apply Elems_slice, H.
Qed.

(** ** Structs and arrays *)

Section Fields.
Context (c : bool) (n : nat).

Lemma Elems_fields ds oks :
  Forall2 (fun d ok => Reads c n rlpBytes d ok) ds oks ->
  Elems c n (fun _ => decodeFieldsWith ds) (fun l => Forall2 (fun ok v => ok v) oks l).
Proof.
  intros H. split.
  - induction H as [|d ok ds oks R H IH]; intros s l rest Hat Hst Hl E Ha.
    + apply Forall2_nil_inv_l in Hl as ->. exists s. split; [done|]. by apply Same_stay, Same_refl, Hat.
    + apply Forall2_cons_inv_l in Hl as (v & l' & Hv & Hl & ->).
      change (join (v :: l')) with (rlpBytes v ++ join l') in *. rewrite length_app in Ha. rewrite <- app_assoc in E.
      destruct (rd_complete _ _ _ _ _ R s v (join l' ++ rest) Hat Hv E ltac:(lia)) as (s1 & E1 & HS).
      pose proof (Same_Took n _ s s1 _ Hat E ltac:(lia) HS) as Ht. cbn [decodeFieldsWith foldr]. rewrite E1.
      destruct (IH s1 l' rest) as (s2 & E2 & HS2).
      * eapply At_le; [|by eapply Took_At]. lia.
      * by eapply Took_stack.
      * done.
      * by eapply Took_rest.
      * rewrite (Took_avail _ _ _ Ht (at_wf _ _ Hat)). lia.
      * exists s2. unfold decodeFieldsWith in E2. rewrite E2. split; [done|]. eapply Same_trans; [|exact HS2].
        rewrite length_app, <- move_move. by apply Same_move.
  - intros s. generalize (avail s) as z. intros z. revert s. induction H as [|d ok ds oks R H IH]; intros s l s' Hat Hst.
    + intros [= <- <-]. exists []. split; [done|]. by apply Took_nil; [apply Hat|apply Same_refl, Hat].
    + cbn [decodeFieldsWith foldr]. pose proof (elem_step c n d ok R s Hat Hst) as Hs. destruct (d s) as [[v|e| |] s1]; try done; [|by destruct e].
      destruct Hs as (b & Hb & Hc & Ht & Hat1 & Hst1). fold (decodeFieldsWith ds).
      destruct (decodeFieldsWith ds s1) as [[vs|e| |] s2] eqn:E; try done. intros [= <- <-].
      destruct (IH s1 vs s2 Hat1 Hst1 E) as (b2 & Hc2 & Ht2). exists (b ++ b2). split.
      * intros Hct. destruct (Hc Hct) as [Hv ->], (Hc2 Hct) as [Hvs ->]. split; [by constructor|done].
      * eapply Took_trans; [apply Hat|done..].
  - intros s. generalize (avail s) as z. intros z. revert s. induction H as [|d ok ds oks R H IH]; intros s Hat Hst; [done|].
    cbn [decodeFieldsWith foldr]. pose proof (elem_step c n d ok R s Hat Hst) as Hs. destruct (d s) as [[v|e| |] s1]; try done; [|by destruct e].
    destruct Hs as (b & Hb & Hc & Ht & Hat1 & Hst1). specialize (IH s1 Hat1 Hst1). fold (decodeFieldsWith ds).
    by destruct (decodeFieldsWith ds s1) as [[vs|e| |] s2].
Qed.
End Fields.

Lemma decodeArrayElems_fields k elem s : decodeArrayElems k elem s = decodeFieldsWith (replicate k elem) s.
Proof.
  revert s. induction k as [|k IH]; intros s; [done|]. cbn. destruct (elem s) as [[v|[]| |] s1]; try done. by rewrite IH.
Qed.

(** ** Pointers that may be nil *)

(** The header of a value *)
Lemma rlpBytes_head v : match v with RRaw _ | RTail _ | RNil _ => False | _ => True end -> len (rlpBytes v) < 2 ^ 64 ->
  exists k hd body, rlpBytes v = hd ++ body /\ IsHead k (len body) hd.
Proof.
  assert (Hs : forall b, len (encString b) < 2 ^ 64 -> exists k hd body, encString b = hd ++ body /\ IsHead k (len body) hd).
  { intros b Hl. pose proof (encString_cases b) as H. destruct (short b).
    - destruct H as (x & -> & Hx & ->). exists KByte, [x], []. split; [done|]. split; [done|]. by exists x.
    - rewrite H, length_app in Hl. exists KString, (puthead 0x80 0xb7 (len b)), b. split; [done|]. split; [lia|done]. }
  destruct v as [b|z|b|z|b|l|l|v]; try done; intros _ Hl; try (by apply Hs).
  - destruct b; [exists KByte, [x01], []|exists KString, [x80], []]; (split; [done|]).
    + split; [done|]. by exists x01.
    + by split; [|vm_compute].
  - cbn [rlpBytes] in *. unfold encList in *. rewrite length_app in Hl.
    eexists KList, _, _. split; [done|]. apply encList_head. lia.
Qed.

Lemma isNil_value t v : isNil t v = true -> v = nilValue t /\ exists k, k <> KByte /\ IsHead k 0 (rlpBytes v).
Proof.
  unfold isNil. intros H. destruct t, v as [[]|z|[]|[]| |[]| |]; try done; try apply Z.eqb_eq in H as ->;
    (split; [done|]); (by exists KString) || by exists KList.
Qed.
Lemma isNil_nilValue t : typeOk false t = true -> isNil t (nilValue t) = true.
Proof. by destruct t. Qed.

Lemma hasType_plain t v :
  match t with TOptional _ => false | _ => true end = true -> hasType t v = true ->
  match v with RRaw _ | RTail _ | RNil _ => False | _ => True end.
Proof. by destruct t, v. Qed.

(** A nil pointer, or one to a value that is not written as an empty one. *)
Lemma hasType_optional t v :
  hasType (TOptional t) v = true ->
  (exists z, v = RNil z /\ isNil t z = true) \/ (hasType t v = true /\ rlpBytes v <> [x80] /\ rlpBytes v <> [xc0]).
Proof.
  assert (H : forall v, hasType t v && negb (bool_decide (rlpBytes v = [x80])) && negb (bool_decide (rlpBytes v = [xc0])) = true ->
    hasType t v = true /\ rlpBytes v <> [x80] /\ rlpBytes v <> [xc0]).
  { intros v0 [[Hv H80]%andb_true_iff Hc0]%andb_true_iff. apply negb_true_iff, bool_decide_eq_false in H80, Hc0. done. }
  destruct v; try (intros Hv; right; exact (H _ Hv)). intros Hv. left. by eexists.
Qed.

Section Optional.
Context (n : nat) (t : goType).
Hypothesis Ht : typeOk false (TOptional t) = true.
Hypothesis R : Reads false n rlpBytes (decoder t) (fun v => hasType t v = true).
Hypothesis HA : Again (decoder t).

Lemma optional_complete s v rest :
  At n s -> hasType (TOptional t) v = true -> sIn s = rlpBytes v ++ rest -> len (rlpBytes v) <= avail s ->
  exists s', decoder (TOptional t) s = (Ok v, s') /\ Same (move (length (rlpBytes v)) s) s'.
Proof.
  intros Hat Hv E Ha. cbn [decoder]. apply hasType_optional in Hv as [(z & -> & Hz)|(Hv & H80 & Hc0)].
  - apply isNil_value in Hz as (-> & k & Hk & Hh). cbn [rlpBytes] in E, Ha |- *.
    rewrite (Kind_complete s k 0 (rlpBytes (nilValue t)) rest) by (done || apply Hat || lia).
    rewrite Z.eqb_refl, (bool_decide_eq_false_2 (k = KByte)) by done. by eexists.
  - assert (Hplain : match t with TOptional _ => false | _ => true end = true).
    { cbn [typeOk negb andb] in Ht. apply andb_true_iff in Ht as [_ Ht']. by destruct t. }
    pose proof (avail_le s (at_wf _ _ Hat)). pose proof (wf_length s (at_wf _ _ Hat)).
    destruct (rlpBytes_head v (hasType_plain t v Hplain Hv) ltac:(lia)) as (k & hd & body & Ev & Hh). pose proof E as E'. rewrite Ev, <- app_assoc in E'.
    rewrite Ev, length_app in Ha. pose proof (Kind_complete s k (len body) hd _ (at_wf _ _ Hat) (at_kind _ _ Hat) E' Hh ltac:(lia)) as HK.
    rewrite HK. destruct (Z.eqb_spec (len body) 0) as [E0|]; cbn [andb].
    + assert (body = []) as -> by (destruct body; [done|cbn in E0; lia]). rewrite app_nil_r in Ev.
      destruct k; [|exfalso; destruct Hh as (_ & ->); done..]. rewrite bool_decide_eq_true_2 by done. cbn [negb].
      rewrite (HA _ _ _ HK). apply (rd_complete _ _ _ _ _ R s v rest); try done. rewrite Ev. cbn in Ha. lia.
    + rewrite (HA _ _ _ HK). apply (rd_complete _ _ _ _ _ R s v rest); try done. rewrite Ev, length_app. lia.
Qed.

Lemma optional_kind s :
  At n s -> atEnd s = false ->
  (exists k size hd rest, sIn s = hd ++ rest /\ hd <> [] /\ len hd <= avail s /\
     sKindOf s = (Ok (k, size), ahead k size (headByte k hd) (move (length hd) s))) \/
  (exists e s1, sKindOf s = (Err e, s1) /\ e <> EOL).
Proof.
  intros Hat He. pose proof (Kind_proper s (at_kind _ _ Hat) He) as Hp.
  destruct (sKindOf s) as [[[k size]|e| |] s1] eqn:Ek; try done.
  - left. destruct (Kind_sound s k size s1 (at_wf _ _ Hat) (at_kind _ _ Hat) Ek) as (hd & rest & E & Hh & Ha & ->).
    destruct (IsHead_length _ _ _ Hh). exists k, size, hd, rest. split_and!; [done| |lia|done]. destruct hd; [cbn in *; lia|done].
  - right. exists e, s1. split; [done|]. by destruct e.
Qed.

Lemma Reads_optional : Reads false n rlpBytes (decoder (TOptional t)) (fun v => hasType (TOptional t) v = true).
Proof.
  split; [apply optional_complete| | | |].
  - intros s v s' Hat. cbn [decoder]. destruct (atEnd s) eqn:He; [by rewrite (Kind_end s (at_kind _ _ Hat) He)|].
    destruct (optional_kind s Hat He) as [(k & size & hd & rest & E & Hne & Ha & HK)|(e & s1 & -> & _)]; [|done]. rewrite HK.
    destruct (_ && _).
    + intros [= <- <-]. exists hd. split_and!; [done..|]. by exists rest.
    + rewrite (HA _ _ _ HK). intros Hd. destruct (rd_sound _ _ _ _ _ R s v s' Hat Hd) as (b & Hb & _ & Hk). by exists b.
  - intros s Hat He. cbn [decoder].
    destruct (optional_kind s Hat He) as [(k & size & hd & rest & E & Hne & Ha & HK)|(e & s1 & -> & Hn)]; [|by destruct e].
    rewrite HK. destruct (_ && _); [done|]. rewrite (HA _ _ _ HK). by apply (rd_total _ _ _ _ _ R).
  - intros s Hat He. cbn [decoder]. rewrite (Kind_end s (at_kind _ _ Hat) He). eexists. by split.
  - intros v Hv. apply hasType_optional in Hv as [(z & -> & Hz)|(Hv & _)]; [|by apply (rd_nonempty _ _ _ _ _ R)].
    apply isNil_value in Hz as (_ & k & _ & Hh). apply IsHead_length in Hh as [Hh _]. cbn [rlpBytes]. by destruct (rlpBytes z); [cbn in Hh; lia|].
Qed.

Lemma Again_optional : Again (decoder (TOptional t)).
Proof. intros s ks s1 HK. cbn [decoder]. rewrite (Kind_again s ks s1 HK), HK. done. Qed.
End Optional.

(** ** Interfaces *)

Lemma forallb_Forall {A} (f : A -> bool) l : forallb f l = true <-> Forall (fun v => f v = true) l.
Proof.
  induction l as [|v l IH]; cbn; [split; [by constructor|done]|]. rewrite andb_true_iff, IH. split.
  - intros []. by constructor.
  - intros H. split; [by inversion H|by eapply Forall_inv_tail].
Qed.

Lemma Again_bytes : Again sBytes.
Proof. unfold sBytes. apply Again_kind. Qed.
Lemma Again_slice elems : Again (decodeListSlice elems).
Proof.
  eapply Again_ext; [apply decodeListSlice_eq|]. apply (Again_list (fun size => if size =? 0 then ret [] else elems)).
Qed.

(** Strings by [m2], lists by [m1] *)
Lemma Reads_or c n m1 m2 ok1 ok2 (m : SM rlpValue) :
  Reads c n rlpBytes m1 ok1 -> Reads c n rlpBytes m2 ok2 ->
  (forall s v s', m1 s = (Ok v, s') -> exists z s1, sKindOf s = (Ok (KList, z), s1)) ->
  (forall s v s', m2 s = (Ok v, s') -> exists k z s1, sKindOf s = (Ok (k, z), s1) /\ k <> KList) ->
  (forall s k z s1, sKindOf s = (Ok (k, z), s1) -> m s = if bool_decide (k = KList) then m1 s else m2 s) ->
  (forall s e s1, sKindOf s = (Err e, s1) -> m s = (Err e, s1)) ->
  Reads c n rlpBytes m (fun v => ok1 v \/ ok2 v).
Proof.
  intros [A1 A2 A3 A4 A5] [B1 B2 B3 B4 B5] K1 K2 M1 M2. split.
  - intros s v rest Hat [Hv|Hv] E Ha.
    + destruct (A1 s v rest Hat Hv E Ha) as (s' & Em & HS). destruct (K1 s v s' Em) as (z & s1 & HK).
      exists s'. by rewrite (M1 _ _ _ _ HK), bool_decide_eq_true_2.
    + destruct (B1 s v rest Hat Hv E Ha) as (s' & Em & HS). destruct (K2 s v s' Em) as (k & z & s1 & HK & Hk).
      exists s'. by rewrite (M1 _ _ _ _ HK), bool_decide_eq_false_2.
  - intros s v s' Hat Hm. pose proof (Kind_total s) as [Hp Hn]. destruct (sKindOf s) as [[[k z]|e| |] s1] eqn:HK; try done.
    + rewrite (M1 _ _ _ _ HK) in Hm. destruct (bool_decide (k = KList));
        [destruct (A2 s v s' Hat Hm) as (b & Hb & Hc & Ht)|destruct (B2 s v s' Hat Hm) as (b & Hb & Hc & Ht)];
        exists b; (split_and!; [done| |done]); intros Hct; destruct (Hc Hct); auto.
    + by rewrite (M2 _ _ _ HK) in Hm.
  - intros s Hat He. pose proof (Kind_proper s (at_kind _ _ Hat) He) as Hp. destruct (sKindOf s) as [[[k z]|e| |] s1] eqn:HK; try done.
    + rewrite (M1 _ _ _ _ HK). destruct (bool_decide (k = KList)); auto.
    + by rewrite (M2 _ _ _ HK).
  - intros s Hat He. pose proof (Kind_end s (at_kind _ _ Hat) He) as HK. rewrite (M2 _ _ _ HK). eexists. split; [done|]. split; try done. apply (at_kind _ _ Hat).
  - intros v [Hv|Hv]; auto.
Qed.

Lemma Reads_interface c fuel n : (n < fuel)%nat -> Reads c n rlpBytes (decodeInterface fuel) (fun v => isItem v = true).
Proof.
  revert n. induction fuel as [|fuel IH]; intros n Hn; [lia|].
  eapply (Reads_iff c n rlpBytes _ (fun v => (exists l, v = RList l /\ Forall (fun v => isItem v = true) l) \/ hasType TBytes v = true)).
  { intros v. split.
    - intros [(l & -> & Hl)|Hv]; [by apply forallb_Forall|by destruct v].
    - destruct v as [| | | | |l| |]; try done; [by right|]. intros Hl. left. exists l. split; [done|]. by apply forallb_Forall. }
  apply (Reads_or c n (decodeListSlice (decodeSliceElems (decodeInterface fuel))) (decoder TBytes)).
  - apply Reads_slice. intros n' Hn'. apply IH. lia.
  - apply Reads_bytes_type.
  - intros s v s'. rewrite decodeListSlice_eq, (sList_then (fun size => if size =? 0 then ret [] else _)).
    unfold mbind. destruct (sKindOf s) as [[[[] z]|e| |] s1]; try done. by eexists _, _.
  - intros s v s'. cbn [decoder]. unfold sBytes, mbind. destruct (sKindOf s) as [[[[] z]|e| |] s1]; try done; by eexists _, _, _.
  - intros s k z s1 HK. cbn [decodeInterface]. unfold mbind at 1. rewrite HK. destruct (bool_decide (k = KList)).
    + by apply (Again_slice _ s (k, z) s1).
    + cbn [decoder]. unfold mbind. by rewrite (Again_bytes s (k, z) s1 HK).
  - intros s e s1 HK. cbn [decodeInterface]. unfold mbind. by rewrite HK.
Qed.

(** ** All types *)

Lemma goType_ind' (P : goType -> Prop) :
  (forall bits, P (TUint bits)) -> P TBool -> P TBig -> P TBytes -> (forall n, P (TByteArray n)) ->
  (forall t, P t -> P (TSlice t)) -> (forall t, P t -> P (TTail t)) -> (forall n t, P t -> P (TArray n t)) ->
  (forall ts, Forall P ts -> P (TStruct ts)) -> (forall t, P t -> P (TOptional t)) -> P TInterface -> P TRaw ->
  forall t, P t.
Proof.
  intros H1 H2 H3 H4 H5 H6 H7 H8 H9 H10 H11 H12. fix go 1.
  intros [bits| | | |n|t|t|n t|ts|t| |];
    [apply H1|apply H2|apply H3|apply H4|apply H5|apply H6, go|apply H7, go|apply H8, go| |apply H10, go|apply H11|apply H12].
  apply H9. induction ts as [|t ts IH]; constructor; [apply go|apply IH].
Qed.

Lemma hasType_struct ts l :
  hasType (TStruct ts) (RList l) = true <-> Forall2 (fun ok v => ok v) ((fun t v => hasType t v = true) <$> ts) l.
Proof.
  cbn [hasType]. revert l. induction ts as [|t ts IH]; intros [|v l]; cbn [fmap list_fmap].
  - split; [by constructor|done].
  - split; [done|by inversion 1].
  - split; [done|by inversion 1].
  - rewrite andb_true_iff, IH. split; [intros []; by constructor|inversion 1; by split].
Qed.

Lemma Forall2_replicate_ok {A} (ok : A -> Prop) k l :
  Forall2 (fun ok v => ok v) (replicate k ok) l <-> length l = k /\ Forall ok l.
Proof.
  revert l. induction k as [|k IH]; intros [|v l]; cbn.
  - split; [by repeat constructor|by constructor].
  - split; [by inversion 1|by intros [? _]].
  - split; [by inversion 1|by intros [? _]].
  - split.
    + inversion 1; subst. destruct (proj1 (IH l)) as [<- ?]; [done|]. split; [done|by constructor].
    + intros [[= Hl] Hf]. constructor; [by inversion Hf|]. apply IH. split; [done|]. by eapply Forall_inv_tail.
Qed.

Section AllTypes.
Context (c : bool).
Definition decoderOk (t : goType) : Prop :=
  typeOk c t = true ->
  (forall n, Reads c n rlpBytes (decoder t) (fun v => hasType t v = true)) /\ (t <> TInterface -> Again (decoder t)).

Lemma decoderOk_slice t : decoderOk t -> decoderOk (TSlice t).
Proof.
  intros IH Ht. destruct (IH Ht) as [R _]. split; [|intros _; apply Again_slice]. intros n.
  eapply Reads_iff; [|by apply Reads_slice; intros; apply R]. intros v. split.
  - intros (l & -> & Hl). by apply forallb_Forall.
  - destruct v as [| | | | |l| |]; try done. intros Hl. exists l. split; [done|]. by apply forallb_Forall.
Qed.

Lemma decoderOk_struct ts : Forall decoderOk ts -> decoderOk (TStruct ts).
Proof.
  intros IH Ht. split; [|intros _; apply (Again_list (fun _ => decodeFieldsWith (decoder <$> ts)))]. intros n.
  eapply Reads_iff; [|apply (Reads_list c n (fun _ => decodeFieldsWith (decoder <$> ts))); intros n' _; apply Elems_fields].
  - intros v. split; [intros (l & -> & Hl); by apply hasType_struct, Hl|].
    destruct v as [| | | | |l| |]; try done. intros Hl. exists l. split; [done|]. by apply hasType_struct.
  - cbn [typeOk] in Ht. apply forallb_Forall in Ht. clear n. induction IH as [|t ts Hd IH' IH]; [by constructor|].
    constructor; [apply Hd; by inversion Ht|]. apply IH. by eapply Forall_inv_tail.
Qed.

Lemma decoderOk_array k t : decoderOk t -> decoderOk (TArray k t).
Proof.
  intros IH Ht. destruct (IH Ht) as [R _]. split; [|intros _; apply (Again_list (fun _ => decodeArrayElems k (decoder t)))]. intros n.
  eapply Reads_ext with (m := let! _ := sList in let! l := decodeFieldsWith (replicate k (decoder t)) in let! _ := sListEnd in ret (RList l)).
  { intros s. cbn [decoder]. unfold mbind. destruct (sList s) as [[z|e| |] s1]; try done. by rewrite decodeArrayElems_fields. }
  eapply Reads_iff; [|apply (Reads_list c n (fun _ => decodeFieldsWith (replicate k (decoder t)))
    (Forall2 (fun ok v => ok v) (replicate k (fun v => hasType t v = true)))); intros n' _; apply Elems_fields].
  - intros v. split.
    + intros (l & -> & [Hl Hf]%Forall2_replicate_ok). cbn [hasType]. apply andb_true_iff. split; [by apply Nat.eqb_eq|by apply forallb_Forall].
    + destruct v as [| | | | |l| |]; try done. cbn [hasType]. intros [Hl Hf]%andb_true_iff. exists l. split; [done|].
      apply Forall2_replicate_ok. split; [by apply Nat.eqb_eq|by apply forallb_Forall].
  - clear -R. induction k; constructor; auto.
Qed.

Theorem decoder_ok t : decoderOk t.
Proof.
  induction t as [bits| | | |m|t IH|t IH|k t IH|ts IH|t IH| |] using goType_ind'; try done.
  - intros Hb%bool_decide_eq_true. split; [intros n; by apply Reads_uint_type|]. intros _. apply Again_map. unfold sUint. apply Again_kind.
  - intros _. split; [intros n; apply Reads_bool|]. intros _. do 2 apply Again_map. unfold sUint. apply Again_kind.
  - intros _. split; [intros n; apply Reads_big|]. intros _. apply Again_map, Again_bytes.
  - intros _. split; [intros n; apply Reads_bytes_type|]. intros _. apply Again_map, Again_bytes.
  - intros Hm%negb_true_iff%Nat.eqb_neq. split; [intros n; by apply Reads_array_bytes|]. intros _. apply Again_kind.
  - by apply decoderOk_slice.
  - by apply decoderOk_array.
  - by apply decoderOk_struct.
  - unfold decoderOk in *. cbn [typeOk] in *. destruct c; [done|]. intros Ho. pose proof Ho as Ht. cbn [negb andb] in Ht. apply andb_true_iff in Ht as [Ht Hi].
    destruct (IH Ht) as [R HA]. split; [|intros _; apply Again_optional].
    intros n. apply Reads_optional; [done..|]. apply HA. by intros ->.
  - intros _. split; [|done]. intros n. pose proof (fun n => Reads_interface c (S n) n ltac:(lia)) as R. cbn [decoder].
    split.
    + intros s v rest Hat. apply (rd_complete _ _ _ _ _ (R (length (sIn s)))). by destruct Hat.
    + intros s v s' Hat. apply (rd_sound _ _ _ _ _ (R (length (sIn s)))). by destruct Hat.
    + intros s Hat. apply (rd_total _ _ _ _ _ (R (length (sIn s)))). by destruct Hat.
    + intros s Hat. apply (rd_end _ _ _ _ _ (R (length (sIn s)))). by destruct Hat.
    + intros v. apply (rd_nonempty _ _ _ _ _ (R n)).
Qed.
End AllTypes.
