(* ===== verification/RlpRawProofs.v ===== *)
(** * Package rlp: lemmas about splitting

    [Split] and [CountValues] of raw.go on encodings: they find the content that was
    encoded and what follows it.  And decoding what has been encoded, and the sizes of
    encodings, for the packages that use them. *)

From stdpp Require Import base numbers list option.
From Stdlib Require Import ZArith Lia Strings.Byte.
From S2P Require Import Prelude Rlp RlpStream RlpProofs RlpStreamProofs RlpDecodeProofs RlpTypeProofs.

(** ** Sizes *)

Lemma length_puthead s l size : 0 <= size < 2 ^ 64 -> (1 <= length (puthead s l size) <= 9)%nat.
Proof.
  intros Hs. unfold puthead. destruct (Z.ltb_spec size 56); [cbn; lia|].
  destruct (putint_spec size ltac:(lia)) as (n & Hn & _ & ->). cbn [length]. rewrite length_be_bytes. lia.
Qed.

Lemma length_encString b : len b < 2 ^ 64 -> len b <= len (encString b) <= len b + 9.
Proof.
  intros Hb. assert (H : len (puthead 128 183 (len b) ++ b) <= len b + 9 /\ len b <= len (puthead 128 183 (len b) ++ b)).
  { rewrite length_app. pose proof (length_puthead 128 183 (len b) ltac:(lia)). lia. }
  unfold encString. destruct b as [|x [|y b]]; [lia| |lia]. destruct (_ <=? _); cbn [length]; lia.
Qed.

Lemma length_encList_le p : len p < 2 ^ 64 -> len (encList p) <= len p + 9.
Proof. intros Hp. unfold encList. rewrite length_app. pose proof (length_puthead 192 247 (len p) ltac:(lia)). lia. Qed.

(** An upper bound that is easy to compute. *)
Fixpoint rlpSize (v : rlpValue) : Z :=
  match v with
  | RBytes b => len b + 9
  | RUint _ => 17
  | RBool _ => 1
  | RBig z => len (big_bytes (default 0 z)) + 9
  | RRaw b => len b
  | RList l => 9 + foldr (fun v n => rlpSize v + n) 0 l
  | RTail l => foldr (fun v n => rlpSize v + n) 0 l
  | RNil v => rlpSize v
  end.

Lemma rlpSize_nonneg v : 0 <= rlpSize v.
Proof.
  induction v as [b|z|b|z|b|l IH|l IH|v IH] using rlpValue_ind'; cbn [rlpSize]; try lia;
    (induction IH as [|v l Hv _ IHl]; cbn [foldr]; [lia|]; revert IHl; cbn; lia).
Qed.

Lemma rlpSizes_bound l :
  Forall (fun v => encodable v = true -> rlpSize v < 2 ^ 64 -> len (rlpBytes v) <= rlpSize v) l ->
  forallb encodable l = true -> foldr (fun v n => rlpSize v + n) 0 l < 2 ^ 64 ->
  len (mjoin (rlpBytes <$> l)) <= foldr (fun v n => rlpSize v + n) 0 l.
Proof.
  induction 1 as [|v l Hv _ IH]; cbn [forallb foldr]; [done|]. intros [He Hel]%andb_true_iff Hl.
  change (mjoin (rlpBytes <$> v :: l)) with (rlpBytes v ++ mjoin (rlpBytes <$> l)). rewrite length_app.
  assert (H0 : 0 <= foldr (fun v n => rlpSize v + n) 0 l).
  { clear. induction l as [|v l IH]; cbn; [done|]. pose proof (rlpSize_nonneg v). lia. }
  pose proof (rlpSize_nonneg v). specialize (Hv He ltac:(lia)). specialize (IH Hel ltac:(lia)). lia.
Qed.

Lemma rlpSize_bound v : encodable v = true -> rlpSize v < 2 ^ 64 -> len (rlpBytes v) <= rlpSize v.
Proof.
  induction v as [b|z|b|z|b|l IH|l IH|v IH] using rlpValue_ind'; cbn [rlpSize encodable rlpBytes]; intros He Hl.
  - pose proof (length_encString b ltac:(lia)). lia.
  - apply andb_true_iff in He as [H0%Z.leb_le H1%Z.ltb_lt].
    pose proof (big_bytes_length z 8 ltac:(change (256 ^ 8) with (2 ^ 64); lia) ltac:(lia)).
    pose proof (length_encString (big_bytes z) ltac:(lia)). lia.
  - by destruct b.
  - pose proof (length_encString (big_bytes (default 0 z)) ltac:(lia)). lia.
  - lia.
  - pose proof (rlpSizes_bound l IH He ltac:(lia)) as Hj.
    etrans; [apply length_encList_le; eapply Z.le_lt_trans; [exact Hj|]|]; [lia|]. revert Hj. cbn. lia.
  - by apply rlpSizes_bound.
  - by apply IH.
Qed.

(** ** Splitting *)

Lemma readSize_puthead n rest size :
  (1 <= n <= 8)%nat -> minBytes n size -> 56 <= size -> readSize (be_bytes n size ++ rest) (Z.of_nat n) = Ok size.
Proof.
  intros Hn [Hlo Hhi] Hs. unfold readSize. rewrite length_app, length_be_bytes.
  destruct (Z.gtb_spec (Z.of_nat n) (Z.of_nat (n + length rest))); [lia|].
  rewrite Nat2Z.id, take_app_length' by (by rewrite length_be_bytes). rewrite be_value_be_bytes, Z.mod_small by lia.
  destruct (be_bytes n size ++ rest) as [|b0 r] eqn:E.
  { apply (f_equal length) in E. rewrite length_app, length_be_bytes in E. cbn in E. lia. }
  destruct (Z.ltb_spec size 56); [lia|]. cbn [orb]. destruct (Z.eqb_spec (byte_to_Z b0) 0) as [E0|]; [exfalso|done].
  destruct n as [|n]; [lia|]. destruct (be_bytes (S n) size) as [|b1 r1] eqn:Eb.
  { apply (f_equal length) in Eb. by rewrite length_be_bytes in Eb. }
  injection E as <- <-. pose proof (be_value_be_bytes (S n) size) as Ev. rewrite Eb, be_value_cons, E0 in Ev.
  pose proof (be_value_range r1) as Hr. assert (Hl : length r1 = n) by (apply (f_equal length) in Eb; rewrite length_be_bytes in Eb; by injection Eb).
  rewrite Hl in *. rewrite Z.mod_small in Ev by lia. replace (Z.of_nat (S n) - 1) with (Z.of_nat n) in Hlo by lia. lia.
Qed.

Lemma readKind_tag (buf : list byte) (k : Kind) ts cs :
  0 <= ts -> 0 <= cs -> ts + cs <= len buf -> len buf < 2 ^ 64 ->
  (if cs >? u64 (len buf - ts) then Err ErrValueTooLarge else Ok (k, ts, cs)) = Ok (E := rlpErr) (k, ts, cs).
Proof. intros. rewrite u64_small by (unfold is_u64; lia). by destruct (Z.gtb_spec cs (len buf - ts)); [lia|]. Qed.

(** The tags of strings and lists, short and long. *)
Lemma readKind_head (isList : bool) (payload rest : list byte) :
  let hd := if isList then puthead 192 247 (len payload) else puthead 128 183 (len payload) in
  len (hd ++ payload ++ rest) < 2 ^ 64 ->
  (isList = false -> match payload with [x] => 127 < byte_to_Z x | _ => True end) ->
  readKind (hd ++ payload ++ rest) = Ok (if isList then KList else KString, len hd, len payload).
Proof.
  intros hd Hl Hs. rewrite !length_app in Hl.
  assert (Hlen : len (hd ++ payload ++ rest) = len hd + len payload + len rest) by (rewrite !length_app; lia).
  unfold readKind, hd, puthead in *. destruct (Z.ltb_spec (len payload) 56) as [H56|H56].
  - destruct isList; cbn [app] in *; rewrite byte_to_of_Z, Z.mod_small by lia.
    + destruct (Z.ltb_spec (192 + len payload) 128), (Z.ltb_spec (192 + len payload) 184), (Z.ltb_spec (192 + len payload) 192),
        (Z.ltb_spec (192 + len payload) 248); try lia. cbn [rbind]. replace (192 + len payload - 192) with (len payload) by lia.
      apply readKind_tag; cbn [length] in *; lia.
    + destruct (Z.ltb_spec (128 + len payload) 128), (Z.ltb_spec (128 + len payload) 184); try lia.
      replace (128 + len payload - 128) with (len payload) by lia.
      assert (E : (len payload =? 1) && match payload ++ rest with [] => false | b1 :: _ => byte_to_Z b1 <? 128 end = false).
      { destruct (Z.eqb_spec (len payload) 1) as [E1|]; [|done]. destruct payload as [|x [|y p]]; try (cbn in E1; lia).
        cbn. apply Z.ltb_ge. specialize (Hs eq_refl). lia. }
      rewrite E. cbn [rbind]. apply readKind_tag; cbn [length] in *; lia.
  - destruct (putint_spec (len payload) ltac:(lia)) as (n & Hn & Hm & En). rewrite En in *. rewrite length_be_bytes in *.
    destruct isList; cbn [app] in *; rewrite byte_to_of_Z, Z.mod_small by lia.
    + destruct (Z.ltb_spec (247 + Z.of_nat n) 128), (Z.ltb_spec (247 + Z.of_nat n) 184), (Z.ltb_spec (247 + Z.of_nat n) 192),
        (Z.ltb_spec (247 + Z.of_nat n) 248); try lia. replace (247 + Z.of_nat n - 247) with (Z.of_nat n) by lia.
      rewrite readSize_puthead by done. cbn [rbind]. rewrite (readKind_tag (_ :: _)) by (cbn [length] in *; rewrite ?length_be_bytes in *; lia).
      do 3 f_equal. cbn [length]. rewrite length_be_bytes. lia.
    + destruct (Z.ltb_spec (183 + Z.of_nat n) 128), (Z.ltb_spec (183 + Z.of_nat n) 184), (Z.ltb_spec (183 + Z.of_nat n) 192); try lia.
      replace (183 + Z.of_nat n - 183) with (Z.of_nat n) by lia.
      rewrite readSize_puthead by done. cbn [rbind]. rewrite (readKind_tag (_ :: _)) by (cbn [length] in *; rewrite ?length_be_bytes in *; lia).
      do 3 f_equal. cbn [length]. rewrite length_be_bytes. lia.
Qed.

Lemma Split_head (isList : bool) (payload rest : list byte) :
  let hd := if isList then puthead 192 247 (len payload) else puthead 128 183 (len payload) in
  len (hd ++ payload ++ rest) < 2 ^ 64 ->
  (isList = false -> match payload with [x] => 127 < byte_to_Z x | _ => True end) ->
  Split (hd ++ payload ++ rest) = Ok (if isList then KList else KString, payload, rest).
Proof.
  intros hd Hl Hs. pose proof (readKind_head isList payload rest Hl Hs) as E. fold hd in E. unfold Split. rewrite E. cbn [rbind].
  rewrite <- Nat2Z.inj_add, !Nat2Z.id. rewrite drop_app_length, take_app_length, app_assoc. do 3 f_equal.
  by rewrite drop_app_length' by (by rewrite length_app).
Qed.

Definition stringKind (b : list byte) : Kind :=
  match b with [x] => if byte_to_Z x <=? 0x7f then KByte else KString | _ => KString end.

Lemma Split_string b rest : len (encString b ++ rest) < 2 ^ 64 -> Split (encString b ++ rest) = Ok (stringKind b, b, rest).
Proof.
  assert (H : match b with [x] => 127 < byte_to_Z x | _ => True end -> encString b = puthead 128 183 (len b) ++ b ->
    stringKind b = KString -> len (encString b ++ rest) < 2 ^ 64 -> Split (encString b ++ rest) = Ok (stringKind b, b, rest)).
  { intros Hb -> -> Hl. rewrite <- app_assoc in *. by apply (Split_head false). }
  destruct b as [|x [|y b]]; [by apply H| |by apply H].
  unfold encString, stringKind in *. destruct (Z.leb_spec (byte_to_Z x) 127).
  - intros Hl. cbn [app] in *. unfold Split, readKind. destruct (Z.ltb_spec (byte_to_Z x) 128); [|lia]. cbn [rbind].
    rewrite (readKind_tag (x :: rest)) by (cbn [length] in *; lia). done.
  - apply H; [done|..]; done.
Qed.

Lemma Split_list p rest : len (encList p ++ rest) < 2 ^ 64 -> Split (encList p ++ rest) = Ok (KList, p, rest).
Proof. unfold encList. rewrite <- app_assoc. intros Hl. by apply (Split_head true). Qed.

Lemma SplitString_string b rest : len (encString b ++ rest) < 2 ^ 64 -> SplitString (encString b ++ rest) = Ok (b, rest).
Proof.
  intros Hl. unfold SplitString. rewrite Split_string by done. cbn [rbind]. rewrite bool_decide_false; [done|].
  unfold stringKind. destruct b as [|x [|? ?]]; [done| |done]. by destruct (_ <=? _).
Qed.

Lemma SplitList_list p rest : len (encList p ++ rest) < 2 ^ 64 -> SplitList (encList p ++ rest) = Ok (p, rest).
Proof. intros Hl. unfold SplitList. by rewrite Split_list. Qed.

(** Strings and lists, whose first value [Split] finds. *)
Definition splits (v : rlpValue) : Prop := match v with RBytes _ | RList _ => True | _ => False end.

Lemma splits_nonempty v : splits v -> rlpBytes v <> [].
Proof. destruct v; try done; intros _; cbn [rlpBytes]; [apply encString_nonempty|]. unfold encList, puthead. by destruct (_ <? _). Qed.

Lemma Split_value v rest : splits v -> len (rlpBytes v ++ rest) < 2 ^ 64 -> exists k c, Split (rlpBytes v ++ rest) = Ok (k, c, rest).
Proof. destruct v; try done; intros _ Hl; cbn [rlpBytes] in *; [rewrite Split_string by done|rewrite Split_list by done]; eauto. Qed.

Lemma countLoop_values l : forall fuel i,
  Forall splits l -> (length (mjoin (rlpBytes <$> l)) < fuel)%nat -> len (mjoin (rlpBytes <$> l)) < 2 ^ 64 ->
  countLoop fuel i (mjoin (rlpBytes <$> l)) = Ok (i + len l).
Proof.
  induction l as [|v l IH]; intros fuel i Hs Hf Hl.
  - destruct fuel; [cbn in Hf; lia|]. cbn. f_equal. lia.
  - change (mjoin (rlpBytes <$> v :: l)) with (rlpBytes v ++ mjoin (rlpBytes <$> l)) in *. rewrite length_app in Hf.
    pose proof (Forall_inv Hs) as Hv. apply Forall_inv_tail in Hs. pose proof (splits_nonempty v Hv) as Hne.
    destruct (Split_value v (mjoin (rlpBytes <$> l)) Hv Hl) as (k & c & E). unfold Split in E. destruct fuel as [|fuel]; [lia|].
    cbn [countLoop]. destruct (readKind _) as [[[k' ts] cs]| | |]; try done. cbn [rbind] in E. injection E as _ _ E.
    assert (0 < length (rlpBytes v))%nat by (destruct (rlpBytes v); [done|cbn; lia]). rewrite length_app in Hl.
    destruct (rlpBytes v ++ mjoin (rlpBytes <$> l)) as [|x b] eqn:Eb; [apply app_nil in Eb as [? _]; done|].
    cbn [rbind]. rewrite E, IH by (done || lia). f_equal. cbn [length]. lia.
Qed.

Lemma CountValues_values l : Forall splits l -> len (mjoin (rlpBytes <$> l)) < 2 ^ 64 -> CountValues (mjoin (rlpBytes <$> l)) = Ok (len l).
Proof. intros Hs Hl. unfold CountValues. rewrite countLoop_values by (done || lia). done. Qed.

(** ** Decoding what was encoded *)

Lemma hasType_encodable c t : typeOk c t = true -> forall v, hasType t v = true -> encodable v = true.
Proof.
  induction t as [bits| | | |m|t IH|t IH|k t IH|ts IH|t IH| |] using goType_ind'; try done; intros Ht v Hv.
  - destruct v as [|z| | | | | |]; try done. cbn in *. apply andb_true_iff in Hv as [H0 Hz]. rewrite H0. cbn.
    apply Z.ltb_lt. apply Z.ltb_lt in Hz. apply bool_decide_eq_true in Ht. eapply Z.lt_le_trans; [exact Hz|].
    apply Z.pow_le_mono_r; [lia|]. repeat (apply elem_of_cons in Ht as [->|Ht]; [lia|]). by apply elem_of_nil in Ht.
  - by destruct v.
  - by destruct v as [| | |[z|]| | | |].
  - by destruct v.
  - by destruct v.
  - destruct v as [| | | | |l| |]; try done. cbn in *. apply forallb_Forall. apply forallb_Forall in Hv.
    eapply Forall_impl; [|exact Hv]. by apply IH.
  - destruct v as [| | | | |l| |]; try done. cbn in *. apply andb_true_iff in Hv as [_ Hv]. apply forallb_Forall. apply forallb_Forall in Hv.
    eapply Forall_impl; [|exact Hv]. by apply IH.
  - destruct v as [| | | | |l| |]; try done. apply hasType_struct in Hv. cbn [typeOk encodable] in *. revert l Hv.
    induction IH as [|t ts IHt IH' IHts]; intros l Hv; cbn in Hv.
    + by apply Forall2_nil_inv_l in Hv as ->.
    + apply Forall2_cons_inv_l in Hv as (v & l' & Hv & Hl & ->). cbn in *. apply andb_true_iff in Ht as [Ht Hts].
      rewrite (IHt Ht v Hv). cbn. by apply IHts.
  - cbn [typeOk] in Ht. apply andb_true_iff in Ht as [[_ Ht]%andb_true_iff _].
    apply hasType_optional in Hv as [(z & -> & Hz)|(Hv & _)]; [|by apply IH]. apply isNil_value in Hz as [-> _]. by destruct t.
  - change (isItem v = true) in Hv. clear Ht c. revert v Hv. fix go 1. intros [b|z|b|z|b|l|l|w]; cbn; try done. induction l as [|v l IHl]; [done|].
    cbn. intros [Hv Hl]%andb_true_iff. apply andb_true_iff. split; [by apply go|by apply IHl].
Qed.

Lemma NewStream_At b : len b < 2 ^ 64 -> At (length b) (NewStream b (len b)).
Proof. intros H. split; [split|done|done]; try done; cbn; [by destruct (_ >? _)|lia]. Qed.

Lemma DecodeBytes_sound c t b v :
  typeOk c t = true -> len b < 2 ^ 64 -> DecodeBytes b t = Ok v -> c = true -> hasType t v = true /\ rlpBytes v = b.
Proof.
  intros Ht Hl. unfold DecodeBytes. pose proof (NewStream_At b Hl) as Hat. destruct (decoder_ok c t Ht) as [R _].
  destruct (decoder t _) as [[v'|e| |] s'] eqn:E; try done. cbn [rbind]. destruct (sIn s') eqn:Ei; [|done]. intros [= ->] Hc.
  destruct (rd_sound _ _ _ _ _ (R (length b)) _ _ _ Hat E) as (b' & Hb & Hv & Hk). destruct (Hv Hc) as [Hty ->]. split; [done|].
  destruct Hk as (rest & Eb & Ha & HS). cbn in Eb. rewrite (sm_in _ _ HS) in Ei. cbn in Ei. rewrite Eb, drop_app_length in Ei.
  by rewrite Eb, Ei, app_nil_r.
Qed.

Lemma decode_encode t v :
  typeOk false t = true -> hasType t v = true -> len (rlpBytes v) < 2 ^ 64 ->
  exists b, EncodeToBytes v = Ok b /\ DecodeBytes b t = Ok v.
Proof.
  intros Ht Hv Hl. exists (rlpBytes v). split; [apply EncodeToBytes_spec; [by eapply hasType_encodable|done]|].
  destruct (decoder_ok false t Ht) as [R _]. pose proof (NewStream_At _ Hl) as Hat. unfold DecodeBytes.
  destruct (rd_complete _ _ _ _ _ (R (length (rlpBytes v))) _ v [] Hat Hv) as (s' & -> & HS).
  - cbn [NewStream sIn]. by rewrite app_nil_r.
  - unfold avail. cbn [NewStream sStack sIn]. lia.
  - cbn [rbind]. rewrite (sm_in _ _ HS). cbn [move NewStream sIn]. by rewrite drop_all.
Qed.

(** The same with the bound. *)
Lemma decode_bytes t v :
  typeOk false t = true -> hasType t v = true -> rlpSize v < 2 ^ 64 ->
  EncodeToBytes v = Ok (rlpBytes v) /\ DecodeBytes (rlpBytes v) t = Ok v.
Proof.
  intros Ht Hv Hl. pose proof (hasType_encodable _ _ Ht v Hv) as He. pose proof (rlpSize_bound v He Hl).
  destruct (decode_encode t v Ht Hv ltac:(lia)) as (b & E1 & E2). pose proof (EncodeToBytes_spec v He ltac:(lia)) as E3.
  split; congruence.
Qed.
