(* ===== verification/Common.v ===== *)
(** * Package common and common/math

    Addresses and hashes (src/common/types.go), byte-slice helpers
    (src/common/bytes.go) and the big-integer and overflow-checked arithmetic
    of src/common/math.  A [common.Address] is the 160-bit and a [common.Hash]
    the 256-bit big-endian integer of its bytes: the conversions below are the
    source's, on byte lists, and [bytes_compare_value] shows that comparing
    two arrays of one length with [bytes.Compare] is comparing these integers. *)

From stdpp Require Import base numbers list gmap sets option.
From Stdlib Require Import ZArith Lia Strings.Byte.
From S2P Require Import Prelude.

Notation Address := Z (only parsing).
Notation Hash := Z (only parsing).

Definition HashLength : Z := 32.
Definition AddressLength : Z := 20.
Definition is_address (a : Address) : Prop := 0 <= a < 2 ^ 160.
Definition is_hash (h : Hash) : Prop := 0 <= h < 2 ^ 256.

(** ** types.go *)

(** [SetBytes] on a fresh array of [n] bytes: crops from the left, pads on the
    left with zeroes. *)
Definition setBytes (n : Z) (b : list byte) : list byte :=
  let b := if Z.of_nat (length b) >? n then drop (Z.to_nat (Z.of_nat (length b) - n)) b else b in
  replicate (Z.to_nat (n - Z.of_nat (length b))) x00 ++ b.

Definition BytesToHash (b : list byte) : Hash := be_value (setBytes HashLength b).
Definition BytesToAddress (b : list byte) : Address := be_value (setBytes AddressLength b).
Definition BigToHash (b : Z) : Hash := BytesToHash (big_bytes b).
Definition BigToAddress (b : Z) : Address := BytesToAddress (big_bytes b).
Definition AddressBytes (a : Address) : list byte := be_bytes 20 a.
Definition HashBytes (h : Hash) : list byte := be_bytes 32 h.
Definition EmptyHash (h : Hash) : bool := h =? 0.

(** ** bytes.go *)

Definition RightPadBytes (slice : list byte) (l : Z) : list byte :=
  if l <=? Z.of_nat (length slice) then slice
  else slice ++ replicate (Z.to_nat (l - Z.of_nat (length slice))) x00.

Definition LeftPadBytes (slice : list byte) (l : Z) : list byte :=
  if l <=? Z.of_nat (length slice) then slice
  else replicate (Z.to_nat (l - Z.of_nat (length slice))) x00 ++ slice.

(** Go's [bytes.Compare]: lexicographic, a proper prefix is smaller. *)
Fixpoint bytes_compare (a b : list byte) : comparison :=
  match a, b with
  | [], [] => Eq
  | [], _ :: _ => Lt
  | _ :: _, [] => Gt
  | x :: a', y :: b' =>
      match byte_to_Z x ?= byte_to_Z y with Eq => bytes_compare a' b' | c => c end
  end.

(** ** math/big.go *)

Definition tt255 : Z := 2 ^ 255.
Definition tt256 : Z := 2 ^ 256.
Definition tt256m1 : Z := tt256 - 1.
Definition wordBits : Z := 64.
Definition wordBytes : Z := 8.

(** [x.Bits()]: the absolute value as little-endian 64-bit words, without
    leading zero words. *)
Fixpoint words (n : nat) (z : Z) : list Z :=
  match n with
  | O => []
  | S n' => z mod 2 ^ wordBits :: words n' (z / 2 ^ wordBits)
  end.
Definition Bits (z : Z) : list Z := words (Z.to_nat ((BitLen z + 63) / 64)) (Z.abs z).

Definition BigMax (x y : Z) : Z := if x <? y then y else x.
Definition BigMin (x y : Z) : Z := if x >? y then y else x.

(** The inner and the outer loop of [ReadBits]; [i] counts down the free
    positions of [buf]. *)
Fixpoint readWord (j : nat) (d : Z) (i : nat) (buf : list byte) : nat * list byte :=
  match j with
  | O => (i, buf)
  | S j' =>
      match i with
      | O => (i, buf)
      | S i' => readWord j' (Z.shiftr d 8) i' (<[i' := byte_of_Z d]> buf)
      end
  end.
Fixpoint readWords (ws : list Z) (i : nat) (buf : list byte) : list byte :=
  match ws with
  | [] => buf
  | d :: ws' => let '(i', buf') := readWord 8 d i buf in readWords ws' i' buf'
  end.
Definition ReadBits (bigint : Z) (buf : list byte) : list byte :=
  readWords (Bits bigint) (length buf) buf.

Definition PaddedBigBytes (bigint : Z) (n : Z) : list byte :=
  if n <=? BitLen bigint / 8 then big_bytes bigint
  else ReadBits bigint (replicate (Z.to_nat n) x00).

Definition bigEndianByteAt (bigint : Z) (n : Z) : byte :=
  let ws := Bits bigint in
  let i := n / wordBytes in
  if i >=? Z.of_nat (length ws) then x00
  else match ws !! Z.to_nat i with
       | Some word => byte_of_Z (Z.shiftr word (8 * (n mod wordBytes)))
       | None => x00
       end.

Definition Byte (bigint padlength n : Z) : byte :=
  if n >=? padlength then x00 else bigEndianByteAt bigint (padlength - 1 - n).

Definition U256 (x : Z) : Z := Z.land x tt256m1.
Definition S256 (x : Z) : Z := if x <? tt255 then x else x - tt256.

(** The two nested loops of [Exp].  [base] is squared in place, so the value
    the caller's [base] is left with is returned as well. *)
Fixpoint expWord (n : nat) (word result base : Z) : Z * Z :=
  match n with
  | O => (result, base)
  | S n' =>
      let result := if Z.land word 1 =? 1 then U256 (result * base) else result in
      let base := U256 (base * base) in
      expWord n' (Z.shiftr word 1) result base
  end.
Fixpoint expWords (ws : list Z) (result base : Z) : Z * Z :=
  match ws with
  | [] => (result, base)
  | w :: ws' => let '(result, base) := expWord 64 w result base in expWords ws' result base
  end.
Definition Exp (base exponent : Z) : Z * Z := expWords (Bits exponent) 1 base.

(** ** math/integer.go *)

Definition SafeSub (x y : Z) : Z * bool := (u64 (x - y), x <? y).
Definition SafeAdd (x y : Z) : Z * bool := (u64 (x + y), y >? MaxUint64 - x).
Definition SafeMul (x y : Z) : Z * bool :=
  if (x =? 0) || (y =? 0) then (0, false) else (u64 (x * y), y >? MaxUint64 / x).

(** ** Lemmas *)

Lemma bytes_compare_value a b :
  length a = length b -> bytes_compare a b = (be_value a ?= be_value b).
Proof.
  revert b. induction a as [|x a IH]; intros [|y b] Hl; try discriminate Hl; [done|].
  injection Hl as Hl. cbn [bytes_compare]. rewrite IH by done.
  rewrite !be_value_cons, Hl.
  pose proof (be_value_range a) as Ha. pose proof (be_value_range b) as Hb. rewrite Hl in Ha.
  set (p := 256 ^ Z.of_nat (length b)) in *. clearbody p.
  destruct (Z.compare_spec (byte_to_Z x) (byte_to_Z y)) as [E|E|E].
  - rewrite E. by rewrite Z.add_compare_mono_l.
  - symmetry. apply Z.compare_lt_iff. nia.
  - symmetry. apply Z.compare_gt_iff. nia.
Qed.

Lemma be_value_zeroes n bs : be_value (replicate n x00 ++ bs) = be_value bs.
Proof.
  induction n as [|n IH]; [done|]. cbn [replicate app]. rewrite be_value_cons, IH.
  change (byte_to_Z x00) with 0. lia.
Qed.

Lemma setBytes_value n b : 0 <= n -> be_value (setBytes n b) = be_value b mod 256 ^ n.
Proof.
  intros Hn. unfold setBytes. rewrite be_value_zeroes.
  destruct (Z.gtb_spec (Z.of_nat (length b)) n) as [H|H].
  - set (k := Z.to_nat _).
    rewrite <- (take_drop k b) at 2. rewrite be_value_app, length_drop.
    replace (Z.of_nat (length b - k)) with n by lia.
    rewrite Z.add_comm, Z.mod_add by lia. symmetry. apply Z.mod_small.
    pose proof (be_value_range (drop k b)) as Hr. rewrite length_drop in Hr.
    by replace (Z.of_nat (length b - k)) with n in Hr by lia.
  - symmetry. apply Z.mod_small. pose proof (be_value_range b).
    pose proof (Z.pow_le_mono_r 256 (Z.of_nat (length b)) n). lia.
Qed.

Lemma length_setBytes n b : 0 <= n -> length (setBytes n b) = Z.to_nat n.
Proof.
  intros Hn. unfold setBytes. rewrite length_app, length_replicate.
  destruct (Z.gtb_spec (Z.of_nat (length b)) n); rewrite ?length_drop; lia.
Qed.

Lemma BigToAddress_mod z : BigToAddress z = Z.abs z mod 2 ^ 160.
Proof.
  unfold BigToAddress, BytesToAddress. rewrite setBytes_value, be_value_big_bytes by done.
  done.
Qed.

Lemma BytesToHash_range b : is_hash (BytesToHash b).
Proof. unfold is_hash, BytesToHash. rewrite setBytes_value by done. apply Z.mod_pos_bound. done. Qed.
Lemma BigToHash_range z : is_hash (BigToHash z).
Proof. apply BytesToHash_range. Qed.

Lemma BigToHash_mod z : BigToHash z = Z.abs z mod 2 ^ 256.
Proof.
  unfold BigToHash, BytesToHash. rewrite setBytes_value, be_value_big_bytes by done.
  done.
Qed.

Lemma BytesToAddress_AddressBytes a : is_address a -> BytesToAddress (AddressBytes a) = a.
Proof.
  intros Ha. unfold BytesToAddress, AddressBytes. rewrite setBytes_value by done.
  rewrite be_value_be_bytes. change (256 ^ Z.of_nat 20) with (2 ^ 160).
  change (256 ^ AddressLength) with (2 ^ 160). rewrite Z.mod_mod by lia.
  by apply Z.mod_small.
Qed.

Lemma U256_mod x : U256 x = x mod 2 ^ 256.
Proof.
  unfold U256, tt256m1, tt256.
  replace (2 ^ 256 - 1) with (Z.ones 256) by done. by apply Z.land_ones.
Qed.

Lemma SafeAdd_spec x y :
  is_u64 x -> is_u64 y ->
  SafeAdd x y = (u64 (x + y), 2 ^ 64 <=? x + y).
Proof.
  intros Hx Hy. unfold SafeAdd, MaxUint64. f_equal. unfold is_u64 in *.
  destruct (Z.gtb_spec y (2 ^ 64 - 1 - x)); destruct (Z.leb_spec (2 ^ 64) (x + y)); lia.
Qed.

Lemma SafeMul_spec x y :
  is_u64 x -> is_u64 y ->
  SafeMul x y = (u64 (x * y), 2 ^ 64 <=? x * y).
Proof.
  unfold is_u64. intros Hx Hy. unfold SafeMul, MaxUint64.
  destruct ((x =? 0) || (y =? 0)) eqn:E.
  - assert (x * y = 0) as -> by (apply orb_prop in E; destruct E; bools; subst; lia). done.
  - bools. f_equal. pose proof (Z.div_mod (2 ^ 64 - 1) x ltac:(lia)) as Hd.
    pose proof (Z.mod_pos_bound (2 ^ 64 - 1) x ltac:(lia)) as Hm.
    set (q := (2 ^ 64 - 1) / x) in *. set (r := (2 ^ 64 - 1) mod x) in *. clearbody q r.
    destruct (Z.gtb_spec y q); destruct (Z.leb_spec (2 ^ 64) (x * y)); try lia; nia.
Qed.

Lemma SafeAdd_false x y z :
  is_u64 x -> is_u64 y -> SafeAdd x y = (z, false) -> z = x + y /\ is_u64 z.
Proof.
  intros Hx Hy. rewrite SafeAdd_spec by done. intros [= <- H]. bools.
  unfold is_u64 in *. rewrite u64_small; unfold is_u64; lia.
Qed.

(** *** Exponentiation by squaring *)

Lemma mod_mul_pow M r b n : (r mod M * (b mod M) ^ n) mod M = (r * b ^ n) mod M.
Proof. rewrite Zmult_mod, Z.mod_pow_l, Zmod_mod, <- Zmult_mod. done. Qed.

Lemma mod_mul_pow_r M r b n : (r * (b mod M) ^ n) mod M = (r * b ^ n) mod M.
Proof. rewrite Zmult_mod, Z.mod_pow_l, <- Zmult_mod. done. Qed.

Lemma expWord_spec n w r b :
  0 <= w ->
  fst (expWord n w r b) mod 2 ^ 256 = (r * b ^ (w mod 2 ^ Z.of_nat n)) mod 2 ^ 256 /\
  snd (expWord n w r b) mod 2 ^ 256 = b ^ (2 ^ Z.of_nat n) mod 2 ^ 256.
Proof.
  revert w r b. induction n as [|n IH]; intros w r b Hw.
  - cbn. rewrite Z.mod_1_r. change (b ^ 0) with 1. change (b ^ (2 ^ 0)) with (b ^ 1).
    rewrite Z.mul_1_r, Z.pow_1_r. done.
  - cbn [expWord]. set (r1 := if _ =? 1 then _ else r).
    destruct (IH (Z.shiftr w 1) r1 (U256 (b * b))) as [IH1 IH2];
      [by apply Z.shiftr_nonneg|].
    rewrite IH1, IH2, U256_mod, mod_mul_pow_r, Z.mod_pow_l.
    rewrite Nat2Z.inj_succ, Z.pow_succ_r, (Z.pow_mul_r b 2) by lia.
    rewrite <- Z.pow_2_r. split; [|done].
    rewrite Z.rem_mul_r, Z.shiftr_div_pow2, Z.pow_1_r by lia.
    assert (0 <= (w / 2) mod 2 ^ Z.of_nat n) as Hk by (apply Z.mod_pos_bound; lia).
    set (k := (w / 2) mod 2 ^ Z.of_nat n) in *. clearbody k.
    rewrite <- Z.pow_mul_r by lia.
    assert (Z.land w 1 = w mod 2) as Hl by (by apply (Z.land_ones w 1)).
    subst r1. rewrite Hl. destruct (Z.eqb_spec (w mod 2) 1) as [E|E].
    + rewrite E, U256_mod, Zmult_mod_idemp_l, Z.pow_add_r by lia. f_equal. ring.
    + assert (w mod 2 = 0) as -> by (pose proof (Z.mod_pos_bound w 2); lia). done.
Qed.

Lemma expWord_range n w r b :
  0 <= r < 2 ^ 256 -> 0 <= fst (expWord n w r b) < 2 ^ 256.
Proof.
  revert w r b. induction n as [|n IH]; intros w r b Hr; [done|].
  cbn [expWord]. apply IH. case_match; [|done].
  rewrite U256_mod. apply Z.mod_pos_bound. lia.
Qed.

(** The value of a little-endian word list. *)
Fixpoint words_value (ws : list Z) : Z :=
  match ws with [] => 0 | w :: ws' => w + 2 ^ 64 * words_value ws' end.

Lemma words_value_words n z :
  0 <= z < 2 ^ (64 * Z.of_nat n) -> words_value (words n z) = z.
Proof.
  revert z. induction n as [|n IH]; intros z Hz.
  - cbn. change (2 ^ (64 * Z.of_nat 0)) with 1 in Hz. lia.
  - cbn [words words_value]. change wordBits with 64. rewrite IH.
    + pose proof (Z.div_mod z (2 ^ 64)). lia.
    + rewrite Nat2Z.inj_succ, Z.mul_succ_r, Z.pow_add_r in Hz by lia. split.
      * apply Z.div_pos; lia.
      * apply Z.div_lt_upper_bound; lia.
Qed.

Lemma words_nonneg n z : Forall (fun w => 0 <= w < 2 ^ 64) (words n z).
Proof.
  revert z. induction n as [|n IH]; intros z; constructor; [|done].
  apply Z.mod_pos_bound. done.
Qed.

Lemma Bits_words z :
  exists n, Bits z = words n (Z.abs z) /\ Z.abs z < 2 ^ (64 * Z.of_nat n) /\
            Z.of_nat n = (BitLen z + 63) / 64.
Proof.
  exists (Z.to_nat ((BitLen z + 63) / 64)). pose proof (BitLen_nonneg z).
  assert (0 <= (BitLen z + 63) / 64) by (apply Z.div_pos; lia).
  rewrite Z2Nat.id by lia. split; [done|]. split; [|done].
  eapply Z.lt_le_trans; [apply BitLen_bound|]. apply Z.pow_le_mono_r; [lia|].
  pose proof (Z.div_mod (BitLen z + 63) 64). pose proof (Z.mod_pos_bound (BitLen z + 63) 64). lia.
Qed.

Lemma expWords_spec ws r b :
  Forall (fun w => 0 <= w < 2 ^ 64) ws ->
  fst (expWords ws r b) mod 2 ^ 256 = (r * b ^ words_value ws) mod 2 ^ 256.
Proof.
  intros Hws. revert r b. induction Hws as [|w ws Hw Hws IH]; intros r b.
  - cbn. by rewrite Z.mul_1_r.
  - cbn [expWords words_value].
    destruct (expWord_spec 64 w r b) as [H1 H2]; [lia|].
    destruct (expWord 64 w r b) as [r1 b1]. cbn [fst snd] in *.
    rewrite IH, <- mod_mul_pow, H1, H2, mod_mul_pow. clear H1 H2 IH.
    rewrite (Z.mod_small w) by exact Hw.
    assert (0 <= words_value ws) by (clear -Hws; induction Hws; cbn [words_value]; lia).
    rewrite Z.pow_add_r, Z.pow_mul_r by (clear r1 b1; lia). f_equal. change (Z.of_nat 64) with 64. ring.
Qed.

Lemma expWords_range ws r b :
  0 <= r < 2 ^ 256 -> 0 <= fst (expWords ws r b) < 2 ^ 256.
Proof.
  revert r b. induction ws as [|w ws IH]; intros r b Hr; [done|].
  cbn [expWords]. pose proof (expWord_range 64 w r b Hr).
  destruct (expWord 64 w r b). by apply IH.
Qed.

Lemma Exp_correct base exponent :
  0 <= exponent -> fst (Exp base exponent) = base ^ exponent mod 2 ^ 256.
Proof.
  intros He. unfold Exp. destruct (Bits_words exponent) as (n & Hn & Hb & _).
  rewrite Hn, Z.abs_eq in * by done.
  rewrite <- (Z.mod_small (fst _) (2 ^ 256)) by (by apply expWords_range).
  rewrite expWords_spec by apply words_nonneg.
  rewrite words_value_words by done. f_equal. lia.
Qed.

(** *** Fixed-width encoding *)

Lemma be_bytes_add a b z :
  0 <= z -> be_bytes (a + b) z = be_bytes a (z / 256 ^ Z.of_nat b) ++ be_bytes b z.
Proof.
  revert z. induction b as [|b IH]; intros z Hz.
  - rewrite Nat.add_0_r, app_nil_r. change (256 ^ Z.of_nat 0) with 1. by rewrite Z.div_1_r.
  - rewrite Nat.add_succ_r. cbn [be_bytes]. rewrite IH by (apply Z.div_pos; lia).
    rewrite <- app_assoc, Z.div_div by lia.
    by rewrite Nat2Z.inj_succ, Z.pow_succ_r by lia.
Qed.

Lemma be_bytes_mod n z : be_bytes n (z mod 256 ^ Z.of_nat n) = be_bytes n z.
Proof.
  apply be_value_inj; [by rewrite !length_be_bytes|].
  rewrite !be_value_be_bytes. apply Zmod_mod.
Qed.

Lemma be_bytes_inj n z z' : 0 <= z < 256 ^ Z.of_nat n -> 0 <= z' < 256 ^ Z.of_nat n -> be_bytes n z = be_bytes n z' -> z = z'.
Proof. intros H1 H2 E. apply (f_equal be_value) in E. rewrite !be_value_be_bytes in E. by rewrite !Z.mod_small in E. Qed.

Lemma HashBytes_inj h h' : is_hash h -> is_hash h' -> HashBytes h = HashBytes h' -> h = h'.
Proof. apply (be_bytes_inj 32). Qed.

Lemma be_bytes_0 n : be_bytes n 0 = replicate n x00.
Proof.
  induction n as [|n IH]; [done|]. cbn [be_bytes]. change (0 / 256) with 0.
  rewrite IH. change [byte_of_Z 0] with (replicate 1 x00).
  rewrite <- replicate_add. by rewrite Nat.add_comm.
Qed.

Lemma insert_last_zero i b tl :
  <[i := b]> (replicate (S i) x00 ++ tl) = replicate i x00 ++ b :: tl.
Proof.
  rewrite replicate_S_end, <- app_assoc. cbn [app].
  rewrite <- (length_replicate i x00) at 1. rewrite <- (Nat.add_0_r (length _)).
  by rewrite insert_app_r.
Qed.

Lemma readWord_spec j i d tl :
  readWord j d i (replicate i x00 ++ tl)
  = ((i - j)%nat, replicate (i - j) x00 ++ be_bytes (j `min` i) d ++ tl).
Proof.
  revert i d tl. induction j as [|j IH]; intros i d tl.
  - cbn [readWord be_bytes Nat.min]. by rewrite Nat.sub_0_r.
  - destruct i as [|i]; [done|]. cbn [readWord]. rewrite insert_last_zero, IH.
    cbn [Nat.sub Nat.min be_bytes]. rewrite <- app_assoc. do 3 f_equal.
    f_equal. apply Z.shiftr_div_pow2. done.
Qed.

Lemma words_value_nonneg ws : Forall (fun w => 0 <= w < 2 ^ 64) ws -> 0 <= words_value ws.
Proof. induction 1; cbn [words_value]; lia. Qed.

Lemma readWords_spec ws i tl :
  Forall (fun w => 0 <= w < 2 ^ 64) ws ->
  readWords ws i (replicate i x00 ++ tl) = be_bytes i (words_value ws) ++ tl.
Proof.
  intros Hws. revert i tl. induction Hws as [|w ws Hw Hws IH]; intros i tl.
  - cbn. by rewrite be_bytes_0.
  - cbn [readWords]. rewrite readWord_spec, IH. cbn [words_value].
    pose proof (words_value_nonneg ws Hws). set (v := words_value ws) in *. clearbody v.
    destruct (decide (8 <= i)%nat).
    + replace (8 `min` i)%nat with 8%nat by lia.
      replace i with ((i - 8) + 8)%nat at 2 by lia.
      rewrite be_bytes_add, <- app_assoc by lia. change (256 ^ Z.of_nat 8) with (2 ^ 64).
      rewrite (Z.mul_comm (2 ^ 64)), Z.div_add, (Z.div_small w), Z.add_0_l by lia.
      f_equal. f_equal. rewrite <- (be_bytes_mod 8 (w + _)). change (256 ^ Z.of_nat 8) with (2 ^ 64).
      rewrite Z.mod_add, Z.mod_small by lia. done.
    + replace (i - 8)%nat with 0%nat by lia. replace (8 `min` i)%nat with i by lia.
      cbn [be_bytes app]. f_equal.
      rewrite <- (be_bytes_mod i w), <- (be_bytes_mod i (w + _)). f_equal.
      assert (2 ^ 64 = 2 ^ (64 - 8 * Z.of_nat i) * 256 ^ Z.of_nat i) as ->.
      { change 256 with (2 ^ 8). rewrite <- Z.pow_mul_r, <- Z.pow_add_r by lia. f_equal. lia. }
      rewrite <- Z.mul_assoc, (Z.mul_comm (256 ^ _)), Z.mul_assoc, Z.mod_add; [done|].
      apply Z.pow_nonzero; lia.
Qed.

Lemma ReadBits_spec z n :
  0 <= z -> ReadBits z (replicate n x00) = be_bytes n z.
Proof.
  intros Hz. unfold ReadBits. rewrite length_replicate.
  destruct (Bits_words z) as (k & Hk & Hb & _). rewrite Hk, Z.abs_eq in * by done.
  rewrite <- (app_nil_r (replicate n x00)), readWords_spec by apply words_nonneg.
  rewrite words_value_words, app_nil_r by done. done.
Qed.

Lemma PaddedBigBytes_be n z :
  0 <= z < 256 ^ Z.of_nat n -> PaddedBigBytes z (Z.of_nat n) = be_bytes n z.
Proof.
  intros Hz. unfold PaddedBigBytes. destruct (Z.leb_spec (Z.of_nat n) (BitLen z / 8)).
  - unfold big_bytes. rewrite Z.abs_eq by lia.
    assert (BitLen z <= 8 * Z.of_nat n).
    { apply BitLen_le; [lia|]. rewrite Z.abs_eq, Z.pow_mul_r by lia. apply Hz. }
    pose proof (BitLen_nonneg z).
    replace ((BitLen z + 7) / 8) with (Z.of_nat n); [by rewrite Nat2Z.id|].
    assert (BitLen z = 8 * Z.of_nat n) as ->
      by (pose proof (Z.div_mod (BitLen z) 8); pose proof (Z.mod_pos_bound (BitLen z) 8); lia).
    rewrite (Z.mul_comm 8), Z.div_add_l by lia. change (7 / 8) with 0. lia.
  - rewrite Nat2Z.id. apply ReadBits_spec. lia.
Qed.

(** *** Signed interpretation *)

Lemma S256_range x : 0 <= x < 2 ^ 256 -> - 2 ^ 255 <= S256 x < 2 ^ 255.
Proof.
  intros Hx. unfold S256, tt255, tt256. destruct (Z.ltb_spec x (2 ^ 255)); lia.
Qed.

Lemma U256_S256 x : 0 <= x < 2 ^ 256 -> U256 (S256 x) = x.
Proof.
  intros Hx. rewrite U256_mod. unfold S256, tt255, tt256.
  destruct (Z.ltb_spec x (2 ^ 255)); [by apply Z.mod_small|].
  replace (x - 2 ^ 256) with (x + -1 * 2 ^ 256) by lia.
  rewrite Z.mod_add by lia. by apply Z.mod_small.
Qed.
