(* ===== verification/Params.v ===== *)
(** * Package params

    Protocol constants (src/params/protocol_params.go), the gas tables
    (src/params/gas_table.go), and the chain configuration with its fork
    predicates and its compatibility check (src/params/config.go). *)

From stdpp Require Import base numbers list gmap sets option.
From Stdlib Require Import ZArith Lia.
From S2P Require Import Prelude Common.

(** ** protocol_params.go *)

Definition DefaultCliquePeriod : Z := 5.
Definition DefaultCliqueEpoch : Z := 3000.
Definition CallValueTransferGas : Z := 9000.
Definition CallNewAccountGas : Z := 25000.
Definition TxGas : Z := 21000.
Definition TxGasContractCreation : Z := 53000.
Definition TxDataZeroGas : Z := 4.
Definition QuadCoeffDiv : Z := 512.
Definition SstoreSetGas : Z := 20000.
Definition LogDataGas : Z := 8.
Definition CallStipend : Z := 2300.
Definition Sha3Gas : Z := 30.
Definition Sha3WordGas : Z := 6.
Definition SstoreResetGas : Z := 5000.
Definition SstoreClearGas : Z := 5000.
Definition SstoreRefundGas : Z := 15000.
Definition JumpdestGas : Z := 1.
Definition CreateDataGas : Z := 200.
Definition CallCreateDepth : Z := 1024.
Definition LogGas : Z := 375.
Definition CopyGas : Z := 3.
Definition StackLimit : Z := 1024.
Definition LogTopicGas : Z := 375.
Definition CreateGas : Z := 32000.
Definition SuicideRefundGas : Z := 24000.
Definition MemoryGas : Z := 3.
Definition TxDataNonZeroGas : Z := 68.
Definition MaxCodeSize : Z := 24576.
Definition EcrecoverGas : Z := 3000.
Definition Sha256BaseGas : Z := 60.
Definition Sha256PerWordGas : Z := 12.
Definition Ripemd160BaseGas : Z := 600.
Definition Ripemd160PerWordGas : Z := 120.
Definition IdentityBaseGas : Z := 15.
Definition IdentityPerWordGas : Z := 3.
Definition ModExpQuadCoeffDiv : Z := 20.
Definition Bn256AddGas : Z := 500.
Definition Bn256ScalarMulGas : Z := 40000.
Definition Bn256PairingBaseGas : Z := 100000.
Definition Bn256PairingPerPointGas : Z := 80000.

(** ** gas_table.go *)

Record GasTable := mkGasTable {
  ExtcodeSize : Z;
  ExtcodeCopy : Z;
  Balance : Z;
  SLoad : Z;
  Calls : Z;
  Suicide : Z;
  ExpByte : Z;
  CreateBySuicide : Z
}.

Definition GasTableHomestead : GasTable := mkGasTable 20 20 20 50 40 0 10 0.
Definition GasTableEIP150 : GasTable := mkGasTable 700 700 400 200 700 5000 10 25000.
Definition GasTableEIP158 : GasTable := mkGasTable 700 700 400 200 700 5000 50 25000.

(** ** config.go *)

Record CliqueConfig := mkCliqueConfig { Period : Z; Epoch : Z }.

(** [*big.Int] fields that may be nil are options. *)
Record ChainConfig := mkChainConfig {
  ChainId : option Z;
  HomesteadBlock : option Z;
  EIP150Block : option Z;
  EIP150Hash : Hash;
  EIP155Block : option Z;
  EIP158Block : option Z;
  ByzantiumBlock : option Z
}.

Definition isForked (s head : option Z) : bool :=
  match s, head with
  | Some s, Some head => s <=? head
  | _, _ => false
  end.

Definition IsHomestead (c : ChainConfig) (num : option Z) : bool := isForked (HomesteadBlock c) num.
Definition IsEIP150 (c : ChainConfig) (num : option Z) : bool := isForked (EIP150Block c) num.
Definition IsEIP155 (c : ChainConfig) (num : option Z) : bool := isForked (EIP155Block c) num.
Definition IsEIP158 (c : ChainConfig) (num : option Z) : bool := isForked (EIP158Block c) num.
Definition IsByzantium (c : ChainConfig) (num : option Z) : bool := isForked (ByzantiumBlock c) num.

Definition gasTable (c : ChainConfig) (num : option Z) : GasTable :=
  match num with
  | None => GasTableHomestead
  | Some _ =>
      if IsEIP158 c num then GasTableEIP158
      else if IsEIP150 c num then GasTableEIP150
      else GasTableHomestead
  end.

Record RulesT := mkRules {
  rChainId : Z;
  rIsHomestead : bool; rIsEIP150 : bool; rIsEIP155 : bool; rIsEIP158 : bool;
  rIsByzantium : bool
}.

Definition Rules (c : ChainConfig) (num : option Z) : RulesT :=
  mkRules (default 0 (ChainId c)) (IsHomestead c num) (IsEIP150 c num) (IsEIP155 c num)
          (IsEIP158 c num) (IsByzantium c num).

Definition configNumEqual (x y : option Z) : bool :=
  match x, y with
  | None, None => true
  | None, Some _ => false
  | Some _, None => false
  | Some x, Some y => x =? y
  end.

Definition isForkIncompatible (s1 s2 head : option Z) : bool :=
  (isForked s1 head || isForked s2 head) && negb (configNumEqual s1 s2).

(** The fork a [ConfigCompatError] names in its [What] string. *)
Inductive fork :=
  forkHomestead | forkEIP150 | forkEIP155 | forkEIP158 | forkChainID | forkByzantium.

Record ConfigCompatError := mkCompatError {
  What : fork; StoredConfig : option Z; NewConfig : option Z; RewindTo : Z
}.

Definition newCompatError (what : fork) (storedblock newblock : option Z) : ConfigCompatError :=
  let rew :=
    match storedblock, newblock with
    | None, _ => newblock
    | Some _, None => storedblock
    | Some s, Some n => if s <? n then storedblock else newblock
    end in
  mkCompatError what storedblock newblock
    (match rew with
     | Some r => if 0 <? r then u64 (bigUint64 r - 1) else 0
     | None => 0
     end).

Definition checkCompatible (c newcfg : ChainConfig) (head : option Z) : option ConfigCompatError :=
  if isForkIncompatible (HomesteadBlock c) (HomesteadBlock newcfg) head then
    Some (newCompatError forkHomestead (HomesteadBlock c) (HomesteadBlock newcfg))
  else if isForkIncompatible (EIP150Block c) (EIP150Block newcfg) head then
    Some (newCompatError forkEIP150 (EIP150Block c) (EIP150Block newcfg))
  else if isForkIncompatible (EIP155Block c) (EIP155Block newcfg) head then
    Some (newCompatError forkEIP155 (EIP155Block c) (EIP155Block newcfg))
  else if isForkIncompatible (EIP158Block c) (EIP158Block newcfg) head then
    Some (newCompatError forkEIP158 (EIP158Block c) (EIP158Block newcfg))
  else if IsEIP158 c head && negb (configNumEqual (ChainId c) (ChainId newcfg)) then
    Some (newCompatError forkChainID (EIP158Block c) (EIP158Block newcfg))
  else if isForkIncompatible (ByzantiumBlock c) (ByzantiumBlock newcfg) head then
    Some (newCompatError forkByzantium (ByzantiumBlock c) (ByzantiumBlock newcfg))
  else None.

(** The loop of [CheckCompatible], one fuel unit per iteration; [None] when the
    fuel runs out. *)
Fixpoint checkLoop (fuel : nat) (c newcfg : ChainConfig) (bhead : Z)
    (lasterr : option ConfigCompatError) : option (option ConfigCompatError) :=
  match fuel with
  | O => None
  | S fuel' =>
      match checkCompatible c newcfg (Some bhead) with
      | None => Some lasterr
      | Some err =>
          match lasterr with
          | Some l => if RewindTo err =? RewindTo l then Some lasterr
                      else checkLoop fuel' c newcfg (RewindTo err) (Some err)
          | None => checkLoop fuel' c newcfg (RewindTo err) (Some err)
          end
      end
  end.

Definition CheckCompatible (fuel : nat) (c newcfg : ChainConfig) (height : Z) :=
  checkLoop fuel c newcfg height None.

(** ** Lemmas *)

Lemma newCompatError_rewind what s1 s2 head :
  is_u64 head ->
  isForked s1 (Some head) || isForked s2 (Some head) = true ->
  let r := RewindTo (newCompatError what s1 s2) in 0 <= r /\ (r < head \/ r = 0).
Proof.
  unfold is_u64. intros Hh Hf.
  assert (forall r : Z, r <= head ->
    0 <= (if 0 <? r then u64 (bigUint64 r - 1) else 0) /\
    ((if 0 <? r then u64 (bigUint64 r - 1) else 0) < head \/
     (if 0 <? r then u64 (bigUint64 r - 1) else 0) = 0)) as Hr.
  { intros r Hr. destruct (Z.ltb_spec 0 r); [|lia].
    unfold bigUint64. rewrite Z.abs_eq, Z.mod_small by lia.
    rewrite u64_small by (unfold is_u64; lia). lia. }
  destruct s1 as [a|], s2 as [b|]; cbn in *; try discriminate.
  - destruct (Z.ltb_spec a b); apply Hr; apply orb_prop in Hf; destruct Hf; bools; lia.
  - apply Hr. apply orb_prop in Hf; destruct Hf; bools; [lia|done].
  - apply Hr. bools. lia.
Qed.

Lemma checkCompatible_rewind c n head err :
  is_u64 head -> checkCompatible c n (Some head) = Some err ->
  0 <= RewindTo err /\ (RewindTo err < head \/ RewindTo err = 0).
Proof.
  intros Hh H. unfold checkCompatible in H.
  repeat match type of H with
  | (if ?b then _ else _) = _ => destruct b eqn:?
  end; injection H as <- || discriminate H;
  apply newCompatError_rewind; try done; unfold isForkIncompatible, IsEIP158 in *; bools;
    try done; apply orb_true_iff; by left.
Qed.

(** One iteration per strict decrease of the rewind target, then one that
    finds it unchanged. *)
Lemma checkLoop_total fuel c n bhead lasterr :
  is_u64 bhead ->
  (Z.to_nat bhead + 1 < fuel)%nat ->
  (forall l, lasterr = Some l -> RewindTo l = bhead) ->
  exists r, checkLoop fuel c n bhead lasterr = Some r.
Proof.
  revert bhead lasterr. induction fuel as [|fuel IH]; intros bhead lasterr Hb Hf Hl; [lia|].
  cbn [checkLoop]. destruct (checkCompatible c n (Some bhead)) as [err|] eqn:E; [|eauto].
  destruct (checkCompatible_rewind _ _ _ _ Hb E) as [H0 Hlt]. unfold is_u64 in *.
  assert (RewindTo err < bhead ->
          exists r, checkLoop fuel c n (RewindTo err) (Some err) = Some r) as Hrec.
  { intros Hlt'. apply IH; [lia|lia|]. by intros l [= ->]. }
  destruct Hlt as [Hlt|Hz].
  - destruct lasterr as [l|]; [|eauto]. case_match; eauto.
  - destruct (decide (bhead = 0)) as [->|Hne].
    + destruct lasterr as [l|].
      * rewrite Hz, (Hl l eq_refl). eauto.
      * destruct fuel as [|fuel]; [lia|]. rewrite Hz. cbn [checkLoop]. rewrite E, Z.eqb_refl. eauto.
    + destruct lasterr as [l|]; [|apply Hrec; lia]. case_match; [eauto|apply Hrec; lia].
Qed.

Lemma isForkIncompatible_agree s1 s2 head num :
  isForkIncompatible s1 s2 (Some head) = false -> num <= head ->
  isForked s1 (Some num) = isForked s2 (Some num).
Proof.
  unfold isForkIncompatible. intros H Hn. destruct s1 as [a|], s2 as [b|]; cbn in *; try done.
  - destruct (Z.leb_spec a head), (Z.leb_spec b head); cbn in H; bools; subst; try done.
    destruct (Z.leb_spec a num), (Z.leb_spec b num); lia || done.
  - destruct (Z.leb_spec a head); cbn in H; [done|]. by destruct (Z.leb_spec a num); [lia|].
  - destruct (Z.leb_spec b head); cbn in H; [done|]. by destruct (Z.leb_spec b num); [lia|].
Qed.

(** Two configurations that [checkCompatible] accepts at [head] have the same
    active forks at every block up to [head]. *)
Lemma checkCompatible_agree c n head num :
  checkCompatible c n (Some head) = None -> num <= head ->
  IsHomestead c (Some num) = IsHomestead n (Some num) /\
  IsEIP150 c (Some num) = IsEIP150 n (Some num) /\
  IsEIP155 c (Some num) = IsEIP155 n (Some num) /\
  IsEIP158 c (Some num) = IsEIP158 n (Some num) /\
  IsByzantium c (Some num) = IsByzantium n (Some num).
Proof.
  intros H Hn. unfold checkCompatible in H.
  repeat match type of H with
  | (if ?b then _ else _) = _ => destruct b eqn:?; [discriminate|]
  end.
  repeat split; eapply isForkIncompatible_agree; eauto.
Qed.

Lemma gasTable_cases c num :
  gasTable c num = GasTableHomestead \/ gasTable c num = GasTableEIP150 \/
  gasTable c num = GasTableEIP158.
Proof. unfold gasTable. repeat case_match; auto. Qed.

(** Two configurations have the same active forks up to a block. *)
Definition SameForks (c n : ChainConfig) (head : Z) : Prop :=
  forall num, num <= head ->
    IsHomestead c (Some num) = IsHomestead n (Some num) /\
    IsEIP150 c (Some num) = IsEIP150 n (Some num) /\
    IsEIP155 c (Some num) = IsEIP155 n (Some num) /\
    IsEIP158 c (Some num) = IsEIP158 n (Some num) /\
    IsByzantium c (Some num) = IsByzantium n (Some num).

(** Where the loop stops, it rewinds far enough. *)
Lemma checkLoop_sound fuel c n bhead lasterr r :
  is_u64 bhead -> (forall l, lasterr = Some l -> RewindTo l = bhead) ->
  checkLoop fuel c n bhead lasterr = Some r ->
  match r with
  | None => lasterr = None /\ SameForks c n bhead
  | Some err => RewindTo err = 0 \/ SameForks c n (RewindTo err)
  end.
Proof.
  revert bhead lasterr. induction fuel as [|fuel IH]; intros bhead lasterr Hb Hl E; [done|].
  cbn [checkLoop] in E. destruct (checkCompatible c n (Some bhead)) as [err|] eqn:Ec.
  - destruct (checkCompatible_rewind _ _ _ _ Hb Ec) as [H0 Hlt]. unfold is_u64 in *.
    assert (Hrec : checkLoop fuel c n (RewindTo err) (Some err) = Some r ->
      match r with None => lasterr = None /\ SameForks c n bhead
                 | Some err => RewindTo err = 0 \/ SameForks c n (RewindTo err) end).
    { intros E'. apply IH in E'; [|lia|by intros l [= ->]]. destruct r; [done|by destruct E']. }
    destruct lasterr as [l|]; [|by apply Hrec]. destruct (Z.eqb_spec (RewindTo err) (RewindTo l)) as [Eq|];
      [|by apply Hrec]. injection E as <-. specialize (Hl l eq_refl). left. lia.
  - injection E as <-. assert (SameForks c n bhead) by (intros num Hn; by apply (checkCompatible_agree c n bhead)).
    destruct lasterr as [l|]; [|done]. right. by rewrite (Hl l eq_refl).
Qed.

(** [CheckCompatible] decides whether a node may switch to a new configuration:
    it terminates; without an error the two configurations have the same active
    forks in every block up to the head; with an error, rewinding to the block it
    names leaves a chain on which they agree, unless it names the genesis block. *)
Theorem CheckCompatible_is_sound fuel c newcfg height :
  is_u64 height -> (Z.to_nat height + 1 < fuel)%nat ->
  exists r, CheckCompatible fuel c newcfg height = Some r /\
    match r with
    | None => SameForks c newcfg height
    | Some err => RewindTo err = 0 \/ SameForks c newcfg (RewindTo err)
    end.
Proof.
  intros Hh Hf. destruct (checkLoop_total fuel c newcfg height None Hh Hf) as [r E]; [done|].
  exists r. split; [done|]. apply checkLoop_sound in E; [|done|done]. destruct r; [done|apply E].
Qed.

(** A chain at block 30 that moves the Byzantium fork from block 20 to 25. *)
Lemma CheckCompatible_is_sound_witness :
  let c b := mkChainConfig (Some 1) (Some 0) (Some 0) 0 (Some 0) (Some 0) (Some b) in
  exists r, CheckCompatible 40 (c 20) (c 25) 30 = Some r /\
    match r with
    | None => SameForks (c 20) (c 25) 30
    | Some err => RewindTo err = 0 \/ SameForks (c 20) (c 25) (RewindTo err)
    end.
Proof. intros c. apply (CheckCompatible_is_sound 40 (c 20) (c 25) 30); [done|lia]. Defined.
