(* ===== verification/Types.v ===== *)
(** * Package core/types: block headers

    The header of src/core/types/block.go and the two digests of it: the block
    hash ([Header.Hash], all fields) and, in src/consensus/clique/clique.go,
    the hash that a signer signs ([sigHash], all fields but the signature).

    Keccak-256 and the secp256k1 public-key recovery are parameters of the model
    (class [Crypto]). *)

From stdpp Require Import base numbers list gmap sets option.
From Stdlib Require Import ZArith Lia Strings.Byte.
From S2P Require Import Prelude Rlp Common.

(** A [*big.Int] that may be nil is an option; [hNonce] is the 8-byte array. *)
Record Header := mkHeader {
  hParentHash : Hash;
  hUncleHash : Hash;
  hCoinbase : Address;
  hSigners : list Address;
  hVoters : list Address;
  hSigner : list byte;
  hRoot : Hash;
  hTxHash : Hash;
  hReceiptHash : Hash;
  hBloom : list byte;
  hDifficulty : option Z;
  hNumber : option Z;
  hGasLimit : Z;
  hGasUsed : Z;
  hTime : option Z;
  hExtra : list byte;
  hMixDigest : Hash;
  hNonce : list byte
}.

#[global] Instance Header_eq_dec : EqDecision Header.
Proof. solve_decision. Defined.

Class Crypto := {
  Keccak256 : list byte -> Hash;
  (** [crypto.Ecrecover(hash, sig)]: the uncompressed public key, or an error. *)
  Ecrecover : list byte -> list byte -> option (list byte)
}.

(** What [rlp.Encode] writes: nothing when the value has no encoding. *)
Definition rlpEncode (v : rlpValue) : list byte :=
  match EncodeToBytes v with Ok b => b | _ => [] end.
#[global] Opaque rlpEncode.

Definition rAddress (a : Address) : rlpValue := RBytes (AddressBytes a).
Definition rHash (h : Hash) : rlpValue := RBytes (HashBytes h).
Definition rAddresses (l : list Address) : rlpValue := RList (rAddress <$> l).

Section Digests.
Context `{Crypto}.

Definition rlpHash (x : rlpValue) : Hash := Keccak256 (rlpEncode x).

(** The struct's fields, in their order. *)
Definition headerRLP (h : Header) : rlpValue :=
  RList [
    rHash (hParentHash h); rHash (hUncleHash h); rAddress (hCoinbase h);
    rAddresses (hSigners h); rAddresses (hVoters h); RBytes (hSigner h);
    rHash (hRoot h); rHash (hTxHash h); rHash (hReceiptHash h); RBytes (hBloom h);
    RBig (hDifficulty h); RBig (hNumber h); RUint (hGasLimit h); RUint (hGasUsed h);
    RBig (hTime h); RBytes (hExtra h); rHash (hMixDigest h); RBytes (hNonce h) ].

Definition headerHash (h : Header) : Hash := rlpHash (headerRLP h).

Definition sigHash (header : Header) : Hash :=
  rlpHash (RList [
    rHash (hParentHash header); rHash (hUncleHash header); rAddress (hCoinbase header);
    rHash (hRoot header); rHash (hTxHash header); rHash (hReceiptHash header);
    RBytes (hBloom header); RBig (hDifficulty header); RBig (hNumber header);
    RUint (hGasLimit header); RUint (hGasUsed header); RBig (hTime header);
    rAddresses (hSigners header); rAddresses (hVoters header);
    RBytes (hExtra header); rHash (hMixDigest header); RBytes (hNonce header) ]).

End Digests.

(** [header.Number.Uint64()] panics on a nil pointer. *)
Definition uint64Of {E : Type} (x : option Z) : result E Z :=
  match x with Some z => Ok (bigUint64 z) | None => Panic end.

(** [CopyHeader]: nil big integers become zero. *)
Definition CopyHeader (h : Header) : Header :=
  mkHeader (hParentHash h) (hUncleHash h) (hCoinbase h) (hSigners h) (hVoters h) (hSigner h)
    (hRoot h) (hTxHash h) (hReceiptHash h) (hBloom h)
    (Some (default 0 (hDifficulty h))) (Some (default 0 (hNumber h)))
    (hGasLimit h) (hGasUsed h) (Some (default 0 (hTime h))) (hExtra h) (hMixDigest h) (hNonce h).
