(* ===== verification/Toy.v ===== *)
(** * Concrete cryptography for examples

    A hash that evaluates quickly and tells short inputs apart.  The theorems hold for every
    instance of [Crypto]; this one serves their instances on concrete inputs. *)

From stdpp Require Import base numbers list option.
From Stdlib Require Import ZArith Strings.Byte.
From S2P Require Import Prelude Common Types.

Module Toy.

(** Of short inputs the number that the bytes write after a leading 1, in 256 bits, and a
    multiplicative hash of long ones. *)
Definition hash (bs : list byte) : Z :=
  if (length bs <=? 32)%nat then be_value (x01 :: bs) mod 2 ^ 256
  else foldl (fun acc b => Z.land (acc * 33 + byte_to_Z b + 1) (2 ^ 64 - 1)) 5381 bs.

(** The public key is the signature's first byte. *)
#[global] Instance crypto : Crypto := {|
  Keccak256 := hash;
  Ecrecover := fun _ sig => match sig with [] => None | b :: _ => Some [x04; b] end
|}.

End Toy.
