(* ===== verification/TrieDatabase.v ===== *)
(** * Package trie: the node database

    The write layer between the tries and the disk (src/trie/database.go): a cache of
    nodes with reference counts and a list of them in the order of their insertion,
    from which old nodes are flushed.

    The disk is a map; whether a batch is written to it or the write fails is the
    parameter [writeOk].  [time] and the statistics that only the log shows are left
    out; sizes, a [float64] in the source, are integers.  Go ranges over a map in no
    fixed order: the orders are the parameter [MapOrder].

    The lock is the number [readers] of read locks that are held: [Cap] and [Commit] take
    one, and give it back on their way out.  Calls come one after the other, so that a
    read lock that is held when a call starts is never given back: a writer then waits
    forever, and the call has no result, which is [NoFuel]. *)

From stdpp Require Import base numbers list gmap sets option.
From Stdlib Require Import ZArith Lia Strings.Byte.
From S2P Require Import Prelude Common.

#[global] Instance byte_countable : Countable byte.
Proof. refine (inj_countable' Byte.to_N (fun n => default x00 (Byte.of_N n)) _). intros b. by rewrite Byte.of_to_N. Defined.

Module triedb.

(** ** ethdb: disks and batches (src/ethdb) *)

Notation Disk := (gmap (list byte) (list byte)).

Definition IdealBatchSize : Z := 100 * 1024.

Record Batch := mkBatch { writes : list (list byte * list byte); ValueSize : Z }.
Definition NewBatch : Batch := mkBatch [] 0.
Definition Put (key value : list byte) (b : Batch) : Batch :=
  mkBatch (writes b ++ [(key, value)]) (ValueSize b + Z.of_nat (length value)).
Definition writeAll (ws : list (list byte * list byte)) (d : Disk) : Disk :=
  foldl (fun d kv => <[kv.1 := kv.2]> d) d ws.

(** Whether the disk takes a batch: [batch.Write] returns an error otherwise. *)
Class DiskWrites := { writeOk : Disk -> Batch -> bool }.

(** ** The types *)

Record cachedNode := mkNode {
  blob : list byte;
  parents : Z;
  children : gmap Hash Z;
  flushPrev : Hash;
  flushNext : Hash
}.

Record Database := mkDatabase {
  diskdb : Disk;
  nodes : gmap Hash cachedNode;
  oldest : Hash;
  newest : Hash;
  preimages : gmap Hash (list byte);
  nodesSize : Z;
  preimagesSize : Z;
  (** Read locks that are held. *)
  readers : Z
}.

Inductive dbErr := WriteError.

(** The orders in which [range] visits the children of a node and the preimages, which may be
    others from one state of the database to the next. *)
Class MapOrder := {
  childOrder : Database -> gmap Hash Z -> list Hash;
  preimageOrder : Database -> gmap Hash (list byte) -> list (Hash * list byte);
  childOrder_keys : forall db m, childOrder db m ≡ₚ (map_to_list m).*1;
  preimageOrder_entries : forall db m, preimageOrder db m ≡ₚ map_to_list m
}.

(** [db.lock.Lock()] *)
Definition Lock (db : Database) : result dbErr unit := if readers db =? 0 then Ok tt else NoFuel.

Definition setParents (z : Z) (n : cachedNode) : cachedNode := mkNode (blob n) z (children n) (flushPrev n) (flushNext n).
Definition setChildren (c : gmap Hash Z) (n : cachedNode) : cachedNode := mkNode (blob n) (parents n) c (flushPrev n) (flushNext n).
Definition setPrev (h : Hash) (n : cachedNode) : cachedNode := mkNode (blob n) (parents n) (children n) h (flushNext n).
Definition setNext (h : Hash) (n : cachedNode) : cachedNode := mkNode (blob n) (parents n) (children n) (flushPrev n) h.

Definition setDisk (d : Disk) (db : Database) : Database :=
  mkDatabase d (nodes db) (oldest db) (newest db) (preimages db) (nodesSize db) (preimagesSize db) (readers db).
Definition setNodes (m : gmap Hash cachedNode) (db : Database) : Database :=
  mkDatabase (diskdb db) m (oldest db) (newest db) (preimages db) (nodesSize db) (preimagesSize db) (readers db).
Definition setOldest (h : Hash) (db : Database) : Database :=
  mkDatabase (diskdb db) (nodes db) h (newest db) (preimages db) (nodesSize db) (preimagesSize db) (readers db).
Definition setNewest (h : Hash) (db : Database) : Database :=
  mkDatabase (diskdb db) (nodes db) (oldest db) h (preimages db) (nodesSize db) (preimagesSize db) (readers db).
Definition setPreimages (m : gmap Hash (list byte)) (size : Z) (db : Database) : Database :=
  mkDatabase (diskdb db) (nodes db) (oldest db) (newest db) m (nodesSize db) size (readers db).
Definition addSize (z : Z) (db : Database) : Database :=
  mkDatabase (diskdb db) (nodes db) (oldest db) (newest db) (preimages db) (nodesSize db + z) (preimagesSize db) (readers db).
Definition addReaders (z : Z) (db : Database) : Database :=
  mkDatabase (diskdb db) (nodes db) (oldest db) (newest db) (preimages db) (nodesSize db) (preimagesSize db) (readers db + z).

(** A write through the pointer [db.nodes[h]], which may be nil. *)
Definition modifyNode (h : Hash) (f : cachedNode -> cachedNode) (db : Database) : result dbErr Database :=
  let* n := deref (nodes db !! h) in
  Ok (setNodes (<[h := f n]> (nodes db)) db).

Definition blobSize (n : cachedNode) : Z := HashLength + Z.of_nat (length (blob n)).

(** [for x := range l { f(x) }] *)
Definition forEach {A S E} (f : A -> S -> result E S) : list A -> S -> result E S :=
  fix go l s := match l with [] => Ok s | x :: l => let* s := f x s in go l s end.
Definition forEachM {A S E} (f : A -> M S E unit) : list A -> M S E unit :=
  fix go l := match l with [] => ret tt | x :: l => let! _ := f x in go l end.

(** ** The cache *)

(** The zero hash stands for the holder of the references to roots. *)
Definition NewDatabase (disk : Disk) : Database :=
  mkDatabase disk {[ 0 := mkNode [] 0 ∅ 0 0 ]} 0 0 ∅ 0 0 0.

Definition insert (hash : Hash) (blob : list byte) (db : Database) : result dbErr Database :=
  match nodes db !! hash with
  | Some _ => Ok db
  | None =>
      let n := mkNode blob 0 ∅ (newest db) 0 in
      let first := oldest db =? 0 in
      let prev := newest db in
      let db := setNodes (<[hash := n]> (nodes db)) db in
      let* db :=
        if first then Ok (setOldest hash db) else modifyNode prev (setNext hash) db in
      Ok (addSize (blobSize n) (setNewest hash db))
  end.

Definition Insert (hash : Hash) (blob : list byte) (db : Database) : result dbErr Database :=
  let* _ := Lock db in insert hash blob db.

Definition insertPreimage (hash : Hash) (preimage : list byte) (db : Database) : Database :=
  match preimages db !! hash with
  | Some _ => db
  | None =>
      setPreimages (<[hash := preimage]> (preimages db))
        (preimagesSize db + (HashLength + Z.of_nat (length preimage))) db
  end.

(** [None] is an error of the disk; a node of the cache always has a blob, the zero hash
    an empty one. *)
Definition Node (hash : Hash) (db : Database) : option (list byte) :=
  match nodes db !! hash with
  | Some n => Some (blob n)
  | None => diskdb db !! HashBytes hash
  end.

(** The bytes of "secure-key-". *)
Definition secureKeyPrefix : list byte := [x73; x65; x63; x75; x72; x65; x2d; x6b; x65; x79; x2d].
Definition secureKey (key : list byte) : list byte := secureKeyPrefix ++ key.

Definition preimage (hash : Hash) (db : Database) : option (list byte) :=
  match preimages db !! hash with
  | Some p => Some p
  | None => diskdb db !! secureKey (HashBytes hash)
  end.

Definition Nodes (db : Database) : list Hash := filter (fun h => h <> 0) (map_to_list (nodes db)).*1.

(** ** References *)

Definition refCount (parent : cachedNode) (child : Hash) : Z := default 0 (children parent !! child).

Definition reference (child parent : Hash) (db : Database) : result dbErr Database :=
  match nodes db !! child with
  | None => Ok db
  | Some node =>
      let* p := deref (nodes db !! parent) in
      if bool_decide (is_Some (children p !! child)) && negb (parent =? 0) then Ok db
      else
        let* db := modifyNode child (setParents (parents node + 1)) db in
        modifyNode parent (fun p => setChildren (<[child := refCount p child + 1]> (children p)) p) db
  end.

(** Takes a node out of the flush list. *)
Definition unlink (hash : Hash) (node : cachedNode) (db : Database) : result dbErr Database :=
  if hash =? oldest db then Ok (setOldest (flushNext node) db)
  else
    let* db := modifyNode (flushPrev node) (setNext (flushNext node)) db in
    modifyNode (flushNext node) (setPrev (flushPrev node)) db.

(** One reference less; the entry goes with the last. *)
Definition dropRef (child : Hash) (p : cachedNode) : cachedNode :=
  let count := refCount p child - 1 in
  setChildren (if count =? 0 then delete child (children p) else <[child := count]> (children p)) p.

Section Dereferencing.
Context `{MapOrder}.

Definition childKeys (db : Database) (n : cachedNode) : list Hash := childOrder db (children n).

Fixpoint dereference (fuel : nat) (child parent : Hash) (db : Database) : result dbErr Database :=
  match fuel with
  | O => NoFuel
  | S fuel =>
      let* db := modifyNode parent (dropRef child) db in
      match nodes db !! child with
      | None => Ok db
      | Some node =>
          let node := setParents (parents node - 1) node in
          let db := setNodes (<[child := node]> (nodes db)) db in
          if parents node =? 0 then
            let* db := unlink child node db in
            let* db := forEach (fun hash db => dereference fuel hash child db) (childKeys db node) db in
            Ok (addSize (- blobSize node) (setNodes (delete child (nodes db)) db))
          else Ok db
      end
  end.

(** Every call but the first takes one of the references away. *)
Definition totalRefs (db : Database) : Z :=
  map_fold (fun _ n acc => map_fold (fun _ c acc => c + acc) 0 (children n) + acc) 0 (nodes db).
Definition Dereference (child parent : Hash) (db : Database) : result dbErr Database :=
  let* _ := Lock db in dereference (S (Z.to_nat (totalRefs db))) child parent db.
End Dereferencing.

(** ** Writing to the disk *)

Section Flushing.
Context `{DiskWrites} `{MapOrder}.

(** The database and the batch that is being filled. *)
Record session := mkSession { sdb : Database; batch : Batch }.
Definition onDb (f : Database -> Database) : M session dbErr unit := modify (fun s => mkSession (f (sdb s)) (batch s)).
Definition put (key value : list byte) : M session dbErr unit := modify (fun s => mkSession (sdb s) (Put key value (batch s))).
Definition resetBatch : M session dbErr unit := modify (fun s => mkSession (sdb s) NewBatch).
Definition write : M session dbErr unit := fun s =>
  if writeOk (diskdb (sdb s)) (batch s)
  then (Ok tt, mkSession (setDisk (writeAll (writes (batch s)) (diskdb (sdb s))) (sdb s)) (batch s))
  else (Err WriteError, s).
Definition writeIf (full : Z -> bool) : M session dbErr unit :=
  let! size := gets (fun s => ValueSize (batch s)) in
  if full size then let! _ := write in resetBatch else ret tt.

Definition RLock : M session dbErr unit := onDb (addReaders 1).
Definition RUnlock : M session dbErr unit := onDb (addReaders (-1)).
(** [if err := m; err != nil { db.lock.RUnlock(); return err }] *)
Definition releasing {A} (m : M session dbErr A) : M session dbErr A := fun s =>
  match m s with
  | (Err e, s) => (Err e, (RUnlock s).2)
  | r => r
  end.

Definition putPreimages : M session dbErr unit :=
  let! ps := gets (fun s => preimageOrder (sdb s) (preimages (sdb s))) in
  forEachM (fun '(hash, preimage) =>
    let! _ := put (secureKey (HashBytes hash)) preimage in
    writeIf (fun size => size >? IdealBatchSize)) ps.

(** From the oldest node on, until the size is within the limit. *)
Fixpoint capLoop (fuel : nat) (limit size : Z) (oldest : Hash) : M session dbErr Hash :=
  match fuel with
  | O => lift NoFuel
  | S fuel =>
      if (size >? limit) && negb (oldest =? 0) then
        let! entry := gets (fun s => nodes (sdb s) !! oldest) in
        let! node := lift (deref entry) in
        let! _ := put (HashBytes oldest) (blob node) in
        let! _ := writeIf (fun size => size >=? IdealBatchSize) in
        capLoop fuel limit (size - (3 * HashLength + Z.of_nat (length (blob node)))) (flushNext node)
      else ret oldest
  end.

(** Removes what has been flushed from the cache. *)
Fixpoint uncacheUntil (fuel : nat) (stop : Hash) (db : Database) : result dbErr Database :=
  match fuel with
  | O => NoFuel
  | S fuel =>
      if oldest db =? stop then Ok db
      else
        let* node := deref (nodes db !! oldest db) in
        let db := setNodes (delete (oldest db) (nodes db)) db in
        uncacheUntil fuel stop (addSize (- blobSize node) (setOldest (flushNext node) db))
  end.

Definition capDone (flushPreimages : bool) (stop : Hash) (db : Database) : result dbErr Database :=
  let db := if flushPreimages then setPreimages ∅ 0 db else db in
  let* db := uncacheUntil (S (size (nodes db))) stop db in
  if oldest db =? 0 then Ok db else modifyNode (oldest db) (setPrev 0) db.

Definition onDbResult (f : Database -> result dbErr Database) : M session dbErr unit := fun s =>
  match f (sdb s) with
  | Ok db => (Ok tt, mkSession db (batch s))
  | Err e => (Err e, s)
  | Panic => (Panic, s)
  | NoFuel => (NoFuel, s)
  end.

Definition capSession (limit : Z) : M session dbErr unit :=
  let! _ := RLock in
  let! db := gets sdb in
  let total := nodesSize db + Z.of_nat (size (nodes db)) * 2 * HashLength in
  let flushPreimages := preimagesSize db >? 4 * 1024 * 1024 in
  let! _ := releasing (if flushPreimages then putPreimages else ret tt) in
  let! stop := releasing (capLoop (S (size (nodes db))) limit total (oldest db)) in
  let! _ := releasing write in
  let! _ := RUnlock in
  onDbResult (fun db => let* _ := Lock db in capDone flushPreimages stop db).

(** Puts a node into the batch, after those below it. *)
Fixpoint commit (fuel : nat) (hash : Hash) : M session dbErr unit :=
  match fuel with
  | O => lift NoFuel
  | S fuel =>
      let! entry := gets (fun s => nodes (sdb s) !! hash) in
      match entry with
      | None => ret tt
      | Some node =>
          let! db := gets sdb in
          let! _ := forEachM (commit fuel) (childKeys db node) in
          let! _ := put (HashBytes hash) (blob node) in
          writeIf (fun size => size >=? IdealBatchSize)
      end
  end.

Fixpoint uncache (fuel : nat) (hash : Hash) (db : Database) : result dbErr Database :=
  match fuel with
  | O => NoFuel
  | S fuel =>
      match nodes db !! hash with
      | None => Ok db
      | Some node =>
          let* db := unlink hash node db in
          let* db := forEach (uncache fuel) (childKeys db node) db in
          Ok (addSize (- blobSize node) (setNodes (delete hash (nodes db)) db))
      end
  end.

(** The lock is not given back when writing the preimages fails. *)
Definition commitSession (node : Hash) : M session dbErr unit :=
  let! _ := RLock in
  let! _ := putPreimages in
  let! db := gets sdb in
  let! _ := releasing (commit (S (size (nodes db))) node) in
  let! _ := releasing write in
  let! _ := RUnlock in
  onDbResult (fun db' => let* _ := Lock db' in uncache (S (size (nodes db))) node (setPreimages ∅ 0 db')).

Definition runSession (m : M session dbErr unit) (db : Database) : result dbErr unit * Database :=
  let '(r, s) := m (mkSession db NewBatch) in (r, sdb s).

Definition Cap (limit : Z) : Database -> result dbErr unit * Database := runSession (capSession limit).
Definition Commit (node : Hash) : Database -> result dbErr unit * Database := runSession (commitSession node).
End Flushing.

(** Nodes with the flush list, and preimages. *)
Definition Size (db : Database) : Z * Z :=
  (nodesSize db + Z.of_nat (size (nodes db)) * 2 * HashLength, preimagesSize db).

End triedb.
