(* ===== verification/Trie.v ===== *)
(** * Package trie: the Merkle Patricia trie

    Key encodings (src/trie/encoding.go), nodes and their decoding (node.go), lookups
    and changes with nodes that are loaded on demand (trie.go), hashing and storing
    (hasher.go), and the trie with hashed keys (secure_trie.go).

    A trie holds a pointer to its node database; here the database is an argument of the
    operations that read it, and a result of those that write it.  [nil] of the
    interface [node] is the constructor [nilNode], a nil value node is [valueNode []]:
    a value that is stored is never empty.  The source walks down a key with an index or
    with slices; here the part of the key that has been walked is [prefix]. *)

From stdpp Require Import base numbers list gmap sets option.
From Stdlib Require Import ZArith Lia Strings.Byte.
From S2P Require Import Prelude Rlp Common Types TrieDatabase.

Module trie.

(** ** encoding.go *)

(** Keys in hex encoding have a byte for each nibble, and 16 at the end when they lead to
    a value. *)
Definition terminator : byte := x10.

Definition hasTerm (s : list byte) : bool := bool_decide (s !! (length s - 1)%nat = Some terminator).
Definition chopTerm (s : list byte) : list byte := if hasTerm s then take (length s - 1) s else s.

(** Callers give it an even number of nibbles. *)
Fixpoint decodeNibbles (nibbles : list byte) : list byte :=
  match nibbles with
  | hi :: lo :: rest => byte_of_Z (Z.lor (Z.shiftl (byte_to_Z hi) 4) (byte_to_Z lo)) :: decodeNibbles rest
  | _ => []
  end.

Definition hexToCompact (hex : list byte) : list byte :=
  let flag := Z.shiftl (if hasTerm hex then 1 else 0) 5 in
  let hex := chopTerm hex in
  if Nat.odd (length hex) then
    match hex with
    | first :: rest => byte_of_Z (Z.lor (Z.lor flag (Z.shiftl 1 4)) (byte_to_Z first)) :: decodeNibbles rest
    | [] => []
    end
  else byte_of_Z flag :: decodeNibbles hex.

Definition keybytesToHex (str : list byte) : list byte :=
  (b ← str; [byte_of_Z (byte_to_Z b / 16); byte_of_Z (byte_to_Z b mod 16)]) ++ [terminator].

(** Reads the first byte of its argument. *)
Definition compactToHex (compact : list byte) : option (list byte) :=
  let base := keybytesToHex compact in
  let base := take (length base - 1) base in
  match base with
  | [] => None
  | first :: _ =>
      let base := if 2 <=? byte_to_Z first then base ++ [terminator] else base in
      Some (drop (Z.to_nat (2 - Z.land (byte_to_Z first) 1)) base)
  end.

(** Panics on a key of odd length. *)
Definition hexToKeybytes (hex : list byte) : option (list byte) :=
  let hex := chopTerm hex in
  if Nat.odd (length hex) then None else Some (decodeNibbles hex).

Fixpoint prefixLen (a b : list byte) : nat :=
  match a, b with
  | x :: a, y :: b => if bool_decide (x = y) then S (prefixLen a b) else 0
  | _, _ => 0
  end.

(** ** node.go *)

Record nodeFlag := mkFlag { fHash : option (list byte); gen : Z; dirty : bool }.

Inductive node :=
| nilNode
| fullNode (Children : list node) (flags : nodeFlag)
| shortNode (Key : list byte) (Val : node) (flags : nodeFlag)
| hashNode (h : list byte)
| valueNode (v : list byte).

Definition isNil (n : node) : bool := match n with nilNode => true | _ => false end.

Definition cache (n : node) : option (list byte) * bool :=
  match n with
  | fullNode _ fl | shortNode _ _ fl => (fHash fl, dirty fl)
  | _ => (None, true)
  end.

Definition u16 (z : Z) : Z := z mod 2 ^ 16.
Definition canUnload (n : node) (cachegen cachelimit : Z) : bool :=
  match n with
  | fullNode _ fl | shortNode _ _ fl => negb (dirty fl) && (u16 (cachegen - gen fl) >=? cachelimit)
  | _ => false
  end.

(** What [rlp.Encode] writes for a node: the flags are not exported. *)
Fixpoint nodeRLP (n : node) : rlpValue :=
  match n with
  | nilNode => RList []
  | fullNode cs _ => RList (nodeRLP <$> cs)
  | shortNode key val _ => RList [RBytes key; nodeRLP val]
  | hashNode h => RBytes h
  | valueNode v => RBytes v
  end.

Inductive decodeErr :=
| UnexpectedEOF
| DecodeError (e : rlpErr)
| InvalidCount (c : Z)
| OversizedNode (size : Z)
| InvalidRef (size : Z).

(** Errors of package rlp with their context. *)
Definition wrapError {A} (r : result rlpErr A) : result decodeErr A :=
  match r with Ok a => Ok a | Err e => Err (DecodeError e) | Panic => Panic | NoFuel => NoFuel end.

Definition hashLen : Z := 32.

Section Decoding.
Variable decodeNode : option (list byte) -> list byte -> Z -> result decodeErr node.

(** A reference: an embedded node, nothing, or a hash; with what follows it. *)
Definition decodeRef (buf : list byte) (cachegen : Z) : result decodeErr (node * list byte) :=
  let* (kind, val, rest) := wrapError (Split buf) in
  match kind with
  | KList =>
      let size := Z.of_nat (length buf) - Z.of_nat (length rest) in
      if size >? hashLen then Err (OversizedNode size)
      else let* n := decodeNode None buf cachegen in Ok (n, rest)
  | _ =>
      let size := Z.of_nat (length val) in
      match kind with
      | KString =>
          if size =? 0 then Ok (nilNode, rest)
          else if size =? 32 then Ok (hashNode val, rest)
          else Err (InvalidRef size)
      | _ => Err (InvalidRef size)
      end
  end.

Definition decodeShort (hash : option (list byte)) (elems : list byte) (cachegen : Z) : result decodeErr node :=
  let* (kbuf, rest) := wrapError (SplitString elems) in
  let flag := mkFlag hash cachegen false in
  let* key := deref (compactToHex kbuf) in
  if hasTerm key then
    let* (val, _) := wrapError (SplitString rest) in
    Ok (shortNode key (valueNode val) flag)
  else
    let* (r, _) := decodeRef rest cachegen in
    Ok (shortNode key r flag).

Fixpoint decodeRefs (n : nat) (elems : list byte) (cachegen : Z) : result decodeErr (list node * list byte) :=
  match n with
  | O => Ok ([], elems)
  | S n =>
      let* (cld, rest) := decodeRef elems cachegen in
      let* (clds, rest) := decodeRefs n rest cachegen in
      Ok (cld :: clds, rest)
  end.

Definition decodeFull (hash : option (list byte)) (elems : list byte) (cachegen : Z) : result decodeErr node :=
  let* (clds, elems) := decodeRefs 16 elems cachegen in
  let* (val, _) := wrapError (SplitString elems) in
  Ok (fullNode (clds ++ [if Z.of_nat (length val) >? 0 then valueNode val else nilNode]) (mkFlag hash cachegen false)).
End Decoding.

(** Embedded nodes lie within the bytes of the node around them. *)
Fixpoint decodeNode (fuel : nat) (hash : option (list byte)) (buf : list byte) (cachegen : Z) : result decodeErr node :=
  match fuel with
  | O => NoFuel
  | S fuel =>
      if Z.of_nat (length buf) =? 0 then Err UnexpectedEOF
      else
        let* (elems, _) := wrapError (SplitList buf) in
        let c := match CountValues elems with Ok c => c | _ => 0 end in
        if c =? 2 then decodeShort (decodeNode fuel) hash elems cachegen
        else if c =? 17 then decodeFull (decodeNode fuel) hash elems cachegen
        else Err (InvalidCount c)
  end.

(** ** trie.go *)

(** [MissingNodeError] *)
Inductive trieErr := MissingNode (NodeHash : Hash) (Path : list byte).

Record Trie := mkTrie { root : node; originalRoot : Hash; cachegen : Z; cachelimit : Z }.

Definition setRoot (n : node) (t : Trie) : Trie := mkTrie n (originalRoot t) (cachegen t) (cachelimit t).
Definition SetCacheLimit (l : Z) (t : Trie) : Trie := mkTrie (root t) (originalRoot t) (cachegen t) l.

Definition emptyRoot : Hash := 0x56e81f171bcc55a6ff8345e692c0f86e5b48e01b996cadc001622fb5e363b421.

Definition mustDecodeNode (hash buf : list byte) (cachegen : Z) : result trieErr node :=
  match decodeNode (S (length buf)) (Some hash) buf cachegen with
  | Ok n => Ok n
  | NoFuel => NoFuel
  | _ => Panic
  end.

Section Walks.
(** The database and the cache generation of the trie. *)
Variable db : triedb.Database.
Variable cachegen : Z.

Definition newFlag : nodeFlag := mkFlag None cachegen true.

Definition resolveHash (h prefix : list byte) : result trieErr node :=
  let hash := BytesToHash h in
  match triedb.Node hash db with
  | Some ((_ :: _) as enc) => mustDecodeNode h enc cachegen
  | _ => Err (MissingNode hash prefix)
  end.

Definition resolve (n : node) (prefix : list byte) : result trieErr node :=
  match n with hashNode h => resolveHash h prefix | _ => Ok n end.

(** [n.Children[i]] for a byte [i] *)
Definition index (x : byte) : nat := Z.to_nat (byte_to_Z x).
Definition child (cs : list node) (x : byte) : result trieErr node := deref (cs !! index x).

(** Value, the node with what was loaded, and whether anything was. *)
Fixpoint tryGet (fuel : nat) (n : node) (prefix key : list byte) : result trieErr (list byte * node * bool) :=
  match fuel with
  | O => NoFuel
  | S fuel =>
      match n with
      | nilNode => Ok ([], nilNode, false)
      | valueNode v => Ok (v, n, false)
      | shortNode k val fl =>
          if (length key <? length k)%nat || negb (bool_decide (k = take (length k) key)) then Ok ([], n, false)
          else
            let* (value, newnode, didResolve) := tryGet fuel val (prefix ++ k) (drop (length k) key) in
            Ok (value, if didResolve then shortNode k newnode (mkFlag (fHash fl) cachegen (dirty fl)) else n, didResolve)
      | fullNode cs fl =>
          match key with
          | [] => Panic
          | x :: key =>
              let* c := child cs x in
              let* (value, newnode, didResolve) := tryGet fuel c (prefix ++ [x]) key in
              Ok (value,
                  if didResolve then fullNode (<[index x := newnode]> cs) (mkFlag (fHash fl) cachegen (dirty fl)) else n,
                  didResolve)
          end
      | hashNode h =>
          let* c := resolveHash h prefix in
          let* (value, newnode, _) := tryGet fuel c prefix key in
          Ok (value, newnode, true)
      end
  end.

(** Whether anything changed, and the new node. *)
Fixpoint insert (fuel : nat) (n : node) (prefix key : list byte) (value : node) : result trieErr (bool * node) :=
  match fuel with
  | O => NoFuel
  | S fuel =>
      match key with
      | [] =>
          match n, value with
          | valueNode v, valueNode w => Ok (negb (bool_decide (v = w)), value)
          | valueNode v, _ => Panic
          | _, _ => Ok (true, value)
          end
      | x :: rest =>
          match n with
          | shortNode k val fl =>
              let matchlen := prefixLen key k in
              if (matchlen =? length k)%nat then
                let* (dirty, nn) := insert fuel val (prefix ++ take matchlen key) (drop matchlen key) value in
                Ok (if dirty then (true, shortNode k nn newFlag) else (false, n))
              else
                let* kx := deref (k !! matchlen) in
                let* x := deref (key !! matchlen) in
                let* (_, old) := insert fuel nilNode (prefix ++ take (matchlen + 1) k) (drop (matchlen + 1) k) val in
                let* (_, new) := insert fuel nilNode (prefix ++ take (matchlen + 1) key) (drop (matchlen + 1) key) value in
                let branch := fullNode (<[index x := new]> (<[index kx := old]> (replicate 17 nilNode))) newFlag in
                Ok (true, if (matchlen =? 0)%nat then branch else shortNode (take matchlen key) branch newFlag)
          | fullNode cs fl =>
              let* c := child cs x in
              let* (dirty, nn) := insert fuel c (prefix ++ [x]) rest value in
              Ok (if dirty then (true, fullNode (<[index x := nn]> cs) newFlag) else (false, n))
          | nilNode => Ok (true, shortNode key value newFlag)
          | hashNode h =>
              let* rn := resolveHash h prefix in
              let* (dirty, nn) := insert fuel rn prefix key value in
              Ok (if dirty then (true, nn) else (false, rn))
          | valueNode _ => Panic
          end
      end
  end.

(** The index of the only entry that is not nil: [-1] if there is none, [-2] if there are
    several. *)
Fixpoint onlyChild (cs : list node) (i pos : Z) : Z :=
  match cs with
  | [] => pos
  | c :: cs =>
      if isNil c then onlyChild cs (i + 1) pos
      else if pos =? -1 then onlyChild cs (i + 1) i
      else -2
  end.

(** Reduces a full node with a single entry to a short node. *)
Definition reduce (cs : list node) (prefix : list byte) : result trieErr node :=
  let pos := onlyChild cs 0 (-1) in
  if 0 <=? pos then
    let* only := deref (cs !! Z.to_nat pos) in
    let plain := shortNode [byte_of_Z pos] only newFlag in
    if negb (pos =? 16) then
      let* cnode := resolve only prefix in
      Ok match cnode with
         | shortNode k val _ => shortNode (byte_of_Z pos :: k) val newFlag
         | _ => plain
         end
    else Ok plain
  else Ok (fullNode cs newFlag).

Fixpoint delete (fuel : nat) (n : node) (prefix key : list byte) : result trieErr (bool * node) :=
  match fuel with
  | O => NoFuel
  | S fuel =>
      match n with
      | shortNode k val fl =>
          let matchlen := prefixLen key k in
          if (matchlen <? length k)%nat then Ok (false, n)
          else if (matchlen =? length key)%nat then Ok (true, nilNode)
          else
            let* (dirty, child) := delete fuel val (prefix ++ take (length k) key) (drop (length k) key) in
            Ok (if dirty then
                  (true, match child with
                         | shortNode k' val' _ => shortNode (k ++ k') val' newFlag
                         | _ => shortNode k child newFlag
                         end)
                else (false, n))
      | fullNode cs fl =>
          match key with
          | [] => Panic
          | x :: rest =>
              let* c := child cs x in
              let* (dirty, nn) := delete fuel c (prefix ++ [x]) rest in
              if dirty then let* n := reduce (<[index x := nn]> cs) prefix in Ok (true, n)
              else Ok (false, n)
          end
      | valueNode _ => Ok (true, nilNode)
      | nilNode => Ok (false, nilNode)
      | hashNode h =>
          let* rn := resolveHash h prefix in
          let* (dirty, nn) := delete fuel rn prefix key in
          Ok (if dirty then (true, nn) else (false, rn))
      end
  end.

End Walks.

(** A walk visits at most two nodes, a hash and what it stands for, for each nibble of
    the key. *)
Definition walkFuel (key : list byte) : nat := 2 * length key + 2.

Definition New (h : Hash) (db : triedb.Database) : result trieErr Trie :=
  if (h =? 0) || (h =? emptyRoot) then Ok (mkTrie nilNode h 0 0)
  else
    let* rootnode := resolveHash db 0 (HashBytes h) [] in
    Ok (mkTrie rootnode h 0 0).

(** The value, empty if there is none, and the trie with the nodes that were loaded. *)
Definition TryGet (db : triedb.Database) (t : Trie) (key : list byte) : result trieErr (list byte * Trie) :=
  let k := keybytesToHex key in
  let* (value, newroot, didResolve) := tryGet db (cachegen t) (walkFuel k) (root t) [] k in
  Ok (value, if didResolve then setRoot newroot t else t).

Definition TryDelete (db : triedb.Database) (t : Trie) (key : list byte) : result trieErr Trie :=
  let k := keybytesToHex key in
  let* (_, n) := delete db (cachegen t) (walkFuel k) (root t) [] k in
  Ok (setRoot n t).

Definition TryUpdate (db : triedb.Database) (t : Trie) (key value : list byte) : result trieErr Trie :=
  let k := keybytesToHex key in
  let* (_, n) :=
    if negb (Z.of_nat (length value) =? 0)
    then insert db (cachegen t) (walkFuel k) (root t) [] k (valueNode value)
    else delete db (cachegen t) (walkFuel k) (root t) [] k in
  Ok (setRoot n t).

(** ** hasher.go *)

Section Hashing.
Context `{Crypto}.
Variables hcachegen hcachelimit : Z.

(** Called for every leaf and the hash of its parent; the error it returns is ignored. *)
Notation LeafCallback := (list byte -> Hash -> triedb.Database -> result triedb.dbErr triedb.Database).
Variable onleaf : option LeafCallback.

Notation step := (triedb.Database -> result triedb.dbErr triedb.Database).

(** The references from a node to the nodes below it. *)
Definition referenceChild (parent : Hash) (c : node) : step :=
  match c with
  | hashNode h => triedb.reference (BytesToHash h) parent
  | _ => fun db => Ok db
  end.
Definition referenceChildren (parent : Hash) (n : node) : step :=
  match n with
  | shortNode _ val _ => referenceChild parent val
  | fullNode cs _ => triedb.forEach (referenceChild parent) (take 16 cs)
  | _ => fun db => Ok db
  end.

Definition leafChild (parent : Hash) (c : node) : step :=
  match onleaf, c with
  | Some f, valueNode ((_ :: _) as v) => f v parent
  | _, _ => fun db => Ok db
  end.
Definition leafChildren (parent : Hash) (n : node) : step :=
  match n with
  | shortNode _ val _ => leafChild parent val
  | fullNode cs _ => triedb.forEach (leafChild parent) (take 16 cs)
  | _ => fun db => Ok db
  end.

(** A node of 32 bytes or more is replaced by its hash, and inserted into the database if
    there is one. *)
Definition store (n : node) (db : option triedb.Database) (force : bool) : result triedb.dbErr (node * option triedb.Database) :=
  match n with
  | nilNode | hashNode _ => Ok (n, db)
  | _ =>
      let enc := rlpEncode (nodeRLP n) in
      if (Z.of_nat (length enc) <? 32) && negb force then Ok (n, db)
      else
        let hash := match (cache n).1 with Some h => h | None => HashBytes (Keccak256 enc) end in
        match db with
        | None => Ok (hashNode hash, None)
        | Some db =>
            let h := BytesToHash hash in
            let* db := triedb.insert h enc db in
            let* db := referenceChildren h n db in
            let* db := leafChildren h n db in
            Ok (hashNode hash, Some db)
        end
  end.

(** What [hash] answers without walking the children. *)
Definition cachedHash (n : node) (storing : bool) : option (node * node) :=
  match (cache n).1 with
  | None => None
  | Some h =>
      if negb storing then Some (hashNode h, n)
      else if canUnload n hcachegen hcachelimit then Some (hashNode h, hashNode h)
      else if negb (cache n).2 then Some (hashNode h, n)
      else None
  end.

Definition withHash (hashed : node) (storing : bool) (fl : nodeFlag) : nodeFlag :=
  mkFlag (match hashed with hashNode h => Some h | _ => None end) (gen fl) (if storing then false else dirty fl).
Definition cacheHash (hashed : node) (storing : bool) (cached : node) : node :=
  match cached with
  | shortNode k val fl => shortNode k val (withHash hashed storing fl)
  | fullNode cs fl => fullNode cs (withHash hashed storing fl)
  | _ => cached
  end.

(** Nil children are encoded as empty strings. *)
Definition orEmpty (n : node) : node := if isNil n then valueNode [] else n.

Definition isSome {A} (o : option A) : bool := match o with Some _ => true | None => false end.

(** The children of a full node: a value is left as it is. *)
Fixpoint hashKids (hashChild : node -> option triedb.Database -> result triedb.dbErr (node * node * option triedb.Database))
    (i : nat) (cs : list node) (db : option triedb.Database) : result triedb.dbErr (list node * list node * option triedb.Database) :=
  match cs with
  | [] => Ok ([], [], db)
  | c :: cs =>
      let* (cc, kc, db) := if (i <? 16)%nat && negb (isNil c) then hashChild c db else Ok (orEmpty c, c, db) in
      let* (ccs, kcs, db) := hashKids hashChild (S i) cs db in
      Ok (cc :: ccs, kc :: kcs, db)
  end.

(** The node with its children collapsed, and with the hashes of its children cached. *)
Definition hashChildren (hashChild : node -> option triedb.Database -> result triedb.dbErr (node * node * option triedb.Database))
    (n : node) (db : option triedb.Database) : result triedb.dbErr (node * node * option triedb.Database) :=
  match n with
  | shortNode key val fl =>
      let* (cval, kval, db) := match val with valueNode _ => Ok (val, val, db) | _ => hashChild val db end in
      Ok (shortNode (hexToCompact key) (orEmpty cval) fl, shortNode key kval fl, db)
  | fullNode cs fl =>
      let* (ccs, kcs, db) := hashKids hashChild 0 cs db in
      Ok (fullNode ccs fl, fullNode kcs fl, db)
  | nilNode => Panic
  | _ => Ok (n, n, db)
  end.

(** The hash or the collapsed node, the node with its hash cached, and the database. *)
Fixpoint hash (n : node) (db : option triedb.Database) (force : bool) {struct n}
    : result triedb.dbErr (node * node * option triedb.Database) :=
  match cachedHash n (isSome db) with
  | Some (hashed, cached) => Ok (hashed, cached, db)
  | None =>
      let* (collapsed, cached, db') := hashChildren (fun c db => hash c db false) n db in
      let* (hashed, db') := store collapsed db' force in
      Ok (hashed, cacheHash hashed (isSome db) cached, db')
  end.
End Hashing.

Section Roots.
Context `{Crypto}.

Definition hashRoot (t : Trie) (db : option triedb.Database)
    (onleaf : option (list byte -> Hash -> triedb.Database -> result triedb.dbErr triedb.Database))
    : result triedb.dbErr (node * node * option triedb.Database) :=
  match root t with
  | nilNode => Ok (hashNode (HashBytes emptyRoot), nilNode, db)
  | n => hash (cachegen t) (cachelimit t) onleaf n db true
  end.

(** [hash.(hashNode)] panics on another node. *)
Definition asHash (n : node) : result triedb.dbErr Hash :=
  match n with hashNode h => Ok (BytesToHash h) | _ => Panic end.

Definition rootHash (t : Trie) : result triedb.dbErr (Hash * Trie) :=
  let* (hashed, cached, _) := hashRoot t None None in
  let* h := asHash hashed in
  Ok (h, setRoot cached t).

Definition Commit (t : Trie)
    (onleaf : option (list byte -> Hash -> triedb.Database -> result triedb.dbErr triedb.Database))
    (db : triedb.Database) : result triedb.dbErr (Hash * Trie * triedb.Database) :=
  let* (hashed, cached, db') := hashRoot t (Some db) onleaf in
  let* h := asHash hashed in
  Ok (h, mkTrie cached (originalRoot t) (u16 (cachegen t + 1)) (cachelimit t), default db db').
End Roots.

End trie.

(** ** secure_trie.go: keys are hashed *)

Module securetrie.
Section Secure.
Context `{Crypto}.

(** The cache of preimages belongs to a copy only once that has made its own. *)
Record SecureTrie := mkSecure { strie : trie.Trie; secKeyCache : gmap (list byte) (list byte); ownsCache : bool }.

Definition setTrie (t : trie.Trie) (s : SecureTrie) : SecureTrie := mkSecure t (secKeyCache s) (ownsCache s).

Definition NewSecure (root : Hash) (db : triedb.Database) (cachelimit : Z) : result trie.trieErr SecureTrie :=
  let* t := trie.New root db in
  Ok (mkSecure (trie.SetCacheLimit cachelimit t) ∅ false).

Definition getSecKeyCache (s : SecureTrie) : SecureTrie := if ownsCache s then s else mkSecure (strie s) ∅ true.

Definition hashKey (key : list byte) : list byte := HashBytes (Keccak256 key).

Definition TryGet (db : triedb.Database) (s : SecureTrie) (key : list byte) : result trie.trieErr (list byte * SecureTrie) :=
  let* (v, t) := trie.TryGet db (strie s) (hashKey key) in
  Ok (v, setTrie t s).

Definition TryUpdate (db : triedb.Database) (s : SecureTrie) (key value : list byte) : result trie.trieErr SecureTrie :=
  let hk := hashKey key in
  let* t := trie.TryUpdate db (strie s) hk value in
  let s := getSecKeyCache (setTrie t s) in
  Ok (mkSecure (strie s) (<[hk := key]> (secKeyCache s)) (ownsCache s)).

Definition TryDelete (db : triedb.Database) (s : SecureTrie) (key : list byte) : result trie.trieErr SecureTrie :=
  let hk := hashKey key in
  let s := getSecKeyCache s in
  let s := mkSecure (strie s) (delete hk (secKeyCache s)) (ownsCache s) in
  let* t := trie.TryDelete db (strie s) hk in
  Ok (setTrie t s).

Definition GetKey (db : triedb.Database) (s : SecureTrie) (shaKey : list byte) : option (list byte) :=
  match secKeyCache (getSecKeyCache s) !! shaKey with
  | Some key => Some key
  | None => triedb.preimage (BytesToHash shaKey) db
  end.

Definition Commit (s : SecureTrie)
    (onleaf : option (list byte -> Hash -> triedb.Database -> result triedb.dbErr triedb.Database))
    (db : triedb.Database) : result triedb.dbErr (Hash * SecureTrie * triedb.Database) :=
  let s := getSecKeyCache s in
  let db := foldl (fun db '(hk, key) => triedb.insertPreimage (BytesToHash hk) key db) db (map_to_list (secKeyCache s)) in
  let* (root, t, db) := trie.Commit (strie s) onleaf db in
  Ok (root, mkSecure t ∅ (ownsCache s), db).

Definition rootHash (s : SecureTrie) : result triedb.dbErr (Hash * SecureTrie) :=
  let* (h, t) := trie.rootHash (strie s) in
  Ok (h, setTrie t s).

Definition Copy (s : SecureTrie) : SecureTrie := mkSecure (strie s) (secKeyCache s) false.
End Secure.
End securetrie.
