(* ===== verification/TrieTree.v ===== *)
(** * Package trie: tries as trees

    The trees that tries stand for once all their nodes are loaded, without caches: the
    contents as a map from keys, the shape that insertions and deletions keep, and that
    this shape is canonical: the contents determine the tree.  TrieWalk.v shows that the
    operations of trie.go, on nodes that are partly in the database, are the operations
    here. *)

From stdpp Require Import base numbers list option.
From Stdlib Require Import ZArith Lia Strings.Byte.
From S2P Require Import Prelude Common Trie.
Import trie.

(** ** Bytes as indices *)

Lemma index_inj x y : index x = index y -> x = y.
Proof. unfold index. intros E. apply byte_to_Z_inj. pose proof (byte_to_Z_range x). pose proof (byte_to_Z_range y). lia. Qed.

Lemma index_of_Z z : 0 <= z < 256 -> index (byte_of_Z z) = Z.to_nat z.
Proof. intros Hz. unfold index. by rewrite byte_to_of_Z, Z.mod_small. Qed.

Definition nibble (x : byte) : Prop := byte_to_Z x < 16.

Lemma nibble_index x : nibble x <-> (index x < 16)%nat.
Proof. unfold nibble, index. pose proof (byte_to_Z_range x). lia. Qed.

Lemma index_terminator : index terminator = 16%nat.
Proof. done. Qed.

Lemma terminator_index x : index x = 16%nat -> x = terminator.
Proof. intros E. by apply index_inj. Qed.

(** ** Keys *)

(** Nibbles with the terminator at the end. *)
Fixpoint hexKey (key : list byte) : Prop :=
  match key with
  | [] => False
  | x :: rest => (x = terminator /\ rest = []) \/ (nibble x /\ hexKey rest)
  end.

Lemma hexKey_index x rest : hexKey (x :: rest) -> (index x < 17)%nat.
Proof. intros [[-> _]|[Hx _]]; [rewrite index_terminator; lia|]. apply nibble_index in Hx. lia. Qed.

Lemma hexKey_app l rest : Forall nibble l -> hexKey (l ++ rest) <-> hexKey rest.
Proof.
  induction 1 as [|x l Hx _ IH]; [done|]. cbn [app hexKey]. rewrite IH. split; [|auto].
  intros [[-> _]|[_ H]]; [done|done].
Qed.

Lemma hexKey_nibbles l rest : rest <> [] -> hexKey (l ++ rest) -> Forall nibble l /\ hexKey rest.
Proof.
  intros Hr. induction l as [|x l IH]; cbn [app hexKey]; [done|].
  intros [[_ E]|[Hx H]]; [by apply app_nil in E as [_ ->]|]. destruct (IH H) as [Hl Hk]. by split; [apply Forall_cons|].
Qed.

(** No key is a proper prefix of another. *)
Lemma hexKey_prefix_free k r : hexKey k -> hexKey (k ++ r) -> r = [].
Proof.
  induction k as [|x k IH]; [done|]. cbn [app hexKey]. intros [[-> ->]|[Hx Hk]] [[E1 E2]|[Hx' H]]; [done|done| |by apply IH].
  subst x. done.
Qed.

Lemma drop_middle (p : list byte) x r : drop (length p + 1) (p ++ x :: r) = r.
Proof. rewrite <- drop_drop, drop_app_length. done. Qed.

(** What is left of a key after a prefix. *)
Fixpoint strip (k key : list byte) : option (list byte) :=
  match k, key with
  | [], _ => Some key
  | x :: k, y :: key => if bool_decide (x = y) then strip k key else None
  | _ :: _, [] => None
  end.

Lemma strip_Some k key r : strip k key = Some r <-> key = k ++ r.
Proof.
  revert key. induction k as [|x k IH]; intros key; cbn [strip app]; [split; [by intros [= ->]|by intros ->]|].
  destruct key as [|y key]; [done|]. case_bool_decide as E; [subst; rewrite IH; split; [by intros ->|by intros [= ->]]|].
  split; [done|]. intros [= -> _]. done.
Qed.

Lemma strip_app k k' key : strip (k ++ k') key = r ← strip k key; strip k' r.
Proof.
  revert key. induction k as [|x k IH]; intros key; [done|]. cbn [strip app]. destruct key as [|y key]; [done|].
  case_bool_decide; [apply IH|done].
Qed.

Lemma strip_self k r : strip k (k ++ r) = Some r.
Proof. by apply strip_Some. Qed.

(** The common prefix. *)
Lemma prefixLen_split a b :
  exists p, prefixLen a b = length p /\ a = p ++ drop (length p) a /\ b = p ++ drop (length p) b /\
    (head (drop (length p) a) = head (drop (length p) b) -> drop (length p) a = [] /\ drop (length p) b = []).
Proof.
  revert b. induction a as [|x a IH]; intros b.
  - exists []. cbn. split_and!; [done..|]. by destruct b.
  - destruct b as [|y b]; [by exists []|]. cbn [prefixLen]. case_bool_decide as E.
    + subst y. destruct (IH b) as (p & E1 & E2 & E3 & E4). exists (x :: p). cbn [length drop app].
      split_and!; [by rewrite E1|by rewrite <- E2|by rewrite <- E3|done].
    + exists []. cbn. split_and!; [done..|]. by intros [= ?].
Qed.

(** Either the second is a prefix of the first, or the first of the second, or they part. *)
Lemma prefixLen_cases key k :
  (exists r, key = k ++ r /\ prefixLen key k = length k) \/
  (exists r, r <> [] /\ k = key ++ r /\ prefixLen key k = length key) \/
  (exists p x y r s, key = p ++ x :: r /\ k = p ++ y :: s /\ x <> y /\ prefixLen key k = length p).
Proof.
  destruct (prefixLen_split key k) as (p & E & Ea & Eb & Hne). rewrite E. revert Ea Eb Hne.
  generalize (drop (length p) key) as a, (drop (length p) k) as b. intros a b Ea Eb Hne. subst key k.
  destruct a as [|x a], b as [|y b].
  - left. exists []. by rewrite !app_nil_r.
  - right. left. exists (y :: b). by rewrite !app_nil_r.
  - left. exists (x :: a). by rewrite !app_nil_r.
  - right. right. exists p, x, y, a, b. split_and!; [done..| |done]. intros ->. by destruct (Hne eq_refl).
Qed.

Lemma alter_insert {A} (f : A -> A) (l : list A) i x : l !! i = Some x -> alter f i l = <[i := f x]> l.
Proof.
  intros Hx. apply list_eq. intros j. destruct (decide (j = i)) as [->|Hj].
  - rewrite list_lookup_alter_eq, Hx, list_lookup_insert_eq by (by eapply lookup_lt_Some). done.
  - by rewrite list_lookup_alter_ne, list_lookup_insert_ne.
Qed.

(** ** Trees *)

Inductive tree :=
| TNil
| TValue (v : list byte)
| TShort (k : list byte) (t : tree)
| TFull (ts : list tree).

Definition tnil (t : tree) : bool := match t with TNil => true | _ => false end.

#[global] Instance TNil_dec t : Decision (t = TNil).
Proof. destruct t; [left|right..]; done. Defined.

(** The value under a key: empty when there is none. *)
Fixpoint tget (t : tree) (key : list byte) {struct t} : list byte :=
  match t with
  | TNil => []
  | TValue v => match key with [] => v | _ => [] end
  | TShort k t => match strip k key with Some r => tget t r | None => [] end
  | TFull ts =>
      match key with
      | [] => []
      | x :: rest =>
          (fix pick (i : nat) (ts : list tree) {struct ts} : list byte :=
             match ts with
             | [] => []
             | t :: ts => match i with O => tget t rest | S i => pick i ts end
             end) (index x) ts
      end
  end.

Lemma tget_full ts x rest : tget (TFull ts) (x :: rest) = match ts !! index x with Some t => tget t rest | None => [] end.
Proof.
  cbn [tget]. generalize (index x) as i. induction ts as [|t ts IH]; intros [|i]; cbn [lookup list_lookup]; [done..|]. apply IH.
Qed.

(** Two different entries. *)
Definition branches (ts : list tree) : Prop :=
  exists i j t u, i <> j /\ ts !! i = Some t /\ ts !! j = Some u /\ t <> TNil /\ u <> TNil.

Definition isValue (t : tree) : Prop := exists v, v <> [] /\ t = TValue v.

(** Subtrees: leaves, extensions of full nodes, and full nodes of 16 subtrees and a value,
    at least two of which are there. *)
Inductive sub : tree -> Prop :=
| sub_leaf k v : hexKey k -> v <> [] -> sub (TShort k (TValue v))
| sub_ext k ts : k <> [] -> Forall nibble k -> sub (TFull ts) -> sub (TShort k (TFull ts))
| sub_full ts :
    length ts = 17%nat ->
    (forall i t, ts !! i = Some t -> t <> TNil -> (i < 16)%nat -> sub t) ->
    (forall t, ts !! 16%nat = Some t -> t <> TNil -> isValue t) ->
    branches ts ->
    sub (TFull ts).

(** The root of a trie. *)
Definition canonical (t : tree) : Prop := t = TNil \/ sub t.

(** What may be found where the rest of a key is [key]. *)
Definition sits (key : list byte) (t : tree) : Prop :=
  match key with
  | [] => t = TNil \/ isValue t
  | _ => hexKey key /\ canonical t
  end.

Lemma sits_child ts x rest t :
  sub (TFull ts) -> hexKey (x :: rest) -> ts !! index x = Some t -> sits rest t.
Proof.
  intros Hs Hk Ht. inversion_clear Hs as [| |? Hl H1 H2 _]. destruct (decide (t = TNil)) as [->|Hn].
  { destruct Hk as [[_ ->]|[_ Hk]]; [by left|]. destruct rest; [done|]. split; [done|by left]. }
  destruct Hk as [[-> ->]|[Hx Hk]].
  - right. by apply H2.
  - destruct rest; [done|]. split; [done|]. right. apply nibble_index in Hx. by eapply H1.
Qed.

Lemma full_child ts x rest : sub (TFull ts) -> hexKey (x :: rest) -> exists t, ts !! index x = Some t /\ sits rest t.
Proof.
  intros Hs Hk. pose proof Hs as Hs'. inversion Hs' as [| |? Hl]; subst. apply hexKey_index in Hk as Hi.
  destruct (lookup_lt_is_Some_2 ts (index x)) as [t Ht]; [lia|]. exists t. split; [done|]. by eapply sits_child.
Qed.

(** ** The contents determine the tree *)

(** Every subtree holds a value, and every entry of a full node does. *)
Lemma sub_inhabited t : sub t -> exists key, hexKey key /\ tget t key <> [].
Proof.
  assert (Hfull : forall ts i u key, ts !! i = Some u -> (i < 256)%nat -> tget u key <> [] -> tget (TFull ts) (byte_of_Z (Z.of_nat i) :: key) <> []).
  { intros ts i u key Hu Hi Hk. rewrite tget_full, index_of_Z, Nat2Z.id, Hu by lia. done. }
  induction 1 as [k v Hk Hv|k ts Hne Hk _ (key & Hh & Hg)|ts Hl Hs IH H16 (i & j & t & u & Hij & Ht & Hu & Htn & Hun)].
  - exists k. split; [done|]. cbn [tget]. by rewrite <- (app_nil_r k) at 2; rewrite strip_self.
  - exists (k ++ key). split; [by apply hexKey_app|]. cbn [tget]. by rewrite strip_self.
  - assert (Hlt : (i < 17)%nat) by (rewrite <- Hl; by eapply lookup_lt_Some).
    destruct (decide (i = 16%nat)) as [->|Hi].
    + destruct (H16 t Ht Htn) as (v & Hv & ->). exists [terminator]. split; [by left|]. by apply (Hfull ts 16%nat _ [] Ht); [lia|].
    + destruct (IH i t Ht Htn ltac:(lia)) as (key & Hh & Hg). exists (byte_of_Z (Z.of_nat i) :: key). split.
      * right. split; [|done]. apply nibble_index. rewrite index_of_Z; lia.
      * apply (Hfull ts i t); [done|lia|done].
Qed.

Lemma entry_inhabited ts i t :
  sub (TFull ts) -> ts !! i = Some t -> t <> TNil ->
  exists x rest, index x = i /\ hexKey (x :: rest) /\ tget (TFull ts) (x :: rest) <> [].
Proof.
  intros Hs Ht Hn. inversion_clear Hs as [| |? Hl H1 H2 _].
  assert (Hlt : (i < 17)%nat) by (rewrite <- Hl; by eapply lookup_lt_Some).
  destruct (decide (i = 16%nat)) as [->|Hi].
  - destruct (H2 t Ht Hn) as (v & Hv & ->). exists terminator, []. split_and!; [done|by left|].
    rewrite tget_full. by rewrite index_terminator, Ht.
  - destruct (sub_inhabited t) as (key & Hh & Hg); [eapply H1; [done|done|lia]|].
    exists (byte_of_Z (Z.of_nat i)), key. rewrite tget_full, index_of_Z, Nat2Z.id by lia. split_and!; [done| |by rewrite Ht].
    right. split; [|done]. apply nibble_index. rewrite index_of_Z; lia.
Qed.

Definition sameContent (t u : tree) : Prop := forall key, hexKey key -> tget t key = tget u key.

Lemma tget_short_Some k t key : tget (TShort k t) key <> [] -> exists r, key = k ++ r /\ tget t r <> [].
Proof. cbn [tget]. destruct (strip k key) as [r|] eqn:E; [|done]. apply strip_Some in E. eauto. Qed.

Lemma tget_short_app k t r : tget (TShort k t) (k ++ r) = tget t r.
Proof. cbn [tget]. by rewrite strip_self. Qed.

(** Two keys of a full node part at the first nibble. *)
Lemma full_parts ts :
  sub (TFull ts) -> exists x y r s, x <> y /\ hexKey (x :: r) /\ hexKey (y :: s) /\
    tget (TFull ts) (x :: r) <> [] /\ tget (TFull ts) (y :: s) <> [].
Proof.
  intros Hs. pose proof Hs as Hs'. inversion Hs' as [| |? _ _ _ (i & j & t & u & Hij & Ht & Hu & Htn & Hun)]; subst.
  destruct (entry_inhabited ts i t Hs Ht Htn) as (x & r & <- & Hx & Hgx).
  destruct (entry_inhabited ts j u Hs Hu Hun) as (y & s & <- & Hy & Hgy).
  exists x, y, r, s. split_and!; try done. by intros ->.
Qed.

(** A full node and a short node differ: all keys of the short node begin alike. *)
Lemma short_not_full k t ts : k <> [] -> sub (TFull ts) -> ~ sameContent (TShort k t) (TFull ts).
Proof.
  intros Hk Hs Hc. destruct (full_parts ts Hs) as (x & y & r & s & Hxy & Hx & Hy & Hgx & Hgy).
  rewrite <- Hc in Hgx, Hgy by done. apply tget_short_Some in Hgx as (r1 & E1 & _), Hgy as (r2 & E2 & _).
  destruct k as [|z k]; [done|]. injection E1 as -> _. injection E2 as -> _. done.
Qed.

(** The key of an extension is the longest common prefix. *)
Lemma ext_key_le k k' ts t' :
  Forall nibble k -> sub (TFull ts) -> sameContent (TShort k (TFull ts)) (TShort k' t') -> exists r, k = k' ++ r.
Proof.
  intros Hk Hs Hc. destruct (full_parts ts Hs) as (x & y & r & s & Hxy & Hx & Hy & Hgx & Hgy).
  assert (H : forall key, hexKey key -> tget (TFull ts) key <> [] -> exists q, k ++ key = k' ++ q).
  { intros key Hkey Hg. destruct (tget_short_Some k' t' (k ++ key)) as (q & E & _); [|eauto].
    rewrite <- Hc by (by apply hexKey_app). by rewrite tget_short_app. }
  destruct (H _ Hx Hgx) as (q1 & E1), (H _ Hy Hgy) as (q2 & E2).
  destruct (prefixLen_cases k k') as [(q & -> & _)|[(q & Hq & -> & _)|(p & a & b & q1' & q2' & -> & -> & Hab & _)]]; [eauto| |].
  - rewrite <- app_assoc in E1, E2. apply app_inv_head in E1, E2. destruct q as [|z q]; [done|]. injection E1 as -> _. by injection E2 as -> _.
  - rewrite <- !app_assoc in E1. apply app_inv_head in E1. by injection E1 as -> _.
Qed.

Lemma tget_short_inj k t u :
  sameContent (TShort k t) (TShort k u) -> Forall nibble k -> sameContent t u.
Proof. intros Hc Hk key Hkey. specialize (Hc (k ++ key)). rewrite !tget_short_app in Hc. apply Hc. by apply hexKey_app. Qed.

Lemma leaf_not_ext k v k' ts : hexKey k -> Forall nibble k' -> sub (TFull ts) -> ~ sameContent (TShort k (TValue v)) (TShort k' (TFull ts)).
Proof.
  intros Hk Hk' Hs Hc. destruct (full_parts ts Hs) as (x & y & r & s & Hxy & Hx & Hy & Hgx & Hgy).
  assert (H : forall key, hexKey key -> tget (TFull ts) key <> [] -> k' ++ key = k).
  { intros key Hkey Hg. destruct (tget_short_Some k (TValue v) (k' ++ key)) as (q & E & Hq).
    - rewrite Hc by (by apply hexKey_app). by rewrite tget_short_app.
    - cbn in Hq. destruct q; [by rewrite app_nil_r in E|done]. }
  pose proof (H _ Hx Hgx) as E1. pose proof (H _ Hy Hgy) as E2. rewrite <- E2 in E1. apply app_inv_head in E1. by injection E1 as ->.
Qed.

Lemma leaf_determined k v k' v' :
  hexKey k -> v <> [] -> sameContent (TShort k (TValue v)) (TShort k' (TValue v')) -> k = k' /\ v = v'.
Proof.
  intros Hk Hv Hc. pose proof (Hc k Hk) as E. rewrite <- (app_nil_r k) in E at 2. rewrite tget_short_app in E. cbn [tget] in E.
  destruct (strip k' k) as [r|] eqn:Er; [|done]. apply strip_Some in Er. destruct r as [|x r]; [|done].
  rewrite app_nil_r in Er. by split.
Qed.

Lemma TNil_content t : sub t -> ~ sameContent TNil t.
Proof. intros Hs Hc. destruct (sub_inhabited t Hs) as (key & Hk & Hg). by rewrite <- Hc in Hg. Qed.

Lemma sameContent_sym t u : sameContent t u -> sameContent u t.
Proof. intros H key Hk. symmetry. by apply H. Qed.

(** Entries of full nodes with the same contents have the same contents. *)
Lemma full_entry ts us i t u :
  sub (TFull ts) -> sub (TFull us) -> sameContent (TFull ts) (TFull us) ->
  (forall t u, ts !! i = Some t -> (i < 16)%nat -> sub t -> sub u -> sameContent t u -> t = u) ->
  ts !! i = Some t -> us !! i = Some u -> t = u.
Proof.
  intros Ht Hu Hc IH Et Eu. inversion_clear Ht as [| |? Hl H1 H2 _]. inversion_clear Hu as [| |? Hl' H1' H2' _].
  assert (Hlt : (i < 17)%nat) by (rewrite <- Hl; by eapply lookup_lt_Some).
  assert (Hi : index (byte_of_Z (Z.of_nat i)) = i) by (rewrite index_of_Z; lia).
  assert (Hg : forall key, hexKey (byte_of_Z (Z.of_nat i) :: key) -> tget t key = tget u key).
  { intros key Hk. specialize (Hc _ Hk). rewrite !tget_full, Hi, Et, Eu in Hc. done. }
  destruct (decide (i = 16%nat)) as [->|Hn].
  - specialize (Hg [] ltac:(by left)). specialize (H2 t Et). specialize (H2' u Eu).
    destruct (decide (t = TNil)) as [->|Htn]; [|destruct (H2 Htn) as (v & Hv & ->)];
      (destruct (decide (u = TNil)) as [->|Hun]; [|destruct (H2' Hun) as (v' & Hv' & ->)]); cbn in Hg; congruence.
  - assert (Hc' : sameContent t u).
    { intros key Hk. apply Hg. right. split; [|done]. apply nibble_index. lia. }
    destruct (decide (t = TNil)) as [->|Htn], (decide (u = TNil)) as [->|Hun]; [done|..].
    + exfalso. eapply TNil_content; [|exact Hc']. eapply H1'; [done|done|lia].
    + exfalso. eapply TNil_content; [|apply sameContent_sym, Hc']. eapply H1; [done|done|lia].
    + eapply IH; [done|lia|eapply H1|eapply H1'|done]; done || lia.
Qed.

Lemma sub_determined t : sub t -> forall u, sub u -> sameContent t u -> t = u.
Proof.
  induction 1 as [k v Hk Hv|k ts Hne Hk Hs IH|ts Hl Hs IH H16 Hb]; intros u Hu Hc.
  - inversion Hu as [k' v' Hk' Hv'|k' ts' Hne' Hk' Hs'|ts' Hl' Hs' H16' Hb']; subst.
    + by destruct (leaf_determined _ _ _ _ Hk Hv Hc) as [-> ->].
    + exfalso. by eapply (leaf_not_ext k v k' ts').
    + exfalso. eapply short_not_full; [|exact Hu|exact Hc]. by intros ->.
  - inversion Hu as [k' v' Hk' Hv'|k' ts' Hne' Hk' Hs'|ts' Hl' Hs' H16' Hb']; subst.
    + exfalso. eapply (leaf_not_ext k' v' k ts); [done..|]. by apply sameContent_sym.
    + destruct (ext_key_le _ _ _ _ Hk Hs Hc) as (r & Er). apply sameContent_sym in Hc as Hc'.
      destruct (ext_key_le _ _ _ _ Hk' Hs' Hc') as (r' & Er'). rewrite Er, <- app_assoc in Er'.
      rewrite <- (app_nil_r k') in Er' at 1. apply app_inv_head in Er'. symmetry in Er'. apply app_nil in Er' as [-> ->].
      rewrite app_nil_r in Er. subst k'. f_equal. apply IH; [done|]. by eapply tget_short_inj.
    + exfalso. by eapply short_not_full; [|exact Hu|exact Hc].
  - inversion Hu as [k' v' Hk' Hv'|k' ts' Hne' Hk' Hs'|ts' Hl' Hs' H16' Hb']; subst.
    + exfalso. apply sameContent_sym in Hc. eapply short_not_full; [|by apply sub_full|exact Hc]. by intros ->.
    + exfalso. apply sameContent_sym in Hc. by eapply short_not_full; [|by apply sub_full|exact Hc].
    + f_equal. apply list_eq_same_length with 17%nat; [done|done|]. intros i t u _ Ht Hu'.
      eapply (full_entry ts ts' i); [by apply sub_full|done|done| |done|done].
      intros t0 u0 Ht0 Hi Hst Hsu Hc0. eapply IH; [done| |done|done|done]. by intros ->; inversion Hst.
Qed.

(** Two tries with the same contents are the same tree. *)
Lemma canonical_determined t u : canonical t -> canonical u -> sameContent t u -> t = u.
Proof.
  intros [->|Ht] [->|Hu] Hc; [done|..].
  - by destruct (TNil_content u Hu).
  - by destruct (TNil_content t Ht); apply sameContent_sym.
  - by apply sub_determined.
Qed.

(** ** Insertion *)

Definition under (k : list byte) (t : tree) : tree := match k with [] => t | _ => TShort k t end.

Definition branchAt (y x : byte) (old new : tree) : tree :=
  TFull (<[index x := new]> (<[index y := old]> (replicate 17 TNil))).

Fixpoint tinsert (t : tree) (key v : list byte) {struct t} : tree :=
  match t with
  | TNil => under key (TValue v)
  | TValue _ => TValue v
  | TShort k u =>
      let m := prefixLen key k in
      if (m =? length k)%nat then TShort k (tinsert u (drop m key) v)
      else
        match k !! m, key !! m with
        | Some y, Some x =>
            under (take m key) (branchAt y x (under (drop (m + 1) k) u) (under (drop (m + 1) key) (TValue v)))
        | _, _ => t
        end
  | TFull ts =>
      match key with
      | [] => t
      | x :: rest => TFull (alter (fun u => tinsert u rest v) (index x) ts)
      end
  end.

Lemma tget_under k t key : tget (under k t) key = tget (TShort k t) key.
Proof. by destruct k. Qed.

(** An entry of a full node. *)
Definition entryOk (i : nat) (t : tree) : Prop :=
  (i < 17)%nat /\ t <> TNil /\ ((i < 16)%nat -> sub t) /\ (i = 16%nat -> isValue t).

Lemma short_tail p y s u : sub (TShort (p ++ y :: s) u) -> Forall nibble p /\ entryOk (index y) (under s u).
Proof.
  intros Hs. inversion Hs as [k v Hk Hv|k ts Hne Hk Ht|]; subst.
  - apply hexKey_nibbles in Hk as [Hp [[-> ->]|[Hy Hk]]]; [| |done]; (split; [done|]).
    + split_and!; [rewrite index_terminator; lia|done| |by eexists]. rewrite index_terminator. lia.
    + apply nibble_index in Hy. destruct s as [|z s]; [done|]. split_and!; [lia|done|by constructor|lia].
  - apply Forall_app in Hk as [Hp [Hy Hk]%Forall_cons_1]. split; [done|]. apply nibble_index in Hy.
    split_and!; [lia|by destruct s| |lia]. intros _. destruct s as [|z s]; [done|]. by constructor.
Qed.

Lemma sub_under p ts : Forall nibble p -> sub (TFull ts) -> sub (under p (TFull ts)).
Proof. intros Hp Hs. destruct p; [done|]. by constructor. Qed.

Lemma sub_entries ts :
  length ts = 17%nat -> (forall i t, ts !! i = Some t -> t <> TNil -> entryOk i t) -> branches ts -> sub (TFull ts).
Proof.
  intros Hl He Hb. constructor; [done| | |done].
  - intros i t Ht Hn Hi. by apply (He i t Ht Hn).
  - intros t Ht Hn. by apply (He _ t Ht Hn).
Qed.

Lemma entry_ok ts i t : sub (TFull ts) -> ts !! i = Some t -> t <> TNil -> entryOk i t.
Proof.
  intros Hs Ht Hn. inversion_clear Hs as [| |? Hl H1 H2 _]. apply lookup_lt_Some in Ht as Hi.
  split_and!; [lia|done| |]; [intros; by eapply H1|intros ->; by apply H2].
Qed.

Lemma sub_branchAt y x old new : x <> y -> entryOk (index y) old -> entryOk (index x) new -> sub (branchAt y x old new).
Proof.
  intros Hne Ho Hn. assert (Hi : index y <> index x) by (intros E; by apply Hne, index_inj).
  pose proof Ho as (Hy & Hon & _). pose proof Hn as (Hx & Hnn & _). apply sub_entries.
  - by rewrite !length_insert, length_replicate.
  - intros i t Ht Htn. destruct (decide (i = index x)) as [->|Hix].
    { rewrite list_lookup_insert_eq in Ht by (rewrite length_insert, length_replicate; lia). by injection Ht as <-. }
    rewrite list_lookup_insert_ne in Ht by done. destruct (decide (i = index y)) as [->|Hiy].
    { rewrite list_lookup_insert_eq in Ht by (rewrite length_replicate; lia). by injection Ht as <-. }
    rewrite list_lookup_insert_ne in Ht by done. apply lookup_replicate in Ht as [-> _]. done.
  - exists (index y), (index x), old, new. split_and!; [done| | |done|done].
    + rewrite list_lookup_insert_ne by done. apply list_lookup_insert_eq. rewrite length_replicate. lia.
    + apply list_lookup_insert_eq. rewrite length_insert, length_replicate. lia.
Qed.

Lemma tget_branchAt y x old new z rest :
  x <> y -> (index x < 17)%nat -> (index y < 17)%nat ->
  tget (branchAt y x old new) (z :: rest) =
    if bool_decide (z = x) then tget new rest else if bool_decide (z = y) then tget old rest else [].
Proof.
  intros Hne Hx Hy. unfold branchAt. rewrite tget_full. repeat case_bool_decide; subst.
  - by rewrite list_lookup_insert_eq by (rewrite length_insert, length_replicate; lia).
  - rewrite list_lookup_insert_ne, list_lookup_insert_eq by (rewrite ?length_replicate; try lia; intros ?%index_inj; done). done.
  - rewrite !list_lookup_insert_ne by (intros ?%index_inj; congruence).
    destruct (_ !! _) as [t|] eqn:E; [|done]. by apply lookup_replicate in E as [-> _].
Qed.

(** Whether a subtree or a value, at the end of the key. *)
Definition present (key : list byte) (t : tree) : Prop := match key with [] => isValue t | _ => sub t end.

(** Where two keys part. *)
Lemma split_ok p x y r s u v :
  x <> y -> sub (TShort (p ++ y :: s) u) -> hexKey (p ++ x :: r) -> v <> [] ->
  let t := under p (branchAt y x (under s u) (under r (TValue v))) in
  sub t /\ forall key, tget t key = if bool_decide (key = p ++ x :: r) then v else tget (TShort (p ++ y :: s) u) key.
Proof.
  intros Hne Hs Hk Hv t. destruct (short_tail _ _ _ _ Hs) as [Hp Ho].
  destruct (short_tail p x r (TValue v)) as [_ Hn]; [by constructor|]. split; [by apply sub_under, sub_branchAt|].
  intros key. unfold t. rewrite tget_under. cbn [tget]. rewrite strip_app. destruct (strip p key) as [q|] eqn:E; cbn [base.mbind option_bind].
  2:{ rewrite bool_decide_false; [done|]. intros ->. by rewrite strip_self in E. }
  apply strip_Some in E as ->. destruct Ho as (Hy & _). destruct Hn as (Hx & _). destruct q as [|z q].
  { rewrite bool_decide_false by (intros E%app_inv_head; done). done. }
  rewrite tget_branchAt, !tget_under by done. cbn [tget strip].
  rewrite (bool_decide_ext (p ++ z :: q = p ++ x :: r) (z = x /\ q = r)) by (split; [intros [= -> ->]%app_inv_head; done|intros [-> ->]; done]).
  destruct (decide (z = x)) as [->|Hzx].
  - rewrite bool_decide_true by done. rewrite (bool_decide_ext (y = x) False) by (split; [by intros ->|done]). cbn.
    destruct (strip r q) as [q'|] eqn:E.
    + apply strip_Some in E as ->. destruct q' as [|w q']; [rewrite app_nil_r, bool_decide_true by done; done|].
      rewrite bool_decide_false; [done|]. intros [_ E]. rewrite <- (app_nil_r r) in E at 2. by apply app_inv_head in E.
    + rewrite bool_decide_false; [done|]. intros [_ ->]. rewrite <- (app_nil_r r) in E at 2. by rewrite strip_self in E.
  - rewrite (bool_decide_false (z = x)) by done. rewrite (bool_decide_false (_ /\ _)) by (by intros [? _]).
    rewrite (bool_decide_ext (y = z) (z = y)) by done. by case_bool_decide.
Qed.

Lemma full_insert ts i t t' :
  sub (TFull ts) -> ts !! i = Some t -> entryOk i t' -> sub (TFull (<[i := t']> ts)).
Proof.
  intros Hs Ht Hok. pose proof Hs as Hs'. inversion Hs' as [| |? Hl _ _ (j & j' & a & b & Hj & Ha & Hb & Han & Hbn)]; subst.
  apply lookup_lt_Some in Ht as Hi. destruct Hok as (Hi17 & Hn & Hok). apply sub_entries; [by rewrite length_insert| |].
  - intros j0 u Hu Hun. destruct (decide (j0 = i)) as [->|Hne].
    + rewrite list_lookup_insert_eq in Hu by done. by injection Hu as <-.
    + rewrite list_lookup_insert_ne in Hu by done. by eapply entry_ok.
  - assert (H : exists k c, k <> i /\ ts !! k = Some c /\ c <> TNil).
    { destruct (decide (j = i)) as [->|]; [exists j', b|exists j, a]; by split_and!. }
    destruct H as (k & c & Hk & Hc & Hcn). exists i, k, t', c. split_and!; [done| | |done|done].
    + by rewrite list_lookup_insert_eq.
    + by rewrite list_lookup_insert_ne.
Qed.

Lemma present_entry x rest t : hexKey (x :: rest) -> present rest t -> entryOk (index x) t.
Proof.
  intros [[-> ->]|[Hx Hk]] Hp.
  - destruct Hp as (v & Hv & ->). split_and!; [rewrite index_terminator; lia|done| |by eexists]. rewrite index_terminator. lia.
  - apply nibble_index in Hx. destruct rest; [done|]. split_and!; [lia|by intros ->; inversion Hp|done|lia].
Qed.

Lemma full_nonempty ts key : sub (TFull ts) -> tget (TFull ts) key <> [] -> key <> [].
Proof. by destruct key. Qed.

Lemma nibbles_not_key k : Forall nibble k -> ~ hexKey k.
Proof. intros Hk H. rewrite <- (app_nil_r k) in H. by apply hexKey_app in H. Qed.

(** A key that leads through a short node: what is left of it, and what is below. *)
Lemma short_below k u r :
  sub (TShort k u) -> hexKey (k ++ r) -> sits r u /\ (k = [] -> False) /\
  (forall u', present r u' -> (forall ts, u = TFull ts -> exists ts', u' = TFull ts') -> sub (TShort k u')).
Proof.
  intros Hs Hk. inversion Hs as [k' v Hk' Hv|k' ts Hne Hk' Ht|]; subst.
  - pose proof (hexKey_prefix_free k r Hk' Hk) as ->. split_and!; [by right; eexists|by intros ->|].
    intros u' (w & Hw & ->) _. by constructor.
  - apply hexKey_app in Hk; [|done]. destruct r as [|x r]; [done|]. split_and!; [split; [done|by right]|done|].
    intros u' Hp Hf. destruct (Hf ts eq_refl) as (ts' & ->). by constructor.
Qed.

(** Insertion keeps the shape, and changes the value of its key only. *)
Definition Inserted (key v : list byte) (t t' : tree) : Prop :=
  present key t' /\ (forall ts, t = TFull ts -> exists ts', t' = TFull ts') /\
  forall key', tget t' key' = if bool_decide (key' = key) then v else tget t key'.

Lemma tinsert_nil key v : v <> [] -> sits key TNil -> Inserted key v TNil (tinsert TNil key v).
Proof.
  intros Hv Hs. cbn [tinsert]. split_and!; [|done|].
  - destruct key as [|x key]; [by exists v|]. destruct Hs as [Hk _]. by constructor.
  - intros key'. rewrite tget_under. cbn [tget]. case_bool_decide as E.
    + subst key'. by rewrite <- (app_nil_r key) at 2; rewrite strip_self.
    + destruct (strip key key') as [[|y r]|] eqn:Es; [|done|done]. apply strip_Some in Es. by rewrite app_nil_r in Es.
Qed.

Lemma tinsert_full ts x rest v :
  v <> [] -> sub (TFull ts) -> hexKey (x :: rest) ->
  (forall t, sits rest t -> Inserted rest v t (tinsert t rest v)) ->
  Inserted (x :: rest) v (TFull ts) (tinsert (TFull ts) (x :: rest) v).
Proof.
  intros Hv Hs Hk IH. destruct (full_child ts x rest Hs Hk) as (t & Ht & Hsits). destruct (IH t Hsits) as (Hp & _ & Hg).
  cbn [tinsert]. rewrite (alter_insert _ _ _ _ Ht). split_and!; [|by eexists|].
  - eapply full_insert; [done|done|]. by eapply present_entry.
  - intros [|y key']; [done|]. rewrite !tget_full. destruct (decide (y = x)) as [->|Hy].
    + rewrite list_lookup_insert_eq by (by eapply lookup_lt_Some). rewrite Hg, Ht.
      apply (f_equal (fun b : bool => if b then _ else _)), bool_decide_ext. split; [by intros ->|by intros [= ->]].
    + rewrite list_lookup_insert_ne by (intros ?%index_inj; done). rewrite bool_decide_false; [done|]. by intros [= -> _].
Qed.

Lemma tinsert_short k u key v :
  v <> [] -> sub (TShort k u) -> hexKey key ->
  (forall r t, key = k ++ r -> sits r t -> Inserted r v t (tinsert t r v)) ->
  Inserted key v (TShort k u) (tinsert (TShort k u) key v).
Proof.
  intros Hv Hs Hk IH. assert (Hpr : forall t, sub t -> present key t) by (intros; by destruct key).
  cbn [tinsert]. destruct (prefixLen_cases key k) as [(r & -> & ->)|[(r & Hr & -> & _)|(p & x & y & r & s & -> & -> & Hne & ->)]].
  - rewrite Nat.eqb_refl, drop_app_length. destruct (short_below k u r Hs Hk) as (Hsits & _ & Hsub).
    destruct (IH r u eq_refl Hsits) as (Hp & Hf & Hg). split_and!; [by apply Hpr, Hsub|done|].
    intros key'. cbn [tget]. destruct (strip k key') as [q|] eqn:E.
    + apply strip_Some in E as ->. rewrite Hg. apply (f_equal (fun b : bool => if b then _ else _)), bool_decide_ext.
      split; [by intros ->|by intros ?%app_inv_head].
    + rewrite bool_decide_false; [done|]. intros ->. by rewrite strip_self in E.
  - exfalso. inversion Hs as [k' w Hk' _|k' ts _ Hk' _|]; subst.
    + by apply Hr, (hexKey_prefix_free key).
    + apply Forall_app in Hk' as [Hk' _]. by apply nibbles_not_key in Hk'.
  - rewrite (proj2 (Nat.eqb_neq _ _)) by (rewrite length_app; cbn; lia).
    rewrite !list_lookup_middle by done. rewrite take_app_length.
    rewrite !drop_middle. destruct (split_ok p x y r s u v Hne Hs Hk Hv) as [H1 H2]. split_and!; [by apply Hpr|done|done].
Qed.

Lemma tinsert_spec key t v : v <> [] -> sits key t -> Inserted key v t (tinsert t key v).
Proof.
  intros Hv. revert t. induction key as [key IH] using (induction_ltof1 _ (@length byte)). unfold ltof in IH. intros t Hs.
  destruct key as [|x key].
  - destruct Hs as [->|(w & Hw & ->)]; [by apply tinsert_nil; [|left]|]. cbn [tinsert]. split_and!; [by exists v|done|].
    intros key'. cbn [tget]. case_bool_decide; [by subst|]. by destruct key'.
  - pose proof Hs as [Hk [->|Ht]]; [by apply tinsert_nil|]. pose proof Ht as Ht'. inversion Ht' as [k w|k ts Hne|ts]; subst.
    + apply tinsert_short; [done..|]. intros r t E. apply IH. rewrite E, length_app. destruct k; [done|cbn; lia].
    + apply tinsert_short; [done..|]. intros r t E. apply IH. rewrite E, length_app. destruct k; [done|cbn; lia].
    + apply tinsert_full; [done..|]. intros t. apply IH. cbn. lia.
Qed.

(** ** Deletion *)

(** A short node in front of a node, merged with it if that is short, too. *)
Definition join (k : list byte) (t : tree) : tree :=
  match t with TShort k' u => TShort (k ++ k') u | _ => TShort k t end.

(** The position of the only [false], or [-1], or [-2], as [onlyChild] finds it. *)
Fixpoint scan (bs : list bool) (i pos : Z) : Z :=
  match bs with
  | [] => pos
  | b :: bs => if b then scan bs (i + 1) pos else if pos =? -1 then scan bs (i + 1) i else -2
  end.

Definition treduce (ts : list tree) : tree :=
  let pos := scan (tnil <$> ts) 0 (-1) in
  if 0 <=? pos then
    match ts !! Z.to_nat pos with
    | Some only => if pos =? 16 then TShort [byte_of_Z pos] only else join [byte_of_Z pos] only
    | None => TNil
    end
  else TFull ts.

Fixpoint tdelete (t : tree) (key : list byte) {struct t} : tree :=
  match t with
  | TNil | TValue _ => TNil
  | TShort k u =>
      let m := prefixLen key k in
      if (m <? length k)%nat then t
      else if (m =? length key)%nat then TNil
      else join k (tdelete u (drop (length k) key))
  | TFull ts =>
      match key with
      | [] => t
      | x :: rest => treduce (alter (fun u => tdelete u rest) (index x) ts)
      end
  end.

Lemma tget_join k t key : tget (join k t) key = tget (TShort k t) key.
Proof. destruct t; try done. cbn [join tget]. rewrite strip_app. by destruct (strip k key). Qed.

Lemma sub_join k t : k <> [] -> Forall nibble k -> sub t -> sub (join k t).
Proof.
  intros Hne Hk Ht. inversion Ht as [k' v Hk' Hv|k' ts Hne' Hk' Ht'|ts]; subst; cbn [join].
  - constructor; [by apply hexKey_app|done].
  - constructor; [by destruct k|by apply Forall_app|done].
  - by constructor.
Qed.

Lemma scan_pos bs i pos : pos <> -1 -> scan bs i pos = if forallb id bs then pos else -2.
Proof.
  intros Hp. revert i. induction bs as [|[] bs IH]; intros i; cbn [scan forallb id andb]; [done|apply IH|].
  by rewrite (proj2 (Z.eqb_neq _ _)).
Qed.

Lemma not_forallb bs : forallb id bs = false -> exists j, bs !! j = Some false.
Proof. induction bs as [|[] bs IH]; cbn; [done| |by exists 0%nat]. intros H. destruct (IH H) as (j & Hj). by exists (S j). Qed.

Lemma all_forallb bs j : forallb id bs = true -> bs !! j <> Some false.
Proof. revert j. induction bs as [|[] bs IH]; intros j; cbn; [done| |done]. intros H. destruct j; [done|]. by apply IH. Qed.

Lemma scan_spec bs i :
  0 <= i ->
  (forall j, bs !! j <> Some false) \/
  (exists j, bs !! j = Some false /\ (forall j', bs !! j' = Some false -> j' = j) /\ scan bs i (-1) = i + Z.of_nat j) \/
  (exists j j', j <> j' /\ bs !! j = Some false /\ bs !! j' = Some false /\ scan bs i (-1) = -2).
Proof.
  revert i. induction bs as [|[] bs IH]; intros i Hi; [by left|..]; cbn [scan].
  - destruct (IH (i + 1) ltac:(lia)) as [H|[(j & Hj & Hu & ->)|(j & j' & Hne & Hj & Hj' & ->)]].
    + left. intros [|j]; [done|apply H].
    + right. left. exists (S j). split_and!; [done| |lia]. intros [|j'] Hj'; [done|]. by rewrite (Hu j' Hj').
    + right. right. exists (S j), (S j'). split_and!; try done. lia.
  - right. change (-1 =? -1) with true. cbv iota. rewrite scan_pos by lia. destruct (forallb id bs) eqn:E.
    + left. exists 0%nat. split_and!; [done| |lia]. intros [|j] Hj; [done|]. by destruct (all_forallb bs j E).
    + right. destruct (not_forallb bs E) as (j & Hj). by exists 0%nat, (S j).
Qed.

Lemma tnil_false (ts : list tree) (j : nat) : (tnil <$> ts) !! j = Some false <-> exists t, ts !! j = Some t /\ t <> TNil.
Proof.
  rewrite list_lookup_fmap. destruct (ts !! j) as [t|]; cbn; [|by split; [|intros (? & ? & _)]].
  split; [intros [= E]; exists t; split; [done|by intros ->]|]. intros (t' & [= <-] & Hn). by destruct t.
Qed.

(** Reducing a full node with an entry: the contents stay. *)
Lemma treduce_spec ts i t :
  length ts = 17%nat -> (forall i t, ts !! i = Some t -> t <> TNil -> entryOk i t) ->
  ts !! i = Some t -> t <> TNil ->
  sub (treduce ts) /\ forall key, tget (treduce ts) key = tget (TFull ts) key.
Proof.
  intros Hl He Ht Hn. unfold treduce.
  destruct (scan_spec (tnil <$> ts) 0 ltac:(lia)) as [H|[(j & Hj & Hu & ->)|(j & j' & Hne & Hj & Hj' & ->)]].
  - destruct (H i). apply tnil_false. eauto.
  - rewrite Z.add_0_l, Nat2Z.id, (proj2 (Z.leb_le _ _)) by lia.
    assert (j = i) as -> by (symmetry; apply Hu, tnil_false; eauto). rewrite Ht.
    destruct (He i t Ht Hn) as (Hi & _ & H1 & H2). assert (Hix : index (byte_of_Z (Z.of_nat i)) = i) by (rewrite index_of_Z; lia).
    assert (Hg : forall key, tget (TShort [byte_of_Z (Z.of_nat i)] t) key = tget (TFull ts) key).
    { intros [|y key]; [done|]. rewrite tget_full. cbn [tget strip]. case_bool_decide as E; [by rewrite <- E, Hix, Ht|].
      destruct (ts !! index y) as [u|] eqn:Eu; [|done]. destruct (decide (u = TNil)) as [->|Hun]; [done|].
      destruct E. apply index_inj. rewrite Hix. symmetry. apply Hu, tnil_false. eauto. }
    destruct (Z.eqb_spec (Z.of_nat i) 16) as [E|E].
    + split; [|done]. destruct H2 as (v & Hv & ->); [lia|]. constructor; [|done]. left. split; [|done]. apply terminator_index. lia.
    + split; [|by intros key; rewrite tget_join]. apply sub_join; [done| |apply H1; lia]. apply Forall_singleton, nibble_index. lia.
  - split; [|done]. apply sub_entries; [done..|]. apply tnil_false in Hj as (a & Ha & Han), Hj' as (b & Hb & Hbn). by exists j, j', a, b.
Qed.

(** Deletion keeps the shape, and removes the value of its key only. *)
Definition Deleted (key : list byte) (t t' : tree) : Prop :=
  match key with [] => t' = TNil | _ => canonical t' end /\ (forall ts, t = TFull ts -> sub t') /\
  forall key', tget t' key' = if bool_decide (key' = key) then [] else tget t key'.

Lemma deleted_entries ts x rest t' :
  sub (TFull ts) -> hexKey (x :: rest) -> match rest with [] => t' = TNil | _ => canonical t' end ->
  let ts' := <[index x := t']> ts in
  length ts' = 17%nat /\ (forall i u, ts' !! i = Some u -> u <> TNil -> entryOk i u) /\ exists i u, ts' !! i = Some u /\ u <> TNil.
Proof.
  intros Hs Hk Hd ts'. pose proof Hs as Hs'. inversion Hs' as [| |? Hl _ _ (j & j' & a & b & Hj & Ha & Hb & Han & Hbn)]; subst.
  split_and!; [by unfold ts'; rewrite length_insert| |].
  - intros i u Hu Hun. unfold ts' in Hu. destruct (decide (i = index x)) as [->|Hi].
    + apply list_lookup_insert_Some in Hu as [(_ & <- & _)|(? & _)]; [|done]. apply (present_entry x rest); [done|].
      destruct rest; [done|]. by destruct Hd.
    + rewrite list_lookup_insert_ne in Hu by done. by eapply entry_ok.
  - unfold ts'. destruct (decide (j = index x)) as [->|]; [exists j', b|exists j, a]; by rewrite list_lookup_insert_ne.
Qed.

Lemma tdelete_full ts x rest :
  sub (TFull ts) -> hexKey (x :: rest) ->
  (forall t, sits rest t -> Deleted rest t (tdelete t rest)) ->
  Deleted (x :: rest) (TFull ts) (tdelete (TFull ts) (x :: rest)).
Proof.
  intros Hs Hk IH. destruct (full_child ts x rest Hs Hk) as (t & Ht & Hsits). destruct (IH t Hsits) as (Hd & _ & Hg).
  cbn [tdelete]. rewrite (alter_insert _ _ _ _ Ht). destruct (deleted_entries ts x rest _ Hs Hk Hd) as (Hl & He & i & u & Hi & Hu).
  destruct (treduce_spec _ i u Hl He Hi Hu) as [Hr Hg'].
  split_and!; [by right|done|]. intros [|y key']; rewrite Hg'; [done|]. rewrite !tget_full. destruct (decide (y = x)) as [->|Hy].
  - rewrite list_lookup_insert_eq, Hg, Ht by (by eapply lookup_lt_Some).
    apply (f_equal (fun b : bool => if b then _ else _)), bool_decide_ext. split; [by intros ->|by intros [= ->]].
  - rewrite list_lookup_insert_ne by (intros ?%index_inj; done). rewrite bool_decide_false; [done|]. by intros [= -> _].
Qed.

Lemma tget_short_delete k u r u' :
  (forall key', tget u' key' = if bool_decide (key' = r) then [] else tget u key') ->
  forall key', tget (TShort k u') key' = if bool_decide (key' = k ++ r) then [] else tget (TShort k u) key'.
Proof.
  intros Hg key'. cbn [tget]. destruct (strip k key') as [q|] eqn:E.
  - apply strip_Some in E as ->. rewrite Hg. apply (f_equal (fun b : bool => if b then _ else _)), bool_decide_ext.
    split; [by intros ->|by intros ?%app_inv_head].
  - by case_bool_decide.
Qed.

Lemma tdelete_short k u key :
  sub (TShort k u) -> hexKey key ->
  (forall r t, key = k ++ r -> sits r t -> Deleted r t (tdelete t r)) ->
  Deleted key (TShort k u) (tdelete (TShort k u) key).
Proof.
  intros Hs Hk IH. assert (Hpr : forall t, canonical t -> match key with [] => t = TNil | _ => canonical t end) by (intros; by destruct key).
  assert (Hoff : strip k key = None -> Deleted key (TShort k u) (TShort k u)).
  { intros E. split_and!; [by apply Hpr; right|done|]. intros key'. case_bool_decide; [subst|done]. cbn [tget]. by rewrite E. }
  cbn [tdelete]. destruct (prefixLen_cases key k) as [(r & -> & ->)|[(r & Hr & -> & E)|(p & x & y & r & s & -> & -> & Hne & E)]].
  - rewrite Nat.ltb_irrefl. destruct (short_below k u r Hs Hk) as (Hsits & Hkn & _).
    destruct (Nat.eqb_spec (length k) (length (k ++ r))) as [El|El].
    + rewrite length_app in El. destruct r; [|cbn in El; lia]. destruct (IH [] u eq_refl Hsits) as (Hd & _ & Hg).
      split_and!; [by apply Hpr; left|done|]. intros key'. rewrite <- (tget_short_delete k u [] TNil).
      * cbn [tget]. by destruct (strip k key').
      * intros q. by rewrite <- Hg, Hd.
    + rewrite drop_app_length. destruct r as [|x r]; [by rewrite app_nil_r in El|]. destruct (IH (x :: r) u eq_refl Hsits) as (Hd & Hf & Hg).
      inversion Hs as [k' v Hk' _|k' ts Hne Hk' _|]; subst; [by apply (hexKey_prefix_free k) in Hk|].
      split_and!; [apply Hpr; right; apply sub_join; [done|done|by eapply Hf]|done|].
      intros key'. rewrite tget_join. by apply tget_short_delete.
  - rewrite E, (proj2 (Nat.ltb_lt _ _)) by (rewrite length_app; destruct r; [done|cbn; lia]). apply Hoff.
    destruct (strip _ key) as [q|] eqn:Eq; [|done]. apply strip_Some in Eq. rewrite <- app_assoc in Eq.
    rewrite <- (app_nil_r key) in Eq at 1. apply app_inv_head in Eq. by destruct r.
  - rewrite E, (proj2 (Nat.ltb_lt _ _)) by (rewrite length_app; cbn; lia). apply Hoff.
    rewrite strip_app, strip_self. cbn. by rewrite bool_decide_false.
Qed.

Lemma tdelete_spec key t : sits key t -> Deleted key t (tdelete t key).
Proof.
  revert t. induction key as [key IH] using (induction_ltof1 _ (@length byte)). unfold ltof in IH. intros t Hs.
  destruct key as [|x key].
  - destruct Hs as [->|(w & Hw & ->)]; (split_and!; [done|done|]); intros key'; cbn [tdelete tget]; case_bool_decide; [done|done|done|]. by destruct key'.
  - pose proof Hs as [Hk [->|Ht]]; [split_and!; [by left|done|intros key'; by case_bool_decide]|].
    pose proof Ht as Ht'. inversion Ht' as [k w|k ts Hne|ts]; subst.
    + apply tdelete_short; [done..|]. intros r t E. apply IH. rewrite E, length_app. destruct k; [done|cbn; lia].
    + apply tdelete_short; [done..|]. intros r t E. apply IH. rewrite E, length_app. destruct k; [done|cbn; lia].
    + apply tdelete_full; [done..|]. intros t. apply IH. cbn. lia.
Qed.

(** Nothing is reduced where two entries are left. *)
Lemma treduce_branches ts : branches ts -> treduce ts = TFull ts.
Proof.
  intros (i & j & t & u & Hij & Ht & Hu & Htn & Hun). unfold treduce.
  destruct (scan_spec (tnil <$> ts) 0 ltac:(lia)) as [H|[(k & _ & H & _)|(? & ? & _ & _ & _ & ->)]]; [| |done].
  - destruct (H i). apply tnil_false. eauto.
  - destruct Hij. rewrite (H i), (H j); [done|apply tnil_false; eauto..].
Qed.
