(* ===== verification/TrieEncode.v ===== *)
(** * Package trie: encodings

    The compact encoding of keys and the encoding of nodes, as trees: what [store] writes
    decodes to the node with references for its children.  And the relation between nodes,
    which may be partly in the database, and the trees they stand for. *)

From stdpp Require Import base numbers list gmap option.
From Stdlib Require Import ZArith Lia Strings.Byte.
From S2P Require Import Prelude Rlp RlpProofs RlpDecodeProofs RlpRawProofs Common Types TrieDatabase Trie TrieTree.
Import trie.

(** ** Keys *)

Definition nibs (bs : list byte) : list byte :=
  b ← bs; [byte_of_Z (byte_to_Z b / 16); byte_of_Z (byte_to_Z b mod 16)].

Lemma nibble_lor a b : 0 <= b < 16 -> Z.lor (Z.shiftl a 4) b = 16 * a + b.
Proof.
  intros Hb. rewrite <- Z.add_nocarry_lor; [rewrite Z.shiftl_mul_pow2 by lia; lia|].
  apply Z.bits_inj'. intros n Hn. rewrite Z.land_spec, Z.bits_0. destruct (Z.ltb_spec n 4).
  - rewrite Z.shiftl_spec_low by done. done.
  - rewrite andb_false_iff. right. destruct (Z.eq_dec b 0) as [->|]; [apply Z.bits_0|].
    apply Z.bits_above_log2; [lia|]. eapply Z.lt_le_trans; [|done]. apply Z.log2_lt_pow2; lia.
Qed.

Lemma nibs_byte a b rest :
  0 <= a < 16 -> 0 <= b < 16 -> nibs (byte_of_Z (Z.lor (Z.shiftl a 4) b) :: rest) = byte_of_Z a :: byte_of_Z b :: nibs rest.
Proof.
  intros Ha Hb. unfold nibs. cbn [base.mbind list_bind app]. rewrite byte_to_of_Z, nibble_lor, (Z.mod_small (16 * a + b)) by lia.
  rewrite (Z.mul_comm 16), Z.div_add_l, Z.div_small, Z.add_0_r by lia. rewrite Z.add_comm, Z.mod_add, Z.mod_small by lia. done.
Qed.

Lemma nibs_decode n l : length l = (2 * n)%nat -> Forall nibble l -> nibs (decodeNibbles l) = l.
Proof.
  revert l. induction n as [|n IH]; intros l Hl Hn; [by destruct l|]. destruct l as [|a [|b l]]; [cbn in Hl; lia..|].
  pose proof (Forall_inv Hn) as Ha. apply Forall_inv_tail in Hn. pose proof (Forall_inv Hn) as Hb. apply Forall_inv_tail in Hn.
  cbn [decodeNibbles]. unfold nibble in *. pose proof (byte_to_Z_range a). pose proof (byte_to_Z_range b).
  rewrite nibs_byte, !byte_of_to_Z, IH by (cbn in Hl; done || lia). done.
Qed.

Lemma keybytesToHex_nibs bs : keybytesToHex bs = nibs bs ++ [terminator].
Proof. done. Qed.

Lemma nibs_nibble bs : Forall nibble (nibs bs).
Proof.
  induction bs as [|b bs IH]; [done|]. cbn [nibs base.mbind list_bind app]. pose proof (byte_to_Z_range b).
  apply Forall_cons; [|apply Forall_cons; [|exact IH]]; unfold nibble; rewrite byte_to_of_Z.
  - assert (byte_to_Z b / 16 < 16) by (apply Z.div_lt_upper_bound; lia). pose proof (Z.div_pos (byte_to_Z b) 16). rewrite Z.mod_small; lia.
  - pose proof (Z.mod_pos_bound (byte_to_Z b) 16). rewrite Z.mod_small; lia.
Qed.

Lemma length_nibs bs : length (nibs bs) = (2 * length bs)%nat.
Proof. induction bs as [|b bs IH]; [done|]. change (nibs (b :: bs)) with (byte_of_Z (byte_to_Z b / 16) :: byte_of_Z (byte_to_Z b mod 16) :: nibs bs). cbn [length]. lia. Qed.

Lemma hexKey_keybytes bs : hexKey (keybytesToHex bs).
Proof. rewrite keybytesToHex_nibs. apply hexKey_app; [apply nibs_nibble|by left]. Qed.

Lemma nibs_inj a b : nibs a = nibs b -> a = b.
Proof.
  revert b. induction a as [|x a IH]; intros [|y b] E; [done..|].
  change (nibs (x :: a)) with (byte_of_Z (byte_to_Z x / 16) :: byte_of_Z (byte_to_Z x mod 16) :: nibs a) in E.
  change (nibs (y :: b)) with (byte_of_Z (byte_to_Z y / 16) :: byte_of_Z (byte_to_Z y mod 16) :: nibs b) in E.
  injection E as E1 E2 E3. f_equal; [|by apply IH]. apply byte_to_Z_inj. apply (f_equal byte_to_Z) in E1, E2. rewrite !byte_to_of_Z in E1, E2.
  pose proof (byte_to_Z_range x). pose proof (byte_to_Z_range y).
  pose proof (Z.div_mod (byte_to_Z x) 16). pose proof (Z.div_mod (byte_to_Z y) 16).
  pose proof (Z.mod_pos_bound (byte_to_Z x) 16). pose proof (Z.mod_pos_bound (byte_to_Z y) 16).
  rewrite !(Z.mod_small _ 256) in E2 by lia. rewrite !(Z.mod_small _ 256) in E1; [lia| |];
    (split; [apply Z.div_pos; lia|apply Z.div_lt_upper_bound; lia]).
Qed.

Lemma keybytesToHex_inj a b : keybytesToHex a = keybytesToHex b -> a = b.
Proof. rewrite !keybytesToHex_nibs. intros E%app_inj_tail. by apply nibs_inj, E. Qed.

(** The keys of nodes: nibbles, or nibbles and the terminator. *)
Definition nodeKey (k : list byte) : Prop := Forall nibble k \/ hexKey k.

Lemma hexKey_split k : hexKey k -> exists l, k = l ++ [terminator] /\ Forall nibble l.
Proof.
  induction k as [|x k IH]; [done|]. intros [[-> ->]|[Hx Hk]]; [by exists []|].
  destruct (IH Hk) as (l & -> & Hl). exists (x :: l). split; [done|by apply Forall_cons].
Qed.

Lemma hasTerm_app l : hasTerm (l ++ [terminator]) = true /\ chopTerm (l ++ [terminator]) = l.
Proof.
  assert (H : hasTerm (l ++ [terminator]) = true).
  { apply bool_decide_eq_true. rewrite length_app. cbn [length]. rewrite Nat.add_sub. by apply list_lookup_middle. }
  split; [done|]. unfold chopTerm. rewrite H, length_app. cbn [length]. rewrite Nat.add_sub. apply take_app_length.
Qed.

Lemma hasTerm_nibbles l : Forall nibble l -> hasTerm l = false /\ chopTerm l = l.
Proof.
  intros Hl. assert (H : hasTerm l = false).
  { apply bool_decide_eq_false. intros H. by pose proof (Forall_lookup_1 _ _ _ _ Hl H). }
  split; [done|]. unfold chopTerm. by rewrite H.
Qed.

(** The flag byte and what follows it, for nibbles with and without the terminator. *)
Lemma compact_nibbles (term : bool) l :
  Forall nibble l ->
  exists c, (if Nat.odd (length l)
     then match l with first :: rest => byte_of_Z (Z.lor (Z.lor (Z.shiftl (if term then 1 else 0) 5) (Z.shiftl 1 4)) (byte_to_Z first)) :: decodeNibbles rest | [] => [] end
     else byte_of_Z (Z.shiftl (if term then 1 else 0) 5) :: decodeNibbles l) = c /\
  compactToHex c = Some (l ++ if term then [terminator] else []).
Proof.
  intros Hl. eexists. split; [reflexivity|].
  assert (Hc : forall c, compactToHex c = match nibs c with [] => None | first :: _ =>
    Some (drop (Z.to_nat (2 - Z.land (byte_to_Z first) 1)) (if 2 <=? byte_to_Z first then nibs c ++ [terminator] else nibs c)) end).
  { intros c. unfold compactToHex. rewrite keybytesToHex_nibs, length_app. cbn [length]. by rewrite Nat.add_sub, take_app_length. }
  rewrite Hc. clear Hc. destruct (Nat.odd (length l)) eqn:Eo.
  - destruct l as [|x l]; [done|]. pose proof (Forall_inv Hl) as Hx. unfold nibble in Hx. pose proof (byte_to_Z_range x).
    replace (Z.lor (Z.lor (Z.shiftl (if term then 1 else 0) 5) (Z.shiftl 1 4)) (byte_to_Z x))
      with (Z.lor (Z.shiftl (if term then 3 else 1) 4) (byte_to_Z x)) by (by destruct term).
    rewrite nibs_byte, byte_of_to_Z by (destruct term; lia). rewrite byte_to_of_Z.
    assert (El : nibs (decodeNibbles l) = l).
    { apply Nat.odd_spec in Eo as (n & En). cbn in En. apply (nibs_decode n); [lia|]. by apply Forall_inv_tail in Hl. }
    rewrite El. destruct term; cbn; [done|by rewrite app_nil_r].
  - rewrite <- (Z.lor_0_r (Z.shiftl (if term then 1 else 0) 5)).
    replace (Z.shiftl (if term then 1 else 0) 5) with (Z.shiftl (if term then 2 else 0) 4) by (by destruct term).
    rewrite nibs_byte by (destruct term; lia). rewrite byte_to_of_Z. assert (El : nibs (decodeNibbles l) = l).
    { assert (Ev : Nat.even (length l) = true) by (rewrite <- Nat.negb_odd; by rewrite Eo).
      apply Nat.even_spec in Ev as (n & En). by apply (nibs_decode n). }
    rewrite El. destruct term; cbn; [done|by rewrite app_nil_r].
Qed.

(** The compact encoding can be undone. *)
Lemma compact_roundtrip k : nodeKey k -> compactToHex (hexToCompact k) = Some k.
Proof.
  intros [Hk|Hk].
  - destruct (hasTerm_nibbles k Hk) as [E1 E2]. unfold hexToCompact. rewrite E1, E2.
    destruct (compact_nibbles false k Hk) as (c & -> & ->). by rewrite app_nil_r.
  - destruct (hexKey_split k Hk) as (l & -> & Hl). destruct (hasTerm_app l) as [E1 E2]. unfold hexToCompact. rewrite E1, E2.
    by destruct (compact_nibbles true l Hl) as (c & -> & ->).
Qed.

Lemma keybytes_roundtrip bs : hexToKeybytes (keybytesToHex bs) = Some bs.
Proof.
  unfold hexToKeybytes. rewrite keybytesToHex_nibs. destruct (hasTerm_app (nibs bs)) as [_ ->].
  rewrite length_nibs. rewrite <- Nat.negb_even, Nat.even_mul. cbn [Nat.even orb negb]. f_equal.
  apply nibs_inj. apply (nibs_decode (length bs)); [apply length_nibs|apply nibs_nibble].
Qed.

(** ** Sizes *)

(** Lengths that the encoding can hold. *)
Fixpoint sized (t : tree) : Prop :=
  match t with
  | TNil => True
  | TValue v => len v < 2 ^ 32
  | TShort k u => len k < 2 ^ 32 /\ sized u
  | TFull ts => (fix all ts := match ts with [] => True | t :: ts => sized t /\ all ts end) ts
  end.

Lemma sized_full ts : sized (TFull ts) <-> Forall sized ts.
Proof.
  cbn [sized]. induction ts as [|t ts IH]; [done|]. rewrite IH. split; [intros [? ?]; by apply Forall_cons|].
  intros H. split; [by apply Forall_inv in H|by apply Forall_inv_tail in H].
Qed.

(** The same in terms of the contents. *)
Definition bounded (t : tree) : Prop := forall key, tget t key <> [] -> len key < 2 ^ 32 /\ len (tget t key) < 2 ^ 32.

Lemma bounded_child ts i t : (i < 17)%nat -> bounded (TFull ts) -> ts !! i = Some t -> bounded t.
Proof.
  intros Hi Hb Ht key Hg. assert (E : tget (TFull ts) (byte_of_Z (Z.of_nat i) :: key) = tget t key).
  { rewrite tget_full, index_of_Z, Nat2Z.id, Ht by lia. done. }
  rewrite <- E in Hg. destruct (Hb _ Hg) as [H1 H2]. rewrite E in H2. split; [cbn in H1; lia|done].
Qed.

Lemma bounded_short k u : bounded (TShort k u) -> bounded u.
Proof.
  intros Hb key Hg. rewrite <- (tget_short_app k u key) in Hg. destruct (Hb _ Hg) as [H1 H2]. rewrite tget_short_app in H2.
  rewrite length_app in H1. split; [lia|done].
Qed.

Lemma bounded_sized t : sub t -> bounded t -> sized t.
Proof.
  assert (Hkey : forall k u key, tget u key <> [] -> bounded (TShort k u) -> len k < 2 ^ 32).
  { intros k u key Hg Hb. rewrite <- (tget_short_app k u key) in Hg. destruct (Hb _ Hg) as [H _]. rewrite length_app in H. lia. }
  induction 1 as [k v Hk Hv|k ts Hne Hk Hs IH|ts Hl Hs IH H16 _]; intros Hb.
  - split; [by apply (Hkey k (TValue v) [])|]. destruct (bounded_short _ _ Hb [] Hv) as [_ H]. exact H.
  - split; [|by apply IH, (bounded_short k)]. destruct (sub_inhabited _ Hs) as (key & _ & Hg). by apply (Hkey k (TFull ts) key).
  - apply sized_full, Forall_lookup. intros i t Ht. apply lookup_lt_Some in Ht as Hi. rewrite Hl in Hi.
    destruct (decide (t = TNil)) as [->|Hn]; [done|]. pose proof (bounded_child ts i t Hi Hb Ht) as Hbt.
    destruct (decide (i = 16%nat)) as [->|]; [|eapply IH; [done|done|lia|done]].
    destruct (H16 t Ht Hn) as (v & Hv & ->). exact (proj2 (Hbt [] Hv)).
Qed.

(** ** Nodes as they are encoded *)

Section Encoding.
Context `{Crypto}.

(** A child within its parent: itself if it is short, its hash otherwise. *)
Definition refOf (t : tree) (v : rlpValue) : rlpValue :=
  match t with
  | TNil | TValue _ => v
  | _ => if (length (rlpBytes v) <? 32)%nat then v else RBytes (HashBytes (Keccak256 (rlpBytes v)))
  end.

Fixpoint treeRLP (t : tree) : rlpValue :=
  match t with
  | TNil => RBytes []
  | TValue v => RBytes v
  | TShort k u => RList [RBytes (hexToCompact k); refOf u (treeRLP u)]
  | TFull ts => RList ((fun u => refOf u (treeRLP u)) <$> ts)
  end.

Definition treeRef (t : tree) : rlpValue := refOf t (treeRLP t).
Definition encT (t : tree) : list byte := rlpBytes (treeRLP t).
Definition hashOf (t : tree) : list byte := HashBytes (Keccak256 (encT t)).
Definition small (t : tree) : bool := (length (encT t) <? 32)%nat.

(** The node that decoding yields: its children are references. *)
Fixpoint loaded (hash : option (list byte)) (g : Z) (t : tree) : node :=
  match t with
  | TNil => nilNode
  | TValue v => valueNode v
  | TShort k u =>
      shortNode k match u with
                  | TNil | TValue _ => loaded None g u
                  | _ => if small u then loaded None g u else hashNode (hashOf u)
                  end (mkFlag hash g false)
  | TFull ts =>
      fullNode ((fun u => match u with
                          | TNil | TValue _ => loaded None g u
                          | _ => if small u then loaded None g u else hashNode (hashOf u)
                          end) <$> ts) (mkFlag hash g false)
  end.

Definition refNode (g : Z) (u : tree) : node :=
  match u with
  | TNil | TValue _ => loaded None g u
  | _ => if small u then loaded None g u else hashNode (hashOf u)
  end.

Lemma length_hashOf t : length (hashOf t) = 32%nat.
Proof. apply length_be_bytes. Qed.

Lemma treeRef_splits t : splits (treeRef t).
Proof. unfold treeRef, refOf. destruct t; cbn; try done; by case_match. Qed.

Lemma treeRef_small t : sub t -> treeRef t = if small t then treeRLP t else RBytes (hashOf t).
Proof. by inversion 1. Qed.

Lemma treeRef_bound t : sized t -> len (rlpBytes (treeRef t)) <= 2 ^ 33.
Proof.
  intros Hs. unfold treeRef, refOf. assert (Hh : len (rlpBytes (RBytes (HashBytes (Keccak256 (rlpBytes (treeRLP t)))))) <= 2 ^ 33).
  { cbn [rlpBytes]. pose proof (length_encString (HashBytes (Keccak256 (rlpBytes (treeRLP t))))) as Hb.
    unfold HashBytes in *. rewrite length_be_bytes in Hb. lia. }
  destruct t as [|v|k u|ts]; [by vm_compute| |destruct (Nat.ltb_spec (length (rlpBytes (treeRLP (TShort k u)))) 32); [lia|exact Hh]|
    destruct (Nat.ltb_spec (length (rlpBytes (treeRLP (TFull ts)))) 32); [lia|exact Hh]].
  cbn [sized treeRLP rlpBytes] in *. pose proof (length_encString v ltac:(lia)). lia.
Qed.

Lemma refs_bound ts : Forall sized ts -> len (mjoin (rlpBytes <$> (treeRef <$> ts))) <= len ts * 2 ^ 33.
Proof.
  induction 1 as [|t ts Ht _ IH]; [done|].
  change (mjoin (rlpBytes <$> (treeRef <$> t :: ts))) with (rlpBytes (treeRef t) ++ mjoin (rlpBytes <$> (treeRef <$> ts))).
  rewrite length_app. pose proof (treeRef_bound t Ht). cbn [length]. lia.
Qed.

Lemma length_decodeNibbles l : (length (decodeNibbles l) <= length l)%nat.
Proof.
  induction l as [l IH] using (induction_ltof1 _ (@length byte)). unfold ltof in IH.
  destruct l as [|a [|b l]]; [cbn; lia..|]. cbn [decodeNibbles length]. specialize (IH l ltac:(cbn; lia)). lia.
Qed.

Lemma length_hexToCompact k : (length (hexToCompact k) <= length k + 1)%nat.
Proof.
  assert (Hc : (length (chopTerm k) <= length k)%nat) by (unfold chopTerm; destruct (hasTerm k); rewrite ?length_take; lia).
  unfold hexToCompact. set (l := chopTerm k) in *. pose proof (length_decodeNibbles l) as Hl. destruct (Nat.odd _); [|cbn; lia].
  destruct l as [|x l]; [cbn; lia|]. cbn [length] in *. pose proof (length_decodeNibbles l). lia.
Qed.

(** The values of a node's list. *)
Definition elements (t : tree) : list rlpValue :=
  match t with
  | TShort k u => [RBytes (hexToCompact k); treeRef u]
  | TFull ts => treeRef <$> ts
  | _ => []
  end.

Lemma elements_splits t : Forall splits (elements t).
Proof.
  destruct t as [| |k u|ts]; cbn [elements]; try done.
  - apply Forall_cons; [done|]. apply Forall_singleton, treeRef_splits.
  - apply Forall_fmap, Forall_true. intros; apply treeRef_splits.
Qed.

Lemma treeRLP_elements t : sub t -> treeRLP t = RList (elements t).
Proof. by inversion 1. Qed.

Lemma sub_length ts : sub (TFull ts) -> length ts = 17%nat.
Proof. by inversion 1. Qed.

Lemma elements_bound t : sub t -> sized t -> len (mjoin (rlpBytes <$> elements t)) < 2 ^ 40.
Proof.
  intros Hs Hz. destruct t as [|v|k u|ts]; [by inversion Hs..| |].
  - destruct Hz as [Hk Hu]. cbn [elements fmap list_fmap mjoin list_join]. rewrite !length_app. cbn [length rlpBytes].
    pose proof (length_hexToCompact k). pose proof (length_encString (hexToCompact k) ltac:(lia)). pose proof (treeRef_bound u Hu). lia.
  - cbn [elements]. pose proof (refs_bound ts ltac:(by apply sized_full)). rewrite (sub_length ts Hs) in *. lia.
Qed.

Lemma encT_list t : sub t -> encT t = encList (mjoin (rlpBytes <$> elements t)).
Proof. intros Hs. unfold encT. by rewrite treeRLP_elements. Qed.

Lemma encT_bound t : sub t -> sized t -> len (encT t) < 2 ^ 41.
Proof.
  intros Hs Hz. rewrite encT_list by done. pose proof (elements_bound t Hs Hz).
  eapply Z.le_lt_trans; [apply length_encList_le|]; lia.
Qed.

(** ** Decoding *)

Lemma encT_length t : sub t -> (length (mjoin (rlpBytes <$> elements t)) < length (encT t))%nat.
Proof. intros Hs. rewrite encT_list by done. unfold encList, puthead. rewrite length_app. case_match; cbn [length]; lia. Qed.

Lemma decodeRef_nil decode rest g :
  len (rlpBytes (treeRef TNil) ++ rest) < 2 ^ 64 -> decodeRef decode (rlpBytes (treeRef TNil) ++ rest) g = Ok (nilNode, rest).
Proof. intros Hl. unfold decodeRef. cbn [treeRef refOf treeRLP rlpBytes] in *. by rewrite Split_string. Qed.

Lemma decodeRef_sub decode t rest g :
  sub t -> len (rlpBytes (treeRef t) ++ rest) < 2 ^ 64 ->
  (small t = true -> decode None (encT t ++ rest) g = Ok (loaded None g t)) ->
  decodeRef decode (rlpBytes (treeRef t) ++ rest) g = Ok (refNode g t, rest).
Proof.
  intros Hs Hl Hd. assert (Hr : refNode g t = if small t then loaded None g t else hashNode (hashOf t)) by (by inversion Hs).
  rewrite Hr. rewrite treeRef_small in * by done. unfold decodeRef. destruct (small t) eqn:E.
  - unfold encT in *. specialize (Hd eq_refl). pose proof (encT_list t Hs) as El. unfold encT in El. rewrite El in *.
    rewrite Split_list by done. cbn [rbind wrapError]. rewrite <- El in *. rewrite length_app.
    unfold small, encT in E. apply Nat.ltb_lt in E. destruct (Z.gtb_spec (Z.of_nat (length (rlpBytes (treeRLP t)) + length rest) - len rest) hashLen); [unfold hashLen in *; lia|].
    by rewrite Hd.
  - cbn [rlpBytes] in *. rewrite Split_string by done. cbn [rbind wrapError].
    assert (Hk : stringKind (hashOf t) = KString).
    { pose proof (length_hashOf t) as Hlen. unfold stringKind. by destruct (hashOf t) as [|? [|? ?]]. }
    by rewrite Hk, length_hashOf.
Qed.

(** What decoding a child takes. *)
Definition decodes (decode : option (list byte) -> list byte -> Z -> result decodeErr node) (g : Z) (t : tree) : Prop :=
  forall rest, len (encT t ++ rest) < 2 ^ 64 -> decode None (encT t ++ rest) g = Ok (loaded None g t).

Lemma decodeRef_ok decode t rest g :
  canonical t -> len (rlpBytes (treeRef t) ++ rest) < 2 ^ 64 -> (sub t -> small t = true -> decodes decode g t) ->
  decodeRef decode (rlpBytes (treeRef t) ++ rest) g = Ok (refNode g t, rest).
Proof.
  intros [->|Hs] Hl Hd; [by apply decodeRef_nil|]. apply decodeRef_sub; [done..|]. intros E. apply Hd; [done..|].
  rewrite treeRef_small, E in Hl by done. exact Hl.
Qed.

Lemma decodeRefs_ok decode g ts rest :
  Forall canonical ts -> Forall (fun t => sub t -> small t = true -> decodes decode g t) ts ->
  len (mjoin (rlpBytes <$> (treeRef <$> ts)) ++ rest) < 2 ^ 64 ->
  decodeRefs decode (length ts) (mjoin (rlpBytes <$> (treeRef <$> ts)) ++ rest) g = Ok (refNode g <$> ts, rest).
Proof.
  intros Hc Hd. induction ts as [|t ts IH]; [done|].
  change (mjoin (rlpBytes <$> (treeRef <$> t :: ts))) with (rlpBytes (treeRef t) ++ mjoin (rlpBytes <$> (treeRef <$> ts))).
  rewrite <- app_assoc. intros Hl. cbn [length decodeRefs]. rewrite decodeRef_ok; [|by apply Forall_inv in Hc|done|by apply Forall_inv in Hd].
  cbn [rbind]. rewrite IH; [done|by apply Forall_inv_tail in Hc|by apply Forall_inv_tail in Hd|]. rewrite length_app in Hl. lia.
Qed.

Lemma decodeShort_leaf decode hash k v g :
  hexKey k -> len (mjoin (rlpBytes <$> elements (TShort k (TValue v)))) < 2 ^ 64 ->
  decodeShort decode hash (mjoin (rlpBytes <$> elements (TShort k (TValue v)))) g = Ok (loaded hash g (TShort k (TValue v))).
Proof.
  intros Hk. change (mjoin (rlpBytes <$> elements (TShort k (TValue v)))) with (encString (hexToCompact k) ++ encString v ++ []).
  intros Hl. unfold decodeShort. rewrite SplitString_string by done. cbn [rbind wrapError].
  rewrite compact_roundtrip by (by right). cbn [rbind deref]. destruct (hexKey_split k Hk) as (l & -> & _).
  rewrite (proj1 (hasTerm_app l)). rewrite SplitString_string by (rewrite length_app in Hl; lia). done.
Qed.

Lemma decodeShort_ext decode hash k ts g :
  Forall nibble k -> sub (TFull ts) -> len (mjoin (rlpBytes <$> elements (TShort k (TFull ts)))) < 2 ^ 64 ->
  (small (TFull ts) = true -> decodes decode g (TFull ts)) ->
  decodeShort decode hash (mjoin (rlpBytes <$> elements (TShort k (TFull ts)))) g = Ok (loaded hash g (TShort k (TFull ts))).
Proof.
  intros Hk Hs. change (mjoin (rlpBytes <$> elements (TShort k (TFull ts)))) with (encString (hexToCompact k) ++ rlpBytes (treeRef (TFull ts)) ++ []).
  intros Hl Hd. unfold decodeShort. rewrite SplitString_string by done. cbn [rbind wrapError].
  rewrite compact_roundtrip by (by left). cbn [rbind deref]. rewrite (proj1 (hasTerm_nibbles k Hk)).
  rewrite decodeRef_ok; [done|by right|rewrite length_app in Hl; lia|done].
Qed.

Lemma decodeFull_ok decode hash ts g :
  sub (TFull ts) -> len (mjoin (rlpBytes <$> elements (TFull ts))) < 2 ^ 64 ->
  (forall i t, ts !! i = Some t -> (i < 16)%nat -> sub t -> small t = true -> decodes decode g t) ->
  decodeFull decode hash (mjoin (rlpBytes <$> elements (TFull ts))) g = Ok (loaded hash g (TFull ts)).
Proof.
  intros Hs Hl Hd. cbn [elements] in *. inversion Hs as [| |? Hlen H1 H2 _]; subst.
  destruct (lookup_lt_is_Some_2 ts 16) as [u Hu]; [lia|].
  assert (E : ts = take 16 ts ++ [u]) by (rewrite <- (take_S_r ts 16 u Hu); symmetry; apply take_ge; lia).
  assert (Hlk : forall i t, take 16 ts !! i = Some t -> ts !! i = Some t /\ (i < 16)%nat) by (intros i t Hi; by apply lookup_take_Some in Hi).
  assert (Em : mjoin (rlpBytes <$> (treeRef <$> ts)) = mjoin (rlpBytes <$> (treeRef <$> take 16 ts)) ++ rlpBytes (treeRef u) ++ []).
  { rewrite E at 1. by rewrite !fmap_app, join_app. }
  rewrite Em in *. unfold decodeFull.
  replace 16%nat with (length (take 16 ts)) at 1 by (rewrite length_take; lia).
  rewrite decodeRefs_ok; [| | |done].
  - cbn [rbind]. assert (Hu' : u = TNil \/ isValue u) by (destruct (decide (u = TNil)); [by left|right; by apply H2]).
    assert (Eu : exists v, rlpBytes (treeRef u) = encString v /\ refNode g u = if len v >? 0 then valueNode v else nilNode).
    { destruct Hu' as [->|(v & Hv & ->)]; [by exists []|]. exists v. split; [done|]. by destruct v. }
    destruct Eu as (v & Ev & Er). rewrite Ev in *. rewrite SplitString_string by (rewrite length_app in Hl; lia). cbn [rbind wrapError].
    rewrite <- Er. change [refNode g u] with (refNode g <$> [u]). rewrite <- fmap_app, <- E. done.
  - apply Forall_lookup. intros i t Ht. destruct (Hlk i t Ht) as [Ht' Hi]. destruct (decide (t = TNil)); [by left|right; by eapply H1].
  - apply Forall_lookup. intros i t Ht. destruct (Hlk i t Ht) as [Ht' Hi]. by eapply Hd.
Qed.

Lemma length_in_join v (l : list rlpValue) : v ∈ l -> (length (rlpBytes v) <= length (mjoin (rlpBytes <$> l)))%nat.
Proof.
  induction l as [|w l IH]; [by intros ?%elem_of_nil|].
  change (mjoin (rlpBytes <$> w :: l)) with (rlpBytes w ++ mjoin (rlpBytes <$> l)). rewrite length_app.
  intros [->|Hv]%elem_of_cons; [lia|]. specialize (IH Hv). lia.
Qed.

(** A child that is embedded is shorter than its parent. *)
Lemma small_child t u : sub t -> treeRef u ∈ elements t -> sub u -> small u = true -> (length (encT u) < length (encT t))%nat.
Proof.
  intros Ht Hin Hu Hs. apply length_in_join in Hin. rewrite treeRef_small, Hs in Hin by done. pose proof (encT_length t Ht).
  unfold encT in *. lia.
Qed.

(** The list of a node, and the number of its values. *)
Lemma decodeNode_step fuel hash t rest g :
  sub t -> len (encT t ++ rest) < 2 ^ 64 ->
  decodeNode (S fuel) hash (encT t ++ rest) g =
    match t with
    | TShort _ _ => decodeShort (decodeNode fuel) hash (mjoin (rlpBytes <$> elements t)) g
    | _ => decodeFull (decodeNode fuel) hash (mjoin (rlpBytes <$> elements t)) g
    end.
Proof.
  intros Hs Hl. pose proof (encT_length t Hs) as Hlt. cbn [decodeNode]. rewrite (proj2 (Z.eqb_neq _ 0)) by (rewrite length_app; lia).
  pose proof Hl as Hl'. rewrite length_app in Hl'.
  rewrite (encT_list t Hs) in *. rewrite SplitList_list by done. cbn [rbind wrapError].
  rewrite CountValues_values by (apply elements_splits || lia). inversion Hs as [| |ts Hlen]; subst; [done|done|].
  cbn [elements]. rewrite length_fmap, Hlen. done.
Qed.

(** What has been encoded decodes. *)
Lemma decodeNode_ok t : sub t -> forall fuel hash rest g,
  (length (encT t) <= fuel)%nat -> len (encT t ++ rest) < 2 ^ 64 -> decodeNode fuel hash (encT t ++ rest) g = Ok (loaded hash g t).
Proof.
  assert (Hlen : forall t rest, sub t -> len (encT t ++ rest) < 2 ^ 64 -> len (mjoin (rlpBytes <$> elements t)) < 2 ^ 64).
  { clear t. intros t rest Ht Hl. pose proof (encT_length t Ht). rewrite length_app in Hl. lia. }
  induction 1 as [k v Hk Hv|k ts Hne Hk Hs IH|ts Hl Hs IH H16 Hb]; intros fuel hash rest g Hf Hr.
  - assert (Ht : sub (TShort k (TValue v))) by (by constructor). pose proof (encT_length _ Ht). destruct fuel as [|fuel]; [lia|].
    rewrite decodeNode_step by done. apply decodeShort_leaf; [done|]. by eapply Hlen.
  - assert (Ht : sub (TShort k (TFull ts))) by (by constructor). pose proof (encT_length _ Ht). destruct fuel as [|fuel]; [lia|].
    rewrite decodeNode_step by done. apply decodeShort_ext; [done|done|by eapply Hlen|]. intros E rest' Hr'. apply IH; [|done].
    pose proof (small_child _ (TFull ts) Ht) as Hc. specialize (Hc ltac:(cbn; apply elem_of_cons; right; by apply list_elem_of_singleton) Hs E). lia.
  - assert (Ht : sub (TFull ts)) by (by constructor). pose proof (encT_length _ Ht). destruct fuel as [|fuel]; [lia|].
    rewrite decodeNode_step by done. apply decodeFull_ok; [done|by eapply Hlen|]. intros i t Hi Hlt Hst E rest' Hr'.
    eapply IH; [done| |done| |done]; [by intros ->; inversion Hst|].
    pose proof (small_child _ t Ht) as Hc. specialize (Hc ltac:(cbn; apply list_elem_of_fmap; exists t; split; [done|by eapply list_elem_of_lookup_2]) Hst E). lia.
Qed.

End Encoding.
