(* ===== verification/TrieWalk.v ===== *)
(** * Package trie: walking a trie

    A node stands for a tree: nodes that are not loaded are hashes, under which the database
    has the encoding of the subtree.  [tryGet], [insert] and [delete] of trie.go are the
    operations on trees; they load what they need and never miss a node. *)

From stdpp Require Import base numbers list gmap option.
From Stdlib Require Import ZArith Lia Strings.Byte.
From S2P Require Import Prelude Rlp RlpDecodeProofs RlpRawProofs Common Types TrieDatabase Trie TrieTree TrieEncode.
Import trie.

Section Walk.
Context `{Crypto} (db : triedb.Database).

(** ** Nodes and trees *)

Notation keyOf t := (BytesToHash (hashOf t)).
Definition InDb (t : tree) : Prop := triedb.Node (keyOf t) db = Some (encT t).

(** The subtrees that are not embedded are in the database. *)
Inductive Stored : tree -> Prop :=
| stored_nil : Stored TNil
| stored_value v : Stored (TValue v)
| stored_short k u : Stored u -> (sub u -> small u = false -> InDb u) -> Stored (TShort k u)
| stored_full ts :
    (forall i t, ts !! i = Some t -> Stored t) ->
    (forall i t, ts !! i = Some t -> sub t -> small t = false -> InDb t) ->
    Stored (TFull ts).

(** A cached hash is right; below the root, a node that is embedded has none.  A node that
    is not dirty is in the database, or embedded. *)
Definition FlagOk (top : bool) (fl : nodeFlag) (t : tree) : Prop :=
  match fHash fl with
  | Some h => h = hashOf t /\ (top = true \/ small t = false) /\ (dirty fl = false -> InDb t /\ Stored t)
  | None => dirty fl = true \/ (top = false /\ small t = true)
  end.

(** [top] is set at the root, whose hash is taken whatever its size. *)
Inductive Rep : bool -> node -> tree -> Prop :=
| rep_nil top : Rep top nilNode TNil
| rep_value top v : Rep top (valueNode v) (TValue v)
| rep_short top k n t fl : Rep false n t -> FlagOk top fl (TShort k t) -> Rep top (shortNode k n fl) (TShort k t)
| rep_full top ns ts fl :
    length ns = length ts ->
    (forall i n t, ns !! i = Some n -> ts !! i = Some t -> Rep false n t) ->
    FlagOk top fl (TFull ts) -> Rep top (fullNode ns fl) (TFull ts)
| rep_hash top h t :
    h = hashOf t -> sub t -> sized t -> top = true \/ small t = false -> InDb t -> Stored t -> Rep top (hashNode h) t.

Definition isHash (n : node) : bool := match n with hashNode _ => true | _ => false end.

Lemma FlagOk_new top g t : FlagOk top (newFlag g) t.
Proof. by left. Qed.

Lemma Rep_child ns ts fl top i t : Rep top (fullNode ns fl) (TFull ts) -> ts !! i = Some t -> exists n, ns !! i = Some n /\ Rep false n t.
Proof.
  inversion 1 as [| | |? ? ? ? Hl H1 H2|]; subst. intros Ht. apply lookup_lt_Some in Ht as Hi.
  destruct (lookup_lt_is_Some_2 ns i) as [n Hn]; [lia|]. eauto.
Qed.

(** Replacing a child. *)
Lemma Rep_insert ns ts fl top fl' top' i n t :
  Rep top (fullNode ns fl) (TFull ts) -> Rep false n t -> FlagOk top' fl' (TFull (<[i := t]> ts)) ->
  Rep top' (fullNode (<[i := n]> ns) fl') (TFull (<[i := t]> ts)).
Proof.
  inversion 1 as [| | |? ? ? ? Hl H1 H2|]; subst. intros Hn Hf. constructor; [by rewrite !length_insert| |done].
  intros j m u Hm Hu. destruct (decide (i = j)) as [<-|Hne].
  - apply list_lookup_insert_Some in Hm as [(_ & <- & _)|(? & _)]; [|done].
    by apply list_lookup_insert_Some in Hu as [(_ & <- & _)|(? & _)].
  - rewrite list_lookup_insert_ne in Hm by done. rewrite list_lookup_insert_ne in Hu by done. by eapply H1.
Qed.

(** ** Loading *)

Lemma Rep_ref g t : (sub t -> forall hash, FlagOk false (mkFlag hash g false) t -> Rep false (loaded hash g t) t) ->
  sits [] t \/ canonical t -> sized t -> Stored t -> (sub t -> small t = false -> InDb t) -> Rep false (refNode g t) t.
Proof.
  intros IH Hc Hz Hs Hd. assert (H1 : t = TNil \/ isValue t \/ sub t) by (destruct Hc as [[?|?]|[?|?]]; auto).
  destruct H1 as [->|[(v & _ & ->)|H1]]; [constructor..|].
  assert (Hr : refNode g t = if small t then loaded None g t else hashNode (hashOf t)) by (by inversion H1).
  rewrite Hr. destruct (small t) eqn:E; [apply IH; [done|by right]|]. apply rep_hash; auto.
Qed.

Lemma Rep_loaded g t : sub t -> sized t -> Stored t ->
  forall top hash, FlagOk top (mkFlag hash g false) t -> Rep top (loaded hash g t) t.
Proof.
  induction 1 as [k v Hk Hv|k ts Hne Hk Hs IH|ts Hl Hs IH H16 Hb]; intros Hz Hst top hash Hf.
  - cbn [loaded]. constructor; [constructor|done].
  - inversion Hst as [| |? ? Hu Hd|]; subst. destruct Hz as [_ Hz]. change (loaded hash g (TShort k (TFull ts))) with (shortNode k (refNode g (TFull ts)) (mkFlag hash g false)).
    constructor; [|done]. apply Rep_ref; [|by right; right|done|done|done]. intros _. by apply IH.
  - inversion Hst as [| | |? Hu Hd]; subst. apply sized_full in Hz.
    change (loaded hash g (TFull ts)) with (fullNode (refNode g <$> ts) (mkFlag hash g false)). constructor; [by rewrite length_fmap| |done].
    intros i n t Hn Ht. rewrite list_lookup_fmap, Ht in Hn. injection Hn as <-. pose proof (Forall_lookup_1 _ _ _ _ Hz Ht) as Hzt.
    apply lookup_lt_Some in Ht as Hi. apply Rep_ref; [| |done|by eapply Hu|by eapply Hd].
    + intros Hst'. destruct (decide (i = 16%nat)) as [->|].
      * destruct (H16 t Ht ltac:(by intros ->; inversion Hst')) as (v & _ & ->). inversion Hst'.
      * eapply IH; [done|by intros ->; inversion Hst'|lia|done|by eapply Hu].
    + destruct (decide (t = TNil)) as [->|Hn]; [by left; left|]. destruct (decide (i = 16%nat)) as [->|]; [left; right; by apply H16|].
      right; right. eapply Hs; [done|done|lia].
Qed.

Lemma loaded_not_hash hash g t : sub t -> isHash (loaded hash g t) = false.
Proof. by inversion 1. Qed.

Lemma mustDecodeNode_ok h g t : sub t -> sized t -> mustDecodeNode h (encT t) g = Ok (loaded (Some h) g t).
Proof.
  intros Hs Hz. pose proof (encT_bound t Hs Hz) as Hb. unfold mustDecodeNode.
  pose proof (decodeNode_ok t Hs (S (length (encT t))) (Some h) [] g) as E. rewrite app_nil_r in E. rewrite E; [done|lia|lia].
Qed.

Lemma resolveHash_loaded g t prefix :
  sub t -> sized t -> InDb t -> resolveHash db g (hashOf t) prefix = Ok (loaded (Some (hashOf t)) g t).
Proof.
  intros Hs Hz Hd. rewrite <- (mustDecodeNode_ok (hashOf t) g t Hs Hz). pose proof (encT_length t Hs) as Hlt.
  unfold resolveHash. rewrite Hd. destruct (encT t); [cbn in Hlt; lia|reflexivity].
Qed.

(** The hash of a subtree finds it. *)
Lemma resolveHash_ok top g h t prefix :
  Rep top (hashNode h) t -> exists n, resolveHash db g h prefix = Ok n /\ Rep top n t /\ isHash n = false.
Proof.
  inversion 1 as [| | | |? ? ? Hh Hs Hz Ht Hd Hst]; subst. exists (loaded (Some (hashOf t)) g t).
  split_and!; [by apply resolveHash_loaded| |by apply loaded_not_hash].
  apply Rep_loaded; [done..|]. cbn. auto.
Qed.

(** ** Lookups *)

Definition hashy (n : node) : nat := if isHash n then 1 else 0.

Section Ops.
Variable g : Z.

Definition GetOk (fuel : nat) : Prop := forall top n t prefix key,
  Rep top n t -> sits key t -> (2 * length key + hashy n < fuel)%nat ->
  exists n' b, tryGet db g fuel n prefix key = Ok (tget t key, n', b) /\ Rep top n' t.

Lemma tryGet_hash fuel top h t prefix key :
  GetOk fuel -> Rep top (hashNode h) t -> sits key t -> (2 * length key < fuel)%nat ->
  exists n' b, tryGet db g (S fuel) (hashNode h) prefix key = Ok (tget t key, n', b) /\ Rep top n' t.
Proof.
  intros IH Hr Hs Hf. destruct (resolveHash_ok top g h t prefix Hr) as (n & En & Hn & Hh). cbn [tryGet]. rewrite En. cbn [rbind].
  destruct (IH top n t prefix key Hn Hs) as (n' & b & E & Hn'); [unfold hashy; rewrite Hh; lia|]. rewrite E. cbn [rbind]. eauto.
Qed.

Lemma tryGet_full fuel top ns fl ts prefix x rest :
  GetOk fuel -> Rep top (fullNode ns fl) (TFull ts) -> sub (TFull ts) -> hexKey (x :: rest) -> (2 * length rest + 1 < fuel)%nat ->
  exists n' b, tryGet db g (S fuel) (fullNode ns fl) prefix (x :: rest) = Ok (tget (TFull ts) (x :: rest), n', b) /\ Rep top n' (TFull ts).
Proof.
  intros IH Hr Hs Hk Hf. destruct (full_child ts x rest Hs Hk) as (t & Ht & Hsits).
  destruct (Rep_child _ _ _ _ _ _ Hr Ht) as (n & Hn & Hrn). rewrite tget_full, Ht. cbn [tryGet]. unfold child. rewrite Hn. cbn [deref rbind].
  destruct (IH false n t (prefix ++ [x]) rest Hrn Hsits) as (n' & b & E & Hn'); [unfold hashy; destruct (isHash n); lia|].
  rewrite E. cbn [rbind]. eexists _, b. split; [done|]. destruct b; [|done].
  rewrite <- (list_insert_id ts (index x) t Ht). eapply Rep_insert; [done|done|]. rewrite list_insert_id by done. by inversion Hr.
Qed.

Lemma tryGet_short fuel top k n fl t prefix key :
  GetOk fuel -> Rep top (shortNode k n fl) (TShort k t) -> sub (TShort k t) -> hexKey key -> (2 * length key <= fuel)%nat ->
  exists n' b, tryGet db g (S fuel) (shortNode k n fl) prefix key = Ok (tget (TShort k t) key, n', b) /\ Rep top n' (TShort k t).
Proof.
  intros IH Hr Hs Hk Hf. cbn [tryGet tget]. destruct (strip k key) as [r|] eqn:E.
  - apply strip_Some in E as ->. rewrite (proj2 (Nat.ltb_ge _ _)) by (rewrite length_app; lia).
    rewrite take_app_length, drop_app_length, bool_decide_true by done. cbn [orb negb].
    destruct (short_below k t r Hs Hk) as (Hsits & Hne & _). inversion Hr as [| |? ? ? ? ? Hn Hfl| |]; subst.
    destruct (IH false n t (prefix ++ k) r Hn Hsits) as (n' & b & E & Hn').
    { rewrite length_app in Hf. destruct k; [done|]. cbn in Hf. unfold hashy. destruct (isHash n); lia. }
    rewrite E. cbn [rbind]. eexists _, b. split; [done|]. destruct b; [|done]. by constructor.
  - replace ((length key <? length k)%nat || negb (bool_decide (k = take (length k) key))) with true; [by eauto|].
    symmetry. apply orb_true_iff. right. apply negb_true_iff, bool_decide_eq_false. intros Ek.
    by rewrite <- (take_drop (length k) key), <- Ek, strip_self in E.
Qed.

Lemma tryGet_spec fuel : GetOk fuel.
Proof.
  induction fuel as [|fuel IH]; intros top n t prefix key Hr Hs Hf; [lia|].
  inversion Hr as [| |? k n' t' fl Hn Hfl|? ns ts fl Hl Hn Hfl|? h t' Hh H1 Hz Ht Hd Hst]; subst.
  - by eexists _, _.
  - destruct key as [|x key]; [by eexists _, _|]. destruct Hs as [_ [?|Hs]]; [done|inversion Hs].
  - destruct key as [|x key]; [by destruct Hs as [?|(? & _ & ?)]|]. destruct Hs as [Hk [?|Hs]]; [done|].
    apply tryGet_short; [done..|]. cbn [hashy isHash] in Hf. lia.
  - destruct key as [|x key]; [by destruct Hs as [?|(? & _ & ?)]|]. destruct Hs as [Hk [?|Hs]]; [done|].
    apply tryGet_full; [done..|]. cbn [hashy isHash length] in Hf. lia.
  - apply tryGet_hash; [done..|]. cbn [hashy isHash] in Hf. lia.
Qed.

(** ** Insertions *)

Definition InsertOk (fuel : nat) : Prop := forall top n t prefix key v,
  Rep top n t -> sits key t -> (2 * length key + hashy n < fuel)%nat ->
  exists d n', insert db g fuel n prefix key (valueNode v) = Ok (d, n') /\ Rep top n' (tinsert t key v) /\
    (d = false -> tinsert t key v = t).

(** Below an empty entry. *)
Lemma insert_nil fuel top prefix key m u :
  Rep false m u -> (key = [] -> top = false) ->
  exists n, insert db g (S fuel) nilNode prefix key m = Ok (true, n) /\ Rep top n (under key u).
Proof.
  intros Hm Ht. destruct key as [|x key]; cbn [insert].
  - eexists. split; [done|]. by rewrite Ht.
  - eexists. split; [done|]. constructor; [done|apply FlagOk_new].
Qed.

Lemma insert_hash fuel top h t prefix x rest v :
  InsertOk fuel -> Rep top (hashNode h) t -> sits (x :: rest) t -> (2 * length (x :: rest) < fuel)%nat ->
  exists d n', insert db g (S fuel) (hashNode h) prefix (x :: rest) (valueNode v) = Ok (d, n') /\
    Rep top n' (tinsert t (x :: rest) v) /\ (d = false -> tinsert t (x :: rest) v = t).
Proof.
  intros IH Hr Hs Hf. destruct (resolveHash_ok top g h t prefix Hr) as (n & En & Hn & Hh). cbn [insert]. rewrite En. cbn [rbind].
  destruct (IH top n t prefix (x :: rest) v Hn Hs) as (d & n' & E & Hn' & Hd); [unfold hashy; rewrite Hh; lia|]. rewrite E. cbn [rbind].
  destruct d; [by eexists _, _|]. eexists false, n. split_and!; [done| |done]. by rewrite Hd.
Qed.

Lemma insert_full fuel top ns fl ts prefix x rest v :
  InsertOk fuel -> Rep top (fullNode ns fl) (TFull ts) -> sub (TFull ts) -> hexKey (x :: rest) -> (2 * length rest + 1 < fuel)%nat ->
  exists d n', insert db g (S fuel) (fullNode ns fl) prefix (x :: rest) (valueNode v) = Ok (d, n') /\
    Rep top n' (tinsert (TFull ts) (x :: rest) v) /\ (d = false -> tinsert (TFull ts) (x :: rest) v = TFull ts).
Proof.
  intros IH Hr Hs Hk Hf. destruct (full_child ts x rest Hs Hk) as (t & Ht & Hsits).
  destruct (Rep_child _ _ _ _ _ _ Hr Ht) as (n & Hn & Hrn). cbn [insert tinsert]. rewrite (alter_insert _ _ _ _ Ht).
  unfold child. rewrite Hn. cbn [deref rbind].
  destruct (IH false n t (prefix ++ [x]) rest v Hrn Hsits) as (d & n' & E & Hn' & Hd); [unfold hashy; destruct (isHash n); lia|].
  rewrite E. cbn [rbind]. destruct d.
  - eexists _, _. split_and!; [done| |done]. eapply Rep_insert; [done|done|apply FlagOk_new].
  - eexists _, _. rewrite Hd, list_insert_id by done. by split_and!.
Qed.

(** The branch where two keys part. *)
Lemma Rep_branch top y x old new m m' fl :
  (index x < 17)%nat -> (index y < 17)%nat -> Rep false m old -> Rep false m' new ->
  fl = newFlag g ->
  Rep top (fullNode (<[index x := m']> (<[index y := m]> (replicate 17 nilNode))) fl) (branchAt y x old new).
Proof.
  intros Hx Hy Hm Hm' ->. unfold branchAt. eapply (Rep_insert _ _ (newFlag g) top); [|done|apply FlagOk_new].
  eapply (Rep_insert _ _ (newFlag g) top); [|done|apply FlagOk_new]. constructor; [by rewrite !length_replicate| |apply FlagOk_new].
  intros i a b Ha Hb. apply lookup_replicate in Ha as [-> _], Hb as [-> _]. constructor.
Qed.

Lemma insert_short fuel top k n fl t prefix x rest v :
  InsertOk fuel -> Rep top (shortNode k n fl) (TShort k t) -> sub (TShort k t) -> hexKey (x :: rest) -> (2 * length (x :: rest) <= fuel)%nat ->
  exists d n', insert db g (S fuel) (shortNode k n fl) prefix (x :: rest) (valueNode v) = Ok (d, n') /\
    Rep top n' (tinsert (TShort k t) (x :: rest) v) /\ (d = false -> tinsert (TShort k t) (x :: rest) v = TShort k t).
Proof.
  intros IH Hr Hs Hk Hf. inversion Hr as [| |? ? ? ? ? Hn Hfl| |]; subst. remember (x :: rest) as key eqn:Ekey.
  assert (Estep : insert db g (S fuel) (shortNode k n fl) prefix key (valueNode v) =
    let matchlen := prefixLen key k in
    if (matchlen =? length k)%nat then
      let* (dirty, nn) := insert db g fuel n (prefix ++ take matchlen key) (drop matchlen key) (valueNode v) in
      Ok (if dirty then (true, shortNode k nn (newFlag g)) else (false, shortNode k n fl))
    else
      let* kx := deref (k !! matchlen) in
      let* x := deref (key !! matchlen) in
      let* (_, old) := insert db g fuel nilNode (prefix ++ take (matchlen + 1) k) (drop (matchlen + 1) k) n in
      let* (_, new) := insert db g fuel nilNode (prefix ++ take (matchlen + 1) key) (drop (matchlen + 1) key) (valueNode v) in
      let branch := fullNode (<[index x := new]> (<[index kx := old]> (replicate 17 nilNode))) (newFlag g) in
      Ok (true, if (matchlen =? 0)%nat then branch else shortNode (take matchlen key) branch (newFlag g))) by (by rewrite Ekey).
  rewrite Estep. clear Estep. cbv zeta. cbn [tinsert].
  destruct (prefixLen_cases key k) as [(r & E1 & ->)|[(r & Hne & -> & _)|(p & x' & y & r & s & E1 & -> & Hne & ->)]].
  - rewrite Nat.eqb_refl. rewrite E1 in Hk, Hf |- *. rewrite take_app_length, drop_app_length. destruct (short_below k t r Hs Hk) as (Hsits & Hkn & _).
    destruct (IH false n t (prefix ++ k) r v Hn Hsits) as (d & n' & E & Hn' & Hd).
    { rewrite length_app in Hf. destruct k; [done|]. cbn in Hf. unfold hashy. destruct (isHash n); lia. }
    rewrite E. cbn [rbind]. destruct d; [|eexists _, _; rewrite Hd by done; by split_and!].
    eexists _, _. split_and!; [done| |done]. constructor; [done|apply FlagOk_new].
  - exfalso. inversion Hs as [k' w Hk' _|k' ts _ Hk' _|]; subst.
    + by apply Hne, (hexKey_prefix_free (x :: rest)).
    + apply Forall_app in Hk' as [Hk' _]. by apply nibbles_not_key in Hk'.
  - rewrite E1 in Hk, Hf |- *. rewrite (proj2 (Nat.eqb_neq _ _)) by (rewrite length_app; cbn; lia).
    rewrite !list_lookup_middle by done. cbn [deref rbind]. rewrite take_app_length, !drop_middle. destruct fuel as [|fuel]; [rewrite length_app in Hf; cbn in Hf; lia|].
    destruct (insert_nil fuel false (prefix ++ take (length p + 1) (p ++ y :: s)) s n t Hn) as (old & -> & Hold); [done|].
    destruct (insert_nil fuel false (prefix ++ take (length p + 1) (p ++ x' :: r)) r (valueNode v) (TValue v)) as (new & -> & Hnew); [constructor|done|].
    cbn [rbind]. eexists _, _. split_and!; [done| |done]. destruct (short_tail _ _ _ _ Hs) as [_ (Hy & _)].
    assert (Hx : (index x' < 17)%nat) by (apply hexKey_nibbles in Hk as [_ Hk]; [by eapply hexKey_index|done]).
    destruct p as [|z p]; [by apply Rep_branch|]. constructor; [by apply Rep_branch|apply FlagOk_new].
Qed.

Lemma insert_spec fuel : InsertOk fuel.
Proof.
  induction fuel as [|fuel IH]; intros top n t prefix key v Hr Hs Hf; [lia|].
  destruct key as [|x key].
  - cbn [insert]. inversion Hr as [| |? k n' t' fl Hn Hfl|? ns ts fl Hl Hn Hfl|? h t' Hh H1 Hz Ht Hd Hst]; subst.
    + eexists _, _. split_and!; [done|constructor|done].
    + eexists _, _. split_and!; [done|constructor|]. intros E. cbn [tinsert]. apply negb_false_iff, bool_decide_eq_true in E. by subst.
    + by destruct Hs as [?|(? & _ & ?)].
    + by destruct Hs as [?|(? & _ & ?)].
    + destruct Hs as [->|(? & _ & ->)]; inversion H1.
  - inversion Hr as [| |? k n' t' fl Hn Hfl|? ns ts fl Hl Hn Hfl|? h t' Hh H1 Hz Ht Hd Hst]; subst.
    + destruct (insert_nil fuel top prefix (x :: key) (valueNode v) (TValue v)) as (n & E & Hn); [constructor|done|]. by eexists _, _.
    + destruct Hs as [_ [?|Hs]]; [done|inversion Hs].
    + destruct Hs as [Hk [?|Hs]]; [done|]. apply insert_short; [done..|]. cbn [hashy isHash] in Hf. lia.
    + destruct Hs as [Hk [?|Hs]]; [done|]. apply insert_full; [done..|]. cbn [hashy isHash length] in Hf. lia.
    + apply insert_hash; [done..|]. cbn [hashy isHash] in Hf. lia.
Qed.

(** ** Deletions *)

Definition DeleteOk (fuel : nat) : Prop := forall top n t prefix key,
  Rep top n t -> sits key t -> (2 * length key + hashy n < fuel)%nat ->
  exists d n', delete db g fuel n prefix key = Ok (d, n') /\ Rep top n' (tdelete t key) /\
    (d = false -> tdelete t key = t) /\ (d = true -> isHash n' = false).

Lemma Rep_isNil top n t : Rep top n t -> isNil n = tnil t.
Proof. inversion 1 as [| | | |? ? ? _ Hs]; subst; try done. by inversion Hs. Qed.

Lemma onlyChild_scan ns i pos : onlyChild ns i pos = scan (isNil <$> ns) i pos.
Proof. revert i pos. induction ns as [|n ns IH]; intros i pos; [done|]. cbn. rewrite !IH. done. Qed.

Lemma isNil_list (ns : list node) (ts : list tree) :
  length ns = length ts -> (forall i n t, ns !! i = Some n -> ts !! i = Some t -> Rep false n t) -> isNil <$> ns = tnil <$> ts.
Proof.
  revert ts. induction ns as [|n ns IH]; intros [|t ts] Hl Hr; [done..|]. cbn. f_equal.
  - apply (Rep_isNil false). by apply (Hr 0%nat).
  - apply IH; [by injection Hl|]. intros i. apply (Hr (S i)).
Qed.

(** What [resolve] finds has the shape of the tree. *)
Lemma resolve_ok n t prefix : Rep false n t -> exists m, resolve db g n prefix = Ok m /\ Rep false m t /\ isHash m = false.
Proof.
  intros Hr. destruct n as [| | |h|]; try (by eexists). by apply resolveHash_ok.
Qed.

Lemma reduce_ok top ns ts prefix :
  length ns = length ts -> (forall i n t, ns !! i = Some n -> ts !! i = Some t -> Rep false n t) ->
  length ts = 17%nat -> (forall i t, ts !! i = Some t -> t <> TNil -> entryOk i t) -> (exists i t, ts !! i = Some t /\ t <> TNil) ->
  exists n, reduce db g ns prefix = Ok n /\ Rep top n (treduce ts) /\ isHash n = false.
Proof.
  intros Hl Hr Hlen He (i0 & t0 & Hi0 & Ht0). unfold reduce, treduce. rewrite onlyChild_scan, (isNil_list ns ts Hl Hr).
  destruct (scan_spec (tnil <$> ts) 0 ltac:(lia)) as [E|[(j & Hj & _ & ->)|(j & j' & _ & _ & _ & ->)]].
  - destruct (E i0). apply tnil_false. eauto.
  - rewrite Z.add_0_l, (proj2 (Z.leb_le _ _)), Nat2Z.id by lia. apply tnil_false in Hj as (t & Ht & Hn). rewrite Ht.
    destruct (He j t Ht Hn) as (Hj17 & _ & Hsub & _). destruct (lookup_lt_is_Some_2 ns j) as [n Hnj]; [lia|].
    pose proof (Hr j n t Hnj Ht) as Hrn. rewrite Hnj. cbn [deref rbind].
    destruct (Z.eqb_spec (Z.of_nat j) 16) as [E|E]; cbn [negb]; [eexists; split_and!; [done| |done]; by constructor; [|apply FlagOk_new]|].
    destruct (resolve_ok n t prefix Hrn) as (m & -> & Hm & Hh). cbn [rbind]. eexists. split; [done|].
    specialize (Hsub ltac:(lia)). inversion Hm as [| |? k n' t' fl Hn' Hfl|? ns' ts' fl Hl' Hn' Hfl|]; subst; [by inversion Hsub..| | |done].
    + split; [|done]. cbn [join app]. by constructor; [|apply FlagOk_new].
    + split; [|done]. cbn [join]. by constructor; [|apply FlagOk_new].
  - eexists. split_and!; [done| |done]. by constructor; [| |apply FlagOk_new].
Qed.

Lemma delete_hash fuel top h t prefix key :
  DeleteOk fuel -> Rep top (hashNode h) t -> sits key t -> (2 * length key < fuel)%nat ->
  exists d n', delete db g (S fuel) (hashNode h) prefix key = Ok (d, n') /\ Rep top n' (tdelete t key) /\
    (d = false -> tdelete t key = t) /\ (d = true -> isHash n' = false).
Proof.
  intros IH Hr Hs Hf. destruct (resolveHash_ok top g h t prefix Hr) as (n & En & Hn & Hh). cbn [delete]. rewrite En. cbn [rbind].
  destruct (IH top n t prefix key Hn Hs) as (d & n' & E & Hn' & Hd & Hh'); [unfold hashy; rewrite Hh; lia|]. rewrite E. cbn [rbind].
  destruct d; [by eexists _, _|]. eexists false, n. split_and!; [done| |done|done]. by rewrite Hd.
Qed.

Lemma delete_full fuel top ns fl ts prefix x rest :
  DeleteOk fuel -> Rep top (fullNode ns fl) (TFull ts) -> sub (TFull ts) -> hexKey (x :: rest) -> (2 * length rest + 1 < fuel)%nat ->
  exists d n', delete db g (S fuel) (fullNode ns fl) prefix (x :: rest) = Ok (d, n') /\
    Rep top n' (tdelete (TFull ts) (x :: rest)) /\ (d = false -> tdelete (TFull ts) (x :: rest) = TFull ts) /\ (d = true -> isHash n' = false).
Proof.
  intros IH Hr Hs Hk Hf. destruct (full_child ts x rest Hs Hk) as (t & Ht & Hsits).
  destruct (Rep_child _ _ _ _ _ _ Hr Ht) as (n & Hn & Hrn). cbn [delete tdelete]. rewrite (alter_insert _ _ _ _ Ht).
  unfold child. rewrite Hn. cbn [deref rbind].
  destruct (IH false n t (prefix ++ [x]) rest Hrn Hsits) as (d & n' & E & Hn' & Hd & _); [unfold hashy; destruct (isHash n); lia|].
  rewrite E. cbn [rbind]. destruct d.
  - destruct (deleted_entries ts x rest (tdelete t rest) Hs Hk) as (Hl & He & Hex); [by destruct (tdelete_spec rest t Hsits)|].
    pose proof (Rep_insert _ _ _ _ (newFlag g) top (index x) _ _ Hr Hn' (FlagOk_new _ _ _)) as Hr'.
    inversion Hr' as [| | |? ? ? ? Hl' Hc' _|]; subst.
    destruct (reduce_ok top _ _ prefix Hl' Hc' Hl He Hex) as (m & -> & Hm & Hh). cbn [rbind]. eexists _, _. by split_and!.
  - eexists _, _. rewrite Hd, list_insert_id by done. rewrite treduce_branches by (by inversion Hs). by split_and!.
Qed.

Lemma delete_short fuel top k n fl t prefix key :
  DeleteOk fuel -> Rep top (shortNode k n fl) (TShort k t) -> sub (TShort k t) -> hexKey key -> (2 * length key <= fuel)%nat ->
  exists d n', delete db g (S fuel) (shortNode k n fl) prefix key = Ok (d, n') /\
    Rep top n' (tdelete (TShort k t) key) /\ (d = false -> tdelete (TShort k t) key = TShort k t) /\ (d = true -> isHash n' = false).
Proof.
  intros IH Hr Hs Hk Hf. inversion Hr as [| |? ? ? ? ? Hn Hfl| |]; subst. cbn [delete tdelete].
  destruct (prefixLen key k <? length k)%nat eqn:E1; [by eexists _, _|]. destruct (prefixLen key k =? length key)%nat eqn:E2.
  { eexists _, _. split_and!; [done|constructor|done|done]. }
  apply Nat.ltb_ge in E1. apply Nat.eqb_neq in E2.
  destruct (prefixLen_cases key k) as [(r & -> & E)|[(r & Hne & -> & E)|(p & x & y & r & s & -> & -> & Hne & E)]];
    [|rewrite E, length_app in E1; destruct r; [done|cbn in E1; lia]|rewrite E, length_app in E1; cbn in E1; lia].
  rewrite drop_app_length. destruct (short_below k t r Hs Hk) as (Hsits & Hkn & _).
  destruct (IH false n t (prefix ++ take (length k) (k ++ r)) r Hn Hsits) as (d & n' & Ed & Hn' & Hd & Hh).
  { rewrite length_app in Hf. destruct k; [done|]. cbn in Hf. unfold hashy. destruct (isHash n); lia. }
  rewrite Ed. cbn [rbind]. destruct d.
  - eexists _, _. split; [done|]. specialize (Hh eq_refl).
    inversion Hn' as [H1 H2 H3|? v H2 H3|? k' m' u' fl' Hm Hfl' H2 H3|? ns' ts' fl' Hl' Hm Hfl' H2 H3|]; subst; [..|done];
      (split_and!; [|done|done]); cbn [join]; (apply rep_short; [first [done|by constructor]|apply FlagOk_new]).
  - eexists _, _. rewrite Hd by done. inversion Hs; subst; cbn [join]; by split_and!.
Qed.

Lemma delete_spec fuel : DeleteOk fuel.
Proof.
  induction fuel as [|fuel IH]; intros top n t prefix key Hr Hs Hf; [lia|].
  inversion Hr as [| |? k n' t' fl Hn Hfl|? ns ts fl Hl Hn Hfl|? h t' Hh H1 Hz Ht Hd Hst]; subst.
  - by eexists _, _.
  - eexists _, _. split_and!; [done|constructor|done|done].
  - destruct key as [|x key]; [by destruct Hs as [?|(? & _ & ?)]|]. destruct Hs as [Hk [?|Hs]]; [done|].
    apply delete_short; [done..|]. cbn [hashy isHash] in Hf. lia.
  - destruct key as [|x key]; [by destruct Hs as [?|(? & _ & ?)]|]. destruct Hs as [Hk [?|Hs]]; [done|].
    apply delete_full; [done..|]. cbn [hashy isHash length] in Hf. lia.
  - apply delete_hash; [done..|]. cbn [hashy isHash] in Hf. lia.
Qed.

End Ops.
End Walk.
