(* ===== verification/TrieDbProofs.v ===== *)
(** * Package trie: lemmas about the node database

    What inserting and referencing nodes leave as it was. *)

From stdpp Require Import base numbers list gmap option.
From Stdlib Require Import ZArith Lia Strings.Byte.
From S2P Require Import Prelude Common TrieDatabase.
Import triedb.

(** ** Blobs *)

(** The same blobs and the same ends of the flush list. *)
Record SameNodes (d d' : Database) : Prop := {
  sn_disk : diskdb d' = diskdb d;
  sn_blob : forall h, blob <$> nodes d' !! h = blob <$> nodes d !! h;
  sn_oldest : oldest d' = oldest d;
  sn_newest : newest d' = newest d
}.

#[global] Instance SameNodes_preorder : PreOrder SameNodes.
Proof.
  split; [by intros d; split|]. intros d1 d2 d3 [A1 A2 A3 A4] [B1 B2 B3 B4].
  split; [congruence|intros h; by rewrite B2, A2|congruence|congruence].
Qed.

Lemma Node_same d d' h : SameNodes d d' -> Node h d' = Node h d.
Proof.
  intros [A1 A2 _ _]. specialize (A2 h). unfold Node. rewrite A1.
  destruct (nodes d !! h), (nodes d' !! h); cbn in A2; congruence.
Qed.

Lemma SameNodes_cached d d' h : SameNodes d d' -> is_Some (nodes d !! h) -> is_Some (nodes d' !! h).
Proof. intros [_ A2 _ _] [n Hn]. specialize (A2 h). rewrite Hn in A2. by destruct (nodes d' !! h). Qed.

(** Changes to a node that leave its blob. *)
Lemma modifyNode_same h f d :
  is_Some (nodes d !! h) -> (forall n, blob (f n) = blob n) -> exists d', modifyNode h f d = Ok d' /\ SameNodes d d'.
Proof.
  intros [n Hn] Hf. unfold modifyNode. rewrite Hn. cbn [deref rbind]. eexists. split; [done|]. split; cbn; try done.
  intros h'. destruct (decide (h' = h)) as [->|Hne]; [|by rewrite lookup_insert_ne]. rewrite lookup_insert_eq, Hn. cbn. by rewrite Hf.
Qed.

Lemma reference_same child parent d :
  is_Some (nodes d !! parent) -> exists d', reference child parent d = Ok d' /\ SameNodes d d'.
Proof.
  intros Hp. unfold reference. destruct (nodes d !! child) as [node|] eqn:Ec; [|by exists d].
  destruct Hp as [p Hp]. rewrite Hp. cbn [deref rbind]. destruct (_ && _); [by exists d|].
  destruct (modifyNode_same child (setParents (parents node + 1)) d) as (d1 & -> & H1); [by rewrite Ec|done|]. cbn [rbind].
  destruct (modifyNode_same parent (fun p => setChildren (<[child := refCount p child + 1]> (children p)) p) d1) as (d2 & -> & H2);
    [eapply SameNodes_cached; [done|]; by rewrite Hp|done|].
  exists d2. split; [done|]. by etrans.
Qed.

(** ** Insertion *)

(** The end of the flush list is there, for the next insertion. *)
Definition NewestOk (d : Database) : Prop := oldest d = 0 \/ is_Some (nodes d !! newest d).

Lemma NewestOk_same d d' : SameNodes d d' -> NewestOk d -> NewestOk d'.
Proof.
  intros H [Ho|Hn]; [left; by rewrite (sn_oldest _ _ H)|]. right. rewrite (sn_newest _ _ H). by eapply SameNodes_cached.
Qed.

Lemma insert_ok h b d :
  NewestOk d ->
  exists d', insert h b d = Ok d' /\ NewestOk d' /\ is_Some (nodes d' !! h) /\
    (is_Some (nodes d !! h) -> d' = d) /\ (nodes d !! h = None -> Node h d' = Some b) /\
    (forall h', h' <> h -> Node h' d' = Node h' d) /\ forall h', is_Some (nodes d !! h') -> is_Some (nodes d' !! h').
Proof.
  intros Hnew. unfold insert. destruct (nodes d !! h) as [n|] eqn:E.
  { by exists d. }
  set (n := mkNode b 0 ∅ (newest d) 0). set (d1 := setNodes (<[h := n]> (nodes d)) d).
  assert (H : exists d2, (if oldest d =? 0 then Ok (setOldest h d1) else modifyNode (newest d) (setNext h) d1) = Ok d2 /\
    diskdb d2 = diskdb d /\ forall h', blob <$> nodes d2 !! h' = blob <$> nodes d1 !! h').
  { destruct (Z.eqb_spec (oldest d) 0) as [Ho|Ho]; [by eexists|]. destruct Hnew as [?|Hnew]; [done|].
    destruct (modifyNode_same (newest d) (setNext h) d1) as (d2 & -> & H2); [|done|].
    - destruct (decide (newest d = h)) as [->|Hne]; [by eexists; apply lookup_insert_eq|]. cbn. by rewrite lookup_insert_ne.
    - exists d2. split_and!; [done|apply (sn_disk _ _ H2)|apply (sn_blob _ _ H2)]. }
  destruct H as (d2 & -> & Hd & Hb). cbn [rbind].
  assert (Hh : nodes d2 !! h <> None) by (intros Hn; specialize (Hb h); rewrite Hn in Hb; cbn in Hb; by rewrite lookup_insert_eq in Hb).
  apply not_eq_None_Some in Hh. eexists. split; [done|]. split_and!.
  - right. exact Hh.
  - exact Hh.
  - by intros [? ?].
  - intros _. unfold Node. cbn [nodes addSize setNewest]. specialize (Hb h). destruct (nodes d2 !! h) as [m|]; cbn in Hb; rewrite lookup_insert_eq in Hb; [by injection Hb as ->|done].
  - intros h' Hne. unfold Node. cbn [nodes diskdb addSize setNewest]. rewrite Hd. specialize (Hb h'). cbn in Hb. rewrite lookup_insert_ne in Hb by done.
    destruct (nodes d2 !! h'), (nodes d !! h'); cbn in Hb; congruence.
  - intros h' [m Hm]. cbn [nodes addSize setNewest]. specialize (Hb h'). cbn in Hb.
    rewrite lookup_insert_ne in Hb by congruence. rewrite Hm in Hb. by destruct (nodes d2 !! h').
Qed.

(** A loop keeps what its steps keep. *)
Lemma forEach_ok {A S E} (R : S -> S -> Prop) `{!PreOrder R} (P : S -> Prop) (f : A -> S -> result E S) l s :
  (forall x s, x ∈ l -> P s -> exists s', f x s = Ok s' /\ P s' /\ R s s') -> P s ->
  exists s', forEach f l s = Ok s' /\ P s' /\ R s s'.
Proof.
  revert s. induction l as [|x l IH]; intros s Hf Hs; cbn [forEach]; [by exists s|].
  destruct (Hf x s) as (s1 & -> & H1 & R1); [by left|done|]. cbn [rbind].
  destruct (IH s1) as (s2 & E2 & H2 & R2); [intros; apply Hf; [by right|done]|done|]. exists s2. split_and!; [exact E2|done|by etrans].
Qed.
