(* ===== verification/TrieHash.v ===== *)
(** * Package trie: hashing and committing

    [hash] of hasher.go computes the hash of the tree that a node stands for, whatever
    is cached, and when it is given a database it leaves every subtree in it. *)

From stdpp Require Import base numbers list gmap option.
From Stdlib Require Import ZArith Lia Strings.Byte.
From S2P Require Import Prelude Rlp RlpProofs RlpDecodeProofs RlpRawProofs Common Types TrieDatabase Trie TrieTree TrieEncode TrieWalk TrieDbProofs.
Import trie.

#[local] Transparent rlpEncode.
Lemma rlpEncode_bytes v : encodable v = true -> len (rlpBytes v) < 2 ^ 64 -> rlpEncode v = rlpBytes v.
Proof. intros He Hl. unfold rlpEncode. by rewrite EncodeToBytes_spec. Qed.
#[local] Opaque rlpEncode.

Section Hash.
Context `{Crypto}.

Lemma treeRLP_encodable t : encodable (treeRLP t) = true.
Proof.
  assert (Hr : forall u, encodable (treeRLP u) = true -> encodable (refOf u (treeRLP u)) = true).
  { intros u Hu. unfold refOf. destruct u; [done|done|by case_match|by case_match]. }
  revert t. fix go 1. intros [|v|k u|ts]; [done|done| |].
  - cbn [treeRLP encodable forallb andb]. rewrite Hr by apply go. done.
  - cbn [treeRLP encodable]. induction ts as [|u ts IH]; [done|]. cbn [fmap list_fmap forallb]. rewrite Hr by apply go. exact IH.
Qed.

Lemma encode_tree t : sub t -> sized t -> rlpEncode (treeRLP t) = encT t.
Proof. intros Hs Hz. apply rlpEncode_bytes; [apply treeRLP_encodable|]. pose proof (encT_bound t Hs Hz). unfold encT in *. lia. Qed.

(** ** Databases that grow *)

Record Ext (d d' : triedb.Database) : Prop := {
  ext_node : forall h b, triedb.Node h d = Some b -> triedb.Node h d' = Some b;
  ext_cached : forall h, is_Some (triedb.nodes d !! h) -> is_Some (triedb.nodes d' !! h)
}.

#[global] Instance Ext_preorder : PreOrder Ext.
Proof. split; [by intros d; split|]. intros d1 d2 d3 [] []. split; auto. Qed.

Lemma SameNodes_ext d d' : SameNodes d d' -> Ext d d'.
Proof. intros Hs. split; [intros h b; by rewrite (Node_same d d' h Hs)|]. intros h. by apply SameNodes_cached. Qed.

Lemma InDb_mono d d' t : Ext d d' -> InDb d t -> InDb d' t.
Proof. intros He. apply (ext_node _ _ He). Qed.

Lemma Stored_mono d d' t : Ext d d' -> Stored d t -> Stored d' t.
Proof.
  intros He. induction 1 as [|v|k u Hu IH Hd|ts Hs IH Hd]; constructor; eauto using InDb_mono.
Qed.

Lemma FlagOk_mono d d' top fl t : Ext d d' -> FlagOk d top fl t -> FlagOk d' top fl t.
Proof.
  intros He. unfold FlagOk. destruct (fHash fl); [|done]. intros (H1 & H2 & H3). split_and!; [done..|].
  intros Hd. destruct (H3 Hd). eauto using InDb_mono, Stored_mono.
Qed.

Lemma Rep_mono d d' top n t : Ext d d' -> Rep d top n t -> Rep d' top n t.
Proof.
  intros He. induction 1 as [| |top k n t fl Hn IH Hf|top ns ts fl Hl Hn IH Hf|top h t Hh Hs Hz Ht Hd Hst];
    constructor; eauto using InDb_mono, Stored_mono, FlagOk_mono.
Qed.

(** Subtrees. *)
Inductive below : tree -> tree -> Prop :=
| below_refl t : below t t
| below_short u k t : below u t -> below u (TShort k t)
| below_full u i t ts : ts !! i = Some t -> below u t -> below u (TFull ts).

(** ** What the hash tells apart *)

Section Known.
(** The blobs that the database has or is given. *)
Variable P : list byte -> Prop.

Notation keyB b := (BytesToHash (HashBytes (Keccak256 b))).

Record Distinct : Prop := {
  dist_inj : forall a b, P a -> P b -> keyB a = keyB b -> a = b;
  dist_zero : forall a, P a -> keyB a <> 0;
  dist_empty : forall a, P a -> keyB a <> emptyRoot
}.

(** Blobs are stored under their hashes, and the flush list is in order. *)
Record Good (d : triedb.Database) : Prop := {
  good_newest : NewestOk d;
  good_blob : forall h b, triedb.Node h d = Some b -> h <> 0 -> P b /\ keyB b = h
}.

Definition Known (t : tree) : Prop := forall u, below u t -> sub u -> P (encT u).

Lemma Known_short k u : Known (TShort k u) -> Known u.
Proof. intros Hk v Hv. apply Hk. by constructor. Qed.
Lemma Known_child ts i t : Known (TFull ts) -> ts !! i = Some t -> Known t.
Proof. intros Hk Ht v Hv. apply Hk. by econstructor. Qed.

Lemma Good_same d d' : SameNodes d d' -> Good d -> Good d'.
Proof. intros Hs [H1 H2]. split; [by eapply NewestOk_same|]. intros h b. rewrite (Node_same d d' h Hs). apply H2. Qed.

Hypothesis HP : Distinct.

Lemma insert_good b d :
  Good d -> P b -> exists d', triedb.insert (keyB b) b d = Ok d' /\ Good d' /\ Ext d d' /\
    triedb.Node (keyB b) d' = Some b /\ is_Some (triedb.nodes d' !! keyB b).
Proof.
  intros Hg Hb. pose proof (dist_zero HP b Hb) as H0. destruct (insert_ok (keyB b) b d (good_newest d Hg)) as (d' & E & Hn & Hc & Hold & Hnew & Ho & Hmono).
  exists d'. split; [done|]. assert (Hnode : triedb.Node (keyB b) d' = Some b).
  { destruct (triedb.nodes d !! keyB b) as [n|] eqn:En; [|by apply Hnew]. rewrite Hold by done.
    assert (Eb : triedb.Node (keyB b) d = Some (triedb.blob n)) by (unfold triedb.Node; by rewrite En).
    rewrite Eb. destruct (good_blob d Hg _ _ Eb H0) as [H1 H2]. f_equal. by apply (dist_inj HP). }
  assert (Hsame : forall h c, triedb.Node h d = Some c -> triedb.Node h d' = Some c).
  { intros h c Hh. destruct (decide (h = keyB b)) as [->|Hne]; [|by rewrite Ho]. rewrite Hnode.
    destruct (good_blob d Hg _ _ Hh H0) as [H1 H2]. f_equal. by apply (dist_inj HP). }
  split_and!; [|by split|done|done]. split; [done|]. intros h c Hh Hz. destruct (decide (h = keyB b)) as [->|Hne].
  - rewrite Hnode in Hh. injection Hh as <-. done.
  - rewrite Ho in Hh by done. by apply (good_blob d Hg).
Qed.

(** ** Storing a node *)

Variables g limit : Z.
Variable onleaf : option (list byte -> Hash -> triedb.Database -> result triedb.dbErr triedb.Database).

(** The callback may only add to the database. *)
Definition LeafOk : Prop :=
  match onleaf with
  | None => True
  | Some f => forall v h d, Good d -> is_Some (triedb.nodes d !! h) -> exists d', f v h d = Ok d' /\ Good d' /\ Ext d d'
  end.
Hypothesis HL : LeafOk.

Definition CachedGood (h : Hash) (d : triedb.Database) : Prop := Good d /\ is_Some (triedb.nodes d !! h).

Lemma referenceChild_ok h c d : CachedGood h d -> exists d', referenceChild h c d = Ok d' /\ CachedGood h d' /\ Ext d d'.
Proof.
  intros [Hg Hc]. destruct c as [| | |h'|]; try (by exists d). cbn [referenceChild].
  destruct (reference_same (BytesToHash h') h d Hc) as (d' & -> & Hs). exists d'. split; [done|].
  split_and!; [split|]; [by eapply Good_same|by eapply SameNodes_cached|by apply SameNodes_ext].
Qed.

Lemma leafChild_ok h c d : CachedGood h d -> exists d', leafChild onleaf h c d = Ok d' /\ CachedGood h d' /\ Ext d d'.
Proof.
  intros [Hg Hc]. unfold leafChild. unfold LeafOk in HL. destruct onleaf as [f|]; [|by exists d].
  destruct c as [| | | |[|x v]]; try (by exists d). destruct (HL (x :: v) h d Hg Hc) as (d' & E & Hg' & He).
  exists d'. split_and!; [done|split; [done|]|done]. by apply (ext_cached _ _ He).
Qed.

Lemma referenceChildren_ok h n d : CachedGood h d -> exists d', referenceChildren h n d = Ok d' /\ CachedGood h d' /\ Ext d d'.
Proof.
  intros Hg. destruct n as [|cs fl|k v fl| |]; try (by exists d); cbn [referenceChildren].
  - apply (forEach_ok Ext (CachedGood h)); [|done]. intros c s _. apply referenceChild_ok.
  - by apply referenceChild_ok.
Qed.

Lemma leafChildren_ok h n d : CachedGood h d -> exists d', leafChildren onleaf h n d = Ok d' /\ CachedGood h d' /\ Ext d d'.
Proof.
  intros Hg. destruct n as [|cs fl|k v fl| |]; try (by exists d); cbn [leafChildren].
  - apply (forEach_ok Ext (CachedGood h)); [|done]. intros c s _. apply leafChild_ok.
  - by apply leafChild_ok.
Qed.

(** The database that [hash] is given: the trie's, or none. *)
Definition given (md : bool) (d : triedb.Database) : option triedb.Database := if md then Some d else None.

(** What [hash] returns for a node: its hash, or, within a parent, the node itself if it is
    short. *)
Definition Hashed (force : bool) (hashed : node) (t : tree) : Prop :=
  if force || negb (small t) then hashed = hashNode (hashOf t)
  else nodeRLP hashed = treeRLP t /\ isHash hashed = false /\ isNil hashed = false.

Definition isStruct (n : node) : bool := match n with fullNode _ _ | shortNode _ _ _ => true | _ => false end.

Lemma store_hashes md d c force t :
  isStruct c = true -> nodeRLP c = treeRLP t -> sub t -> sized t -> (md = true -> Known t) -> (md = true -> Good d) ->
  (cache c).1 = None \/ (cache c).1 = Some (hashOf t) ->
  exists hashed d', store onleaf c (given md d) force = Ok (hashed, given md d') /\ (md = false -> d' = d) /\
    (md = true -> Good d') /\ Ext d d' /\ Hashed force hashed t /\ (md = true -> isHash hashed = true -> InDb d' t).
Proof.
  intros Hc Hr Hs Hz Hk Hg Hh. pose proof (encode_tree t Hs Hz) as Ee.
  assert (Est : store onleaf c (given md d) force =
    if (len (encT t) <? 32) && negb force then Ok (c, given md d)
    else match given md d with
         | None => Ok (hashNode (hashOf t), None)
         | Some d => let* d := triedb.insert (keyB (encT t)) (encT t) d in
             let* d := referenceChildren (keyB (encT t)) c d in
             let* d := leafChildren onleaf (keyB (encT t)) c d in
             Ok (hashNode (hashOf t), Some d)
         end).
  { destruct c; try discriminate Hc; unfold store, hashOf in *; rewrite Hr, Ee; (destruct Hh as [->| ->]; reflexivity). }
  rewrite Est. assert (Esm : (len (encT t) <? 32) = small t).
  { unfold small. destruct (Z.ltb_spec (len (encT t)) 32), (Nat.ltb_spec (length (encT t)) 32); done || lia. }
  rewrite Esm. unfold Hashed. destruct (small t && negb force) eqn:Eb.
  - apply andb_true_iff in Eb as [-> Ef]. apply negb_true_iff in Ef as ->. exists c, d.
    split_and!; [reflexivity|reflexivity|exact Hg|reflexivity| |].
    + cbn. split_and!; [exact Hr|by destruct c|by destruct c].
    + intros _ Hi. by destruct c.
  - assert (Ef : force || negb (small t) = true) by (by destruct force, (small t)). rewrite Ef. destruct md; cbn [given].
    + destruct (insert_good (encT t) d) as (d1 & -> & Hg1 & He1 & Hn1 & Hc1); [by apply Hg|apply Hk; [done|constructor|done]|]. cbn [rbind].
      destruct (referenceChildren_ok (keyB (encT t)) c d1) as (d2 & -> & Hg2 & He2); [by split|]. cbn [rbind].
      destruct (leafChildren_ok (keyB (encT t)) c d2 Hg2) as (d3 & -> & Hg3 & He3). cbn [rbind].
      assert (He : Ext d1 d3) by (by etrans). exists (hashNode (hashOf t)), d3. split_and!; try done; [by intros _; apply Hg3|by etrans|].
      intros _ _. by apply (ext_node _ _ He).
    + eexists _, d. by split_and!.
Qed.

(** ** Hashing *)

(** What hashing a node is to do: [force] is set at the root. *)
Definition HashesTo (md : bool) (d : triedb.Database) (n : node) (force : bool) (t : tree) : Prop :=
  exists hashed cached d', hash g limit onleaf n (given md d) force = Ok (hashed, cached, given md d') /\
    (md = false -> d' = d) /\ (md = true -> Good d') /\ Ext d d' /\ Rep d' force cached t /\ Hashed force hashed t /\
    (md = true -> Stored d' t /\ (isHash hashed = true -> InDb d' t)).
Definition HashOk (t : tree) : Prop := forall md d n force,
  (md = true -> Known t) -> (md = true -> Good d) -> Rep d force n t -> HashesTo md d n force t.

Lemma Hashed_forced force t : force = true \/ small t = false -> Hashed force (hashNode (hashOf t)) t.
Proof. unfold Hashed. by intros [->| ->]; [|rewrite orb_true_r]. Qed.

(** A cached answer. *)
Lemma cachedHash_ok md d n force t hashed cached :
  sub t -> sized t -> Rep d force n t -> cachedHash g limit n md = Some (hashed, cached) ->
  Hashed force hashed t /\ Rep d force cached t /\ (md = true -> Stored d t /\ InDb d t).
Proof.
  intros Hs Hz Hr Hc. unfold cachedHash in Hc.
  assert (Hfl : exists fl, FlagOk d force fl t /\ cache n = (fHash fl, dirty fl) /\
    canUnload n g limit = negb (dirty fl) && (u16 (g - gen fl) >=? limit)).
  { inversion Hr as [| |? k n' t' fl Hn Hf|? ns ts fl Hl Hn Hf|]; subst; cbn in Hc; try discriminate Hc; by exists fl. }
  destruct Hfl as (fl & Hf & Ec & Eu). rewrite Ec, Eu in Hc. cbn [fst snd] in Hc. unfold FlagOk in Hf.
  destruct (fHash fl) as [h|]; [|discriminate Hc]. destruct Hf as (-> & Hsm & Hst). pose proof (Hashed_forced force t Hsm) as Hh.
  destruct md; cbn [negb] in Hc; [|injection Hc as <- <-; by split_and!].
  destruct (dirty fl); cbn [negb andb] in Hc; [discriminate Hc|]. destruct (Hst eq_refl) as [Hd Hs'].
  destruct (u16 _ >=? _); injection Hc as <- <-; (split_and!; [done| |done]); [|done]. by apply rep_hash.
Qed.

Lemma hash_unfold n db force :
  hash g limit onleaf n db force =
    match cachedHash g limit n (isSome db) with
    | Some (hashed, cached) => Ok (hashed, cached, db)
    | None =>
        let* (collapsed, cached, db') := hashChildren (fun c db => hash g limit onleaf c db false) n db in
        let* (hashed, db') := store onleaf collapsed db' force in
        Ok (hashed, cacheHash hashed (isSome db) cached, db')
    end.
Proof. by destruct n. Qed.

Lemma isSome_given md d : isSome (given md d) = md.
Proof. by destruct md. Qed.

Lemma hash_cached md d n force t :
  sub t -> sized t -> (md = true -> Good d) -> Rep d force n t ->
  (cachedHash g limit n md = None -> HashesTo md d n force t) -> HashesTo md d n force t.
Proof.
  intros Hs Hz Hg Hr Hn. destruct (cachedHash g limit n md) as [[h c]|] eqn:Ec; [|by apply Hn].
  destruct (cachedHash_ok md d n force t h c Hs Hz Hr Ec) as (H1 & H2 & H3). exists h, c, d. rewrite hash_unfold, isSome_given, Ec.
  split_and!; try done. intros Hm. by destruct (H3 Hm).
Qed.

(** The flags that are left: the cached hash is right, and a clean node is stored. *)
Lemma withHash_ok md d d' force fl hashed t :
  FlagOk d force fl t -> Hashed force hashed t -> (md = false -> fHash fl = None) ->
  (md = true -> Stored d' t /\ (isHash hashed = true -> InDb d' t)) -> FlagOk d' force (withHash hashed md fl) t.
Proof.
  intros Hf Hh Hn Hst. unfold FlagOk, withHash in *. cbn [fHash dirty]. unfold Hashed in Hh.
  destruct (force || negb (small t)) eqn:Ef.
  - subst hashed. cbn [isHash] in *. split_and!; [done| |].
    + apply orb_true_iff in Ef as [->|Ef%negb_true_iff]; [by left|by right].
    + destruct md; [intros _; destruct Hst as [H1 H2]; [done|]; auto|]. intros Hd. rewrite Hn in Hf by done.
      destruct Hf as [Hf|[-> Hf]]; [congruence|]. by rewrite Hf in Ef.
  - destruct Hh as (_ & Hh & _). apply orb_false_iff in Ef as [-> Ef%negb_false_iff]. destruct hashed; try done; by right.
Qed.

(** From the children to the node. *)
Lemma hash_step md d n force t collapsed d1 (kids : nodeFlag -> node) fl :
  sub t -> sized t -> (md = true -> Known t) -> cachedHash g limit n md = None ->
  hashChildren (fun c db => hash g limit onleaf c db false) n (given md d) = Ok (collapsed, kids fl, given md d1) ->
  isStruct collapsed = true -> nodeRLP collapsed = treeRLP t -> cache collapsed = (fHash fl, dirty fl) ->
  (forall h b, cacheHash h b (kids fl) = kids (withHash h b fl)) ->
  FlagOk d force fl t -> (md = false -> fHash fl = None) -> (md = false -> d1 = d) -> (md = true -> Good d1) -> Ext d d1 ->
  (md = true -> Stored d1 t) ->
  (forall d2 fl', Ext d1 d2 -> FlagOk d2 force fl' t -> Rep d2 force (kids fl') t) ->
  HashesTo md d n force t.
Proof.
  intros Hs Hz Hk Hc Hkids Hcs Hrlp Hcc Hch Hf Hfn Hd1 Hg1 He1 Hst1 Hrep. unfold HashesTo.
  rewrite hash_unfold, isSome_given, Hc, Hkids. cbn [rbind].
  destruct (store_hashes md d1 collapsed force t Hcs Hrlp Hs Hz Hk Hg1) as (hashed & d2 & -> & Hd2 & Hg2 & He2 & Hh & Hin).
  { rewrite Hcc. cbn. unfold FlagOk in Hf. destruct (fHash fl) as [h|]; [right; by destruct Hf as (-> & _)|by left]. }
  cbn [rbind]. assert (Hfin : md = true -> Stored d2 t /\ (isHash hashed = true -> InDb d2 t)).
  { intros Hm. split; [by eapply Stored_mono; [|apply Hst1]|by apply Hin]. }
  eexists _, _, d2. split; [reflexivity|]. split_and!; [|done|by etrans| |done|done].
  - intros Hm. rewrite Hd2, Hd1 by done. done.
  - rewrite Hch. apply Hrep; [done|]. by eapply withHash_ok.
Qed.

(** What a child contributes to its parent. *)
Definition Entry (md : bool) (t : tree) : Prop :=
  t = TNil \/ isValue t \/ (sub t /\ HashOk t /\ (md = true -> Known t)).

Definition ChildStored (d : triedb.Database) (t : tree) : Prop := Stored d t /\ (sub t -> small t = false -> InDb d t).

Lemma ChildStored_mono d d' t : Ext d d' -> ChildStored d t -> ChildStored d' t.
Proof. intros He [H1 H2]. split; [by eapply Stored_mono|]. eauto using InDb_mono. Qed.

Lemma Hashed_ref hashed t : sub t -> Hashed false hashed t -> nodeRLP hashed = treeRef t /\ isNil hashed = false /\ (small t = false -> isHash hashed = true).
Proof.
  intros Hs Hh. rewrite treeRef_small by done. unfold Hashed in Hh. cbn [orb] in Hh. destruct (small t); cbn [negb] in Hh.
  - destruct Hh as (-> & _ & ->). by split_and!.
  - by subst.
Qed.

Lemma hash_child md d n t :
  (md = true -> Known t) -> (md = true -> Good d) -> Rep d false n t -> sub t -> HashOk t ->
  exists c k d', hash g limit onleaf n (given md d) false = Ok (c, k, given md d') /\
    (md = false -> d' = d) /\ (md = true -> Good d') /\ Ext d d' /\ Rep d' false k t /\ nodeRLP c = treeRef t /\ isNil c = false /\
    (md = true -> ChildStored d' t).
Proof.
  intros Hk Hg Hr Hs Hok. destruct (Hok md d n false Hk Hg Hr) as (c & k & d' & E & Hd & Hg' & He & Hr' & Hh & Hst).
  destruct (Hashed_ref c t Hs Hh) as (H1 & H2 & H3). exists c, k, d'. split_and!; [done..|].
  intros Hm. destruct (Hst Hm) as [H4 H5]. split; [done|]. auto.
Qed.

(** The loop over the children of a full node. *)
Lemma hashKids_ok md (ts : list tree) : forall (i : nat) d (ns : list node),
  (i + length ts = 17)%nat -> length ns = length ts -> (md = true -> Good d) ->
  (forall j n t, ns !! j = Some n -> ts !! j = Some t -> Rep d false n t /\ Entry md t /\ ((i + j < 16)%nat -> ~ isValue t) /\ ((i + j)%nat = 16%nat -> ~ sub t)) ->
  exists ccs kcs d', hashKids (fun c db => hash g limit onleaf c db false) i ns (given md d) = Ok (ccs, kcs, given md d') /\
    (md = false -> d' = d) /\ (md = true -> Good d') /\ Ext d d' /\ length kcs = length ts /\
    nodeRLP <$> ccs = treeRef <$> ts /\
    (forall j n t, kcs !! j = Some n -> ts !! j = Some t -> Rep d' false n t) /\
    (md = true -> forall j t, ts !! j = Some t -> ChildStored d' t).
Proof.
  induction ts as [|t ts IH]; intros i d ns Hi Hl Hg Hc.
  { destruct ns; [|done]. exists [], [], d. by split_and!. }
  destruct ns as [|n ns]; [done|]. destruct (Hc 0%nat n t eq_refl eq_refl) as (Hr & Hent & Hv & Hsub). cbn [hashKids].
  assert (H1 : exists c k d1, (if (i <? 16)%nat && negb (isNil n) then hash g limit onleaf n (given md d) false else Ok (orEmpty n, n, given md d))
      = Ok (c, k, given md d1) /\ (md = false -> d1 = d) /\ (md = true -> Good d1) /\ Ext d d1 /\ Rep d1 false k t /\
      nodeRLP c = treeRef t /\ (md = true -> ChildStored d1 t)).
  { rewrite (Rep_isNil d false n t Hr). destruct Hent as [->|[Hval|(Hs & Hok & Hkn)]].
    - cbn [tnil negb]. rewrite andb_false_r. inversion Hr as [| | | |? ? ? _ Hs]; subst; [|by inversion Hs].
      eexists _, _, d. split_and!; try done. intros _. split; [constructor|done].
    - assert (i = 16%nat) as -> by (rewrite Nat.add_0_r in Hv; cbn in Hi; destruct (decide (i = 16%nat)); [done|exfalso; apply Hv; [lia|done]]).
      destruct Hval as (v & Hne & ->). cbn [tnil negb andb Nat.ltb Nat.leb]. inversion Hr as [| | | |? ? ? _ Hs]; subst; [|by inversion Hs].
      eexists _, _, d. split_and!; try done. intros _. split; [constructor|]. intros Hs. inversion Hs.
    - assert (Hi16 : (i <? 16)%nat = true) by (apply Nat.ltb_lt; cbn in Hi; destruct (decide (i = 16%nat)) as [->|]; [exfalso; by apply Hsub|lia]).
      assert (Hn : tnil t = false) by (by inversion Hs). rewrite Hi16, Hn. cbn [andb negb].
      destruct (hash_child md d n t Hkn Hg Hr Hs Hok) as (c & k & d' & E & Hd & Hg' & He & Hr' & Hrlp & _ & Hst). exists c, k, d'. by split_and!. }
  destruct H1 as (c & k & d1 & -> & Hd1 & Hg1 & He1 & Hk1 & Hrlp & Hst1). cbn [rbind].
  destruct (IH (S i) d1 ns) as (ccs & kcs & d2 & -> & Hd2 & Hg2 & He2 & Hlen & Hrlps & Hks & Hsts); [cbn in Hi; lia|by injection Hl|done| |].
  { intros j m u Hm Hu. destruct (Hc (S j) m u Hm Hu) as (H1 & H2 & H3 & H4). rewrite Nat.add_succ_r in H3, H4.
    split_and!; [by eapply Rep_mono|done..]. }
  cbn [rbind]. eexists _, _, d2. split; [reflexivity|]. split_and!; [|done|by etrans|by cbn; rewrite Hlen|by cbn; rewrite Hrlp, Hrlps| |].
  - intros Hm. rewrite Hd2, Hd1 by done. done.
  - intros [|j] m u Hm Hu; [|by eapply Hks]. injection Hm as <-. injection Hu as <-. by eapply Rep_mono.
  - intros Hm [|j] u Hu; [|by eapply Hsts]. injection Hu as <-. eapply ChildStored_mono; [done|]. by apply Hst1.
Qed.

Lemma cachedHash_none md fl n :
  cache n = (fHash fl, dirty fl) -> cachedHash g limit n md = None -> md = false -> fHash fl = None.
Proof. unfold cachedHash. intros -> Hc ->. cbn in Hc. by destruct (fHash fl). Qed.

(** A node that is given by its hash. *)
Lemma hash_hashNode md d h force t :
  (md = true -> Good d) -> Rep d force (hashNode h) t ->
  HashesTo md d (hashNode h) force t.
Proof.
  intros Hg Hr. inversion Hr as [| | | |? ? ? Hh Hs Hz Ht Hd Hst]; subst. eexists _, _, d. split; [reflexivity|].
  split_and!; try done. by apply Hashed_forced.
Qed.

Lemma hash_shortNode md d k n fl force u :
  sub (TShort k u) -> sized (TShort k u) -> (md = true -> Known (TShort k u)) -> isValue u \/ (sub u /\ HashOk u) ->
  (md = true -> Good d) -> Rep d force (shortNode k n fl) (TShort k u) -> cachedHash g limit (shortNode k n fl) md = None ->
  HashesTo md d (shortNode k n fl) force (TShort k u).
Proof.
  intros Hs Hz Hk Hu Hg Hr Hc. inversion Hr as [| |? ? ? ? ? Hn Hf| |]; subst.
  assert (H1 : exists c m d1, (match n with valueNode _ => Ok (n, n, given md d) | _ => hash g limit onleaf n (given md d) false end)
      = Ok (c, m, given md d1) /\ (md = false -> d1 = d) /\ (md = true -> Good d1) /\ Ext d d1 /\ Rep d1 false m u /\
      nodeRLP c = treeRef u /\ isNil c = false /\ (md = true -> ChildStored d1 u)).
  { destruct Hu as [(v & _ & ->)|[Hsu Hok]].
    - inversion Hn as [| | | |? ? ? _ Hs']; subst; [|by inversion Hs']. eexists _, _, d. split_and!; try done.
      intros _. split; [constructor|]. intros Hs'. inversion Hs'.
    - replace (match n with valueNode _ => Ok (n, n, given md d) | _ => hash g limit onleaf n (given md d) false end)
        with (hash g limit onleaf n (given md d) false) by (inversion Hn; subst; try done; inversion Hsu).
      apply hash_child; try done. intros Hm. by eapply Known_short, Hk. }
  destruct H1 as (c & m & d1 & E & Hd1 & Hg1 & He1 & Hm & Hrlp & Hnil & Hst).
  eapply (hash_step md d _ force (TShort k u) _ d1 (fun fl => shortNode k m fl) fl); try done.
  - cbn [hashChildren]. rewrite E. reflexivity.
  - done.
  - cbn [nodeRLP treeRLP]. unfold orEmpty. rewrite Hnil, Hrlp. done.
  - done.
  - by apply (cachedHash_none md fl (shortNode k n fl)).
  - intros Hmd. destruct (Hst Hmd). by constructor.
  - intros d2 fl' He2 Hf'. constructor; [by eapply Rep_mono|done].
Qed.

Lemma hash_fullNode md d ns fl force ts :
  sub (TFull ts) -> sized (TFull ts) -> (md = true -> Known (TFull ts)) ->
  (forall i t, ts !! i = Some t -> (i < 16)%nat -> sub t -> HashOk t) ->
  (md = true -> Good d) -> Rep d force (fullNode ns fl) (TFull ts) -> cachedHash g limit (fullNode ns fl) md = None ->
  HashesTo md d (fullNode ns fl) force (TFull ts).
Proof.
  intros Hs Hz Hk Hok Hg Hr Hc. inversion Hr as [| | |? ? ? ? Hl Hn Hf|]; subst.
  inversion Hs as [| |? Hlen Hsub H16 _]; subst.
  destruct (hashKids_ok md ts 0 d ns) as (ccs & kcs & d1 & E & Hd1 & Hg1 & He1 & Hlk & Hrlp & Hks & Hsts); [by rewrite Hlen|done|done| |].
  { intros j m t Hm Ht. split; [by eapply Hn|]. apply lookup_lt_Some in Ht as Hj. rewrite Nat.add_0_l.
    destruct (decide (t = TNil)) as [->|Hne].
    - split_and!; [by left| |]; [by intros _ (? & _ & ?)|intros _ Hs'; inversion Hs'].
    - destruct (decide (j = 16%nat)) as [->|Hj16].
      + specialize (H16 t Ht Hne). split_and!; [by right; left|lia|]. intros _ Hs'. destruct H16 as (v & _ & ->). inversion Hs'.
      + specialize (Hsub j t Ht Hne ltac:(lia)). split_and!; [right; right; split_and!; [done|eapply Hok; [done|lia|done]|]; intros Hmd; by eapply Known_child; [apply Hk|]| |lia].
        intros _ (v & _ & ->). inversion Hsub. }
  eapply (hash_step md d _ force (TFull ts) _ d1 (fun fl => fullNode kcs fl) fl); try done.
  - cbn [hashChildren]. rewrite E. reflexivity.
  - done.
  - cbn [nodeRLP treeRLP]. by rewrite Hrlp.
  - done.
  - by apply (cachedHash_none md fl (fullNode ns fl)).
  - intros Hmd. constructor; intros i t Ht; by destruct (Hsts Hmd i t Ht).
  - intros d2 fl' He2 Hf'. constructor; [by rewrite Hlk| |done]. intros i m t Hm Ht. eapply Rep_mono; [done|]. by eapply Hks.
Qed.

Lemma hash_spec t : sub t -> sized t -> HashOk t.
Proof.
  intros Hs. pose proof Hs as Hs'. induction Hs as [k v Hk Hv|k ts Hne Hk Hs IH|ts Hl Hs IH H16 Hb];
    intros Hz md d n force Hkn Hg Hr; apply hash_cached; [done..| |done|done|done|done| |done|done|done|done| ]; intros Ec.
  - inversion Hr; subst; [apply hash_shortNode; try done; left; by eexists|by apply hash_hashNode].
  - inversion Hr; subst; [apply hash_shortNode; try done|by apply hash_hashNode].
    right. split; [done|]. apply IH; [done|by destruct Hz].
  - inversion Hr; subst; [apply hash_fullNode; try done|by apply hash_hashNode].
    intros i t Ht' Hi Hst. apply (IH i t Ht'); [by intros ->; inversion Hst|done|done|].
    apply sized_full in Hz. by eapply Forall_lookup_1.
Qed.

End Known.
End Hash.
