(* ===== verification/TrieProofs.v ===== *)
(** * Package trie: the operations of a trie

    [TryGet], [TryUpdate] and [TryDelete] of trie.go on a trie whose nodes are loaded or in
    the database: they succeed, and are the operations on the contents.  [Hash] depends on
    the contents only; [Commit] leaves a database from which [New] opens the same
    contents. *)

From stdpp Require Import base numbers list gmap option.
From Stdlib Require Import ZArith Lia Strings.Byte.
From S2P Require Import Prelude Rlp RlpDecodeProofs Common Types TrieDatabase Trie TrieTree TrieEncode TrieWalk TrieDbProofs TrieHash.
Import trie.

Section Tries.
Context `{Crypto}.

(** The keys of a tree are those of byte strings. *)
Definition byteKeys (T : tree) : Prop := forall k, tget T k <> [] -> exists key, k = keybytesToHex key.

(** A trie over a database, and the tree it stands for. *)
Record Stands (d : triedb.Database) (t : Trie) (T : tree) : Prop := {
  st_rep : Rep d true (root t) T;
  st_canonical : canonical T;
  st_keys : byteKeys T
}.

(** The value under a key, as the contents of the tree. *)
Definition content (T : tree) (key : list byte) : list byte := tget T (keybytesToHex key).

Lemma sits_hex T key : canonical T -> sits (keybytesToHex key) T.
Proof.
  intros Hc. pose proof (hexKey_keybytes key) as Hk. unfold sits. destruct (keybytesToHex key); [done|]. by split.
Qed.

Lemma walkFuel_enough n key : (2 * length key + hashy n < walkFuel key)%nat.
Proof. unfold walkFuel, hashy. destruct (isHash n); lia. Qed.

Lemma byteKeys_put T T' key v :
  (forall k, tget T' k = if bool_decide (k = keybytesToHex key) then v else tget T k) -> byteKeys T -> byteKeys T'.
Proof. intros Hg Hb k. rewrite Hg. case_bool_decide; [by eexists|apply Hb]. Qed.

Lemma TryGet_stands d t T key :
  Stands d t T -> exists t', TryGet d t key = Ok (content T key, t') /\ Stands d t' T.
Proof.
  intros [Hr Hc Hb]. unfold TryGet. destruct (tryGet_spec d (cachegen t) (walkFuel (keybytesToHex key)) true (root t) T [] (keybytesToHex key)) as (n & b & E & Hn);
    [done|by apply sits_hex|apply walkFuel_enough|]. rewrite E. cbn [rbind]. eexists. split; [reflexivity|].
  destruct b; by split.
Qed.

(** The contents after an update. *)
Definition Puts (T T' : tree) (key value : list byte) : Prop :=
  forall k, content T' k = if bool_decide (k = key) then value else content T k.

Lemma Puts_hex T T' key v :
  (forall k, tget T' k = if bool_decide (k = keybytesToHex key) then v else tget T k) -> Puts T T' key v.
Proof.
  intros Hg k. unfold content. rewrite Hg. apply (f_equal (fun b : bool => if b then _ else _)), bool_decide_ext.
  split; [apply keybytesToHex_inj|by intros ->].
Qed.

Lemma delete_stands d t T key :
  Stands d t T ->
  exists b n T', delete d (cachegen t) (walkFuel (keybytesToHex key)) (root t) [] (keybytesToHex key) = Ok (b, n) /\
    Stands d (setRoot n t) T' /\ Puts T T' key [] /\ T' = tdelete T (keybytesToHex key).
Proof.
  intros [Hr Hc Hb]. pose proof (sits_hex T key Hc) as Hs.
  destruct (delete_spec d (cachegen t) (walkFuel (keybytesToHex key)) true (root t) T [] (keybytesToHex key)) as (b & n & E & Hn & _ & _);
    [done|done|apply walkFuel_enough|]. destruct (tdelete_spec _ T Hs) as (Hd & _ & Hg).
  eexists b, n, _. split_and!; [exact E| |by apply Puts_hex|reflexivity].
  split; [done| |by eapply byteKeys_put]. pose proof (hexKey_keybytes key). by destruct (keybytesToHex key).
Qed.

Lemma TryDelete_stands d t T key :
  Stands d t T -> exists t' T', TryDelete d t key = Ok t' /\ Stands d t' T' /\ Puts T T' key [] /\ T' = tdelete T (keybytesToHex key).
Proof.
  intros Hs. unfold TryDelete. destruct (delete_stands d t T key Hs) as (b & n & T' & E & H1 & H2 & H3). rewrite E. cbn [rbind]. by eexists _, T'.
Qed.

(** Writing an empty value deletes. *)
Definition tupdate (T : tree) (key v : list byte) : tree :=
  match v with [] => tdelete T (keybytesToHex key) | _ => tinsert T (keybytesToHex key) v end.

Lemma TryUpdate_stands d t T key v :
  Stands d t T -> exists t', TryUpdate d t key v = Ok t' /\ Stands d t' (tupdate T key v) /\ Puts T (tupdate T key v) key v.
Proof.
  intros Hst. unfold TryUpdate. destruct (Z.eqb_spec (Z.of_nat (length v)) 0) as [E0|E0]; cbn [negb].
  - destruct v; [|done]. destruct (delete_stands d t T key Hst) as (b & n & T' & E & H1 & H2 & ->). rewrite E. cbn [rbind]. by eexists.
  - assert (Eu : tupdate T key v = tinsert T (keybytesToHex key) v) by (by destruct v). rewrite Eu. pose proof Hst as [Hr Hc Hb]. pose proof (sits_hex T key Hc) as Hs.
    destruct (insert_spec d (cachegen t) (walkFuel (keybytesToHex key)) true (root t) T [] (keybytesToHex key) v) as (b & n & E & Hn & _);
      [done|done|apply walkFuel_enough|]. rewrite E. cbn [rbind].
    destruct (tinsert_spec (keybytesToHex key) T v) as (Hp & _ & Hg); [by intros ->|done|].
    eexists. split; [reflexivity|]. split; [|by apply Puts_hex]. split; [done| |by eapply byteKeys_put].
    right. pose proof (hexKey_keybytes key). by destruct (keybytesToHex key).
Qed.

Lemma bounded_put T T' key v :
  byteKeys T' -> Puts T T' key v -> len key < 2 ^ 30 -> len v < 2 ^ 32 -> bounded T -> bounded T'.
Proof.
  intros Hbk Hp Hk Hv Hb k Hg. destruct (Hbk k Hg) as (key' & ->). specialize (Hp key'). unfold content in Hp. rewrite Hp in Hg |- *.
  case_bool_decide; [subst|by apply Hb]. split; [|done]. rewrite keybytesToHex_nibs, length_app, length_nibs. cbn [length]. lia.
Qed.

(** A sequence of updates. *)
Fixpoint updates (d : triedb.Database) (ops : list (list byte * list byte)) (t : Trie) : result trieErr Trie :=
  match ops with
  | [] => Ok t
  | (key, v) :: ops => let* t := TryUpdate d t key v in updates d ops t
  end.
Definition tupdates (T : tree) (ops : list (list byte * list byte)) : tree := foldl (fun T '(key, v) => tupdate T key v) T ops.

Lemma updates_stand d ops : forall t T,
  Stands d t T -> bounded T -> Forall (fun kv => len kv.1 < 2 ^ 30 /\ len kv.2 < 2 ^ 32) ops ->
  exists t', updates d ops t = Ok t' /\ Stands d t' (tupdates T ops) /\ bounded (tupdates T ops).
Proof.
  induction ops as [|[key v] ops IH]; intros t T Ht Hb Ho; cbn [updates tupdates foldl]; [by exists t|].
  destruct (TryUpdate_stands d t T key v Ht) as (t1 & E & H1 & H2). rewrite E. cbn [rbind].
  pose proof (Forall_inv Ho) as [Hk Hv]. apply IH; [done| |by apply Forall_inv_tail in Ho].
  by eapply bounded_put; [apply (st_keys _ _ _ H1)|..].
Qed.

Lemma Stands_empty d : Stands d (mkTrie nilNode 0 0 0) TNil.
Proof. split; [constructor|by left|]. by intros k. Qed.

Lemma bounded_empty : bounded TNil.
Proof. by intros k. Qed.

(** ** Roots *)

Definition rootOf (T : tree) : Hash := match T with TNil => emptyRoot | _ => BytesToHash (hashOf T) end.

Lemma emptyRoot_bytes : BytesToHash (HashBytes emptyRoot) = emptyRoot.
Proof. by vm_compute. Qed.

Lemma rootOf_sub T : sub T -> rootOf T = BytesToHash (hashOf T).
Proof. by inversion 1. Qed.

Lemma rootHash_stands d t T :
  Stands d t T -> bounded T -> exists t', rootHash t = Ok (rootOf T, t') /\ Stands d t' T.
Proof.
  intros [Hr Hc Hk] Hb. unfold rootHash, hashRoot. destruct Hc as [->|Hs].
  - inversion Hr as [Hn| | | |? ? ? _ Hs]; subst; [|by inversion Hs]. cbn [rbind asHash]. rewrite emptyRoot_bytes. eexists. split; [reflexivity|].
    split; [constructor|by left|done].
  - assert (Hn : match root t with nilNode => False | _ => True end) by (by inversion Hr; subst; inversion Hs).
    assert (HD : Distinct (fun _ => False)) by done.
    destruct (hash_spec (fun _ => False) HD (cachegen t) (cachelimit t) None I T Hs (bounded_sized T Hs Hb) false d (root t) true)
      as (hashed & cached & d' & E & Hd & _ & He & Hrep & Hh & _); [done|done|done|]. unfold given in E.
    replace (match root t with nilNode => Ok (hashNode (HashBytes emptyRoot), nilNode, None) | n => hash (cachegen t) (cachelimit t) None n None true end)
      with (hash (cachegen t) (cachelimit t) None (root t) None true) by (by destruct (root t)).
    rewrite E. unfold Hashed in Hh. cbn [orb] in Hh. subst hashed. cbn [rbind asHash]. rewrite <- rootOf_sub by done.
    eexists. split; [reflexivity|]. rewrite Hd in Hrep by done. split; [done|by right|done].
Qed.

(** The contents determine the tree. *)
Lemma content_determines T U : canonical T -> canonical U -> byteKeys T -> byteKeys U -> (forall key, content T key = content U key) -> T = U.
Proof.
  intros HT HU Hb Hb' Hc. apply canonical_determined; [done..|]. intros k _.
  destruct (decide (tget T k = [])) as [ET|ET], (decide (tget U k = [])) as [EU|EU]; [congruence|..].
  - destruct (Hb' k EU) as (key & ->). apply Hc.
  - destruct (Hb k ET) as (key & ->). apply Hc.
  - destruct (Hb k ET) as (key & ->). apply Hc.
Qed.

(** ** Committing and opening *)

Lemma HashBytes_BytesToHash b : length b = 32%nat -> HashBytes (BytesToHash b) = b.
Proof.
  intros Hl. unfold BytesToHash, setBytes, HashLength. rewrite Hl. change (Z.of_nat 32 >? 32) with false. cbv iota.
  rewrite Hl. change (Z.to_nat (32 - Z.of_nat 32)) with 0%nat. cbn [replicate app]. unfold HashBytes. rewrite <- Hl. apply be_bytes_be_value.
Qed.

Lemma New_stands d T :
  sub T -> sized T -> byteKeys T -> InDb d T -> Stored d T -> rootOf T <> 0 -> rootOf T <> emptyRoot ->
  exists t, New (rootOf T) d = Ok t /\ Stands d t T.
Proof.
  intros Hs Hz Hk Hd Hst H0 He. unfold New. rewrite (proj2 (Z.eqb_neq _ _) H0), (proj2 (Z.eqb_neq _ _) He). cbn [orb].
  rewrite rootOf_sub, HashBytes_BytesToHash by (done || apply length_hashOf).
  destruct (resolveHash_ok d true 0 (hashOf T) T []) as (n & E & Hn & _); [by apply rep_hash; auto|].
  rewrite E. cbn [rbind]. eexists. split; [reflexivity|]. split; [done|by right|done].
Qed.

Section Commit.
Variable P : list byte -> Prop.
Hypothesis HP : Distinct P.
Variable onleaf : option (list byte -> Hash -> triedb.Database -> result triedb.dbErr triedb.Database).
Hypothesis HL : LeafOk P onleaf.

Lemma Commit_stands d t T :
  Stands d t T -> bounded T -> Known P T -> Good P d ->
  exists t' d', Commit t onleaf d = Ok (rootOf T, t', d') /\ Stands d' t' T /\ Good P d' /\ Ext d d' /\
    (sub T -> InDb d' T /\ Stored d' T).
Proof.
  intros [Hr Hc Hbk] Hb Hk Hg. unfold Commit, hashRoot. destruct Hc as [->|Hs].
  - inversion Hr as [Hn| | | |? ? ? _ Hs]; subst; [|by inversion Hs]. cbn [rbind asHash default]. rewrite emptyRoot_bytes. eexists _, d. split; [reflexivity|].
    split_and!; [split; [constructor|by left|done]|done|done|]. intros Hs. inversion Hs.
  - destruct (hash_spec P HP (cachegen t) (cachelimit t) onleaf HL T Hs (bounded_sized T Hs Hb) true d (root t) true)
      as (hashed & cached & d' & E & _ & Hg' & He & Hrep & Hh & Hst); [done|done|done|]. unfold given in E.
    replace (match root t with nilNode => Ok (hashNode (HashBytes emptyRoot), nilNode, Some d) | n => hash (cachegen t) (cachelimit t) onleaf n (Some d) true end)
      with (hash (cachegen t) (cachelimit t) onleaf (root t) (Some d) true) by (destruct (root t) eqn:Er; try done; by inversion Hr; subst; inversion Hs).
    rewrite E. unfold Hashed in Hh. cbn [orb] in Hh. subst hashed. cbn [rbind asHash default]. rewrite <- rootOf_sub by done.
    eexists _, d'. split; [reflexivity|]. destruct (Hst eq_refl) as [H1 H2]. split_and!; [split; [done|by right|done]|by apply Hg'|done|]. auto.
Qed.

(** Opening under the root of what has been committed. *)
Lemma Commit_New d t T :
  Stands d t T -> bounded T -> Known P T -> Good P d ->
  exists t' d' t'', Commit t onleaf d = Ok (rootOf T, t', d') /\ New (rootOf T) d' = Ok t'' /\
    Stands d' t' T /\ Stands d' t'' T /\ Good P d' /\ Ext d d'.
Proof.
  intros Hst Hb Hk Hg. destruct (Commit_stands d t T Hst Hb Hk Hg) as (t' & d' & E & H1 & H2 & H3 & H4).
  assert (Hn : exists t'', New (rootOf T) d' = Ok t'' /\ Stands d' t'' T).
  { destruct (st_canonical _ _ _ Hst) as [->|Hs]; [eexists; split; [reflexivity|split; [apply rep_nil|by left|exact (st_keys _ _ _ Hst)]]|].
    destruct (H4 Hs) as [H5 H6]. pose proof (Hk T (below_refl T) Hs) as HPT. apply New_stands; try done.
    - by apply bounded_sized.
    - apply (st_keys _ _ _ Hst).
    - rewrite rootOf_sub by done. by apply (dist_zero P HP).
    - rewrite rootOf_sub by done. by apply (dist_empty P HP). }
  destruct Hn as (t'' & E' & H7). by exists t', d', t''.
Qed.

(** ** The root determines the contents *)

Lemma encT_inj T U : sub T -> sub U -> sized T -> sized U -> encT T = encT U -> loaded None 0 T = loaded None 0 U.
Proof.
  intros HT HU Hz Hz' E. pose proof (mustDecodeNode_ok [] 0 T HT Hz) as E1. rewrite E in E1. rewrite (mustDecodeNode_ok [] 0 U HU Hz') in E1.
  injection E1 as E1. inversion HT; subst; inversion HU; subst; cbn [loaded] in *; congruence.
Qed.

Definition Binds (T : tree) : Prop := forall U, sub U -> sized U -> Known P U -> loaded None 0 T = loaded None 0 U -> T = U.

Lemma refNode_sub T : sub T -> refNode 0 T = if small T then loaded None 0 T else hashNode (hashOf T).
Proof. by inversion 1. Qed.

Lemma ref_binds T U :
  sub T -> sized T -> Known P T -> Binds T -> sub U -> sized U -> Known P U -> refNode 0 T = refNode 0 U -> T = U.
Proof.
  intros HT Hz HkT HB HU Hz' HkU E. rewrite !refNode_sub in E by done. apply HB; [done..|]. destruct (small T), (small U).
  - done.
  - inversion HT; subst; discriminate E.
  - inversion HU; subst; discriminate E.
  - apply (f_equal (fun n => match n with hashNode h => BytesToHash h | _ => 0 end)) in E. apply encT_inj; [done..|].
    apply (dist_inj P HP); [apply HkT; [constructor|done]|apply HkU; [constructor|done]|exact E].
Qed.

Lemma binds_leaf k v : Binds (TShort k (TValue v)).
Proof.
  intros U HU _ _ E. inversion HU as [k' v' _ _|k' ts _ _ Hs|ts]; subst; cbn [loaded] in E; [by injection E as -> ->| |done].
  exfalso. injection E as _ E. by destruct (small (TFull ts)).
Qed.

Lemma binds_ext k ts : sub (TFull ts) -> sized (TFull ts) -> Known P (TFull ts) -> Binds (TFull ts) -> Binds (TShort k (TFull ts)).
Proof.
  intros Hs Hz Hk HB U HU HzU HkU E. change (loaded None 0 (TShort k (TFull ts))) with (shortNode k (refNode 0 (TFull ts)) (mkFlag None 0 false)) in E.
  inversion HU as [k' v' _ _|k' us _ _ Hs'|us]; subst.
  - exfalso. cbn [loaded] in E. injection E as _ E. unfold refNode in E. by destruct (small (TFull ts)).
  - change (loaded None 0 (TShort k' (TFull us))) with (shortNode k' (refNode 0 (TFull us)) (mkFlag None 0 false)) in E.
    injection E as -> E. f_equal. apply ref_binds; [done..|by destruct HzU|by eapply Known_short|exact E].
  - done.
Qed.

Lemma binds_full ts :
  sub (TFull ts) -> sized (TFull ts) -> Known P (TFull ts) -> (forall i t, ts !! i = Some t -> (i < 16)%nat -> sub t -> Binds t) -> Binds (TFull ts).
Proof.
  intros Hs Hz Hk HB U HU HzU HkU E. change (loaded None 0 (TFull ts)) with (fullNode (refNode 0 <$> ts) (mkFlag None 0 false)) in E.
  inversion HU as [| |us Hl Hsub H16 _]; subst; [done..|].
  change (loaded None 0 (TFull us)) with (fullNode (refNode 0 <$> us) (mkFlag None 0 false)) in E. injection E as E. f_equal.
  inversion Hs as [| |? Hl' Hsub' H16' _]; subst. apply sized_full in Hz, HzU.
  apply list_eq_same_length with 17%nat; [done|done|]. intros i t u Hi Ht Hu.
  assert (Ei : refNode 0 t = refNode 0 u).
  { apply (f_equal (lookup i)) in E. rewrite !list_lookup_fmap, Ht, Hu in E. by injection E. }
  assert (Hent : forall t, t = TNil \/ isValue t \/ sub t -> refNode 0 t = nilNode -> t = TNil).
  { intros t0 [->|[(v & _ & ->)|Ht0]]; [done|done|]. rewrite refNode_sub by done. destruct (small t0); [by inversion Ht0|done]. }
  assert (Hkind : forall ts, sub (TFull ts) -> forall t, ts !! i = Some t -> t <> TNil -> (i = 16%nat /\ isValue t) \/ ((i < 16)%nat /\ sub t)).
  { intros ts0 Hs0 t0 Ht0 Hn0. destruct (entry_ok ts0 i t0 Hs0 Ht0 Hn0) as (H1 & _ & H2 & H3).
    destruct (decide (i = 16%nat)); [left; auto|right; split; [lia|apply H2; lia]]. }
  destruct (decide (t = TNil)) as [->|Htn].
  { symmetry. apply Hent; [|done]. destruct (decide (u = TNil)); [by left|]. destruct (Hkind us HU u Hu) as [[_ ?]|[_ ?]]; auto. }
  destruct (decide (u = TNil)) as [->|Hun].
  { apply Hent; [|done]. destruct (Hkind ts Hs t Ht) as [[_ ?]|[_ ?]]; auto. }
  destruct (Hkind ts Hs t Ht Htn) as [[-> (v & _ & ->)]|[Hlt Hst]], (Hkind us HU u Hu Hun) as [[Hx Hv]|[Hx Hsu]]; try lia.
  - destruct Hv as (w & _ & ->). by injection Ei as ->.
  - apply ref_binds; [done|exact (Forall_lookup_1 _ _ _ _ Hz Ht)|by eapply (Known_child P ts)|by eapply HB|done|
      exact (Forall_lookup_1 _ _ _ _ HzU Hu)|by eapply (Known_child P us)|done].
Qed.

Lemma sub_binds T : sub T -> sized T -> Known P T -> Binds T.
Proof.
  intros Hs. pose proof Hs as Hs'. induction Hs as [k v Hk Hv|k ts Hne Hk Hs IH|ts Hl Hs IH H16 Hb]; intros Hz Hkn.
  - apply binds_leaf.
  - destruct Hz as [_ Hz]. pose proof (Known_short P k _ Hkn). apply binds_ext; try done. by apply IH.
  - apply binds_full; try done. intros i t Ht Hi Hst. apply (IH i t Ht); [by intros ->; inversion Hst|done|done| |by eapply Known_child].
    apply sized_full in Hz. by eapply Forall_lookup_1.
Qed.

(** Different contents have different roots. *)
Lemma rootOf_binds T U :
  canonical T -> canonical U -> bounded T -> bounded U -> Known P T -> Known P U -> rootOf T = rootOf U -> T = U.
Proof.
  intros HT HU Hb Hb' Hk Hk' E.
  assert (Hne : forall V, sub V -> Known P V -> rootOf V <> emptyRoot).
  { intros V HV HkV. rewrite rootOf_sub by done. apply (dist_empty P HP). apply HkV; [constructor|done]. }
  destruct HT as [->|HT], HU as [->|HU]; [done|by destruct (Hne U HU Hk')|by destruct (Hne T HT Hk)|].
  apply (sub_binds T HT (bounded_sized T HT Hb) Hk); [done|by apply bounded_sized|done|].
  apply encT_inj; [done|done|by apply bounded_sized..|]. rewrite !rootOf_sub in E by done.
  apply (dist_inj P HP); [apply Hk; [constructor|done]|apply Hk'; [constructor|done]|exact E].
Qed.

End Commit.

(** ** Finite sets of nodes *)

Fixpoint subtrees (T : tree) : list tree :=
  T :: match T with
       | TShort _ t => subtrees t
       | TFull ts => mjoin (subtrees <$> ts)
       | _ => []
       end.

Lemma below_subtrees u T : below u T -> u ∈ subtrees T.
Proof.
  induction 1 as [t|u k t _ IH|u i t ts Ht _ IH]; [destruct t; by left|by right|].
  cbn [subtrees]. right. apply list_elem_of_join. exists (subtrees t). split; [done|]. apply list_elem_of_fmap. exists t. split; [done|].
  by eapply list_elem_of_lookup_2.
Qed.

Definition blobs (Ts : list tree) : list (list byte) := T ← Ts; encT <$> subtrees T.

Lemma Known_blobs Ts T : T ∈ Ts -> Known (fun b => b ∈ blobs Ts) T.
Proof.
  intros HT u Hu _. apply list_elem_of_bind. exists T. split; [|done]. apply list_elem_of_fmap. exists u. split; [done|by apply below_subtrees].
Qed.

Definition distinct (bs : list (list byte)) : bool :=
  let key b := BytesToHash (HashBytes (Keccak256 b)) in
  forallb (fun a => negb (key a =? 0) && negb (key a =? emptyRoot) &&
    forallb (fun b => bool_decide (a = b) || negb (key a =? key b)) bs) bs.

Lemma distinct_Distinct bs : distinct bs = true -> Distinct (fun b => b ∈ bs).
Proof.
  intros Hd. unfold distinct in Hd. rewrite forallb_forall in Hd.
  assert (Ha : forall a, a ∈ bs -> _) by (intros a Ha; apply list_elem_of_In in Ha; exact (Hd a Ha)). clear Hd. split.
  - intros a b H1 H2 E. specialize (Ha a H1). apply andb_true_iff in Ha as [_ Ha]. rewrite forallb_forall in Ha.
    apply list_elem_of_In in H2. specialize (Ha b H2). apply orb_true_iff in Ha as [Ha|Ha]; [by apply bool_decide_eq_true in Ha|].
    apply negb_true_iff, Z.eqb_neq in Ha. done.
  - intros a H1. specialize (Ha a H1). apply andb_true_iff in Ha as [[Ha _]%andb_true_iff _]. by apply negb_true_iff, Z.eqb_neq in Ha.
  - intros a H1. specialize (Ha a H1). apply andb_true_iff in Ha as [[_ Ha]%andb_true_iff _]. by apply negb_true_iff, Z.eqb_neq in Ha.
Qed.

End Tries.
