(* ===== verification/TrieProperties.v ===== *)
(** * Package trie: properties

    Tries are maps whose nodes may lie in the database; their roots stand for their
    contents; and what has been committed opens again. *)

From stdpp Require Import base numbers list gmap option.
From Stdlib Require Import ZArith Lia Strings.Byte.
From S2P Require Import Prelude Rlp RlpDecodeProofs Common Types Toy TrieDatabase Trie TrieTree TrieEncode TrieWalk TrieDbProofs TrieHash TrieProofs.

(** C15. A trie is a map from byte strings.  On a trie whose nodes are loaded or in the
    database, wherever the border between the two runs, [TryGet], [TryUpdate] and [TryDelete]
    return without an error or a panic.  [TryGet] returns the value under the key, and the
    nodes it loads change no value; an update or a deletion changes the value of its key
    and no other, and leaves the trie in the canonical shape. *)
Theorem tries_are_maps `{Crypto} d t T :
  Stands d t T ->
  (forall key, exists t', trie.TryGet d t key = Ok (content T key, t') /\ Stands d t' T) /\
  (forall key v, exists t' T', trie.TryUpdate d t key v = Ok t' /\ Stands d t' T' /\
     forall k, content T' k = if bool_decide (k = key) then v else content T k) /\
  (forall key, exists t' T', trie.TryDelete d t key = Ok t' /\ Stands d t' T' /\
     forall k, content T' k = if bool_decide (k = key) then [] else content T k).
Proof.
  intros Hs. split_and!.
  - intros key. by apply TryGet_stands.
  - intros key v. destruct (TryUpdate_stands d t T key v Hs) as (t' & H1 & H2 & H3). by exists t', (tupdate T key v).
  - intros key. destruct (TryDelete_stands d t T key Hs) as (t' & T' & H1 & H2 & H3 & _). by exists t', T'.
Qed.

(** C16. The root hash stands for the contents: whatever operations have led to two
    tries, whatever is loaded or cached of them and whatever databases they use, their root
    hashes are equal exactly if they have the same value under every key.  For different
    contents this takes that the hash tells the encodings of their nodes apart. *)
Theorem trie_roots_are_canonical `{Crypto} P d t T d' t' T' :
  Distinct P -> Stands d t T -> Stands d' t' T' -> bounded T -> bounded T' -> Known P T -> Known P T' ->
  exists h u h' u', trie.rootHash t = Ok (h, u) /\ trie.rootHash t' = Ok (h', u') /\
    (h = h' <-> forall key, content T key = content T' key).
Proof.
  intros HP Ht Ht' Hb Hb' Hk Hk'. destruct (rootHash_stands d t T Ht Hb) as (u & E & _), (rootHash_stands d' t' T' Ht' Hb') as (u' & E' & _).
  pose proof Ht as [_ Hc Hbk]. pose proof Ht' as [_ Hc' Hbk']. exists (rootOf T), u, (rootOf T'), u'. split_and!; [done..|]. split.
  - intros Er. by rewrite (rootOf_binds P HP T T' Hc Hc' Hb Hb' Hk Hk' Er).
  - intros Hcon. by rewrite (content_determines T T' Hc Hc' Hbk Hbk' Hcon).
Qed.

(** C17. Committing and opening again is the identity on the contents: [Commit]
    succeeds on a database in order, the trie that [New] opens under the hash that it returns
    has the same value under every key, as has the trie that was committed, and whatever was
    in the database is still there.  It takes that the hash tells the nodes of the trie and of
    the database apart, and that the callback for leaves only adds to the database. *)
Theorem committed_tries_reopen `{Crypto} P onleaf d t T :
  Distinct P -> LeafOk P onleaf -> Stands d t T -> bounded T -> Known P T -> Good P d ->
  exists h t' d' t'', trie.Commit t onleaf d = Ok (h, t', d') /\ trie.New h d' = Ok t'' /\
    (forall key, exists u u', trie.TryGet d' t' key = Ok (content T key, u) /\ trie.TryGet d' t'' key = Ok (content T key, u')) /\
    Good P d' /\ forall k b, triedb.Node k d = Some b -> triedb.Node k d' = Some b.
Proof.
  intros HP HL Ht Hb Hk Hg. destruct (Commit_New P HP onleaf HL d t T Ht Hb Hk Hg) as (t' & d' & t'' & E & En & H1 & H2 & H3 & H4).
  exists (rootOf T), t', d', t''. split_and!; [done|done| |done|apply H4].
  intros key. destruct (TryGet_stands d' t' T key H1) as (u & Eu & _), (TryGet_stands d' t'' T key H2) as (u' & Eu' & _). by exists u, u'.
Qed.

(** ** Concrete tries *)

Module Sample.
Definition db : triedb.Database := triedb.NewDatabase ∅.
Definition empty : trie.Trie := trie.mkTrie trie.nilNode 0 0 0.
Definition value (b : byte) : list byte := replicate 40 b.

(** The same contents by different operations. *)
Definition ops : list (list byte * list byte) := [([x12; x34], value x01); ([x12; x35], value x02); ([x12], value x03)].
Definition ops' : list (list byte * list byte) :=
  [([x99], value x04); ([x12], value x03); ([x12; x35], value x02); ([x99], []); ([x12; x34], value x05); ([x12; x34], value x01)].
Definition other : list (list byte * list byte) := [([x12; x34], value x01); ([x12; x35], value x02)].

Definition tree (l : list (list byte * list byte)) : TrieTree.tree := tupdates TNil l.
Definition known (b : list byte) : Prop := b ∈ blobs [tree ops; tree other].

Lemma ops_small l : l = ops \/ l = ops' \/ l = other -> Forall (fun kv => len kv.1 < 2 ^ 30 /\ len kv.2 < 2 ^ 32) l.
Proof.
  intros Hl. apply Forall_forall. intros kv Hin.
  assert (Hall : forallb (fun kv => (len kv.1 <? 2 ^ 30) && (len kv.2 <? 2 ^ 32)) l = true) by (by destruct Hl as [->|[->| ->]]; vm_compute).
  rewrite forallb_forall in Hall. specialize (Hall kv Hin). apply andb_true_iff in Hall as [H1%Z.ltb_lt H2%Z.ltb_lt]. done.
Qed.

Lemma stands l : l = ops \/ l = ops' \/ l = other ->
  exists t, updates db l empty = Ok t /\ Stands db t (tree l) /\ bounded (tree l).
Proof. intros Hl. apply updates_stand; [apply Stands_empty|apply bounded_empty|by apply ops_small]. Qed.

Lemma same_tree : tree ops' = tree ops.
Proof. by vm_compute. Qed.

Lemma known_distinct : Distinct known.
Proof. apply distinct_Distinct. by vm_compute. Qed.

Lemma db_good : Good known db.
Proof.
  split; [by left|]. intros h b Hh Hz. exfalso. unfold triedb.Node, db, triedb.NewDatabase in Hh. cbn [triedb.nodes triedb.diskdb] in Hh.
  rewrite lookup_singleton_ne, lookup_empty in Hh by congruence. done.
Qed.
End Sample.

Lemma tries_are_maps_witness :
  exists t, updates Sample.db Sample.ops Sample.empty = Ok t /\
    (exists u, trie.TryGet Sample.db t [x12; x35] = Ok (Sample.value x02, u)) /\
    exists t' T', trie.TryDelete Sample.db t [x12; x34] = Ok t' /\ content T' [x12; x34] = [] /\ content T' [x12] = Sample.value x03.
Proof.
  destruct (Sample.stands Sample.ops) as (t & E & Hs & _); [by left|]. exists t. split; [done|].
  destruct (tries_are_maps Sample.db t (Sample.tree Sample.ops) Hs) as (Hg & _ & Hd). split.
  - destruct (Hg [x12; x35]) as (u & Eu & _). exists u. exact Eu.
  - destruct (Hd [x12; x34]) as (t' & T' & Et & _ & Hc). exists t', T'. split; [done|]. rewrite !Hc. split; reflexivity.
Defined.

Lemma trie_roots_are_canonical_witness :
  exists t t' t'' h u u' h'' u'', updates Sample.db Sample.ops Sample.empty = Ok t /\ updates Sample.db Sample.ops' Sample.empty = Ok t' /\
    updates Sample.db Sample.other Sample.empty = Ok t'' /\
    trie.rootHash t = Ok (h, u) /\ trie.rootHash t' = Ok (h, u') /\ trie.rootHash t'' = Ok (h'', u'') /\ h <> h''.
Proof.
  destruct (Sample.stands Sample.ops) as (t & E & Hs & Hb); [by left|].
  destruct (Sample.stands Sample.ops') as (t' & E' & Hs' & Hb'); [by right; left|].
  destruct (Sample.stands Sample.other) as (t'' & E'' & Hs'' & Hb''); [by right; right|]. rewrite Sample.same_tree in *.
  assert (Hk : Known Sample.known (Sample.tree Sample.ops)) by (apply Known_blobs; by left).
  assert (Hk' : Known Sample.known (Sample.tree Sample.other)) by (apply Known_blobs; right; by left).
  destruct (trie_roots_are_canonical Sample.known _ t _ _ t' _ Sample.known_distinct Hs Hs' Hb Hb' Hk Hk) as (h & u & h' & u' & Eh & Eh' & Hiff).
  destruct (trie_roots_are_canonical Sample.known _ t _ _ t'' _ Sample.known_distinct Hs Hs'' Hb Hb'' Hk Hk') as (h1 & u1 & h'' & u'' & Eh1 & Eh'' & Hiff').
  assert (h' = h) as -> by (symmetry; apply Hiff; done). rewrite Eh in Eh1. injection Eh1 as <- <-.
  exists t, t', t'', h, u, u', h'', u''. split_and!; try done. intros Hx. pose proof (proj1 Hiff' Hx [x12]) as Hy. vm_compute in Hy. discriminate Hy.
Defined.

Lemma committed_tries_reopen_witness :
  exists t h t' d' t'' u, updates Sample.db Sample.ops Sample.empty = Ok t /\
    trie.Commit t None Sample.db = Ok (h, t', d') /\ trie.New h d' = Ok t'' /\ trie.TryGet d' t'' [x12; x34] = Ok (Sample.value x01, u).
Proof.
  destruct (Sample.stands Sample.ops) as (t & E & Hs & Hb); [by left|].
  assert (Hk : Known Sample.known (Sample.tree Sample.ops)) by (apply Known_blobs; by left).
  destruct (committed_tries_reopen Sample.known None Sample.db t _ Sample.known_distinct I Hs Hb Hk Sample.db_good)
    as (h & t' & d' & t'' & Ec & En & Hg & _).
  destruct (Hg [x12; x34]) as (u & u' & _ & Eu). exists t, h, t', d', t'', u'. split_and!; done.
Defined.
