(* ===== verification/TrieDbList.v ===== *)
(** * Package trie: the flush list of the node database

    The nodes of the cache form a list in the order of their insertion, through the hashes
    [flushPrev] and [flushNext].  Here that list is made explicit, with what inserting,
    unlinking and removing nodes do to it. *)

From stdpp Require Import base numbers list gmap option.
From Stdlib Require Import ZArith Lia Strings.Byte.
From S2P Require Import Prelude Common TrieDatabase.
Import triedb.

Notation cached := (gmap Hash cachedNode).
Notation nextOf m h := (flushNext <$> (m : cached) !! (h : Hash)).
Notation prevOf m h := (flushPrev <$> (m : cached) !! (h : Hash)).

(** The nodes of [L] are linked in this order; the predecessor of the first is free. *)
Fixpoint chain (m : cached) (L : list Hash) : Prop :=
  match L with
  | [] => True
  | h :: L' =>
      nextOf m h = Some (hd 0 L') /\
      match L' with [] => True | h' :: _ => prevOf m h' = Some h end /\
      chain m L'
  end.

(** The flush list of a database. *)
Record Linked (d : Database) (L : list Hash) : Prop := {
  lk_chain : chain (nodes d) L;
  lk_nodup : NoDup L;
  lk_zero : 0 ∉ L;
  lk_oldest : oldest d = hd 0 L;
  lk_holder : is_Some (nodes d !! 0)
}.

(** ** Chains *)

Lemma chain_frame m m' L :
  (forall h, h ∈ L -> nextOf m' h = nextOf m h) -> (forall h, h ∈ tail L -> prevOf m' h = prevOf m h) ->
  chain m L -> chain m' L.
Proof.
  induction L as [|h L IH]; intros Hn Hp; [done|]. intros (H1 & H2 & H3). split_and!.
  - rewrite Hn; [done|by left].
  - destruct L as [|h' L]; [done|]. rewrite Hp; [done|]. by left.
  - apply IH; [|intros x Hx; apply Hp|done].
    + intros x Hx. apply Hn. by right.
    + destruct L; [done|]. by right.
Qed.

Lemma chain_cached m L h : chain m L -> h ∈ L -> is_Some (m !! h).
Proof.
  induction L as [|x L IH]; intros Hc Hin; [by apply not_elem_of_nil in Hin|]. destruct Hc as (H1 & _ & H3).
  apply elem_of_cons in Hin as [->|Hin]; [|by apply IH]. by destruct (m !! x).
Qed.

Lemma chain_tail m h L : chain m (h :: L) -> chain m L.
Proof. by intros (_ & _ & H). Qed.

(** Taking out a node in the middle. *)
Lemma chain_unlink m m' A p h B :
  NoDup (A ++ p :: h :: B) -> 0 ∉ A ++ p :: h :: B -> chain m (A ++ p :: h :: B) ->
  (forall x, nextOf m' x = if bool_decide (x = p) then Some (hd 0 B) else nextOf m x) ->
  (forall x, prevOf m' x = if bool_decide (x = hd 0 B) then Some p else prevOf m x) ->
  chain m' (A ++ p :: B).
Proof.
  intros Hd Hz Hc Hn Hp. induction A as [|a A IH].
  - destruct Hc as (_ & _ & Hc). apply chain_tail in Hc. cbn [app] in *. split_and!.
    + by rewrite Hn, bool_decide_true.
    + destruct B as [|b B]; [done|]. by rewrite Hp, bool_decide_true.
    + apply list.NoDup_cons in Hd as [Hp1 Hd]. apply list.NoDup_cons in Hd as [_ Hd]. eapply chain_frame; [| |exact Hc].
      * intros x Hx. rewrite Hn, bool_decide_false; [done|]. intros ->. apply Hp1. by right.
      * intros x Hx. rewrite Hp, bool_decide_false; [done|]. intros ->. destruct B as [|b B]; [by apply not_elem_of_nil in Hx|].
        by apply list.NoDup_cons in Hd as [? _].
  - cbn [app] in *. apply list.NoDup_cons in Hd as [Ha Hd]. apply not_elem_of_cons in Hz as [Hz0 Hz].
    destruct Hc as (H1 & H2 & H3). specialize (IH Hd Hz H3). split_and!; [| |exact IH].
    + rewrite Hn, bool_decide_false, H1 by (intros ->; apply Ha; apply elem_of_app; right; by left). by destruct A.
    + assert (Hne : forall x, x ∈ A ++ [p] -> x <> hd 0 B).
      { intros x Hx ->. destruct B as [|b B].
        - cbn in Hx. apply Hz. apply elem_of_app in Hx as [Hx|Hx]; apply elem_of_app; [by left|right]. apply list_elem_of_singleton in Hx as ->. by left.
        - cbn in Hx. replace (A ++ p :: h :: b :: B) with ((A ++ [p]) ++ h :: b :: B) in Hd by (by rewrite <- app_assoc).
          apply list.NoDup_app in Hd as (_ & Hdis & _). apply (Hdis b Hx). right. by left. }
      destruct A as [|a' A]; cbn [app] in *; rewrite Hp, bool_decide_false; try done; apply Hne; by left.
Qed.

(** ** Databases *)

Lemma Linked_frame d d' L :
  Linked d L -> oldest d' = oldest d -> is_Some (nodes d' !! 0) ->
  (forall h, h ∈ L -> nextOf (nodes d') h = nextOf (nodes d) h) ->
  (forall h, h ∈ tail L -> prevOf (nodes d') h = prevOf (nodes d) h) -> Linked d' L.
Proof. intros [H1 H2 H3 H4 H5] Ho H0 Hn Hp. split; [by eapply chain_frame|done|done|congruence|done]. Qed.

(** The head is where the list starts, and nowhere else. *)
Lemma Linked_not_head d p A h B : Linked d (p :: A ++ h :: B) -> h <> oldest d.
Proof.
  intros [_ Hd _ -> _]. cbn. apply list.NoDup_cons in Hd as [Hp _]. intros ->. apply Hp. apply elem_of_app. right. by left.
Qed.

(** What a node is apart from its links. *)
Definition core (n : cachedNode) : list byte * Z * gmap Hash Z := (blob n, parents n, children n).
Notation coreOf m h := (core <$> (m : cached) !! (h : Hash)).

(** Only links have changed. *)
Record Relinked (d d' : Database) : Prop := {
  rl_disk : diskdb d' = diskdb d;
  rl_newest : newest d' = newest d;
  rl_preimages : preimages d' = preimages d;
  rl_size : nodesSize d' = nodesSize d;
  rl_readers : readers d' = readers d;
  rl_core : forall h, coreOf (nodes d') h = coreOf (nodes d) h
}.

#[global] Instance Relinked_preorder : PreOrder Relinked.
Proof.
  split; [by intros d; split|]. intros d1 d2 d3 [A1 A2 A3 A4 A5 A6] [B1 B2 B3 B4 B5 B6].
  split; [congruence..|]. intros h. by rewrite B6, A6.
Qed.

Lemma coreOf_None m m' h : coreOf m' h = coreOf m h -> m' !! h = None <-> m !! h = None.
Proof. destruct (m !! h), (m' !! h); cbn; intros; split; try done; congruence. Qed.

Lemma coreOf_Some m m' h n : coreOf m' h = coreOf m h -> m !! h = Some n -> exists n', m' !! h = Some n' /\ core n' = core n.
Proof. intros H E. rewrite E in H. destruct (m' !! h) as [n'|]; [|done]. injection H as ? ? ?. exists n'. split; [done|]. unfold core. congruence. Qed.

(** A projection of a changed node. *)
Lemma fmap_insert_lookup {A} (g : cachedNode -> A) (m : cached) h n x :
  g <$> <[h := n]> m !! x = if bool_decide (x = h) then Some (g n) else g <$> m !! x.
Proof. case_bool_decide as Hx; [subst; by rewrite lookup_insert_eq|by rewrite lookup_insert_ne]. Qed.

Lemma modifyNode_relinked h f d :
  is_Some (nodes d !! h) -> (forall n, core (f n) = core n) ->
  exists n, nodes d !! h = Some n /\ modifyNode h f d = Ok (setNodes (<[h := f n]> (nodes d)) d) /\ Relinked d (setNodes (<[h := f n]> (nodes d)) d).
Proof.
  intros [n Hn] Hf. exists n. unfold modifyNode. rewrite Hn. cbn [deref rbind]. split_and!; [done|done|].
  split; try done. intros x. cbn [nodes setNodes]. rewrite fmap_insert_lookup. case_bool_decide; [|done]. subst. by rewrite Hn, Hf.
Qed.

(** ** Unlinking *)

Lemma chain_at m A p h B : chain m (A ++ p :: h :: B) -> prevOf m h = Some p /\ nextOf m h = Some (hd 0 B) /\ is_Some (m !! p).
Proof.
  induction A as [|a A IH]; cbn [app].
  - intros (H1 & H2 & H3 & _). split_and!; [done|done|]. by destruct (m !! p).
  - intros Hc. apply IH. by apply chain_tail in Hc.
Qed.

Lemma chain_head_or_zero d L : Linked d L -> is_Some (nodes d !! hd 0 L).
Proof. intros [Hc _ _ _ H0]. destruct L as [|h L]; [done|]. eapply chain_cached; [done|]. by left. Qed.

Lemma Linked_without d A h B : Linked d (A ++ h :: B) -> NoDup (A ++ B) /\ 0 ∉ A ++ B.
Proof.
  intros [_ Hd Hz _ _]. split.
  - apply list.NoDup_app in Hd as (H1 & H2 & H3). apply list.NoDup_cons in H3 as [_ H3]. apply list.NoDup_app. split_and!; [done| |done].
    intros x Hx Hb. apply (H2 x Hx). by right.
  - intros Hin. apply Hz. apply elem_of_app in Hin as [?|?]; apply elem_of_app; [by left|right; by right].
Qed.

Lemma unlink_linked d h n A B :
  Linked d (A ++ h :: B) -> nodes d !! h = Some n ->
  exists d', unlink h n d = Ok d' /\ Relinked d d' /\ Linked d' (A ++ B).
Proof.
  intros HL Hn. destruct (Linked_without _ _ _ _ HL) as [Hd Hz]. pose proof HL as [Hc Hnd Hzz Ho H0]. unfold unlink.
  destruct A as [|p A _] using rev_ind.
  - cbn [app hd] in *. rewrite Ho, Z.eqb_refl. eexists. split; [done|]. split; [by split|].
    destruct Hc as (Hnx & _ & Hc). rewrite Hn in Hnx. injection Hnx as Hnx. by split.
  - rewrite <- !app_assoc in *. cbn [app] in *. pose proof (chain_at _ _ _ _ _ Hc) as (Hpv & Hnx & Hps).
    rewrite Hn in Hpv, Hnx. injection Hpv as Hpv. injection Hnx as Hnx. rewrite Hpv, Hnx.
    assert (Hne : h <> oldest d).
    { rewrite Ho. destruct A as [|a A]; cbn [app hd] in *; apply list.NoDup_cons in Hnd as [Ha _]; intros ->; apply Ha; [by left|].
      apply elem_of_app. right. right. by left. }
    destruct (Z.eqb_spec h (oldest d)) as [?|_]; [done|].
    destruct (modifyNode_relinked p (setNext (hd 0 B)) d Hps) as (np & Hnp & -> & R1); [done|]. cbn [rbind]. set (d1 := setNodes _ d) in *.
    assert (Hb : is_Some (nodes d1 !! hd 0 B)).
    { cbn. apply lookup_insert_is_Some'. right. destruct B as [|b B]; [done|]. eapply chain_cached; [done|]. apply elem_of_app. right. right. right. by left. }
    destruct (modifyNode_relinked (hd 0 B) (setPrev p) d1 Hb) as (nb & Hnb & -> & R2); [done|]. eexists. split; [done|].
    split; [by etrans|]. split; cbn [nodes oldest setNodes]; [|done|done| |].
    + eapply (chain_unlink (nodes d)); [done|done|done| |].
      * intros x. rewrite fmap_insert_lookup. cbn [flushNext setPrev]. case_bool_decide as Hx.
        -- subst x. change (Some (flushNext nb)) with (flushNext <$> Some nb). rewrite <- Hnb. cbn [nodes d1 setNodes]. by rewrite fmap_insert_lookup.
        -- cbn [nodes d1 setNodes]. by rewrite fmap_insert_lookup.
      * intros x. rewrite fmap_insert_lookup. cbn [flushPrev setPrev]. case_bool_decide as Hx; [done|].
        cbn [nodes d1 setNodes]. rewrite fmap_insert_lookup. case_bool_decide; [|done]. subst. by rewrite Hnp.
    + change (oldest d = hd 0 (A ++ p :: B)). rewrite Ho. by destruct A.
    + apply lookup_insert_is_Some'. right. cbn. apply lookup_insert_is_Some'. by right.
Qed.

(** ** Appending *)

Lemma chain_snoc m m' A p h :
  NoDup (A ++ [p; h]) -> chain m (A ++ [p]) ->
  (forall x, x ∈ A -> nextOf m' x = nextOf m x) -> (forall x, x ∈ A ++ [p] -> prevOf m' x = prevOf m x) ->
  nextOf m' p = Some h -> nextOf m' h = Some 0 -> prevOf m' h = Some p -> chain m' (A ++ [p; h]).
Proof.
  intros Hd Hc Hn Hp Hpn Hhn Hhp. induction A as [|a A IH]; cbn [app] in *; [by split_and!|].
  destruct Hc as (H1 & H2 & H3). apply list.NoDup_cons in Hd as [_ Hd]. split_and!.
  - rewrite Hn by (by left). rewrite H1. by destruct A.
  - destruct A as [|a' A]; cbn [app] in *; (rewrite Hp; [done|]); right; by left.
  - apply IH; [done|done| |]; intros x Hx; [apply Hn|apply Hp]; by right.
Qed.

(** The end of the list is where the next node goes. *)
Definition Tail (d : Database) (L : list Hash) : Prop := L = [] \/ exists A, L = A ++ [newest d].

Lemma insert_linked d h b L :
  Linked d L -> Tail d L -> nodes d !! h = None -> h <> 0 ->
  exists d', insert h b d = Ok d' /\ Linked d' (L ++ [h]) /\ newest d' = h /\
    diskdb d' = diskdb d /\ preimages d' = preimages d /\
    forall x, coreOf (nodes d') x = if bool_decide (x = h) then Some (b, 0, ∅) else coreOf (nodes d) x.
Proof.
  intros HL Ht Hh Hz. pose proof HL as [Hc Hd H0 Ho Hs]. unfold insert. rewrite Hh.
  assert (HhL : h ∉ L) by (intros Hin; destruct (chain_cached _ _ _ Hc Hin); congruence).
  destruct L as [|p A _] using rev_ind.
  - cbn in Ho. rewrite Ho. cbn [Z.eqb rbind]. eexists. split; [done|]. split_and!; try done.
    + split; cbn; [by rewrite lookup_insert_eq|apply NoDup_singleton|intros Hin%list_elem_of_singleton; congruence|done|by apply lookup_insert_is_Some'; right].
    + intros x. cbn. by rewrite fmap_insert_lookup.
  - destruct Ht as [Ht|[A' Ht]]; [by destruct A|]. apply app_inj_2 in Ht as [_ Ht]; [|done]. injection Ht as Ht.
    assert (Hp : is_Some (nodes d !! p)) by (eapply chain_cached; [done|]; apply elem_of_app; right; by left).
    assert (Hne : oldest d <> 0).
    { rewrite Ho. intros Hx. apply H0. destruct A as [|a A]; cbn in *; rewrite Hx; by left. }
    destruct (Z.eqb_spec (oldest d) 0) as [?|_]; [done|]. rewrite <- Ht.
    assert (Hph : p <> h) by (intros ->; destruct Hp; congruence).
    set (d1 := setNodes _ d). destruct (modifyNode_relinked p (setNext h) d1) as (np & Hnp & -> & R1); [by apply lookup_insert_is_Some'; right|done|].
    cbn [rbind]. cbn in Hnp. rewrite lookup_insert_ne in Hnp by done. eexists. split; [done|]. rewrite <- app_assoc in *. cbn [app] in *.
    assert (Hnd : NoDup (A ++ [p; h])).
    { replace (A ++ [p; h]) with ((A ++ [p]) ++ [h]) by (by rewrite <- app_assoc). apply list.NoDup_app. split_and!; [done| |apply NoDup_singleton].
      intros x Hx Hin%list_elem_of_singleton. congruence. }
    split_and!; try done.
    + assert (Hcap : forall x, x ∈ A ++ [p] -> x <> h) by (intros x Hx ->; done).
      split; cbn [nodes oldest addSize setNewest setNodes]; [|done| | |].
      * apply (chain_snoc (nodes d)); [done|done|..].
        -- intros x Hx. rewrite fmap_insert_lookup. case_bool_decide as Hxp.
           { subst. apply list.NoDup_app in Hd as (_ & Hdis & _). exfalso. apply (Hdis _ Hx). by left. }
           cbn [d1 nodes setNodes]. rewrite fmap_insert_lookup, bool_decide_false; [done|]. apply Hcap. apply elem_of_app. by left.
        -- intros x Hx. rewrite fmap_insert_lookup. case_bool_decide as Hxp; [subst; by rewrite Hnp|].
           cbn [d1 nodes setNodes]. rewrite fmap_insert_lookup, bool_decide_false; [done|]. by apply Hcap.
        -- by rewrite fmap_insert_lookup, bool_decide_true.
        -- rewrite fmap_insert_lookup, bool_decide_false by congruence. cbn [d1 nodes setNodes]. by rewrite fmap_insert_lookup, bool_decide_true.
        -- rewrite fmap_insert_lookup, bool_decide_false by congruence. cbn [d1 nodes setNodes]. rewrite fmap_insert_lookup, bool_decide_true by done. cbn. congruence.
      * intros Hin. apply elem_of_app in Hin as [Hin|Hin]; [apply H0; apply elem_of_app; by left|].
        apply elem_of_cons in Hin as [Hin|Hin%list_elem_of_singleton]; [|congruence]. apply H0. apply elem_of_app. right. rewrite Hin. by left.
      * change (oldest d = hd 0 (A ++ [p; h])). rewrite Ho. by destruct A.
      * apply lookup_insert_is_Some'. right. apply lookup_insert_is_Some'. by right.
    + intros x. cbn [nodes addSize setNewest]. rewrite (rl_core _ _ R1). cbn [d1 nodes setNodes]. by rewrite fmap_insert_lookup.
Qed.

(** ** Removing *)

Lemma Linked_drop d h L : Linked d L -> h ∉ L -> h <> 0 -> Linked (setNodes (delete h (nodes d)) d) L.
Proof.
  intros HL Hh Hz. apply (Linked_frame d); [done|done|cbn; by rewrite lookup_delete_ne by congruence; apply HL| |];
    intros x Hx; cbn; rewrite lookup_delete_ne; try done; intros ->; apply Hh; [done|]. destruct L; [done|by right].
Qed.

Lemma Linked_pop d h n L :
  Linked d (h :: L) -> nodes d !! h = Some n -> Linked (setOldest (flushNext n) (setNodes (delete h (nodes d)) d)) L.
Proof.
  intros HL Hn. pose proof HL as [(Hnx & _ & Hc) Hd Hz Ho H0]. rewrite Hn in Hnx. injection Hnx as Hnx. apply list.NoDup_cons in Hd as [Hh Hd].
  apply not_elem_of_cons in Hz as [Hz0 Hz].
  assert (H1 : Linked (setOldest (flushNext n) d) L) by (by split).
  by apply (Linked_drop _ h) in H1.
Qed.
