(* ===== verification/TrieDbRefs.v ===== *)
(** * Package trie: the reference counts of the node database

    Nodes are counted by the references to them.  The count may be short of the references
    for a node that also lies on the disk, since flushing leaves the references to what it
    flushes, and a node that comes back starts at zero; it is never short otherwise.  So
    what is removed because its count is zero is not referenced, or on the disk. *)

From stdpp Require Import base numbers list gmap option.
From Stdlib Require Import ZArith Lia Strings.Byte.
From S2P Require Import Prelude Common TrieDatabase TrieDbList.
Import triedb.

(** ** Sums over maps *)

Definition msum {A} (g : A -> Z) (m : gmap Hash A) : Z := map_fold (fun _ x acc => g x + acc) 0 m.

Section Sums.
Context {A : Type} (g : A -> Z).

Lemma msum_insert (m : gmap Hash A) h x : m !! h = None -> msum g (<[h := x]> m) = g x + msum g m.
Proof. intros Hh. unfold msum. rewrite map_fold_insert_L; [done| |done]. intros. lia. Qed.

Lemma msum_delete (m : gmap Hash A) h x : m !! h = Some x -> msum g m = g x + msum g (delete h m).
Proof. intros Hh. unfold msum. rewrite (map_fold_delete_L _ _ h x m); [done| |done]. intros. lia. Qed.

Lemma msum_replace (m : gmap Hash A) h x y : m !! h = Some x -> msum g (<[h := y]> m) = msum g m - g x + g y.
Proof.
  intros Hh. rewrite <- insert_delete_eq, msum_insert by apply lookup_delete_eq. rewrite (msum_delete m h x Hh). lia.
Qed.

Lemma msum_nonneg (m : gmap Hash A) : (forall h x, m !! h = Some x -> 0 <= g x) -> 0 <= msum g m.
Proof.
  induction m as [|h x m Hh IH] using map_ind; intros Hp; [done|]. rewrite msum_insert by done.
  pose proof (Hp h x (lookup_insert_eq _ _ _)). enough (0 <= msum g m) by lia. apply IH. intros h' y Hy. apply (Hp h').
  rewrite lookup_insert_ne; [done|congruence].
Qed.

Lemma msum_ge (m : gmap Hash A) h x : (forall h x, m !! h = Some x -> 0 <= g x) -> m !! h = Some x -> g x <= msum g m.
Proof.
  intros Hp Hh. rewrite (msum_delete m h x Hh). enough (0 <= msum g (delete h m)) by lia.
  apply msum_nonneg. intros h' y [_ Hy]%lookup_delete_Some. by apply (Hp h').
Qed.

Lemma msum_pos (m : gmap Hash A) : 0 < msum g m -> exists h x, m !! h = Some x /\ 0 < g x.
Proof.
  induction m as [|h x m Hh IH] using map_ind; intros Hp; [done|]. rewrite msum_insert in Hp by done.
  destruct (decide (0 < g x)) as [Hx|Hx]; [exists h, x; by rewrite lookup_insert_eq|].
  destruct IH as (h' & y & Hy & Hg); [lia|]. exists h', y. split; [|done]. rewrite lookup_insert_ne; [done|congruence].
Qed.

Lemma msum_ext (m m' : gmap Hash A) : (forall h, g <$> m' !! h = g <$> m !! h) -> msum g m' = msum g m.
Proof.
  intros He. assert (Hf : forall m : gmap Hash A, msum g m = msum id (g <$> m)) by (intros; unfold msum; by rewrite map_fold_fmap).
  rewrite !Hf. f_equal. apply map_eq. intros h. rewrite !lookup_fmap. apply He.
Qed.
End Sums.

(** ** References *)

(** The references to a node. *)
Definition refs (m : cached) (c : Hash) : Z := msum (fun n => refCount n c) m.
Definition weight (n : cachedNode) : Z := msum id (children n).

Lemma totalRefs_weight d : totalRefs d = msum weight (nodes d).
Proof. done. Qed.

Record Sound (d : Database) : Prop := {
  so_holder : exists n, nodes d !! 0 = Some n /\ parents n <= 0;
  so_keys : forall h, is_Some (nodes d !! h) -> is_hash h;
  so_count : forall p n c k, nodes d !! p = Some n -> children n !! c = Some k -> 1 <= k /\ (p <> 0 -> k = 1);
  so_child : forall p n c, nodes d !! p = Some n -> is_Some (children n !! c) -> c <> 0 /\ is_hash c;
  so_there : forall p n c, nodes d !! p = Some n -> is_Some (children n !! c) -> is_Some (Node c d);
  so_disk : forall c n b, nodes d !! c = Some n -> c <> 0 -> diskdb d !! HashBytes c = Some b -> b = blob n;
  so_refs : forall c n, nodes d !! c = Some n -> c <> 0 -> refs (nodes d) c <= parents n \/ is_Some (diskdb d !! HashBytes c)
}.

Lemma refCount_nonneg d p n c : Sound d -> nodes d !! p = Some n -> 0 <= refCount n c.
Proof.
  intros HS Hn. unfold refCount. destruct (children n !! c) as [k|] eqn:E; cbn; [|done].
  destruct (so_count d HS p n c k Hn E). lia.
Qed.

Lemma refCount_some d p n c : Sound d -> nodes d !! p = Some n -> is_Some (children n !! c) <-> 1 <= refCount n c.
Proof.
  intros HS Hn. unfold refCount. destruct (children n !! c) as [k|] eqn:E; cbn.
  - destruct (so_count d HS p n c k Hn E). split; [intros; lia|done].
  - split; [by intros [? ?]|lia].
Qed.

Lemma refs_ge d p n c : Sound d -> nodes d !! p = Some n -> is_Some (children n !! c) -> 1 <= refs (nodes d) c.
Proof.
  intros HS Hn Hc. apply (refCount_some d p n c HS Hn) in Hc. unfold refs.
  pose proof (msum_ge (fun n => refCount n c) (nodes d) p n) as Hge. cbn in Hge. specialize (Hge ltac:(intros h x Hx; by eapply refCount_nonneg) Hn). lia.
Qed.

Lemma weight_nonneg d p n : Sound d -> nodes d !! p = Some n -> 0 <= weight n.
Proof. intros HS Hn. apply msum_nonneg. intros c k Hk. destruct (so_count d HS p n c k Hn Hk). cbn. lia. Qed.

Lemma totalRefs_nonneg d : Sound d -> 0 <= totalRefs d.
Proof. intros HS. rewrite totalRefs_weight. apply msum_nonneg. intros h n Hn. by eapply weight_nonneg. Qed.

(** ** Links do not matter *)

Lemma Node_core d d' h : diskdb d' = diskdb d -> coreOf (nodes d') h = coreOf (nodes d) h -> Node h d' = Node h d.
Proof. intros Hd Hc. unfold Node. rewrite Hd. destruct (nodes d !! h), (nodes d' !! h); unfold core in Hc; cbn in Hc; congruence. Qed.

Lemma coreOf_fmap {A} (g : cachedNode -> A) (g' : list byte * Z * gmap Hash Z -> A) (m m' : cached) h :
  (forall n, g n = g' (core n)) -> coreOf m' h = coreOf m h -> g <$> m' !! h = g <$> m !! h.
Proof. intros Hg Hc. destruct (m !! h), (m' !! h); cbn in *; [rewrite !Hg; congruence|done..]. Qed.

Lemma refs_core m m' c : (forall h, coreOf m' h = coreOf m h) -> refs m' c = refs m c.
Proof. intros Hc. apply msum_ext. intros h. by apply (coreOf_fmap _ (fun x => default 0 (x.2 !! c))). Qed.

Lemma totalRefs_core d d' : (forall h, coreOf (nodes d') h = coreOf (nodes d) h) -> totalRefs d' = totalRefs d.
Proof. intros Hc. rewrite !totalRefs_weight. apply msum_ext. intros h. by apply (coreOf_fmap _ (fun x => msum id x.2)). Qed.

Lemma Sound_core d d' : diskdb d' = diskdb d -> (forall h, coreOf (nodes d') h = coreOf (nodes d) h) -> Sound d -> Sound d'.
Proof.
  intros Hd Hc [S1 S2 S3 S4 S5 S6 S7].
  assert (Hback : forall h n', nodes d' !! h = Some n' -> exists n, nodes d !! h = Some n /\ core n = core n').
  { intros h n' Hn. eapply coreOf_Some; [|done]. done. }
  split.
  - destruct S1 as (n & Hn & Hp). destruct (coreOf_Some _ _ _ _ (Hc 0) Hn) as (n' & Hn' & E). exists n'. injection E as _ -> _. done.
  - intros h [n' Hn']. destruct (Hback h n' Hn') as (n & Hn & _). apply S2. by exists n.
  - intros p n' c k Hn' Hk. destruct (Hback p n' Hn') as (n & Hn & E). injection E as _ _ E. rewrite <- E in Hk. by eapply S3.
  - intros p n' c Hn' Hk. destruct (Hback p n' Hn') as (n & Hn & E). injection E as _ _ E. rewrite <- E in Hk. by eapply S4.
  - intros p n' c Hn' Hk. destruct (Hback p n' Hn') as (n & Hn & E). injection E as _ _ E. rewrite <- E in Hk.
    rewrite (Node_core d d' c Hd (Hc c)). by eapply S5.
  - intros c n' b Hn' Hz Hb. destruct (Hback c n' Hn') as (n & Hn & E). injection E as E _ _. rewrite <- E. rewrite Hd in Hb. by eapply S6.
  - intros c n' Hn' Hz. destruct (Hback c n' Hn') as (n & Hn & E). injection E as _ E _. rewrite Hd, (refs_core _ _ c Hc), <- E. by eapply S7.
Qed.

(** ** Changing counts *)

Lemma Node_insert d p n n' h : nodes d !! p = Some n -> blob n' = blob n -> Node h (setNodes (<[p := n']> (nodes d)) d) = Node h d.
Proof.
  intros Hn Hb. unfold Node. cbn [nodes diskdb setNodes]. destruct (decide (h = p)) as [->|Hne]; [|by rewrite lookup_insert_ne].
  by rewrite lookup_insert_eq, Hn, Hb.
Qed.

Lemma refs_insert m p n n' c : m !! p = Some n -> refs (<[p := n']> m) c = refs m c - refCount n c + refCount n' c.
Proof. intros Hn. unfold refs. by rewrite (msum_replace _ m p n n' Hn). Qed.

Lemma Sound_setChildren d p n cs :
  Sound d -> nodes d !! p = Some n ->
  (forall c k, cs !! c = Some k -> 1 <= k /\ (p <> 0 -> k = 1)) ->
  (forall c, is_Some (cs !! c) -> c <> 0 /\ is_hash c /\ is_Some (Node c d)) ->
  (forall c nc, nodes d !! c = Some nc -> c <> 0 ->
     refs (nodes d) c - refCount n c + default 0 (cs !! c) <= parents nc \/ is_Some (diskdb d !! HashBytes c)) ->
  Sound (setNodes (<[p := setChildren cs n]> (nodes d)) d).
Proof.
  intros HS Hn Hk Hc Hr. set (d' := setNodes _ d). pose proof HS as [S1 S2 S3 S4 S5 S6 S7].
  assert (Hnode : forall h, Node h d' = Node h d) by (intros h; by apply (Node_insert d p n)).
  assert (Hback : forall h n', nodes d' !! h = Some n' ->
    (h = p /\ n' = setChildren cs n) \/ (h <> p /\ nodes d !! h = Some n')).
  { intros h n' H. cbn in H. apply lookup_insert_Some in H as [[<- <-]|[Hne Hn']]; [by left|]. right. by split; [congruence|]. }
  split.
  - destruct S1 as (n0 & Hn0 & Hp0). cbn. destruct (decide (p = 0)) as [->|Hne]; [|by exists n0; rewrite lookup_insert_ne].
    rewrite lookup_insert_eq. eexists. split; [done|]. cbn. congruence.
  - intros h [n' [[-> _]|[_ Hn']]%Hback]; apply S2; eauto.
  - intros h n' c k [[-> ->]|[_ Hn']]%Hback; [apply Hk|by eapply S3].
  - intros h n' c [[-> ->]|[_ Hn']]%Hback; [|by eapply S4]. intros Hs. by destruct (Hc c Hs) as (? & ? & _).
  - intros h n' c [[-> ->]|[_ Hn']]%Hback Hs; rewrite Hnode; [by apply Hc|by eapply S5].
  - intros c n' b [[-> ->]|[_ Hn']]%Hback Hz Hb; [by apply (S6 p n b)|by eapply S6].
  - intros c n' Hn' Hz. cbn [nodes diskdb d' setNodes]. rewrite (refs_insert _ p n) by done. unfold refCount at 2. cbn [children setChildren].
    destruct (Hback c n' Hn') as [[-> ->]|[_ Hn'']]; [exact (Hr p n Hn Hz)|by apply Hr].
Qed.

Lemma Sound_setParents d c n z :
  Sound d -> nodes d !! c = Some n -> (c = 0 -> z <= 0) -> (c <> 0 -> refs (nodes d) c <= z \/ is_Some (diskdb d !! HashBytes c)) ->
  Sound (setNodes (<[c := setParents z n]> (nodes d)) d).
Proof.
  intros HS Hn H0 Hr. set (d' := setNodes _ d). pose proof HS as [S1 S2 S3 S4 S5 S6 S7].
  assert (Hback : forall h n', nodes d' !! h = Some n' ->
    exists m, nodes d !! h = Some m /\ blob n' = blob m /\ children n' = children m /\ (h = c /\ parents n' = z \/ h <> c /\ n' = m)).
  { intros h n' H. cbn in H. apply lookup_insert_Some in H as [[<- <-]|[Hne Hn']]; [exists n|exists n']; split_and!; try done; [by left|]. right. split; [congruence|done]. }
  assert (Hnode : forall h, Node h d' = Node h d) by (intros h; by apply (Node_insert d c n)).
  split.
  - destruct S1 as (n0 & Hn0 & Hp0). cbn. destruct (decide (c = 0)) as [->|Hne]; [|by exists n0; rewrite lookup_insert_ne].
    rewrite lookup_insert_eq. eexists. split; [done|]. cbn. auto.
  - intros h [n' (m & Hm & _)%Hback]; apply S2; eauto.
  - intros h n' c' k (m & Hm & _ & -> & _)%Hback. by eapply S3.
  - intros h n' c' (m & Hm & _ & -> & _)%Hback. by eapply S4.
  - intros h n' c' (m & Hm & _ & -> & _)%Hback Hs; rewrite Hnode. by eapply S5.
  - intros h n' b (m & Hm & -> & _ & _)%Hback Hz Hb. by eapply S6.
  - intros h n' (m & Hm & _ & _ & Hcase)%Hback Hz. cbn [nodes diskdb d' setNodes]. rewrite (refs_insert _ c n) by done.
    unfold refCount. cbn [children setParents]. rewrite Z.sub_add.
    destruct Hcase as [[-> ->]|[_ ->]]; [by apply Hr|by apply S7].
Qed.

Lemma Sound_delete d c n :
  Sound d -> nodes d !! c = Some n -> c <> 0 -> parents n <= 0 \/ is_Some (diskdb d !! HashBytes c) ->
  Sound (setNodes (delete c (nodes d)) d).
Proof.
  intros HS Hn Hz Hp. set (d' := setNodes _ d). pose proof HS as [S1 S2 S3 S4 S5 S6 S7].
  assert (Hback : forall h n', nodes d' !! h = Some n' -> h <> c /\ nodes d !! h = Some n').
  { intros h n' H. cbn in H. apply lookup_delete_Some in H as [Hne Hn']. split; [congruence|done]. }
  assert (Hrefs : forall h, refs (nodes d') h <= refs (nodes d) h).
  { intros h. unfold refs. cbn. rewrite (msum_delete _ (nodes d) c n Hn). pose proof (refCount_nonneg d c n h HS Hn). lia. }
  split.
  - destruct S1 as (n0 & Hn0 & Hp0). exists n0. cbn. by rewrite lookup_delete_ne by congruence.
  - intros h [n' [_ Hn']%Hback]. apply S2. by exists n'.
  - intros h n' c' k [_ Hn']%Hback. by eapply S3.
  - intros h n' c' [_ Hn']%Hback. by eapply S4.
  - intros h n' c' [_ Hn']%Hback Hs. pose proof (S5 h n' c' Hn' Hs) as Ht. destruct (decide (c' = c)) as [->|Hne].
    + assert (Hd : is_Some (diskdb d !! HashBytes c)).
      { destruct Hp as [Hp|Hp]; [|done]. destruct (S7 c n Hn Hz) as [Hr|Hr]; [|done]. pose proof (refs_ge d h n' c HS Hn' Hs). lia. }
      unfold Node. cbn. by rewrite lookup_delete_eq.
    + unfold Node. cbn. by rewrite lookup_delete_ne by congruence.
  - intros h n' b [_ Hn']%Hback. by apply S6.
  - intros h n' [_ Hn']%Hback Hz'. destruct (S7 h n' Hn' Hz') as [Hr|Hr]; [left|by right]. specialize (Hrefs h). lia.
Qed.

(** ** Dropping a reference *)

Lemma children_dropRef c p c' :
  children (dropRef c p) !! c' =
    if bool_decide (c' = c) then if refCount p c =? 1 then None else Some (refCount p c - 1) else children p !! c'.
Proof.
  unfold dropRef. cbn [children setChildren]. replace (refCount p c - 1 =? 0) with (refCount p c =? 1) by (apply Bool.eq_iff_eq_true; rewrite !Z.eqb_eq; lia).
  destruct (refCount p c =? 1); case_bool_decide as Hc; try subst c'.
  - by rewrite lookup_delete_eq.
  - by rewrite lookup_delete_ne by congruence.
  - by rewrite lookup_insert_eq.
  - by rewrite lookup_insert_ne by congruence.
Qed.

Lemma refCount_dropRef c p c' : refCount (dropRef c p) c' = if bool_decide (c' = c) then refCount p c - 1 else refCount p c'.
Proof.
  unfold refCount at 1. rewrite children_dropRef. case_bool_decide; [|done]. destruct (Z.eqb_spec (refCount p c) 1) as [->|]; done.
Qed.

Lemma weight_dropRef c p : 1 <= refCount p c -> weight (dropRef c p) = weight p - 1.
Proof.
  intros Hc. unfold weight, dropRef. cbn [children setChildren].
  assert (Hk : children p !! c = Some (refCount p c)).
  { unfold refCount in *. destruct (children p !! c); [done|]. cbn in Hc. lia. }
  destruct (Z.eqb_spec (refCount p c - 1) 0) as [E|E].
  - pose proof (msum_delete id (children p) c _ Hk) as Hd. cbn in Hd. lia.
  - rewrite (msum_replace id _ c _ _ Hk). cbn. lia.
Qed.

Lemma Sound_dropRef d p n c :
  Sound d -> nodes d !! p = Some n -> 1 <= refCount n c -> Sound (setNodes (<[p := dropRef c n]> (nodes d)) d).
Proof.
  intros HS Hn Hc. assert (Hex : is_Some (children n !! c)) by (by apply (refCount_some d p n c HS Hn)).
  assert (Hin : forall c', is_Some (children (dropRef c n) !! c') -> is_Some (children n !! c')).
  { intros c'. rewrite children_dropRef. case_bool_decide as Hcc; [subst; done|done]. }
  assert (Hd : forall c', default 0 (children (dropRef c n) !! c') <= refCount n c').
  { intros c'. change (refCount (dropRef c n) c' <= refCount n c'). rewrite refCount_dropRef. case_bool_decide; [subst|]; lia. }
  apply (Sound_setChildren d p n (children (dropRef c n)) HS Hn).
  - intros c' k Hk. rewrite children_dropRef in Hk. case_bool_decide as Hcc; [|by eapply (so_count d HS)].
    destruct (Z.eqb_spec (refCount n c) 1) as [E|E]; [done|]. injection Hk as <-. split; [lia|]. intros Hz. exfalso. apply E.
    destruct Hex as [k Hk]. destruct (so_count d HS p n c k Hn Hk) as [_ H1]. unfold refCount. rewrite Hk. cbn. by apply H1.
  - intros c' Hs%Hin. destruct (so_child d HS p n c' Hn Hs). split_and!; [done|done|by eapply (so_there d HS)].
  - intros c' nc Hnc Hz. destruct (so_refs d HS c' nc Hnc Hz) as [Hr|Hr]; [left|by right]. specialize (Hd c'). lia.
Qed.

Lemma totalRefs_dropRef d p n c : nodes d !! p = Some n -> 1 <= refCount n c ->
  totalRefs (setNodes (<[p := dropRef c n]> (nodes d)) d) = totalRefs d - 1.
Proof. intros Hn Hc. rewrite !totalRefs_weight. cbn. rewrite (msum_replace _ _ p n) by done. rewrite weight_dropRef by done. lia. Qed.

(** ** What dereferencing leaves *)

(** No nodes are new, and no counts go up; outside of [X], the children stay, and a count of
    zero was zero.  Nodes without a count stay. *)
Record Shrunk (X : list Hash) (d d' : Database) : Prop := {
  sh_disk : diskdb d' = diskdb d;
  sh_newest : newest d' = newest d;
  sh_preimages : preimages d' = preimages d;
  sh_back : forall h n', nodes d' !! h = Some n' -> exists n, nodes d !! h = Some n /\ blob n' = blob n /\ parents n' <= parents n /\
    (h ∉ X -> children n' = children n /\ (parents n' = 0 -> parents n = 0));
  sh_keep : forall h n, nodes d !! h = Some n -> parents n <= 0 -> is_Some (nodes d' !! h)
}.

#[global] Instance Shrunk_preorder X : PreOrder (Shrunk X).
Proof.
  split.
  - intros d. split; try done. intros h n Hn. exists n. split_and!; try done.
  - intros d1 d2 d3 [A1 A2 A3 A4 A5] [B1 B2 B3 B4 B5]. split; [congruence..| |].
    + intros h n3 H3. destruct (B4 h n3 H3) as (n2 & H2 & E2 & P2 & X2). destruct (A4 h n2 H2) as (n1 & H1 & E1 & P1 & X1).
      exists n1. split_and!; [done|congruence|lia|]. intros HX. destruct (X1 HX), (X2 HX). split; [congruence|auto].
    + intros h n1 H1 Hp. destruct (A5 h n1 H1 Hp) as [n2 H2]. destruct (A4 h n2 H2) as (n1' & H1' & _ & P1 & _).
      apply (B5 h n2 H2). assert (n1' = n1) as -> by congruence. lia.
Qed.

Lemma Shrunk_weaken X Y d d' : (forall h, h ∈ X -> h ∈ Y) -> Shrunk X d d' -> Shrunk Y d d'.
Proof.
  intros HXY [A1 A2 A3 A4 A5]. split; try done. intros h n' Hn'. destruct (A4 h n' Hn') as (n & ? & ? & ? & HX). exists n.
  split_and!; [done..|]. intros Hy. apply HX. intros Hx. by apply Hy, HXY.
Qed.

Lemma Relinked_Shrunk X d d' : Relinked d d' -> Shrunk X d d'.
Proof.
  intros [A1 A2 A3 _ _ A6]. split; try done.
  - intros h n' Hn'. destruct (coreOf_Some (nodes d') (nodes d) h n') as (n & Hn & E); [by rewrite A6|done|]. injection E as E1 E2 E3.
    exists n. split_and!; [done|done|lia|]. intros _. split; [done|lia].
  - intros h n Hn _. destruct (coreOf_Some (nodes d) (nodes d') h n) as (n' & Hn' & _); [by rewrite A6|done|]. by exists n'.
Qed.

Lemma Shrunk_insert X d c n n' :
  nodes d !! c = Some n -> blob n' = blob n -> parents n' <= parents n ->
  (c ∉ X -> children n' = children n /\ (parents n' = 0 -> parents n = 0)) -> Shrunk X d (setNodes (<[c := n']> (nodes d)) d).
Proof.
  intros Hn Hb Hp HX. split; try done; cbn [nodes setNodes].
  - intros h m [[<- <-]|[Hne Hm]]%lookup_insert_Some; [by exists n|]. exists m. split_and!; done.
  - intros h m Hm _. apply lookup_insert_is_Some'. right. by exists m.
Qed.

Lemma Shrunk_delete d d' p c n z :
  Shrunk [p; c] d d' -> nodes d !! c = Some n -> 0 < parents n ->
  Shrunk [p] d (addSize z (setNodes (delete c (nodes d')) d')).
Proof.
  intros [A1 A2 A3 A4 A5] Hn Hp. split; try done; cbn [nodes addSize setNodes].
  - intros h m [Hne Hm]%lookup_delete_Some. destruct (A4 h m Hm) as (n0 & H1 & H2 & H3 & HX). exists n0. split_and!; [done..|].
    intros Hin. apply HX. intros [->|Hin2%list_elem_of_singleton]%elem_of_cons; [apply Hin; by left|congruence].
  - intros h m Hm Hpm. assert (Hne : c <> h) by (intros <-; assert (m = n) by congruence; subst; lia). rewrite lookup_delete_ne by done. by eapply A5.
Qed.

(** A sound database whose nodes are in the flush list [L], but for those of [Pend], which
    are about to be removed. *)
Record InOrder (Pend : list Hash) (d : Database) (L : list Hash) : Prop := {
  io_sound : Sound d;
  io_linked : Linked d L;
  io_covered : forall h, is_Some (nodes d !! h) -> h <> 0 -> h ∈ L \/ h ∈ Pend
}.

(** The nodes that [dereference] is about to remove have no count. *)
Definition Pinned (Pend : list Hash) (d : Database) : Prop :=
  forall h n, h ∈ Pend -> nodes d !! h = Some n -> parents n <= 0.

Lemma Pinned_Shrunk Pend X d d' : Shrunk X d d' -> Pinned Pend d -> Pinned Pend d'.
Proof. intros HS HP h n' Hin Hn'. destruct (sh_back _ _ _ HS h n' Hn') as (n & Hn & _ & Hle & _). specialize (HP h n Hin Hn). lia. Qed.

Lemma InOrder_relinked Pend d d' L L' :
  InOrder Pend d L -> Relinked d d' -> Linked d' L' -> (forall h, h ∈ L -> h ∈ L' \/ h ∈ Pend) -> InOrder Pend d' L'.
Proof.
  intros [S1 _ S3] HR HL Hsub. pose proof (rl_core _ _ HR) as Hc. split; [by eapply Sound_core; [apply HR| |]|done|].
  intros h [n Hn] Hz. destruct (coreOf_Some (nodes d') (nodes d) h n) as (n' & Hn' & _); [by rewrite Hc|done|].
  destruct (S3 h); [by exists n'|done|auto|by right].
Qed.

(** Changing a node, but not its links. *)
Lemma InOrder_insert Pend d L h n n' :
  InOrder Pend d L -> nodes d !! h = Some n -> flushNext n' = flushNext n -> flushPrev n' = flushPrev n ->
  Sound (setNodes (<[h := n']> (nodes d)) d) -> InOrder Pend (setNodes (<[h := n']> (nodes d)) d) L.
Proof.
  intros [S1 S2 S3] Hn Hx Hp HS. split; [done| |]; cbn [nodes setNodes].
  - apply (Linked_frame d); cbn [nodes oldest setNodes]; [done|done|apply lookup_insert_is_Some'; right; apply S2| |];
      intros x _; rewrite fmap_insert_lookup; case_bool_decide; try done; subst; rewrite Hn; cbn; congruence.
  - intros x Hx' Hz. apply S3; [|done]. apply lookup_insert_is_Some' in Hx' as [->|Hx']; [by exists n|done].
Qed.

Section Dereferences.
Context `{MapOrder}.

Definition Derefs (fuel : nat) : Prop :=
  forall child parent d L Pend p,
    InOrder Pend d L -> Pinned Pend d -> nodes d !! parent = Some p -> parents p <= 0 -> 1 <= refCount p child -> totalRefs d < Z.of_nat fuel ->
    exists d' L' p', dereference fuel child parent d = Ok d' /\ InOrder Pend d' L' /\ L' `sublist_of` L /\ Shrunk [parent] d d' /\
      totalRefs d' < totalRefs d /\ nodes d' !! parent = Some p' /\ children p' = children (dropRef child p).

(** Dereferencing all the children of a node. *)
Lemma derefs_loop fuel c Pend ks d L n :
  Derefs fuel -> NoDup ks -> InOrder Pend d L -> Pinned Pend d -> nodes d !! c = Some n -> parents n <= 0 ->
  (forall k, k ∈ ks -> 1 <= refCount n k) -> totalRefs d < Z.of_nat fuel ->
  exists d' L', forEach (fun h d => dereference fuel h c d) ks d = Ok d' /\ InOrder Pend d' L' /\ L' `sublist_of` L /\
    Shrunk [c] d d' /\ totalRefs d' <= totalRefs d.
Proof.
  intros HD. revert d L n. induction ks as [|k ks IH]; intros d L n Hnd HO HP Hn Hp Hk Ht; cbn [forEach]; [by exists d, L|].
  apply list.NoDup_cons in Hnd as [Hk' Hnd].
  destruct (HD k c d L Pend n HO HP Hn Hp (Hk k ltac:(by left)) Ht) as (d1 & L1 & n1 & -> & HO1 & HL1 & HS1 & Ht1 & Hn1 & Hc1). cbn [rbind].
  destruct (IH d1 L1 n1) as (d2 & L2 & E2 & HO2 & HL2 & HS2 & Ht2); [done|done|by eapply Pinned_Shrunk|done| | |lia|].
  - destruct (sh_back _ _ _ HS1 c n1 Hn1) as (n' & Hn' & _ & Hp' & _). assert (n' = n) as -> by congruence. lia.
  - intros k2 Hin. unfold refCount. rewrite Hc1. change (1 <= refCount (dropRef k n) k2). rewrite refCount_dropRef, bool_decide_false by congruence.
    apply Hk. by right.
  - exists d2, L2. split_and!; [exact E2|done|by etrans|by etrans|lia].
Qed.

Lemma childKeys_elem d n k : k ∈ childKeys d n <-> is_Some (children n !! k).
Proof.
  unfold childKeys. rewrite childOrder_keys, list_elem_of_fmap. split.
  - intros ((k', v) & -> & Hin%elem_of_map_to_list). by exists v.
  - intros [v Hv]. exists (k, v). split; [done|]. by apply elem_of_map_to_list.
Qed.

(** Removing a node that is not in the list any more. *)
Lemma InOrder_delete Pend d L c n :
  InOrder (c :: Pend) d L -> nodes d !! c = Some n -> parents n <= 0 \/ is_Some (diskdb d !! HashBytes c) -> c ∉ L -> c <> 0 ->
  InOrder Pend (addSize (- blobSize n) (setNodes (delete c (nodes d)) d)) L.
Proof.
  intros [S1 S2 S3] Hn Hp HcL Hz. assert (HO := Sound_delete d c n S1 Hn Hz Hp).
  assert (HL := Linked_drop d c L S2 HcL Hz). split.
  - by eapply Sound_core; [| |exact HO].
  - destruct HL. by split.
  - cbn. intros h Hh Hz'. destruct (decide (h = c)) as [->|Hne]; [rewrite lookup_delete_eq in Hh; by destruct Hh|].
    rewrite lookup_delete_ne in Hh by congruence. destruct (S3 h Hh Hz') as [?|Hin]; [by left|]. apply elem_of_cons in Hin as [?|?]; [done|by right].
Qed.

Lemma totalRefs_insert d h n n' : nodes d !! h = Some n -> children n' = children n -> totalRefs (setNodes (<[h := n']> (nodes d)) d) = totalRefs d.
Proof. intros Hn Hc. rewrite !totalRefs_weight. cbn. rewrite (msum_replace _ _ h n) by done. unfold weight. rewrite Hc. lia. Qed.

Lemma totalRefs_delete d h n z : Sound d -> nodes d !! h = Some n -> totalRefs (addSize z (setNodes (delete h (nodes d)) d)) <= totalRefs d.
Proof. intros HS Hn. rewrite !totalRefs_weight. cbn. rewrite (msum_delete _ (nodes d) h n Hn). pose proof (weight_nonneg d h n HS Hn). lia. Qed.

(** Taking a node out of the list. *)
Lemma InOrder_unlink Pend d A c B n :
  InOrder Pend d (A ++ c :: B) -> nodes d !! c = Some n ->
  exists d', unlink c n d = Ok d' /\ Relinked d d' /\ InOrder (c :: Pend) d' (A ++ B).
Proof.
  intros HO Hn. destruct (unlink_linked d c n A B (io_linked _ _ _ HO) Hn) as (d' & E & HR & HL). exists d'. split_and!; [done|done|].
  apply (InOrder_relinked _ d d' (A ++ c :: B)); [|done|done|].
  - destruct HO as [S1 S2 S3]. split; [done|done|]. intros h Hh Hz. destruct (S3 h Hh Hz); [by left|right; by right].
  - intros h [Hin|[->|Hin]%elem_of_cons]%elem_of_app; [left|right; by left|left]; apply elem_of_app; [by left|by right].
Qed.

(** Removing a node whose count has come down to zero, and what only it refers to. *)
Lemma derefs_remove fuel Pend d L c n :
  Derefs fuel -> InOrder Pend d L -> Pinned Pend d -> nodes d !! c = Some n -> parents n = 0 -> c <> 0 -> c ∉ Pend -> totalRefs d < Z.of_nat fuel ->
  exists d3 d4 n4 L',
    unlink c n d = Ok d3 /\ forEach (fun h d => dereference fuel h c d) (childKeys d3 n) d3 = Ok d4 /\
    InOrder Pend (addSize (- blobSize n) (setNodes (delete c (nodes d4)) d4)) L' /\ L' `sublist_of` L /\
    Shrunk [c] d d4 /\ nodes d4 !! c = Some n4 /\ Sound d4 /\ totalRefs d4 <= totalRefs d.
Proof.
  intros HD HO HPi Hn Hp Hz HP Ht. pose proof (lk_nodup _ _ (io_linked _ _ _ HO)) as Hnd.
  destruct (io_covered _ _ _ HO c) as [Hin|?]; [by exists n|done| |done]. apply list_elem_of_split in Hin as (A & B & ->).
  destruct (InOrder_unlink Pend d A c B n HO Hn) as (d3 & Eu & HR & HO3).
  destruct (coreOf_Some _ _ _ _ (rl_core _ _ HR c) Hn) as (n3 & Hn3 & E3). injection E3 as Eb3 Ep3 Ec3.
  assert (Ht3 : totalRefs d3 = totalRefs d) by apply totalRefs_core, HR.
  destruct (derefs_loop fuel c (c :: Pend) (childKeys d3 n) d3 (A ++ B) n3) as (d4 & L4 & El & HO4 & HL4 & HS4 & Ht4); try done; [| |lia| |lia|].
  - unfold childKeys. rewrite childOrder_keys. apply NoDup_fst_map_to_list.
  - intros h m [->|Hin]%elem_of_cons Hm; [assert (m = n3) by congruence; subst; lia|].
    by apply (Pinned_Shrunk Pend [] d d3 (Relinked_Shrunk [] d d3 HR) HPi h m).
  - intros k Hk. apply (refCount_some d3 c n3 k (io_sound _ _ _ HO3) Hn3). rewrite Ec3. by eapply childKeys_elem.
  - destruct (sh_keep _ _ _ HS4 c n3 Hn3) as [n4 Hn4]; [lia|]. destruct (sh_back _ _ _ HS4 c n4 Hn4) as (n3' & Hn3' & Eb4 & Ep4 & _).
    assert (n3' = n3) as -> by congruence. exists d3, d4, n4, L4.
    assert (HcL : c ∉ L4).
    { intros Hin. apply list.NoDup_app in Hnd as (_ & Hdis & Hnd). apply list.NoDup_cons in Hnd as [Hb _].
      eapply elem_of_sublist in HL4; [|done]. apply elem_of_app in HL4 as [Ha|Ha]; [apply (Hdis c Ha); by left|done]. }
    assert (Hb : blobSize n = blobSize n4) by (unfold blobSize; congruence).
    split_and!; [done|done|rewrite Hb; apply InOrder_delete; try done; left; lia| | |done|apply HO4|lia].
    + etrans; [done|]. apply sublist_app; [done|]. by constructor.
    + etrans; [|done]. by apply Relinked_Shrunk.
Qed.

(** The first half of [dereference]: the reference and the count. *)
Lemma derefs_drop Pend d L parent p child :
  InOrder Pend d L -> nodes d !! parent = Some p -> 1 <= refCount p child ->
  let d1 := setNodes (<[parent := dropRef child p]> (nodes d)) d in
  InOrder Pend d1 L /\ Shrunk [parent] d d1 /\ totalRefs d1 = totalRefs d - 1 /\ child <> 0 /\
  forall node, nodes d1 !! child = Some node ->
    let d2 := setNodes (<[child := setParents (parents node - 1) node]> (nodes d1)) d1 in
    InOrder Pend d2 L /\ totalRefs d2 = totalRefs d1 /\
    exists node0, nodes d !! child = Some node0 /\ parents node0 = parents node.
Proof.
  intros HO Hn Hk d1. pose proof (io_sound _ _ _ HO) as HS.
  assert (Hz : child <> 0) by (eapply (so_child d HS parent p child Hn); by apply (refCount_some d parent p child HS Hn)).
  assert (HO1 : InOrder Pend d1 L) by (apply (InOrder_insert Pend d L parent p); try done; by apply Sound_dropRef).
  split_and!; [done| |by apply totalRefs_dropRef|done|].
  { apply (Shrunk_insert _ d parent p); [done|done|done|]. intros Hx. exfalso. apply Hx. by left. }
  intros node Ec. assert (Hback : exists node0, nodes d !! child = Some node0 /\ parents node0 = parents node).
  { cbn in Ec. apply lookup_insert_Some in Ec as [[<- <-]|[_ Ec]]; eauto. }
  split_and!; [|by eapply totalRefs_insert|done]. destruct Hback as (node0 & Hn0 & Hp0).
  apply (InOrder_insert Pend d1 L child node); try done.
  apply Sound_setParents; [apply HO1|done|done|]. intros _. cbn [nodes diskdb d1 setNodes].
  rewrite (refs_insert _ parent p) by done. rewrite refCount_dropRef, bool_decide_true by done.
  destruct (so_refs d HS child node0 Hn0 Hz) as [Hr|Hr]; [left; lia|by right].
Qed.

Lemma dereference_ok fuel : Derefs fuel.
Proof.
  induction fuel as [|fuel IH]; intros child parent d L Pend p HO HP Hn Hp Hk Ht.
  { pose proof (totalRefs_nonneg d (io_sound _ _ _ HO)). lia. }
  cbn [dereference]. unfold modifyNode. rewrite Hn. cbn [deref rbind].
  destruct (derefs_drop Pend d L parent p child HO Hn Hk) as (HO1 & Sh1 & Ht1 & Hz & Hd2). cbv zeta in Hd2.
  assert (Hn1 : nodes (setNodes (<[parent := dropRef child p]> (nodes d)) d) !! parent = Some (dropRef child p)) by apply lookup_insert_eq.
  set (d1 := setNodes _ d) in *. destruct (nodes d1 !! child) as [node|] eqn:Ec.
  2:{ exists d1, L, (dropRef child p). split_and!; [done|done|done|done|lia|done|done]. }
  destruct (Hd2 node eq_refl) as (HO2 & Ht2 & node0 & Hn0 & Hp0). set (node2 := setParents (parents node - 1) node) in *.
  assert (Hn2 : nodes (setNodes (<[child := node2]> (nodes d1)) d1) !! child = Some node2) by apply lookup_insert_eq.
  assert (Sh2 : forall X, child ∈ X \/ parents node <> 1 -> Shrunk X d1 (setNodes (<[child := node2]> (nodes d1)) d1)).
  { intros X HX. apply (Shrunk_insert _ d1 child node); [done|done|cbn; lia|]. intros Hin. destruct HX as [?|HX]; [done|]. split; [done|]. cbn. lia. }
  assert (Hpar : parent <> child -> nodes (setNodes (<[child := node2]> (nodes d1)) d1) !! parent = Some (dropRef child p)).
  { intros Hne. cbn [nodes setNodes]. by rewrite lookup_insert_ne by congruence. }
  set (d2 := setNodes (<[child := node2]> (nodes d1)) d1) in *. cbn [parents node2 setParents].
  destruct (Z.eqb_spec (parents node - 1) 0) as [E0|E0].
  - assert (Hne : parent <> child) by (intros ->; assert (node0 = p) by congruence; subst; lia).
    assert (HP2 : Pinned Pend d2) by (apply (Pinned_Shrunk Pend [child] d1 d2); [apply Sh2; left; by left|]; by eapply Pinned_Shrunk).
    destruct (derefs_remove fuel Pend d2 L child node2 IH HO2 HP2 Hn2) as (d3 & d4 & n4 & L' & Eu & El & HO5 & HL & Sh4 & Hn4 & HS4 & Ht4);
      [done|done| |lia|].
    { intros Hin. pose proof (HP child node0 Hin Hn0). lia. }
    rewrite Eu. cbn [rbind]. rewrite El. cbn [rbind].
    destruct (sh_keep _ _ _ Sh4 parent (dropRef child p) (Hpar Hne)) as [p4 Hp4]; [done|].
    destruct (sh_back _ _ _ Sh4 parent p4 Hp4) as (p2 & Hp2 & _ & _ & Hch). assert (p2 = dropRef child p) as -> by (rewrite Hpar in Hp2; congruence).
    eexists _, L', p4. split_and!; [done|done|done| | | |].
    + eapply Shrunk_delete; [|done|lia]. etrans; [eapply Shrunk_weaken; [|exact Sh1]; intros h ->%list_elem_of_singleton; by left|].
      etrans; [apply Sh2; left; right; by left|]. eapply Shrunk_weaken; [|exact Sh4]. intros h ->%list_elem_of_singleton. right. by left.
    + pose proof (totalRefs_delete d4 child n4 (- blobSize node2) HS4 Hn4). lia.
    + cbn. by rewrite lookup_delete_ne by congruence.
    + apply Hch. intros ?%list_elem_of_singleton. done.
  - exists d2, L. destruct (decide (parent = child)) as [->|Hne].
    + exists node2. assert (node = dropRef child p) as Hnode by congruence. split_and!; [done|done|done| |lia|done|by rewrite <- Hnode].
      etrans; [done|]. apply Sh2. left. by left.
    + exists (dropRef child p). split_and!; [done|done|done| |lia|by apply Hpar|done]. etrans; [done|]. apply Sh2. right. lia.
Qed.
End Dereferences.

(** ** The operations *)

Lemma Sound_new d h b x y :
  Sound d -> nodes d !! h = None -> h <> 0 -> is_hash h -> (forall b', Node h d = Some b' -> b' = b) ->
  Sound (setNodes (<[h := mkNode b 0 ∅ x y]> (nodes d)) d).
Proof.
  intros HS Hh Hz Hr Hb. pose proof HS as [S1 S2 S3 S4 S5 S6 S7].
  assert (Hrefs : forall c, refs (<[h := mkNode b 0 ∅ x y]> (nodes d)) c = refs (nodes d) c).
  { intros c. unfold refs. rewrite msum_insert by done. unfold refCount at 1. cbn [children]. by rewrite lookup_empty. }
  assert (Hnode : nodes d !! h = None -> Node h d = diskdb d !! HashBytes h) by (intros E; unfold Node; by rewrite E).
  split; cbn [nodes diskdb setNodes].
  - destruct S1 as (n & Hn & Hp). exists n. by rewrite lookup_insert_ne by congruence.
  - intros c [->|Hc]%lookup_insert_is_Some'; [done|by apply S2].
  - intros p n c k [[<- <-]|[_ Hn]]%lookup_insert_Some Hk; [cbn in Hk; by rewrite lookup_empty in Hk|by eapply S3].
  - intros p n c [[<- <-]|[_ Hn]]%lookup_insert_Some Hk; [cbn in Hk; rewrite lookup_empty in Hk; by destruct Hk|by eapply S4].
  - intros p n c [[<- <-]|[_ Hn]]%lookup_insert_Some Hk; [cbn in Hk; rewrite lookup_empty in Hk; by destruct Hk|].
    unfold Node. cbn [nodes diskdb setNodes]. destruct (decide (c = h)) as [->|Hne]; [by rewrite lookup_insert_eq|].
    rewrite lookup_insert_ne by congruence. exact (S5 p n c Hn Hk).
  - intros c n b' [[<- <-]|[_ Hn]]%lookup_insert_Some Hz' Hb'; [|by eapply S6]. apply Hb. by rewrite Hnode.
  - intros c n [[<- <-]|[_ Hn]]%lookup_insert_Some Hz'; rewrite Hrefs; [|by eapply S7]. cbn [parents].
    destruct (decide (refs (nodes d) h <= 0)) as [?|Hpos]; [by left|right].
    destruct (msum_pos (fun n => refCount n h) (nodes d)) as (p & n & Hn & Hc); [unfold refs in Hpos; lia|].
    rewrite <- Hnode by done. eapply S5; [done|]. apply (refCount_some d p n h HS Hn). lia.
Qed.

Lemma insert_inorder d L h b :
  InOrder [] d L -> Tail d L -> h <> 0 -> is_hash h -> (forall b', Node h d = Some b' -> b' = b) ->
  exists d' L', insert h b d = Ok d' /\ InOrder [] d' L' /\ Tail d' L' /\ Node h d' = Some b /\ is_Some (nodes d' !! h) /\
    (forall h', h' <> h -> Node h' d' = Node h' d) /\ preimages d' = preimages d /\
    forall x, coreOf (nodes d') x = coreOf (nodes d) x \/ coreOf (nodes d') x = Some (b, 0, ∅).
Proof.
  intros HO HT Hz Hr Hb. destruct (nodes d !! h) as [n|] eqn:Hn.
  { exists d, L. unfold insert. rewrite Hn. split_and!; try done; [|by left]. unfold Node in *. rewrite Hn in *. f_equal. by apply Hb. }
  destruct (insert_linked d h b L (io_linked _ _ _ HO) HT Hn Hz) as (d' & E & HL & Hnew & Hd & Hp & Hc). exists d', (L ++ [h]).
  set (dx := setNodes (<[h := mkNode b 0 ∅ 0 0]> (nodes d)) d).
  assert (Hcx : forall x, coreOf (nodes d') x = coreOf (nodes dx) x) by (intros x; rewrite Hc; cbn; by rewrite fmap_insert_lookup).
  assert (HS : Sound d') by (eapply (Sound_core dx); [done|done|]; apply Sound_new; try done; apply HO).
  assert (Hne : forall h', h' <> h -> coreOf (nodes d') h' = coreOf (nodes d) h') by (intros h' H'; by rewrite Hc, bool_decide_false).
  specialize (Hc h). rewrite bool_decide_true in Hc by done.
  assert (Hin : is_Some (nodes d' !! h)) by (by destruct (nodes d' !! h)). split_and!; try done.
  - split; [done|done|]. intros x [n Hx] Hzx. left. destruct (decide (x = h)) as [->|Hxh]; [apply elem_of_app; right; by left|].
    apply elem_of_app. left. destruct (coreOf_Some (nodes d') (nodes d) x n) as (m & Hm & _); [by rewrite Hne|done|].
    destruct (io_covered _ _ _ HO x) as [?|?%not_elem_of_nil]; [by exists m|done|done|done].
  - right. exists L. by rewrite Hnew.
  - unfold Node. destruct (nodes d' !! h) as [n|]; [|done]. injection Hc as -> _ _. done.
  - intros h' H'. by apply Node_core, Hne.
  - intros x. destruct (decide (x = h)) as [->|Hx]; [by right|left; by apply Hne].
Qed.

Lemma Sound_addRef d p n c nc :
  Sound d -> nodes d !! p = Some n -> nodes d !! c = Some nc -> c <> 0 -> refs (nodes d) c + 1 <= parents nc \/ is_Some (diskdb d !! HashBytes c) ->
  children n !! c = None \/ p = 0 ->
  Sound (setNodes (<[p := setChildren (<[c := refCount n c + 1]> (children n)) n]> (nodes d)) d).
Proof.
  intros HS Hn Hnc Hz Hr Hnew. apply Sound_setChildren; [done|done| | |].
  - intros c' k [[<- <-]|[_ Hk]]%lookup_insert_Some; [|by eapply (so_count d HS)]. pose proof (refCount_nonneg d p n c HS Hn). split; [lia|].
    intros Hp. destruct Hnew as [Hnew|?]; [|done]. unfold refCount. by rewrite Hnew.
  - intros c' [->|Hs]%lookup_insert_is_Some'.
    + split_and!; [done|apply (so_keys d HS); by exists nc|]. unfold Node. by rewrite Hnc.
    + destruct (so_child d HS p n c' Hn Hs). split_and!; [done|done|by apply (so_there d HS p n)].
  - intros c' nc' Hnc' Hz'. destruct (decide (c' = c)) as [->|Hne].
    + rewrite lookup_insert_eq. cbn [default]. assert (nc' = nc) as -> by congruence. destruct Hr as [Hr|?]; [left; cbn; lia|by right].
    + rewrite lookup_insert_ne by congruence. fold (refCount n c'). destruct (so_refs d HS c' nc' Hnc' Hz') as [?|?]; [left; lia|by right].
Qed.

Lemma reference_inorder d L child parent :
  InOrder [] d L -> is_Some (nodes d !! parent) -> child <> 0 ->
  exists d', reference child parent d = Ok d' /\ InOrder [] d' L /\ newest d' = newest d /\ (forall h, Node h d' = Node h d) /\
    (is_Some (nodes d !! child) -> exists p', nodes d' !! parent = Some p' /\ is_Some (children p' !! child)) /\
    preimages d' = preimages d /\
    forall p n' c, nodes d' !! p = Some n' -> is_Some (children n' !! c) ->
      (exists n, nodes d !! p = Some n /\ is_Some (children n !! c)) \/ p = parent /\ c = child.
Proof.
  intros HO [p Hp] Hz. unfold reference. destruct (nodes d !! child) as [node|] eqn:Ec.
  2:{ exists d. split_and!; try done. left. eauto. }
  rewrite Hp. cbn [deref rbind]. destruct (bool_decide _ && _) eqn:Eb.
  { bools. exists d. split_and!; try done; [intros _; by exists p|]. left. eauto. }
  pose proof (io_sound _ _ _ HO) as HS. unfold modifyNode at 1. rewrite Ec. cbn [deref rbind].
  set (d1 := setNodes (<[child := setParents (parents node + 1) node]> (nodes d)) d).
  assert (Hr : refs (nodes d1) child = refs (nodes d) child).
  { cbn. rewrite (refs_insert _ child node) by done. unfold refCount. cbn. lia. }
  assert (HS1 : Sound d1).
  { apply Sound_setParents; [done|done|done|]. intros _. destruct (so_refs d HS child node Ec Hz); [left; lia|by right]. }
  assert (HO1 : InOrder [] d1 L) by (by apply (InOrder_insert [] d L child node)).
  assert (Hp1 : exists p1, nodes d1 !! parent = Some p1 /\ children p1 = children p).
  { cbn. destruct (decide (parent = child)) as [->|Hne]; [rewrite lookup_insert_eq|rewrite lookup_insert_ne by congruence]; eexists; split; try done.
    cbn. congruence. }
  destruct Hp1 as (p1 & Hp1 & Hc1). unfold modifyNode. rewrite Hp1. cbn [deref rbind]. eexists. split; [done|].
  assert (Hn1 : nodes d1 !! child = Some (setParents (parents node + 1) node)) by apply lookup_insert_eq. split_and!.
  - apply (InOrder_insert [] d1 L parent p1); [done|done|done|done|]. eapply Sound_addRef; [done|done|exact Hn1|done| |].
    + rewrite Hr. cbn [parents setParents]. destruct (so_refs d HS child node Ec Hz); [left; lia|by right].
    + rewrite Hc1. apply andb_false_iff in Eb as [Eb|Eb]; [left|right]; bools; [|done]. by apply eq_None_not_Some.
  - done.
  - intros h. rewrite (Node_insert d1 parent p1) by done. by apply (Node_insert d child node).
  - intros _. cbn [nodes setNodes]. rewrite lookup_insert_eq. eexists. split; [done|]. cbn. apply lookup_insert_is_Some'. by left.
  - done.
  - cbn [nodes d1 setNodes]. intros q n' c [[<- <-]|[_ Hq]]%lookup_insert_Some Hc.
    + cbn in Hc. apply lookup_insert_is_Some' in Hc as [->|Hc]; [by right|left]. rewrite Hc1 in Hc. by exists p.
    + left. apply lookup_insert_Some in Hq as [[<- <-]|[_ Hq]]; eauto.
Qed.

(** The end of the list stays the end unless it is removed. *)
Lemma Tail_sublist d d' L L' :
  NoDup L -> Tail d L -> newest d' = newest d -> L' `sublist_of` L -> newest d ∈ L' \/ L' = [] -> Tail d' L'.
Proof.
  intros Hnd HT Hn HL [Hin|?]; [|by left]. destruct HT as [->|[A ->]].
  { apply sublist_nil_r in HL. by left. }
  right. apply sublist_app_r in HL as (k1 & k2 & -> & H1 & H2). apply list.NoDup_app in Hnd as (_ & Hdis & _).
  apply elem_of_app in Hin as [Hin|Hin]; [exfalso; apply (Hdis (newest d)); [by eapply elem_of_sublist|by left]|].
  apply sublist_cons_r in H2 as [H2|(k3 & -> & H3)].
  - apply sublist_nil_r in H2 as ->. by apply not_elem_of_nil in Hin.
  - apply sublist_nil_r in H3 as ->. exists k1. by rewrite Hn.
Qed.

Lemma Dereference_inorder `{MapOrder} d L child r :
  InOrder [] d L -> readers d = 0 -> nodes d !! 0 = Some r -> is_Some (children r !! child) ->
  exists d' L' r', Dereference child 0 d = Ok d' /\ InOrder [] d' L' /\ L' `sublist_of` L /\ Shrunk [0] d d' /\
    nodes d' !! 0 = Some r' /\ children r' = children (dropRef child r).
Proof.
  intros HO Hrd Hr Hc. pose proof (io_sound _ _ _ HO) as HS. unfold Dereference, Lock. rewrite Hrd. cbn [Z.eqb rbind]. destruct (so_holder d HS) as (r' & Hr' & Hp). assert (r' = r) as -> by congruence.
  destruct (dereference_ok (S (Z.to_nat (totalRefs d))) child 0 d L [] r HO (fun h n Hin => False_ind _ (not_elem_of_nil h Hin)) Hr Hp) as (d' & L' & p' & E & HO' & HL & Sh & _ & Hp' & Hc').
  - by apply (refCount_some d 0 r child HS Hr).
  - lia.
  - by exists d', L', p'.
Qed.
