(* ===== verification/TrieDbFlush.v ===== *)
(** * Package trie: flushing the node database

    [Cap] and [Commit] work in two phases.  In the first they fill batches and write them,
    without changing the cache; in the second, which they only reach when everything has
    been written, they remove what was written from the cache. *)

From stdpp Require Import base numbers list gmap option relations.
From Stdlib Require Import ZArith Lia Strings.Byte.
From S2P Require Import Prelude Common TrieDatabase TrieDbProofs TrieDbList TrieDbRefs.
Import triedb.

(** ** Keys of the disk *)

Lemma secureKey_inj k k' : secureKey k = secureKey k' -> k = k'.
Proof. apply app_inv_head. Qed.

Lemma secureKey_HashBytes h h' : secureKey (HashBytes h) <> HashBytes h'.
Proof. intros E. apply (f_equal length) in E. unfold secureKey, HashBytes in E. rewrite length_app, !length_be_bytes in E. done. Qed.

(** ** Writing *)

(** What may be written: the nodes of the cache and the preimages. *)
Definition Allowed (d : Database) (k v : list byte) : Prop :=
  (exists h n, nodes d !! h = Some n /\ h <> 0 /\ k = HashBytes h /\ v = blob n) \/
  (exists h, preimages d !! h = Some v /\ k = secureKey (HashBytes h)).

(** The keys of the maps are hashes. *)
Record HashKeys (d : Database) : Prop := {
  hk_nodes : forall h, is_Some (nodes d !! h) -> is_hash h;
  hk_preimages : forall h, is_Some (preimages d !! h) -> is_hash h
}.

Lemma Allowed_functional d k v v' : HashKeys d -> Allowed d k v -> Allowed d k v' -> v' = v.
Proof.
  intros [H1 H2] [(h & n & Hn & _ & -> & ->)|(h & Hp & ->)] [(h' & n' & Hn' & _ & E & ->)|(h' & Hp' & E)].
  - apply HashBytes_inj in E as ->; [congruence|eauto..].
  - symmetry in E. by apply secureKey_HashBytes in E.
  - by apply secureKey_HashBytes in E.
  - apply secureKey_inj, HashBytes_inj in E as ->; [congruence|eauto..].
Qed.

Lemma writeAll_lookup ws d k :
  writeAll ws d !! k = d !! k /\ k ∉ ws.*1 \/ exists v, writeAll ws d !! k = Some v /\ (k, v) ∈ ws.
Proof.
  induction ws as [|[k' v'] ws IH] using rev_ind; [left; split; [done|apply not_elem_of_nil]|].
  unfold writeAll in *. rewrite foldl_snoc. cbn [fst snd]. rewrite fmap_app. destruct (decide (k = k')) as [->|Hne].
  - right. exists v'. rewrite lookup_insert_eq. split; [done|]. apply elem_of_app. right. by left.
  - rewrite lookup_insert_ne by congruence. destruct IH as [[E Hk]|(v & E & Hv)].
    + left. split; [done|]. intros [?|?%list_elem_of_singleton]%elem_of_app; done.
    + right. exists v. split; [done|]. apply elem_of_app. by left.
Qed.

(** ** The first phase *)

Section Writing.
Context `{DiskWrites} `{MapOrder} (d0 : Database) (Hkeys : HashKeys d0).

(** The cache is that of [d0]; only nodes and preimages of it have been written or are in
    the batch. *)
Record Phase (s : session) : Prop := {
  ph_same : exists disk r, sdb s = mkDatabase disk (nodes d0) (oldest d0) (newest d0) (preimages d0) (nodesSize d0) (preimagesSize d0) r;
  ph_batch : forall k v, (k, v) ∈ writes (batch s) -> Allowed d0 k v;
  ph_disk : forall k, diskdb (sdb s) !! k = diskdb d0 !! k \/ exists v, diskdb (sdb s) !! k = Some v /\ Allowed d0 k v
}.

(** On the disk, or about to be. *)
Definition Saved (s : session) (k v : list byte) : Prop := diskdb (sdb s) !! k = Some v \/ (k, v) ∈ writes (batch s).
Definition Grows (s s' : session) : Prop := forall k v, Allowed d0 k v -> Saved s k v -> Saved s' k v.

#[global] Instance Grows_preorder : PreOrder Grows.
Proof. split; [by intros s k v|]. intros s1 s2 s3 H1 H2 k v Hk Hs. auto. Qed.

(** The session [s] and the number of locks [r] stand before [m]; it succeeds with [Q], or
    a write fails, with the cache as it was.  It does not panic. *)
Definition safe {A} (m : M session dbErr A) (s : session) (Q : A -> session -> Prop) : Prop :=
  match m s with
  | (Ok a, s') => Phase s' /\ Grows s s' /\ readers (sdb s') = readers (sdb s) /\ Q a s'
  | (Err _, s') => Phase s' /\ readers (sdb s') = readers (sdb s)
  | _ => False
  end.

Lemma safe_ret {A} (a : A) s (Q : A -> session -> Prop) : Phase s -> Q a s -> safe (ret a) s Q.
Proof. intros Hp HQ. unfold safe. cbn. split_and!; [done|done|done|done]. Qed.

Lemma safe_bind {A B} (m : M session dbErr A) (k : A -> M session dbErr B) s Q R :
  safe m s Q -> (forall a s', Phase s' -> Grows s s' -> Q a s' -> safe (k a) s' R) -> safe (mbind m k) s R.
Proof.
  unfold safe, Prelude.mbind. destruct (m s) as [[a|e| |] s1]; [|done|done|done]. intros (H1 & H2 & H3 & HQ) Hk.
  specialize (Hk a s1 H1 H2 HQ). destruct (k a s1) as [[b|e| |] s2]; [|destruct Hk; split; [done|congruence]|done|done].
  destruct Hk as (K1 & K2 & K3 & K4). split_and!; [done|by etrans|congruence|done].
Qed.

Lemma safe_mono {A} (m : M session dbErr A) s (Q R : A -> session -> Prop) :
  safe m s Q -> (forall a s', Phase s' -> Grows s s' -> Q a s' -> R a s') -> safe m s R.
Proof. unfold safe. destruct (m s) as [[a|e| |] s']; try done. intros (H1 & H2 & H3 & H4) HR. split_and!; auto. Qed.

Lemma safe_gets {A} (f : session -> A) s (Q : A -> session -> Prop) : Phase s -> Q (f s) s -> safe (gets f) s Q.
Proof. intros Hp HQ. unfold safe. cbn. split_and!; [done|done|done|done]. Qed.

Lemma put_safe k v s : Phase s -> Allowed d0 k v -> safe (put k v) s (fun _ s' => Saved s' k v).
Proof.
  intros [H1 H2 H3] Ha. unfold safe. cbn. split_and!; [split; cbn| | |].
  - done.
  - intros k' v' [Hin|[= -> ->]%list_elem_of_singleton]%elem_of_app; auto.
  - done.
  - intros k' v' _ [Hd|Hw]; [by left|right]. cbn. apply elem_of_app. by left.
  - done.
  - right. cbn. apply elem_of_app. right. by left.
Qed.

(** After a write, all that is saved is on the disk. *)
Lemma write_safe s : Phase s -> safe write s (fun _ s' => forall k v, Allowed d0 k v -> Saved s k v -> diskdb (sdb s') !! k = Some v).
Proof.
  intros HP. pose proof HP as [(disk & r & H1) H2 H3]. unfold safe, write. destruct (writeOk _ _); [|done].
  assert (Hd : forall k v, Allowed d0 k v -> Saved s k v -> writeAll (writes (batch s)) (diskdb (sdb s)) !! k = Some v).
  { intros k v Ha Hs. destruct (writeAll_lookup (writes (batch s)) (diskdb (sdb s)) k) as [[E Hk]|(v' & E & Hv)].
    - destruct Hs as [Hs|Hs]; [congruence|]. exfalso. apply Hk. apply list_elem_of_fmap. by exists (k, v).
    - rewrite E. f_equal. apply (Allowed_functional d0 k); [done|done|by apply H2]. }
  split_and!; [split; cbn| | |].
  - rewrite H1. by eexists _, _.
  - done.
  - intros k. destruct (writeAll_lookup (writes (batch s)) (diskdb (sdb s)) k) as [[E Hk]|(v' & E & Hv)]; [rewrite E; apply H3|].
    right. exists v'. split; [done|by apply H2].
  - intros k v Ha Hs. left. by apply Hd.
  - done.
  - done.
Qed.

Lemma writeIf_safe full s : Phase s -> safe (writeIf full) s (fun _ _ => True).
Proof.
  intros HP. unfold writeIf. eapply safe_bind; [by apply (safe_gets _ s (fun _ _ => True))|]. intros size s1 HP1 HG1 _.
  destruct (full size); [|by apply safe_ret]. pose proof (write_safe s1 HP1) as Hw. unfold safe, Prelude.mbind in *.
  destruct (write s1) as [[[]|e| |] s2]; [|done|done|done]. destruct Hw as ([P1 P2 P3] & HG & Hr & Hd). cbn. split_and!; [split; cbn| | |]; try done.
  - intros k v Hin. by apply not_elem_of_nil in Hin.
  - intros k v Ha Hs. left. cbn. by apply Hd.
Qed.

Lemma forEachM_safe {A} (f : A -> M session dbErr unit) (R : A -> session -> Prop) l s :
  (forall x s s', Grows s s' -> R x s -> R x s') ->
  (forall x s, x ∈ l -> Phase s -> safe (f x) s (fun _ s' => R x s')) -> Phase s ->
  safe (forEachM f l) s (fun _ s' => forall x, x ∈ l -> R x s').
Proof.
  intros HR. revert s. induction l as [|x l IH]; intros s Hf HP; cbn [forEachM].
  { apply safe_ret; [done|]. by intros x ?%not_elem_of_nil. }
  eapply safe_bind; [apply Hf; [by left|done]|]. intros [] s1 HP1 HG1 HQ1.
  eapply safe_mono; [apply IH; [|done]|].
  - intros y s2 Hy. apply Hf. by right.
  - intros [] s2 HP2 HG2 HQ2 y [->|Hy]%elem_of_cons; [by eapply HR|by apply HQ2].
Qed.

Lemma Phase_preimages s : Phase s -> preimages (sdb s) = preimages d0.
Proof. intros [(disk & r & ->) _ _]. done. Qed.
Lemma Phase_nodes s : Phase s -> nodes (sdb s) = nodes d0.
Proof. intros [(disk & r & ->) _ _]. done. Qed.

Lemma putPreimages_safe s :
  Phase s -> safe putPreimages s (fun _ s' => forall h p, preimages d0 !! h = Some p -> Saved s' (secureKey (HashBytes h)) p).
Proof.
  intros HP. unfold putPreimages. eapply safe_bind; [apply (safe_gets _ s (fun ps _ => forall hp, hp ∈ ps <-> hp ∈ map_to_list (preimages d0))); [done|]|].
  { intros hp. by rewrite preimageOrder_entries, Phase_preimages. }
  intros ps s1 HP1 _ Hps.
  eapply safe_mono; [apply (forEachM_safe _ (fun hp s' => preimages d0 !! hp.1 = Some hp.2 -> Saved s' (secureKey (HashBytes hp.1)) hp.2)); [| |done]|].
  - intros [h p] s2 s3 HG HQ Hp. apply HG; [|by apply HQ]. right. by exists h.
  - intros [h p] s2 Hin%Hps%elem_of_map_to_list HP2. cbn [fst snd].
    eapply safe_bind; [apply put_safe; [done|]; right; by exists h|]. intros [] s3 HP3 _ HS3.
    eapply safe_mono; [by apply writeIf_safe|]. intros [] s4 _ HG _ _. apply HG; [|done]. right. by exists h.
  - intros [] s2 _ _ HQ h p Hp. apply (HQ (h, p)); [by apply Hps, elem_of_map_to_list|done].
Qed.

(** Saving a node of the cache. *)
Lemma putNode_safe full h n s :
  Phase s -> nodes d0 !! h = Some n -> h <> 0 ->
  safe (let! _ := put (HashBytes h) (blob n) in writeIf full) s (fun _ s' => Saved s' (HashBytes h) (blob n)).
Proof.
  intros HP Hn Hz. assert (Ha : Allowed d0 (HashBytes h) (blob n)) by (left; by exists h, n).
  eapply safe_bind; [by apply put_safe|]. intros [] s1 HP1 _ HS1. eapply safe_mono; [by apply writeIf_safe|]. intros [] s2 _ HG _. by apply HG.
Qed.

(** What the size goes down by when these nodes are flushed. *)
Definition flushedSize (m : cached) (A : list Hash) : Z :=
  foldr (fun h acc => match m !! h with Some n => 3 * HashLength + Z.of_nat (length (blob n)) + acc | None => acc end) 0 A.

Lemma capLoop_safe fuel limit size L s :
  Phase s -> chain (nodes d0) L -> 0 ∉ L -> (length L < fuel)%nat ->
  safe (capLoop fuel limit size (hd 0 L)) s (fun stop s' => exists A B, L = A ++ B /\ stop = hd 0 B /\
    (forall h n, h ∈ A -> nodes d0 !! h = Some n -> Saved s' (HashBytes h) (blob n)) /\
    (B = [] \/ size - flushedSize (nodes d0) A <= limit)).
Proof.
  revert size L s. induction fuel as [|fuel IH]; intros size L s HP Hc Hz Hf; [lia|]. cbn [capLoop].
  destruct ((size >? limit) && negb (hd 0 L =? 0)) eqn:Eb.
  2:{ apply safe_ret; [done|]. exists [], L. split_and!; [done|done|by intros h n ?%not_elem_of_nil|].
      destruct L as [|h L]; [by left|right]. cbn in Eb |- *. apply not_elem_of_cons in Hz as [Hz _].
      destruct (Z.eqb_spec h 0) as [?|_]; [congruence|]. rewrite andb_true_r in Eb. lia. }
  destruct L as [|h L]; [by rewrite andb_false_r in Eb|]. cbn [hd] in *. apply not_elem_of_cons in Hz as [Hz0 Hz].
  destruct (chain_cached _ _ h Hc) as [n Hn]; [by left|].
  eapply safe_bind; [apply (safe_gets _ s (fun e _ => e = Some n)); [done|by rewrite Phase_nodes]|]. intros e s1 HP1 _ ->.
  eapply safe_bind; [by apply (safe_ret n s1 (fun a _ => a = n))|]. intros ? s2 HP2 _ ->.
  pose proof (putNode_safe (fun size => size >=? IdealBatchSize) h n s2 HP2 Hn ltac:(congruence)) as Hput.
  assert (Hassoc : forall (k : M session dbErr Hash) R,
    safe (mbind (mbind (put (HashBytes h) (blob n)) (fun _ => writeIf (fun size => size >=? IdealBatchSize))) (fun _ => k)) s2 R ->
    safe (mbind (put (HashBytes h) (blob n)) (fun _ => mbind (writeIf (fun size => size >=? IdealBatchSize)) (fun _ => k))) s2 R) by done.
  apply Hassoc. eapply safe_bind; [exact Hput|]. intros [] s3 HP3 _ HS3. destruct Hc as (Hnx & _ & Hc). rewrite Hn in Hnx. injection Hnx as ->.
  eapply safe_mono; [apply IH; [done|done|done|cbn in Hf; lia]|]. intros stop s4 HP4 HG4 (A & B & -> & -> & HA & Hs).
  exists (h :: A), B. split_and!; [done|done| |].
  - intros x m [->|Hx]%elem_of_cons Hm; [|by apply HA]. assert (m = n) as -> by congruence. apply HG4; [|done]. left. by exists h, n.
  - destruct Hs as [?|Hs]; [by left|right]. cbn [flushedSize foldr]. rewrite Hn. fold (flushedSize (nodes d0) A). lia.
Qed.

(** ** Graphs of nodes *)

Definition edge (m : cached) (p c : Hash) : Prop := exists n, m !! p = Some n /\ is_Some (children n !! c).
(** References go down: there are no cycles. *)
Definition Ranked (rank : Hash -> nat) (m : cached) : Prop := forall p c, edge m p c -> p <> 0 -> (rank c < rank p)%nat.

(** A path without repetitions is not longer than the map is large. *)
Lemma path_short (m : cached) path : NoDup path -> (forall x, x ∈ path -> is_Some (m !! x)) -> (length path <= size m)%nat.
Proof.
  intros Hnd Hin. rewrite <- size_dom, <- (size_list_to_set (C := gset Hash)) by done. apply subseteq_size.
  intros x Hx%elem_of_list_to_set. by apply elem_of_dom, Hin.
Qed.

Lemma reach_inv m h x : rtc (edge m) h x -> x = h \/ exists n c, m !! h = Some n /\ is_Some (children n !! c) /\ rtc (edge m) c x.
Proof. intros Hr. inversion Hr as [|? c ? (n & Hn & Hc) Hr']; subst; [by left|right]. by exists n, c. Qed.

Lemma commit_safe rank fuel h path s :
  Sound d0 -> Ranked rank (nodes d0) -> Phase s -> h <> 0 -> NoDup path -> (forall x, x ∈ path -> is_Some (nodes d0 !! x) /\ (rank h < rank x)%nat) ->
  (size (nodes d0) < length path + fuel)%nat ->
  safe (commit fuel h) s (fun _ s' => forall x n, rtc (edge (nodes d0)) h x -> nodes d0 !! x = Some n -> Saved s' (HashBytes x) (blob n)).
Proof.
  intros HS HR. revert h path s. induction fuel as [|fuel IH]; intros h path s HP Hz Hnd Hpath Hf.
  { pose proof (path_short (nodes d0) path Hnd ltac:(intros x Hx; by apply Hpath)). lia. }
  cbn [commit]. eapply safe_bind; [apply (safe_gets _ s (fun e _ => e = nodes d0 !! h)); [done|by rewrite Phase_nodes]|]. intros e s1 HP1 _ ->.
  destruct (nodes d0 !! h) as [n|] eqn:Hn.
  2:{ apply safe_ret; [done|]. intros x n [->|(n' & c & Hn' & _)]%reach_inv Hx; congruence. }
  set (R := fun c s' => forall x n, rtc (edge (nodes d0)) c x -> nodes d0 !! x = Some n -> Saved s' (HashBytes x) (blob n)).
  eapply safe_bind; [by apply (safe_gets _ s1 (fun _ _ => True))|]. intros d1 s1' HP1' _ _.
  assert (Hz' : forall c, c ∈ childKeys d1 n -> c <> 0) by (intros c Hc%childKeys_elem; by eapply (so_child d0 HS h n)).
  assert (HRm : forall c s2 s3, c ∈ childKeys d1 n -> Grows s2 s3 -> R c s2 -> R c s3).
  { intros c s2 s3 Hc HG HR2 x m Hx Hm. apply HG; [|by apply HR2]. left. exists x, m. split_and!; try done. intros ->.
    apply rtc_inv_r in Hx as [->|(y & _ & (ny & Hy & Hcy))]; [by apply Hz' in Hc|]. by destruct (so_child d0 HS y ny 0 Hy Hcy). }
  eapply safe_bind; [apply (forEachM_safe _ (fun c s' => c ∈ childKeys d1 n -> R c s')); [| |done]|].
  - intros c s2 s3 HG HR2 Hc. by eapply HRm; [| |apply HR2].
  - intros c s2 Hc HP2. eapply safe_mono; [apply (IH c (h :: path)); try done|].
    + by apply Hz'.
    + apply list.NoDup_cons. split; [|done]. intros Hin. destruct (Hpath h Hin). lia.
    + assert (Hlt : (rank c < rank h)%nat) by (apply HR; [|done]; exists n; split; [done|by eapply childKeys_elem]).
      intros x [->|Hx]%elem_of_cons; [by rewrite Hn|]. destruct (Hpath x Hx). split; [done|lia].
    + cbn. lia.
    + intros [] s3 _ _ HQ _. exact HQ.
  - intros [] s2 HP2 _ HQ2. eapply safe_mono; [by apply putNode_safe|]. intros [] s3 HP3 HG3 HS3 x m [->|(n' & c & Hn' & Hc & Hr)]%reach_inv Hm; [congruence|].
    assert (n' = n) as -> by congruence. apply (childKeys_elem d1) in Hc. by eapply HRm; [done|done|apply HQ2|done|done].
Qed.
End Writing.

(** ** The second phase *)

(** Nodes have gone from the cache to the disk, where they are. *)
Record Uncached (d d' : Database) : Prop := {
  un_disk : diskdb d' = diskdb d;
  un_preimages : preimages d' = preimages d;
  un_newest : newest d' = newest d;
  un_readers : readers d' = readers d;
  un_back : forall h n', nodes d' !! h = Some n' -> exists n, nodes d !! h = Some n /\ core n = core n';
  un_gone : forall h n, nodes d !! h = Some n -> nodes d' !! h = None -> diskdb d !! HashBytes h = Some (blob n)
}.

#[global] Instance Uncached_preorder : PreOrder Uncached.
Proof.
  split.
  - intros d. split; try done; [by eexists|]. intros; congruence.
  - intros d1 d2 d3 [A1 A2 A3 A4 A5 A6] [B1 B2 B3 B4 B5 B6]. split; [congruence..| |].
    + intros h n3 H3. destruct (B5 h n3 H3) as (n2 & H2 & E2). destruct (A5 h n2 H2) as (n1 & H1 & E1). exists n1. split; [done|congruence].
    + intros h n1 H1 H3. destruct (nodes d2 !! h) as [n2|] eqn:H2; [|by apply A6]. rewrite <- A1.
      destruct (A5 h n2 H2) as (n1' & H1' & E1). assert (n1' = n1) as -> by congruence. injection E1 as -> _ _. by apply B6.
Qed.

Lemma Uncached_relinked d d' : Relinked d d' -> Uncached d d'.
Proof.
  intros [A1 A2 A3 _ A5 A6]. split; try done.
  - intros h n' Hn'. destruct (coreOf_Some (nodes d') (nodes d) h n') as (n & Hn & E); [by rewrite A6|done|]. by exists n.
  - intros h n Hn Hn'. apply (coreOf_None (nodes d)) in Hn'; [congruence|done].
Qed.

Lemma Uncached_delete d h n z : nodes d !! h = Some n -> diskdb d !! HashBytes h = Some (blob n) -> Uncached d (addSize z (setNodes (delete h (nodes d)) d)).
Proof.
  intros Hn Hd. split; try done; cbn [nodes addSize setNodes].
  - intros h' n' [_ Hn']%lookup_delete_Some. by exists n'.
  - intros h' n' Hn' Hg. destruct (decide (h' = h)) as [->|Hne]; [congruence|]. rewrite lookup_delete_ne in Hg by congruence. congruence.
Qed.

(** Nothing that was there is missing. *)
Lemma Uncached_Node d d' h : Uncached d d' -> Node h d' = Node h d.
Proof.
  intros [A1 _ _ _ A5 A6]. unfold Node. rewrite A1. destruct (nodes d' !! h) as [n'|] eqn:E'.
  - destruct (A5 h n' E') as (n & -> & E). by injection E as -> _ _.
  - destruct (nodes d !! h) as [n|] eqn:E; [|done]. by apply A6.
Qed.

Lemma Uncached_edge d d' p c : Uncached d d' -> edge (nodes d') p c -> edge (nodes d) p c.
Proof. intros HU (n' & Hn' & Hc). destruct (un_back _ _ HU p n' Hn') as (n & Hn & E). injection E as _ _ E. exists n. by rewrite E. Qed.

Lemma Uncached_Ranked d d' rank : Uncached d d' -> Ranked rank (nodes d) -> Ranked rank (nodes d').
Proof. intros HU HR p c He. apply HR. by eapply Uncached_edge. Qed.

Lemma Uncached_size d d' : Uncached d d' -> (size (nodes d') <= size (nodes d))%nat.
Proof.
  intros HU. rewrite <- !size_dom. apply subseteq_size. intros h [n' Hn']%elem_of_dom.
  destruct (un_back _ _ HU h n' Hn') as (n & Hn & _). apply elem_of_dom. by exists n.
Qed.

(** All that can be reached from a node is on the disk. *)
Definition OnDisk (d : Database) (h : Hash) : Prop :=
  forall x n, rtc (edge (nodes d)) h x -> nodes d !! x = Some n -> diskdb d !! HashBytes x = Some (blob n).

Lemma Uncached_OnDisk d d' h : Uncached d d' -> OnDisk d h -> OnDisk d' h.
Proof.
  intros HU HD x n' Hr Hn'. destruct (un_back _ _ HU x n' Hn') as (n & Hn & E). injection E as <- _ _. rewrite (un_disk _ _ HU). apply HD; [|done].
  eapply rtc_subrel; [|exact Hr]. intros p c. by apply Uncached_edge.
Qed.

Lemma OnDisk_child d h n c : OnDisk d h -> nodes d !! h = Some n -> is_Some (children n !! c) -> OnDisk d c.
Proof. intros HD Hn Hc x m Hr. apply HD. eapply rtc_l; [|done]. by exists n. Qed.

Section Uncaching.
Context `{MapOrder}.

Definition Uncaches (rank : Hash -> nat) (N fuel : nat) : Prop :=
  forall h Pend d L,
    InOrder Pend d L -> Ranked rank (nodes d) -> h <> 0 -> NoDup Pend ->
    (forall x, x ∈ Pend -> is_Some (nodes d !! x) /\ (rank h < rank x)%nat) ->
    (size (nodes d) <= N)%nat -> (N < length Pend + fuel)%nat -> OnDisk d h ->
    exists d' L', uncache fuel h d = Ok d' /\ InOrder Pend d' L' /\ L' `sublist_of` L /\ Uncached d d' /\
      forall x, is_Some (nodes d !! x) -> nodes d' !! x = None -> (rank x <= rank h)%nat.

Lemma uncaches_loop rank N fuel h n Pend d L :
  Uncaches rank N fuel -> InOrder (h :: Pend) d L -> Ranked rank (nodes d) -> NoDup (h :: Pend) -> nodes d !! h = Some n -> h <> 0 ->
  (forall x, x ∈ h :: Pend -> is_Some (nodes d !! x) /\ (rank h <= rank x)%nat) ->
  (size (nodes d) <= N)%nat -> (N < length (h :: Pend) + fuel)%nat -> OnDisk d h ->
  exists d' L', forEach (uncache fuel) (childKeys d n) d = Ok d' /\ InOrder (h :: Pend) d' L' /\ L' `sublist_of` L /\ Uncached d d' /\
    is_Some (nodes d' !! h) /\ forall x, is_Some (nodes d !! x) -> nodes d' !! x = None -> (rank x < rank h)%nat.
Proof.
  intros HU HO HR Hnd Hn Hz Hp Hs Hf HD.
  set (Q := fun d' => (exists L', InOrder (h :: Pend) d' L' /\ L' `sublist_of` L) /\ Uncached d d' /\
    forall x, is_Some (nodes d !! x) -> nodes d' !! x = None -> (rank x < rank h)%nat).
  assert (Hpre : PreOrder (fun _ _ : Database => True)) by (by split).
  destruct (forEach_ok (fun _ _ => True) Q (uncache fuel) (childKeys d n) d) as (d' & E & ((L' & HO' & HL') & HU' & Hg) & _).
  - intros c d1 Hc ((L1 & HO1 & HL1) & HU1 & Hg1).
    assert (Hlt : (rank c < rank h)%nat) by (apply HR; [|done]; exists n; split; [done|by eapply childKeys_elem]).
    destruct (HU c (h :: Pend) d1 L1) as (d2 & L2 & E2 & HO2 & HL2 & HU2 & Hg2); try done.
    + by eapply Uncached_Ranked.
    + eapply (so_child d (io_sound _ _ _ HO) h n); [done|by eapply childKeys_elem].
    + intros x Hx. destruct (Hp x Hx) as [Hx1 Hx2]. split; [|lia]. destruct (nodes d1 !! x) as [m|] eqn:Em; [done|].
      specialize (Hg1 x Hx1 Em). lia.
    + pose proof (Uncached_size _ _ HU1). lia.
    + eapply OnDisk_child in HD; [|done|by eapply childKeys_elem]. by eapply Uncached_OnDisk.
    + exists d2. split_and!; [done|split_and!|done].
      * exists L2. split; [done|by etrans].
      * by etrans.
      * intros x Hx Hx2. destruct (nodes d1 !! x) as [m|] eqn:Em; [|by apply Hg1]. specialize (Hg2 x ltac:(by rewrite Em) Hx2). lia.
  - split_and!; [by exists L|done|]. intros x [m Hm] Hx. congruence.
  - exists d', L'. split_and!; try done. destruct (nodes d' !! h) as [m|] eqn:Em; [done|]. specialize (Hg h ltac:(by rewrite Hn) Em). lia.
Qed.

Lemma uncache_ok rank N fuel : Uncaches rank N fuel.
Proof.
  induction fuel as [|fuel IH]; intros h Pend d L HO HR Hz Hnd Hp Hs Hf HD.
  { pose proof (path_short (nodes d) Pend Hnd ltac:(intros x Hx; by apply Hp)). lia. }
  cbn [uncache]. destruct (nodes d !! h) as [n|] eqn:Hn.
  2:{ exists d, L. split_and!; try done. intros x [m Hm] Hx. congruence. }
  assert (HhP : h ∉ Pend) by (intros Hin; destruct (Hp h Hin); lia).
  destruct (io_covered _ _ _ HO h) as [Hin|?]; [by exists n|done| |done]. apply list_elem_of_split in Hin as (A & B & ->).
  pose proof (lk_nodup _ _ (io_linked _ _ _ HO)) as HndL.
  destruct (InOrder_unlink Pend d A h B n HO Hn) as (d3 & -> & HRl & HO3). cbn [rbind].
  pose proof (Uncached_relinked _ _ HRl) as HU3. pose proof (rl_core _ _ HRl) as Hcore.
  destruct (coreOf_Some _ _ _ _ (Hcore h) Hn) as (n3 & Hn3 & E3). injection E3 as Eb3 Ep3 Ec3.
  assert (Hck : childKeys d3 n = childKeys d3 n3) by (unfold childKeys; congruence). rewrite Hck.
  destruct (uncaches_loop rank N fuel h n3 Pend d3 (A ++ B)) as (d4 & L4 & -> & HO4 & HL4 & HU4 & [n4 Hn4] & Hg4); try done.
  - by eapply Uncached_Ranked.
  - by apply list.NoDup_cons.
  - intros x [->|Hx]%elem_of_cons; [by rewrite Hn3|]. destruct (Hp x Hx) as [[m Hm] Hlt]. split; [|lia].
    destruct (coreOf_Some _ _ _ _ (Hcore x) Hm) as (m' & Hm' & _). by exists m'.
  - pose proof (Uncached_size _ _ HU3). lia.
  - cbn. lia.
  - by eapply Uncached_OnDisk.
  - cbn [rbind]. destruct (un_back _ _ HU4 h n4 Hn4) as (n3' & Hn3' & E4). assert (n3' = n3) as -> by congruence. injection E4 as Eb4 Ep4 Ec4.
    assert (Hdisk : diskdb d4 !! HashBytes h = Some (blob n4)).
    { rewrite (un_disk _ _ HU4), (un_disk _ _ HU3), <- Eb4, Eb3. apply HD; [done|done]. }
    assert (Hsz : blobSize n = blobSize n4) by (unfold blobSize; congruence). rewrite Hsz.
    assert (HhL : h ∉ L4).
    { intros Hin. apply list.NoDup_app in HndL as (_ & Hdis & HndL). apply list.NoDup_cons in HndL as [Hb _].
      eapply elem_of_sublist in HL4; [|done]. apply elem_of_app in HL4 as [Ha|Ha]; [apply (Hdis h Ha); by left|done]. }
    eexists _, L4. split_and!; [done|apply InOrder_delete; try done; right; by rewrite Hdisk| | |].
    + etrans; [done|]. apply sublist_app; [done|]. by constructor.
    + etrans; [exact HU3|]. etrans; [exact HU4|]. by apply (Uncached_delete _ _ n4).
    + intros x [m Hm] Hg. cbn in Hg. destruct (decide (x = h)) as [->|Hne]; [done|]. rewrite lookup_delete_ne in Hg by congruence.
      destruct (coreOf_Some _ _ _ _ (Hcore x) Hm) as (m' & Hm' & _). specialize (Hg4 x ltac:(by rewrite Hm') Hg). lia.
Qed.
End Uncaching.

(** ** The second phase of [Cap] *)

Notation total d := (Size d).1.

Lemma flushedSize_delete (m : cached) h A : h ∉ A -> flushedSize (delete h m) A = flushedSize m A.
Proof.
  induction A as [|x A IH]; intros Hh; [done|]. apply not_elem_of_cons in Hh as [Hx Hh]. cbn [flushedSize foldr]. rewrite lookup_delete_ne by done.
  fold (flushedSize (delete h m) A) (flushedSize m A). by rewrite IH.
Qed.

Lemma uncacheUntil_ok A B d fuel :
  InOrder [] d (A ++ B) -> (forall h n, h ∈ A -> nodes d !! h = Some n -> diskdb d !! HashBytes h = Some (blob n)) -> (length A < fuel)%nat ->
  exists d', uncacheUntil fuel (hd 0 B) d = Ok d' /\ InOrder [] d' B /\ Uncached d d' /\ total d' = total d - flushedSize (nodes d) A.
Proof.
  revert d fuel. induction A as [|h A IH]; intros d [|fuel] HO HA Hf; try (cbn in Hf; lia); cbn [uncacheUntil].
  { pose proof (lk_oldest _ _ (io_linked _ _ _ HO)) as ->. rewrite Z.eqb_refl. exists d. split_and!; try done. cbn [flushedSize foldr]. lia. }
  pose proof HO as [HS HL Hcov]. pose proof (lk_oldest _ _ HL) as Ho. pose proof (lk_nodup _ _ HL) as Hnd. pose proof (lk_zero _ _ HL) as Hz.
  cbn [app hd] in *. apply list.NoDup_cons in Hnd as [Hh Hnd]. apply not_elem_of_cons in Hz as [Hz0 Hz]. rewrite Ho.
  assert (Hne : h <> hd 0 B).
  { intros ->. destruct B as [|b B]; [done|]. apply Hh. apply elem_of_app. right. by left. }
  destruct (Z.eqb_spec h (hd 0 B)) as [?|_]; [done|].
  destruct (chain_cached _ _ h (lk_chain _ _ HL)) as [n Hn]; [by left|]. rewrite Hn. cbn [deref rbind].
  assert (Hd := HA h n ltac:(by left) Hn). set (d1 := addSize _ _).
  assert (HO1 : InOrder [] d1 (A ++ B)).
  { split.
    - eapply (Sound_core (setNodes (delete h (nodes d)) d)); [done|done|]. eapply Sound_delete; [done|done|congruence|]. right. by rewrite Hd.
    - destruct (Linked_pop d h n (A ++ B) HL Hn). by split.
    - cbn. intros x [m [Hxh Hx]%lookup_delete_Some] Hxz. destruct (Hcov x) as [[?|?]%elem_of_cons|?]; [by exists m|done|congruence|by left|by right]. }
  destruct (IH d1 fuel HO1) as (d' & E & HO' & HU & Ht).
  - intros x m Hx Hm. cbn in Hm. apply lookup_delete_Some in Hm as [_ Hm]. apply HA; [by right|done].
  - cbn in Hf. lia.
  - exists d'. split_and!; [done|done|etrans; [|done]; destruct (Uncached_delete d h n (- blobSize n) Hn Hd); by split|].
    rewrite Ht. cbn [flushedSize foldr]. rewrite Hn. fold (flushedSize (nodes d) A). unfold Size, d1. cbn [fst nodes nodesSize addSize setOldest setNodes].
    rewrite flushedSize_delete by (intros ?; apply Hh; apply elem_of_app; by left).
    rewrite map_size_delete_Some by (by exists n). unfold blobSize.
    assert (size (nodes d) <> 0%nat) by (rewrite map_size_non_empty_iff; intros E0; by rewrite E0, lookup_empty in Hn). unfold HashLength. lia.
Qed.

Lemma setPrev_inorder d L : InOrder [] d L -> is_Some (nodes d !! hd 0 L) ->
  exists d', modifyNode (hd 0 L) (setPrev 0) d = Ok d' /\ InOrder [] d' L /\ Uncached d d' /\ total d' = total d.
Proof.
  intros HO Hh. destruct (modifyNode_relinked (hd 0 L) (setPrev 0) d Hh) as (n & Hn & E & HR); [done|]. rewrite E. eexists. split; [done|].
  split_and!; [|by apply Uncached_relinked|].
  - apply (InOrder_relinked [] d _ L); [done|done| |by left]. pose proof (io_linked _ _ _ HO) as HL.
    apply (Linked_frame d); cbn [nodes oldest setNodes]; [done|done|apply lookup_insert_is_Some'; right; apply HL| |].
    + intros h _. rewrite fmap_insert_lookup. case_bool_decide as Hx; [|done]. rewrite Hx, Hn. done.
    + intros h Hin. rewrite fmap_insert_lookup. case_bool_decide as Hx; [|done]. exfalso. subst h. pose proof (lk_nodup _ _ HL) as Hnd.
      destruct L as [|x L]; [by apply not_elem_of_nil in Hin|]. by apply list.NoDup_cons in Hnd as [? _].
  - unfold Size. cbn [fst nodesSize nodes setNodes]. rewrite map_size_insert_Some by (by exists n). done.
Qed.

(** ** What the outside sees *)

(** The same nodes and preimages can be read. *)
Definition Invisible (d d' : Database) : Prop :=
  forall h, is_hash h -> Node h d' = Node h d /\ preimage h d' = preimage h d.

Lemma Uncached_Invisible d d' : Uncached d d' -> Invisible d d'.
Proof. intros HU h _. split; [by apply Uncached_Node|]. unfold preimage. by rewrite (un_preimages _ _ HU), (un_disk _ _ HU). Qed.

(** The preimages can go once they are on the disk. *)
Lemma setPreimages_Invisible d : (forall h p, preimages d !! h = Some p -> diskdb d !! secureKey (HashBytes h) = Some p) -> Invisible d (setPreimages ∅ 0 d).
Proof.
  intros Hp h _. split; [done|]. unfold preimage. cbn. rewrite lookup_empty. destruct (preimages d !! h) as [p|] eqn:E; [|done]. by apply Hp.
Qed.

Lemma Phase_Invisible d s z : HashKeys d -> Phase d s -> Invisible d (addReaders z (sdb s)).
Proof.
  intros [K1 K2] [(disk & r & E) _ Hd] h Hh. unfold Node, preimage. rewrite E in *. cbn [nodes diskdb preimages addReaders] in *. split.
  - destruct (nodes d !! h) as [n|] eqn:En; [done|]. destruct (Hd (HashBytes h)) as [?|(v & _ & [(h' & n & Hn & _ & Eh & _)|(h' & _ & Eh)])]; [done| |].
    + apply HashBytes_inj in Eh as ->; [congruence|done|apply K1; by exists n].
    + symmetry in Eh. by apply secureKey_HashBytes in Eh.
  - destruct (preimages d !! h) as [p|] eqn:Ep; [done|].
    destruct (Hd (secureKey (HashBytes h))) as [?|(v & _ & [(h' & n & _ & _ & Eh & _)|(h' & Hp & Eh)])]; [done| |].
    + by apply secureKey_HashBytes in Eh.
    + apply secureKey_inj, HashBytes_inj in Eh as ->; [congruence|done|apply K2; by exists v].
Qed.

Lemma Phase_Sound d s : HashKeys d -> Phase d s -> Sound d -> Sound (sdb s).
Proof.
  intros HK HP HS. pose proof HP as [(disk & r & E) _ Hd]. pose proof HS as [S1 S2 S3 S4 S5 S6 S7].
  assert (Hmono : forall k, is_Some (diskdb d !! k) -> is_Some (diskdb (sdb s) !! k)).
  { intros k Hk. destruct (Hd k) as [->|(v & -> & _)]; done. }
  rewrite E in *. cbn [diskdb] in *. split; cbn [nodes diskdb]; try done.
  - intros p n c Hn Hc. pose proof (S5 p n c Hn Hc) as Hx. unfold Node in *. cbn [nodes diskdb]. destruct (nodes d !! c); [done|by apply Hmono].
  - intros c n b Hn Hz Hb. destruct (Hd (HashBytes c)) as [Ed|(v & Ed & Ha)]; [apply (S6 c); congruence|].
    assert (v = b) as -> by congruence. apply (Allowed_functional d (HashBytes c)); [done| |done]. left. by exists c, n.
  - intros c n Hn Hz. destruct (S7 c n Hn Hz); [by left|right; by apply Hmono].
Qed.

Lemma Phase_InOrder d s z L : HashKeys d -> Phase d s -> InOrder [] d L -> InOrder [] (addReaders z (sdb s)) L.
Proof.
  intros HK HP [S1 S2 S3]. pose proof (Phase_Sound d s HK HP S1) as HS. pose proof HP as [(disk & r & E) _ _]. split.
  - by eapply Sound_core; [| |exact HS].
  - rewrite E. destruct S2. by split.
  - rewrite E. exact S3.
Qed.

#[global] Instance Invisible_preorder : PreOrder Invisible.
Proof.
  split; [by intros d h|]. intros d1 d2 d3 H1 H2 h Hh. destruct (H1 h Hh), (H2 h Hh). split; congruence.
Qed.

(** ** The operations *)

(** Flushing succeeds, fails to write, or waits forever for a lock that is held; what can be
    read stays the same, and unless it succeeds the cache stays as it is. *)
Record Flushed (d : Database) (L : list Hash) (r : result dbErr unit) (d' : Database) (L' : list Hash) : Prop := {
  fl_result : r = Ok tt \/ r = Err WriteError \/ r = NoFuel /\ readers d <> 0;
  fl_lock : r = Ok tt -> readers d = 0;
  fl_order : InOrder [] d' L';
  fl_keys : HashKeys d';
  fl_same : Invisible d d';
  fl_newest : newest d' = newest d;
  fl_sub : L' `sublist_of` L;
  fl_edges : forall p c, edge (nodes d') p c -> edge (nodes d) p c;
  fl_failed : r <> Ok tt -> nodes d' = nodes d /\ preimages d' = preimages d
}.

Lemma Phase_Flushed r0 d L s z :
  HashKeys d -> InOrder [] d L -> Phase d s -> r0 = Err WriteError \/ r0 = NoFuel /\ readers d <> 0 -> Flushed d L r0 (addReaders z (sdb s)) L.
Proof.
  intros HK HO HP Hr0. pose proof HP as [(disk & r & E) _ _]. split; try done; [by right|by destruct Hr0 as [->|[-> _]]|by apply Phase_InOrder with d| |by apply Phase_Invisible|by rewrite E|by rewrite E|by rewrite E].
  destruct HK. rewrite E. by split.
Qed.

Lemma Uncached_HashKeys d d' : Uncached d d' -> HashKeys d -> HashKeys d'.
Proof.
  intros HU [K1 K2]. split; [|by rewrite (un_preimages _ _ HU)]. intros h [n' Hn']. destruct (un_back _ _ HU h n' Hn') as (n & Hn & _). apply K1. by exists n.
Qed.

(** The end of the second phase, when the nodes are out of the cache. *)
Lemma Uncached_Flushed d L s d1 d2 L' :
  HashKeys d -> readers d = 0 -> Phase d s -> InOrder [] d2 L' -> L' `sublist_of` L -> Uncached d1 d2 ->
  d1 = addReaders (-1) (sdb s) \/
    d1 = setPreimages ∅ 0 (addReaders (-1) (sdb s)) /\ (forall h p, preimages d !! h = Some p -> diskdb (sdb s) !! secureKey (HashBytes h) = Some p) ->
  Flushed d L (Ok tt) d2 L'.
Proof.
  intros HK Hrd HP HO Hsub HU Hd1. pose proof HP as [(disk & r & E) _ _]. pose proof (Phase_Invisible d s (-1) HK HP) as Hinv.
  assert (H1 : Invisible d d1 /\ HashKeys d1 /\ newest d1 = newest d /\ nodes d1 = nodes d).
  { destruct Hd1 as [->|[-> Hp]].
    - split_and!; [done|destruct HK; rewrite E; by split|by rewrite E|by rewrite E].
    - split_and!; [etrans; [exact Hinv|]; apply setPreimages_Invisible; rewrite E in *; exact Hp| |by rewrite E|by rewrite E].
      destruct HK. rewrite E. split; [done|]. cbn. intros h Hh. rewrite lookup_empty in Hh. by destruct Hh. }
  destruct H1 as (I1 & K1 & N1 & En). split; try done; [by left|by eapply Uncached_HashKeys| | |].
  - etrans; [done|by apply Uncached_Invisible].
  - rewrite (un_newest _ _ HU). done.
  - intros p c Hc. rewrite <- En. by eapply Uncached_edge.
Qed.

Lemma InOrder_setPreimages d L m z : InOrder [] d L -> InOrder [] (setPreimages m z d) L.
Proof. intros [S1 S2 S3]. split; [by eapply Sound_core; [| |exact S1]|destruct S2; by split|exact S3]. Qed.

Lemma capDone_ok fp d L A B :
  InOrder [] d L -> L = A ++ B -> (forall h n, h ∈ A -> nodes d !! h = Some n -> diskdb d !! HashBytes h = Some (blob n)) ->
  exists d', capDone fp (hd 0 B) d = Ok d' /\ InOrder [] d' B /\ Uncached (if fp then setPreimages ∅ 0 d else d) d' /\
    total d' = total d - flushedSize (nodes d) A.
Proof.
  intros HO -> HA. unfold capDone. set (d1 := if fp then setPreimages ∅ 0 d else d).
  assert (H1 : InOrder [] d1 (A ++ B) /\ nodes d1 = nodes d /\ diskdb d1 = diskdb d /\ total d1 = total d).
  { destruct fp; [|done]. split; [by apply InOrder_setPreimages|done]. }
  destruct H1 as (HO1 & En & Ed & Et).
  destruct (uncacheUntil_ok A B d1 (S (size (nodes d1)))) as (d2 & -> & HO2 & HU2 & Ht2).
  - done.
  - rewrite En, Ed. exact HA.
  - pose proof (lk_nodup _ _ (io_linked _ _ _ HO1)) as Hnd. apply list.NoDup_app in Hnd as (Hnd & _).
    pose proof (path_short (nodes d1) A Hnd) as Hs. apply Nat.lt_succ_r, Hs. intros x Hx.
    eapply chain_cached; [apply HO1|]. apply elem_of_app. by left.
  - cbn [rbind]. pose proof (lk_oldest _ _ (io_linked _ _ _ HO2)) as Ho. rewrite Ho. destruct (Z.eqb_spec (hd 0 B) 0) as [E0|E0].
    { exists d2. rewrite Ht2, Et, En. done. }
    destruct (setPrev_inorder d2 B HO2) as (d3 & -> & HO3 & HU3 & Ht3); [by apply chain_head_or_zero, HO2|].
    exists d3. split_and!; [done|done|by etrans|]. by rewrite Ht3, Ht2, Et, En.
Qed.

Section Operations.
Context `{DiskWrites} `{MapOrder}.

Lemma Phase_start d : Phase d (mkSession (addReaders 1 d) NewBatch).
Proof.
  split; cbn; [|by intros k v ?%not_elem_of_nil|by left]. by exists (diskdb d), (readers d + 1).
Qed.

(** The first phase of [Cap]. *)
Definition capWrites (limit : Z) (fp : bool) (d : Database) : M session dbErr Hash :=
  let! _ := releasing (if fp then putPreimages else ret tt) in
  let! stop := releasing (capLoop (S (size (nodes d))) limit (total d) (oldest d)) in
  let! _ := releasing write in
  ret stop.

Lemma releasing_safe {A} d (m : M session dbErr A) s Q :
  safe d m s Q ->
  match releasing m s with
  | (Ok a, s') => Phase d s' /\ Grows d s s' /\ readers (sdb s') = readers (sdb s) /\ Q a s'
  | (Err e, s') => exists s2, Phase d s2 /\ sdb s' = addReaders (-1) (sdb s2) /\ readers (sdb s') = readers (sdb s) - 1
  | _ => False
  end.
Proof.
  unfold safe, releasing. destruct (m s) as [[a|e| |] s']; try done. intros [H1 H2]. exists s'. split_and!; [done|done|]. cbn. lia.
Qed.

Lemma capWrites_ok limit fp d L s :
  HashKeys d -> InOrder [] d L -> Phase d s ->
  match capWrites limit fp d s with
  | (Ok stop, s') => Phase d s' /\ readers (sdb s') = readers (sdb s) /\
      (fp = true -> forall h p, preimages d !! h = Some p -> diskdb (sdb s') !! secureKey (HashBytes h) = Some p) /\
      exists A B, L = A ++ B /\ stop = hd 0 B /\ (B = [] \/ total d - flushedSize (nodes d) A <= limit) /\
        forall h n, h ∈ A -> nodes d !! h = Some n -> diskdb (sdb s') !! HashBytes h = Some (blob n)
  | (Err e, s') => exists s2, Phase d s2 /\ sdb s' = addReaders (-1) (sdb s2) /\ readers (sdb s') = readers (sdb s) - 1
  | _ => False
  end.
Proof.
  intros HK HO HP. pose proof (io_linked _ _ _ HO) as HL. unfold capWrites, Prelude.mbind.
  assert (H1 : safe d (if fp then putPreimages else ret tt) s (fun _ s' => fp = true -> forall h p, preimages d !! h = Some p -> Saved s' (secureKey (HashBytes h)) p)).
  { destruct fp; [|by apply safe_ret]. eapply safe_mono; [by apply putPreimages_safe|]. auto. }
  apply releasing_safe in H1. destruct (releasing _ s) as [[[]|e| |] s1]; [|done|done|done]. destruct H1 as (HP1 & HG1 & Hr1 & HQ1).
  assert (H2 := capLoop_safe d HK (S (size (nodes d))) limit (total d) L s1 HP1 (lk_chain _ _ HL) (lk_zero _ _ HL)).
  rewrite <- (lk_oldest _ _ HL) in H2. apply releasing_safe in H2.
  2:{ apply Nat.lt_succ_r, path_short; [apply HL|]. intros x Hx. by eapply chain_cached; [apply HL|]. }
  destruct (releasing _ s1) as [[stop|e| |] s2]; [|destruct H2 as (s2' & ? & ? & ?); exists s2'; split_and!; [done|done|lia]|done|done].
  destruct H2 as (HP2 & HG2 & Hr2 & (A & B & -> & -> & HA & Hs)).
  assert (H3 := write_safe d HK s2 HP2). apply releasing_safe in H3.
  destruct (releasing write s2) as [[[]|e| |] s3]; [|destruct H3 as (s3' & ? & ? & ?); exists s3'; split_and!; [done|done|lia]|done|done].
  destruct H3 as (HP3 & _ & Hr3 & HQ3). cbn [ret]. split_and!; [done|lia| |].
  - intros Hfp h p Hp. apply HQ3; [right; by exists h|]. apply HG2; [right; by exists h|]. by apply HQ1.
  - exists A, B. split_and!; [done|done|done|]. intros h n Hin Hn. apply HQ3; [|by apply HA]. left. exists h, n. split_and!; try done.
    intros ->. apply (lk_zero _ _ HL), elem_of_app. by left.
Qed.

Lemma Cap_phases limit d :
  let fp := preimagesSize d >? 4 * 1024 * 1024 in
  Cap limit d =
    match capWrites limit fp d (mkSession (addReaders 1 d) NewBatch) with
    | (Ok stop, s) => match (let* _ := Lock (addReaders (-1) (sdb s)) in capDone fp stop (addReaders (-1) (sdb s))) with
        | Ok db => (Ok tt, db) | Err e => (Err e, addReaders (-1) (sdb s)) | Panic => (Panic, addReaders (-1) (sdb s)) | NoFuel => (NoFuel, addReaders (-1) (sdb s)) end
    | (Err e, s) => (Err e, sdb s) | (Panic, s) => (Panic, sdb s) | (NoFuel, s) => (NoFuel, sdb s)
    end.
Proof.
  intros fp. unfold Cap, runSession, capSession, capWrites, Prelude.mbind, RLock, onDb, gets, modify.
  cbn [sdb addReaders nodes nodesSize preimagesSize oldest batch]. fold fp. unfold Size. cbn [fst].
  destruct (releasing (if fp then _ else _) _) as [[[]|e| |] s1]; try done.
  destruct (releasing (capLoop _ _ _ _) _) as [[stop|e| |] s2]; try done.
  destruct (releasing write _) as [[[]|e| |] s3]; try done. cbn [RUnlock onDb modify sdb ret]. unfold onDbResult. cbn [sdb]. by destruct (rbind _ _).
Qed.

Lemma Cap_ok limit d L :
  HashKeys d -> InOrder [] d L ->
  exists r d' L', Cap limit d = (r, d') /\ Flushed d L r d' L' /\ readers d' = readers d /\ (Tail d L -> Tail d' L') /\
    (r = Ok tt -> L' = [] \/ total d' <= limit).
Proof.
  intros HK HO. rewrite Cap_phases. cbv zeta. set (fp := preimagesSize d >? 4 * 1024 * 1024).
  pose proof (capWrites_ok limit fp d L _ HK HO (Phase_start d)) as Hw.
  destruct (capWrites limit fp d _) as [[stop|[]| |] s]; [| |done|done].
  2:{ destruct Hw as (s2 & HP2 & E & Hr). exists (Err WriteError), (sdb s), L. rewrite E in *.
      split_and!; [done|apply Phase_Flushed; auto|cbn in *; lia| |done]. pose proof HP2 as [(disk & r & E2) _ _]. unfold Tail. by rewrite E2. }
  destruct Hw as (HP & Hr & Hpre & A & B & -> & -> & Hlim & HA). pose proof HP as [(disk & r & E) _ _].
  assert (Hrd : readers (addReaders (-1) (sdb s)) = readers d) by (cbn in *; lia). unfold Lock. rewrite Hrd.
  destruct (Z.eqb_spec (readers d) 0) as [Hz|Hz]; cbn [rbind].
  2:{ exists NoFuel, (addReaders (-1) (sdb s)), (A ++ B). split_and!; [done|apply Phase_Flushed; auto|done| |done]. unfold Tail. by rewrite E. }
  destruct (capDone_ok fp (addReaders (-1) (sdb s)) (A ++ B) A B) as (d' & -> & HO' & HU & Ht).
  - by apply Phase_InOrder with d.
  - done.
  - rewrite E in *. exact HA.
  - assert (Hn : newest d' = newest d) by (rewrite (un_newest _ _ HU), E; by destruct fp).
    exists (Ok tt), d', B. split_and!; [done| | | |].
    + eapply Uncached_Flushed; [done|done|done|done|by apply sublist_inserts_l|exact HU|]. destruct fp; [right|by left]. split; [done|by apply Hpre].
    + rewrite (un_readers _ _ HU). cbn in Hr. destruct fp; cbn; lia.
    + intros [HT|[A' HT]]; [left; by apply app_nil in HT as [_ ?]|]. destruct B as [|b B _] using rev_ind; [by left|right].
      rewrite app_assoc in HT. apply app_inj_2 in HT as [_ HT]; [|done]. injection HT as ->. exists B. by rewrite Hn.
    + intros _. destruct Hlim as [?|Hlim]; [by left|right]. rewrite Ht. replace (total (addReaders (-1) (sdb s))) with (total d) by (by rewrite E).
      by rewrite E.
Qed.

(** The first phase of [Commit]. *)
Definition commitWrites (node : Hash) (d : Database) : M session dbErr unit :=
  let! _ := releasing (commit (S (size (nodes d))) node) in
  releasing write.

Lemma commitWrites_ok rank node d L s :
  HashKeys d -> InOrder [] d L -> Ranked rank (nodes d) -> node <> 0 -> Phase d s ->
  match commitWrites node d s with
  | (Ok _, s') => Phase d s' /\ readers (sdb s') = readers (sdb s) /\
      (forall k v, Allowed d k v -> Saved s k v -> diskdb (sdb s') !! k = Some v) /\
      forall x n, rtc (edge (nodes d)) node x -> nodes d !! x = Some n -> diskdb (sdb s') !! HashBytes x = Some (blob n)
  | (Err e, s') => exists s2, Phase d s2 /\ sdb s' = addReaders (-1) (sdb s2) /\ readers (sdb s') = readers (sdb s) - 1
  | _ => False
  end.
Proof.
  intros HK HO HR Hz HP. unfold commitWrites, Prelude.mbind.
  assert (H1 := commit_safe d HK rank (S (size (nodes d))) node [] s (io_sound _ _ _ HO) HR HP Hz (NoDup_nil_2)).
  apply releasing_safe in H1; [|by intros x ?%not_elem_of_nil|cbn; lia].
  destruct (releasing _ s) as [[[]|e| |] s1]; [|done|done|done]. destruct H1 as (HP1 & HG1 & Hr1 & HQ1).
  assert (H2 := write_safe d HK s1 HP1). apply releasing_safe in H2.
  destruct (releasing write s1) as [[[]|e| |] s2]; [|destruct H2 as (s2' & ? & ? & ?); exists s2'; split_and!; [done|done|lia]|done|done].
  destruct H2 as (HP2 & _ & Hr2 & HQ2). split_and!; [done|lia| |].
  - intros k v Ha Hs. apply HQ2; [done|by apply HG1].
  - intros x n Hx Hn. apply HQ2; [|by apply HQ1]. left. exists x, n. split_and!; try done. intros ->.
    apply rtc_inv_r in Hx as [->|(y & _ & (ny & Hy & Hcy))]; [done|]. by destruct (so_child d (io_sound _ _ _ HO) y ny 0 Hy Hcy).
Qed.

Lemma Commit_phases node d :
  Commit node d =
    match putPreimages (mkSession (addReaders 1 d) NewBatch) with
    | (Ok _, s) => match commitWrites node (sdb s) s with
        | (Ok _, s') =>
            let db := addReaders (-1) (sdb s') in
            match (let* _ := Lock db in uncache (S (size (nodes (sdb s)))) node (setPreimages ∅ 0 db)) with
            | Ok db => (Ok tt, db) | Err e => (Err e, db) | Panic => (Panic, db) | NoFuel => (NoFuel, db) end
        | (Err e, s') => (Err e, sdb s') | (Panic, s') => (Panic, sdb s') | (NoFuel, s') => (NoFuel, sdb s')
        end
    | (Err e, s) => (Err e, sdb s) | (Panic, s) => (Panic, sdb s) | (NoFuel, s) => (NoFuel, sdb s)
    end.
Proof.
  unfold Commit, runSession, commitSession, commitWrites, Prelude.mbind, RLock, onDb, gets, modify. cbn [sdb batch].
  destruct (putPreimages _) as [[[]|e| |] s1]; try done. destruct (releasing (commit _ _) _) as [[[]|e| |] s2]; try done.
  destruct (releasing write _) as [[[]|e| |] s3]; try done. cbn [RUnlock onDb modify sdb]. unfold onDbResult. cbn [sdb]. cbv zeta. by destruct (rbind _ _).
Qed.

Lemma Commit_ok rank node d L :
  HashKeys d -> InOrder [] d L -> Ranked rank (nodes d) -> node <> 0 ->
  exists r d' L', Commit node d = (r, d') /\ Flushed d L r d' L' /\
    (r = Ok tt -> readers d' = readers d /\
       forall x n, rtc (edge (nodes d)) node x -> nodes d !! x = Some n -> diskdb d' !! HashBytes x = Some (blob n)) /\
    (r = Err WriteError -> readers d' = readers d \/ readers d' = readers d + 1).
Proof.
  intros HK HO HR Hz. rewrite Commit_phases. pose proof (putPreimages_safe d HK _ (Phase_start d)) as Hpre. unfold safe in Hpre.
  destruct (putPreimages _) as [[[]|[]| |] s1]; [| |done|done].
  2:{ destruct Hpre as [HP Hr]. exists (Err WriteError), (sdb s1), L. cbn in Hr. split_and!; [done| |done|intros _; right; lia].
      pose proof (Phase_Flushed (Err WriteError) d L s1 0 HK HO HP ltac:(auto)) as HF. unfold addReaders in HF. rewrite Z.add_0_r in HF. by destruct (sdb s1). }
  destruct Hpre as (HP1 & _ & Hr1 & Hsaved). cbn in Hr1. pose proof HP1 as [(disk & r & E1) _ _].
  assert (Hw : commitWrites node (sdb s1) s1 = commitWrites node d s1) by (rewrite E1; done). rewrite Hw. clear Hw.
  pose proof (commitWrites_ok rank node d L s1 HK HO HR Hz HP1) as Hw. destruct (commitWrites node d s1) as [[[]|[]| |] s2]; [| |done|done].
  2:{ destruct Hw as (s3 & HP3 & E & Hr). exists (Err WriteError), (sdb s2), L. rewrite E in *.
      split_and!; [done|apply Phase_Flushed; auto|done|intros _; left; cbn in *; lia]. }
  destruct Hw as (HP2 & Hr2 & Hdisk & Hall). pose proof HP2 as [(disk2 & r2 & E2) _ _].
  assert (Hrd : readers (addReaders (-1) (sdb s2)) = readers d) by (cbn in *; lia). cbv zeta. unfold Lock. rewrite Hrd.
  destruct (Z.eqb_spec (readers d) 0) as [Hrz|Hrz]; cbn [rbind].
  2:{ exists NoFuel, (addReaders (-1) (sdb s2)), L. split_and!; [done|apply Phase_Flushed; auto|done|done]. }
  set (db := setPreimages _ _ _).
  assert (HO2 : InOrder [] db L) by (by apply InOrder_setPreimages, Phase_InOrder with d).
  assert (En : nodes db = nodes d) by (unfold db; by rewrite E2). rewrite E1. cbn [nodes].
  destruct (uncache_ok rank (size (nodes d)) (S (size (nodes d))) node [] db L) as (d' & L' & -> & HO' & HL' & HU & _); try done.
  - by rewrite En.
  - apply NoDup_nil_2.
  - by intros x ?%not_elem_of_nil.
  - by rewrite En.
  - cbn. lia.
  - intros x n. rewrite En. apply Hall.
  - exists (Ok tt), d', L'. split_and!; [done| | |done].
    + eapply Uncached_Flushed; [done|done|exact HP2|done|done|exact HU|]. right. split; [done|]. intros h p Hp. apply Hdisk; [right; by exists h|by apply Hsaved].
    + intros _. rewrite (un_readers _ _ HU), (un_disk _ _ HU). split; [cbn; lia|exact Hall].
Qed.
End Operations.
