(* ===== verification/TrieDbProperties.v ===== *)
(** * Package trie: properties of the node database

    Nodes that are referenced are never lost, whatever is inserted, dereferenced, flushed
    and committed, and whichever writes to the disk fail; dereferencing removes what is not
    referenced any more; flushing does not change what can be read.  The cache breaks when
    the newest node is removed, as the next insertion panics, and when [Commit] fails to
    write the preimages, as it keeps the read lock and the next writer waits forever. *)

From stdpp Require Import base numbers list gmap option relations.
From Stdlib Require Import ZArith Lia Strings.Byte.
From S2P Require Import Prelude Common TrieDatabase TrieDbProofs TrieDbList TrieDbRefs TrieDbFlush.
Import triedb.

(** ** Histories *)

Section Histories.
(** What each hash is the hash of, and an order in which references go down. *)
Context `{DiskWrites} `{MapOrder} (blobOf : Hash -> list byte) (rank : Hash -> nat).

(** The operations, with what their callers keep to: a node is inserted under its hash, and
    its references are to nodes below it; roots are dereferenced after they were referenced.
    A node is inserted while the newest node has not been removed.  Every call returns. *)
Inductive dbStep (d : Database) : Database -> Prop :=
| step_insert h d' :
    h <> 0 -> is_hash h -> NewestOk d -> Insert h (blobOf h) d = Ok d' -> dbStep d d'
| step_reference child parent d' :
    child <> 0 -> is_Some (nodes d !! parent) -> (parent <> 0 -> (rank child < rank parent)%nat) ->
    reference child parent d = Ok d' -> dbStep d d'
| step_dereference root d' : edge (nodes d) 0 root -> Dereference root 0 d = Ok d' -> dbStep d d'
| step_preimage h p : is_hash h -> dbStep d (insertPreimage h p d)
| step_cap limit r d' : Cap limit d = (r, d') -> r <> NoFuel -> dbStep d d'
| step_commit node r d' : node <> 0 -> Commit node d = (r, d') -> r <> NoFuel -> dbStep d d'.

(** What all histories keep. *)
Record Kept (d : Database) (L : list Hash) : Prop := {
  kp_order : InOrder [] d L;
  kp_newest : L = [] \/ newest d <> 0 /\ newest d ∉ L \/ exists A, L = A ++ [newest d];
  kp_keys : HashKeys d;
  kp_ranked : Ranked rank (nodes d);
  kp_blobs : forall h b, is_hash h -> h <> 0 -> Node h d = Some b -> b = blobOf h
}.

Lemma Kept_new disk :
  (forall h b, is_hash h -> disk !! HashBytes h = Some b -> b = blobOf h) -> Kept (NewDatabase disk) [].
Proof.
  intros Hd. assert (Hn : forall h n, nodes (NewDatabase disk) !! h = Some n -> h = 0 /\ n = mkNode [] 0 ∅ 0 0).
  { intros h n E. cbn in E. by apply lookup_singleton_Some in E as [<- <-]. }
  split.
  - split; [split| |].
    + by exists (mkNode [] 0 ∅ 0 0).
    + intros h [n [-> _]%Hn]. done.
    + intros p n c k [-> ->]%Hn. cbn. by rewrite lookup_empty.
    + intros p n c [-> ->]%Hn [k Hk]. cbn in Hk. by rewrite lookup_empty in Hk.
    + intros p n c [-> ->]%Hn [k Hk]. cbn in Hk. by rewrite lookup_empty in Hk.
    + by intros c n b [-> _]%Hn.
    + by intros c n [-> _]%Hn.
    + split; [done|apply NoDup_nil_2|apply not_elem_of_nil|done|]. by exists (mkNode [] 0 ∅ 0 0).
    + by intros h [n [-> _]%Hn].
  - by left.
  - split; [by intros h [n [-> _]%Hn]|]. cbn. intros h [n Hx]. by rewrite lookup_empty in Hx.
  - intros p c (n & [-> ->]%Hn & Hc). done.
  - intros h b Hh Hz E. unfold Node in E. destruct (nodes (NewDatabase disk) !! h) as [n|] eqn:En; [by apply Hn in En as [-> _]|]. by apply Hd.
Qed.

Lemma newest_sublist d d' L L' :
  NoDup L -> 0 ∉ L -> (L = [] \/ newest d <> 0 /\ newest d ∉ L \/ exists A, L = A ++ [newest d]) -> newest d' = newest d -> L' `sublist_of` L ->
  L' = [] \/ newest d' <> 0 /\ newest d' ∉ L' \/ exists A, L' = A ++ [newest d'].
Proof.
  intros Hnd Hz HT Hn HL. destruct (decide (newest d ∈ L')) as [Hin|Hin].
  2:{ rewrite Hn. destruct HT as [->|[[? ?]|[A ->]]]; [left; by apply sublist_nil_r|right; by left|]. right. left. split; [|done].
      intros E. apply Hz. rewrite E. apply elem_of_app. right. by left. }
  assert (Ht : Tail d L).
  { destruct HT as [?|[[_ HT]|?]]; [by left| |by right]. exfalso. apply HT. by eapply elem_of_sublist. }
  destruct (Tail_sublist d d' L L' Hnd Ht Hn HL) as [?|?]; [by left|by left|]. right. by right.
Qed.

Lemma Kept_Tail d L : Kept d L -> NewestOk d -> Tail d L.
Proof.
  intros HK Hn. pose proof (io_linked _ _ _ (kp_order _ _ HK)) as HL. destruct Hn as [Ho|Hn].
  - left. rewrite (lk_oldest _ _ HL) in Ho. destruct L as [|h L]; [done|]. cbn in Ho. subst. exfalso. apply (lk_zero _ _ HL). by left.
  - destruct (kp_newest _ _ HK) as [?|[[Hz Hin]|?]]; [by left| |by right]. exfalso.
    destruct (io_covered _ _ _ (kp_order _ _ HK) (newest d) Hn Hz) as [?|?%not_elem_of_nil]; done.
Qed.

Lemma insert_kept d L h :
  Kept d L -> NewestOk d -> h <> 0 -> is_hash h ->
  exists d' L', insert h (blobOf h) d = Ok d' /\ Kept d' L' /\ Node h d' = Some (blobOf h) /\ forall h', h' <> h -> Node h' d' = Node h' d.
Proof.
  intros HK Hn Hz Hh. pose proof (kp_blobs _ _ HK h) as Hb.
  destruct (insert_inorder d L h (blobOf h) (kp_order _ _ HK) (Kept_Tail d L HK Hn) Hz Hh ltac:(auto))
    as (d' & L' & E & HO & HT & Hnode & _ & Hother & Hpre & Hcore).
  exists d', L'. split_and!; [done| |done|done]. split; [done|destruct HT; auto| | |].
  - split; [apply HO|]. rewrite Hpre. apply HK.
  - intros p c (n & Hp & Hc) Hpz. destruct (Hcore p) as [Ec|Ec].
    + apply (kp_ranked _ _ HK); [|done]. destruct (coreOf_Some (nodes d') (nodes d) p n) as (n0 & Hn0 & E0); [by rewrite Ec|done|].
      injection E0 as _ _ E0. exists n0. by rewrite E0.
    + rewrite Hp in Ec. injection Ec as _ _ Ec. rewrite Ec, lookup_empty in Hc. by destruct Hc.
  - intros h' b Hh' Hz' Hb'. destruct (decide (h' = h)) as [->|Hne]; [congruence|]. rewrite Hother in Hb' by done. by apply (kp_blobs _ _ HK).
Qed.

Lemma Lock_free d d' (f : Database -> result dbErr Database) : (let* _ := Lock d in f d) = Ok d' -> readers d = 0 /\ f d = Ok d'.
Proof. unfold Lock. destruct (Z.eqb_spec (readers d) 0); [|done]. cbn [rbind]. done. Qed.



Lemma reference_kept d L child parent :
  Kept d L -> child <> 0 -> is_Some (nodes d !! parent) -> (parent <> 0 -> (rank child < rank parent)%nat) ->
  exists d', reference child parent d = Ok d' /\ Kept d' L /\ (forall h, Node h d' = Node h d) /\
    (is_Some (nodes d !! child) -> edge (nodes d') parent child).
Proof.
  intros HK Hz Hp Hr. destruct (reference_inorder d L child parent (kp_order _ _ HK) Hp Hz) as (d' & E & HO & Hnew & Hnode & Hedge & Hpre & Hback).
  exists d'. split_and!; [done| |done|done]. split; [done|rewrite Hnew; apply HK| | |].
  - split; [apply HO|]. rewrite Hpre. apply HK.
  - intros p c (n & Hn & Hc) Hpz. destruct (Hback p n c Hn Hc) as [?|[-> ->]]; [|by apply Hr]. by apply (kp_ranked _ _ HK).
  - intros h b. rewrite Hnode. apply HK.
Qed.

Lemma Shrunk_Node X d d' h b : Sound d -> Shrunk X d d' -> h <> 0 -> Node h d' = Some b -> Node h d = Some b.
Proof.
  intros HS Sh Hz. unfold Node. rewrite (sh_disk _ _ _ Sh). destruct (nodes d' !! h) as [n'|] eqn:E'.
  - destruct (sh_back _ _ _ Sh h n' E') as (n & -> & -> & _). done.
  - intros Hb. destruct (nodes d !! h) as [n|] eqn:E; [|done]. f_equal. symmetry. by apply (so_disk d HS h).
Qed.

Lemma dereference_kept d L root :
  Kept d L -> readers d = 0 -> edge (nodes d) 0 root ->
  exists d' L', Dereference root 0 d = Ok d' /\ Kept d' L' /\ Shrunk [0] d d' /\
    forall c, c <> root -> edge (nodes d) 0 c -> edge (nodes d') 0 c.
Proof.
  intros HK Hrd (r & Hr & Hc). pose proof (kp_order _ _ HK) as HO.
  destruct (Dereference_inorder d L root r HO Hrd Hr Hc) as (d' & L' & r' & E & HO' & HL & Sh & Hr' & Hch). exists d', L'. split_and!; [done| |done|].
  2:{ intros c Hne (r0 & Hr0 & Hc0). exists r'. split; [done|]. rewrite Hch, children_dropRef, bool_decide_false by done. congruence. }
  split; [done| | | |].
  - apply (newest_sublist d d' L L'); [apply HO|apply HO|apply HK|apply Sh|done].
  - split; [apply HO'|]. rewrite (sh_preimages _ _ _ Sh). apply HK.
  - intros p c (n' & Hn' & Hc') Hp. apply (kp_ranked _ _ HK); [|done]. destruct (sh_back _ _ _ Sh p n' Hn') as (n & Hn & _ & _ & Hch2).
    assert (Hp0 : p ∉ [0]) by (by intros ?%list_elem_of_singleton). destruct (Hch2 Hp0) as [Ech _]. exists n. by rewrite <- Ech.
  - intros h b Hh Hz Hb. apply (kp_blobs _ _ HK); [done|done|]. by eapply Shrunk_Node; [apply HO| | |].
Qed.

Lemma flushed_kept d L r d' L' : Kept d L -> Flushed d L r d' L' -> Kept d' L'.
Proof.
  intros HK HF. pose proof (kp_order _ _ HK) as HO. split; [apply HF| |apply HF| |].
  - apply (newest_sublist d d' L L'); [apply HO|apply HO|apply HK|apply HF|apply HF].
  - intros p c Hc. apply (kp_ranked _ _ HK). by apply (fl_edges _ _ _ _ _ HF).
  - intros h b Hh Hz. destruct (fl_same _ _ _ _ _ HF h Hh) as [-> _]. by apply (kp_blobs _ _ HK).
Qed.

Definition cap_kept d L limit (HK : Kept d L) := Cap_ok limit d L (kp_keys _ _ HK) (kp_order _ _ HK).
Definition commit_kept d L node (HK : Kept d L) (Hz : node <> 0) := Commit_ok rank node d L (kp_keys _ _ HK) (kp_order _ _ HK) (kp_ranked _ _ HK) Hz.

Lemma step_kept d L d' : Kept d L -> dbStep d d' -> exists L', Kept d' L'.
Proof.
  intros HK [h d1 Hz Hh Hn [_ E]%Lock_free|child parent d1 Hz Hp Hr E|root d1 Hr E|h p Hh|limit r d1 E _|node r d1 Hz E _].
  - destruct (insert_kept d L h HK Hn Hz Hh) as (d2 & L2 & E2 & HK2 & _). assert (d2 = d1) as <- by congruence. by exists L2.
  - destruct (reference_kept d L child parent HK Hz Hp Hr) as (d2 & E2 & HK2 & _). assert (d2 = d1) as <- by congruence. by exists L.
  - destruct (dereference_kept d L root HK (proj1 (Lock_free _ _ _ E)) Hr) as (d2 & L2 & E2 & HK2 & _). assert (d2 = d1) as <- by congruence. by exists L2.
  - exists L. unfold insertPreimage. destruct (preimages d !! h) as [q|] eqn:Eq; [done|]. destruct HK as [K1 K2 K3 K4 K5].
    split; [by apply InOrder_setPreimages|done| |done|done]. split; [apply K3|]. cbn. intros x [->|Hx]%lookup_insert_is_Some'; [done|by apply (hk_preimages d K3)].
  - destruct (cap_kept d L limit HK) as (r2 & d2 & L2 & E2 & HF & _). assert (d2 = d1) as <- by congruence.
    exists L2. by eapply flushed_kept.
  - destruct (commit_kept d L node HK Hz) as (r2 & d2 & L2 & E2 & HF & _).
    assert (d2 = d1) as <- by congruence. exists L2. by eapply flushed_kept.
Qed.

(** Databases that a history leads to. *)
Definition reached (disk : Disk) (d : Database) : Prop :=
  (forall h b, is_hash h -> disk !! HashBytes h = Some b -> b = blobOf h) /\ rtc dbStep (NewDatabase disk) d.

Lemma reached_kept disk d : reached disk d -> exists L, Kept d L.
Proof.
  intros [Hd Hr]. remember (NewDatabase disk) as d0 eqn:E0. assert (HL0 : exists L, Kept d0 L) by (subst; exists []; by apply Kept_new).
  clear E0 Hd. induction Hr as [d|d1 d2 d3 Hs _ IH]; [done|]. apply IH. destruct HL0 as [L HL]. by eapply step_kept.
Qed.


(** Dereferencing a root removes garbage and nothing else: the nodes that are still
    referenced can be read as before; no node is left in the cache whose count has come
    down to zero; the other references of the roots and those of the nodes that stay in the
    cache stay; and nothing else appears. *)
Theorem dereferencing_collects_garbage disk d root :
  reached disk d -> readers d = 0 -> edge (nodes d) 0 root ->
  exists d', Dereference root 0 d = Ok d' /\
    (forall p h b, edge (nodes d') p h -> Node h d = Some b -> Node h d' = Some b) /\
    (forall h n, nodes d' !! h = Some n -> h <> 0 -> parents n = 0 -> exists n0, nodes d !! h = Some n0 /\ parents n0 = 0) /\
    (forall p c, edge (nodes d) p c -> is_Some (nodes d' !! p) -> p <> 0 \/ c <> root -> edge (nodes d') p c) /\
    (forall h b, h <> 0 -> Node h d' = Some b -> Node h d = Some b).
Proof.
  intros [L HK]%reached_kept Hrd Hr. destruct (dereference_kept d L root HK Hrd Hr) as (d' & L' & E & HK' & Sh & Hroot). exists d'.
  pose proof (io_sound _ _ _ (kp_order _ _ HK)) as HS. pose proof (io_sound _ _ _ (kp_order _ _ HK')) as HS'.
  assert (Hback : forall h b, h <> 0 -> Node h d' = Some b -> Node h d = Some b) by (intros h b; by apply (Shrunk_Node [0])).
  split_and!; [done| | | |done].
  - intros p h b (n & Hn & Hc) Hb. destruct (so_there d' HS' p n h Hn Hc) as [b' Hb']. destruct (so_child d' HS' p n h Hn Hc) as [Hz _].
    pose proof (Hback h b' Hz Hb'). congruence.
  - intros h n Hn Hz Hp. destruct (sh_back _ _ _ Sh h n Hn) as (n0 & Hn0 & _ & _ & Hx). exists n0. split; [done|].
    apply Hx; [by intros ?%list_elem_of_singleton|done].
  - intros p c Hpc [n' Hn'] Hne. destruct (decide (p = 0)) as [->|Hp]; [apply Hroot; [tauto|done]|].
    destruct Hpc as (n & Hn & Hc). destruct (sh_back _ _ _ Sh p n' Hn') as (n0 & Hn0 & _ & _ & Hx). assert (n0 = n) as -> by congruence.
    exists n'. split; [done|]. destruct Hx as [-> _]; [by intros ?%list_elem_of_singleton|done].
Qed.

(** C21. Flushing is invisible.  After [Cap] and [Commit], whether they succeed, a write
    fails, or they wait forever for the read lock that a failed [Commit] has kept, every node
    and every preimage reads as before, and unless they succeed the cache is left as it was.
    While no read lock is held they return.  If [Cap] succeeds, the cache is within the limit, or no node is left in it; if
    [Commit] succeeds, the node and all that it refers to through the cache is on the
    disk. *)
Theorem flushing_is_invisible disk d :
  reached disk d ->
  (forall limit, exists r d', Cap limit d = (r, d') /\ (r = Ok tt \/ r = Err WriteError \/ r = NoFuel /\ readers d <> 0) /\
     (forall h, is_hash h -> Node h d' = Node h d /\ preimage h d' = preimage h d) /\
     (r <> Ok tt -> nodes d' = nodes d) /\
     (r = Ok tt -> (forall h, h <> 0 -> nodes d' !! h = None) \/ (Size d').1 <= limit)) /\
  (forall node, node <> 0 -> exists r d', Commit node d = (r, d') /\ (r = Ok tt \/ r = Err WriteError \/ r = NoFuel /\ readers d <> 0) /\
     (forall h, is_hash h -> Node h d' = Node h d /\ preimage h d' = preimage h d) /\
     (r <> Ok tt -> nodes d' = nodes d) /\
     (r = Ok tt -> forall h n, rtc (edge (nodes d)) node h -> nodes d !! h = Some n -> diskdb d' !! HashBytes h = Some (blob n))).
Proof.
  intros [L HK]%reached_kept. split.
  - intros limit. destruct (cap_kept d L limit HK) as (r & d' & L' & E & HF & _ & _ & Hl). exists r, d'.
    split_and!; [done|apply HF|apply HF|apply HF|]. intros Hr. destruct (Hl Hr) as [->|?]; [left|by right]. intros h Hz.
    destruct (nodes d' !! h) as [n|] eqn:En; [|done]. destruct (io_covered _ _ _ (fl_order _ _ _ _ _ HF) h) as [Hx|Hx]; [by exists n|done|by apply not_elem_of_nil in Hx..].
  - intros node Hz. destruct (commit_kept d L node HK Hz) as (r & d' & L' & E & HF & Hp & _).
    exists r, d'. split_and!; [done|apply HF|apply HF|apply HF|]. intros Hr. by apply Hp.
Qed.
End Histories.

(** ** The lock *)

(** [Commit] keeps the read lock when writing the preimages fails, so that the next
    writer waits forever. *)
Lemma failed_commit_keeps_the_lock `{DiskWrites} `{MapOrder} node d s :
  putPreimages (mkSession (addReaders 1 d) NewBatch) = (Err WriteError, s) -> HashKeys d ->
  exists d', Commit node d = (Err WriteError, d') /\ readers d' = readers d + 1.
Proof.
  intros E HK. rewrite Commit_phases, E. exists (sdb s). split; [done|].
  pose proof (putPreimages_safe d HK _ (Phase_start d)) as Hs. unfold safe in Hs. rewrite E in Hs. by destruct Hs as [_ ->].
Qed.

(** ** A concrete database *)

Module NodeSample.
Definition blobOf (h : Hash) : list byte := replicate (Z.to_nat h) x01.
Definition rank (h : Hash) : nat := Z.to_nat h.
Definition writes : DiskWrites := {| writeOk := fun _ _ => true |}.
Definition noWrites : DiskWrites := {| writeOk := fun _ _ => false |}.
#[global] Instance order : MapOrder := {
  childOrder _ m := reverse (map_to_list m).*1;
  preimageOrder _ m := map_to_list m;
  childOrder_keys _ m := reverse_Permutation _;
  preimageOrder_entries _ m := reflexivity _
}.

Definition inserted (h : Hash) (d : Database) : Database := match Insert h (blobOf h) d with Ok d => d | _ => d end.
Definition referenced (c p : Hash) (d : Database) : Database := match reference c p d with Ok d => d | _ => d end.

(** Two roots, 2 and 3, that share the node 1. *)
Definition base : Database := inserted 3 (inserted 2 (inserted 1 (NewDatabase ∅))).
Definition linked : Database := referenced 1 3 (referenced 1 2 base).
Definition db : Database := referenced 3 0 (referenced 2 0 linked).

Lemma insert_step `{DiskWrites} h d : h <> 0 -> is_hash h -> (oldest d =? 0) || bool_decide (is_Some (nodes d !! newest d)) = true -> isOk (Insert h (blobOf h) d) = true ->
  dbStep blobOf rank d (inserted h d).
Proof.
  intros Hz Hh Hn E. assert (NewestOk d) by (apply orb_true_iff in Hn as [?|?]; [left|right]; by bools). unfold inserted. destruct (Insert h (blobOf h) d) as [d'|e| |] eqn:Ei; try done. by eapply step_insert.
Qed.

Lemma reference_step `{DiskWrites} c p d :
  c <> 0 -> bool_decide (is_Some (nodes d !! p)) = true -> (p <> 0 -> (rank c < rank p)%nat) -> isOk (reference c p d) = true -> dbStep blobOf rank d (referenced c p d).
Proof.
  intros Hz Hp%bool_decide_eq_true Hr E. unfold referenced. destruct (reference c p d) as [d'|e| |] eqn:Ei; try done. by eapply step_reference.
Qed.

Lemma db_reached `{DiskWrites} : reached blobOf rank ∅ db.
Proof.
  split; [intros h b _ Hb; by rewrite lookup_empty in Hb|]. unfold db, linked, base.
  assert (Hh : is_hash 1 /\ is_hash 2 /\ is_hash 3) by (unfold is_hash; lia). destruct Hh as (H1 & H2 & H3).
  eapply rtc_l; [apply (insert_step 1); [done|done|by vm_compute|by vm_compute]|].
  eapply rtc_l; [apply (insert_step 2); [done|done|by vm_compute|by vm_compute]|].
  eapply rtc_l; [apply (insert_step 3); [done|done|by vm_compute|by vm_compute]|].
  eapply rtc_l; [apply (reference_step 1 2); [done|by vm_compute|intros _; by apply Nat.ltb_lt|by vm_compute]|].
  eapply rtc_l; [apply (reference_step 1 3); [done|by vm_compute|intros _; by apply Nat.ltb_lt|by vm_compute]|].
  eapply rtc_l; [apply (reference_step 2 0); [done|by vm_compute|done|by vm_compute]|].
  eapply rtc_l; [apply (reference_step 3 0); [done|by vm_compute|done|by vm_compute]|]. apply rtc_refl.
Qed.

Lemma db_edge p c n : nodes db !! p = Some n -> bool_decide (is_Some (children n !! c)) = true -> edge (nodes db) p c.
Proof. intros Hn Hc%bool_decide_eq_true. by exists n. Qed.
End NodeSample.

(** When the newest node is removed, the next insertion panics: the end of the flush list is
    not moved. *)
Lemma removing_the_newest_breaks_insertion `{DiskWrites} :
  exists d, reached NodeSample.blobOf NodeSample.rank ∅ d /\ Insert 4 (NodeSample.blobOf 4) d = Panic.
Proof.
  destruct (Dereference 3 0 NodeSample.db) as [d|e| |] eqn:E; [|by vm_compute in E..]. exists d. split.
  - destruct NodeSample.db_reached as [Hd Hr]. split; [done|]. eapply rtc_r; [exact Hr|]. eapply step_dereference; [|exact E].
    eapply NodeSample.db_edge; [by vm_compute|by vm_compute].
  - vm_compute in E. injection E as <-. by vm_compute.
Qed.


Lemma dereferencing_collects_garbage_witness :
  exists d', Dereference 3 0 NodeSample.db = Ok d' /\ Node 1 d' = Some (NodeSample.blobOf 1) /\ Node 3 d' = None.
Proof.
  destruct (@dereferencing_collects_garbage NodeSample.writes NodeSample.order NodeSample.blobOf NodeSample.rank ∅ NodeSample.db 3 NodeSample.db_reached eq_refl)
    as (d' & E & H1 & _ & H3 & _); [eapply NodeSample.db_edge; [by vm_compute|by vm_compute]|].
  exists d'. split; [done|]. split.
  - apply (H1 2); [|by vm_compute]. apply H3; [eapply NodeSample.db_edge; [by vm_compute|by vm_compute]| |by left]. vm_compute in E. injection E as <-. eexists. vm_compute. reflexivity.
  - vm_compute in E. injection E as <-. by vm_compute.
Defined.

Lemma flushing_is_invisible_witness :
  exists r d', @Cap NodeSample.noWrites NodeSample.order 0 NodeSample.db = (r, d') /\ Node 1 d' = Node 1 NodeSample.db /\ (r <> Ok tt -> nodes d' = nodes NodeSample.db).
Proof.
  destruct (@flushing_is_invisible NodeSample.noWrites NodeSample.order NodeSample.blobOf NodeSample.rank ∅ NodeSample.db NodeSample.db_reached) as [H1 _].
  destruct (H1 0) as (r & d' & E & _ & Hs & Hf & _). exists r, d'. split_and!; [done| |done]. apply Hs. unfold is_hash. lia.
Defined.
