(* ===== verification/TrieProve.v ===== *)
(** * Package trie: Merkle proofs

    [Prove] collects the encoded nodes on the path to a key; [VerifyProof] follows them from
    the root hash (src/trie/proof.go).  The proof is what [Put] is called with; an error of
    [Put] is only logged.  The database of proofs that [VerifyProof] reads is a function.

    After the definitions: the path of a key in a tree, what following one node of a proof
    finds, what [Prove] puts into a proof; then that a proof cannot convince of a wrong value,
    and that there is a proof for every key of a trie that is not empty. *)

From stdpp Require Import base numbers list gmap option.
From Stdlib Require Import ZArith Lia Strings.Byte.
From S2P Require Import Prelude Rlp RlpDecodeProofs Common Types Toy TrieDatabase Trie TrieTree TrieEncode TrieWalk TrieDbProofs TrieHash TrieProofs TrieProperties TrieDbFlush.
Import trie.

Module proof.
Section Proofs.
Context `{Crypto}.

(** [if len(key) < len(k) || !bytes.Equal(k, key[:len(k)])]: what is left of the key, or
    nothing. *)
Definition cut (k key : list byte) : option (list byte) :=
  if (length key <? length k)%nat || negb (bool_decide (k = take (length k) key)) then None
  else Some (drop (length k) key).

(** ** Prove *)

(** The nodes on the path, loaded where they are not. *)
Fixpoint path (db : triedb.Database) (cachegen : Z) (fuel : nat) (tn : node) (key : list byte) : result trieErr (list node) :=
  match fuel with
  | O => NoFuel
  | S fuel =>
      match key, tn with
      | [], _ | _, nilNode => Ok []
      | x :: rest, shortNode k val _ =>
          let* below := match cut k key with
                        | None => Ok []
                        | Some r => path db cachegen fuel val r
                        end in
          Ok (tn :: below)
      | x :: rest, fullNode cs _ =>
          let* c := child cs x in
          let* below := path db cachegen fuel c rest in
          Ok (tn :: below)
      | _, hashNode h =>
          let* rn := resolveHash db cachegen h [] in
          path db cachegen fuel rn key
      | _, valueNode _ => Panic
      end
  end.

(** A node becomes an element of the proof if it is stored under its hash, or is the root:
    its hash and its encoding. *)
Definition element (first : bool) (n : node) : result trieErr (option (list byte * list byte)) :=
  let collapse := hashChildren (fun c db => hash 0 0 None c db false) n None in
  let* c := match collapse with Ok (c, _, _) => Ok c | Err _ => Ok n | Panic => Panic | NoFuel => NoFuel end in
  let* hn := match store None c None false with Ok (hn, _) => Ok hn | Err _ => Ok nilNode | Panic => Panic | NoFuel => NoFuel end in
  let enc := rlpEncode (nodeRLP c) in
  Ok match hn with
     | hashNode hash => Some (hash, enc)
     | _ => if first then Some (HashBytes (Keccak256 enc), enc) else None
     end.

(** The first [fromLevel] elements are left out. *)
Fixpoint elements (first : bool) (fromLevel : nat) (ns : list node) : result trieErr (list (list byte * list byte)) :=
  match ns with
  | [] => Ok []
  | n :: ns =>
      let* e := element first n in
      match e, fromLevel with
      | None, _ => elements false fromLevel ns
      | Some _, S level => elements false level ns
      | Some kv, O => let* kvs := elements false O ns in Ok (kv :: kvs)
      end
  end.

Definition Prove (db : triedb.Database) (t : Trie) (key : list byte) (fromLevel : nat) : result trieErr (list (list byte * list byte)) :=
  let key := keybytesToHex key in
  let* ns := path db (cachegen t) (walkFuel key) (root t) key in
  elements true fromLevel ns.

(** ** VerifyProof *)

Inductive proofErr :=
| proofNodeMissing (i : Z) (hash : list byte)
| badProofNode (i : Z) (err : decodeErr).

(** Down to a node that is not embedded, a value, or the end. *)
Fixpoint get (tn : node) (key : list byte) {struct tn} : result proofErr (list byte * node) :=
  match tn with
  | shortNode k val _ =>
      match cut k key with
      | None => Ok ([], nilNode)
      | Some r => get val r
      end
  | fullNode cs _ =>
      match key with
      | [] => Panic
      | x :: rest =>
          (fix pick (i : nat) (cs : list node) {struct cs} : result proofErr (list byte * node) :=
             match cs with
             | [] => Panic
             | c :: cs => match i with O => get c rest | S i => pick i cs end
             end) (index x) cs
      end
  | hashNode _ | nilNode => Ok (key, tn)
  | valueNode _ => Ok ([], tn)
  end.

(** [copy(wantHash[:], cld)] *)
Definition copyHash (cld wantHash : list byte) : list byte := take 32 cld ++ drop (length cld) wantHash.

(** The value, and the number of nodes that were used. *)
Fixpoint verifyFrom (fuel : nat) (i : Z) (wantHash key : list byte) (proofDb : list byte -> option (list byte))
    : result proofErr (list byte * Z) :=
  match fuel with
  | O => NoFuel
  | S fuel =>
      match proofDb wantHash with
      | None => Err (proofNodeMissing i wantHash)
      | Some buf =>
          let* n := match decodeNode (S (length buf)) (Some wantHash) buf 0 with
                    | Ok n => Ok n
                    | Err e => Err (badProofNode i e)
                    | Panic => Panic
                    | NoFuel => NoFuel
                    end in
          let* (keyrest, cld) := get n key in
          match cld with
          | nilNode => Ok ([], i)
          | hashNode h => verifyFrom fuel (i + 1) (copyHash h wantHash) keyrest proofDb
          | valueNode v => Ok (v, i + 1)
          | _ => verifyFrom fuel (i + 1) wantHash key proofDb
          end
      end
  end.

Definition VerifyProof (fuel : nat) (rootHash : Hash) (key : list byte) (proofDb : list byte -> option (list byte)) : result proofErr (list byte * Z) :=
  verifyFrom fuel 0 (HashBytes rootHash) (keybytesToHex key) proofDb.
End Proofs.
End proof.

(** * Paths and proofs *)

(** ** Paths *)

(** The subtrees that a lookup visits. *)
Fixpoint tpath (t : tree) (key : list byte) {struct t} : list tree :=
  match key with
  | [] => []
  | x :: rest =>
      match t with
      | TNil | TValue _ => []
      | TShort k u => t :: match strip k key with Some r => tpath u r | None => [] end
      | TFull ts =>
          t :: (fix pick (i : nat) (ts : list tree) {struct ts} : list tree :=
                  match ts with
                  | [] => []
                  | t :: ts => match i with O => tpath t rest | S i => pick i ts end
                  end) (index x) ts
      end
  end.

Lemma tpath_nil t : tpath t [] = [].
Proof. by destruct t. Qed.

Lemma tpath_full ts x rest : tpath (TFull ts) (x :: rest) = TFull ts :: match ts !! index x with Some t => tpath t rest | None => [] end.
Proof.
  cbn [tpath]. f_equal. generalize (index x) as i. induction ts as [|t ts IH]; intros [|i]; cbn [lookup list_lookup]; [done..|]. apply IH.
Qed.

Lemma tpath_short k u key : key <> [] -> tpath (TShort k u) key = TShort k u :: match strip k key with Some r => tpath u r | None => [] end.
Proof. by destruct key. Qed.

Lemma tpath_head t key : sub t -> key <> [] -> t ∈ tpath t key.
Proof. intros Hs Hk. destruct key as [|x key]; [done|]. inversion Hs; subst; by left. Qed.

Lemma cut_strip k key : proof.cut k key = strip k key.
Proof.
  unfold proof.cut. destruct (strip k key) as [r|] eqn:E.
  - apply strip_Some in E as ->. rewrite length_app, (proj2 (Nat.ltb_ge _ _)) by lia. rewrite take_app_length, bool_decide_true by done.
    cbn [negb orb]. by rewrite drop_app_length.
  - destruct (Nat.ltb_spec (length key) (length k)) as [?|Hl]; [done|]. case_bool_decide as Hk; [|done]. exfalso.
    assert (Hs : strip k key = Some (drop (length k) key)) by (apply strip_Some; rewrite Hk at 1; by rewrite take_drop). congruence.
Qed.

Lemma get_full cs fl x rest : proof.get (fullNode cs fl) (x :: rest) = match cs !! index x with Some c => proof.get c rest | None => Panic end.
Proof.
  cbn [proof.get]. generalize (index x) as i. induction cs as [|c cs IH]; intros [|i]; cbn [lookup list_lookup]; [done..|]. apply IH.
Qed.

Lemma hexKey_nonempty key : hexKey key -> key <> [].
Proof. by destruct key. Qed.

(** ** One node of a proof *)

Section Proofs.
Context `{Crypto}.

(** What [get] finds on the way: the end, the value, or a subtree in another node. *)
Inductive Found (t : tree) (key : list byte) : list byte -> node -> Prop :=
| found_nil r : tget t key = [] -> Found t key r nilNode
| found_value r : tget t key <> [] -> Found t key r (valueNode (tget t key))
| found_hash u r :
    sub u -> small u = false -> below u t -> hexKey r -> tget t key = tget u r -> (length r < length key)%nat ->
    (forall w, w ∈ tpath u r -> w ∈ tpath t key) -> Found t key r (hashNode (hashOf u)).

Lemma below_trans a b c : below a b -> below b c -> below a c.
Proof. intros Hab Hbc. induction Hbc; eauto using below. Qed.

(** From a child to its parent. *)
Lemma Found_up t key t' key' r n :
  Found t' key' r n -> tget t key = tget t' key' -> below t' t -> (length key' <= length key)%nat ->
  (forall w, w ∈ tpath t' key' -> w ∈ tpath t key) -> Found t key r n.
Proof.
  intros [r0 Hn|r0 Hv|u r0 Hs Hsm Hb Hk Hg Hl Hp] E Hbel Hlen Hpath.
  - constructor. congruence.
  - rewrite <- E in *. by constructor.
  - econstructor; eauto; [by eapply below_trans|congruence|lia].
Qed.

(** The reference to a subtree: the subtree itself, or its hash. *)
Lemma get_ref t key t' key' :
  sub t' -> hexKey key' -> (forall hash, exists r n, proof.get (loaded hash 0 t') key' = Ok (r, n) /\ Found t' key' r n) ->
  tget t key = tget t' key' -> below t' t -> (length key' < length key)%nat -> (forall w, w ∈ tpath t' key' -> w ∈ tpath t key) ->
  exists r n, proof.get (refNode 0 t') key' = Ok (r, n) /\ Found t key r n.
Proof.
  intros Hs Hk IH E Hb Hl Hp. rewrite refNode_sub by done. destruct (small t') eqn:Esm.
  - destruct (IH None) as (r & n & Eg & Hf). exists r, n. split; [done|]. eapply Found_up; eauto. lia.
  - exists key', (hashNode (hashOf t')). split; [done|]. by constructor.
Qed.

Lemma get_loaded t : sub t -> forall hash key, hexKey key -> exists r n, proof.get (loaded hash 0 t) key = Ok (r, n) /\ Found t key r n.
Proof.
  induction 1 as [k v Hk Hv|k ts Hne Hk Hs IH|ts Hl Hs IH H16 Hb]; intros hash key Hkey; pose proof (hexKey_nonempty _ Hkey) as Hnk.
  - cbn [loaded proof.get]. rewrite cut_strip. destruct (strip k key) as [r|] eqn:E.
    + apply strip_Some in E as ->. assert (r = []) as -> by (by apply (hexKey_prefix_free k)). eexists _, _. split; [reflexivity|].
      assert (Ev : tget (TShort k (TValue v)) (k ++ []) = v) by (by rewrite tget_short_app). rewrite <- Ev at 2. constructor. by rewrite Ev.
    + eexists _, _. split; [reflexivity|]. constructor. cbn [tget]. by rewrite E.
  - change (loaded hash 0 (TShort k (TFull ts))) with (shortNode k (refNode 0 (TFull ts)) (mkFlag hash 0 false)). cbn [proof.get]. rewrite cut_strip.
    destruct (strip k key) as [r|] eqn:E; [|eexists _, _; split; [reflexivity|]; constructor; cbn [tget]; by rewrite E].
    pose proof E as E'. apply strip_Some in E as ->. assert (Hr : hexKey r) by (by apply hexKey_app in Hkey).
    apply get_ref; [done|done|by intros; apply IH|by rewrite tget_short_app|constructor; constructor| |].
    + rewrite length_app. destruct k; [done|cbn; lia].
    + intros w Hw. rewrite tpath_short, E' by done. by right.
  - change (loaded hash 0 (TFull ts)) with (fullNode (refNode 0 <$> ts) (mkFlag hash 0 false)). destruct key as [|x rest]; [done|].
    rewrite get_full, list_lookup_fmap. destruct (full_child ts x rest) as (t & Ht & Hsit); [by constructor|done|]. rewrite Ht. cbn [fmap option_fmap option_map].
    assert (Eg : tget (TFull ts) (x :: rest) = tget t rest) by (by rewrite tget_full, Ht).
    assert (Hbel : below t (TFull ts)) by (econstructor; [done|constructor]).
    destruct (decide (t = TNil)) as [->|Hnil]; [eexists _, _; split; [reflexivity|]; by constructor|].
    destruct (decide (rest = [])) as [->|Hrest].
    + destruct Hsit as [?|(v & Hv & ->)]; [done|]. eexists _, _. split; [reflexivity|]. change (tget (TValue v) []) with v in Eg. rewrite <- Eg. constructor. by rewrite Eg.
    + destruct rest as [|y rest]; [done|]. destruct Hsit as [Hkr [?|Hst]]; [done|].
      assert (Hi : (index x < 16)%nat) by (destruct Hkey as [[_ ?]|[Hx _]]; [done|by apply nibble_index]).
      apply get_ref; [done|done|intros h; by eapply IH|done|done|cbn; lia|]. intros w Hw. rewrite tpath_full, Ht. by right.
Qed.

(** ** Following a proof *)

Lemma below_sized u t : below u t -> sized t -> sized u.
Proof.
  induction 1 as [t|u k t Hb IH|u i t ts Ht Hb IH]; intros Hz; [done|apply IH; by destruct Hz|].
  apply IH. apply sized_full in Hz. by eapply Forall_lookup_1.
Qed.

Lemma copyHash_hash u w : length w = 32%nat -> proof.copyHash (hashOf u) w = hashOf u.
Proof.
  intros Hw. unfold proof.copyHash. rewrite length_hashOf, take_ge by (rewrite length_hashOf; lia). rewrite drop_ge by lia. apply app_nil_r.
Qed.

Lemma decode_proof t : sub t -> sized t -> decodeNode (S (length (encT t))) (Some (hashOf t)) (encT t) 0 = Ok (loaded (Some (hashOf t)) 0 t).
Proof.
  intros Hs Hz. pose proof (encT_bound t Hs Hz) as Hb. pose proof (decodeNode_ok t Hs (S (length (encT t))) (Some (hashOf t)) [] 0) as E.
  rewrite app_nil_r in E. apply E; lia || done.
Qed.

(** Where the proof has the subtrees or nothing under their hashes, following it finds the
    value, or a node on the path that is missing. *)
Lemma verifyFrom_ok (proofDb : list byte -> option (list byte)) T :
  (forall u b, below u T -> sub u -> proofDb (hashOf u) = Some b -> b = encT u) ->
  forall fuel i t key, below t T -> sub t -> sized t -> hexKey key -> (length key < fuel)%nat ->
  (exists j, proof.verifyFrom fuel i (hashOf t) key proofDb = Ok (tget t key, j)) \/
  (exists u j, u ∈ tpath t key /\ (u = t \/ small u = false) /\ proofDb (hashOf u) = None /\
     proof.verifyFrom fuel i (hashOf t) key proofDb = Err (proof.proofNodeMissing j (hashOf u))).
Proof.
  intros HT. induction fuel as [|fuel IH]; intros i t key Hb Hs Hz Hk Hf; [lia|]. cbn [proof.verifyFrom].
  destruct (proofDb (hashOf t)) as [buf|] eqn:Ep.
  2:{ right. exists t, i. split_and!; [apply tpath_head; [done|by apply hexKey_nonempty]|by left|done|done]. }
  assert (buf = encT t) as -> by (by eapply HT). rewrite decode_proof by done. cbn [rbind].
  destruct (get_loaded t Hs (Some (hashOf t)) key Hk) as (r & n & -> & Hf'). cbn [rbind].
  destruct Hf' as [r Hn|r Hv|u r Hsu Hsm Hbu Hkr Eg Hl Hp].
  - left. exists i. by rewrite Hn.
  - left. by eexists.
  - rewrite copyHash_hash by apply length_hashOf.
    destruct (IH (i + 1) u r) as [[j E]|(w & j & Hw & Hsw & Hn & E)]; [by eapply below_trans|done|by eapply below_sized|done|lia| |].
    + left. exists j. by rewrite E, Eg.
    + right. exists w, j. split_and!; [by apply Hp| |done|done]. right. destruct Hsw as [->|?]; done.
Qed.

(** ** Making a proof *)

(** A loaded node of a trie, and the subtree that it stands for. *)
Definition OnPath (d : triedb.Database) (T : tree) (m : node) (u : tree) : Prop :=
  isStruct m = true /\ sub u /\ below u T /\ exists top, Rep d top m u.

Lemma OnPath_up d t T m u : below t T -> OnPath d t m u -> OnPath d T m u.
Proof. intros Hb (H1 & H2 & H3 & H4). split_and!; [done|done|by eapply below_trans|done]. Qed.

Lemma path_ok d g fuel : forall top n t key,
  Rep d top n t -> sits key t -> (2 * length key + hashy n < fuel)%nat ->
  exists ns, proof.path d g fuel n key = Ok ns /\ Forall2 (OnPath d t) ns (tpath t key).
Proof.
  induction fuel as [|fuel IH]; intros top n t key Hr Hsit Hf; [lia|]. cbn [proof.path]. destruct key as [|x rest].
  { exists []. rewrite tpath_nil. split; [done|constructor]. }
  destruct Hsit as [Hk Hc]. inversion Hr as [| |? k n' u fl Hn Hfl|? ns ts fl Hl Hn Hfl|? h t' Hh H1 Hz Ht Hd Hst]; subst.
  - exists []. split; [done|constructor].
  - destruct Hc as [?|Hs]; [done|inversion Hs].
  - destruct Hc as [?|Hs]; [done|]. rewrite tpath_short by done.
    assert (H0 : OnPath d (TShort k u) (shortNode k n' fl) (TShort k u)) by (split_and!; [done|done|constructor|by exists top]).
    rewrite cut_strip. destruct (strip k (x :: rest)) as [r|] eqn:E; [|eexists; split; [reflexivity|]; constructor; [done|constructor]].
    apply strip_Some in E. rewrite E in Hk, Hf. destruct (short_below k u r Hs Hk) as (Hsits & Hne & _).
    destruct (IH false n' u r Hn Hsits) as (ms & -> & Hms).
    { rewrite length_app in Hf. destruct k; [done|]. cbn [length hashy isHash] in Hf. unfold hashy. destruct (isHash n'); lia. }
    eexists. split; [reflexivity|]. constructor; [done|]. eapply Forall2_impl; [|exact Hms]. intros m w. apply OnPath_up. constructor. constructor.
  - destruct Hc as [?|Hs]; [done|]. destruct (full_child ts x rest Hs Hk) as (u & Hu & Hsits).
    destruct (Rep_child _ _ _ _ _ _ _ Hr Hu) as (m & Hm & Hrm). rewrite tpath_full, Hu. unfold child. rewrite Hm. cbn [deref rbind].
    destruct (IH false m u rest Hrm Hsits) as (ms & -> & Hms); [cbn [length hashy isHash] in Hf; unfold hashy; destruct (isHash m); lia|].
    eexists. split; [reflexivity|]. constructor; [split_and!; [done|done|constructor|by exists top]|].
    eapply Forall2_impl; [|exact Hms]. intros m' w. apply OnPath_up. econstructor; [done|constructor].
  - destruct (resolveHash_ok d top g (hashOf t) t [] Hr) as (m & -> & Hm & Hh). cbn [rbind].
    apply (IH top m t (x :: rest)); [done|by split|]. unfold hashy in *. rewrite Hh. cbn [isHash] in Hf. lia.
Qed.

(** A node with its children replaced by their references has the encoding of its tree. *)
Lemma collapse_ok d top m u :
  isStruct m = true -> sub u -> sized u -> Rep d top m u ->
  exists c k, hashChildren (fun c db => hash 0 0 None c db false) m None = Ok (c, k, None) /\ isStruct c = true /\ nodeRLP c = treeRLP u /\
    ((cache c).1 = None \/ (cache c).1 = Some (hashOf u)).
Proof.
  intros Hm Hs Hz Hr. assert (HD : Distinct (fun _ => False)) by done.
  assert (Hok : forall t, sub t -> sized t -> HashOk (fun _ => False) 0 0 None t) by (intros t H1 H2; by apply hash_spec).
  assert (Hcache : forall fl, FlagOk d top fl u -> fHash fl = None \/ fHash fl = Some (hashOf u)).
  { intros fl Hf. unfold FlagOk in Hf. destruct (fHash fl); [right; by destruct Hf as (-> & _)|by left]. }
  inversion Hr as [| |? k n v fl Hn Hf|? ns ts fl Hl Hn Hf|]; subst; try discriminate Hm; cbn [hashChildren].
  - destruct Hz as [_ Hz]. assert (H1 : exists c k', (match n with valueNode _ => Ok (n, n, None) | _ => hash 0 0 None n None false end) = Ok (c, k', None) /\
      nodeRLP c = treeRef v /\ isNil c = false).
    { inversion Hs as [? w Hk Hw|? ts Hne Hk Hst|]; subst.
      - inversion Hn as [| | | |? ? ? _ Hs']; subst; [|by inversion Hs']. by eexists _, _.
      - replace (match n with valueNode _ => Ok (n, n, None) | _ => hash 0 0 None n None false end) with (hash 0 0 None n None false)
          by (inversion Hn; subst; done).
        destruct (hash_child (fun _ => False) 0 0 None false d n (TFull ts)) as (c & k' & d' & E & _ & _ & _ & _ & H1 & H2 & _); try done; [by apply Hok|].
        by exists c, k'. }
    destruct H1 as (c & k' & -> & H1 & H2). cbn [rbind]. eexists _, _. split; [reflexivity|]. split_and!; [done| |by apply Hcache].
    cbn [nodeRLP treeRLP]. unfold orEmpty. by rewrite H2, H1.
  - inversion Hs as [| |? Hlen Hsub H16 _]; subst.
    destruct (hashKids_ok (fun _ => False) 0 0 None false ts 0 d ns) as (ccs & kcs & d1 & E & _ & _ & _ & _ & Hrlp & _); [by rewrite Hlen|done|done| |].
    { intros j n t Hj Ht. split; [by eapply Hn|]. apply lookup_lt_Some in Ht as Hlt. rewrite Nat.add_0_l. apply sized_full in Hz.
      pose proof (Forall_lookup_1 _ _ _ _ Hz Ht) as Hzt. destruct (decide (t = TNil)) as [->|Hne].
      - split_and!; [by left| |]; [by intros _ (? & _ & ?)|intros _ Hs'; inversion Hs'].
      - destruct (decide (j = 16%nat)) as [->|Hj16].
        + specialize (H16 t Ht Hne). split_and!; [by right; left|lia|]. intros _ Hs'. destruct H16 as (v & _ & ->). inversion Hs'.
        + specialize (Hsub j t Ht Hne ltac:(lia)). split_and!; [right; right; split_and!; [done|by apply Hok|done]| |lia].
          intros _ (v & _ & ->). inversion Hsub. }
    cbn [given] in E. rewrite E. cbn [rbind]. eexists _, _. split; [reflexivity|]. split_and!; [done| |by apply Hcache].
    cbn [nodeRLP treeRLP]. by rewrite Hrlp.
Qed.

Lemma element_ok first d T m u :
  sized u -> OnPath d T m u ->
  proof.element first m = Ok (if first || negb (small u) then Some (hashOf u, encT u) else None).
Proof.
  intros Hz (Hm & Hs & _ & top & Hr). destruct (collapse_ok d top m u Hm Hs Hz Hr) as (c & k & E & Hc & Hrlp & Hca).
  unfold proof.element. rewrite E. cbn [rbind]. pose proof (encode_tree u Hs Hz) as Ee. rewrite Hrlp, Ee.
  assert (HD : Distinct (fun _ => False)) by done.
  destruct (store_hashes (fun _ => False) HD None I false d c false u) as (hashed & d' & Est & _ & _ & _ & Hh & _); try done.
  cbn [given] in Est. rewrite Est. cbn [rbind]. unfold Hashed in Hh. cbn [orb] in Hh. destruct (small u); cbn [negb] in *.
  - rewrite orb_false_r. destruct Hh as (_ & Hnh & _). destruct hashed; try done; by destruct first.
  - rewrite orb_true_r. by subst.
Qed.

(** What a proof holds. *)
Definition proofOf (first : bool) (us : list tree) : list tree :=
  match us with [] => [] | u :: us => (if first || negb (small u) then [u] else []) ++ filter (fun u => small u = false) us end.

Lemma elements_ok d T ns : forall us first,
  Forall2 (OnPath d T) ns us -> Forall sized us ->
  proof.elements first 0 ns = Ok ((fun u => (hashOf u, encT u)) <$> proofOf first us).
Proof.
  induction ns as [|m ns IH]; intros us first Hf Hz; inversion Hf as [|? u ? us' Hu Hus]; subst; [done|].
  cbn [proof.elements]. pose proof (Forall_inv Hz) as Hzu. pose proof (Forall_inv_tail Hz) as Hzs. rewrite (element_ok first d T m u) by done. cbn [rbind].
  assert (Hp : proofOf false us' = filter (fun u => small u = false) us').
  { destruct us' as [|w us']; [done|]. cbn [proofOf orb]. rewrite filter_cons. destruct (small w) eqn:E; cbn [negb]; case_decide; done. }
  rewrite (IH us' false) by done. rewrite Hp. cbn [proofOf]. destruct (first || negb (small u)); done.
Qed.
End Proofs.

(** * Properties of Merkle proofs *)

(** Enough rounds for a key: one for each nibble. *)
Definition verifyFuel (key : list byte) : nat := S (length (keybytesToHex key)).

Lemma keyB_of a t `{Crypto} : HashBytes (Keccak256 a) = hashOf t -> BytesToHash (HashBytes (Keccak256 a)) = BytesToHash (HashBytes (Keccak256 (encT t))).
Proof. intros ->. reflexivity. Qed.

(** The node of a proof under the hash of a subtree is the subtree. *)
Lemma proof_agrees `{Crypto} P (proofDb : list byte -> option (list byte)) T :
  Distinct P -> Known P T -> (forall h b, proofDb h = Some b -> P b /\ HashBytes (Keccak256 b) = h) ->
  forall u b, below u T -> sub u -> proofDb (hashOf u) = Some b -> b = encT u.
Proof.
  intros HP Hk Hdb u b Hb Hs E. destruct (Hdb _ _ E) as [H1 H2]. apply (dist_inj P HP); [done|by apply Hk|]. by apply keyB_of.
Qed.

(** C19. A proof cannot lie.  Whatever nodes a proof consists of, each under its hash,
    [VerifyProof] against the root hash of a trie ends after at most one round for each
    nibble of the key, without a panic, and returns the value that the trie has under the
    key, which is empty if there is none, or the error that a node is missing.  It takes that
    the hash tells the nodes of the proof and of the trie apart. *)
Theorem proofs_cannot_lie `{Crypto} P d t T h u (proofDb : list byte -> option (list byte)) key :
  Distinct P -> Stands d t T -> bounded T -> Known P T -> rootHash t = Ok (h, u) ->
  (forall h b, proofDb h = Some b -> P b /\ HashBytes (Keccak256 b) = h) ->
  exists j, proof.VerifyProof (verifyFuel key) h key proofDb = Ok (content T key, j) \/
    exists h', proof.VerifyProof (verifyFuel key) h key proofDb = Err (proof.proofNodeMissing j h').
Proof.
  intros HP Hst Hb Hk Eh Hdb. destruct (rootHash_stands d t T Hst Hb) as (u' & E & _). rewrite E in Eh. injection Eh as <- <-.
  unfold proof.VerifyProof, verifyFuel. destruct (st_canonical _ _ _ Hst) as [->|Hs].
  - exists 0. right. cbn [proof.verifyFrom]. destruct (proofDb (HashBytes (rootOf TNil))) as [b|] eqn:Ep; [|by eexists]. exfalso.
    destruct (Hdb _ _ Ep) as [H1 H2]. apply (dist_empty P HP b H1). rewrite H2. exact emptyRoot_bytes.
  - rewrite rootOf_sub, HashBytes_BytesToHash by (done || apply length_hashOf).
    destruct (verifyFrom_ok proofDb T (proof_agrees P proofDb T HP Hk Hdb) (S (length (keybytesToHex key))) 0 T (keybytesToHex key))
      as [[j Ej]|(w & j & _ & _ & _ & Ej)]; [constructor|done|by apply bounded_sized|apply hexKey_keybytes|lia| |].
    + exists j. by left.
    + exists j. right. by exists (hashOf w).
Qed.

(** What a proof consists of. *)
Lemma proofOf_elem `{Crypto} us w : w ∈ proofOf true us -> w ∈ us.
Proof.
  destruct us as [|u us]; [done|]. cbn [proofOf orb]. intros [Hw|Hw]%elem_of_app.
  - apply list_elem_of_singleton in Hw as ->. by left.
  - apply list_elem_of_filter in Hw as [_ Hw]. by right.
Qed.

Lemma proofOf_has `{Crypto} t key w : sub t -> key <> [] -> w ∈ tpath t key -> w = t \/ small w = false -> w ∈ proofOf true (tpath t key).
Proof.
  intros Hs Hk Hin Hw. assert (Hh : exists us, tpath t key = t :: us).
  { destruct key as [|x key]; [done|]. inversion Hs; subst; by eexists. }
  destruct Hh as [us Eu]. rewrite Eu in *. cbn [proofOf orb]. apply elem_of_app. apply elem_of_cons in Hin as [->|Hin]; [left; by left|].
  destruct Hw as [->|Hsm]; [left; by left|]. right. by apply list_elem_of_filter.
Qed.

(** Reading back what was put. *)
Lemma put_proof_has (kvs : list (list byte * list byte)) k v : (k, v) ∈ kvs -> triedb.writeAll kvs ∅ !! k <> None.
Proof.
  intros Hin. destruct (writeAll_lookup kvs ∅ k) as [[_ Hk]|(v' & E & _)]; [|by rewrite E]. exfalso. apply Hk. apply list_elem_of_fmap. by exists (k, v).
Qed.

Lemma put_proof_only (kvs : list (list byte * list byte)) k v : triedb.writeAll kvs ∅ !! k = Some v -> (k, v) ∈ kvs.
Proof.
  intros E. destruct (writeAll_lookup kvs ∅ k) as [[E' _]|(v' & E' & Hin)]; [by rewrite E, lookup_empty in E'|]. congruence.
Qed.

(** C20. Every key has a proof.  For a trie that is not empty, whichever of its nodes are
    loaded, [Prove] returns without an error or a panic, and [VerifyProof] accepts what it
    puts into the proof and returns the value that the trie has under the key, or the empty
    value if it has none. *)
Theorem every_key_has_a_proof `{Crypto} P d t T h u key :
  Distinct P -> Stands d t T -> bounded T -> Known P T -> T <> TNil -> rootHash t = Ok (h, u) ->
  exists kvs j, proof.Prove d t key 0 = Ok kvs /\
    proof.VerifyProof (verifyFuel key) h key (fun k => triedb.writeAll kvs ∅ !! k) = Ok (content T key, j).
Proof.
  intros HP Hst Hb Hk Hne Eh. destruct (rootHash_stands d t T Hst Hb) as (u' & E & _). rewrite E in Eh. injection Eh as <- <-.
  destruct (st_canonical _ _ _ Hst) as [?|Hs]; [done|]. set (k := keybytesToHex key). assert (Hkk : hexKey k) by apply hexKey_keybytes.
  destruct (path_ok d (cachegen t) (walkFuel k) true (root t) T k (st_rep _ _ _ Hst) (sits_hex T key (or_intror Hs)) (walkFuel_enough _ _))
    as (ns & Ep & Hns).
  assert (Hus : Forall (fun u => sized u /\ below u T /\ sub u) (tpath T k)).
  { apply Forall_forall. intros w Hw%list_elem_of_In. apply list_elem_of_lookup_1 in Hw as [i Hi].
    destruct (Forall2_lookup_r _ _ _ _ _ Hns Hi) as (m & _ & _ & Hsw & Hbw & _). split_and!; [|done|done]. by eapply below_sized, bounded_sized. }
  assert (Hin : forall w, w ∈ tpath T k -> sized w /\ below w T /\ sub w) by (intros w Hw; by eapply Forall_forall in Hus; [|apply list_elem_of_In]).
  set (kvs := (fun u => (hashOf u, encT u)) <$> proofOf true (tpath T k)).
  assert (Ekvs : proof.Prove d t key 0 = Ok kvs).
  { unfold proof.Prove. fold k. rewrite Ep. cbn [rbind]. eapply elements_ok; [done|]. eapply Forall_impl; [|exact Hus]. by intros w (? & _). }
  exists kvs. unfold proof.VerifyProof, verifyFuel. fold k. rewrite rootOf_sub, HashBytes_BytesToHash by (done || apply length_hashOf).
  destruct (verifyFrom_ok (fun k => triedb.writeAll kvs ∅ !! k) T) with (fuel := S (length k)) (i := 0) (t := T) (key := k)
    as [[j Ej]|(w & j & Hw & Hsw & Hn & _)]; [|constructor|done|by apply bounded_sized|done|lia|by exists j|].
  - intros w b Hbw Hsw Hr. apply put_proof_only, list_elem_of_fmap in Hr as (w' & Ew & Hw'). pose proof (f_equal fst Ew) as E1. pose proof (f_equal snd Ew) as E2. cbn [fst snd] in E1, E2. rewrite E2.
    apply proofOf_elem in Hw'. destruct (Hin w' Hw') as (_ & Hb' & Hs'). apply (dist_inj P HP); [by apply Hk|by apply Hk|]. apply keyB_of. exact (eq_sym E1).
  - exfalso. eapply put_proof_has; [|exact Hn]. apply list_elem_of_fmap. exists w. split; [reflexivity|].
    apply proofOf_has; [done|by apply hexKey_nonempty|done|done].
Qed.

(** The empty trie has no proof, although there is to be the root at least: nothing is put,
    and the verification misses a node. *)
Lemma empty_tries_have_no_proofs `{Crypto} d g key :
  proof.Prove d (mkTrie nilNode 0 g 0) key 0 = Ok [] /\
  proof.VerifyProof (verifyFuel key) emptyRoot key (fun _ => None) = Err (proof.proofNodeMissing 0 (HashBytes emptyRoot)).
Proof.
  split; [|reflexivity]. unfold proof.Prove, walkFuel. cbn [root]. rewrite keybytesToHex_nibs. destruct (nibs key ++ [terminator]) as [|x r]; reflexivity.
Qed.

(** ** A concrete proof *)

Lemma every_key_has_a_proof_witness :
  exists t h u kvs j, updates Sample.db Sample.ops Sample.empty = Ok t /\ rootHash t = Ok (h, u) /\
    proof.Prove Sample.db t [x12; x35] 0 = Ok kvs /\
    proof.VerifyProof (verifyFuel [x12; x35]) h [x12; x35] (fun k => triedb.writeAll kvs ∅ !! k) = Ok (Sample.value x02, j).
Proof.
  destruct (Sample.stands Sample.ops) as (t & E & Hs & Hb); [by left|].
  assert (Hk : Known Sample.known (Sample.tree Sample.ops)) by (apply Known_blobs; by left).
  destruct (rootHash_stands Sample.db t _ Hs Hb) as (u & Eh & _). exists t, (rootOf (Sample.tree Sample.ops)), u.
  destruct (every_key_has_a_proof Sample.known Sample.db t (Sample.tree Sample.ops) (rootOf (Sample.tree Sample.ops)) u [x12; x35] Sample.known_distinct Hs Hb Hk) as (kvs & j & E1 & E2);
    [vm_compute; discriminate|exact Eh|]. exists kvs, j. split_and!; [exact E|exact Eh|exact E1|exact E2].
Defined.

(** A proof of the root alone. *)
Lemma proofs_cannot_lie_witness :
  exists t h u j, updates Sample.db Sample.ops Sample.empty = Ok t /\ rootHash t = Ok (h, u) /\
    (proof.VerifyProof (verifyFuel [x99]) h [x99] (fun k => if bool_decide (k = hashOf (Sample.tree Sample.ops)) then Some (encT (Sample.tree Sample.ops)) else None)
       = Ok ([], j) \/
     exists h', proof.VerifyProof (verifyFuel [x99]) h [x99] (fun k => if bool_decide (k = hashOf (Sample.tree Sample.ops)) then Some (encT (Sample.tree Sample.ops)) else None)
       = Err (proof.proofNodeMissing j h')).
Proof.
  destruct (Sample.stands Sample.ops) as (t & E & Hs & Hb); [by left|].
  assert (Hk : Known Sample.known (Sample.tree Sample.ops)) by (apply Known_blobs; by left).
  assert (Hsub : sub (Sample.tree Sample.ops)) by (destruct (st_canonical _ _ _ Hs) as [E0|?]; [vm_compute in E0; discriminate E0|done]).
  destruct (rootHash_stands Sample.db t _ Hs Hb) as (u & Eh & _).
  destruct (proofs_cannot_lie Sample.known Sample.db t (Sample.tree Sample.ops) (rootOf (Sample.tree Sample.ops)) u
    (fun k => if bool_decide (k = hashOf (Sample.tree Sample.ops)) then Some (encT (Sample.tree Sample.ops)) else None) [x99]
    Sample.known_distinct Hs Hb Hk Eh) as (j & Hj).
  - intros h b Hh. case_bool_decide as Ek; [|discriminate Hh]. injection Hh as <-. split; [|by rewrite Ek]. apply Hk; [constructor|exact Hsub].
  - exists t, (rootOf (Sample.tree Sample.ops)), u, j. split_and!; [exact E|exact Eh|exact Hj].
Defined.
