(* ===== verification/CliqueSnapshot.v ===== *)
(** * Package consensus/clique: voting snapshots

    The authorization state of the proof-of-authority engine
    (src/consensus/clique/snapshot.go) and the encoding of votes in a header's
    extra data and the difficulty rule (src/consensus/clique/clique.go).

    A Go map is a [gmap]; the iteration order of a map is arbitrary, so code
    that ranges over one is modelled on an arbitrary enumeration where the
    order could matter.  [Snapshot.sigcache] points to the engine's signature
    cache; it is threaded through as an explicit state. *)

From stdpp Require Import base numbers list gmap sets option sorting.
From Stdlib Require Import ZArith Lia Strings.Byte.
From S2P Require Import Prelude Common Params Types.

(** ** Errors *)

Inductive cliqueErr :=
| errUnknownBlock
| errInvalidCheckpointBeneficiary
| errInvalidVote
| errInvalidCheckpointVote
| errMissingSignature
| errMissingSigners
| errMissingVoters
| errInvalidCheckpointSigners
| errInvalidCheckpointVoters
| errInvalidMixDigest
| errInvalidUncleHash
| errInvalidDifficulty
| ErrInvalidTimestamp
| errInvalidVotingChain
| errWaitTransactions
| ErrUnknownAncestor
| ErrFutureBlock
| errCrypto
| errDatabase
| errSigning
| errForkHash
| errNotAuthorized (signer : Address)
| errSignedRecently (signer : Address) (number last next : Z)
| errSignedTooRecently (signer : Address).

(** ** Extra data (clique.go) *)

Definition extraVanity : Z := 32.
Definition extraPropose : Z := AddressLength + 1.
Definition voterElectionByte : byte := xff.
Definition signerElectionByte : byte := x00.
Definition nonceAuthVote : list byte := replicate 8 xff.
Definition nonceDropVote : list byte := replicate 8 x00.
Definition signatureLength : Z := 65.

Definition blen {A : Type} (l : list A) : Z := Z.of_nat (length l).

Definition ExtraEnsureVanity (extra : list byte) : list byte :=
  if blen extra <? extraVanity then extra ++ replicate (Z.to_nat (extraVanity - blen extra)) x00
  else take (Z.to_nat extraVanity) extra.

Definition ExtraVanity (extra : list byte) : list byte :=
  if blen extra <? extraVanity then extra else take (Z.to_nat extraVanity) extra.

Definition ExtraAppendVote (extra : list byte) (candidate : Address) (voter : bool) : list byte :=
  (extra ++ AddressBytes candidate) ++ [if voter then voterElectionByte else signerElectionByte].

Definition ExtraHasVote (extra : list byte) : bool := blen extra =? extraVanity + extraPropose.

Definition ExtraCandidate (extra : list byte) : Address :=
  if blen extra <? extraVanity + AddressLength then 0
  else BytesToAddress (take (Z.to_nat AddressLength) (drop (Z.to_nat extraVanity) extra)).

Definition ExtraIsVoterElection (extra : list byte) : bool :=
  if blen extra <? extraVanity + extraPropose then false
  else match extra !! Z.to_nat (extraVanity + AddressLength) with
       | Some b => if decide (b = voterElectionByte) then true else false
       | None => false
       end.

(** ** Snapshot data *)

Record Vote := mkVote {
  vSigner : Address;
  vBlock : Z;
  vAddress : Address;
  vAuthorize : bool
}.

Record Tally := mkTally { tAuthorize : bool; tVotes : Z }.

Record Snapshot := mkSnapshot {
  sConfig : CliqueConfig;
  sNumber : Z;
  sHash : Hash;
  sSigners : gmap Z Z;
  sVoters : gset Z;
  sVotes : list Vote;
  sTally : gmap Z Tally
}.

#[global] Instance Vote_eq_dec : EqDecision Vote.
Proof. solve_decision. Defined.
#[global] Instance Tally_eq_dec : EqDecision Tally.
Proof. solve_decision. Defined.

Definition with_signers (s : Snapshot) (m : gmap Z Z) : Snapshot :=
  mkSnapshot (sConfig s) (sNumber s) (sHash s) m (sVoters s) (sVotes s) (sTally s).
Definition with_voters (s : Snapshot) (v : gset Z) : Snapshot :=
  mkSnapshot (sConfig s) (sNumber s) (sHash s) (sSigners s) v (sVotes s) (sTally s).
Definition with_votes (s : Snapshot) (l : list Vote) : Snapshot :=
  mkSnapshot (sConfig s) (sNumber s) (sHash s) (sSigners s) (sVoters s) l (sTally s).
Definition with_tally (s : Snapshot) (t : gmap Z Tally) : Snapshot :=
  mkSnapshot (sConfig s) (sNumber s) (sHash s) (sSigners s) (sVoters s) (sVotes s) t.
Definition with_head (s : Snapshot) (n : Z) (h : Hash) : Snapshot :=
  mkSnapshot (sConfig s) n h (sSigners s) (sVoters s) (sVotes s) (sTally s).

Definition newGenesisSnapshot (config : CliqueConfig) (number : Z) (hash : Hash)
    (signers voters : list Address) : Snapshot :=
  mkSnapshot config number hash
    (foldl (fun m signer => <[signer := 0]> m) ∅ signers)
    (foldl (fun m voter => {[voter]} ∪ m) ∅ voters)
    [] ∅.

(** ** Voting *)

Definition validVote (s : Snapshot) (address : Address) (authorize voterElection : bool) : bool :=
  if voterElection then
    let voter := bool_decide (address ∈ sVoters s) in
    (voter && negb authorize) || (negb voter && authorize)
  else
    let signer := bool_decide (is_Some (sSigners s !! address)) in
    (signer && negb authorize) || (negb signer && authorize).

Definition cast (s : Snapshot) (address : Address) (authorize voterElection : bool)
    : bool * Snapshot :=
  if negb (validVote s address authorize voterElection) then (false, s)
  else
    (true,
     with_tally s
       (match sTally s !! address with
        | Some old => <[address := mkTally (tAuthorize old) (tVotes old + 1)]> (sTally s)
        | None => <[address := mkTally authorize 1]> (sTally s)
        end)).

(** [uncast] on the tally; the returned boolean of the source is never used. *)
Definition uncast (t : gmap Z Tally) (address : Address) (authorize : bool) : gmap Z Tally :=
  match t !! address with
  | None => t
  | Some tally =>
      if negb (Bool.eqb (tAuthorize tally) authorize) then t
      else if tVotes tally >? 1
           then <[address := mkTally (tAuthorize tally) (tVotes tally - 1)]> t
           else delete address t
  end.

(** The loop that looks for the voter's previous vote on the candidate,
    uncasts it, removes it from the list and stops. *)
Fixpoint discardPrevious (signer candidate : Address) (votes : list Vote) (t : gmap Z Tally)
    : list Vote * gmap Z Tally :=
  match votes with
  | [] => ([], t)
  | v :: votes' =>
      if (vSigner v =? signer) && (vAddress v =? candidate)
      then (votes', uncast t (vAddress v) (vAuthorize v))
      else let '(rest, t') := discardPrevious signer candidate votes' t in (v :: rest, t')
  end.

(** The loop that discards all votes a deauthorized voter cast. *)
Fixpoint discardCastBy (candidate : Address) (votes : list Vote) (t : gmap Z Tally)
    : list Vote * gmap Z Tally :=
  match votes with
  | [] => ([], t)
  | v :: votes' =>
      if vSigner v =? candidate
      then discardCastBy candidate votes' (uncast t (vAddress v) (vAuthorize v))
      else let '(rest, t') := discardCastBy candidate votes' t in (v :: rest, t')
  end.

(** The loop that discards all votes around the just changed account. *)
Fixpoint discardAround (candidate : Address) (votes : list Vote) : list Vote :=
  match votes with
  | [] => []
  | v :: votes' =>
      if vAddress v =? candidate then discardAround candidate votes'
      else v :: discardAround candidate votes'
  end.

Definition nextSignableBlockNumber (s : Snapshot) (lastSignedBlockNumber : Z) : Z :=
  let n := Z.of_nat (size (sSigners s)) in
  u64 (lastSignedBlockNumber + n / 2 + 1).

(** ** apply *)

Definition zeroTally : Tally := mkTally false 0.

(** The part of the loop body that runs for a signer that is a voter. *)
Definition applyVote (snap : Snapshot) (signer : Address) (number : Z) (header : Header)
    : result cliqueErr Snapshot :=
  let '(candidate, voterElection) :=
    if ExtraHasVote (hExtra header)
    then (ExtraCandidate (hExtra header), ExtraIsVoterElection (hExtra header))
    else (0, false) in
  let '(votes, tally) := discardPrevious signer candidate (sVotes snap) (sTally snap) in
  let snap := with_tally (with_votes snap votes) tally in
  let* authorize :=
    if decide (hNonce header = nonceAuthVote) then Ok true
    else if decide (hNonce header = nonceDropVote) then Ok false
    else Err errInvalidVote in
  let '(ok, snap) := cast snap candidate authorize voterElection in
  let snap := if ok then with_votes snap (sVotes snap ++ [mkVote signer number candidate authorize])
              else snap in
  let tally := default zeroTally (sTally snap !! candidate) in
  if tVotes tally >? Z.of_nat (size (sVoters snap)) / 2 then
    let snap :=
      if tAuthorize tally then
        if bool_decide (is_Some (sSigners snap !! candidate))
        then with_voters snap ({[candidate]} ∪ sVoters snap)
        else with_signers snap (<[candidate := 0]> (sSigners snap))
      else
        if bool_decide (candidate ∈ sVoters snap)
        then let '(votes, tally) := discardCastBy candidate (sVotes snap) (sTally snap) in
             with_tally (with_votes (with_voters snap (sVoters snap ∖ {[candidate]})) votes) tally
        else with_signers snap (delete candidate (sSigners snap)) in
    let snap := with_votes snap (discardAround candidate (sVotes snap)) in
    Ok (with_tally snap (delete candidate (sTally snap)))
  else Ok snap.

(** Votes and tallies are dropped on checkpoint blocks. *)
Definition resetOnEpoch (snap : Snapshot) (number : Z) : Snapshot :=
  if number mod Epoch (sConfig snap) =? 0 then with_tally (with_votes snap []) ∅ else snap.

(** The loop body after the signer has been recovered. *)
Definition applySigned (snap : Snapshot) (signer : Address) (number : Z) (header : Header)
    : result cliqueErr Snapshot :=
  match sSigners snap !! signer with
  | None => Err (errNotAuthorized signer)
  | Some lastBlockSigned =>
      let next := nextSignableBlockNumber snap lastBlockSigned in
      if (lastBlockSigned >? 0) && (number <? next)
      then Err (errSignedRecently signer number lastBlockSigned next)
      else
        let snap := with_signers snap (<[signer := number]> (sSigners snap)) in
        if bool_decide (signer ∈ sVoters snap) then applyVote snap signer number header
        else Ok snap
  end.

(** The sanity check that the headers are contiguous and follow the snapshot. *)
Fixpoint contiguous (headers : list Header) : result cliqueErr unit :=
  match headers with
  | h :: ((h' :: _) as rest) =>
      let* n' := uint64Of (hNumber h') in
      let* n := uint64Of (hNumber h) in
      if n' =? u64 (n + 1) then contiguous rest else Err errInvalidVotingChain
  | _ => Ok tt
  end.

(** Caches of the third-party package golang-lru: [Get] may update the
    recency of the entry, [Add] may evict others. *)
Class Cache (C K V : Type) := {
  cacheGet : K -> C -> option V * C;
  cacheAdd : K -> V -> C -> C
}.

Section Apply.
Context `{Crypto} {SC : Type} `{Cache SC Z Z}.

(** [ecrecover]: consult the cache, else recover the public key from the seal
    and hash it to an address, and remember it. *)
Definition ecrecover (header : Header) (sigcache : SC) : result cliqueErr Address * SC :=
  let hash := headerHash header in
  let '(hit, sigcache) := cacheGet hash sigcache in
  match hit with
  | Some address => (Ok address, sigcache)
  | None =>
      if blen (hSigner header) <? signatureLength then (Err errMissingSignature, sigcache)
      else
        match Ecrecover (HashBytes (sigHash header)) (hSigner header) with
        | None => (Err errCrypto, sigcache)
        | Some [] => (Panic, sigcache)
        | Some (_ :: pubkey) =>
            let h := Keccak256 pubkey in
            let signer := BytesToAddress (drop 12 (HashBytes h)) in
            (Ok signer, cacheAdd hash signer sigcache)
        end
  end.

Definition applyHeader (snap : Snapshot) (header : Header) (sigcache : SC)
    : result cliqueErr Snapshot * SC :=
  match uint64Of (hNumber header) with
  | Ok number =>
      if Epoch (sConfig snap) =? 0 then (Panic, sigcache)
      else
        let snap := resetOnEpoch snap number in
        let '(r, sigcache) := ecrecover header sigcache in
        (let* signer := r in applySigned snap signer number header, sigcache)
  | Err e => (Err e, sigcache)
  | Panic => (Panic, sigcache)
  | NoFuel => (NoFuel, sigcache)
  end.

Fixpoint applyHeaders (snap : Snapshot) (headers : list Header) (sigcache : SC)
    : result cliqueErr Snapshot * SC :=
  match headers with
  | [] => (Ok snap, sigcache)
  | header :: rest =>
      let '(r, sigcache) := applyHeader snap header sigcache in
      match r with
      | Ok snap' => applyHeaders snap' rest sigcache
      | _ => (r, sigcache)
      end
  end.

Definition apply (s : Snapshot) (headers : list Header) (sigcache : SC)
    : result cliqueErr Snapshot * SC :=
  match headers with
  | [] => (Ok s, sigcache)
  | first :: _ =>
      match (let* _ := contiguous headers in
             let* n := uint64Of (hNumber first) in
             if n =? u64 (sNumber s + 1) then Ok tt else Err errInvalidVotingChain) with
      | Ok _ =>
          let '(r, sigcache) := applyHeaders s headers sigcache in
          (let* snap := r in
           Ok (with_head snap (u64 (sNumber snap + blen headers))
                 (headerHash (List.last headers first))),
           sigcache)
      | Err e => (Err e, sigcache)
      | Panic => (Panic, sigcache)
      | NoFuel => (NoFuel, sigcache)
      end
  end.

End Apply.

(** ** Sorted lists of signers and voters *)

(** One round of the outer loop: [x] is [signers[i]], compared with and
    exchanged for every later element that is smaller. *)
Fixpoint selectMin (x : Address) (l : list Address) : Address * list Address :=
  match l with
  | [] => (x, [])
  | y :: l' =>
      match bytes_compare (AddressBytes x) (AddressBytes y) with
      | Gt => let '(m, r) := selectMin y l' in (m, x :: r)
      | _ => let '(m, r) := selectMin x l' in (m, y :: r)
      end
  end.
Fixpoint exchangeSort (n : nat) (l : list Address) : list Address :=
  match n, l with
  | S n', x :: l' => let '(m, r) := selectMin x l' in m :: exchangeSort n' r
  | _, _ => l
  end.

(** [order] is the order in which the map was ranged over. *)
Definition sortAddresses (order : list Address) : list Address := exchangeSort (length order) order.

Definition signers (s : Snapshot) : list Address := sortAddresses (elements (dom (sSigners s))).
Definition voters (s : Snapshot) : list Address := sortAddresses (elements (sVoters s)).

(** ** CalcDifficulty (clique.go) *)

Definition addressGt (a b : Address) : bool :=
  match bytes_compare (AddressBytes a) (AddressBytes b) with Gt => true | _ => false end.

Definition CalcDifficulty (lastSigned : gmap Z Z) (signer : Address) : Z :=
  let last := default 0 (lastSigned !! signer) in
  let difficulty :=
    if last >? 0 then
      foldl (fun d '(_, n) => if n >? last then d + 1 else d) 1 (map_to_list lastSigned)
    else
      foldl (fun d '(addr, n) => if (n >? 0) || addressGt addr signer then d + 1 else d) 1
            (map_to_list lastSigned) in
  if difficulty <=? Z.of_nat (size lastSigned) / 2 then 0 else difficulty.
