(* ===== verification/CliqueVoting.v ===== *)
(** * Clique snapshots: voting invariants

    Well-formedness of voting snapshots ([SnapInv]) and its preservation by
    [apply]; the exactness of the tallies for signer elections; the majority
    behind a membership change; composition of [apply]; the spacing of seals. *)

From stdpp Require Import base numbers list gmap sets option sorting.
From Stdlib Require Import ZArith Lia Strings.Byte.
From S2P Require Import Prelude Common Params Types CliqueSnapshot.

(** ** Specification vocabulary *)

(** A voter has at most one vote per candidate. *)
Definition voteKey (v : Vote) : Address * Address := (vSigner v, vAddress v).

(** The number of live votes on an account. *)
Definition countOn (a : Address) (votes : list Vote) : Z :=
  Z.of_nat (length (filter (fun v => vAddress v = a) votes)).

Definition tallied (t : gmap Z Tally) (a : Address) : Z :=
  tVotes (default zeroTally (t !! a)).

(** Votes and tallies that fit a set of voters. *)
Record VotesInv (vs : gset Z) (votes : list Vote) (t : gmap Z Tally) : Prop := mkVotesInv {
  vi_nodup : NoDup (voteKey <$> votes);
  vi_by : forall v, v ∈ votes -> vSigner v ∈ vs;
  vi_pos : forall a x, t !! a = Some x -> 1 <= tVotes x;
  vi_count : forall a, countOn a votes <= tallied t a
}.

(** A snapshot of a chain whose head is block [n]. *)
Record SnapInv (n : Z) (s : Snapshot) : Prop := mkSnapInv {
  si_addr : forall a, is_Some (sSigners s !! a) -> is_address a;
  si_voters : sVoters s ⊆ dom (sSigners s);
  si_last : forall a k, sSigners s !! a = Some k -> 0 <= k <= n;
  si_inj : forall a b k, 0 < k -> sSigners s !! a = Some k -> sSigners s !! b = Some k -> a = b;
  si_votes : VotesInv (sVoters s) (sVotes s) (sTally s)
}.

(** ** The discarding loops *)

Lemma discardAround_filter c votes :
  discardAround c votes = filter (fun v => vAddress v <> c) votes.
Proof.
  induction votes as [|v votes IH]; [done|]. cbn [discardAround]. rewrite filter_cons, IH.
  destruct (Z.eqb_spec (vAddress v) c); by repeat case_decide.
Qed.

Lemma discardCastBy_votes c votes t :
  fst (discardCastBy c votes t) = filter (fun v => vSigner v <> c) votes.
Proof.
  revert t. induction votes as [|v votes IH]; intros t; [done|].
  cbn [discardCastBy]. rewrite filter_cons.
  destruct (Z.eqb_spec (vSigner v) c).
  - rewrite IH. by case_decide.
  - specialize (IH t). destruct (discardCastBy c votes t). cbn in *. subst. by case_decide.
Qed.

Lemma discardPrevious_cases signer c votes t :
  (discardPrevious signer c votes t = (votes, t) /\ (signer, c) ∉ voteKey <$> votes) \/
  (exists l1 v l2, votes = l1 ++ v :: l2 /\ voteKey v = (signer, c) /\
     discardPrevious signer c votes t = (l1 ++ l2, uncast t c (vAuthorize v))).
Proof.
  induction votes as [|v votes IH]; [left; split; [done|apply not_elem_of_nil]|].
  cbn [discardPrevious].
  destruct ((vSigner v =? signer) && (vAddress v =? c)) eqn:E.
  - bools. right. exists [], v, votes. unfold voteKey. subst. done.
  - destruct IH as [[-> Hnot]|(l1 & w & l2 & -> & Hk & ->)].
    + left. split; [done|]. rewrite fmap_cons. apply not_elem_of_cons. split; [|done].
      unfold voteKey. intros [= -> ->]. rewrite !Z.eqb_refl in E. done.
    + right. by exists (v :: l1), w, l2.
Qed.

Lemma discardPrevious_sub signer c votes t x :
  x ∈ fst (discardPrevious signer c votes t) -> x ∈ votes.
Proof.
  destruct (discardPrevious_cases signer c votes t) as [[-> _]|(l1 & y & l2 & -> & _ & ->)];
    [done|]. intros [Hx|Hx]%elem_of_app; apply elem_of_app; [by left|right; by right].
Qed.

(** ** Tallies *)

Lemma uncast_other t a b auth : a <> b -> uncast t a auth !! b = t !! b.
Proof.
  intros Hne. unfold uncast. destruct (t !! a); [|done].
  repeat case_match; rewrite ?lookup_insert_ne, ?lookup_delete_ne by done; done.
Qed.

Lemma uncast_tallied t a b auth :
  (forall a x, t !! a = Some x -> 1 <= tVotes x) ->
  tallied t b - (if decide (a = b) then 1 else 0) <= tallied (uncast t a auth) b <= tallied t b.
Proof.
  intros Hpos. unfold tallied. case_decide as E; [subst b|rewrite uncast_other by done; lia].
  unfold uncast. destruct (t !! a) as [x|] eqn:Hx; [|rewrite Hx; cbn; lia].
  specialize (Hpos _ _ Hx).
  destruct (negb _); [rewrite Hx; cbn; lia|].
  destruct (Z.gtb_spec (tVotes x) 1); rewrite ?lookup_insert_eq, ?lookup_delete_eq; cbn; lia.
Qed.

Lemma uncast_pos t a auth :
  (forall a x, t !! a = Some x -> 1 <= tVotes x) ->
  forall b x, uncast t a auth !! b = Some x -> 1 <= tVotes x.
Proof.
  intros Hpos b x. unfold uncast. destruct (t !! a) as [y|] eqn:Hy; [|by apply Hpos].
  destruct (negb _); [by apply Hpos|].
  destruct (Z.gtb_spec (tVotes y) 1).
  - rewrite lookup_insert. case_decide; [intros [= <-]; cbn; lia|by apply Hpos].
  - rewrite lookup_delete. case_decide; [done|by apply Hpos].
Qed.

Lemma tallied_nonneg t a :
  (forall a x, t !! a = Some x -> 1 <= tVotes x) -> 0 <= tallied t a.
Proof.
  intros Hpos. unfold tallied. destruct (t !! a) as [x|] eqn:Hx; cbn; [|lia].
  apply Hpos in Hx. lia.
Qed.

(** ** Counting votes *)

Lemma countOn_nil a : countOn a [] = 0.
Proof. done. Qed.

Lemma countOn_app a l1 l2 : countOn a (l1 ++ l2) = countOn a l1 + countOn a l2.
Proof. unfold countOn. rewrite filter_app, length_app. lia. Qed.

Lemma countOn_cons a v l :
  countOn a (v :: l) = (if decide (vAddress v = a) then 1 else 0) + countOn a l.
Proof. unfold countOn. rewrite filter_cons. case_decide; cbn [length]; lia. Qed.

Lemma countOn_filter_le a P `{!forall v, Decision (P v)} l :
  countOn a (filter P l) <= countOn a l.
Proof.
  induction l as [|v l IH]; [done|]. rewrite filter_cons, countOn_cons.
  case_decide; rewrite ?countOn_cons; case_decide; lia.
Qed.

Lemma countOn_around a c l : countOn a (filter (fun v => vAddress v <> c) l)
  = if decide (a = c) then 0 else countOn a l.
Proof.
  induction l as [|v l IH]; [by case_decide|]. rewrite filter_cons, countOn_cons.
  destruct (decide (vAddress v <> c)); rewrite ?countOn_cons, IH;
    repeat case_decide; subst; try done; lia.
Qed.

#[export] Hint Rewrite countOn_nil countOn_app countOn_cons : indigo.

(** ** Each loop keeps votes and tallies in step *)

Lemma VotesInv_discardPrevious vs signer c votes t votes' t' :
  VotesInv vs votes t -> discardPrevious signer c votes t = (votes', t') ->
  VotesInv vs votes' t' /\ (signer, c) ∉ voteKey <$> votes'.
Proof.
  intros [Hnd Hby Hpos Hc] Hd.
  destruct (discardPrevious_cases signer c votes t) as [[E Hnot]|(l1 & v & l2 & -> & Hk & E)];
    rewrite Hd in E; injection E as -> ->; [split; [by constructor|done]|].
  assert (vAddress v = c) as Hvc by (by injection Hk).
  rewrite fmap_app, fmap_cons in Hnd. apply NoDup_app in Hnd as (Hn1 & Hd12 & Hn2).
  apply NoDup_cons in Hn2 as (Hv2 & Hn2).
  split; [constructor|].
  - rewrite fmap_app. apply NoDup_app. split_and!; [done| |done].
    intros x Hx Hx2. apply (Hd12 x Hx). by right.
  - intros w [Hw|Hw]%elem_of_app; apply Hby, elem_of_app; [by left|right; by right].
  - by apply uncast_pos.
  - intros a. specialize (Hc a). autorewrite with indigo in *.
    pose proof (uncast_tallied t c a (vAuthorize v) Hpos) as Hu.
    rewrite Hvc in Hc. repeat case_decide; lia.
  - rewrite fmap_app, <- Hk. intros [H|H]%elem_of_app; [|done].
    apply (Hd12 _ H). by left.
Qed.

Lemma VotesInv_cast s c auth ve ok s' signer number :
  VotesInv (sVoters s) (sVotes s) (sTally s) -> signer ∈ sVoters s ->
  (signer, c) ∉ voteKey <$> sVotes s ->
  cast s c auth ve = (ok, s') ->
  VotesInv (sVoters s)
    (if ok then sVotes s ++ [mkVote signer number c auth] else sVotes s) (sTally s').
Proof.
  intros [Hnd Hby Hpos Hc] Hs Hk. unfold cast.
  destruct (negb _); intros [= <- <-]; [by constructor|]. constructor.
  - rewrite fmap_app. apply NoDup_app. split_and!; [done| |by apply NoDup_singleton].
    intros x Hx ->%list_elem_of_singleton. done.
  - intros v [Hv | ->%list_elem_of_singleton]%elem_of_app; [by apply Hby|done].
  - cbn. intros a x. destruct (sTally s !! c) as [y|] eqn:Hy; rewrite lookup_insert; case_decide;
      try (by apply Hpos); intros [= <-]; cbn; [apply Hpos in Hy|]; lia.
  - intros a. autorewrite with indigo. cbn. specialize (Hc a). unfold tallied in *. cbn.
    destruct (sTally s !! c) as [y|] eqn:Hy; rewrite lookup_insert; repeat case_decide;
      subst; rewrite ?Hy in *; cbn in *; try done; lia.
Qed.

Lemma VotesInv_discardCastBy vs c votes t :
  VotesInv vs votes t ->
  VotesInv (vs ∖ {[c]}) (fst (discardCastBy c votes t)) (snd (discardCastBy c votes t)).
Proof.
  intros [Hnd Hby Hpos Hc]. constructor.
  - rewrite discardCastBy_votes. eapply sublist_NoDup; [exact Hnd|].
    apply fmap_sublist, sublist_filter.
  - rewrite discardCastBy_votes. intros v [Hv Hin]%list_elem_of_filter.
    apply elem_of_difference. split; [by apply Hby|]. set_solver.
  - clear Hnd Hby Hc. revert t Hpos. induction votes as [|v votes IH]; intros t Hpos; [done|].
    cbn [discardCastBy]. destruct (vSigner v =? c).
    + apply IH. by apply uncast_pos.
    + specialize (IH t Hpos). destruct (discardCastBy c votes t). done.
  - intros a. cut (countOn a votes - countOn a (fst (discardCastBy c votes t))
                   >= tallied t a - tallied (snd (discardCastBy c votes t)) a);
      [specialize (Hc a); lia|].
    clear Hnd Hby Hc. revert t Hpos. induction votes as [|v votes IH]; intros t Hpos.
    + cbn. lia.
    + cbn [discardCastBy]. destruct (vSigner v =? c).
      * specialize (IH _ (uncast_pos t (vAddress v) (vAuthorize v) Hpos)).
        pose proof (uncast_tallied t (vAddress v) a (vAuthorize v) Hpos).
        rewrite countOn_cons. lia.
      * specialize (IH t Hpos). destruct (discardCastBy c votes t). cbn [fst snd] in *.
        rewrite !countOn_cons. lia.
Qed.

Lemma VotesInv_around vs c votes t :
  VotesInv vs votes t -> VotesInv vs (discardAround c votes) (delete c t).
Proof.
  intros [Hnd Hby Hpos Hc]. rewrite discardAround_filter. constructor.
  - eapply sublist_NoDup; [exact Hnd|]. apply fmap_sublist, sublist_filter.
  - intros v [Hv Hin]%list_elem_of_filter. by apply Hby.
  - intros a x. rewrite lookup_delete. case_decide; [done|by apply Hpos].
  - intros a. rewrite countOn_around. unfold tallied. rewrite lookup_delete.
    repeat case_decide; subst; done.
Qed.

Lemma VotesInv_mono vs vs' votes t :
  vs ⊆ vs' -> VotesInv vs votes t -> VotesInv vs' votes t.
Proof. intros Hsub []. constructor; auto. Qed.

Lemma VotesInv_empty vs : VotesInv vs [] ∅.
Proof. constructor; [constructor|set_solver|done|done]. Qed.

(** ** applyVote in stages *)

(** The candidate and the kind of election of a header, as [apply] reads them. *)
Definition headerVote (header : Header) : Address * bool :=
  if ExtraHasVote (hExtra header)
  then (ExtraCandidate (hExtra header), ExtraIsVoterElection (hExtra header))
  else (0, false).

Lemma headerVote_address header : is_address (fst (headerVote header)).
Proof.
  unfold headerVote. destruct (ExtraHasVote _); cbn [fst]; [|by split].
  unfold ExtraCandidate. destruct (_ <? _); [by split|].
  unfold BytesToAddress. rewrite setBytes_value by done. by apply Z.mod_pos_bound.
Qed.

Definition headerAuthorize (header : Header) : option bool :=
  if decide (hNonce header = nonceAuthVote) then Some true
  else if decide (hNonce header = nonceDropVote) then Some false
  else None.

(** The snapshot after the signer's previous vote on the candidate has been
    discarded and the new one cast. *)
Definition castVote (snap : Snapshot) (signer : Address) (number : Z)
    (candidate : Address) (authorize voterElection : bool) : Snapshot :=
  let '(votes, tally) := discardPrevious signer candidate (sVotes snap) (sTally snap) in
  let snap := with_tally (with_votes snap votes) tally in
  let '(ok, snap) := cast snap candidate authorize voterElection in
  if ok then with_votes snap (sVotes snap ++ [mkVote signer number candidate authorize])
  else snap.

Definition passes (snap : Snapshot) (candidate : Address) : bool :=
  tallied (sTally snap) candidate >? Z.of_nat (size (sVoters snap)) / 2.

(** The change a passed proposal makes. *)
Definition enact (snap : Snapshot) (candidate : Address) : Snapshot :=
  let snap :=
    if tAuthorize (default zeroTally (sTally snap !! candidate)) then
      if bool_decide (is_Some (sSigners snap !! candidate))
      then with_voters snap ({[candidate]} ∪ sVoters snap)
      else with_signers snap (<[candidate := 0]> (sSigners snap))
    else
      if bool_decide (candidate ∈ sVoters snap)
      then let '(votes, tally) := discardCastBy candidate (sVotes snap) (sTally snap) in
           with_tally (with_votes (with_voters snap (sVoters snap ∖ {[candidate]})) votes) tally
      else with_signers snap (delete candidate (sSigners snap)) in
  let snap := with_votes snap (discardAround candidate (sVotes snap)) in
  with_tally snap (delete candidate (sTally snap)).

Lemma applyVote_staged snap signer number header :
  applyVote snap signer number header =
  match headerAuthorize header with
  | None => Err errInvalidVote
  | Some authorize =>
      let '(candidate, voterElection) := headerVote header in
      let snap := castVote snap signer number candidate authorize voterElection in
      Ok (if passes snap candidate then enact snap candidate else snap)
  end.
Proof.
  unfold applyVote, headerAuthorize, headerVote, castVote, enact, passes, tallied.
  destruct (if ExtraHasVote (hExtra header) then _ else _) as [candidate ve].
  destruct (discardPrevious _ _ _ _) as [votes tally].
  destruct (decide (hNonce header = nonceAuthVote)); cbn [rbind];
    [|destruct (decide (hNonce header = nonceDropVote)); cbn [rbind]; [|done]];
  destruct (cast _ _ _ _) as [ok snap']; destruct ok; by case_match.
Qed.

Lemma castVote_frame snap signer number c auth ve :
  let s' := castVote snap signer number c auth ve in
  sConfig s' = sConfig snap /\ sNumber s' = sNumber snap /\ sHash s' = sHash snap /\
  sSigners s' = sSigners snap /\ sVoters s' = sVoters snap.
Proof.
  unfold castVote, cast. destruct (discardPrevious _ _ _ _). by destruct (negb _).
Qed.

Lemma VotesInv_castVote snap signer number c auth ve :
  let s' := castVote snap signer number c auth ve in
  VotesInv (sVoters snap) (sVotes snap) (sTally snap) -> signer ∈ sVoters snap ->
  VotesInv (sVoters snap) (sVotes s') (sTally s').
Proof.
  intros s' Hinv Hs. unfold s', castVote.
  destruct (discardPrevious _ _ _ _) as [votes tally] eqn:Hd.
  destruct (VotesInv_discardPrevious _ _ _ _ _ _ _ Hinv Hd) as [Hinv' Hk].
  destruct (cast _ _ _ _) as [ok sc] eqn:Hc.
  assert (sVotes sc = votes) as Hv by (unfold cast in Hc; destruct (negb _); by injection Hc as <- <-).
  pose proof (VotesInv_cast (with_tally (with_votes snap votes) tally) c auth ve ok sc signer number
    Hinv' Hs Hk Hc) as H. cbn in H. destruct ok; cbn; rewrite Hv; done.
Qed.

Lemma enact_inv n snap c :
  0 <= n -> is_address c -> SnapInv n snap -> SnapInv n (enact snap c).
Proof.
  intros Hn Hca [Had Hvs Hlast Hinj Hvi]. unfold enact.
  destruct (tAuthorize _).
  - case_bool_decide as Hc; cbn; constructor; cbn; try done.
    + apply elem_of_dom in Hc. set_solver.
    + apply VotesInv_around. eapply VotesInv_mono; [|done]. set_solver.
    + intros a. rewrite lookup_insert. case_decide; [by subst|apply Had].
    + rewrite dom_insert. set_solver.
    + intros a k. rewrite lookup_insert. case_decide; [intros [= <-]; lia|by apply Hlast].
    + intros a b k Hk. rewrite !lookup_insert. repeat case_decide; try lia; try naive_solver lia.
    + by apply VotesInv_around.
  - case_bool_decide as Hc; cbn.
    + pose proof (VotesInv_discardCastBy _ c _ _ Hvi) as H.
      destruct (discardCastBy _ _ _) as [votes tally]. cbn in *.
      constructor; cbn; try done; [set_solver|by apply VotesInv_around].
    + constructor; cbn.
      * intros a. rewrite lookup_delete. case_decide; [by intros []|apply Had].
      * rewrite dom_delete. set_solver.
      * intros a k. rewrite lookup_delete. case_decide; [done|by apply Hlast].
      * intros a b k Hk. rewrite !lookup_delete. repeat case_decide; try done. by apply Hinj.
      * by apply VotesInv_around.
Qed.

Lemma applyVote_inv n snap signer number header snap' :
  0 <= n -> SnapInv n snap -> signer ∈ sVoters snap ->
  applyVote snap signer number header = Ok snap' -> SnapInv n snap'.
Proof.
  intros Hn Hinv Hs. rewrite applyVote_staged.
  destruct (headerAuthorize header) as [auth|]; [|done].
  pose proof (headerVote_address header) as Hca.
  destruct (headerVote header) as [c ve]. cbn in *. intros [= <-].
  assert (SnapInv n (castVote snap signer number c auth ve)) as Hc.
  { pose proof (castVote_frame snap signer number c auth ve) as (_ & _ & _ & E1 & E2).
    destruct Hinv as [Had Hvs Hlast Hinj Hvi].
    pose proof (VotesInv_castVote snap signer number c auth ve Hvi Hs) as Hv.
    constructor; rewrite ?E1, ?E2; done. }
  case_match; [by apply enact_inv|done].
Qed.

Lemma resetOnEpoch_inv n snap number : SnapInv n snap -> SnapInv n (resetOnEpoch snap number).
Proof.
  intros [Had Hvs Hlast Hinj Hvi]. unfold resetOnEpoch. case_match; constructor; cbn; try done.
  apply VotesInv_empty.
Qed.

Lemma applySigned_inv n snap signer number header snap' :
  0 <= n -> n < number -> SnapInv n snap ->
  applySigned snap signer number header = Ok snap' -> SnapInv number snap'.
Proof.
  intros Hn Hlt [Had Hvs Hlast Hinj Hvi]. unfold applySigned.
  destruct (sSigners snap !! signer) as [last|] eqn:Hl; [|done].
  destruct (_ && _); [done|].
  set (snap1 := with_signers snap _).
  assert (SnapInv number snap1) as H1.
  { constructor; cbn; try done.
    - intros a. rewrite lookup_insert. case_decide; [subst; intros _; apply Had; eauto|apply Had].
    - rewrite dom_insert. set_solver.
    - intros a k. rewrite lookup_insert. case_decide; [intros [= <-]; lia|].
      intros Hk. apply Hlast in Hk. lia.
    - intros a b k Hk. rewrite !lookup_insert.
      repeat case_decide; subst; intros; simplify_eq; try done; try by eapply Hinj.
      + match goal with H : _ !! _ = Some _ |- _ => apply Hlast in H end. lia.
      + match goal with H : _ !! _ = Some _ |- _ => apply Hlast in H end. lia. }
  case_bool_decide as Hs; [|by intros [= <-]].
  intros H. eapply applyVote_inv; [|done| |done]; [lia|done].
Qed.

(** ** Headers in sequence *)

(** The headers carry the numbers that follow block [n]. *)
Fixpoint numbered (n : Z) (headers : list Header) : Prop :=
  match headers with
  | [] => True
  | h :: rest => uint64Of (E := cliqueErr) (hNumber h) = Ok (u64 (n + 1)) /\ numbered (u64 (n + 1)) rest
  end.

Lemma uint64Of_range E x n : uint64Of (E := E) x = Ok n -> is_u64 n.
Proof.
  destruct x; cbn; [|done]. intros [= <-]. apply Z.mod_pos_bound. lia.
Qed.

Lemma contiguous_numbered h headers n :
  uint64Of (E := cliqueErr) (hNumber h) = Ok n ->
  contiguous (h :: headers) = Ok tt <-> numbered n headers.
Proof.
  revert h n. induction headers as [|h' rest IH]; intros h n Hn; [done|].
  change (contiguous (h :: h' :: rest)) with
    (let* n' := uint64Of (hNumber h') in let* m := uint64Of (hNumber h) in
     if n' =? u64 (m + 1) then contiguous (h' :: rest) else Err errInvalidVotingChain).
  rewrite Hn. cbn [numbered].
  destruct (uint64Of (hNumber h')) as [n'| | |] eqn:Hn'; cbn [rbind];
    [|split; [done|intros [? _]; done]..].
  destruct (Z.eqb_spec n' (u64 (n + 1))) as [->|Hne].
  - rewrite IH by done. tauto.
  - split; [done|]. intros [[= ?] _]. done.
Qed.

Lemma u64_add_blen {A} n (hs1 hs2 : list A) :
  u64 (u64 (n + blen hs1) + blen hs2) = u64 (n + blen (hs1 ++ hs2)).
Proof. unfold u64, blen. rewrite Zplus_mod_idemp_l, length_app. f_equal. lia. Qed.

Lemma numbered_app_u64 n hs1 hs2 :
  is_u64 n ->
  numbered n (hs1 ++ hs2) <-> numbered n hs1 /\ numbered (u64 (n + blen hs1)) hs2.
Proof.
  revert n. induction hs1 as [|h hs1 IH]; intros n Hn.
  - cbn. rewrite Z.add_0_r, u64_small by done. tauto.
  - cbn [numbered app]. rewrite IH by apply u64_range.
    change (u64 (n + 1)) with (u64 (n + blen [h])). rewrite u64_add_blen. tauto.
Qed.

Lemma numbered_app n hs1 hs2 :
  hs1 <> [] ->
  numbered n (hs1 ++ hs2) <-> numbered n hs1 /\ numbered (u64 (n + blen hs1)) hs2.
Proof.
  destruct hs1 as [|h hs1]; [done|]. intros _. cbn [numbered app].
  rewrite numbered_app_u64 by apply u64_range.
  change (u64 (n + 1)) with (u64 (n + blen [h])). rewrite u64_add_blen. tauto.
Qed.

Section ApplyProofs.
Context `{Crypto} {SC : Type} `{Cache SC Z Z}.

(** [apply] on a non-empty batch: the numbering check, then the loop. *)
Lemma apply_Ok s h rest (c : SC) s' c' :
  apply s (h :: rest) c = (Ok s', c') <->
  numbered (sNumber s) (h :: rest) /\
  exists snap, applyHeaders s (h :: rest) c = (Ok snap, c') /\
    s' = with_head snap (u64 (sNumber snap + blen (h :: rest))) (headerHash (List.last (h :: rest) h)).
Proof.
  unfold apply. cbn [numbered].
  destruct (contiguous (h :: rest)) as [[]| | |] eqn:Hc;
    destruct (uint64Of (hNumber h)) as [n| | |] eqn:Hn; cbn [rbind];
    try (split; [done|intros [[? ?] _]; congruence]).
  - destruct (Z.eqb_spec n (u64 (sNumber s + 1))) as [->|Hne].
    + pose proof (proj1 (contiguous_numbered _ _ _ Hn) Hc).
      destruct (applyHeaders s (h :: rest) c) as [[snap| | |] c1]; cbn [rbind];
        (split; [intros E; first [discriminate E | injection E as <- <-]; eauto 6
                |intros (_ & snap' & E & ->); congruence]).
    + split; [done|]. intros [[[= ?] _] _]. done.
  - split; [done|]. intros [[E Hnum] _]. assert (n = u64 (sNumber s + 1)) as -> by congruence.
    apply (contiguous_numbered h rest _ Hn) in Hnum. congruence.
  - split; [done|]. intros [[E Hnum] _]. assert (n = u64 (sNumber s + 1)) as -> by congruence.
    apply (contiguous_numbered h rest _ Hn) in Hnum. congruence.
  - split; [done|]. intros [[E Hnum] _]. assert (n = u64 (sNumber s + 1)) as -> by congruence.
    apply (contiguous_numbered h rest _ Hn) in Hnum. congruence.
Qed.

Lemma applyHeaders_app s hs1 hs2 (c : SC) :
  applyHeaders s (hs1 ++ hs2) c =
  let '(r, c1) := applyHeaders s hs1 c in
  match r with Ok s1 => applyHeaders s1 hs2 c1 | _ => (r, c1) end.
Proof.
  revert s c. induction hs1 as [|h hs1 IH]; intros s c; [done|].
  cbn [app applyHeaders]. destruct (applyHeader s h c) as [[s1| | |] c1]; [apply IH|done..].
Qed.

Definition rmap {E A B} (f : A -> B) (r : result E A) : result E B := let* a := r in Ok (f a).

(** Nothing in the loop reads the snapshot's own number and hash. *)
Lemma applyVote_head snap signer number header n h :
  applyVote (with_head snap n h) signer number header =
  rmap (fun s => with_head s n h) (applyVote snap signer number header).
Proof.
  rewrite !applyVote_staged. destruct (headerAuthorize header) as [auth|]; [|done].
  destruct (headerVote header) as [cand ve]. cbn [rmap rbind].
  assert (castVote (with_head snap n h) signer number cand auth ve
          = with_head (castVote snap signer number cand auth ve) n h) as ->.
  { unfold castVote, cast, validVote. cbn.
    destruct (discardPrevious _ _ _ _). cbn. by destruct (negb _). }
  set (s1 := castVote snap _ _ _ _ _). f_equal.
  change (passes (with_head s1 n h) cand) with (passes s1 cand).
  destruct (passes s1 cand); [|done]. unfold enact. cbn.
  destruct (tAuthorize _); case_bool_decide; try done.
  by destruct (discardCastBy _ _ _).
Qed.

Lemma applyHeader_head snap header n h (c : SC) :
  applyHeader (with_head snap n h) header c =
  let '(r, c') := applyHeader snap header c in (rmap (fun s => with_head s n h) r, c').
Proof.
  unfold applyHeader. destruct (uint64Of (hNumber header)) as [k| | |]; try done.
  change (Epoch (sConfig (with_head snap n h))) with (Epoch (sConfig snap)).
  destruct (Epoch (sConfig snap) =? 0); [done|].
  assert (resetOnEpoch (with_head snap n h) k = with_head (resetOnEpoch snap k) n h) as ->
    by (unfold resetOnEpoch; cbn; by case_match).
  destruct (ecrecover header c) as [[signer| | |] c1]; cbn [rbind]; try done.
  f_equal. unfold applySigned. cbn.
  destruct (sSigners (resetOnEpoch snap k) !! signer); [|done].
  unfold nextSignableBlockNumber. cbn. destruct (_ && _); [done|].
  case_bool_decide; [|done].
  by rewrite <- applyVote_head.
Qed.

Lemma applyHeaders_head snap headers n h (c : SC) :
  applyHeaders (with_head snap n h) headers c =
  let '(r, c') := applyHeaders snap headers c in (rmap (fun s => with_head s n h) r, c').
Proof.
  revert snap c. induction headers as [|hd rest IH]; intros snap c; [done|].
  cbn [applyHeaders]. rewrite applyHeader_head.
  destruct (applyHeader snap hd c) as [[s1| | |] c1]; cbn [rmap rbind]; [apply IH|done..].
Qed.

Lemma applyHeader_number snap header (c : SC) snap' c' :
  applyHeader snap header c = (Ok snap', c') ->
  sNumber snap' = sNumber snap /\ sConfig snap' = sConfig snap.
Proof.
  unfold applyHeader. destruct (uint64Of (hNumber header)) as [k| | |]; try done.
  destruct (_ =? 0); [done|]. destruct (ecrecover header c) as [[signer| | |] c1]; cbn [rbind]; try done.
  intros [= E _]. revert E. unfold applySigned.
  assert (sNumber (resetOnEpoch snap k) = sNumber snap /\ sConfig (resetOnEpoch snap k) = sConfig snap)
    as [<- <-] by (unfold resetOnEpoch; by case_match).
  destruct (_ !! signer); [|done]. destruct (_ && _); [done|].
  case_bool_decide; [|by intros [= <-]].
  rewrite applyVote_staged. destruct (headerAuthorize header) as [auth|]; [|done].
  destruct (headerVote header) as [cand ve]. intros [= <-].
  set (s0 := with_signers _ _).
  pose proof (castVote_frame s0 signer k cand auth ve) as (E1 & E2 & _).
  destruct (passes _ _); [|by rewrite E1, E2].
  unfold enact. cbn. destruct (tAuthorize _); case_bool_decide; cbn; rewrite ?E1, ?E2; try done.
  destruct (discardCastBy _ _ _). cbn. by rewrite E1, E2.
Qed.

Lemma applyHeaders_number snap headers (c : SC) snap' c' :
  applyHeaders snap headers c = (Ok snap', c') ->
  sNumber snap' = sNumber snap /\ sConfig snap' = sConfig snap.
Proof.
  revert snap c. induction headers as [|hd rest IH]; intros snap c; [by intros [= -> _]|].
  cbn [applyHeaders]. destruct (applyHeader snap hd c) as [[s1| | |] c1] eqn:E; [|done..].
  apply applyHeader_number in E as [E1 E2]. intros [E3 E4]%IH. split; congruence.
Qed.

Lemma last_app_nonempty (hs1 hs2 : list Header) d d' :
  hs2 <> [] -> List.last (hs1 ++ hs2) d = List.last hs2 d'.
Proof.
  intros Hne. destruct (exists_last Hne) as (l & x & ->). rewrite app_assoc, !List.last_last. done.
Qed.

Lemma apply_nonempty s hs (c : SC) s' c' d :
  hs <> [] ->
  apply s hs c = (Ok s', c') <->
  numbered (sNumber s) hs /\
  exists snap, applyHeaders s hs c = (Ok snap, c') /\
    s' = with_head snap (u64 (sNumber s + blen hs)) (headerHash (List.last hs d)).
Proof.
  intros Hne. destruct hs as [|h rest]; [done|]. rewrite apply_Ok.
  assert (List.last (h :: rest) h = List.last (h :: rest) d) as ->
    by apply (last_app_nonempty [] (h :: rest) h d), Hne.
  split; intros (Hn & snap & E & ->); (split; [done|]; exists snap; split; [done|]);
    pose proof (applyHeaders_number _ _ _ _ _ E) as [-> _]; done.
Qed.

Lemma apply_compose s hs1 hs2 (c : SC) s2 c2 :
  apply s (hs1 ++ hs2) c = (Ok s2, c2) <->
  exists s1 c1, apply s hs1 c = (Ok s1, c1) /\ apply s1 hs2 c1 = (Ok s2, c2).
Proof.
  destruct hs1 as [|h1 r1]; [cbn [app]; split; [intros E; exists s, c; done|by intros (? & ? & [= -> ->] & ?)]|].
  destruct hs2 as [|h2 r2].
  { rewrite app_nil_r. split; [intros E; exists s2, c2; done|intros (? & ? & ? & [= -> ->]); done]. }
  set (hs1 := h1 :: r1). set (hs2 := h2 :: r2).
  assert (hs1 <> []) as N1 by done. assert (hs2 <> []) as N2 by done.
  rewrite (apply_nonempty s (hs1 ++ hs2) c s2 c2 h1) by (by destruct hs1).
  rewrite numbered_app, applyHeaders_app by done. rewrite (last_app_nonempty hs1 hs2 h1 h1 N2).
  split.
  - intros ([Hn1 Hn2] & snap & E & ->).
    destruct (applyHeaders s hs1 c) as [[sn1| | |] c1] eqn:E1; try done.
    eexists _, c1. split; [apply (apply_nonempty _ _ _ _ _ h1 N1); eauto|].
    apply (apply_nonempty _ _ _ _ _ h1 N2). cbn [sNumber with_head]. split; [done|].
    rewrite applyHeaders_head, E. cbn [rmap rbind]. eexists. split; [done|]. by rewrite u64_add_blen.
  - intros (s1 & c1 & A1 & A2).
    apply (apply_nonempty _ _ _ _ _ h1 N1) in A1 as (Hn1 & sn1 & E1 & ->).
    apply (apply_nonempty _ _ _ _ _ h1 N2) in A2 as (Hn2 & sn2 & E2 & ->).
    cbn [sNumber with_head] in *. split; [tauto|]. rewrite E1.
    rewrite applyHeaders_head in E2.
    destruct (applyHeaders sn1 hs2 c1) as [[sn2'| | |] c2'] eqn:E3; cbn [rmap rbind] in E2; try done.
    injection E2 as <- <-. eexists. split; [done|]. by rewrite u64_add_blen.
Qed.

(** ** Preservation of well-formedness *)

Lemma applyHeader_inv n snap header (c : SC) snap' c' :
  0 <= n -> n + 1 < 2 ^ 64 -> SnapInv n snap ->
  uint64Of (E := cliqueErr) (hNumber header) = Ok (u64 (n + 1)) ->
  applyHeader snap header c = (Ok snap', c') -> SnapInv (n + 1) snap'.
Proof.
  intros Hn Hlt Hinv Hnum. unfold applyHeader. rewrite Hnum.
  rewrite u64_small by (unfold is_u64; lia).
  destruct (_ =? 0); [done|]. destruct (ecrecover header c) as [[signer| | |] c1]; cbn [rbind]; try done.
  intros [= E _]. eapply applySigned_inv; [|..|done]; [done|lia|]. by apply resetOnEpoch_inv.
Qed.

Lemma applyHeaders_inv n snap headers (c : SC) snap' c' :
  0 <= n -> n + blen headers < 2 ^ 64 -> SnapInv n snap -> numbered n headers ->
  applyHeaders snap headers c = (Ok snap', c') -> SnapInv (n + blen headers) snap'.
Proof.
  revert n snap c. induction headers as [|hd rest IH]; intros n snap c Hn Hlt Hinv Hnum.
  - intros [= <- _]. unfold blen. by rewrite Z.add_0_r.
  - cbn [applyHeaders]. destruct (applyHeader snap hd c) as [[s1| | |] c1] eqn:E; [|done..].
    unfold blen in *. cbn [length] in *. destruct Hnum as [Hh Hnum]. intros Hr.
    rewrite u64_small in Hnum by (unfold is_u64; lia).
    replace (n + Z.of_nat (S (length rest))) with ((n + 1) + Z.of_nat (length rest)) by lia.
    eapply IH; [..|exact Hr]; [lia|lia| |done].
    eapply applyHeader_inv; [..|exact E]; [lia|lia|done|done].
Qed.

Lemma with_head_inv n s k h : SnapInv n s -> SnapInv n (with_head s k h).
Proof. intros []. by constructor. Qed.

Lemma apply_inv s headers (c : SC) s' c' :
  0 <= sNumber s -> sNumber s + blen headers < 2 ^ 64 ->
  SnapInv (sNumber s) s -> apply s headers c = (Ok s', c') ->
  SnapInv (sNumber s') s' /\ sNumber s' = sNumber s + blen headers.
Proof.
  intros Hn Hlt Hinv Ha. destruct headers as [|h rest].
  - injection Ha as <- _. unfold blen. by rewrite Z.add_0_r.
  - apply (apply_nonempty _ _ _ _ _ h) in Ha as (Hnum & snap & E & ->); [|done].
    cbn [sNumber with_head]. rewrite u64_small by (unfold is_u64, blen in *; lia).
    split; [|done]. apply with_head_inv. by eapply applyHeaders_inv.
Qed.

End ApplyProofs.

(** Every genesis snapshot whose voters are signers is well-formed. *)
Lemma genesis_signers_lookup l (m : gmap Z Z) a :
  foldl (fun m signer => <[signer := 0]> m) m l !! a = if decide (a ∈ l) then Some 0 else m !! a.
Proof.
  revert m. induction l as [|x l IH]; intros m; cbn; [by case_decide as E; [apply not_elem_of_nil in E|]|].
  rewrite IH, lookup_insert. repeat case_decide; set_solver.
Qed.

Lemma genesis_voters_elem l (m : gset Z) a :
  a ∈ foldl (fun m voter => {[voter]} ∪ m) m l <-> a ∈ l \/ a ∈ m.
Proof.
  revert m. induction l as [|x l IH]; intros m; cbn; [set_solver|]. rewrite IH. set_solver.
Qed.

Lemma newGenesisSnapshot_inv config hash signers voters :
  Forall is_address signers -> (forall v, v ∈ voters -> v ∈ signers) ->
  SnapInv 0 (newGenesisSnapshot config 0 hash signers voters).
Proof.
  intros Had Hsub. rewrite Forall_forall in Had. constructor; cbn.
  - intros a. rewrite genesis_signers_lookup. case_decide; [auto|by intros []].
  - intros v [Hv|Hv]%genesis_voters_elem; [|set_solver]. apply elem_of_dom.
    rewrite genesis_signers_lookup. rewrite decide_True by auto. done.
  - intros a k. rewrite genesis_signers_lookup. case_decide; [by intros [= <-]|done].
  - intros a b k Hk. rewrite genesis_signers_lookup. case_decide; [intros [= <-]; lia|done].
  - apply VotesInv_empty.
Qed.

(** ** Exact tallies under signer elections *)

Definition isSigner (sg : gmap Z Z) (a : Address) : bool := bool_decide (is_Some (sg !! a)).

(** Every tally counts exactly the live votes on its account, and all of them
    ask for the one change that makes sense: to add a non-signer or to remove
    a signer. *)
Record Exact (sg : gmap Z Z) (votes : list Vote) (t : gmap Z Tally) : Prop := mkExact {
  ex_count : forall a, tallied t a = countOn a votes;
  ex_pos : forall a x, t !! a = Some x -> 1 <= tVotes x;
  ex_dir : forall a x, t !! a = Some x -> tAuthorize x = negb (isSigner sg a);
  ex_votes : forall v, v ∈ votes -> vAuthorize v = negb (isSigner sg (vAddress v))
}.

Lemma Exact_empty sg : Exact sg [] ∅.
Proof. constructor; try done. set_solver. Qed.

Lemma uncast_dir t a auth b x :
  uncast t a auth !! b = Some x -> exists y, t !! b = Some y /\ tAuthorize y = tAuthorize x.
Proof.
  unfold uncast. destruct (t !! a) as [y|] eqn:Hy; [|eauto].
  destruct (negb _); [eauto|]. destruct (_ >? _).
  - rewrite lookup_insert. case_decide; [intros [= <-]; subst; eauto|eauto].
  - rewrite lookup_delete. case_decide; [done|eauto].
Qed.

Lemma Exact_uncast sg l1 v l2 t :
  Exact sg (l1 ++ v :: l2) t -> Exact sg (l1 ++ l2) (uncast t (vAddress v) (vAuthorize v)).
Proof.
  intros [Hc Hpos Hdir Hv]. constructor.
  - intros a. specialize (Hc a) as Hca. autorewrite with indigo in *.
    destruct (decide (vAddress v = a)) as [<-|Hne].
    + assert (exists x, t !! vAddress v = Some x) as [x Hx].
      { unfold tallied in Hca. destruct (t !! vAddress v); [eauto|]. cbn in Hca. unfold countOn in *. lia. }
      unfold tallied, uncast in *. rewrite Hx in *. cbn in Hca.
      rewrite (Hdir _ _ Hx), <- (Hv v) by set_solver. rewrite eqb_reflx. cbn [negb].
      pose proof (Hpos _ _ Hx).
      destruct (Z.gtb_spec (tVotes x) 1); rewrite ?lookup_insert_eq, ?lookup_delete_eq; cbn; lia.
    + unfold tallied in *. rewrite uncast_other by done. lia.
  - by apply uncast_pos.
  - intros a x (y & Hy & <-)%uncast_dir. eauto.
  - intros w Hw. apply Hv. set_solver.
Qed.

Lemma Exact_discardPrevious sg signer c votes t votes' t' :
  Exact sg votes t -> discardPrevious signer c votes t = (votes', t') -> Exact sg votes' t'.
Proof.
  intros Hex Hd.
  destruct (discardPrevious_cases signer c votes t) as [[E _]|(l1 & v & l2 & -> & Hk & E)];
    rewrite Hd in E; injection E as -> ->; [done|].
  injection Hk as _ <-. by apply Exact_uncast.
Qed.

Lemma Exact_discardCastBy sg c kept votes t :
  Exact sg (kept ++ votes) t ->
  Exact sg (kept ++ fst (discardCastBy c votes t)) (snd (discardCastBy c votes t)).
Proof.
  revert kept t. induction votes as [|v votes IH]; intros kept t Hex; [done|].
  cbn [discardCastBy]. destruct (vSigner v =? c).
  - apply IH. by apply Exact_uncast.
  - specialize (IH (kept ++ [v]) t). rewrite <- !app_assoc in IH. cbn [app] in IH.
    specialize (IH Hex). by destruct (discardCastBy c votes t).
Qed.

Lemma Exact_cast s c auth ok s' signer number :
  Exact (sSigners s) (sVotes s) (sTally s) ->
  cast s c auth false = (ok, s') ->
  Exact (sSigners s) (if ok then sVotes s ++ [mkVote signer number c auth] else sVotes s) (sTally s').
Proof.
  intros [Hc Hpos Hdir Hv]. unfold cast. destruct (validVote s c auth false) eqn:Hvalid; cbn [negb];
    intros [= <- <-]; [|done].
  assert (auth = negb (isSigner (sSigners s) c)) as Hauth.
  { unfold validVote in Hvalid. fold (isSigner (sSigners s) c) in Hvalid.
    destruct (isSigner (sSigners s) c), auth; done. }
  constructor; cbn.
  - intros a. specialize (Hc a). autorewrite with indigo. cbn. unfold tallied in *.
    destruct (sTally s !! c) as [y|] eqn:Hy; rewrite lookup_insert; repeat case_decide;
      subst; rewrite ?Hy in *; cbn in *; try done; lia.
  - intros a x. destruct (sTally s !! c) as [y|] eqn:Hy; rewrite lookup_insert; case_decide;
      try (by apply Hpos); intros [= <-]; cbn; [apply Hpos in Hy|]; lia.
  - intros a x. destruct (sTally s !! c) as [y|] eqn:Hy; rewrite lookup_insert; case_decide;
      try (by apply Hdir); intros [= <-]; cbn; subst; eauto.
  - intros v [Hin | ->%list_elem_of_singleton]%elem_of_app; [by apply Hv|done].
Qed.

Lemma Exact_castVote snap signer number c auth :
  let s' := castVote snap signer number c auth false in
  Exact (sSigners snap) (sVotes snap) (sTally snap) ->
  Exact (sSigners snap) (sVotes s') (sTally s').
Proof.
  intros s' Hex. unfold s', castVote.
  destruct (discardPrevious _ _ _ _) as [votes tally] eqn:Hd.
  pose proof (Exact_discardPrevious _ _ _ _ _ _ _ Hex Hd) as Hex'.
  destruct (cast _ _ _ _) as [ok sc] eqn:Hc.
  assert (sVotes sc = votes) as Hv by (unfold cast in Hc; destruct (negb _); by injection Hc as <- <-).
  pose proof (Exact_cast (with_tally (with_votes snap votes) tally) c auth ok sc signer number
    Hex' Hc) as H. cbn in H. destruct ok; cbn; rewrite Hv; done.
Qed.

Lemma Exact_around sg sg' c votes t :
  (forall a, a <> c -> isSigner sg' a = isSigner sg a) ->
  Exact sg votes t -> Exact sg' (discardAround c votes) (delete c t).
Proof.
  intros Hsg [Hc Hpos Hdir Hv]. rewrite discardAround_filter. constructor.
  - intros a. rewrite countOn_around. unfold tallied in *. rewrite lookup_delete.
    repeat case_decide; subst; done.
  - intros a x. rewrite lookup_delete. case_decide; [done|by apply Hpos].
  - intros a x. rewrite lookup_delete. case_decide; [done|]. intros Hx. rewrite Hsg by done. eauto.
  - intros v [Hne Hin]%list_elem_of_filter. rewrite Hsg by done. eauto.
Qed.

Lemma Exact_enact snap c :
  Exact (sSigners snap) (sVotes snap) (sTally snap) ->
  let s' := enact snap c in Exact (sSigners s') (sVotes s') (sTally s').
Proof.
  intros Hex. unfold enact. cbn.
  destruct (tAuthorize _).
  - case_bool_decide; cbn; (eapply Exact_around; [|done]); [done|].
    intros a Hne. unfold isSigner. by rewrite lookup_insert_ne by done.
  - case_bool_decide; cbn.
    + pose proof (Exact_discardCastBy _ c [] _ _ Hex) as Hd.
      destruct (discardCastBy _ _ _) as [votes tally]. cbn in *. by eapply Exact_around.
    + eapply Exact_around; [|done]. intros a Hne. unfold isSigner. by rewrite lookup_delete_ne by done.
Qed.

(** The header does not cast a vote in a voter election. *)
Definition signerElection (header : Header) : Prop := snd (headerVote header) = false.

Definition ExactS (s : Snapshot) : Prop := Exact (sSigners s) (sVotes s) (sTally s).

Lemma isSigner_insert sg a k b : is_Some (sg !! a) -> isSigner (<[a := k]> sg) b = isSigner sg b.
Proof.
  intros Ha. unfold isSigner. rewrite lookup_insert. case_decide; [subst|done].
  by rewrite !bool_decide_eq_true_2 by done.
Qed.

Lemma Exact_sg sg sg' votes t :
  (forall a, isSigner sg' a = isSigner sg a) -> Exact sg votes t -> Exact sg' votes t.
Proof.
  intros Hsg [Hc Hpos Hdir Hv]. constructor; try done.
  - intros a x Hx. rewrite Hsg. eauto.
  - intros v Hin. rewrite Hsg. eauto.
Qed.

Lemma applySigned_exact snap signer number header snap' :
  signerElection header -> ExactS snap ->
  applySigned snap signer number header = Ok snap' -> ExactS snap'.
Proof.
  unfold signerElection, ExactS. intros Hel Hex. unfold applySigned.
  destruct (sSigners snap !! signer) as [last|] eqn:Hl; [|done].
  destruct (_ && _); [done|]. set (s1 := with_signers snap _).
  assert (Exact (sSigners s1) (sVotes s1) (sTally s1)) as H1.
  { eapply Exact_sg; [|exact Hex]. intros a. apply isSigner_insert. by rewrite Hl. }
  case_bool_decide; [|by intros [= <-]].
  rewrite applyVote_staged. destruct (headerAuthorize header) as [auth|]; [|done].
  destruct (headerVote header) as [c ve]. cbn in Hel. subst ve. intros [= <-].
  pose proof (castVote_frame s1 signer number c auth false) as (_ & _ & _ & E1 & _).
  pose proof (Exact_castVote s1 signer number c auth H1) as H2.
  rewrite <- E1 in H2. destruct (passes _ _); [by apply Exact_enact|done].
Qed.

Section ExactProofs.
Context `{Crypto} {SC : Type} `{Cache SC Z Z}.

Lemma applyHeader_exact snap header (c : SC) snap' c' :
  signerElection header -> ExactS snap ->
  applyHeader snap header c = (Ok snap', c') -> ExactS snap'.
Proof.
  intros Hel Hex. unfold applyHeader.
  destruct (uint64Of _) as [k| | |]; try done. destruct (_ =? 0); [done|].
  destruct (ecrecover header c) as [[signer| | |] c1]; cbn [rbind]; try done.
  intros [= E _]. eapply applySigned_exact; [done| |done].
  unfold resetOnEpoch. case_match; [apply Exact_empty|done].
Qed.

Lemma applyHeaders_exact snap headers (c : SC) snap' c' :
  Forall signerElection headers -> ExactS snap ->
  applyHeaders snap headers c = (Ok snap', c') -> ExactS snap'.
Proof.
  intros Hel. revert snap c. induction Hel as [|h rest Hh Hrest IH]; intros snap c Hex.
  - by intros [= <- _].
  - cbn [applyHeaders]. destruct (applyHeader snap h c) as [[s1| | |] c1] eqn:E; [|done..].
    apply IH. by eapply applyHeader_exact.
Qed.

Lemma apply_exact s headers (c : SC) s' c' :
  Forall signerElection headers -> ExactS s ->
  apply s headers c = (Ok s', c') -> ExactS s'.
Proof.
  intros Hel Hex Ha. destruct headers as [|h rest]; [by injection Ha as <- _|].
  apply (apply_nonempty _ _ _ _ _ h) in Ha as (_ & snap & E & ->); [|done].
  by eapply applyHeaders_exact in E.
Qed.
End ExactProofs.

(** ** The majority behind a membership change *)

(** The voters behind the live votes on an account. *)
Definition supporters (c : Address) (votes : list Vote) : gset Z :=
  list_to_set (vSigner <$> filter (fun v => vAddress v = c) votes).

Lemma supporters_size c votes :
  NoDup (voteKey <$> votes) -> Z.of_nat (size (supporters c votes)) = countOn c votes.
Proof.
  intros Hnd. unfold supporters, countOn. rewrite size_list_to_set, length_fmap; [done|].
  assert (NoDup (voteKey <$> filter (fun v => vAddress v = c) votes)) as H
    by (eapply sublist_NoDup; [exact Hnd|]; apply fmap_sublist, sublist_filter).
  assert (Forall (fun v => vAddress v = c) (filter (fun v => vAddress v = c) votes)) as Hf
    by (apply Forall_forall; intros v [? _]%list_elem_of_filter; done).
  induction Hf as [|v l Hv Hf IH]; [constructor|].
  cbn in H. apply NoDup_cons in H as [H1 H2]. cbn. apply NoDup_cons. split; [|by apply IH].
  intros (w & Hw & Hin)%list_elem_of_fmap. apply H1. apply list_elem_of_fmap. exists w.
  split; [|done]. unfold voteKey. rewrite Forall_forall in Hf. rewrite (Hf w Hin). congruence.
Qed.

Lemma castVote_supporters snap signer number c auth ve w :
  w ∈ supporters c (sVotes (castVote snap signer number c auth ve)) ->
  w = signer \/ w ∈ supporters c (sVotes snap).
Proof.
  unfold supporters. rewrite !elem_of_list_to_set.
  intros (v & -> & [Hv Hin]%list_elem_of_filter)%list_elem_of_fmap. revert Hin. unfold castVote.
  destruct (discardPrevious _ _ _ _) as [votes tally] eqn:Hd.
  assert (forall x, x ∈ votes -> x ∈ sVotes snap) as Hsub.
  { intros x. pose proof (discardPrevious_sub signer c (sVotes snap) (sTally snap) x) as Hx.
    by rewrite Hd in Hx. }
  assert (v ∈ votes -> vSigner v ∈ vSigner <$> filter (fun v => vAddress v = c) (sVotes snap)) as Hold.
  { intros Hin. apply list_elem_of_fmap. exists v. split; [done|]. apply list_elem_of_filter. auto. }
  unfold cast. destruct (negb _); cbn; [auto|].
  intros [Hin | ->%list_elem_of_singleton]%elem_of_app; auto.
Qed.

Lemma enact_others snap c a :
  a <> c ->
  sSigners (enact snap c) !! a = sSigners snap !! a /\
  (a ∈ sVoters (enact snap c) <-> a ∈ sVoters snap).
Proof.
  intros Hne. unfold enact. cbn.
  destruct (tAuthorize _); case_bool_decide; cbn;
    rewrite ?lookup_insert_ne, ?lookup_delete_ne by done; try (split; [done|set_solver]).
  destruct (discardCastBy _ _ _). cbn. split; [done|]. set_solver.
Qed.

Lemma applyVote_majority snap signer number header snap' :
  VotesInv (sVoters snap) (sVotes snap) (sTally snap) -> ExactS snap -> signer ∈ sVoters snap -> signerElection header ->
  applyVote snap signer number header = Ok snap' ->
  dom (sSigners snap') = dom (sSigners snap) /\ sVoters snap' = sVoters snap \/
  exists W : gset Z,
    W ⊆ sVoters snap /\ 2 * Z.of_nat (size W) > Z.of_nat (size (sVoters snap)) /\
    forall w, w ∈ W -> w = signer \/ w ∈ supporters (fst (headerVote header)) (sVotes snap).
Proof.
  intros Hinv Hex Hs Hel. rewrite applyVote_staged.
  destruct (headerAuthorize header) as [auth|]; [|done].
  unfold signerElection in Hel. destruct (headerVote header) as [c ve]. cbn in Hel |- *. subst ve.
  intros [= <-]. set (s1 := castVote snap signer number c auth false).
  pose proof (castVote_frame snap signer number c auth false) as (_ & _ & _ & E1 & E2). fold s1 in E1, E2.
  destruct (passes s1 c) eqn:Hp; [|left; by rewrite E1, E2].
  right. exists (supporters c (sVotes s1)).
  pose proof (VotesInv_castVote snap signer number c auth false Hinv Hs) as Hv.
  pose proof (Exact_castVote snap signer number c auth Hex) as Hx. fold s1 in Hv, Hx.
  split_and!.
  - intros w Hw. unfold supporters in Hw. rewrite elem_of_list_to_set in Hw.
    apply list_elem_of_fmap in Hw as (v & -> & [_ Hin]%list_elem_of_filter).
    by apply (vi_by _ _ _ Hv).
  - rewrite supporters_size by apply Hv. rewrite <- (ex_count _ _ _ Hx).
    unfold passes in Hp. rewrite E2 in Hp. rewrite Z.gtb_lt in Hp.
    pose proof (Z.div_mod (Z.of_nat (size (sVoters snap))) 2).
    pose proof (Z.mod_pos_bound (Z.of_nat (size (sVoters snap))) 2). lia.
  - intros w Hw. by eapply castVote_supporters.
Qed.

(** ** Spacing of seals *)

Record seal := mkSeal { sealNumber : Z; sealSigner : Address; sealQuorum : Z }.

Section Seals.
Context `{Crypto} {SC : Type} `{Cache SC Z Z}.

(** The seals that [applyHeaders] accepts: block number, recovered signer and
    number of signers of the snapshot the seal is checked against. *)
Fixpoint seals (snap : Snapshot) (headers : list Header) (c : SC) : list seal :=
  match headers with
  | [] => []
  | h :: rest =>
      match applyHeader snap h c, uint64Of (E := cliqueErr) (hNumber h), ecrecover h c with
      | (Ok snap', c'), Ok number, (Ok signer, _) =>
          mkSeal number signer (Z.of_nat (size (sSigners snap))) :: seals snap' rest c'
      | _, _, _ => []
      end
  end.

Lemma applySigned_last snap b number header snap' a :
  applySigned snap b number header = Ok snap' -> fst (headerVote header) <> a ->
  sSigners snap' !! a = if decide (b = a) then Some number else sSigners snap !! a.
Proof.
  unfold applySigned. destruct (sSigners snap !! b) as [last|] eqn:Hl; [|done].
  destruct (_ && _); [done|]. set (s1 := with_signers snap _).
  assert (sSigners s1 !! a = if decide (b = a) then Some number else sSigners snap !! a) as H1
    by (cbn; rewrite lookup_insert; done).
  case_bool_decide; [|intros [= <-] _; done].
  rewrite applyVote_staged. destruct (headerAuthorize header) as [auth|]; [|done].
  destruct (headerVote header) as [cand ve]. cbn [fst]. intros [= <-] Hne.
  pose proof (castVote_frame s1 b number cand auth ve) as (_ & _ & _ & E1 & _).
  rewrite <- H1, <- E1. destruct (passes _ _); [|done].
  by apply enact_others.
Qed.

Lemma applySigned_spacing snap a number header snap' k :
  applySigned snap a number header = Ok snap' -> sSigners snap !! a = Some k -> 0 < k ->
  u64 (k + Z.of_nat (size (sSigners snap)) / 2 + 1) <= number.
Proof.
  unfold applySigned. intros E Hk Hpos. rewrite Hk in E.
  destruct (_ && _) eqn:Hr; [done|]. apply andb_false_iff in Hr as [Hr|Hr].
  - rewrite Z.gtb_ltb in Hr. bools. lia.
  - bools. done.
Qed.

Lemma reset_signers snap number : sSigners (resetOnEpoch snap number) = sSigners snap.
Proof. unfold resetOnEpoch. by case_match. Qed.

(** One accepted header, taken apart. *)
Lemma applyHeader_Ok snap h (c : SC) snap' c' :
  applyHeader snap h c = (Ok snap', c') ->
  exists number signer,
    uint64Of (E := cliqueErr) (hNumber h) = Ok number /\
    ecrecover h c = (Ok signer, c') /\
    applySigned (resetOnEpoch snap number) signer number h = Ok snap'.
Proof.
  unfold applyHeader. destruct (uint64Of _) as [k| | |]; try done. destruct (_ =? 0); [done|].
  destruct (ecrecover h c) as [[signer| | |] c1]; cbn [rbind]; try done.
  intros [= E ->]. eauto.
Qed.

Lemma seals_cons snap h rest (c : SC) snap' c' :
  applyHeader snap h c = (Ok snap', c') ->
  exists number signer,
    uint64Of (E := cliqueErr) (hNumber h) = Ok number /\
    applySigned (resetOnEpoch snap number) signer number h = Ok snap' /\
    seals snap (h :: rest) c
      = mkSeal number signer (Z.of_nat (size (sSigners snap))) :: seals snap' rest c'.
Proof.
  intros E. destruct (applyHeader_Ok _ _ _ _ _ E) as (number & signer & H1 & H2 & H3).
  exists number, signer. split_and!; [done|done|]. cbn [seals]. by rewrite E, H1, H2.
Qed.

(** A signer that last signed block [k] does not seal a block before
    [k + N/2 + 1], when there are always at least [N] signers. *)
Lemma seals_spacing n N snap headers (c : SC) snap' c' a k :
  0 < k <= n -> n + blen headers < 2 ^ 63 ->
  numbered n headers -> applyHeaders snap headers c = (Ok snap', c') ->
  sSigners snap !! a = Some k ->
  Forall (fun h => fst (headerVote h) <> a) headers ->
  Forall (fun s => N <= sealQuorum s < 2 ^ 63) (seals snap headers c) ->
  Forall (fun s => sealSigner s = a -> k + N / 2 + 1 <= sealNumber s) (seals snap headers c).
Proof.
  revert n k snap c.
  induction headers as [|h rest IH]; intros n k snap c Hk Hlt Hnum; [constructor|].
  cbn [applyHeaders]. destruct (applyHeader snap h c) as [[s1| | |] c1] eqn:E; [|done..].
  destruct (seals_cons snap h rest c s1 c1 E) as (number & signer & Hn & Hs & ->).
  destruct Hnum as [Hn' Hnum]. rewrite Hn in Hn'. injection Hn' as ->.
  unfold blen in *. cbn [length] in *.
  rewrite u64_small in * by (unfold is_u64; lia).
  intros Hrest Hka Hv Hq. apply Forall_cons in Hv as [Hvh Hv]. apply Forall_cons in Hq as [Hqh Hq].
  cbn [sealQuorum] in Hqh.
  pose proof (applySigned_last _ _ _ _ _ a Hs Hvh) as Hlast. rewrite reset_signers in Hlast.
  assert (signer = a -> k + N / 2 + 1 <= n + 1) as Hself.
  { intros ->. pose proof (applySigned_spacing _ _ _ _ _ k Hs) as Hsp.
    rewrite reset_signers in Hsp. specialize (Hsp Hka ltac:(lia)).
    set (m := Z.of_nat (size (sSigners snap))) in *.
    pose proof (Z.div_mod m 2 ltac:(lia)). pose proof (Z.mod_pos_bound m 2 ltac:(lia)).
    rewrite u64_small in Hsp by (unfold is_u64; lia).
    pose proof (Z.div_le_mono N m 2 ltac:(lia) ltac:(lia)). lia. }
  constructor; [cbn; done|].
  destruct (decide (signer = a)) as [->|Hne].
  - eapply Forall_impl; [apply (IH (n + 1) (n + 1) s1 c1); try done; lia|].
    cbn. intros s Hsp Heq. specialize (Hsp Heq). specialize (Hself eq_refl). lia.
  - apply (IH (n + 1) k s1 c1); try done; [lia|lia|congruence].
Qed.

Lemma seals_number_bound n snap headers (c : SC) snap' c' :
  0 <= n -> n + blen headers < 2 ^ 63 ->
  numbered n headers -> applyHeaders snap headers c = (Ok snap', c') ->
  Forall (fun s => sealNumber s <= n + blen headers) (seals snap headers c).
Proof.
  revert n snap c. induction headers as [|h rest IH]; intros n snap c Hn Hlt Hnum; [constructor|].
  cbn [applyHeaders]. destruct (applyHeader snap h c) as [[s1| | |] c1] eqn:E; [|done..].
  destruct (seals_cons snap h rest c s1 c1 E) as (number & sg & Hnb & _ & ->).
  destruct Hnum as [Hn' Hnum]. rewrite Hnb in Hn'. injection Hn' as ->.
  unfold blen in *. cbn [length] in *.
  rewrite u64_small in * by (unfold is_u64; lia). intros Hr. constructor; [cbn; lia|].
  eapply Forall_impl; [eapply (IH (n + 1)); eauto; lia|]. cbn. lia.
Qed.

Lemma seals_length snap headers (c : SC) snap' c' :
  applyHeaders snap headers c = (Ok snap', c') -> length (seals snap headers c) = length headers.
Proof.
  revert snap c. induction headers as [|h rest IH]; intros snap c; [done|].
  cbn [applyHeaders]. destruct (applyHeader snap h c) as [[s1| | |] c1] eqn:E; [|done..].
  destruct (seals_cons snap h rest c s1 c1 E) as (number & sg & _ & _ & ->).
  intros Hr. cbn. by rewrite (IH s1 c1).
Qed.

(** In a window of at most [N/2 + 1] consecutive blocks the seals are by
    pairwise different signers. *)
Lemma seals_window n N snap headers (c : SC) snap' c' :
  0 <= n -> n + blen headers < 2 ^ 63 -> blen headers <= N / 2 + 1 ->
  numbered n headers -> applyHeaders snap headers c = (Ok snap', c') ->
  Forall (fun h => forall s, s ∈ seals snap headers c -> fst (headerVote h) <> sealSigner s) headers ->
  Forall (fun s => N <= sealQuorum s < 2 ^ 63) (seals snap headers c) ->
  NoDup (sealSigner <$> seals snap headers c).
Proof.
  revert n snap c.
  induction headers as [|h rest IH]; intros n snap c Hn Hlt Hlen Hnum; [constructor|].
  cbn [applyHeaders]. destruct (applyHeader snap h c) as [[s1| | |] c1] eqn:E; [|done..].
  destruct (seals_cons snap h rest c s1 c1 E) as (number & signer & Hnb & Hs & ->).
  destruct Hnum as [Hn' Hnum]. rewrite Hnb in Hn'. injection Hn' as ->.
  unfold blen in *. cbn [length] in *.
  rewrite u64_small in * by (unfold is_u64; lia).
  intros Hrest Hv Hq. apply Forall_cons in Hv as [Hvh Hv]. apply Forall_cons in Hq as [Hqh Hq].
  assert (fst (headerVote h) <> signer) as Hvs by exact (Hvh _ (list_elem_of_here _ _)).
  pose proof (applySigned_last _ _ _ _ _ signer Hs Hvs) as Hlast.
  rewrite decide_True in Hlast by done.
  rewrite fmap_cons. cbn [sealSigner]. constructor.
  - intros (s & Hsa & Hin)%list_elem_of_fmap.
    assert (Forall (fun s => sealSigner s = signer -> (n + 1) + N / 2 + 1 <= sealNumber s)
              (seals s1 rest c1)) as Hsp.
    { apply (seals_spacing (n + 1) N s1 rest c1 snap' c'); try done; unfold blen; try lia.
      eapply Forall_impl; [exact Hv|]. cbn. intros x Hx. exact (Hx _ (list_elem_of_here _ _)). }
    rewrite Forall_forall in Hsp. specialize (Hsp s Hin (eq_sym Hsa)).
    pose proof (seals_number_bound (n + 1) s1 rest c1 snap' c') as Hb.
    unfold blen in Hb. specialize (Hb ltac:(lia) ltac:(lia) Hnum Hrest).
    rewrite Forall_forall in Hb. specialize (Hb s Hin). unfold blen in Hb. lia.
  - eapply (IH (n + 1)); eauto; try lia.
    eapply Forall_impl; [exact Hv|]. cbn. intros x Hx s Hin. apply Hx. by right.
Qed.

End Seals.

(** ** Majorities along a chain *)

Lemma reset_votes snap number :
  VotesInv (sVoters snap) (sVotes snap) (sTally snap) -> ExactS snap ->
  let s := resetOnEpoch snap number in
  VotesInv (sVoters s) (sVotes s) (sTally s) /\ ExactS s /\ sVoters s = sVoters snap /\
  forall c w, w ∈ supporters c (sVotes s) -> w ∈ supporters c (sVotes snap).
Proof.
  intros Hv Hx. unfold resetOnEpoch. destruct (_ =? 0); cbn; [|auto].
  split_and!; [apply VotesInv_empty|apply Exact_empty|done|]. intros c w. unfold supporters. set_solver.
Qed.

(** A header that changes the membership carries a majority. *)
Lemma apply_one_majority {CR : Crypto} {SC : Type} {SCI : Cache SC Z Z} s h (c : SC) s' c' :
  VotesInv (sVoters s) (sVotes s) (sTally s) -> ExactS s -> signerElection h ->
  apply s [h] c = (Ok s', c') ->
  dom (sSigners s') <> dom (sSigners s) \/ sVoters s' <> sVoters s ->
  exists (signer : Address) (W : gset Z),
    fst (ecrecover h c) = Ok signer /\ W ⊆ sVoters s /\
    2 * Z.of_nat (size W) > Z.of_nat (size (sVoters s)) /\
    forall w, w ∈ W -> w = signer \/ w ∈ supporters (fst (headerVote h)) (sVotes s).
Proof.
  intros Hv Hx Hel Ha Hch.
  apply (apply_nonempty _ _ _ _ _ h) in Ha as (_ & snap & Ha & ->); [|done].
  cbn [sSigners sVoters with_head applyHeaders] in *.
  destruct (applyHeader s h c) as [[s1| | |] c1] eqn:E; try done. injection Ha as -> ->.
  apply applyHeader_Ok in E as (number & signer & _ & Er & E).
  destruct (reset_votes s number Hv Hx) as (Hv' & Hx' & Evs & Hsup).
  pose proof (reset_signers s number) as Esg. set (sr := resetOnEpoch s number) in *.
  unfold applySigned in E. rewrite Esg in E.
  destruct (sSigners s !! signer) as [last|] eqn:El; [|done]. destruct (_ && _); [done|].
  assert (dom (<[signer := number]> (sSigners s)) = dom (sSigners s)) as Ed
    by (apply leibniz_equiv; rewrite dom_insert; apply elem_of_dom_2 in El; set_solver).
  case_bool_decide as Hsv.
  2:{ injection E as <-. cbn in Hch. rewrite Evs, Ed in Hch. by destruct Hch. }
  apply applyVote_majority in E as [[E1 E2]|(W & HW1 & HW2 & HW3)]; [| |done| |done|done].
  - cbn in E1, E2. rewrite E1, E2, Ed, Evs in Hch. by destruct Hch.
  - exists signer, W. cbn in *. rewrite Er, <- Evs. split_and!; try done.
    intros w Hw. destruct (HW3 w Hw); auto.
  - cbn. unfold ExactS in *. cbn. eapply Exact_sg; [|exact Hx'].
    intros a. rewrite Esg. apply isSigner_insert. eauto.
Qed.
