(* ===== verification/CliqueTurns.v ===== *)
(** * Package consensus/clique: turns, sorted lists and extra data

    Facts about the pure functions of src/consensus/clique: the difficulty rule
    that orders the signers ([CalcDifficulty]), the sorted signer and voter lists
    of checkpoint headers, and the encoding of a vote in the extra data. *)

From stdpp Require Import base numbers list gmap sets option sorting.
From Stdlib Require Import ZArith Lia Strings.Byte.
From S2P Require Import Prelude Common Params Types CliqueSnapshot CliqueVoting.

(** ** Ranks in a finite strict order *)

Section Rank.
Context {A : Type} (R : A -> A -> Prop) `{!forall x y, Decision (R x y)} (l : list A).
Hypothesis Hnodup : NoDup l.
Hypothesis Hirr : forall x, x ∈ l -> ~ R x x.
Hypothesis Htrans : forall x y z, x ∈ l -> y ∈ l -> z ∈ l -> R x y -> R y z -> R x z.
Hypothesis Htotal : forall x y, x ∈ l -> y ∈ l -> x = y \/ R x y \/ R y x.

(** The number of elements above [x]. *)
Definition rank (x : A) : nat := length (filter (R x) l).

Lemma rank_lt x y : x ∈ l -> y ∈ l -> R x y -> (rank y < rank x)%nat.
Proof.
  intros Hx Hy Hxy. unfold rank.
  assert (y :: filter (R y) l ⊆+ filter (R x) l) as Hsub.
  { apply NoDup_submseteq.
    - constructor; [|by apply NoDup_filter]. rewrite list_elem_of_filter.
      intros [? _]. by apply (Hirr y).
    - intros z [->|Hz]%elem_of_cons; apply list_elem_of_filter; [done|].
      apply list_elem_of_filter in Hz as [? ?]. eauto. }
  apply submseteq_length in Hsub. cbn in Hsub. lia.
Qed.

Lemma rank_bound x : x ∈ l -> (rank x < length l)%nat.
Proof.
  intros Hx. unfold rank.
  assert (x :: filter (R x) l ⊆+ l) as Hsub.
  { apply NoDup_submseteq.
    - constructor; [|by apply NoDup_filter]. rewrite list_elem_of_filter.
      intros [? _]. by apply (Hirr x).
    - intros z [->|Hz]%elem_of_cons; [done|]. by apply list_elem_of_filter in Hz as [_ ?]. }
  apply submseteq_length in Hsub. cbn in Hsub. lia.
Qed.

Lemma rank_inj x y : x ∈ l -> y ∈ l -> rank x = rank y -> x = y.
Proof.
  intros Hx Hy E. destruct (Htotal x y Hx Hy) as [?|[Hr|Hr]]; [done| |];
    apply rank_lt in Hr; auto; lia.
Qed.

(** The ranks are exactly [0 .. length l - 1]. *)
Lemma rank_onto k : (k < length l)%nat -> exists x, x ∈ l /\ rank x = k.
Proof.
  intros Hk.
  assert (seq 0 (length l) ⊆ rank <$> l) as Hsub.
  { assert (NoDup (rank <$> l)) as Hnd.
    { apply NoDup_fmap_2_strong; [|done]. intros; by apply rank_inj. }
    pose proof (NoDup_submseteq (rank <$> l) (seq 0 (length l)) Hnd) as Hs.
    intros z Hz.
    rewrite <- (submseteq_length_Permutation (rank <$> l) (seq 0 (length l))) in Hz; [done| |].
    - apply Hs. intros x (y & -> & Hy)%list_elem_of_fmap. apply elem_of_seq.
      pose proof (rank_bound y Hy). lia.
    - rewrite length_fmap, length_seq. lia. }
  specialize (Hsub k). rewrite elem_of_seq in Hsub.
  destruct (proj1 (list_elem_of_fmap _ _ _) (Hsub ltac:(lia))) as (x & -> & ?). eauto.
Qed.

End Rank.

(** ** CalcDifficulty *)

(** [y] has lower priority than [x]: it signed later, or neither signed yet and
    its address sorts later. *)
Definition outranks (x y : Address * Z) : Prop :=
  snd x < snd y \/ snd x = 0 /\ snd y = 0 /\ fst x < fst y.
#[global] Instance outranks_dec x y : Decision (outranks x y).
Proof. unfold outranks. apply _. Defined.

(** The signer maps of well-formed snapshots. *)
Definition SignersOk (m : gmap Z Z) : Prop :=
  (forall a k, m !! a = Some k -> is_address a /\ 0 <= k) /\
  (forall a b k, 0 < k -> m !! a = Some k -> m !! b = Some k -> a = b).

Lemma SnapInv_SignersOk n s : SnapInv n s -> SignersOk (sSigners s).
Proof.
  intros [Had _ Hlast Hinj _]. split; [|done].
  intros a k Hk. split; [apply Had; eauto|]. apply Hlast in Hk. lia.
Qed.

Lemma addressGt_lt a b : is_address a -> is_address b -> addressGt a b = (b <? a).
Proof.
  intros Ha Hb. unfold addressGt, AddressBytes.
  rewrite bytes_compare_value by (by rewrite !length_be_bytes).
  rewrite !be_value_be_bytes. change (256 ^ Z.of_nat 20) with (2 ^ 160).
  unfold is_address in *. rewrite !Z.mod_small by lia. unfold Z.ltb. rewrite (Z.compare_antisym a b).
  by destruct (a ?= b).
Qed.

(** The counting loops. *)
Lemma foldl_count {A} (f : A -> bool) (l : list A) d :
  foldl (fun d x => if f x then d + 1 else d) d l
  = d + Z.of_nat (length (filter (fun x => f x = true) l)).
Proof.
  revert d. induction l as [|x l IH]; intros d; [cbn; lia|]. cbn [foldl]. rewrite IH.
  rewrite filter_cons. destruct (f x) eqn:E; case_decide; cbn [length]; try done; lia.
Qed.

Lemma foldl_count_pair {A B} (f : A -> B -> bool) (l : list (A * B)) d :
  foldl (fun d '(x, y) => if f x y then d + 1 else d) d l
  = d + Z.of_nat (length (filter (fun p => f (fst p) (snd p) = true) l)).
Proof.
  rewrite <- (foldl_count (fun p => f (fst p) (snd p))). revert d.
  induction l as [|[x y] l IH]; intros d; cbn; [done|]. by rewrite IH.
Qed.

Definition priority (m : gmap Z Z) (x : Address * Z) : nat := rank outranks (map_to_list m) x.

Lemma CalcDifficulty_rank m a k :
  SignersOk m -> m !! a = Some k ->
  CalcDifficulty m a =
  (let d := 1 + Z.of_nat (priority m (a, k)) in
   if d <=? Z.of_nat (size m) / 2 then 0 else d).
Proof.
  intros [Hok _] Hk. unfold CalcDifficulty, priority, rank. rewrite Hk. change (default 0 (Some k)) with k.
  destruct (Hok a k Hk) as [Ha Hk0].
  enough (forall d d', d = d' -> (if d <=? Z.of_nat (size m) / 2 then 0 else d)
    = (if d' <=? Z.of_nat (size m) / 2 then 0 else d')) as Hc; [|by intros ? ? ->].
  cbn zeta. apply Hc. destruct (k >? 0) eqn:E; rewrite Z.gtb_ltb in E; bools.
  - rewrite (foldl_count_pair (fun _ n => n >? k)). do 3 f_equal.
    apply list_filter_iff. intros [b n]. unfold outranks. cbn. rewrite Z.gtb_lt. lia.
  - rewrite (foldl_count_pair (fun addr n => (n >? 0) || addressGt addr a)). do 2 f_equal.
    assert (k = 0) as -> by lia. f_equal. apply filter_ext_in. intros [b n] Hb.
    apply elem_of_map_to_list in Hb. destruct (Hok _ _ Hb) as [Hba Hn]. unfold outranks. cbn.
    rewrite addressGt_lt by done. rewrite orb_true_iff, Z.gtb_lt, Z.ltb_lt. lia.
Qed.

Section Difficulty.
Context (m : gmap Z Z) (Hok : SignersOk m).

Lemma outranks_irr x : x ∈ map_to_list m -> ~ outranks x x.
Proof. unfold outranks. lia. Qed.

Lemma outranks_trans x y z :
  x ∈ map_to_list m -> y ∈ map_to_list m -> z ∈ map_to_list m ->
  outranks x y -> outranks y z -> outranks x z.
Proof.
  destruct Hok as [Hr _], x as [a i], y as [b j], z as [c k]. rewrite !elem_of_map_to_list.
  intros [_ ?]%Hr [_ ?]%Hr [_ ?]%Hr. unfold outranks. cbn. lia.
Qed.

Lemma outranks_total x y :
  x ∈ map_to_list m -> y ∈ map_to_list m -> x = y \/ outranks x y \/ outranks y x.
Proof.
  destruct Hok as [Hr Hinj], x as [a i], y as [b j]. rewrite !elem_of_map_to_list.
  intros Ha Hb. pose proof (Hr _ _ Ha) as [_ Hi]. unfold outranks. cbn.
  destruct (Z.lt_total i j) as [?|[<-|?]]; [lia| |lia].
  destruct (Z.lt_total a b) as [?|[<-|?]]; [|by left|].
  - destruct (Z.eq_dec i 0); [lia|]. pose proof (Hinj a b i ltac:(lia) Ha Hb). lia.
  - destruct (Z.eq_dec i 0); [lia|]. pose proof (Hinj a b i ltac:(lia) Ha Hb). lia.
Qed.

Lemma priority_bound a k : m !! a = Some k -> (priority m (a, k) < size m)%nat.
Proof.
  intros Hk. rewrite <- length_map_to_list.
  apply rank_bound; [apply NoDup_map_to_list|apply outranks_irr|by apply elem_of_map_to_list].
Qed.

Lemma priority_inj a i b j :
  m !! a = Some i -> m !! b = Some j -> priority m (a, i) = priority m (b, j) -> a = b.
Proof.
  rewrite <- !elem_of_map_to_list. intros Ha Hb E.
  enough ((a, i) = (b, j)) by congruence.
  exact (rank_inj outranks (map_to_list m) (NoDup_map_to_list m) outranks_irr
    outranks_trans outranks_total _ _ Ha Hb E).
Qed.

Lemma priority_onto n : (n < size m)%nat -> exists a k, m !! a = Some k /\ priority m (a, k) = n.
Proof.
  rewrite <- length_map_to_list. intros Hn.
  destruct (rank_onto outranks (map_to_list m) (NoDup_map_to_list m) outranks_irr
    outranks_trans outranks_total n Hn) as ([a k] & Hin & <-).
  apply elem_of_map_to_list in Hin. eauto.
Qed.

(** Every signer's difficulty is 0 or in [n/2 + 1 .. n]. *)
Lemma difficulty_range a :
  is_Some (m !! a) ->
  CalcDifficulty m a = 0 \/
  Z.of_nat (size m) / 2 + 1 <= CalcDifficulty m a <= Z.of_nat (size m).
Proof.
  intros [k Hk]. rewrite (CalcDifficulty_rank m a k Hok Hk). cbn zeta.
  pose proof (priority_bound a k Hk). case_match; bools; lia.
Qed.

(** Two signers with the same non-zero difficulty are the same. *)
Lemma difficulty_inj a b :
  is_Some (m !! a) -> is_Some (m !! b) -> CalcDifficulty m a <> 0 ->
  CalcDifficulty m a = CalcDifficulty m b -> a = b.
Proof.
  intros [i Hi] [j Hj]. rewrite (CalcDifficulty_rank m a i), (CalcDifficulty_rank m b j) by done.
  cbn zeta. intros Hne E. apply (priority_inj a i b j Hi Hj).
  repeat case_match; bools; lia.
Qed.

(** Every difficulty in [n/2 + 1 .. n] belongs to a signer. *)
Lemma difficulty_onto d :
  Z.of_nat (size m) / 2 + 1 <= d <= Z.of_nat (size m) ->
  exists a, is_Some (m !! a) /\ CalcDifficulty m a = d.
Proof.
  intros Hd. assert (0 <= Z.of_nat (size m) / 2) by (apply Z.div_pos; lia).
  destruct (priority_onto (Z.to_nat (d - 1))) as (a & k & Hk & Hp); [lia|].
  exists a. split; [eauto|]. rewrite (CalcDifficulty_rank m a k Hok Hk), Hp. cbn zeta.
  case_match; bools; lia.
Qed.

End Difficulty.

(** ** The spacing rule and the difficulty *)

(** Signers that signed after block [k] signed pairwise different blocks of
    [k+1 .. n], so there are at most [n - k] of them. *)
Lemma later_signers_bound n m k :
  SignersOk m -> (forall a j, m !! a = Some j -> j <= n) -> 0 <= k <= n ->
  Z.of_nat (length (filter (fun p => k < p.2) (map_to_list m))) <= n - k.
Proof.
  intros [Hr Hinj] Hn Hk. set (l := filter _ _).
  assert (NoDup (snd <$> l)) as Hnd.
  { apply NoDup_fmap_2_strong; [|apply NoDup_filter, NoDup_map_to_list].
    intros [a i] [b j] Ha Hb. cbn. intros <-.
    apply list_elem_of_filter in Ha as [? Ha], Hb as [_ Hb].
    apply elem_of_map_to_list in Ha, Hb. cbn in *. f_equal. apply (Hinj a b i); [lia|done..]. }
  assert (Forall (fun j => k < j <= n) (snd <$> l)) as Hb.
  { rewrite Forall_fmap, Forall_forall. intros [a i] Ha.
    apply list_elem_of_filter in Ha as [? Ha]. apply elem_of_map_to_list in Ha.
    cbn in *. pose proof (Hn _ _ Ha). lia. }
  assert ((fun j => Z.to_nat (j - k - 1)) <$> (snd <$> l) ⊆+ seq 0 (Z.to_nat (n - k))) as Hsub.
  { rewrite Forall_forall in Hb. apply NoDup_submseteq.
    - apply NoDup_fmap_2_strong; [|done]. intros x y Hx%Hb Hy%Hb. lia.
    - intros z (j & -> & Hj%Hb)%list_elem_of_fmap. apply elem_of_seq. lia. }
  apply submseteq_length in Hsub. rewrite !length_fmap, length_seq in Hsub. lia.
Qed.

(** A signer that the spacing rule refuses for the next block has difficulty 0. *)
Lemma recent_difficulty n s a k :
  SnapInv n s -> sSigners s !! a = Some k -> 0 < k -> n + 1 < 2 ^ 63 ->
  Z.of_nat (size (sSigners s)) < 2 ^ 63 ->
  n + 1 < nextSignableBlockNumber s k -> CalcDifficulty (sSigners s) a = 0.
Proof.
  intros Hinv Hk Hpos Hn Hsz. pose proof (SnapInv_SignersOk _ _ Hinv) as Hok.
  pose proof (si_last _ _ Hinv _ _ Hk) as Hkn. unfold nextSignableBlockNumber.
  set (N := Z.of_nat (size (sSigners s))) in *.
  pose proof (Z.div_mod N 2 ltac:(lia)). pose proof (Z.mod_pos_bound N 2 ltac:(lia)).
  rewrite u64_small by (unfold is_u64; lia). intros Hnext.
  rewrite (CalcDifficulty_rank _ a k Hok Hk). cbn zeta.
  pose proof (later_signers_bound n (sSigners s) k Hok) as Hb.
  rewrite (list_filter_iff (fun p => k < p.2) (outranks (a, k))) in Hb.
  2:{ intros [b j]. unfold outranks. cbn. lia. }
  specialize (Hb ltac:(intros b j Hj; apply (si_last _ _ Hinv) in Hj; lia) ltac:(lia)).
  unfold priority, rank. fold N. case_match; [done|]. bools. lia.
Qed.

(** ** Sorted lists *)

Lemma addresses_compare x y :
  is_address x -> is_address y -> bytes_compare (AddressBytes x) (AddressBytes y) = (x ?= y).
Proof.
  intros Hx Hy. unfold AddressBytes.
  rewrite bytes_compare_value by (by rewrite !length_be_bytes).
  rewrite !be_value_be_bytes. change (256 ^ Z.of_nat 20) with (2 ^ 160).
  unfold is_address in *. by rewrite !Z.mod_small by lia.
Qed.

Lemma selectMin_cons x y l :
  is_address x -> is_address y ->
  selectMin x (y :: l) =
  if y <? x then let '(m, r) := selectMin y l in (m, x :: r)
  else let '(m, r) := selectMin x l in (m, y :: r).
Proof.
  intros Hx Hy. cbn [selectMin]. rewrite addresses_compare by done.
  unfold Z.ltb. rewrite (Z.compare_antisym x y). by destruct (x ?= y).
Qed.

Lemma perm_min m r x l : m :: r ≡ₚ x :: l -> Forall (fun y => m <= y) r -> m <= x.
Proof.
  intros Hp Hm. assert (Forall (fun y => m <= y) (m :: r)) as H by (constructor; [lia|done]).
  rewrite Hp in H. by apply Forall_cons in H as [? _].
Qed.

Lemma selectMin_spec x l m r :
  is_address x -> Forall is_address l -> selectMin x l = (m, r) ->
  m :: r ≡ₚ x :: l /\ Forall (fun y => m <= y) r.
Proof.
  revert x m r. induction l as [|y l IH]; intros x m r Hx Hl.
  - intros [= <- <-]. auto.
  - apply Forall_cons in Hl as [Hy Hl]. rewrite selectMin_cons by done.
    destruct (y <? x) eqn:E; bools.
    + destruct (selectMin y l) as [m' r'] eqn:S. apply IH in S as [Hp Hm]; [|done..].
      intros [= <- <-]. assert (m' <= y) by (by apply (perm_min m' r' y l)).
      split; [by rewrite (perm_swap x m'), Hp|constructor; [lia|done]].
    + destruct (selectMin x l) as [m' r'] eqn:S. apply IH in S as [Hp Hm]; [|done..].
      intros [= <- <-]. assert (m' <= x) by (by apply (perm_min m' r' x l)).
      split; [rewrite (perm_swap y m'), Hp; apply perm_swap|constructor; [lia|done]].
Qed.

Lemma exchangeSort_spec n l :
  (length l <= n)%nat -> Forall is_address l ->
  exchangeSort n l ≡ₚ l /\ StronglySorted Z.le (exchangeSort n l).
Proof.
  revert l. induction n as [|n IH]; intros [|x l] Hn Hl; cbn in *; try lia; try (split; [done|constructor]).
  apply Forall_cons in Hl as [Hx Hl]. destruct (selectMin x l) as [m r] eqn:E.
  apply selectMin_spec in E as [Hp Hm]; [|done..].
  assert (Forall is_address (m :: r)) as Hmr by (rewrite Hp; by constructor).
  apply Forall_cons in Hmr as [_ Hr].
  destruct (IH r) as [Hp' Hs]; [apply Permutation_length in Hp; cbn in Hp; lia|done|].
  split; [by rewrite Hp'|]. constructor; [done|by rewrite Hp'].
Qed.

Lemma selectMin_length x l : length (snd (selectMin x l)) = length l.
Proof.
  revert x. induction l as [|y l IH]; intros x; [done|]. cbn [selectMin length].
  destruct (bytes_compare _ _);
    match goal with |- context [selectMin ?z l] => specialize (IH z); destruct (selectMin z l) end;
    cbn in *; by rewrite IH.
Qed.

Lemma exchangeSort_length n l : length (exchangeSort n l) = length l.
Proof.
  revert l. induction n as [|n IH]; intros [|x l]; cbn [exchangeSort]; try done.
  pose proof (selectMin_length x l). destruct (selectMin x l) as [m r]. cbn in *. rewrite IH. lia.
Qed.

Lemma sortAddresses_perm l : Forall is_address l -> sortAddresses l ≡ₚ l.
Proof. intros H. by apply exchangeSort_spec. Qed.

(** The result does not depend on the order in which the map is ranged over. *)
Lemma sortAddresses_unique l1 l2 :
  Forall is_address l1 -> l1 ≡ₚ l2 -> sortAddresses l1 = sortAddresses l2.
Proof.
  intros H1 Hp. assert (Forall is_address l2) as H2 by by rewrite <- Hp.
  destruct (exchangeSort_spec (length l1) l1) as [Hp1 Hs1]; [lia|done|].
  destruct (exchangeSort_spec (length l2) l2) as [Hp2 Hs2]; [lia|done|].
  apply (StronglySorted_unique Z.le); [done..|].
  unfold sortAddresses. by rewrite Hp1, Hp2.
Qed.

(** ** Votes in the extra data *)

Lemma ExtraEnsureVanity_length extra : length (ExtraEnsureVanity extra) = 32%nat.
Proof.
  unfold ExtraEnsureVanity, blen, extraVanity. case_match; bools.
  - rewrite length_app, length_replicate. lia.
  - rewrite length_take. lia.
Qed.

Lemma extra_vote_roundtrip extra candidate voter :
  is_address candidate ->
  let extra' := ExtraAppendVote (ExtraEnsureVanity extra) candidate voter in
  ExtraHasVote extra' = true /\ ExtraCandidate extra' = candidate /\
  ExtraIsVoterElection extra' = voter /\ ExtraVanity extra' = ExtraEnsureVanity extra.
Proof.
  intros Hc. pose proof (ExtraEnsureVanity_length extra) as Hl.
  set (v := ExtraEnsureVanity extra) in *. cbn zeta. unfold ExtraAppendVote.
  assert (length (AddressBytes candidate) = 20%nat) as Ha by apply length_be_bytes.
  set (e := if voter then _ else _).
  assert (blen ((v ++ AddressBytes candidate) ++ [e]) = 53) as Hlen
    by (unfold blen; rewrite !length_app, Hl, Ha; done).
  unfold ExtraHasVote, ExtraCandidate, ExtraIsVoterElection, ExtraVanity. rewrite !Hlen. cbn [Z.eqb Z.ltb].
  change (53 =? extraVanity + extraPropose) with true.
  change (53 <? extraVanity + AddressLength) with false.
  change (53 <? extraVanity + extraPropose) with false.
  change (53 <? extraVanity) with false.
  split_and!; [done| | |].
  - rewrite <- app_assoc, drop_app_length' by (rewrite Hl; done).
    rewrite take_app_length' by (rewrite Ha; done). by apply BytesToAddress_AddressBytes.
  - rewrite lookup_app_r by (rewrite length_app, Hl, Ha; done).
    replace (_ - _)%nat with 0%nat by (rewrite length_app, Hl, Ha; done). cbn. by destruct voter.
  - rewrite <- app_assoc, take_app_length' by (rewrite Hl; done). done.
Qed.
