(* ===== verification/CliqueEngine.v ===== *)
(** * Package consensus/clique: the engine

    The state and the methods of [Clique] (src/consensus/clique/clique.go), its
    RPC methods (api.go) and the storage of snapshots (snapshot.go).

    The engine's state is threaded through the methods by the monad [M].  The two
    caches, the key-value database and encoding/json on snapshots are interfaces;
    the chain is the interface [ChainReader] of src/consensus/consensus.go.  The
    clock and the random choice of [Prepare] are arguments.

    [snapshot] and [VerifyHeader] call each other (for the genesis block), so the
    verification steps take the [snapshot] function they call as an argument,
    and [snapshotLoop] ties the knot on a fuel: one unit per block walked back. *)

From stdpp Require Import base numbers list gmap sets option.
From Stdlib Require Import ZArith Lia Strings.Byte.
From S2P Require Import Prelude Common Params Types CliqueSnapshot.

(** ** Interfaces *)

Record ChainReader := mkChainReader {
  Config : ChainConfig;
  CurrentHeader : option Header;
  GetHeader : Hash -> Z -> option Header;
  GetHeaderByNumber : Z -> option Header;
  GetHeaderByHash : Hash -> option Header
}.

(** [ethdb.Database]: a failing [Get] or [Put] is [None]. *)
Class Database (D : Type) := {
  dbGet : list byte -> D -> option (list byte);
  dbPut : list byte -> list byte -> D -> option D
}.

(** [json.Marshal] and [json.Unmarshal] on the exported fields of [Snapshot]. *)
Class SnapshotJSON := {
  jsonMarshal : Snapshot -> option (list byte);
  jsonUnmarshal : list byte -> option Snapshot
}.

(** ** Engine state *)

Definition checkpointInterval : Z := 1024.

(** [wiggleTime], in nanoseconds. *)
Definition wiggleTime : Z := 200 * 1000000.

Record propose := mkPropose { pAuthorize : bool; pVoterElection : bool }.

Record Clique (DB RC SC : Type) := mkClique {
  cConfig : CliqueConfig;
  cDb : DB;
  cRecents : RC;
  cSignatures : SC;
  cProposals : gmap Z propose;
  cSigner : Address;
  (** [nil] until [Authorize] is called. *)
  cSignFn : option (Address -> list byte -> option (list byte))
}.
Arguments mkClique {DB RC SC}.
Arguments cConfig {DB RC SC}.
Arguments cDb {DB RC SC}.
Arguments cRecents {DB RC SC}.
Arguments cSignatures {DB RC SC}.
Arguments cProposals {DB RC SC}.
Arguments cSigner {DB RC SC}.
Arguments cSignFn {DB RC SC}.

Section Engine.
Context `{Crypto} `{SnapshotJSON} {DB RC SC : Type}.
Context `{Database DB} `{Cache RC Z Snapshot} `{Cache SC Z Z}.

Notation engine := (Clique DB RC SC).
Notation E := (M engine cliqueErr).

Definition with_db (c : engine) (d : DB) : engine :=
  mkClique (cConfig c) d (cRecents c) (cSignatures c) (cProposals c) (cSigner c) (cSignFn c).
Definition with_recents (c : engine) (r : RC) : engine :=
  mkClique (cConfig c) (cDb c) r (cSignatures c) (cProposals c) (cSigner c) (cSignFn c).
Definition with_signatures (c : engine) (sg : SC) : engine :=
  mkClique (cConfig c) (cDb c) (cRecents c) sg (cProposals c) (cSigner c) (cSignFn c).
Definition with_proposals (c : engine) (p : gmap Z propose) : engine :=
  mkClique (cConfig c) (cDb c) (cRecents c) (cSignatures c) p (cSigner c) (cSignFn c).

(** [New] on fresh caches. *)
Definition New (config : CliqueConfig) (db : DB) (recents : RC) (signatures : SC) : engine :=
  let conf := if Epoch config =? 0
              then mkCliqueConfig (Period config) DefaultCliqueEpoch else config in
  mkClique conf db recents signatures ∅ 0 None.

(** [ecrecover(header, c.signatures)], which is also [Author]. *)
Definition Author (header : Header) : E Address := fun c =>
  let '(r, sg) := ecrecover header (cSignatures c) in (r, with_signatures c sg).

(** ** Storage of snapshots (snapshot.go) *)

(** The key prefix "clique-". *)
Definition cliquePrefix : list byte := [x63; x6c; x69; x71; x75; x65; x2d].
Definition snapshotKey (hash : Hash) : list byte := cliquePrefix ++ HashBytes hash.

Definition loadSnapshot (config : CliqueConfig) (db : DB) (hash : Hash) : option Snapshot :=
  match dbGet (snapshotKey hash) db with
  | None => None
  | Some blob =>
      match jsonUnmarshal blob with
      | None => None
      | Some snap =>
          Some (mkSnapshot config (sNumber snap) (sHash snap) (sSigners snap) (sVoters snap)
                  (sVotes snap) (sTally snap))
      end
  end.

Definition store (s : Snapshot) : E unit := fun c =>
  match jsonMarshal s with
  | None => (Err errDatabase, c)
  | Some blob =>
      match dbPut (snapshotKey (sHash s)) blob (cDb c) with
      | None => (Err errDatabase, c)
      | Some d => (Ok tt, with_db c d)
      end
  end.

(** ** Header verification *)

Section Verify.
Context (chain : ChainReader) (uncleHash : Hash).

Definition verifyForkHashes (config : ChainConfig) (header : Header) : result cliqueErr unit :=
  match EIP150Block config with
  | None => Ok tt
  | Some b =>
      let* n := deref (hNumber header) in
      if (b =? n) && negb (EIP150Hash config =? 0) && negb (EIP150Hash config =? headerHash header)
      then Err errForkHash else Ok tt
  end.

Definition verifyHeader (config : CliqueConfig) (header : Header) : result cliqueErr unit :=
  match hNumber header with
  | None => Err errUnknownBlock
  | Some num =>
      let number := bigUint64 num in
      if Epoch config =? 0 then Panic
      else
        let checkpoint := number mod Epoch config =? 0 in
        if checkpoint && (blen (hExtra header) >? extraVanity)
        then Err errInvalidCheckpointBeneficiary
        else if negb (bool_decide (hNonce header = nonceAuthVote))
                && negb (bool_decide (hNonce header = nonceDropVote))
        then Err errInvalidVote
        else if checkpoint && negb (bool_decide (hNonce header = nonceDropVote))
        then Err errInvalidCheckpointVote
        else if checkpoint && (blen (hSigners header) <? 1) then Err errMissingSigners
        else if checkpoint && (blen (hVoters header) <? 1) then Err errMissingVoters
        else if blen (hSigner header) <? signatureLength then Err errMissingSignature
        else if negb (hMixDigest header =? 0) then Err errInvalidMixDigest
        else if negb (hUncleHash header =? uncleHash) then Err errInvalidUncleHash
        else if (number >? 0)
                && match hDifficulty header with None => true | Some d => bigUint64 d =? 0 end
        then Err errInvalidDifficulty
        else verifyForkHashes (Config chain) header
  end.

(** [for i, signer := range snap.signers() { if signer != header.Signers[i] ...]:
    a header list that is too short is an index out of range. *)
Fixpoint matchList (e : cliqueErr) (expected actual : list Address) : result cliqueErr unit :=
  match expected with
  | [] => Ok tt
  | x :: expected' =>
      match actual with
      | [] => Panic
      | y :: actual' => if x =? y then matchList e expected' actual' else Err e
      end
  end.

Section Open.
(** The [snapshot] method, with the number, the hash and the parents. *)
Context (snapshotF : Z -> Hash -> list Header -> E Snapshot).
(** [time.Now().Unix()] *)
Context (now : Z).

Definition verifyCascadingFields (header : Header) (parents : list Header) : E unit :=
  let! time := lift (deref (hTime header)) in
  if time >? now then throw ErrFutureBlock
  else
    let! number := lift (uint64Of (hNumber header)) in
    if number =? 0 then ret tt
    else
      let parent := match list.last parents with
                    | Some p => Some p
                    | None => GetHeader chain (hParentHash header) (u64 (number - 1))
                    end in
      match parent with
      | None => throw ErrUnknownAncestor
      | Some parent =>
          let! pnumber := lift (uint64Of (hNumber parent)) in
          if negb (pnumber =? u64 (number - 1)) || negb (headerHash parent =? hParentHash header)
          then throw ErrUnknownAncestor
          else
            let! ptime := lift (uint64Of (hTime parent)) in
            let! config := gets cConfig in
            if u64 (ptime + Period config) >? bigUint64 time then throw ErrInvalidTimestamp
            else
              let! snap := snapshotF (u64 (number - 1)) (hParentHash header) parents in
              if Epoch config =? 0 then panic
              else if number mod Epoch config =? 0 then
                let! _ := lift (matchList errInvalidCheckpointSigners (signers snap) (hSigners header)) in
                lift (matchList errInvalidCheckpointVoters (voters snap) (hVoters header))
              else ret tt
      end.

Definition verifySeal (header : Header) (parents : list Header) : E unit :=
  let! number := lift (uint64Of (hNumber header)) in
  if number =? 0 then ret tt
  else
    let! snap := snapshotF (u64 (number - 1)) (hParentHash header) parents in
    let! signer := Author header in
    match sSigners snap !! signer with
    | None => throw (errNotAuthorized signer)
    | Some lastBlockSigned =>
        let next := nextSignableBlockNumber snap lastBlockSigned in
        if (lastBlockSigned >? 0) && (number <? next)
        then throw (errSignedRecently signer number lastBlockSigned next)
        else
          let! difficulty := lift (uint64Of (hDifficulty header)) in
          if difficulty =? u64 (CalcDifficulty (sSigners snap) signer) then ret tt
          else throw errInvalidDifficulty
    end.

(** [VerifyHeader] is this with no parents; [verifyHeaders] runs it on every
    header of a batch with the headers before it as parents. *)
Definition verify (header : Header) (parents : list Header) : E unit :=
  let! config := gets cConfig in
  let! _ := lift (verifyHeader config header) in
  let! _ := verifyCascadingFields header parents in
  verifySeal header parents.

End Open.

(** ** snapshot *)

(** The part of [snapshot] after a base snapshot has been found.  [headers] is
    the list as gathered, newest first. *)
Definition applyGathered (snap : Snapshot) (headers : list Header) : E Snapshot :=
  let headers := rev headers in
  let! snap := (fun c => let '(r, sg) := apply snap headers (cSignatures c) in
                         (r, with_signatures c sg)) in
  let! _ := modify (fun c => with_recents c (cacheAdd (sHash snap) snap (cRecents c))) in
  let! _ := if (sNumber snap mod checkpointInterval =? 0) && (blen headers >? 0)
            then store snap else ret tt in
  ret snap.

Definition recentsGet (hash : Hash) : E (option Snapshot) := fun c =>
  let '(r, rc) := cacheGet hash (cRecents c) in (Ok r, with_recents c rc).

Fixpoint snapshotLoop (fuel : nat) (now : Z) (number : Z) (hash : Hash)
    (parents headers : list Header) : E Snapshot :=
  match fuel with
  | O => lift NoFuel
  | S fuel =>
      let! hit := recentsGet hash in
      match hit with
      | Some snap => applyGathered snap headers
      | None =>
          let! disk := gets (fun c => if number mod checkpointInterval =? 0
                                      then loadSnapshot (cConfig c) (cDb c) hash else None) in
          match disk with
          | Some snap => applyGathered snap headers
          | None =>
              if number =? 0 then
                let! genesis := lift (deref (GetHeaderByNumber chain 0)) in
                let! _ := verify (fun n h p => snapshotLoop fuel now n h p []) now genesis [] in
                let! config := gets cConfig in
                let snap := newGenesisSnapshot config 0 (headerHash genesis)
                              (hSigners genesis) (hVoters genesis) in
                let! _ := store snap in
                applyGathered snap headers
              else
                match list.last parents with
                | Some header =>
                    let! n := lift (if headerHash header =? hash then uint64Of (hNumber header)
                                    else Err ErrUnknownAncestor) in
                    if negb (n =? number) then throw ErrUnknownAncestor
                    else snapshotLoop fuel now (u64 (number - 1)) (hParentHash header)
                           (removelast parents) (headers ++ [header])
                | None =>
                    match GetHeader chain hash number with
                    | None => throw ErrUnknownAncestor
                    | Some header =>
                        snapshotLoop fuel now (u64 (number - 1)) (hParentHash header)
                          parents (headers ++ [header])
                    end
                end
          end
      end
  end.

Definition snapshot (fuel : nat) (now : Z) (number : Z) (hash : Hash) (parents : list Header)
    : E Snapshot :=
  snapshotLoop fuel now number hash parents [].

Definition VerifyHeader (fuel : nat) (now : Z) (header : Header) : E unit :=
  verify (snapshot fuel now) now header [].

(** [VerifyHeaders]: the results sent on the channel, in order. *)
Fixpoint verifyHeaders (fuel : nat) (now : Z) (parents headers : list Header)
    (c : engine) : list (result cliqueErr unit) * engine :=
  match headers with
  | [] => ([], c)
  | header :: rest =>
      let '(r, c) := verify (snapshot fuel now) now header parents c in
      let '(rs, c) := verifyHeaders fuel now (parents ++ [header]) rest c in
      (r :: rs, c)
  end.

(** ** Prepare and Seal *)

Definition with_vote (h : Header) (extra nonce : list byte) : Header :=
  mkHeader (hParentHash h) (hUncleHash h) (hCoinbase h) (hSigners h) (hVoters h) (hSigner h)
    (hRoot h) (hTxHash h) (hReceiptHash h) (hBloom h) (hDifficulty h) (hNumber h)
    (hGasLimit h) (hGasUsed h) (hTime h) extra (hMixDigest h) nonce.
Definition with_difficulty (h : Header) (d : Z) : Header :=
  mkHeader (hParentHash h) (hUncleHash h) (hCoinbase h) (hSigners h) (hVoters h) (hSigner h)
    (hRoot h) (hTxHash h) (hReceiptHash h) (hBloom h) (Some d) (hNumber h)
    (hGasLimit h) (hGasUsed h) (hTime h) (hExtra h) (hMixDigest h) (hNonce h).
Definition with_lists (h : Header) (sg vt : list Address) : Header :=
  mkHeader (hParentHash h) (hUncleHash h) (hCoinbase h) sg vt (hSigner h)
    (hRoot h) (hTxHash h) (hReceiptHash h) (hBloom h) (hDifficulty h) (hNumber h)
    (hGasLimit h) (hGasUsed h) (hTime h) (hExtra h) (hMixDigest h) (hNonce h).
Definition with_time (h : Header) (mix : Hash) (t : Z) : Header :=
  mkHeader (hParentHash h) (hUncleHash h) (hCoinbase h) (hSigners h) (hVoters h) (hSigner h)
    (hRoot h) (hTxHash h) (hReceiptHash h) (hBloom h) (hDifficulty h) (hNumber h)
    (hGasLimit h) (hGasUsed h) (Some t) (hExtra h) mix (hNonce h).
Definition with_seal (h : Header) (sg : list byte) : Header :=
  mkHeader (hParentHash h) (hUncleHash h) (hCoinbase h) (hSigners h) (hVoters h) sg
    (hRoot h) (hTxHash h) (hReceiptHash h) (hBloom h) (hDifficulty h) (hNumber h)
    (hGasLimit h) (hGasUsed h) (hTime h) (hExtra h) (hMixDigest h) (hNonce h).

(** The proposals that make sense voting on, in the order of the range. *)
Definition sensibleProposals (snap : Snapshot) (proposals : gmap Z propose)
    : list (Address * propose) :=
  filter (fun p => validVote snap (fst p) (pAuthorize (snd p)) (pVoterElection (snd p)) = true)
    (map_to_list proposals).

(** Cast a random vote; [rnd] is [rand.Intn]. *)
Definition proposeVote (rnd : nat -> nat) (snap : Snapshot) (proposals : gmap Z propose)
    (header : Header) : result cliqueErr Header :=
  match sensibleProposals snap proposals with
  | [] => Ok header
  | addresses =>
      match addresses !! rnd (length addresses) with
      | None => Panic
      | Some (candidate, p) =>
          Ok (with_vote header
                (ExtraAppendVote (hExtra header) candidate (pVoterElection p))
                (if pAuthorize p then nonceAuthVote else nonceDropVote))
      end
  end.

(** [Prepare], returning the header it fills in. *)
Definition Prepare (fuel : nat) (now : Z) (rnd : nat -> nat) (header : Header) : E Header :=
  let header := with_vote header (hExtra header) nonceDropVote in
  let! number := lift (uint64Of (hNumber header)) in
  let! snap := snapshot fuel now (u64 (number - 1)) (hParentHash header) [] in
  let! signer := gets cSigner in
  if negb (signer =? 0) && negb (bool_decide (is_Some (sSigners snap !! signer)))
  then throw (errNotAuthorized signer)
  else
    let diff := u64 (CalcDifficulty (sSigners snap) signer) in
    if negb (signer =? 0) && (diff =? 0) then throw (errSignedTooRecently signer)
    else
      let header := with_difficulty header diff in
      let header := with_vote header (ExtraEnsureVanity (hExtra header)) (hNonce header) in
      let! config := gets cConfig in
      if Epoch config =? 0 then panic
      else
        let! proposals := gets cProposals in
        let! header := if negb (number mod Epoch config =? 0)
                       then lift (proposeVote rnd snap proposals header) else ret header in
        let header := if number mod Epoch config =? 0
                      then with_lists header (signers snap) (voters snap) else header in
        match GetHeader chain (hParentHash header) (u64 (number - 1)) with
        | None => throw ErrUnknownAncestor
        | Some parent =>
            let! ptime := lift (deref (hTime parent)) in
            let time := ptime + Period config in
            ret (with_time header 0 (if bigInt64 time <? now then now else time))
        end.

Definition Authorize (signer : Address) (signFn : Address -> list byte -> option (list byte))
    : E unit :=
  modify (fun c => mkClique (cConfig c) (cDb c) (cRecents c) (cSignatures c) (cProposals c)
                     signer (Some signFn)).

(** The delay of [Seal], in nanoseconds. *)
Definition sealDelay (header : Header) (difficulty : Z) : Z :=
  let n := blen (hSigners header) in
  if difficulty <? n then i64 (i64 (n - difficulty) * wiggleTime) else 0.

(** [Seal] on a block with header [header] and [txs] transactions: the sealed
    header, or [None] when the stop channel ended the wait.  [nanos] is the clock
    in nanoseconds when the wait is decided, [stopped t] whether the stop channel
    is ready within [t] nanoseconds. *)
Definition Seal (fuel : nat) (now nanos : Z) (stopped : Z -> bool) (txs : nat) (header : Header)
    : E (option Header) :=
  let! number := lift (uint64Of (hNumber header)) in
  if number =? 0 then throw errUnknownBlock
  else
    let! config := gets cConfig in
    if (Period config =? 0) && Nat.eqb txs 0 then throw errWaitTransactions
    else
      let! signer := gets cSigner in
      let! signFn := gets cSignFn in
      let! snap := snapshot fuel now (u64 (number - 1)) (hParentHash header) [] in
      match sSigners snap !! signer with
      | None => throw (errNotAuthorized signer)
      | Some lastBlockSigned =>
          if (lastBlockSigned >? 0) && (number <? nextSignableBlockNumber snap lastBlockSigned)
          then ret None
          else
            let! difficulty := lift (uint64Of (hDifficulty header)) in
            let! time := lift (deref (hTime header)) in
            let until := bigInt64 time * 1000000000 + sealDelay header difficulty in
            if (nanos <? until) && stopped (until - nanos) then ret None
            else
              let! sign := lift (deref signFn) in
              match sign signer (HashBytes (sigHash header)) with
              | None => throw errSigning
              | Some sighash => ret (Some (with_seal header sighash))
              end
      end.

(** ** RPC methods (api.go) *)

(** [None] stands for a nil number and for [rpc.LatestBlockNumber]. *)
Definition headerAt (number : option Z) : option Header :=
  match number with
  | None => CurrentHeader chain
  | Some n => GetHeaderByNumber chain (u64 n)
  end.

Definition snapshotOf (fuel : nat) (now : Z) (header : option Header) : E Snapshot :=
  match header with
  | None => throw errUnknownBlock
  | Some header =>
      let! number := lift (uint64Of (hNumber header)) in
      snapshot fuel now number (headerHash header) []
  end.

Definition GetSnapshot (fuel : nat) (now : Z) (number : option Z) : E Snapshot :=
  snapshotOf fuel now (headerAt number).
Definition GetSnapshotAtHash (fuel : nat) (now : Z) (hash : Hash) : E Snapshot :=
  snapshotOf fuel now (GetHeaderByHash chain hash).
Definition GetSigners (fuel : nat) (now : Z) (number : option Z) : E (list Address) :=
  let! snap := snapshotOf fuel now (headerAt number) in ret (signers snap).
Definition GetVoters (fuel : nat) (now : Z) (number : option Z) : E (list Address) :=
  let! snap := snapshotOf fuel now (headerAt number) in ret (voters snap).
Definition GetSignersAtHash (fuel : nat) (now : Z) (hash : Hash) : E (list Address) :=
  let! snap := snapshotOf fuel now (GetHeaderByHash chain hash) in ret (signers snap).

Definition Proposals : E (gmap Z propose) := gets cProposals.
Definition Propose (address : Address) (auth : bool) : E unit :=
  modify (fun c => with_proposals c (<[address := mkPropose auth false]> (cProposals c))).
Definition ProposeVoter (address : Address) (auth : bool) : E unit :=
  modify (fun c => with_proposals c (<[address := mkPropose auth true]> (cProposals c))).
Definition Discard (address : Address) : E unit :=
  modify (fun c => with_proposals c (delete address (cProposals c))).

End Verify.
End Engine.
