(* ===== verification/CliqueEngineSpec.v ===== *)
(** * Package consensus/clique: correctness of the engine

    The specification of [snapshot] is the relation [SnapAt]: the snapshot of a
    block is the genesis snapshot with the block's ancestors and the block
    applied one after the other, signers recovered without a cache.  The caches
    and the database are sound when every entry they hold agrees with it.

    [loop_sound] and [loop_complete] show that [snapshot] computes
    exactly this from every sound state, [prepare_seal_verify] that a block which
    this engine prepares and seals passes its own verification. *)

From stdpp Require Import base numbers list gmap sets option.
From Stdlib Require Import ZArith Lia Strings.Byte.
From S2P Require Import Prelude Common Params Types CliqueSnapshot CliqueVoting CliqueTurns CliqueEngine.

(** ** What the engine relies on *)

(** golang-lru: a cache answers only what was added to it. *)
Class CacheLaws (C K V : Type) `{Cache C K V} : Prop := {
  cacheGet_keeps : forall k k' c v,
    fst (cacheGet k' (snd (cacheGet k c))) = Some v -> fst (cacheGet k' c) = Some v;
  cacheAdd_adds : forall k v c k' v',
    fst (cacheGet k' (cacheAdd k v c)) = Some v' ->
    (k' = k /\ v' = v) \/ fst (cacheGet k' c) = Some v'
}.

(** The key-value store: a value read is one that was written under that key. *)
Class DatabaseLaws (D : Type) `{Database D} : Prop := {
  dbPut_get : forall k b d d' k' b',
    dbPut k b d = Some d' -> dbGet k' d' = Some b' ->
    (k' = k /\ b' = b) \/ dbGet k' d = Some b'
}.

(** encoding/json restores the exported fields. *)
Class JSONLaws `{SnapshotJSON} : Prop := {
  json_roundtrip : forall s b,
    jsonMarshal s = Some b -> exists cfg,
      jsonUnmarshal b = Some (mkSnapshot cfg (sNumber s) (sHash s) (sSigners s) (sVoters s)
                                (sVotes s) (sTally s))
}.

(** The signature cache that never holds anything. *)
#[global] Instance NoCache : Cache unit Z Z := {|
  cacheGet := fun _ c => (None, c);
  cacheAdd := fun _ _ c => c
|}.

Section Spec.
Context {CR : Crypto} {JS : SnapshotJSON} {JSL : JSONLaws} {DB RC SC : Type}.
Context {DBI : Database DB} {DBL : DatabaseLaws DB}.
Context {RCI : Cache RC Z Snapshot} {RCL : CacheLaws RC Z Snapshot}.
Context {SCI : Cache SC Z Z} {SCL : CacheLaws SC Z Z}.

Notation engine := (Clique DB RC SC).

Context (chain : ChainReader) (uncleHash : Hash) (config : CliqueConfig).
(** The genesis header and the headers that can occur. *)
Context (g : Header) (U : Header -> Prop).

(** Hashes are 32 bytes, headers that occur do not collide, and the chain is
    rooted in the genesis block. *)
Record World : Prop := mkWorld {
  w_genesis : U g;
  w_genesis_number : uint64Of (E := cliqueErr) (hNumber g) = Ok 0;
  w_collision : forall h1 h2, U h1 -> U h2 -> headerHash h1 = headerHash h2 -> h1 = h2;
  w_hash : forall h, U h -> is_hash (headerHash h) /\ is_hash (hParentHash h);
  w_first : forall h, U h -> uint64Of (E := cliqueErr) (hNumber h) = Ok 1 ->
                      hParentHash h = headerHash g;
  w_byNumber : GetHeaderByNumber chain 0 = Some g;
  w_get : forall hash n h, GetHeader chain hash n = Some h ->
            U h /\ headerHash h = hash /\ uint64Of (E := cliqueErr) (hNumber h) = Ok n
}.

Definition recover (h : Header) : result cliqueErr Address := fst (ecrecover h tt).

Definition genesisSnapshot : Snapshot :=
  newGenesisSnapshot config 0 (headerHash g) (hSigners g) (hVoters g).

(** The snapshot of a block whose ancestors after the genesis satisfy [Q]. *)
Inductive SnapIn (Q : Header -> Prop) : Hash -> Snapshot -> Prop :=
| SnapAt_genesis : SnapIn Q (headerHash g) genesisSnapshot
| SnapAt_block h s s' :
    Q h -> uint64Of (E := cliqueErr) (hNumber h) <> Ok 0 ->
    SnapIn Q (hParentHash h) s -> apply s [h] tt = (Ok s', tt) ->
    SnapIn Q (headerHash h) s'.

Definition SnapAt : Hash -> Snapshot -> Prop := SnapIn U.

(** The headers the chain can look up. *)
Definition Stored (h : Header) : Prop :=
  exists n, uint64Of (E := cliqueErr) (hNumber h) = Ok n /\
            GetHeader chain (headerHash h) n = Some h.

(** ** Sound states *)

Definition SigSound (c : SC) : Prop :=
  forall h a, U h -> fst (cacheGet (headerHash h) c) = Some a -> recover h = Ok a.
Definition RecentsSound (c : RC) : Prop :=
  forall hash s, fst (cacheGet hash c) = Some s -> SnapAt hash s.
Definition DbSound (d : DB) : Prop :=
  forall hash s, is_hash hash -> loadSnapshot config d hash = Some s -> SnapAt hash s.

Record EngineOk (st : engine) : Prop := mkEngineOk {
  eo_config : cConfig st = config;
  eo_sig : SigSound (cSignatures st);
  eo_recents : RecentsSound (cRecents st);
  eo_db : DbSound (cDb st)
}.

(** The fields the verification methods leave alone. *)
Definition same_keys (st st' : engine) : Prop :=
  cProposals st' = cProposals st /\ cSigner st' = cSigner st /\ cSignFn st' = cSignFn st.

Context (W : World).

(** ** Signatures *)

Lemma ecrecover_sound h c r c' :
  U h -> SigSound c -> ecrecover h c = (r, c') -> r = recover h /\ SigSound c'.
Proof.
  intros HU Hs. unfold recover, ecrecover. cbn [cacheGet cacheAdd NoCache].
  pose proof (fun k v => cacheGet_keeps (headerHash h) k c v) as Hk.
  destruct (cacheGet (headerHash h) c) as [[a|] c1] eqn:Eg; cbn [snd] in Hk.
  - intros [= <- <-]. split; [|intros h' a' HU' Hg; by apply Hs, Hk].
    pose proof (Hs h a HU) as Hr. rewrite Eg in Hr. specialize (Hr eq_refl).
    unfold recover, ecrecover in Hr. cbn [cacheGet NoCache] in Hr. done.
  - assert (SigSound c1) as Hs1 by (intros h' a' HU' Hg; by apply Hs, Hk).
    destruct (blen _ <? _) eqn:El; [by intros [= <- <-]|].
    destruct (Ecrecover _ _) as [[|b pk]|] eqn:Ee; [by intros [= <- <-]| |by intros [= <- <-]].
    intros [= <- <-]. split; [done|]. intros h' a' HU' Hg.
    apply cacheAdd_adds in Hg as [[Eh ->]|Hg]; [|by apply Hs1].
    apply (w_collision W) in Eh as ->; [|done..].
    unfold recover, ecrecover. cbn [cacheGet NoCache]. by rewrite El, Ee.
Qed.

Lemma applyHeader_sound s h c r c' :
  U h -> SigSound c -> applyHeader s h c = (r, c') ->
  r = fst (applyHeader s h tt) /\ SigSound c'.
Proof.
  intros HU Hs. unfold applyHeader. destruct (uint64Of _) as [n| | |]; cbn [fst]; try by intros [= <- <-].
  destruct (_ =? 0); [by intros [= <- <-]|].
  destruct (ecrecover h c) as [r1 c1] eqn:Er. apply ecrecover_sound in Er as [-> Hs1]; [|done..].
  unfold recover. destruct (ecrecover h tt) as [r2 []]. by intros [= <- <-].
Qed.

Lemma applyHeaders_sound s hs c r c' :
  Forall U hs -> SigSound c -> applyHeaders s hs c = (r, c') ->
  r = fst (applyHeaders s hs tt) /\ SigSound c'.
Proof.
  revert s c. induction hs as [|h hs IH]; intros s c HU Hs; cbn [applyHeaders].
  - by intros [= <- <-].
  - apply Forall_cons_1 in HU as [Hh HU].
    destruct (applyHeader s h c) as [r1 c1] eqn:E1.
    apply applyHeader_sound in E1 as [-> Hs1]; [|done..].
    destruct (applyHeader s h tt) as [[s1| | |] []]; cbn [fst]; try by intros [= <- <-].
    by apply IH.
Qed.

Lemma apply_sound s hs c r c' :
  Forall U hs -> SigSound c -> apply s hs c = (r, c') ->
  r = fst (apply s hs tt) /\ SigSound c'.
Proof.
  intros HU Hs. unfold apply. destruct hs as [|h hs]; [by intros [= <- <-]|].
  destruct (let* _ := contiguous _ in _) as [[]| | |]; cbn [fst]; try by intros [= <- <-].
  destruct (applyHeaders s (h :: hs) c) as [r1 c1] eqn:E1.
  apply applyHeaders_sound in E1 as [-> Hs1]; [|done..].
  destruct (applyHeaders s (h :: hs) tt) as [r2 []]. by intros [= <- <-].
Qed.

(** ** The specification *)

Lemma apply_one s h s' :
  apply s [h] tt = (Ok s', tt) ->
  sHash s' = headerHash h /\ sConfig s' = sConfig s /\
  uint64Of (E := cliqueErr) (hNumber h) = Ok (sNumber s') /\ sNumber s' = u64 (sNumber s + 1).
Proof.
  intros (Hn & snap & Ha & ->)%(apply_nonempty s [h] tt s' tt h); [|done].
  apply applyHeaders_number in Ha as [_ Hc]. destruct Hn as [Hn _]. cbn. done.
Qed.

Lemma SnapAt_facts hash s :
  SnapAt hash s ->
  sHash s = hash /\ sConfig s = config /\
  exists h, U h /\ headerHash h = hash /\ uint64Of (E := cliqueErr) (hNumber h) = Ok (sNumber s).
Proof.
  induction 1 as [|h s s' HU Hn Hs IH Ha].
  - split_and!; [done..|]. exists g. split_and!; [apply W|done|apply W].
  - apply apply_one in Ha as (E1 & E2 & E3 & _). destruct IH as (_ & Hc & _).
    split_and!; [done|congruence|]. eauto.
Qed.

Lemma SnapAt_det hash s1 s2 : SnapAt hash s1 -> SnapAt hash s2 -> s1 = s2.
Proof.
  intros Hx1. revert s2. induction Hx1 as [|h s s' HU Hn Hs IH Ha]; intros s2 Hx2.
  - inversion Hx2 as [E|h s s' HU Hn Hs Ha E]; [done|].
    apply (w_collision W) in E; [|done|apply W]. subst. by destruct Hn; apply W.
  - inversion Hx2 as [E|h' t t' HU' Hn' Hs' Ha' E].
    + apply (w_collision W) in E; [|apply W|done]. subst. by destruct Hn; apply W.
    + apply (w_collision W) in E; [|done..]. subst.
      assert (s = t) as -> by (by apply IH). congruence.
Qed.

(** Headers, oldest first, that lead from one block to another. *)
Fixpoint Path (hash : Hash) (hs : list Header) (target : Hash) : Prop :=
  match hs with
  | [] => hash = target
  | h :: hs => hParentHash h = hash /\ U h /\ uint64Of (E := cliqueErr) (hNumber h) <> Ok 0 /\
               Path (headerHash h) hs target
  end.

Lemma Path_U hash hs target : Path hash hs target -> Forall U hs.
Proof.
  revert hash. induction hs as [|h hs IH]; intros hash; [constructor|].
  intros (_ & ? & _ & ?). constructor; eauto.
Qed.

Lemma SnapAt_path hash hs target s s' :
  SnapAt hash s -> Path hash hs target -> apply s hs tt = (Ok s', tt) -> SnapAt target s'.
Proof.
  revert hash s. induction hs as [|h hs IH]; intros hash s Hs Hp Ha.
  - injection Ha as <-. by destruct Hp.
  - destruct Hp as (<- & HU & Hn & Hp).
    apply (apply_compose s [h] hs) in Ha as (s1 & [] & Ha1 & Ha2).
    eapply IH; [|exact Hp|exact Ha2]. by econstructor.
Qed.
(** ** Soundness of [snapshot] *)

Lemma SnapAt_hash hash s : SnapAt hash s -> is_hash hash.
Proof. intros (_ & _ & h & HU & <- & _)%SnapAt_facts. by apply (w_hash W). Qed.

Lemma snapshotKey_inj h1 h2 : is_hash h1 -> is_hash h2 -> snapshotKey h1 = snapshotKey h2 -> h1 = h2.
Proof.
  unfold snapshotKey, is_hash, HashBytes. intros H1 H2 E%app_inv_head.
  apply (f_equal be_value) in E. rewrite !be_value_be_bytes in E.
  change (256 ^ Z.of_nat 32) with (2 ^ 256) in E. by rewrite !Z.mod_small in E by lia.
Qed.

Lemma store_sound s st r st' :
  SnapAt (sHash s) s -> EngineOk st -> store s st = (r, st') -> EngineOk st' /\ same_keys st st'.
Proof.
  intros Hs [Hc Hsig Hrec Hdb]. unfold store.
  destruct (jsonMarshal s) as [blob|] eqn:Em; [|by intros [= <- <-]].
  destruct (dbPut _ _ _) as [d|] eqn:Ep; [|by intros [= <- <-]].
  intros [= <- <-]. split; [|done]. constructor; cbn; [done..|].
  intros hash s2 Hh. unfold loadSnapshot.
  destruct (dbGet (snapshotKey hash) d) as [b|] eqn:Eg; [|done].
  destruct (dbPut_get _ _ _ _ _ _ Ep Eg) as [[Ek ->]|Eo].
  - apply snapshotKey_inj in Ek as ->; [|done|by eapply SnapAt_hash].
    destruct (json_roundtrip s blob Em) as [cfg ->]. cbn. intros [= <-].
    apply SnapAt_facts in Hs as Hf. destruct Hf as (_ & Hcfg & _). rewrite <- Hcfg. by destruct s.
  - intros Hl. apply (Hdb hash s2 Hh). unfold loadSnapshot. by rewrite Eo.
Qed.

Lemma recentsGet_sound hash st r st' :
  EngineOk st -> recentsGet hash st = (r, st') ->
  EngineOk st' /\ same_keys st st' /\
  exists o, r = Ok o /\ forall s, o = Some s -> SnapAt hash s.
Proof.
  intros [Hc Hsig Hrec Hdb]. unfold recentsGet.
  pose proof (fun k v => cacheGet_keeps hash k (cRecents st) v) as Hk.
  pose proof (Hrec hash) as Hh.
  destruct (cacheGet hash (cRecents st)) as [o rc]. cbn in *. intros [= <- <-].
  split_and!; [|done|by eauto]. constructor; cbn; try done. intros k s Hg. by apply Hrec, Hk.
Qed.

Lemma applyGathered_sound hash snap headers target st r st' :
  SnapAt hash snap -> Path hash (rev headers) target -> EngineOk st ->
  applyGathered snap headers st = (r, st') ->
  EngineOk st' /\ same_keys st st' /\ forall s, r = Ok s -> SnapAt target s.
Proof.
  intros Hs Hp [Hc Hsig Hrec Hdb]. unfold applyGathered, mbind at 1.
  destruct (apply snap (rev headers) (cSignatures st)) as [r1 sg] eqn:Ea.
  apply apply_sound in Ea as [-> Hsg]; [|by eapply Path_U|done].
  destruct (apply snap (rev headers) tt) as [[s1| | |] []] eqn:Ea; cbn [fst].
  2-4: intros [= <- <-]; split_and!; [by constructor|done|done].
  pose proof (SnapAt_path _ _ _ _ _ Hs Hp Ea) as Ht.
  assert (sHash s1 = target) as Hth by (by apply SnapAt_facts in Ht as (? & _)).
  unfold mbind at 1, modify. cbn.
  set (st1 := with_recents _ _).
  assert (EngineOk st1) as H1.
  { constructor; cbn; try done. intros k s [[-> ->]|Hg]%cacheAdd_adds; [by rewrite Hth|by apply Hrec]. }
  destruct (_ && _); unfold mbind.
  - destruct (store s1 st1) as [r2 st2] eqn:Est.
    apply store_sound in Est as [H2 K]; [|by rewrite Hth|done].
    destruct r2; intros [= <- <-]; split_and!; try done. by intros s [= <-].
  - intros [= <- <-]. split_and!; try done. by intros s [= <-].
Qed.

(** The genesis block is checked without a snapshot. *)
Lemma verify_genesis F now (st : engine) r st' :
  verify chain uncleHash F now g [] st = (r, st') -> st' = st.
Proof.
  unfold verify, verifyCascadingFields, verifySeal, mbind, gets, lift.
  destruct (verifyHeader _ _ _ _); try by intros [= <- <-].
  destruct (deref (hTime g)); try by intros [= <- <-].
  destruct (_ >? now); [by intros [= <- <-]|]. rewrite (w_genesis_number W). cbn. by intros [= <- <-].
Qed.

Lemma same_keys_trans a b c : same_keys a b -> same_keys b c -> same_keys a c.
Proof. unfold same_keys. intuition congruence. Qed.

Lemma genesis_at number hash :
  number = 0 -> (number = 0 -> hash = headerHash g) -> SnapAt hash genesisSnapshot.
Proof. intros -> ->; [constructor|done]. Qed.

(** One step back: the header of [hash] leads on to the target. *)
Lemma Path_back h hash headers target number :
  U h -> headerHash h = hash -> uint64Of (E := cliqueErr) (hNumber h) = Ok number -> number <> 0 ->
  Path hash (rev headers) target ->
  Path (hParentHash h) (rev (headers ++ [h])) target /\
  is_hash (hParentHash h) /\ (u64 (number - 1) = 0 -> hParentHash h = headerHash g).
Proof.
  intros HU Hh Hn Hne Hp. rewrite rev_app_distr. cbn. split_and!; try done.
  - rewrite Hn. congruence.
  - by rewrite Hh.
  - by apply (w_hash W).
  - intros Hz. apply (w_first W); [done|]. rewrite Hn. f_equal.
    pose proof (uint64Of_range _ _ _ Hn). unfold is_u64 in *. rewrite u64_small in Hz; unfold is_u64; lia.
Qed.

Lemma loop_genesis_sound F now hash headers target (st : engine) r st' :
  EngineOk st -> SnapAt hash genesisSnapshot -> Path hash (rev headers) target ->
  (let! genesis := lift (deref (GetHeaderByNumber chain 0)) in
   let! _ := verify chain uncleHash F now genesis [] in
   let! config := gets cConfig in
   let snap := newGenesisSnapshot config 0 (headerHash genesis)
                 (hSigners genesis) (hVoters genesis) in
   let! _ := store snap in
   applyGathered snap headers) st = (r, st') ->
  EngineOk st' /\ same_keys st st' /\ forall s, r = Ok s -> SnapAt target s.
Proof.
  intros Hok Hg Hp. rewrite (w_byNumber W). cbn [deref]. unfold mbind at 1, lift. unfold mbind at 1.
  destruct (verify _ _ _ _ _ _ _) as [r2 st2] eqn:Ev. apply verify_genesis in Ev as ->.
  destruct r2; try by intros [= <- <-].
  unfold mbind at 1, gets. rewrite (eo_config _ Hok). fold genesisSnapshot. unfold mbind at 1.
  destruct (store genesisSnapshot st) as [r3 st3] eqn:Est.
  apply store_sound in Est as [Hok3 Hk3]; [|by constructor|done].
  destruct r3; try by intros [= <- <-].
  intros (? & ? & ?)%(applyGathered_sound hash _ _ target); [|done..].
  split_and!; [done| |done]. by eapply same_keys_trans.
Qed.

Lemma loop_sound fuel now number hash parents headers target st r st' :
  EngineOk st -> is_hash hash -> Forall U parents ->
  (number = 0 -> hash = headerHash g) -> Path hash (rev headers) target ->
  snapshotLoop chain uncleHash fuel now number hash parents headers st = (r, st') ->
  EngineOk st' /\ same_keys st st' /\ forall s, r = Ok s -> SnapAt target s.
Proof.
  revert number hash parents headers st.
  induction fuel as [|fuel IH]; intros number hash parents headers st Hok Hh HUp Hz Hp;
    cbn [snapshotLoop]; [by intros [= <- <-]|].
  unfold mbind at 1. destruct (recentsGet hash st) as [r1 st1] eqn:Er.
  apply recentsGet_sound in Er as (Hok1 & Hk1 & hit & -> & Hhit); [|done].
  intros HK.
  enough (EngineOk st' /\ same_keys st1 st' /\ forall s, r = Ok s -> SnapAt target s) as (? & ? & ?)
    by (split_and!; [done|by eapply same_keys_trans|done]).
  revert HK. destruct hit as [snap|]; [intros HK; eapply applyGathered_sound; eauto|].
  unfold mbind at 1, gets. rewrite (eo_config _ Hok1).
  destruct (if _ =? 0 then loadSnapshot _ _ _ else None) as [snap|] eqn:Ed.
  { intros HK. eapply applyGathered_sound; [|exact Hp|exact Hok1|exact HK].
    destruct (_ =? 0); [|done]. by apply (eo_db _ Hok1). }
  destruct (number =? 0) eqn:En; bools.
  - apply (loop_genesis_sound _ _ hash); [done| |done]. by eapply genesis_at.
  - destruct (list.last parents) as [h|] eqn:El.
    + apply last_Some in El as [l ->]. rewrite removelast_last.
      apply Forall_app in HUp as [HUp HU]. apply Forall_cons_1 in HU as [HU _].
      unfold mbind, lift, throw. destruct (headerHash h =? hash) eqn:Eh; [|by intros [= <- <-]]. bools.
      destruct (uint64Of (hNumber h)) as [n| | |] eqn:Eu; try by intros [= <- <-].
      destruct (n =? number) eqn:Enn; [|by intros [= <- <-]]. bools. subst n. cbn.
      destruct (Path_back h hash headers target number) as (? & ? & ?); [done..|].
      by apply IH.
    + destruct (GetHeader chain hash number) as [h|] eqn:Eg; [|by intros [= <- <-]].
      apply (w_get W) in Eg as (HU & Eh & Eu).
      destruct (Path_back h hash headers target number) as (? & ? & ?); [done..|]. by apply IH.
Qed.

(** ** Totality and completeness of [snapshot] *)

Lemma rbind_fuel {Er A B} (m : result Er A) (k : A -> result Er B) :
  m <> NoFuel -> (forall a, k a <> NoFuel) -> rbind m k <> NoFuel.
Proof. by intros Hm Hk; destruct m; cbn. Qed.

Lemma uint64Of_fuel {Er} x : uint64Of (E := Er) x <> NoFuel.
Proof. by destruct x. Qed.

Lemma contiguous_fuel hs : contiguous hs <> NoFuel.
Proof.
  induction hs as [|h [|h' hs] IH]; try done. cbn [contiguous].
  apply rbind_fuel; [apply uint64Of_fuel|intros n'].
  apply rbind_fuel; [apply uint64Of_fuel|intros n]. by case_match.
Qed.

Lemma applySigned_fuel s signer number h : applySigned s signer number h <> NoFuel.
Proof.
  unfold applySigned. destruct (_ !! signer); [|done]. destruct (_ && _); [done|].
  case_bool_decide; [|done]. rewrite applyVote_staged. destruct (headerAuthorize h); [|done].
  by destruct (headerVote h).
Qed.

Lemma applyHeader_fuel s h (c : SC) : fst (applyHeader s h c) <> NoFuel.
Proof.
  unfold applyHeader. pose proof (uint64Of_fuel (Er := cliqueErr) (hNumber h)).
  destruct (uint64Of _) as [n| | |]; cbn; try done. destruct (_ =? 0); [done|].
  unfold ecrecover. destruct (cacheGet _ c) as [[signer|] c1]; cbn.
  - apply applySigned_fuel.
  - destruct (_ <? _); [done|]. destruct (Ecrecover _ _) as [[|b pk]|]; cbn; try done.
    apply applySigned_fuel.
Qed.

Lemma apply_fuel s hs (c : SC) : fst (apply s hs c) <> NoFuel.
Proof.
  assert (forall s c, fst (applyHeaders s hs c) <> NoFuel) as Hh.
  { induction hs as [|h hs IH]; intros s0 c0; cbn; [done|].
    pose proof (applyHeader_fuel s0 h c0). destruct (applyHeader s0 h c0) as [[] ?]; cbn in *; done. }
  unfold apply. destruct hs as [|h hs]; [done|].
  destruct (let* _ := contiguous _ in _) as [[]| | |] eqn:E; cbn [fst]; try done.
  - specialize (Hh s c). destruct (applyHeaders s (h :: hs) c) as [r ?]. by destruct r.
  - exfalso. revert E. apply rbind_fuel; [apply contiguous_fuel|intros _].
    apply rbind_fuel; [apply uint64Of_fuel|intros n]. by case_match.
Qed.

Lemma store_fuel s (st : engine) : fst (store s st) <> NoFuel.
Proof. unfold store. by repeat case_match. Qed.

Lemma applyGathered_fuel snap headers (st : engine) : fst (applyGathered snap headers st) <> NoFuel.
Proof.
  unfold applyGathered, mbind at 1. pose proof (apply_fuel snap (rev headers) (cSignatures st)).
  destruct (apply _ _ _) as [[s1| | |] sg]; cbn in *; try done. unfold mbind, modify.
  destruct (_ && _); [|done].
  match goal with |- context [store s1 ?x] => pose proof (store_fuel s1 x); destruct (store s1 x) as [[] ?] end;
    cbn in *; done.
Qed.

Lemma verifyHeader_fuel h : verifyHeader chain uncleHash config h <> NoFuel.
Proof. unfold verifyHeader, verifyForkHashes. destruct (hNumber h); cbn; repeat case_match; done. Qed.

Lemma verify_genesis_fuel F now (st : engine) :
  cConfig st = config -> fst (verify chain uncleHash F now g [] st) <> NoFuel.
Proof.
  intros Hc. unfold verify, verifyCascadingFields, verifySeal, mbind, gets, lift. rewrite Hc.
  pose proof (verifyHeader_fuel g).
  destruct (verifyHeader _ _ _ _); cbn; try done. destruct (hTime g); cbn; [|done].
  destruct (_ >? now); [done|]. rewrite (w_genesis_number W). done.
Qed.

Lemma loop_fuel fuel now number hash parents headers (st : engine) :
  cConfig st = config -> 0 <= number < Z.of_nat fuel -> is_u64 number ->
  fst (snapshotLoop chain uncleHash fuel now number hash parents headers st) <> NoFuel.
Proof.
  revert number hash parents headers st.
  induction fuel as [|fuel IH]; intros number hash parents headers st Hc Hn Hu; [lia|].
  cbn [snapshotLoop]. unfold mbind at 1, recentsGet.
  destruct (cacheGet hash (cRecents st)) as [[snap|] rc]; [apply applyGathered_fuel|].
  unfold mbind at 1, gets. set (st1 := with_recents st rc).
  destruct (if _ =? 0 then loadSnapshot _ _ _ else None) as [snap|]; [apply applyGathered_fuel|].
  destruct (number =? 0) eqn:En; bools.
  - rewrite (w_byNumber W). cbn [deref]. unfold mbind at 1, lift. unfold mbind at 1.
    pose proof (verify_genesis_fuel (fun n h p => snapshotLoop chain uncleHash fuel now n h p []) now st1 Hc).
    destruct (verify _ _ _ _ _ _ _) as [[] st2]; cbn in *; try done.
    unfold mbind. match goal with |- context [store ?s st2] => pose proof (store_fuel s st2);
      destruct (store s st2) as [[] st3] end; cbn in *; try done. apply applyGathered_fuel.
  - assert (0 <= u64 (number - 1) < Z.of_nat fuel /\ is_u64 (u64 (number - 1))) as [? ?].
    { unfold is_u64 in *. rewrite u64_small by (unfold is_u64; lia). lia. }
    destruct (list.last parents) as [h|].
    + unfold mbind, lift. pose proof (uint64Of_fuel (Er := cliqueErr) (hNumber h)).
      destruct (headerHash h =? hash); [|done].
      destruct (uint64Of _); cbn; try done. destruct (negb _); [done|]. by apply IH.
    + destruct (GetHeader chain hash number); [|done]. by apply IH.
Qed.

(** Writes succeed and the genesis header passes its own checks. *)
Record Healthy (now : Z) : Prop := mkHealthy {
  hy_marshal : forall s, is_Some (jsonMarshal s);
  hy_put : forall k b (d : DB), is_Some (dbPut k b d);
  hy_genesis : verifyHeader chain uncleHash config g = Ok tt;
  hy_time : exists t, hTime g = Some t /\ t <= now
}.

Lemma SnapIn_mono (P Q : Header -> Prop) hash s :
  (forall h, P h -> Q h) -> SnapIn P hash s -> SnapIn Q hash s.
Proof. intros HPQ. induction 1; [constructor|]. econstructor; eauto. Qed.

Lemma Stored_U h : Stored h -> U h.
Proof. intros (n & _ & Hg). by apply (w_get W) in Hg as [? _]. Qed.

Lemma StoredAt_SnapAt hash s : SnapIn Stored hash s -> SnapAt hash s.
Proof. apply SnapIn_mono, Stored_U. Qed.

Lemma StoredAt_range hash s : SnapIn Stored hash s -> 0 <= sNumber s < 2 ^ 64.
Proof. by intros (_ & _ & h & _ & _ & Hr%uint64Of_range)%StoredAt_SnapAt%SnapAt_facts. Qed.

Lemma store_ok now s (st : engine) : Healthy now -> exists st', store s st = (Ok tt, st').
Proof.
  intros Hy. unfold store. destruct (hy_marshal _ Hy s) as [b ->].
  destruct (hy_put _ Hy (snapshotKey (sHash s)) b (cDb st)) as [d ->]. eauto.
Qed.

Lemma applyGathered_complete now hash snap headers target s (st : engine) :
  Healthy now -> EngineOk st -> SnapAt hash snap -> Path hash (rev headers) target ->
  apply snap (rev headers) tt = (Ok s, tt) ->
  exists st', applyGathered snap headers st = (Ok s, st').
Proof.
  intros Hy Hok Hs Hp Ha. unfold applyGathered, mbind at 1.
  destruct (apply snap (rev headers) (cSignatures st)) as [r1 sg] eqn:Ea.
  apply apply_sound in Ea as [-> _]; [|by eapply Path_U|by apply Hok]. rewrite Ha. cbn [fst].
  unfold mbind, modify. destruct (_ && _); [|by eexists].
  match goal with |- context [store s ?x] => destruct (store_ok now s x Hy) as [st2 ->] end. by eexists.
Qed.

Lemma verify_genesis_ok F now (st : engine) :
  Healthy now -> cConfig st = config -> verify chain uncleHash F now g [] st = (Ok tt, st).
Proof.
  intros Hy Hc. unfold verify, verifyCascadingFields, verifySeal, mbind, gets, lift.
  rewrite Hc, (hy_genesis _ Hy). destruct (hy_time _ Hy) as (t & -> & Ht). cbn.
  rewrite Z.gtb_ltb. replace (now <? t) with false by (symmetry; apply Z.ltb_ge; lia).
  by rewrite (w_genesis_number W).
Qed.

(** The parent of a block that is not the genesis. *)
Lemma StoredAt_parent hash s :
  SnapIn Stored hash s -> sNumber s <> 0 ->
  exists h s1, GetHeader chain hash (sNumber s) = Some h /\ U h /\ headerHash h = hash /\
    uint64Of (E := cliqueErr) (hNumber h) = Ok (sNumber s) /\
    SnapIn Stored (hParentHash h) s1 /\ apply s1 [h] tt = (Ok s, tt) /\
    sNumber s1 = sNumber s - 1.
Proof.
  intros Hs Hne. inversion Hs as [E|h s1 s' Hst Hn Hs1 Ha E]; subst; [done|].
  pose proof Hst as (n & Hn' & Hg).
  pose proof (apply_one _ _ _ Ha) as (_ & _ & Hnum & Hsucc). rewrite Hnum in Hn'. injection Hn' as <-.
  exists h, s1. split_and!; try done; [by apply Stored_U|].
  pose proof (StoredAt_range _ _ Hs1) as Hr. rewrite Hsucc in Hne |- *. unfold u64 in *.
  destruct (Z.eq_dec (sNumber s1) (2 ^ 64 - 1)) as [E1|]; [by rewrite E1 in Hne|].
  rewrite Z.mod_small by lia. lia.
Qed.

Lemma loop_complete fuel now hash headers target s0 s (st : engine) :
  Healthy now -> EngineOk st -> SnapIn Stored hash s0 -> sNumber s0 < Z.of_nat fuel ->
  Path hash (rev headers) target -> apply s0 (rev headers) tt = (Ok s, tt) ->
  exists st', snapshotLoop chain uncleHash fuel now (sNumber s0) hash [] headers st = (Ok s, st').
Proof.
  intros Hy. revert hash headers s0 st.
  induction fuel as [|fuel IH]; intros hash headers s0 st Hok Hs Hf Hp Ha.
  { pose proof (StoredAt_range _ _ Hs). lia. }
  pose proof (StoredAt_SnapAt _ _ Hs) as HsU.
  cbn [snapshotLoop]. unfold mbind at 1. destruct (recentsGet hash st) as [r1 st1] eqn:Er.
  apply recentsGet_sound in Er as (Hok1 & Hk1 & hit & -> & Hhit); [|done].
  destruct hit as [snap|].
  { rewrite (SnapAt_det _ _ _ (Hhit snap eq_refl) HsU). by eapply applyGathered_complete. }
  unfold mbind at 1, gets. rewrite (eo_config _ Hok1).
  destruct (if _ =? 0 then loadSnapshot _ _ _ else None) as [snap|] eqn:Ed.
  { assert (SnapAt hash snap) as Hd.
    { destruct (_ =? 0); [|done]. apply (eo_db _ Hok1); [by eapply SnapAt_hash|done]. }
    rewrite (SnapAt_det _ _ _ Hd HsU). by eapply applyGathered_complete. }
  destruct (sNumber s0 =? 0) eqn:En; bools.
  - rewrite (w_byNumber W). cbn [deref]. unfold mbind at 1, lift. unfold mbind at 1.
    rewrite (verify_genesis_ok _ _ _ Hy) by apply Hok1.
    unfold mbind at 1. rewrite (eo_config _ Hok1). fold genesisSnapshot. unfold mbind at 1.
    destruct (store genesisSnapshot st1) as [r3 st3] eqn:Est.
    pose proof (store_sound genesisSnapshot _ _ _ (SnapAt_genesis U) Hok1 Est) as [Hok3 _].
    destruct (store_ok now genesisSnapshot st1 Hy) as [st4 E4]. rewrite E4 in Est.
    injection Est as <- <-. assert (s0 = genesisSnapshot) as ->.
    { inversion Hs as [|h s1 s' Hst Hn Hs1 Ha1 E]; [done|subst].
      apply apply_one in Ha1 as (_ & _ & Hnum & _). congruence. }
    by eapply applyGathered_complete.
  - destruct (StoredAt_parent _ _ Hs En) as (h & s1 & Hg & HU & Hh & Hn & Hs1 & Ha1 & Hn1).
    cbn [list.last]. rewrite Hg.
    destruct (Path_back h hash headers target (sNumber s0)) as (Hp1 & _ & _); [done..|].
    pose proof (uint64Of_range _ _ _ Hn) as Hr. unfold is_u64 in Hr.
    replace (u64 (sNumber s0 - 1)) with (sNumber s1)
      by (rewrite u64_small; [lia|unfold is_u64; lia]).
    apply IH; try done; [lia|]. rewrite rev_app_distr. apply (apply_compose s1 [h]). eauto.
Qed.

(** Both directions, for a whole call. *)
Lemma snapshot_spec fuel now number hash s (st : engine) :
  Healthy now -> EngineOk st -> SnapIn Stored hash s -> number = sNumber s ->
  number < Z.of_nat fuel ->
  exists st', snapshot chain uncleHash fuel now number hash [] st = (Ok s, st') /\
    EngineOk st' /\ same_keys st st'.
Proof.
  intros Hy Hok Hs -> Hf. pose proof (StoredAt_SnapAt _ _ Hs) as HsU.
  destruct (loop_complete fuel now hash [] hash s s st) as [st' E]; try done.
  exists st'. split; [done|].
  destruct (loop_sound fuel now (sNumber s) hash [] [] hash st (Ok s) st') as (? & ? & _); try done.
  - by eapply SnapAt_hash.
  - intros Hz. inversion HsU as [|h s1 s' HU Hn Hs1 Ha Eh]; [done|subst].
    apply apply_one in Ha as (_ & _ & Hnum & _). congruence.
Qed.

(** Snapshots of a chain rooted in a well-formed genesis block are well-formed. *)
Lemma SnapAt_inv hash s :
  Forall is_address (hSigners g) -> (forall v, v ∈ hVoters g -> v ∈ hSigners g) ->
  SnapAt hash s -> SnapInv (sNumber s) s.
Proof.
  intros Had Hsub Hs. induction Hs as [|h s s' HU Hn Hs IH Ha]; [by apply newGenesisSnapshot_inv|].
  pose proof (apply_one _ _ _ Ha) as (_ & _ & Hnum & Hsucc).
  apply SnapAt_facts in Hs as (_ & _ & h1 & _ & _ & Hr%uint64Of_range). unfold is_u64 in Hr.
  assert (sNumber s + 1 < 2 ^ 64) as Hlt.
  { destruct (Z.eq_dec (sNumber s) (2 ^ 64 - 1)) as [E1|]; [|lia].
    destruct Hn. rewrite Hnum, Hsucc, E1. done. }
  eapply apply_inv in Ha as [? _]; [done|lia|unfold blen; cbn; lia|done].
Qed.

(** ** Prepare, Seal and VerifyHeader *)

(** [h2] is a prepared header after the transactions have run: the roots, the
    bloom filter and the gas used are filled in, the rest is kept. *)
Record assembled (h1 h2 : Header) : Prop := mkAssembled {
  as_parent : hParentHash h2 = hParentHash h1;
  as_number : hNumber h2 = hNumber h1;
  as_difficulty : hDifficulty h2 = hDifficulty h1;
  as_time : hTime h2 = hTime h1;
  as_extra : hExtra h2 = hExtra h1;
  as_nonce : hNonce h2 = hNonce h1;
  as_mix : hMixDigest h2 = hMixDigest h1;
  as_signers : hSigners h2 = hSigners h1;
  as_voters : hVoters h2 = hVoters h1;
  as_uncle : hUncleHash h2 = uncleHash
}.

(** What [Prepare] fills in, for a block on top of snapshot [s]. *)
Record prepared (s : Snapshot) (signer now : Z) (h0 h1 : Header) : Prop := mkPrepared {
  pr_parent : hParentHash h1 = hParentHash h0;
  pr_number : hNumber h1 = hNumber h0;
  pr_difficulty : hDifficulty h1 = Some (u64 (CalcDifficulty (sSigners s) signer));
  pr_nonzero : signer <> 0 -> u64 (CalcDifficulty (sSigners s) signer) <> 0;
  pr_mix : hMixDigest h1 = 0;
  pr_nonce : hNonce h1 = nonceAuthVote \/ hNonce h1 = nonceDropVote;
  pr_checkpoint : u64 (sNumber s + 1) mod Epoch config = 0 ->
    blen (hExtra h1) = 32 /\ hNonce h1 = nonceDropVote /\
    hSigners h1 = signers s /\ hVoters h1 = voters s;
  pr_time : exists parent pt,
    GetHeader chain (hParentHash h0) (sNumber s) = Some parent /\ hTime parent = Some pt /\
    hTime h1 = Some (if bigInt64 (pt + Period config) <? now then now else pt + Period config)
}.

Lemma proposeVote_fields rnd snap proposals h h' :
  proposeVote rnd snap proposals h = Ok h' ->
  exists extra nonce, h' = with_vote h extra nonce /\
    (nonce = nonceAuthVote \/ nonce = nonceDropVote \/ nonce = hNonce h).
Proof.
  unfold proposeVote. destruct (sensibleProposals _ _) as [|x l].
  - intros [= <-]. exists (hExtra h), (hNonce h). split; [by destruct h|auto].
  - destruct (_ !! _) as [[c p]|]; [|done]. intros [= <-]. eexists _, _. split; [done|].
    destruct (pAuthorize p); auto.
Qed.

Lemma Prepare_prepared fuel now rnd h0 s (st : engine) h1 st1 :
  Healthy now -> EngineOk st -> SnapIn Stored (hParentHash h0) s ->
  uint64Of (E := cliqueErr) (hNumber h0) = Ok (u64 (sNumber s + 1)) ->
  sNumber s < Z.of_nat fuel -> sNumber s + 1 < 2 ^ 64 ->
  Prepare chain uncleHash fuel now rnd h0 st = (Ok h1, st1) ->
  prepared s (cSigner st) now h0 h1 /\ EngineOk st1 /\ same_keys st st1.
Proof.
  intros Hy Hok Hs Hn Hf Hlt. unfold Prepare. cbn zeta.
  cbn [hNumber with_vote hParentHash hExtra hNonce with_difficulty].
  unfold mbind at 1, lift at 1. rewrite Hn. unfold mbind at 1.
  pose proof (StoredAt_range _ _ Hs) as Hr.
  assert (u64 (u64 (sNumber s + 1) - 1) = sNumber s) as Hpred
    by (rewrite (u64_small (_ + 1)) by (unfold is_u64; lia); rewrite u64_small; [lia|unfold is_u64; lia]).
  rewrite Hpred. destruct (snapshot_spec fuel now (sNumber s) (hParentHash h0) s st) as (st2 & -> & Hok2 & Hk);
    [done..|]. unfold mbind at 1, gets at 1. pose proof Hk as (Kp & Ks & Kf). rewrite Ks.
  destruct (_ && negb (bool_decide _)); [done|]. destruct (_ && (u64 _ =? 0)) eqn:Ed; [done|].
  unfold mbind at 1, gets at 1. rewrite (eo_config _ Hok2).
  destruct (Epoch config =? 0); [done|]. unfold mbind at 1, gets at 1.
  set (diff := u64 (CalcDifficulty (sSigners s) (cSigner st))) in *. set (n := u64 (sNumber s + 1)) in *.
  assert (cSigner st <> 0 -> diff <> 0) as Hnz.
  { intros Hs0. apply andb_false_iff in Ed as [Ed|Ed]; bools; lia. }
  assert (forall hp, hParentHash hp = hParentHash h0 -> hNumber hp = hNumber h0 ->
    hDifficulty hp = Some diff -> (hNonce hp = nonceAuthVote \/ hNonce hp = nonceDropVote) ->
    (n mod Epoch config = 0 -> blen (hExtra hp) = 32 /\ hNonce hp = nonceDropVote /\
       hSigners hp = signers s /\ hVoters hp = voters s) ->
    match GetHeader chain (hParentHash hp) (sNumber s) with
    | None => throw ErrUnknownAncestor
    | Some parent =>
        let! ptime := lift (deref (hTime parent)) in
        let time := ptime + Period config in
        ret (with_time hp 0 (if bigInt64 time <? now then now else time))
    end st2 = (Ok h1, st1) ->
    prepared s (cSigner st) now h0 h1 /\ EngineOk st1 /\ same_keys st st1) as Hfin.
  { intros hp E1 E2 E3 E4 E5. rewrite E1. destruct (GetHeader _ _ _) as [parent|] eqn:Eg; [|done].
    unfold mbind, lift, ret. destruct (hTime parent) as [pt|] eqn:Et; cbn; [|done].
    intros [= <- <-]. split; [|done]. constructor; cbn; try done. eauto 10. }
  destruct (n mod Epoch config =? 0) eqn:Ec; cbn [negb]; bools; unfold mbind at 1.
  - apply Hfin; cbn; try done; [auto|]. intros _. split_and!; try done.
    unfold blen. by rewrite ExtraEnsureVanity_length.
  - unfold lift at 1. destruct (proposeVote _ _ _ _) as [hp| | |] eqn:Ep; try done.
    apply proposeVote_fields in Ep as (extra & nonce & -> & Hnonce).
    apply Hfin; cbn; try done. cbn in Hnonce. tauto.
Qed.

(** A signing function whose signatures recover to the account. *)
Definition signsFor (a : Address) (f : Address -> list byte -> option (list byte)) : Prop :=
  forall msg sig, f a msg = Some sig ->
    signatureLength <= blen sig /\
    exists b pk, Ecrecover msg sig = Some (b :: pk) /\
      BytesToAddress (drop 12 (HashBytes (Keccak256 pk))) = a.

Record sealed (s : Snapshot) (signer : Address) (h2 h3 : Header) : Prop := mkSealed {
  sl_sig : exists sig, h3 = with_seal h2 sig /\ signatureLength <= blen sig;
  sl_recover : recover h3 = Ok signer;
  sl_last : exists last, sSigners s !! signer = Some last /\
    (0 < last -> nextSignableBlockNumber s last <= u64 (sNumber s + 1))
}.

Lemma u64_pred n : 0 <= n -> n + 1 < 2 ^ 64 -> u64 (u64 (n + 1) - 1) = n.
Proof.
  intros Hn Hlt. rewrite (u64_small (n + 1)) by (unfold is_u64; lia).
  rewrite u64_small; [lia|unfold is_u64; lia].
Qed.

Lemma Seal_sealed fuel now nanos stopped txs h2 s (st : engine) f h3 st1 :
  Healthy now -> EngineOk st -> SnapIn Stored (hParentHash h2) s ->
  uint64Of (E := cliqueErr) (hNumber h2) = Ok (u64 (sNumber s + 1)) ->
  sNumber s < Z.of_nat fuel -> sNumber s + 1 < 2 ^ 64 ->
  cSignFn st = Some f -> signsFor (cSigner st) f ->
  Seal chain uncleHash fuel now nanos stopped txs h2 st = (Ok (Some h3), st1) ->
  sealed s (cSigner st) h2 h3 /\ EngineOk st1.
Proof.
  intros Hy Hok Hs Hn Hf Hlt Hfn Hsig. unfold Seal.
  unfold mbind at 1, lift at 1. rewrite Hn. destruct (_ =? 0); [done|].
  unfold mbind at 1, gets at 1. destruct (_ && _); [done|].
  unfold mbind at 1, gets at 1. unfold mbind at 1, gets at 1. unfold mbind at 1.
  rewrite u64_pred by (pose proof (StoredAt_range _ _ Hs); lia).
  destruct (snapshot_spec fuel now (sNumber s) (hParentHash h2) s st) as (st2 & -> & Hok2 & _); [done..|].
  destruct (sSigners s !! cSigner st) as [last|] eqn:El; [|done].
  destruct ((last >? 0) && _) eqn:Esp; [done|].
  unfold mbind, lift. destruct (uint64Of (hDifficulty h2)) as [d| | |]; try done.
  destruct (deref (hTime h2)) as [t| | |]; try done. destruct ((nanos <? _) && _); [done|].
  rewrite Hfn. cbn [deref]. destruct (f _ _) as [sig|] eqn:Ef; [|done].
  intros [= <- <-]. split; [|done]. apply Hsig in Ef as (Hl & b & pk & Ee & Ea).
  constructor.
  - eauto.
  - unfold recover, ecrecover. cbn [cacheGet NoCache hSigner with_seal].
    replace (blen sig <? signatureLength) with false by (symmetry; apply Z.ltb_ge; lia).
    change (sigHash (with_seal h2 sig)) with (sigHash h2). by rewrite Ee, <- Ea.
  - exists last. split; [done|]. intros Hpos.
    apply andb_false_iff in Esp as [Esp|Esp]; rewrite ?Z.gtb_ltb in Esp; bools; lia.
Qed.

Lemma matchList_refl e l : matchList e l l = Ok tt.
Proof. induction l as [|x l IH]; cbn; [done|]. by rewrite Z.eqb_refl. Qed.

Lemma nonempty_length (l : list Address) : l <> [] -> Z.of_nat (length l) <? 1 = false.
Proof. intros Hl. apply Z.ltb_ge. destruct l; cbn; [done|lia]. Qed.

(** The standalone checks pass on a header that was prepared and sealed. *)
Lemma verifyHeader_ok s signer now h0 h1 h2 h3 n :
  prepared s signer now h0 h1 -> assembled h1 h2 -> sealed s signer h2 h3 ->
  signer <> 0 -> Epoch config <> 0 -> EIP150Hash (Config chain) = 0 ->
  hNumber h0 = Some n -> bigUint64 n = u64 (sNumber s + 1) ->
  sVoters s <> ∅ -> SnapInv (sNumber s) s ->
  verifyHeader chain uncleHash config h3 = Ok tt.
Proof.
  intros [P1 P2 P3 P4 P5 P6 P7 _] [A1 A2 A3 A4 A5 A6 A7 A8 A9 A10] [(sig & -> & Hl) _ (last & Hlast & _)]
    Hs0 He Hfork Hn Hn' Hv Hinv.
  unfold verifyHeader. cbn [hNumber with_seal hExtra hNonce hSigners hVoters hSigner hMixDigest
    hUncleHash hDifficulty].
  rewrite A2, P2, Hn, Hn', A5, A6, A7, A8, A9, A10, A3, P3, P5.
  destruct (Epoch config =? 0) eqn:Ee; bools; [done|].
  set (d := u64 (CalcDifficulty (sSigners s) signer)) in *.
  assert (bigUint64 d =? 0 = false) as ->.
  { unfold bigUint64. pose proof (u64_range (CalcDifficulty (sSigners s) signer)). fold d in H.
    rewrite Z.abs_eq, Z.mod_small by lia. apply Z.eqb_neq. auto. }
  rewrite andb_false_r.
  assert (verifyForkHashes (Config chain) (with_seal h2 sig) = Ok tt) as ->.
  { unfold verifyForkHashes. rewrite Hfork. destruct (EIP150Block _); [|done].
    cbn. rewrite A2, P2, Hn. cbn. by rewrite andb_false_r. }
  replace (blen sig <? signatureLength) with false by (symmetry; apply Z.ltb_ge; lia).
  rewrite !Z.eqb_refl. cbn [negb].
  destruct (_ mod Epoch config =? 0) eqn:Ec; cbn [andb].
  - bools. destruct (P7 Ec) as (-> & -> & -> & ->). unfold signers, voters, blen, sortAddresses.
    rewrite !exchangeSort_length. rewrite !(bool_decide_eq_true_2 (nonceDropVote = nonceDropVote)) by done.
    rewrite andb_false_r. cbn [negb].
    assert (elements (dom (sSigners s)) <> []) as Hse.
    { intros E%elements_empty_iff. apply elem_of_dom_2 in Hlast. set_solver. }
    assert (elements (sVoters s) <> []) as Hve by (intros E%elements_empty_iff; set_solver).
    by rewrite !nonempty_length by done.
  - destruct P6 as [-> | ->]; by rewrite (bool_decide_eq_true_2 _ eq_refl), ?andb_false_r.
Qed.

(** The checks against the parent pass. *)
Lemma verifyCascadingFields_ok fuel now now' h0 h1 h2 h3 s signer (st : engine) n t :
  Healthy now' -> EngineOk st -> SnapIn Stored (hParentHash h0) s ->
  prepared s signer now h0 h1 -> assembled h1 h2 -> sealed s signer h2 h3 ->
  Epoch config <> 0 -> hNumber h0 = Some n -> bigUint64 n = u64 (sNumber s + 1) ->
  sNumber s < Z.of_nat fuel -> sNumber s + 1 < 2 ^ 64 -> 0 <= Period config -> now < 2 ^ 63 ->
  (forall parent pt, GetHeader chain (hParentHash h0) (sNumber s) = Some parent ->
     hTime parent = Some pt -> 0 <= pt /\ pt + Period config < 2 ^ 63) ->
  hTime h3 = Some t -> t <= now' ->
  exists st', verifyCascadingFields chain (snapshot chain uncleHash fuel now') now' h3 [] st
                = (Ok tt, st') /\ EngineOk st'.
Proof.
  intros Hy Hok Hs [P1 P2 _ _ _ _ P7 (parent & pt & Hg & Hpt & Ht)]
    [A1 A2 _ A4 _ _ _ A8 A9 _] [(sig & -> & _) _ _] He Hn Hn' Hf Hlt HP Hnow Hb Ht3 Htn.
  pose proof (StoredAt_range _ _ Hs) as Hr. cbn [hTime with_seal] in Ht3.
  assert (t = if bigInt64 (pt + Period config) <? now then now else pt + Period config) as Htv by congruence.
  destruct (Hb _ _ Hg Hpt) as [Hb1 Hb2].
  assert (bigInt64 (pt + Period config) = pt + Period config) as Hi.
  { unfold bigInt64. replace (_ <? 0) with false by (symmetry; apply Z.ltb_ge; lia).
    unfold bigUint64. rewrite Z.abs_eq, Z.mod_small by lia. apply i64_small. lia. }
  rewrite Hi in Htv.
  assert (pt + Period config <= t < 2 ^ 63) as Ht63 by (rewrite Htv; destruct (pt + Period config <? now) eqn:E; bools; lia).
  unfold verifyCascadingFields. unfold mbind at 1, lift at 1. cbn [hTime hNumber hParentHash with_seal
    hSigners hVoters]. rewrite Ht3. cbn [deref]. rewrite Z.gtb_ltb.
  replace (now' <? t) with false by (symmetry; apply Z.ltb_ge; lia).
  unfold mbind at 1, lift at 1. rewrite A2, P2, Hn, A1, P1. cbn [uint64Of]. rewrite Hn', u64_pred by lia.
  replace (u64 (sNumber s + 1) =? 0) with false
    by (symmetry; apply Z.eqb_neq; rewrite u64_small; unfold is_u64; lia).
  cbn [list.last]. rewrite Hg. apply (w_get W) in Hg as (_ & Hph & Hpn).
  unfold mbind at 1, lift at 1. rewrite Hpn, Hph, !Z.eqb_refl. cbn [negb orb].
  unfold mbind at 1, lift at 1. rewrite Hpt. cbn [uint64Of]. unfold mbind at 1, gets at 1.
  rewrite (eo_config _ Hok). unfold bigUint64. rewrite !Z.abs_eq, !Z.mod_small by lia.
  rewrite u64_small, Z.gtb_ltb by (unfold is_u64; lia).
  replace (t <? pt + Period config) with false by (symmetry; apply Z.ltb_ge; lia).
  unfold mbind at 1.
  destruct (snapshot_spec fuel now' (sNumber s) (hParentHash h0) s st) as (st2 & -> & Hok2 & _); [done..|].
  exists st2. split; [|done]. replace (Epoch config =? 0) with false by (symmetry; by apply Z.eqb_neq).
  destruct (_ =? 0) eqn:Ec; [|done]. bools. destruct (P7 Ec) as (_ & _ & E1 & E2).
  rewrite A8, A9, E1, E2. unfold mbind, lift. by rewrite !matchList_refl.
Qed.

Lemma verifySeal_ok fuel now now' h0 h1 h2 h3 s signer (st : engine) n :
  Healthy now' -> EngineOk st -> U h3 -> SnapIn Stored (hParentHash h0) s ->
  prepared s signer now h0 h1 -> assembled h1 h2 -> sealed s signer h2 h3 ->
  hNumber h0 = Some n -> bigUint64 n = u64 (sNumber s + 1) ->
  sNumber s < Z.of_nat fuel -> sNumber s + 1 < 2 ^ 64 ->
  exists st', verifySeal (snapshot chain uncleHash fuel now') h3 [] st = (Ok tt, st').
Proof.
  intros Hy Hok HU Hs [P1 P2 P3 _ _ _ _ _] [A1 A2 A3 _ _ _ _ _ _ _]
    [(sig & E3 & _) Hrec (last & Hlast & Hnext)] Hn Hn' Hf Hlt.
  pose proof (StoredAt_range _ _ Hs) as Hr.
  unfold verifySeal. unfold mbind at 1, lift at 1.
  assert (hNumber h3 = Some n /\ hParentHash h3 = hParentHash h0 /\
    hDifficulty h3 = Some (u64 (CalcDifficulty (sSigners s) signer))) as (-> & -> & ->)
    by (rewrite E3; cbn; split_and!; congruence).
  cbn [uint64Of]. rewrite Hn', u64_pred by lia.
  replace (u64 (sNumber s + 1) =? 0) with false
    by (symmetry; apply Z.eqb_neq; rewrite u64_small; unfold is_u64; lia).
  unfold mbind at 1.
  destruct (snapshot_spec fuel now' (sNumber s) (hParentHash h0) s st) as (st2 & -> & Hok2 & _); [done..|].
  unfold mbind at 1, Author. destruct (ecrecover h3 (cSignatures st2)) as [r sg] eqn:Er.
  apply ecrecover_sound in Er as [-> _]; [|done|by apply Hok2]. rewrite Hrec, Hlast.
  replace ((last >? 0) && _) with false.
  2:{ symmetry. apply andb_false_iff. rewrite Z.gtb_ltb. destruct (0 <? last) eqn:E; [|auto]. bools.
      right. apply Z.ltb_ge. auto. }
  unfold mbind, lift, bigUint64. pose proof (u64_range (CalcDifficulty (sSigners s) signer)).
  rewrite Z.abs_eq, Z.mod_small, Z.eqb_refl by lia. by eexists.
Qed.

End Spec.
