(* ===== verification/CliqueProperties.v ===== *)
(** * Package consensus/clique: the main theorems

    The theorems about voting, turns and the engine, each with an instance on a
    small concrete network (module [Net]): three accounts that sign and vote, a
    toy hash, and signatures that name their signer. *)

From stdpp Require Import base numbers list gmap sets option sorting.
From Stdlib Require Import ZArith Lia Strings.Byte.
From S2P Require Import Prelude Common Params Types Toy CliqueSnapshot CliqueVoting CliqueTurns CliqueEngine CliqueEngineSpec.

(** ** A concrete network *)

Module Net.

(** Caches and the database are finite maps that never evict. *)
#[global] Instance mapCache (V : Type) : Cache (gmap Z V) Z V := {|
  cacheGet := fun k c => (c !! k, c);
  cacheAdd := fun k v c => <[k := v]> c
|}.

Definition sign (k : byte) : list byte := k :: replicate 64 x00.
Definition account (k : byte) : Address :=
  BytesToAddress (drop 12 (HashBytes (Toy.hash [k]))).
Definition A : Address := account x01.
Definition B : Address := account x02.
Definition C : Address := account x03.
Definition D : Address := account x04.

Definition conf : CliqueConfig := mkCliqueConfig 5 3000.
Definition start : Snapshot := newGenesisSnapshot conf 0 0 [A; B; C] [A; B; C].

Definition header (number : Z) (parent : Hash) (k : byte) (extra nonce : list byte) : Header :=
  mkHeader parent 7 0 [] [] (sign k) 0 0 0 [] (Some 3) (Some number) 0 0 (Some (5 * number))
    extra 0 nonce.

Definition vanity : list byte := replicate 32 x00.
Definition vote (c : Address) (voter : bool) : list byte := ExtraAppendVote vanity c voter.

(** Blocks without a vote of their own ask to drop the zero account, which is
    not a signer. *)
Definition plain (n : Z) (k : byte) : Header := header n 0 k vanity nonceDropVote.

(** The snapshot after some headers. *)
Definition after (s : Snapshot) (hs : list Header) : Snapshot :=
  match fst (apply s hs (∅ : gmap Z Z)) with Ok s' => s' | _ => s end.
Definition cacheAfter (s : Snapshot) (hs : list Header) : gmap Z Z :=
  snd (apply s hs (∅ : gmap Z Z)).

(** [A] and [B] vote for [D]: the second vote admits it. *)
Definition admission : list Header :=
  [header 1 0 x01 (vote D false) nonceAuthVote; plain 2 x03;
   header 3 0 x02 (vote D false) nonceAuthVote].

(** The snapshot before the second vote, and after it. *)
Definition undecided : Snapshot := after start (take 2 admission).
Definition undecidedCache : gmap Z Z := cacheAfter start (take 2 admission).
Definition deciding : Header := header 3 0 x02 (vote D false) nonceAuthVote.
Definition decided : Snapshot :=
  match fst (apply undecided [deciding] undecidedCache) with Ok s => s | _ => undecided end.

(** Five voters, and a sixth signer [S]. *)
Definition E : Address := account x05.
Definition S : Address := account x06.
Definition start6 : Snapshot := newGenesisSnapshot conf 0 0 [A; B; C; D; E; S] [A; B; C; D; E].

(** [A] asks to drop [S]; [B] asks, twice, to make [S] a voter. *)
Definition pump : list Header :=
  [header 1 0 x01 (vote S false) nonceDropVote; header 2 0 x02 (vote S true) nonceAuthVote;
   plain 3 x03; plain 4 x04; plain 5 x05; header 6 0 x02 (vote S true) nonceAuthVote].

End Net.

(** ** Voting *)

Section Voting.
Context {CR : Crypto} {SC : Type} {SCI : Cache SC Z Z}.

(** Applying headers preserves the snapshot invariant: every voter is a
    signer, no block number is recorded for two signers or lies after the head,
    no voter has two live votes on an account, every live vote is by a current
    voter and every tally counts at least the live votes on its account; and the
    snapshot's number advances by the number of headers. *)
Theorem apply_preserves_SnapInv s headers (c : SC) s' c' :
  0 <= sNumber s -> sNumber s + blen headers < 2 ^ 64 ->
  SnapInv (sNumber s) s -> apply s headers c = (Ok s', c') ->
  SnapInv (sNumber s') s' /\ sNumber s' = sNumber s + blen headers.
Proof. apply apply_inv. Qed.

(** Applying a chain of headers in one batch or split at any point gives the
    same snapshot and the same signature cache, and the batch is accepted exactly
    when both parts are. *)
Theorem apply_batches s hs1 hs2 (c : SC) s2 c2 :
  apply s (hs1 ++ hs2) c = (Ok s2, c2) <->
  exists s1 c1, apply s hs1 c = (Ok s1, c1) /\ apply s1 hs2 c1 = (Ok s2, c2).
Proof. apply apply_compose. Qed.

(** C9. Among signer elections, membership changes only by a strict majority: on
    a chain from genesis, a header that changes the signers or the voters comes
    with a set of more than half of the current voters, each of which has a live
    vote on the header's candidate or is the header's signer. *)
Theorem membership_needs_majority config hash sg vt headers h (c : SC) s c1 s' c2 :
  Forall is_address sg -> (forall v, v ∈ vt -> v ∈ sg) -> blen headers + 1 < 2 ^ 64 ->
  Forall signerElection (headers ++ [h]) ->
  apply (newGenesisSnapshot config 0 hash sg vt) headers c = (Ok s, c1) ->
  apply s [h] c1 = (Ok s', c2) ->
  dom (sSigners s') <> dom (sSigners s) \/ sVoters s' <> sVoters s ->
  exists (signer : Address) (W : gset Z),
    fst (ecrecover h c1) = Ok signer /\ W ⊆ sVoters s /\
    2 * Z.of_nat (size W) > Z.of_nat (size (sVoters s)) /\
    forall w, w ∈ W -> w = signer \/ w ∈ supporters (fst (headerVote h)) (sVotes s).
Proof.
  intros Had Hsub Hlen Hel Ha Hh Hch. apply Forall_app in Hel as [Hel1 Hel2].
  pose proof (newGenesisSnapshot_inv config hash sg vt Had Hsub) as Hg.
  assert (ExactS (newGenesisSnapshot config 0 hash sg vt)) as Hx0 by apply Exact_empty.
  pose proof (apply_exact _ _ _ _ _ Hel1 Hx0 Ha) as Hex.
  destruct (apply_inv _ headers c s c1 (Z.le_refl 0 : 0 <= sNumber (newGenesisSnapshot config 0 hash sg vt))
    ltac:(cbn [sNumber newGenesisSnapshot]; lia) Hg Ha) as [Hinv _].
  apply Forall_cons_1 in Hel2 as [Hel2 _].
  eapply apply_one_majority; [apply Hinv|done..].
Qed.

(** C40. No account seals two blocks of a window of [N/2 + 1] blocks, when there
    are at least [N] signers throughout the window and none of the votes in it is
    about one of the sealing accounts. *)
Theorem seals_in_window_distinct N s headers (c : SC) s' c' :
  0 <= sNumber s -> sNumber s + blen headers < 2 ^ 63 -> blen headers <= N / 2 + 1 ->
  apply s headers c = (Ok s', c') ->
  Forall (fun h => forall x, x ∈ seals s headers c -> fst (headerVote h) <> sealSigner x) headers ->
  Forall (fun x => N <= sealQuorum x < 2 ^ 63) (seals s headers c) ->
  NoDup (sealSigner <$> seals s headers c) /\ length (seals s headers c) = length headers.
Proof.
  intros Hn Hlt Hlen Ha Hv Hq. destruct headers as [|h rest]; [split; [constructor|done]|].
  apply (apply_nonempty _ _ _ _ _ h) in Ha as (Hnum & snap & Ha & _); [|done].
  split; [by eapply seals_window|]. by eapply seals_length.
Qed.

End Voting.

(** Two of three voters admit a fourth signer. *)
Example apply_preserves_SnapInv_witness :
  let s := Net.after Net.start Net.admission in
  apply Net.start Net.admission ∅ = (Ok s, Net.cacheAfter Net.start Net.admission) /\
  SnapInv (sNumber s) s /\ sNumber s = 3.
Proof.
  assert (apply Net.start Net.admission ∅
    = (Ok (Net.after Net.start Net.admission), Net.cacheAfter Net.start Net.admission)) as E
    by (vm_compute; reflexivity).
  split; [exact E|].
  refine (apply_preserves_SnapInv Net.start Net.admission ∅ _ _ _ _ _ E).
  - vm_compute. discriminate.
  - vm_compute. reflexivity.
  - apply newGenesisSnapshot_inv; [|intros v Hv; exact Hv].
    repeat constructor; vm_compute; congruence.
Defined.

Example membership_needs_majority_witness :
  exists (signer : Address) (W : gset Z),
    fst (ecrecover Net.deciding Net.undecidedCache) = Ok signer /\ W ⊆ sVoters Net.undecided /\
    2 * Z.of_nat (size W) > Z.of_nat (size (sVoters Net.undecided)) /\
    forall w, w ∈ W ->
      w = signer \/ w ∈ supporters (fst (headerVote Net.deciding)) (sVotes Net.undecided).
Proof.
  refine (membership_needs_majority Net.conf 0 [Net.A; Net.B; Net.C] [Net.A; Net.B; Net.C]
    (take 2 Net.admission) Net.deciding ∅ Net.undecided Net.undecidedCache
    Net.decided (snd (apply Net.undecided [Net.deciding] Net.undecidedCache))
    _ (fun v Hv => Hv) _ _ _ _ _).
  - repeat constructor; vm_compute; congruence.
  - vm_compute. reflexivity.
  - repeat constructor; vm_compute; reflexivity.
  - vm_compute. reflexivity.
  - vm_compute. reflexivity.
  - left. intros E. assert (Net.D ∈ dom (sSigners Net.decided)) as HD
      by (apply elem_of_dom; vm_compute; eauto).
    rewrite E in HD. apply elem_of_dom in HD. revert HD. vm_compute. by intros [? [=]].
Defined.

Example seals_in_window_distinct_witness :
  let hs := take 4 Net.pump in
  NoDup (sealSigner <$> seals Net.start6 hs (∅ : gmap Z Z)) /\
  length (seals Net.start6 hs (∅ : gmap Z Z)) = 4%nat.
Proof.
  refine (seals_in_window_distinct 6 Net.start6 (take 4 Net.pump) ∅
    (Net.after Net.start6 (take 4 Net.pump)) (Net.cacheAfter Net.start6 (take 4 Net.pump)) _ _ _ _ _ _).
  - vm_compute. discriminate.
  - vm_compute. reflexivity.
  - vm_compute. discriminate.
  - vm_compute. reflexivity.
  - assert (Forall (fun h => Forall (fun x => fst (headerVote h) <> sealSigner x)
      (seals Net.start6 (take 4 Net.pump) (∅ : gmap Z Z))) (take 4 Net.pump)) as Hall.
    { apply (bool_decide_unpack _). vm_compute. exact I. }
    eapply Forall_impl; [exact Hall|]. intros h Hh x Hx.
    exact (proj1 (Forall_forall _ _) Hh x Hx).
  - apply (bool_decide_unpack _). vm_compute. exact I.
Defined.

(** The tallies do not separate the two kinds of election or the two
    directions of a vote.  Of five voters, one asks to drop a signer and another
    asks, twice, to promote the same account to voter; the tally for dropping it
    reaches three and it is removed, though only one voter ever asked for that. *)
Example opposite_votes_pump_the_tally :
  fst (apply Net.start6 Net.pump (∅ : gmap Z Z)) = Ok (Net.after Net.start6 Net.pump) /\
  sSigners Net.start6 !! Net.S = Some 0 /\
  sSigners (Net.after Net.start6 Net.pump) !! Net.S = None /\
  filter (fun h => fst (headerVote h) = Net.S /\ headerAuthorize h = Some false) Net.pump
    = [Net.header 1 0 x01 (Net.vote Net.S false) nonceDropVote] /\
  Z.of_nat (size (sVoters Net.start6)) = 5.
Proof. split_and!; vm_compute; reflexivity. Qed.

(** ** Turns *)

(** With [n] signers every difficulty is 0 or in [n/2 + 1 .. n], and for every
    value in that range there is exactly one signer whose difficulty it is; in
    particular exactly one signer is in turn (difficulty [n]). *)
Theorem difficulties_are_a_ranking m :
  SignersOk m ->
  let n := Z.of_nat (size m) in
  (forall a, is_Some (m !! a) ->
     CalcDifficulty m a = 0 \/ n / 2 + 1 <= CalcDifficulty m a <= n) /\
  (forall d, n / 2 + 1 <= d <= n ->
     exists! a, is_Some (m !! a) /\ CalcDifficulty m a = d).
Proof.
  intros Hok n. split; [by apply difficulty_range|]. intros d Hd.
  destruct (difficulty_onto m Hok d Hd) as (a & Ha & Ed). exists a. split; [done|].
  intros b [Hb Eb]. assert (0 <= n / 2) as Hpos by (apply Z.div_pos; lia).
  apply (difficulty_inj m Hok a b Ha Hb); rewrite Ed; [lia|by rewrite Eb].
Qed.

(** A signer that the spacing rule of [verifySeal] refuses for the next block
    has difficulty 0, so a header that passes the difficulty check with the
    non-zero difficulty that [verifyHeader] demands passes the spacing check. *)
Theorem recent_signers_have_difficulty_zero n s a k :
  SnapInv n s -> sSigners s !! a = Some k -> 0 < k -> n + 1 < 2 ^ 63 ->
  Z.of_nat (size (sSigners s)) < 2 ^ 63 ->
  n + 1 < nextSignableBlockNumber s k -> CalcDifficulty (sSigners s) a = 0.
Proof. apply recent_difficulty. Qed.

(** The chain can always go on: in every well-formed snapshot with a signer,
    the signer in turn has difficulty [n] and the spacing rule lets it seal the
    next block. *)
Theorem in_turn_signer_may_seal n s :
  SnapInv n s -> sSigners s <> ∅ -> 0 <= n -> n + 1 < 2 ^ 63 ->
  Z.of_nat (size (sSigners s)) < 2 ^ 63 ->
  exists a k, sSigners s !! a = Some k /\
    CalcDifficulty (sSigners s) a = Z.of_nat (size (sSigners s)) /\
    ((k >? 0) && (n + 1 <? nextSignableBlockNumber s k)) = false.
Proof.
  intros Hinv Hne Hn Hlt Hsz. pose proof (SnapInv_SignersOk _ _ Hinv) as Hok.
  assert (size (sSigners s) <> 0%nat) as Hs0 by (by intros E%map_size_empty_iff).
  set (N := Z.of_nat (size (sSigners s))) in *.
  pose proof (Z.div_mod N 2 ltac:(lia)). pose proof (Z.mod_pos_bound N 2 ltac:(lia)).
  destruct (difficulty_onto _ Hok N) as (a & [k Hk] & Ed); [unfold N in *; lia|].
  exists a, k. split_and!; [done..|]. apply andb_false_iff. rewrite Z.gtb_ltb.
  destruct (0 <? k) eqn:Ek; [|auto]. right. bools. apply Z.ltb_ge. apply Z.nlt_ge. intros Hrec.
  rewrite (recent_difficulty n s a k) in Ed by done. lia.
Qed.

(** The signer and voter lists of a checkpoint are determined by the snapshot:
    whatever the order in which the map is ranged over, the list is the members
    in increasing order. *)
Theorem checkpoint_lists_sorted n s order_s order_v :
  SnapInv n s -> order_s ≡ₚ elements (dom (sSigners s)) -> order_v ≡ₚ elements (sVoters s) ->
  sortAddresses order_s = signers s /\ sortAddresses order_v = voters s /\
  StronglySorted Z.le (signers s) /\ StronglySorted Z.le (voters s) /\
  (forall a, a ∈ signers s <-> is_Some (sSigners s !! a)) /\
  (forall a, a ∈ voters s <-> a ∈ sVoters s).
Proof.
  intros Hinv Hs Hv.
  assert (Forall is_address (elements (dom (sSigners s)))) as As.
  { apply Forall_forall. intros a Ha%elem_of_elements%elem_of_dom. by apply (si_addr _ _ Hinv). }
  assert (Forall is_address (elements (sVoters s))) as Av.
  { apply Forall_forall. intros a Ha%elem_of_elements. apply (si_addr _ _ Hinv), elem_of_dom.
    by apply (si_voters _ _ Hinv). }
  destruct (exchangeSort_spec _ _ (Nat.le_refl _) As) as [Ps Ss].
  destruct (exchangeSort_spec _ _ (Nat.le_refl _) Av) as [Pv Sv].
  split_and!; [..|intros a; unfold signers, sortAddresses; by rewrite Ps, elem_of_elements, elem_of_dom
    |intros a; unfold voters, sortAddresses; by rewrite Pv, elem_of_elements]; try done.
  - apply sortAddresses_unique; [by rewrite Hs|done].
  - apply sortAddresses_unique; [by rewrite Hv|done].
Qed.

(** A vote written into the extra data is read back: after [ExtraAppendVote]
    on the padded vanity the header has a vote, with that candidate and that kind
    of election, and the vanity is unchanged. *)
Theorem extra_data_roundtrip extra candidate voter :
  is_address candidate ->
  let extra' := ExtraAppendVote (ExtraEnsureVanity extra) candidate voter in
  ExtraHasVote extra' = true /\ ExtraCandidate extra' = candidate /\
  ExtraIsVoterElection extra' = voter /\ ExtraVanity extra' = ExtraEnsureVanity extra.
Proof. apply extra_vote_roundtrip. Qed.

(** Three blocks after genesis: [D] is admitted and the signers have signed
    blocks 1, 3 and 2. *)
Definition netSnapshot : Snapshot := Net.after Net.start Net.admission.

Lemma netSnapshot_inv : SnapInv 3 netSnapshot.
Proof.
  refine (proj1 (apply_inv Net.start Net.admission ∅ netSnapshot
    (Net.cacheAfter Net.start Net.admission) _ _ _ _)).
  - vm_compute. discriminate.
  - vm_compute. reflexivity.
  - apply newGenesisSnapshot_inv; [|intros v Hv; exact Hv].
    repeat constructor; vm_compute; congruence.
  - vm_compute. reflexivity.
Qed.

Example difficulties_are_a_ranking_witness :
  (forall d, 3 <= d <= 4 ->
     exists! a, is_Some (sSigners netSnapshot !! a) /\ CalcDifficulty (sSigners netSnapshot) a = d) /\
  CalcDifficulty (sSigners netSnapshot) Net.D = 4.
Proof.
  split; [|vm_compute; reflexivity].
  exact (proj2 (difficulties_are_a_ranking (sSigners netSnapshot)
    (SnapInv_SignersOk 3 netSnapshot netSnapshot_inv))).
Defined.

Example recent_signers_have_difficulty_zero_witness :
  CalcDifficulty (sSigners netSnapshot) Net.B = 0.
Proof.
  refine (recent_signers_have_difficulty_zero 3 netSnapshot Net.B 3 netSnapshot_inv _ _ _ _ _);
    vm_compute; reflexivity.
Defined.

Example in_turn_signer_may_seal_witness :
  exists a k, sSigners netSnapshot !! a = Some k /\
    CalcDifficulty (sSigners netSnapshot) a = Z.of_nat (size (sSigners netSnapshot)) /\
    ((k >? 0) && (3 + 1 <? nextSignableBlockNumber netSnapshot k)) = false.
Proof.
  refine (in_turn_signer_may_seal 3 netSnapshot netSnapshot_inv _ _ _ _).
  - intros E. apply (f_equal (lookup Net.A)) in E. revert E. vm_compute. discriminate.
  - lia.
  - lia.
  - vm_compute. reflexivity.
Defined.

Example checkpoint_lists_sorted_witness :
  signers netSnapshot = [Net.A; Net.B; Net.C; Net.D] /\
  sortAddresses [Net.C; Net.A; Net.B] = voters netSnapshot /\
  sortAddresses [Net.B; Net.D; Net.C; Net.A] = signers netSnapshot.
Proof.
  destruct (checkpoint_lists_sorted 3 netSnapshot [Net.B; Net.D; Net.C; Net.A] [Net.C; Net.A; Net.B]
    netSnapshot_inv) as (H1 & H2 & _).
  - apply (bool_decide_unpack _). vm_compute. exact I.
  - apply (bool_decide_unpack _). vm_compute. exact I.
  - split; [vm_compute; reflexivity|]. split; [exact H2|exact H1].
Defined.

Example extra_data_roundtrip_witness :
  ExtraCandidate (ExtraAppendVote (ExtraEnsureVanity []) Net.D true) = Net.D.
Proof.
  refine (proj1 (proj2 (extra_data_roundtrip [] Net.D true _))). split; vm_compute; congruence.
Defined.
