(* ===== verification/CliqueEngineProperties.v ===== *)
(** * Package consensus/clique: the main theorems about the engine

    [snapshot] against its specification, and the round trip through [Prepare],
    [Seal] and [VerifyHeader], with instances on a chain of two blocks over the
    concrete network of [CliqueProperties]. *)

From stdpp Require Import base numbers list gmap sets option countable sorting.
From Stdlib Require Import ZArith Lia Strings.Byte.
From S2P Require Import Prelude Common Params Types Toy CliqueSnapshot CliqueVoting CliqueTurns CliqueEngine CliqueEngineSpec CliqueProperties.

(** ** A concrete chain *)

Module NetChain.
Import Net.

#[global] Instance mapCacheLaws (V : Type) : CacheLaws (gmap Z V) Z V.
Proof.
  split; cbn; [done|]. intros k v c k' v'. rewrite lookup_insert.
  case_decide; [intros [= ->]; by left|by right].
Qed.

(** The database is a list of entries, newest first. *)
Definition db : Type := list (list byte * list byte).
Fixpoint dbLookup (k : list byte) (d : db) : option (list byte) :=
  match d with
  | [] => None
  | (k', v) :: d' => if decide (k = k') then Some v else dbLookup k d'
  end.
#[global] Instance database : Database db := {|
  dbGet := dbLookup;
  dbPut := fun k v d => Some ((k, v) :: d)
|}.
#[global] Instance databaseLaws : DatabaseLaws db.
Proof.
  split. cbn. intros k b d d' k' b' [= <-]. cbn.
  case_decide; [intros [= ->]; by left|by right].
Qed.

(** Snapshots are serialized through their enumeration. *)
Definition snapshotTuple : Type := Z * Z * gmap Z Z * gset Z * list (Z * Z * Z * bool) * gmap Z (bool * Z).
Definition toTuple (s : Snapshot) : snapshotTuple :=
  (sNumber s, sHash s, sSigners s, sVoters s,
   (fun v => (vSigner v, vBlock v, vAddress v, vAuthorize v)) <$> sVotes s,
   (fun t => (tAuthorize t, tVotes t)) <$> sTally s).
Definition ofTuple (t : snapshotTuple) : Snapshot :=
  let '(n, h, sg, vt, votes, tally) := t in
  mkSnapshot conf n h sg vt ((fun '(a, b, c, d) => mkVote a b c d) <$> votes)
    ((fun '(a, v) => mkTally a v) <$> tally).

#[global] Instance json : SnapshotJSON := {|
  jsonMarshal := fun s => Some (big_bytes (Z.pos (countable.encode (toTuple s))));
  jsonUnmarshal := fun b => match be_value b with
                            | Z.pos p => ofTuple <$> decode p
                            | _ => None
                            end
|}.

Lemma ofTuple_toTuple s :
  ofTuple (toTuple s)
  = mkSnapshot conf (sNumber s) (sHash s) (sSigners s) (sVoters s) (sVotes s) (sTally s).
Proof.
  unfold ofTuple, toTuple. f_equal.
  - rewrite <- list_fmap_compose. rewrite <- (list_fmap_id (sVotes s)) at 2.
    apply list_fmap_ext. by intros _ [] _.
  - rewrite <- map_fmap_compose. rewrite <- (map_fmap_id (sTally s)) at 2.
    apply map_fmap_ext. by intros _ [] _.
Qed.

#[global] Instance jsonLaws : JSONLaws.
Proof.
  split. cbn [jsonMarshal jsonUnmarshal json]. intros s b [= <-].
  rewrite be_value_big_bytes. cbv beta iota delta [Z.abs]. rewrite decode_encode. cbv beta iota delta [fmap option_fmap option_map].
  exists conf. by rewrite ofTuple_toTuple.
Qed.

Definition uncles : Hash := 7.
Definition genesis : Header :=
  mkHeader 0 uncles 0 [A; B; C] [A; B; C] (sign x00) 0 0 0 [] (Some 1) (Some 0) 0 0 (Some 0)
    vanity 0 nonceDropVote.
Definition block1 : Header := header 1 (headerHash genesis) x01 (vote D false) nonceAuthVote.
Definition block2 : Header := header 2 (headerHash block1) x03 vanity nonceDropVote.

Definition stored : list Header := [genesis; block1; block2].
Definition lookupHeader (hash : Hash) (number : Z) : option Header :=
  find (fun h => (headerHash h =? hash) && bool_decide (hNumber h = Some number)) stored.

Definition chainConfig : ChainConfig :=
  mkChainConfig (Some 1) (Some 0) (Some 0) 0 (Some 0) (Some 0) (Some 0).
Definition chain : ChainReader :=
  mkChainReader chainConfig (Some block2) lookupHeader
    (fun n => find (fun h => bool_decide (hNumber h = Some n)) stored)
    (fun hash => find (fun h => headerHash h =? hash) stored).

Definition okOr {E A : Type} (d : A) (r : result E A) : A :=
  match r with Ok a => a | _ => d end.

(** The third block, prepared and sealed by [B], which also votes for [D]. *)
Definition fresh : Clique db (gmap Z Snapshot) (gmap Z Z) := New conf [] ∅ ∅.
Definition signFn (a : Address) (_ : list byte) : option (list byte) :=
  if a =? B then Some (sign x02) else None.
Definition minerB : Clique db (gmap Z Snapshot) (gmap Z Z) :=
  snd (Propose D true (snd (Authorize B signFn fresh))).

Definition template : Header :=
  mkHeader (headerHash block2) 0 B [] [] [] 0 0 0 [] None (Some 3) 8000000 0 None [] 0 nonceDropVote.
Definition prepare3 : result cliqueErr Header * Clique db (gmap Z Snapshot) (gmap Z Z) :=
  Prepare chain uncles 4 100 (fun _ => O) template minerB.
Definition prepared3 : Header := okOr template (fst prepare3).

Definition finalized3 : Header :=
  mkHeader (hParentHash prepared3) uncles (hCoinbase prepared3) (hSigners prepared3)
    (hVoters prepared3) (hSigner prepared3) 11 12 13 [] (hDifficulty prepared3) (hNumber prepared3)
    (hGasLimit prepared3) 21000 (hTime prepared3) (hExtra prepared3) (hMixDigest prepared3)
    (hNonce prepared3).
Definition seal3 : result cliqueErr (option Header) * Clique db (gmap Z Snapshot) (gmap Z Z) :=
  Seal chain uncles 4 100 (101 * 1000000000) (fun _ => false) 0 finalized3 minerB.
Definition sealed3 : Header := default template (okOr None (fst seal3)).

Definition known (h : Header) : Prop := h ∈ stored ++ [sealed3].

(** The snapshots of the three stored blocks. *)
Definition snap0 : Snapshot := genesisSnapshot conf genesis.
Definition snap1 : Snapshot := okOr snap0 (fst (apply snap0 [block1] tt)).
Definition snap2 : Snapshot := okOr snap1 (fst (apply snap1 [block2] tt)).

Lemma netWorld : World chain genesis known.
Proof.
  constructor.
  - left.
  - vm_compute. reflexivity.
  - assert (Forall (fun h1 => Forall (fun h2 => headerHash h1 = headerHash h2 -> h1 = h2)
      (stored ++ [sealed3])) (stored ++ [sealed3])) as Hall
      by (apply (bool_decide_unpack _); vm_compute; exact I).
    intros h1 h2 H1 H2. rewrite Forall_forall in Hall. specialize (Hall h1 H1).
    rewrite Forall_forall in Hall. exact (Hall h2 H2).
  - assert (Forall (fun h => 0 <= headerHash h < 2 ^ 256 /\ 0 <= hParentHash h < 2 ^ 256)
      (stored ++ [sealed3])) as Hall by (apply (bool_decide_unpack _); vm_compute; exact I).
    rewrite Forall_forall in Hall. exact Hall.
  - assert (Forall (fun h => hNumber h = Some 1 -> hParentHash h = headerHash genesis)
      (stored ++ [sealed3])) as Hall by (apply (bool_decide_unpack _); vm_compute; exact I).
    assert (Forall (fun h => default 0 (hNumber h) < 4 /\ 0 <= default 0 (hNumber h))
      (stored ++ [sealed3])) as Hsmall by (apply (bool_decide_unpack _); vm_compute; exact I).
    rewrite Forall_forall in Hall, Hsmall. intros h Hh Hn. apply (Hall h Hh).
    specialize (Hsmall h Hh). destruct (hNumber h) as [n|]; [|discriminate Hn]. cbn in *.
    injection Hn as Hn. unfold bigUint64 in Hn. rewrite Z.abs_eq, Z.mod_small in Hn by lia. congruence.
  - vm_compute. reflexivity.
  - assert (Forall (fun h => default 0 (hNumber h) < 4 /\ 0 <= default 0 (hNumber h)) stored) as Hsmall
      by (apply (bool_decide_unpack _); vm_compute; exact I).
    rewrite Forall_forall in Hsmall. cbn [GetHeader chain]. unfold lookupHeader.
    intros hash n h [Hin Hp]%find_some. apply list_elem_of_In in Hin. bools. subst hash.
    specialize (Hsmall h Hin). destruct (hNumber h) as [m|]; [|discriminate]. simplify_eq. cbn in Hsmall.
    split; [apply elem_of_app; by left|split; [done|]]. cbn. unfold bigUint64.
    by rewrite Z.abs_eq, Z.mod_small by lia.
Qed.

Lemma netStored1 : SnapIn conf genesis (Stored chain) (headerHash block1) snap1.
Proof.
  apply (SnapAt_block _ _ _ _ snap0).
  - exists 1. split; vm_compute; reflexivity.
  - vm_compute. discriminate.
  - change (hParentHash block1) with (headerHash genesis). constructor.
  - vm_compute. reflexivity.
Qed.

Lemma netStored : SnapIn conf genesis (Stored chain) (headerHash block2) snap2.
Proof.
  apply (SnapAt_block _ _ _ _ snap1).
  - exists 2. split; vm_compute; reflexivity.
  - vm_compute. discriminate.
  - change (hParentHash block2) with (headerHash block1). exact netStored1.
  - vm_compute. reflexivity.
Qed.

Lemma netFresh : EngineOk conf genesis known fresh.
Proof.
  constructor; [reflexivity|..].
  - intros h a _. cbn. rewrite lookup_empty. discriminate.
  - intros h a. cbn. rewrite lookup_empty. discriminate.
  - intros h a _. cbn. discriminate.
Qed.

Lemma netMiner : EngineOk conf genesis known minerB.
Proof. destruct netFresh. by constructor. Qed.

Lemma netHealthy now : 0 <= now -> Healthy (DB := db) chain uncles conf genesis now.
Proof.
  intros Hnow. constructor.
  - intros s. by eexists.
  - intros k b d. by eexists.
  - vm_compute. reflexivity.
  - by exists 0.
Qed.

End NetChain.

(** ** Theorems *)

Section Engine.
Context {CR : Crypto} {JS : SnapshotJSON} {JSL : JSONLaws} {DB RC SC : Type}.
Context {DBI : Database DB} {DBL : DatabaseLaws DB}.
Context {RCI : Cache RC Z Snapshot} {RCL : CacheLaws RC Z Snapshot}.
Context {SCI : Cache SC Z Z} {SCL : CacheLaws SC Z Z}.
Context (chain : ChainReader) (uncleHash : Hash) (config : CliqueConfig).
Context (g : Header) (U : Header -> Prop) (W : World chain g U).

(** C28. [snapshot] is sound: from an engine whose caches and database hold only
    correct entries, a snapshot it returns for a block is the genesis snapshot
    with the block's ancestors and the block applied in order, and the engine's
    caches and database are still correct, also when it fails. *)
Theorem snapshot_sound fuel now number hash parents (st : Clique DB RC SC) r st' :
  EngineOk config g U st -> is_hash hash -> Forall U parents ->
  (number = 0 -> hash = headerHash g) ->
  snapshot chain uncleHash fuel now number hash parents st = (r, st') ->
  EngineOk config g U st' /\ forall s, r = Ok s -> SnapAt config g U hash s.
Proof.
  intros Hok Hh HU Hz E.
  destruct (loop_sound chain uncleHash config g U W fuel now number hash parents [] hash st r st')
    as (? & _ & ?); done.
Qed.

(** C27. [snapshot] is complete: when the ancestors of a block are stored and each
    is accepted, [snapshot] returns the specified snapshot from every engine
    state with correct caches, be they empty or full. *)
Theorem snapshot_complete fuel now hash s (st : Clique DB RC SC) :
  Healthy (DB := DB) chain uncleHash config g now -> EngineOk config g U st ->
  SnapIn config g (Stored chain) hash s -> sNumber s < Z.of_nat fuel ->
  exists st', snapshot chain uncleHash fuel now (sNumber s) hash [] st = (Ok s, st') /\
    EngineOk config g U st'.
Proof.
  intros Hy Hok Hs Hf.
  destruct (snapshot_spec chain uncleHash config g U W fuel now (sNumber s) hash s st)
    as (st' & E & Hok' & _); eauto.
Qed.

(** [snapshot] terminates: it walks back at most to the genesis block, so one
    step more than the block's number always suffices. *)
Theorem snapshot_terminates fuel now number hash parents (st : Clique DB RC SC) :
  cConfig st = config -> 0 <= number < Z.of_nat fuel -> is_u64 number ->
  fst (snapshot chain uncleHash fuel now number hash parents st) <> NoFuel.
Proof. intros. by eapply loop_fuel. Qed.

(** C8. A block that an engine prepares and seals passes the verification of every
    engine with correct caches once its time has come: [Prepare] on top of a
    stored chain, any execution that keeps the consensus fields, and [Seal]
    produce a header that [VerifyHeader] accepts. *)
Theorem prepared_and_sealed_blocks_verify fuel now now' nanos stopped txs rnd h0 h1 h2 h3 n t s
    (st1 st1' st2 st2' st3 : Clique DB RC SC) f :
  Healthy (DB := DB) chain uncleHash config g now ->
  Healthy (DB := DB) chain uncleHash config g now' ->
  EngineOk config g U st1 -> EngineOk config g U st2 -> EngineOk config g U st3 ->
  SnapIn config g (Stored chain) (hParentHash h0) s -> SnapInv (sNumber s) s ->
  hNumber h0 = Some n -> bigUint64 n = u64 (sNumber s + 1) ->
  sNumber s < Z.of_nat fuel -> sNumber s + 1 < 2 ^ 64 ->
  sVoters s <> ∅ -> Epoch config <> 0 -> 0 <= Period config -> now < 2 ^ 63 ->
  EIP150Hash (Config chain) = 0 ->
  (forall parent pt, GetHeader chain (hParentHash h0) (sNumber s) = Some parent ->
     hTime parent = Some pt -> 0 <= pt /\ pt + Period config < 2 ^ 63) ->
  cSigner st1 <> 0 -> cSigner st2 = cSigner st1 -> cSignFn st2 = Some f ->
  signsFor (cSigner st1) f ->
  Prepare chain uncleHash fuel now rnd h0 st1 = (Ok h1, st1') ->
  assembled uncleHash h1 h2 ->
  Seal chain uncleHash fuel now nanos stopped txs h2 st2 = (Ok (Some h3), st2') ->
  U h3 -> hTime h3 = Some t -> t <= now' ->
  exists st3', VerifyHeader chain uncleHash fuel now' h3 st3 = (Ok tt, st3').
Proof.
  intros Hy Hy' Hok1 Hok2 Hok3 Hs Hinv Hn Hn' Hf Hlt Hv He HP Hnow Hfork Hb Hs0 Hs2 Hfn Hsig
    Hp Has Hse HU Ht Htn.
  destruct (Prepare_prepared chain uncleHash config g U W fuel now rnd h0 s st1 h1 st1')
    as (Hpr & _ & _); try done; [by rewrite Hn; cbn; rewrite Hn'|].
  assert (hParentHash h2 = hParentHash h0 /\ hNumber h2 = hNumber h0) as [Ep En]
    by (destruct Hpr, Has; split; congruence).
  destruct (Seal_sealed chain uncleHash config g U W fuel now nanos stopped txs h2 s st2 f h3 st2')
    as (Hsl & _); try done; [by rewrite Ep|by rewrite En, Hn; cbn; rewrite Hn'|by rewrite Hs2|].
  rewrite Hs2 in Hsl.
  unfold VerifyHeader, verify, mbind, gets, lift. rewrite (eo_config _ _ _ _ Hok3).
  rewrite (verifyHeader_ok chain uncleHash config g U W s (cSigner st1) now h0 h1 h2 h3 n) by done.
  destruct (verifyCascadingFields_ok chain uncleHash config g U W fuel now now' h0 h1 h2 h3 s
    (cSigner st1) st3 n t) as (st4 & -> & Hok4); try done.
  destruct (verifySeal_ok chain uncleHash config g U W fuel now now' h0 h1 h2 h3 s
    (cSigner st1) st4 n) as (st5 & ->); try done. eauto.
Qed.

End Engine.

(** The check of a checkpoint's lists compares only as many entries as the
    snapshot has: a header list passes exactly when it extends the expected list,
    by any entries, and the check indexes out of range when the header list is a
    proper prefix of it. *)
Theorem checkpoint_check_is_prefix_check e expected actual :
  (matchList e expected actual = Ok tt <-> exists rest, actual = expected ++ rest) /\
  (matchList e expected actual = Panic <-> exists x rest, expected = actual ++ x :: rest).
Proof.
  revert actual. induction expected as [|x expected IH]; intros actual; cbn [matchList].
  - split; [split; [intros _; by exists actual|done]|].
    split; [done|]. intros (x & rest & E). by destruct actual.
  - destruct actual as [|y actual].
    { split; split; try done; [by intros (rest & ?)|by exists x, expected]. }
    destruct (x =? y) eqn:E; bools; [subst y; destruct (IH actual) as [IH1 IH2]|].
    + rewrite IH1, IH2. split; split.
      * intros (rest & ->). by exists rest.
      * intros (rest & [= ->]). by exists rest.
      * intros (z & rest & ->). by exists z, rest.
      * intros (z & rest & [= ->]). by exists z, rest.
    + split; split; try done; [by intros (rest & [=])|by intros (z & rest & [=])].
Qed.

(** Out-of-turn signers are not delayed: [Seal] counts the signers listed in
    the header, and [Prepare] lists them only on checkpoint blocks, so on every
    other block the delay is 0 whatever the difficulty. *)
Theorem out_of_turn_blocks_are_not_delayed {CR : Crypto} {JS : SnapshotJSON} {DB RC SC : Type}
    {DBI : Database DB} {RCI : Cache RC Z Snapshot} {SCI : Cache SC Z Z}
    chain uncleHash fuel now rnd h0 (st : Clique DB RC SC) h1 st' n d :
  Prepare chain uncleHash fuel now rnd h0 st = (Ok h1, st') ->
  hSigners h0 = [] -> hNumber h0 = Some n -> bigUint64 n mod Epoch (cConfig st') <> 0 ->
  0 <= d -> sealDelay h1 d = 0.
Proof.
  intros Hp Hs Hn Hne Hd.
  enough (hSigners h1 = []) as E.
  { unfold sealDelay, blen. rewrite E. change (Z.of_nat (length [])) with 0.
    destruct (d <? 0) eqn:Q; bools; [lia|done]. }
  revert Hp. unfold Prepare. cbn zeta. cbn [hNumber with_vote hParentHash hExtra hNonce with_difficulty].
  unfold mbind at 1, lift at 1. rewrite Hn. cbn [uint64Of]. unfold mbind at 1.
  destruct (snapshot _ _ _ _ _ _ _ _) as [[s| | |] st1]; try done.
  unfold mbind at 1, gets at 1. destruct (_ && _); [done|]. destruct (_ && _); [done|].
  unfold mbind at 1, gets at 1. destruct (Epoch (cConfig st1) =? 0); [done|].
  unfold mbind at 1, gets at 1. unfold mbind at 1.
  destruct (negb _) eqn:Ec.
  - unfold lift at 1. destruct (proposeVote _ _ _ _) as [hp| | |] eqn:Ep; try done.
    apply proposeVote_fields in Ep as (extra & nonce & -> & _). apply negb_true_iff in Ec. rewrite Ec.
    destruct (GetHeader _ _ _) as [p|]; [|done]. unfold mbind, lift, ret.
    destruct (deref (hTime p)); try done. by intros [= <- <-].
  - unfold ret at 1. apply negb_false_iff in Ec. rewrite Ec.
    destruct (GetHeader _ _ _) as [p|]; [|done]. unfold mbind, lift, ret.
    destruct (deref (hTime p)); try done. intros [= <- <-]. bools. done.
Qed.

Example snapshot_sound_witness :
  SnapAt Net.conf NetChain.genesis NetChain.known (headerHash NetChain.block2) NetChain.snap2.
Proof.
  refine (proj2 (snapshot_sound NetChain.chain NetChain.uncles Net.conf NetChain.genesis
    NetChain.known NetChain.netWorld 3 100 2 (headerHash NetChain.block2) [] NetChain.fresh
    (Ok NetChain.snap2)
    (snd (snapshot NetChain.chain NetChain.uncles 3 100 2 (headerHash NetChain.block2) [] NetChain.fresh))
    NetChain.netFresh _ _ _ _) NetChain.snap2 eq_refl).
  - vm_compute. split; congruence.
  - constructor.
  - discriminate.
  - vm_compute. reflexivity.
Defined.

Example snapshot_complete_witness :
  exists st', snapshot NetChain.chain NetChain.uncles 3 100 (sNumber NetChain.snap2)
      (headerHash NetChain.block2) [] NetChain.fresh = (Ok NetChain.snap2, st') /\
    EngineOk Net.conf NetChain.genesis NetChain.known st'.
Proof.
  refine (snapshot_complete NetChain.chain NetChain.uncles Net.conf NetChain.genesis
    NetChain.known NetChain.netWorld 3 100 (headerHash NetChain.block2) NetChain.snap2 NetChain.fresh
    (NetChain.netHealthy 100 _) NetChain.netFresh NetChain.netStored _).
  - lia.
  - vm_compute. reflexivity.
Defined.

Example snapshot_terminates_witness :
  fst (snapshot NetChain.chain NetChain.uncles 3 100 2 (headerHash NetChain.block2) [] NetChain.fresh)
  <> NoFuel.
Proof.
  refine (snapshot_terminates NetChain.chain NetChain.uncles Net.conf NetChain.genesis
    NetChain.known NetChain.netWorld 3 100 2 (headerHash NetChain.block2) [] NetChain.fresh
    eq_refl _ _).
  - lia.
  - unfold is_u64. lia.
Defined.

Example prepared_and_sealed_blocks_verify_witness :
  exists st', VerifyHeader NetChain.chain NetChain.uncles 4 200 NetChain.sealed3 NetChain.fresh
    = (Ok tt, st').
Proof.
  refine (prepared_and_sealed_blocks_verify NetChain.chain NetChain.uncles Net.conf NetChain.genesis
    NetChain.known NetChain.netWorld 4 100 200 (101 * 1000000000) (fun _ => false) 0 (fun _ => O)
    NetChain.template NetChain.prepared3 NetChain.finalized3 NetChain.sealed3 3 100 NetChain.snap2
    NetChain.minerB (snd NetChain.prepare3) NetChain.minerB (snd NetChain.seal3) NetChain.fresh
    NetChain.signFn (NetChain.netHealthy 100 _) (NetChain.netHealthy 200 _)
    NetChain.netMiner NetChain.netMiner NetChain.netFresh NetChain.netStored _ _ _ _ _ _ _ _ _ _ _
    _ eq_refl _ _ _ _ _ _ _ _).
  - lia.
  - lia.
  - refine (SnapAt_inv NetChain.chain Net.conf NetChain.genesis NetChain.known NetChain.netWorld
      (headerHash NetChain.block2) NetChain.snap2 _ _ _).
    + repeat constructor; vm_compute; congruence.
    + intros v Hv. exact Hv.
    + exact (StoredAt_SnapAt _ _ _ _ NetChain.netWorld _ _ NetChain.netStored).
  - vm_compute. reflexivity.
  - vm_compute. reflexivity.
  - vm_compute. reflexivity.
  - vm_compute. reflexivity.
  - intros E. assert (Net.A ∈ sVoters NetChain.snap2) as HA
      by (apply (bool_decide_unpack _); vm_compute; exact I).
    rewrite E in HA. by apply elem_of_empty in HA.
  - vm_compute. discriminate.
  - vm_compute. discriminate.
  - vm_compute. reflexivity.
  - vm_compute. reflexivity.
  - intros parent pt.
    assert (GetHeader NetChain.chain (hParentHash NetChain.template) (sNumber NetChain.snap2)
      = Some NetChain.block2) as -> by (vm_compute; reflexivity).
    intros [= <-] [= <-]. vm_compute. split; [discriminate|reflexivity].
  - vm_compute. discriminate.
  - vm_compute. reflexivity.
  - intros msg sig. unfold NetChain.signFn. destruct (_ =? _) eqn:Eb; [|discriminate].
    intros [= <-]. split; [vm_compute; discriminate|].
    exists x04, [x02]. split; vm_compute; reflexivity.
  - vm_compute. reflexivity.
  - constructor; vm_compute; reflexivity.
  - vm_compute. reflexivity.
  - right. right. right. left.
  - vm_compute. reflexivity.
  - lia.
Defined.

Example out_of_turn_blocks_are_not_delayed_witness : sealDelay NetChain.prepared3 1 = 0.
Proof.
  refine (out_of_turn_blocks_are_not_delayed NetChain.chain NetChain.uncles 4 100 (fun _ => O)
    NetChain.template NetChain.minerB NetChain.prepared3 (snd NetChain.prepare3) 3 1 _ _ _ _ _).
  - vm_compute. reflexivity.
  - reflexivity.
  - reflexivity.
  - vm_compute. discriminate.
  - lia.
Defined.
