(* ===== verification/VmCore.v ===== *)
(** * Package core/vm: data of the machine

    The interface of the state database (src/core/vm/interface.go), and the
    machine's stack (stack.go, stack_table.go), memory (memory.go), helpers
    (common.go), JUMPDEST analysis (analysis.go), contracts (contract.go), errors
    and the parts of an EVM that change during execution (evm.go, interpreter.go).

    The source passes pointers to the program counter, the EVM, the contract, the
    memory and the stack to every instruction; here they are the fields of one
    state [VM], and an instruction is a computation in the monad [M].  Stack items
    are big integers that the source recycles through a pool (intpool.go); every
    item is used by one slot at a time, so the model has plain values. *)

From stdpp Require Import base numbers list gmap sets option.
From Stdlib Require Import ZArith Lia Strings.Byte.
From S2P Require Import Prelude Common Params Types.

(** ** Errors (errors.go, instructions.go, jump_table.go) *)

Inductive vmErr :=
| ErrOutOfGas
| ErrCodeStoreOutOfGas
| ErrDepth
| ErrInsufficientBalance
| ErrContractAddressCollision
| errWriteProtection
| errReturnDataOutOfBounds
| errExecutionReverted
| errMaxCodeSizeExceeded
| errGasUintOverflow
| errStackUnderflow
| errStackLimit
| errInvalidOpcode (op : Z)
| errInvalidJump (pos : Z)
| errBadPairingInput
| errCurvePoint.

#[global] Instance vmErr_eq_dec : EqDecision vmErr.
Proof. solve_decision. Defined.

(** ** The state database (interface.go) *)

(** The consensus fields of [types.Log] that an instruction fills in. *)
Record Log := mkLog {
  lAddress : Address;
  lTopics : list Hash;
  lData : list byte;
  lBlockNumber : Z
}.

Class StateDB (S : Type) := {
  CreateAccount : Address -> S -> S;
  SubBalance : Address -> Z -> S -> S;
  AddBalance : Address -> Z -> S -> S;
  GetBalance : Address -> S -> Z;
  GetNonce : Address -> S -> Z;
  SetNonce : Address -> Z -> S -> S;
  GetCodeHash : Address -> S -> Hash;
  GetCode : Address -> S -> list byte;
  SetCode : Address -> list byte -> S -> S;
  GetCodeSize : Address -> S -> Z;
  AddRefund : Z -> S -> S;
  GetRefund : S -> Z;
  GetState : Address -> Hash -> S -> Hash;
  SetState : Address -> Hash -> Hash -> S -> S;
  Suicide : Address -> S -> S;
  HasSuicided : Address -> S -> bool;
  Exist : Address -> S -> bool;
  Empty : Address -> S -> bool;
  (** [RevertToSnapshot] panics on an identifier that is not valid. *)
  RevertToSnapshot : Z -> S -> option S;
  Snapshot : S -> Z * S;
  AddLog : Log -> S -> S;
  AddPreimage : Hash -> list byte -> S -> S
}.

(** ** common.go *)

Definition calcMemSize (off l : Z) : Z := if l =? 0 then 0 else off + l.

(** [getData] and [getDataBig]: a slice of [data], zero-padded on the right.  The
    sum in [getData] is a uint64; bounds that cross panic. *)
Definition getData (data : list byte) (start size : Z) : result vmErr (list byte) :=
  let length := Z.of_nat (length data) in
  let start := if start >? length then length else start in
  let end_ := u64 (start + size) in
  let end_ := if end_ >? length then length else end_ in
  if end_ <? start then Panic
  else Ok (RightPadBytes (take (Z.to_nat (end_ - start)) (drop (Z.to_nat start) data)) (i64 size)).

Definition getDataBig (data : list byte) (start size : Z) : list byte :=
  let dlen := Z.of_nat (length data) in
  let s := BigMin start dlen in
  let e := BigMin (s + size) dlen in
  RightPadBytes (take (Z.to_nat (e - s)) (drop (Z.to_nat s) data)) (i64 (bigUint64 size)).

(** [bigUint64] of common.go: the value and whether it overflows. *)
Definition bigUint64Ov (v : Z) : Z * bool := (bigUint64 v, BitLen v >? 64).

Definition toWordSize (size : Z) : Z :=
  if size >? MaxUint64 - 31 then MaxUint64 / 32 + 1 else (size + 31) / 32.

Definition allZero (b : list byte) : bool := forallb (fun x => byte_to_Z x =? 0) b.

(** ** analysis.go *)

Notation bitvec := (list byte).

Definition PUSH1 : Z := 0x60.
Definition PUSH32 : Z := 0x7f.
Definition JUMPDEST : Z := 0x5b.

(** An index out of range panics, here [None]. *)
Definition bytes_or (bits : bitvec) (i : Z) (mask : Z) : option bitvec :=
  b ← bits !! Z.to_nat i; Some (<[Z.to_nat i := byte_of_Z (Z.lor (byte_to_Z b) mask)]> bits).

Definition bvset (bits : bitvec) (pos : Z) : option bitvec :=
  bytes_or bits (pos / 8) (Z.shiftr 0x80 (pos mod 8)).
Definition bvset8 (bits : bitvec) (pos : Z) : option bitvec :=
  bits ← bytes_or bits (pos / 8) (Z.shiftr 0xff (pos mod 8));
  bytes_or bits (pos / 8 + 1) (0xff - Z.shiftr 0xff (pos mod 8)).

Definition codeSegment (bits : bitvec) (pos : Z) : option bool :=
  b ← bits !! Z.to_nat (pos / 8);
  Some (Z.land (byte_to_Z b) (Z.shiftr 0x80 (pos mod 8)) =? 0).

(** The two loops that mark [numbits] bytes of push data: eights, then ones. *)
Fixpoint mark8 (n : nat) (bits : bitvec) (pc : Z) : option (bitvec * Z) :=
  match n with
  | O => Some (bits, pc)
  | S n' => bits ← bvset8 bits pc; mark8 n' bits (pc + 8)
  end.
Fixpoint mark1 (n : nat) (bits : bitvec) (pc : Z) : option (bitvec * Z) :=
  match n with
  | O => Some (bits, pc)
  | S n' => bits ← bvset bits pc; mark1 n' bits (pc + 1)
  end.

(** The main loop.  Every round advances [pc], so [length code] rounds suffice. *)
Fixpoint codeBitmapLoop (fuel : nat) (code : list byte) (pc : Z) (bits : bitvec) : option bitvec :=
  match fuel with
  | O => Some bits
  | S fuel =>
      match code !! Z.to_nat pc with
      | None => Some bits
      | Some b =>
          let op := byte_to_Z b in
          if (PUSH1 <=? op) && (op <=? PUSH32) then
            let numbits := op - PUSH1 + 1 in
            '(bits, pc) ← mark8 (Z.to_nat (numbits / 8)) bits (pc + 1);
            '(bits, pc) ← mark1 (Z.to_nat (numbits mod 8)) bits pc;
            codeBitmapLoop fuel code pc bits
          else codeBitmapLoop fuel code (pc + 1) bits
      end
  end.

Definition codeBitmap (code : list byte) : option bitvec :=
  codeBitmapLoop (length code) code 0 (replicate (length code / 8 + 1 + 4) x00).

(** ** contract.go *)

(** The machine's view of the running code.  [jumpdests] is a map that a contract
    shares with the contract that called it; it is a field of [EVM] below. *)
Record Contract := mkContract {
  CallerAddress : Address;
  cSelf : Address;
  cCode : list byte;
  cCodeHash : Hash;
  cCodeAddr : option Address;
  cInput : list byte;
  cGas : Z;
  cValue : Z;
  cDelegateCall : bool
}.

(** Who calls: an account from outside, or a running contract. *)
Inductive ContractRef :=
| AccountRef (a : Address)
| ContractCaller (c : Contract).

Definition refAddress (r : ContractRef) : Address :=
  match r with AccountRef a => a | ContractCaller c => cSelf c end.

Definition NewContract (caller : ContractRef) (object : Address) (value gas : Z) : Contract :=
  mkContract (refAddress caller) object [] 0 None [] gas value false.

Definition AsDelegate (caller : Contract) (c : Contract) : Contract :=
  mkContract (CallerAddress caller) (cSelf c) (cCode c) (cCodeHash c) (cCodeAddr c) (cInput c)
    (cGas c) (cValue caller) true.

Definition SetCallCode (c : Contract) (addr : Address) (hash : Hash) (code : list byte) : Contract :=
  mkContract (CallerAddress c) (cSelf c) code hash (Some addr) (cInput c) (cGas c) (cValue c)
    (cDelegateCall c).

Definition withGas (c : Contract) (gas : Z) : Contract :=
  mkContract (CallerAddress c) (cSelf c) (cCode c) (cCodeHash c) (cCodeAddr c) (cInput c)
    gas (cValue c) (cDelegateCall c).
Definition withInput (c : Contract) (input : list byte) : Contract :=
  mkContract (CallerAddress c) (cSelf c) (cCode c) (cCodeHash c) (cCodeAddr c) input
    (cGas c) (cValue c) (cDelegateCall c).

Definition GetByte (c : Contract) (n : Z) : Z :=
  match cCode c !! Z.to_nat n with Some b => byte_to_Z b | None => 0 end.
Definition GetOp (c : Contract) (n : Z) : Z := GetByte c n.

(** [UseGas]: whether the gas was there, and the contract after it. *)
Definition UseGas (c : Contract) (gas : Z) : bool * Contract :=
  if cGas c <? gas then (false, c) else (true, withGas c (cGas c - gas)).

(** ** Machine state *)

Record Memory := mkMemory { mStore : list byte; lastGasCost : Z }.
Definition NewMemory : Memory := mkMemory [] 0.
Definition mLen (m : Memory) : Z := Z.of_nat (length (mStore m)).

(** The changing parts of [EVM] and of its [Interpreter]. *)
Record EVM (S : Type) := mkEVM {
  eState : S;
  eDepth : Z;
  eCallGasTemp : Z;
  eReadOnly : bool;
  eReturnData : list byte;
  eJumpdests : gmap Z bitvec
}.
Arguments mkEVM {S}.
Arguments eState {S}.
Arguments eDepth {S}.
Arguments eCallGasTemp {S}.
Arguments eReadOnly {S}.
Arguments eReturnData {S}.
Arguments eJumpdests {S}.

(** [vmStack] has its top first. *)
Record VM (S : Type) := mkVM {
  vmPc : Z;
  vmEvm : EVM S;
  vmContract : Contract;
  vmMemory : Memory;
  vmStack : list Z
}.
Arguments mkVM {S}.
Arguments vmPc {S}.
Arguments vmEvm {S}.
Arguments vmContract {S}.
Arguments vmMemory {S}.
Arguments vmStack {S}.

Section Machine.
Context {S : Type} `{StateDB S}.

Definition evm_with_state (e : EVM S) (s : S) : EVM S :=
  mkEVM s (eDepth e) (eCallGasTemp e) (eReadOnly e) (eReturnData e) (eJumpdests e).
Definition evm_with_depth (e : EVM S) (d : Z) : EVM S :=
  mkEVM (eState e) d (eCallGasTemp e) (eReadOnly e) (eReturnData e) (eJumpdests e).
Definition evm_with_callGas (e : EVM S) (g : Z) : EVM S :=
  mkEVM (eState e) (eDepth e) g (eReadOnly e) (eReturnData e) (eJumpdests e).
Definition evm_with_readOnly (e : EVM S) (b : bool) : EVM S :=
  mkEVM (eState e) (eDepth e) (eCallGasTemp e) b (eReturnData e) (eJumpdests e).
Definition evm_with_returnData (e : EVM S) (d : list byte) : EVM S :=
  mkEVM (eState e) (eDepth e) (eCallGasTemp e) (eReadOnly e) d (eJumpdests e).
Definition evm_with_jumpdests (e : EVM S) (j : gmap Z bitvec) : EVM S :=
  mkEVM (eState e) (eDepth e) (eCallGasTemp e) (eReadOnly e) (eReturnData e) j.

Definition vm_with_pc (v : VM S) (pc : Z) : VM S :=
  mkVM pc (vmEvm v) (vmContract v) (vmMemory v) (vmStack v).
Definition vm_with_evm (v : VM S) (e : EVM S) : VM S :=
  mkVM (vmPc v) e (vmContract v) (vmMemory v) (vmStack v).
Definition vm_with_contract (v : VM S) (c : Contract) : VM S :=
  mkVM (vmPc v) (vmEvm v) c (vmMemory v) (vmStack v).
Definition vm_with_memory (v : VM S) (m : Memory) : VM S :=
  mkVM (vmPc v) (vmEvm v) (vmContract v) m (vmStack v).
Definition vm_with_stack (v : VM S) (st : list Z) : VM S :=
  mkVM (vmPc v) (vmEvm v) (vmContract v) (vmMemory v) st.

Notation VMM := (M (VM S) vmErr).

Definition getState : VMM S := gets (fun v => eState (vmEvm v)).
Definition putState (s : S) : VMM unit :=
  modify (fun v => vm_with_evm v (evm_with_state (vmEvm v) s)).
Definition onState (f : S -> S) : VMM unit :=
  modify (fun v => vm_with_evm v (evm_with_state (vmEvm v) (f (eState (vmEvm v))))).

(** *** stack.go: an index out of range panics *)

Definition push (d : Z) : VMM unit := modify (fun v => vm_with_stack v (d :: vmStack v)).

Definition pop : VMM Z := fun v =>
  match vmStack v with
  | [] => (Panic, v)
  | x :: st => (Ok x, vm_with_stack v st)
  end.

Definition Back (n : nat) : VMM Z := fun v =>
  match vmStack v !! n with
  | None => (Panic, v)
  | Some x => (Ok x, v)
  end.
Definition peek : VMM Z := Back 0.

Definition swap (n : nat) : VMM unit := fun v =>
  match vmStack v !! (n - 1)%nat, vmStack v !! O with
  | Some x, Some y => (Ok tt, vm_with_stack v (<[O := x]> (<[(n - 1)%nat := y]> (vmStack v))))
  | _, _ => (Panic, v)
  end.

Definition dup (n : nat) : VMM unit := fun v =>
  match vmStack v !! (n - 1)%nat with
  | Some x => (Ok tt, vm_with_stack v (x :: vmStack v))
  | None => (Panic, v)
  end.

(** *** stack_table.go *)

Definition makeStackFunc (pop push : Z) (stack : list Z) : result vmErr unit :=
  let len := Z.of_nat (length stack) in
  if len <? pop then Err errStackUnderflow
  else if len + push - pop >? StackLimit then Err errStackLimit
  else Ok tt.
Definition makeDupStackFunc (n : Z) : list Z -> result vmErr unit := makeStackFunc n (n + 1).
Definition makeSwapStackFunc (n : Z) : list Z -> result vmErr unit := makeStackFunc n n.

(** *** memory.go *)

(** [copy(store[offset:offset+size], value)] *)
Definition overwrite (store : list byte) (offset size : nat) (value : list byte) : list byte :=
  let value := take size value in
  take offset store ++ value ++ drop (offset + length value) store.

Definition memSet (offset size : Z) (value : list byte) (m : Memory) : result vmErr Memory :=
  if size >? mLen m then Panic
  else if size >? 0 then
    let hi := u64 (offset + size) in
    if (hi >? mLen m) || (offset >? hi) then Panic
    else Ok (mkMemory (overwrite (mStore m) (Z.to_nat offset) (Z.to_nat size) value) (lastGasCost m))
  else Ok m.

Definition memResize (size : Z) (m : Memory) : Memory :=
  if mLen m <? size
  then mkMemory (mStore m ++ replicate (Z.to_nat (size - mLen m)) x00) (lastGasCost m)
  else m.

(** [Get] and [GetPtr] return the same bytes; offsets are int64. *)
Definition memGet (offset size : Z) (m : Memory) : result vmErr (list byte) :=
  if size =? 0 then Ok []
  else if mLen m >? offset then
    if (offset <? 0) || (size <? 0) || (offset + size >? mLen m) then Panic
    else Ok (take (Z.to_nat size) (drop (Z.to_nat offset) (mStore m)))
  else Ok [].

(** [memory.store[off] = b] *)
Definition memSet8 (off : Z) (b : byte) (m : Memory) : result vmErr Memory :=
  if (off <? 0) || (off >=? mLen m) then Panic
  else Ok (mkMemory (<[Z.to_nat off := b]> (mStore m)) (lastGasCost m)).

Definition memorySet (offset size : Z) (value : list byte) : VMM unit := fun v =>
  match memSet offset size value (vmMemory v) with
  | Ok m => (Ok tt, vm_with_memory v m)
  | _ => (Panic, v)
  end.
Definition memoryGet (offset size : Z) : VMM (list byte) := fun v =>
  (memGet offset size (vmMemory v), v).

(** *** analysis.go: [destinations.has] *)

Definition has (d : gmap Z bitvec) (codehash : Hash) (code : list byte) (dest : Z)
    : result vmErr bool * gmap Z bitvec :=
  let udest := bigUint64 dest in
  if (BitLen dest >=? 63) || (udest >=? Z.of_nat (length code)) then (Ok false, d)
  else
    let '(m, d) := match d !! codehash with
                   | Some m => (Some m, d)
                   | None => (codeBitmap code,
                              match codeBitmap code with Some m => <[codehash := m]> d | None => d end)
                   end in
    match m with
    | None => (Panic, d)
    | Some m =>
        match code !! Z.to_nat udest with
        | None => (Panic, d)
        | Some b =>
            if byte_to_Z b =? JUMPDEST then
              match codeSegment m udest with
              | None => (Panic, d)
              | Some r => (Ok r, d)
              end
            else (Ok false, d)
        end
    end.

End Machine.
