(* ===== verification/VmGas.v ===== *)
(** * Package core/vm: memory sizes and gas

    The memory a call needs (src/core/vm/memory_table.go), the gas of a call
    (gas.go) and the gas functions of the instructions (gas_table.go).  Gas is a
    uint64; where the source adds without a check, so does the model. *)

From stdpp Require Import base numbers list gmap sets option.
From Stdlib Require Import ZArith Lia Strings.Byte.
From S2P Require Import Prelude Common Params Types VmCore.

(** ** gas.go *)

Definition GasQuickStep : Z := 2.
Definition GasFastestStep : Z := 3.
Definition GasFastStep : Z := 5.
Definition GasMidStep : Z := 8.
Definition GasSlowStep : Z := 10.
Definition GasExtStep : Z := 20.

(** The gas a call gets: all but one 64th of what is left, or less if asked. *)
Definition callGas (gt : GasTable) (availableGas base callCost : Z) : result vmErr Z :=
  let gas := u64 (u64 (availableGas - base) - u64 (availableGas - base) / 64) in
  if (CreateBySuicide gt >? 0) && ((BitLen callCost >? 64) || (gas <? bigUint64 callCost))
  then Ok gas
  else if BitLen callCost >? 64 then Err errGasUintOverflow
  else Ok (bigUint64 callCost).

(** ** gas_table.go *)

(** [memoryGasCost]: the fee, and the memory with its new total. *)
Definition memoryGasCostOn (mem : Memory) (newMemSize : Z) : result vmErr Z * Memory :=
  if newMemSize =? 0 then (Ok 0, mem)
  else if newMemSize >? 0xffffffffe0 then (Err errGasUintOverflow, mem)
  else
    let newMemSizeWords := toWordSize newMemSize in
    let newMemSize := u64 (newMemSizeWords * 32) in
    if newMemSize >? mLen mem then
      let square := u64 (newMemSizeWords * newMemSizeWords) in
      let linCoef := u64 (newMemSizeWords * MemoryGas) in
      let quadCoef := square / QuadCoeffDiv in
      let newTotalFee := u64 (linCoef + quadCoef) in
      let fee := u64 (newTotalFee - lastGasCost mem) in
      (Ok fee, mkMemory (mStore mem) newTotalFee)
    else (Ok 0, mem).

(** A checked sum or product: [SafeAdd] and [SafeMul] followed by the test of the
    overflow flag. *)
Definition addGas (x y : Z) : result vmErr Z :=
  let '(z, overflow) := SafeAdd x y in if overflow then Err errGasUintOverflow else Ok z.
Definition mulGas (x y : Z) : result vmErr Z :=
  let '(z, overflow) := SafeMul x y in if overflow then Err errGasUintOverflow else Ok z.
Definition uint64Gas (v : Z) : result vmErr Z :=
  let '(z, overflow) := bigUint64Ov v in if overflow then Err errGasUintOverflow else Ok z.

Section GasTable.
Context {S : Type} `{StateDB S}.
Notation VMM := (M (VM S) vmErr).

(** The chain configuration and the block number of the EVM. *)
Context (config : ChainConfig) (number : option Z).
Notation gt := (gasTable config number).

(** The type of [gasFunc]; the argument is the requested memory size. *)
Definition gasFunc : Type := Z -> VMM Z.

Definition memoryGasCost (newMemSize : Z) : VMM Z := fun v =>
  let '(r, m) := memoryGasCostOn (vmMemory v) newMemSize in (r, vm_with_memory v m).

Definition constGasFunc (gas : Z) : gasFunc := fun _ => ret gas.

(** The five copying instructions charge the memory, a constant and the words of
    the length at stack position [lenPos]. *)
Definition gasCopy (constant perWord : Z) (lenPos : nat) : gasFunc := fun memorySize =>
  let! gas := memoryGasCost memorySize in
  let! gas := lift (addGas gas constant) in
  let! l := Back lenPos in
  let! words := lift (uint64Gas l) in
  let! words := lift (mulGas (toWordSize words) perWord) in
  lift (addGas gas words).

Definition gasCallDataCopy : gasFunc := gasCopy GasFastestStep CopyGas 2.
Definition gasReturnDataCopy : gasFunc := gasCopy GasFastestStep CopyGas 2.
Definition gasCodeCopy : gasFunc := gasCopy GasFastestStep CopyGas 2.
Definition gasExtCodeCopy : gasFunc := gasCopy (ExtcodeCopy gt) CopyGas 3.
Definition gasSha3 : gasFunc := gasCopy Sha3Gas Sha3WordGas 1.

Definition gasSStore : gasFunc := fun _ =>
  let! y := Back 1 in
  let! x := Back 0 in
  let! s := getState in
  let! contract := gets vmContract in
  let val := GetState (cSelf contract) (BigToHash x) s in
  if EmptyHash val && negb (EmptyHash (BigToHash y)) then ret SstoreSetGas
  else if negb (EmptyHash val) && EmptyHash (BigToHash y) then
    let! _ := onState (AddRefund SstoreRefundGas) in ret SstoreClearGas
  else ret SstoreResetGas.

Definition makeGasLog (n : Z) : gasFunc := fun memorySize =>
  let! sz := Back 1 in
  let! requestedSize := lift (uint64Gas sz) in
  let! gas := memoryGasCost memorySize in
  let! gas := lift (addGas gas LogGas) in
  let! gas := lift (addGas gas (u64 (n * LogTopicGas))) in
  let! memorySizeGas := lift (mulGas requestedSize LogDataGas) in
  lift (addGas gas memorySizeGas).

(** Memory and a constant. *)
Definition gasMemConst (constant : Z) : gasFunc := fun memorySize =>
  let! gas := memoryGasCost memorySize in
  lift (addGas gas constant).
Definition gasMLoad : gasFunc := gasMemConst GasFastestStep.
Definition gasMStore8 : gasFunc := gasMemConst GasFastestStep.
Definition gasMStore : gasFunc := gasMemConst GasFastestStep.
Definition gasCreate : gasFunc := gasMemConst CreateGas.

Definition gasBalance : gasFunc := fun _ => ret (Balance gt).
Definition gasExtCodeSize : gasFunc := fun _ => ret (ExtcodeSize gt).
Definition gasSLoad : gasFunc := fun _ => ret (SLoad gt).

Definition gasExp : gasFunc := fun _ =>
  let! e := Back 1 in
  let expByteLen := (BitLen e + 7) / 8 in
  lift (addGas (u64 (expByteLen * ExpByte gt)) GasSlowStep).

(** The end of the four call instructions: memory, and the gas of the callee. *)
Definition gasCallRest (gas memoryGas : Z) : VMM Z :=
  let! gas := lift (addGas gas memoryGas) in
  let! contract := gets vmContract in
  let! requested := Back 0 in
  let r := callGas gt (cGas contract) gas requested in
  let! _ := modify (fun v => vm_with_evm v (evm_with_callGas (vmEvm v)
                      (match r with Ok temp => temp | _ => 0 end))) in
  let! temp := lift r in
  lift (addGas gas temp).

Definition gasCall : gasFunc := fun memorySize =>
  let! value := Back 2 in
  let! addr := Back 1 in
  let! s := getState in
  let transfersValue := negb (value =? 0) in
  let address := BigToAddress addr in
  let gas := Calls gt in
  let gas := if IsEIP158 config number then
               if transfersValue && Empty address s then u64 (gas + CallNewAccountGas) else gas
             else if negb (Exist address s) then u64 (gas + CallNewAccountGas) else gas in
  let gas := if transfersValue then u64 (gas + CallValueTransferGas) else gas in
  let! memoryGas := memoryGasCost memorySize in
  gasCallRest gas memoryGas.

Definition gasCallCode : gasFunc := fun memorySize =>
  let! value := Back 2 in
  let gas := if negb (value =? 0) then u64 (Calls gt + CallValueTransferGas) else Calls gt in
  let! memoryGas := memoryGasCost memorySize in
  gasCallRest gas memoryGas.

Definition gasDelegateCall : gasFunc := fun memorySize =>
  let! memoryGas := memoryGasCost memorySize in
  gasCallRest memoryGas (Calls gt).
Definition gasStaticCall : gasFunc := gasDelegateCall.

Definition gasReturn : gasFunc := memoryGasCost.
Definition gasRevert : gasFunc := memoryGasCost.

Definition gasSuicide : gasFunc := fun _ =>
  let! contract := gets vmContract in
  let! s := getState in
  let! a := Back 0 in
  let address := BigToAddress a in
  let gas :=
    if IsEIP150 config number then
      if IsEIP158 config number then
        if Empty address s && negb (GetBalance (cSelf contract) s =? 0)
        then u64 (Params.Suicide gt + CreateBySuicide gt) else Params.Suicide gt
      else if negb (Exist address s) then u64 (Params.Suicide gt + CreateBySuicide gt) else Params.Suicide gt
    else 0 in
  let! _ := if negb (HasSuicided (cSelf contract) s) then onState (AddRefund SuicideRefundGas)
            else ret tt in
  ret gas.

Definition gasPush : gasFunc := fun _ => ret GasFastestStep.
Definition gasSwap : gasFunc := fun _ => ret GasFastestStep.
Definition gasDup : gasFunc := fun _ => ret GasFastestStep.

(** ** memory_table.go *)

Definition memorySizeFunc : Type := VMM Z.

(** Offset and length at the given stack positions. *)
Definition memRange (off len : nat) : memorySizeFunc :=
  let! o := Back off in
  let! l := Back len in
  ret (calcMemSize o l).
Definition memFixed (len : Z) : memorySizeFunc :=
  let! o := Back 0 in
  ret (calcMemSize o len).
Definition memTwo (off1 len1 off2 len2 : nat) : memorySizeFunc :=
  let! x := memRange off1 len1 in
  let! y := memRange off2 len2 in
  ret (BigMax x y).

Definition memorySha3 : memorySizeFunc := memRange 0 1.
Definition memoryCallDataCopy : memorySizeFunc := memRange 0 2.
Definition memoryReturnDataCopy : memorySizeFunc := memRange 0 2.
Definition memoryCodeCopy : memorySizeFunc := memRange 0 2.
Definition memoryExtCodeCopy : memorySizeFunc := memRange 1 3.
Definition memoryMLoad : memorySizeFunc := memFixed 32.
Definition memoryMStore8 : memorySizeFunc := memFixed 1.
Definition memoryMStore : memorySizeFunc := memFixed 32.
Definition memoryCreate : memorySizeFunc := memRange 1 2.
Definition memoryCall : memorySizeFunc := memTwo 5 6 3 4.
Definition memoryDelegateCall : memorySizeFunc := memTwo 4 5 2 3.
Definition memoryStaticCall : memorySizeFunc := memTwo 4 5 2 3.
Definition memoryReturn : memorySizeFunc := memRange 0 1.
Definition memoryRevert : memorySizeFunc := memRange 0 1.
Definition memoryLog : memorySizeFunc := memRange 0 1.

End GasTable.
