(* ===== verification/VmOps.v ===== *)
(** * Package core/vm: instructions

    One definition per instruction of src/core/vm/instructions.go.  The machine
    calls back into [EVM.Call] and its siblings (evm.go) from the call
    instructions; these are the record [Callee] here, and VmInterp.v ties the knot.

    Stack items are non-negative, so Go's Euclidean [Div] and [Mod] on big integers
    are [Z.div] and [Z.modulo]. *)

From stdpp Require Import base numbers list gmap sets option.
From Stdlib Require Import ZArith Lia Strings.Byte.
From S2P Require Import Prelude Common Params Types VmCore VmGas.

(** ** The environment of an execution (evm.go, interpreter.go) *)

Record Context := mkContext {
  GetHash : Z -> Hash;
  Origin : Address;
  GasPrice : Z;
  Coinbase : Address;
  GasLimit : Z;
  BlockNumber : Z;
  Time : Z;
  Difficulty : Z
}.

(** The options of [Config] that matter without a tracer. *)
Record VmConfig := mkVmConfig {
  NoRecursion : bool;
  DisableGasMetering : bool;
  EnablePreimageRecording : bool
}.

Record Env := mkEnv {
  ctx : Context;
  chainConfig : ChainConfig;
  vmConfig : VmConfig
}.
Definition envNumber (env : Env) : option Z := Some (BlockNumber (ctx env)).

(** What [Call] and its siblings return: output, gas left, error. *)
Definition callResult : Type := list byte * Z * option vmErr.
Definition createResult : Type := list byte * Address * Z * option vmErr.

Record Callee (S : Type) := mkCallee {
  doCall : Contract -> Address -> list byte -> Z -> Z -> M (EVM S) vmErr callResult;
  doCallCode : Contract -> Address -> list byte -> Z -> Z -> M (EVM S) vmErr callResult;
  doDelegateCall : Contract -> Address -> list byte -> Z -> M (EVM S) vmErr callResult;
  doStaticCall : Contract -> Address -> list byte -> Z -> M (EVM S) vmErr callResult;
  doCreate : Contract -> list byte -> Z -> Z -> M (EVM S) vmErr createResult
}.
Arguments mkCallee {S}.
Arguments doCall {S}.
Arguments doCallCode {S}.
Arguments doDelegateCall {S}.
Arguments doStaticCall {S}.
Arguments doCreate {S}.

Section Ops.
Context {CR : Crypto} {S : Type} {SDB : StateDB S}.
Context (env : Env).
Notation VMM := (M (VM S) vmErr).

(** The type of [executionFunc]: the returned bytes. *)
Definition exec : Type := VMM (list byte).

(** Runs a computation of the EVM inside an instruction. *)
Definition onEvm {A : Type} (m : M (EVM S) vmErr A) : VMM A := fun v =>
  let '(r, e) := m (vmEvm v) in (r, vm_with_evm v e).

Definition done : exec := ret [].

(** ** Arithmetic *)

Definition opAdd : exec :=
  let! x := pop in
  let! y := pop in
  let! _ := push (U256 (x + y)) in
  done.

Definition opSub : exec :=
  let! x := pop in
  let! y := pop in
  let! _ := push (U256 (x - y)) in
  done.

Definition opMul : exec :=
  let! x := pop in
  let! y := pop in
  let! _ := push (U256 (x * y)) in
  done.

Definition opDiv : exec :=
  let! x := pop in
  let! y := pop in
  let! _ := push (if negb (y =? 0) then U256 (x / y) else 0) in
  done.

Definition opSdiv : exec :=
  let! x := pop in
  let! y := pop in
  let x := S256 x in
  let y := S256 y in
  if y =? 0 then let! _ := push 0 in done
  else
    let n := if x * y <? 0 then -1 else 1 in
    let! _ := push (U256 (Z.abs x / Z.abs y * n)) in
    done.

Definition opMod : exec :=
  let! x := pop in
  let! y := pop in
  let! _ := push (if y =? 0 then 0 else U256 (x mod y)) in
  done.

Definition opSmod : exec :=
  let! x := pop in
  let! y := pop in
  let x := S256 x in
  let y := S256 y in
  if y =? 0 then let! _ := push 0 in done
  else
    let n := if x <? 0 then -1 else 1 in
    let! _ := push (U256 (Z.abs x mod Z.abs y * n)) in
    done.

Definition opExp : exec :=
  let! base := pop in
  let! exponent := pop in
  let! _ := push (fst (Exp base exponent)) in
  done.

Definition opSignExtend : exec :=
  let! back := pop in
  if back <? 31 then
    let bit := bigUint64 back * 8 + 7 in
    let! num := pop in
    let mask := Z.shiftl 1 bit - 1 in
    let num := if Z.testbit num bit then Z.lor num (Z.lnot mask) else Z.land num mask in
    let! _ := push (U256 num) in
    done
  else done.

Definition opNot : exec :=
  let! x := pop in
  let! _ := push (U256 (Z.lnot x)) in
  done.

(** ** Comparison and bits *)

Definition flag (b : bool) : Z := if b then 1 else 0.

Definition opLt : exec :=
  let! x := pop in
  let! y := pop in
  let! _ := push (flag (x <? y)) in
  done.

Definition opGt : exec :=
  let! x := pop in
  let! y := pop in
  let! _ := push (flag (x >? y)) in
  done.

(** [x.Cmp(math.S256(y)) < 0], where [y] was converted already. *)
Definition opSlt : exec :=
  let! x := pop in
  let! y := pop in
  let! _ := push (flag (S256 x <? S256 (S256 y))) in
  done.

Definition opSgt : exec :=
  let! x := pop in
  let! y := pop in
  let! _ := push (flag (S256 x >? S256 y)) in
  done.

Definition opEq : exec :=
  let! x := pop in
  let! y := pop in
  let! _ := push (flag (x =? y)) in
  done.

Definition opIszero : exec :=
  let! x := pop in
  let! _ := push (if x >? 0 then 0 else 1) in
  done.

Definition opAnd : exec :=
  let! x := pop in
  let! y := pop in
  let! _ := push (Z.land x y) in
  done.

Definition opOr : exec :=
  let! x := pop in
  let! y := pop in
  let! _ := push (Z.lor x y) in
  done.

Definition opXor : exec :=
  let! x := pop in
  let! y := pop in
  let! _ := push (Z.lxor x y) in
  done.

Definition opByte : exec :=
  let! th := pop in
  let! val := pop in
  let! _ := push (if th <? 32 then byte_to_Z (Byte val 32 (bigInt64 th)) else 0) in
  done.

Definition opAddmod : exec :=
  let! x := pop in
  let! y := pop in
  let! z := pop in
  let! _ := push (if z >? 0 then U256 ((x + y) mod z) else 0) in
  done.

Definition opMulmod : exec :=
  let! x := pop in
  let! y := pop in
  let! z := pop in
  let! _ := push (if z >? 0 then U256 ((x * y) mod z) else 0) in
  done.

Definition opSha3 : exec :=
  let! offset := pop in
  let! size := pop in
  let! data := memoryGet (bigInt64 offset) (bigInt64 size) in
  let hash := Keccak256 data in
  let! _ := if EnablePreimageRecording (vmConfig env) then onState (AddPreimage hash data)
            else ret tt in
  let! _ := push (be_value (HashBytes hash)) in
  done.

(** ** The closure's state *)

Definition addressBig (a : Address) : Z := be_value (AddressBytes a).

Definition opAddress : exec :=
  let! c := gets vmContract in
  let! _ := push (addressBig (cSelf c)) in
  done.

Definition opBalance : exec :=
  let! a := pop in
  let! s := getState in
  let! _ := push (GetBalance (BigToAddress a) s) in
  done.

Definition opOrigin : exec :=
  let! _ := push (addressBig (Origin (ctx env))) in
  done.

Definition opCaller : exec :=
  let! c := gets vmContract in
  let! _ := push (addressBig (CallerAddress c)) in
  done.

Definition opCallValue : exec :=
  let! c := gets vmContract in
  let! _ := push (cValue c) in
  done.

Definition opCallDataLoad : exec :=
  let! c := gets vmContract in
  let! off := pop in
  let! _ := push (be_value (getDataBig (cInput c) off 32)) in
  done.

Definition opCallDataSize : exec :=
  let! c := gets vmContract in
  let! _ := push (Z.of_nat (length (cInput c))) in
  done.

Definition opCallDataCopy : exec :=
  let! memOffset := pop in
  let! dataOffset := pop in
  let! len := pop in
  let! c := gets vmContract in
  let! _ := memorySet (bigUint64 memOffset) (bigUint64 len) (getDataBig (cInput c) dataOffset len) in
  done.

Definition opReturnDataSize : exec :=
  let! v := gets vmEvm in
  let! _ := push (Z.of_nat (length (eReturnData v))) in
  done.

Definition opReturnDataCopy : exec :=
  let! memOffset := pop in
  let! dataOffset := pop in
  let! len := pop in
  let! v := gets vmEvm in
  let end_ := dataOffset + len in
  if (BitLen end_ >? 64) || (Z.of_nat (length (eReturnData v)) <? bigUint64 end_)
  then throw errReturnDataOutOfBounds
  else
    let lo := bigUint64 dataOffset in
    let hi := bigUint64 end_ in
    if (hi <? lo) || (Z.of_nat (length (eReturnData v)) <? hi) then panic
    else
      let! _ := memorySet (bigUint64 memOffset) (bigUint64 len)
                  (take (Z.to_nat (hi - lo)) (drop (Z.to_nat lo) (eReturnData v))) in
      done.

Definition opExtCodeSize : exec :=
  let! a := pop in
  let! s := getState in
  let! _ := push (GetCodeSize (BigToAddress a) s) in
  done.

Definition opCodeSize : exec :=
  let! c := gets vmContract in
  let! _ := push (Z.of_nat (length (cCode c))) in
  done.

Definition opCodeCopy : exec :=
  let! memOffset := pop in
  let! codeOffset := pop in
  let! len := pop in
  let! c := gets vmContract in
  let! _ := memorySet (bigUint64 memOffset) (bigUint64 len) (getDataBig (cCode c) codeOffset len) in
  done.

Definition opExtCodeCopy : exec :=
  let! a := pop in
  let! memOffset := pop in
  let! codeOffset := pop in
  let! len := pop in
  let! s := getState in
  let! _ := memorySet (bigUint64 memOffset) (bigUint64 len)
              (getDataBig (GetCode (BigToAddress a) s) codeOffset len) in
  done.

Definition opGasprice : exec :=
  let! _ := push (GasPrice (ctx env)) in
  done.

(** ** The block *)

Definition opBlockhash : exec :=
  let! num := pop in
  let n := BlockNumber (ctx env) - 257 in
  let! _ := push (if (num >? n) && (num <? BlockNumber (ctx env))
                  then be_value (HashBytes (GetHash (ctx env) (bigUint64 num))) else 0) in
  done.

Definition opCoinbase : exec :=
  let! _ := push (addressBig (Coinbase (ctx env))) in
  done.

Definition opTimestamp : exec :=
  let! _ := push (U256 (Time (ctx env))) in
  done.

Definition opNumber : exec :=
  let! _ := push (U256 (BlockNumber (ctx env))) in
  done.

Definition opDifficulty : exec :=
  let! _ := push (U256 (Difficulty (ctx env))) in
  done.

Definition opGasLimit : exec :=
  let! _ := push (U256 (GasLimit (ctx env))) in
  done.

(** ** Stack, memory, storage and flow *)

Definition opPop : exec :=
  let! _ := pop in
  done.

Definition opMload : exec :=
  let! offset := pop in
  let! data := memoryGet (bigInt64 offset) 32 in
  let! _ := push (be_value data) in
  done.

Definition opMstore : exec :=
  let! mStart := pop in
  let! val := pop in
  let! _ := memorySet (bigUint64 mStart) 32 (PaddedBigBytes val 32) in
  done.

Definition opMstore8 : exec :=
  let! off := pop in
  let! val := pop in
  let! _ := (fun v => match memSet8 (bigInt64 off) (byte_of_Z (Z.land (bigInt64 val) 0xff))
                              (vmMemory v) with
                      | Ok m => (Ok tt, vm_with_memory v m)
                      | _ => (Panic, v)
                      end) in
  done.

Definition opSload : exec :=
  let! loc := pop in
  let! c := gets vmContract in
  let! s := getState in
  let! _ := push (be_value (HashBytes (GetState (cSelf c) (BigToHash loc) s))) in
  done.

Definition opSstore : exec :=
  let! loc := pop in
  let! val := pop in
  let! c := gets vmContract in
  let! _ := onState (SetState (cSelf c) (BigToHash loc) (BigToHash val)) in
  done.

(** The test of a jump destination, which may fill the analysis cache. *)
Definition checkJump (pos : Z) : VMM bool := fun v =>
  let c := vmContract v in
  let '(r, d) := has (eJumpdests (vmEvm v)) (cCodeHash c) (cCode c) pos in
  (r, vm_with_evm v (evm_with_jumpdests (vmEvm v) d)).

Definition setPc (pc : Z) : VMM unit := modify (fun v => vm_with_pc v pc).

Definition opJump : exec :=
  let! pos := pop in
  let! ok := checkJump pos in
  if negb ok then throw (errInvalidJump pos)
  else let! _ := setPc (bigUint64 pos) in done.

Definition opJumpi : exec :=
  let! pos := pop in
  let! cond := pop in
  if negb (cond =? 0) then
    let! ok := checkJump pos in
    if negb ok then throw (errInvalidJump pos)
    else let! _ := setPc (bigUint64 pos) in done
  else
    let! _ := modify (fun v => vm_with_pc v (u64 (vmPc v + 1))) in done.

Definition opJumpdest : exec := done.

Definition opPc : exec :=
  let! pc := gets vmPc in
  let! _ := push pc in
  done.

Definition opMsize : exec :=
  let! m := gets vmMemory in
  let! _ := push (mLen m) in
  done.

Definition opGas : exec :=
  let! c := gets vmContract in
  let! _ := push (cGas c) in
  done.

(** ** Calls *)

Section Calls.
Context (callee : Callee S).

Definition setGas (f : Z -> Z) : VMM unit :=
  modify (fun v => vm_with_contract v (withGas (vmContract v) (f (cGas (vmContract v))))).

Definition opCreate : exec :=
  let! value := pop in
  let! offset := pop in
  let! size := pop in
  let! input := memoryGet (bigInt64 offset) (bigInt64 size) in
  let! c := gets vmContract in
  let gas := if IsEIP150 (chainConfig env) (envNumber env) then u64 (cGas c - cGas c / 64)
             else cGas c in
  let c := snd (UseGas c gas) in
  let! _ := modify (fun v => vm_with_contract v c) in
  let! (res, addr, returnGas, suberr) := onEvm (doCreate callee c input gas value) in
  let! _ := push (if IsHomestead (chainConfig env) (envNumber env)
                     && bool_decide (suberr = Some ErrCodeStoreOutOfGas) then 0
                  else if negb (bool_decide (suberr = None))
                          && negb (bool_decide (suberr = Some ErrCodeStoreOutOfGas)) then 0
                  else addressBig addr) in
  let! _ := setGas (fun g => u64 (g + returnGas)) in
  ret (if bool_decide (suberr = Some errExecutionReverted) then res else []).

(** The end of the four call instructions: the success flag, the output copied
    into memory, and the gas that comes back. *)
Definition finishCall (retOffset retSize : Z) (r : callResult) : exec :=
  let '(out, returnGas, err) := r in
  let! _ := push (if bool_decide (err = None) then 1 else 0) in
  let! _ := if bool_decide (err = None) || bool_decide (err = Some errExecutionReverted)
            then memorySet (bigUint64 retOffset) (bigUint64 retSize) out else ret tt in
  let! _ := setGas (fun g => u64 (g + returnGas)) in
  ret out.

Definition opCall : exec :=
  let! _ := pop in
  let! e := gets vmEvm in
  let gas := eCallGasTemp e in
  let! addr := pop in
  let! value := pop in
  let! inOffset := pop in
  let! inSize := pop in
  let! retOffset := pop in
  let! retSize := pop in
  let toAddr := BigToAddress addr in
  let value := U256 value in
  let! args := memoryGet (bigInt64 inOffset) (bigInt64 inSize) in
  let gas := if negb (value =? 0) then u64 (gas + CallStipend) else gas in
  let! c := gets vmContract in
  let! r := onEvm (doCall callee c toAddr args gas value) in
  finishCall retOffset retSize r.

Definition opCallCode : exec :=
  let! _ := pop in
  let! e := gets vmEvm in
  let gas := eCallGasTemp e in
  let! addr := pop in
  let! value := pop in
  let! inOffset := pop in
  let! inSize := pop in
  let! retOffset := pop in
  let! retSize := pop in
  let toAddr := BigToAddress addr in
  let value := U256 value in
  let! args := memoryGet (bigInt64 inOffset) (bigInt64 inSize) in
  let gas := if negb (value =? 0) then u64 (gas + CallStipend) else gas in
  let! c := gets vmContract in
  let! r := onEvm (doCallCode callee c toAddr args gas value) in
  finishCall retOffset retSize r.

Definition opDelegateCall : exec :=
  let! _ := pop in
  let! e := gets vmEvm in
  let gas := eCallGasTemp e in
  let! addr := pop in
  let! inOffset := pop in
  let! inSize := pop in
  let! retOffset := pop in
  let! retSize := pop in
  let toAddr := BigToAddress addr in
  let! args := memoryGet (bigInt64 inOffset) (bigInt64 inSize) in
  let! c := gets vmContract in
  let! r := onEvm (doDelegateCall callee c toAddr args gas) in
  finishCall retOffset retSize r.

Definition opStaticCall : exec :=
  let! _ := pop in
  let! e := gets vmEvm in
  let gas := eCallGasTemp e in
  let! addr := pop in
  let! inOffset := pop in
  let! inSize := pop in
  let! retOffset := pop in
  let! retSize := pop in
  let toAddr := BigToAddress addr in
  let! args := memoryGet (bigInt64 inOffset) (bigInt64 inSize) in
  let! c := gets vmContract in
  let! r := onEvm (doStaticCall callee c toAddr args gas) in
  finishCall retOffset retSize r.

End Calls.

Definition opReturn : exec :=
  let! offset := pop in
  let! size := pop in
  memoryGet (bigInt64 offset) (bigInt64 size).

Definition opRevert : exec :=
  let! offset := pop in
  let! size := pop in
  memoryGet (bigInt64 offset) (bigInt64 size).

Definition opStop : exec := done.

Definition opSuicide : exec :=
  let! c := gets vmContract in
  let! s := getState in
  let balance := GetBalance (cSelf c) s in
  let! a := pop in
  let! _ := onState (AddBalance (BigToAddress a) balance) in
  let! _ := onState (VmCore.Suicide (cSelf c)) in
  done.

(** ** Families *)

Fixpoint popTopics (n : nat) : VMM (list Hash) :=
  match n with
  | O => ret []
  | Datatypes.S n' =>
      let! t := pop in
      let! ts := popTopics n' in
      ret (BigToHash t :: ts)
  end.

Definition makeLog (size : nat) : exec :=
  let! mStart := pop in
  let! mSize := pop in
  let! topics := popTopics size in
  let! d := memoryGet (bigInt64 mStart) (bigInt64 mSize) in
  let! c := gets vmContract in
  let! _ := onState (AddLog (mkLog (cSelf c) topics d (bigUint64 (BlockNumber (ctx env))))) in
  done.

Definition makePush (size pushByteSize : Z) : exec :=
  let! c := gets vmContract in
  let! pc := gets vmPc in
  let codeLen := Z.of_nat (length (cCode c)) in
  let start := i64 (u64 (pc + 1)) in
  let startMin := if start <? codeLen then start else codeLen in
  let endMin := if startMin + pushByteSize <? codeLen then startMin + pushByteSize else codeLen in
  if startMin <? 0 then panic
  else
    let! _ := push (be_value (RightPadBytes
                (take (Z.to_nat (endMin - startMin)) (drop (Z.to_nat startMin) (cCode c)))
                pushByteSize)) in
    let! _ := setPc (u64 (pc + size)) in
    done.

Definition makeDup (size : nat) : exec := let! _ := dup size in done.

Definition makeSwap (size : nat) : exec := let! _ := swap (size + 1) in done.

End Ops.
