(* ===== verification/VmPrecompiled.v ===== *)
(** * Package core/vm: precompiled contracts

    The native contracts of src/core/vm/contracts.go with their gas.  SHA-256,
    RIPEMD-160 and the group operations of the bn256 curve are the interface
    [NativeCrypto]. *)

From stdpp Require Import base numbers list gmap sets option.
From Stdlib Require Import ZArith Zpow_facts Lia Strings.Byte.
From S2P Require Import Prelude Common Params Types VmCore.

Class NativeCrypto := {
  G1 : Type;
  G2 : Type;
  Sha256 : list byte -> list byte;
  Ripemd160 : list byte -> list byte;
  g1Unmarshal : list byte -> option G1;
  g1Marshal : G1 -> list byte;
  g1Add : G1 -> G1 -> G1;
  g1ScalarMult : G1 -> Z -> G1;
  g2Unmarshal : list byte -> option G2;
  pairingCheck : list G1 -> list G2 -> bool
}.

Inductive PrecompiledContract :=
| ecrecoverP | sha256hash | ripemd160hash | dataCopy
| bigModExp | bn256Add | bn256ScalarMul | bn256Pairing.

Definition PrecompiledContractsHomestead (addr : Address) : option PrecompiledContract :=
  if addr =? 1 then Some ecrecoverP
  else if addr =? 2 then Some sha256hash
  else if addr =? 3 then Some ripemd160hash
  else if addr =? 4 then Some dataCopy
  else None.

Definition PrecompiledContractsByzantium (addr : Address) : option PrecompiledContract :=
  if addr =? 5 then Some bigModExp
  else if addr =? 6 then Some bn256Add
  else if addr =? 7 then Some bn256ScalarMul
  else if addr =? 8 then Some bn256Pairing
  else PrecompiledContractsHomestead addr.

(** ** Modular exponentiation *)

(** [x.Exp(x, y, m)] for non-negative [x], [y] and positive [m]. *)
Definition bigExp (x y m : Z) : Z := if m =? 1 then 0 else Zpow_mod x y m.

(** [input[96:]], or nothing. *)
Definition modExpBody (input : list byte) : list byte := drop 96 input.

Definition modExpGas (baseLen expLen modLen : Z) (input : list byte) : result vmErr Z :=
  let* expHead :=
    if Z.of_nat (length input) <=? baseLen then Ok 0
    else if expLen >? 32 then let* d := getData input (bigUint64 baseLen) 32 in Ok (be_value d)
    else let* d := getData input (bigUint64 baseLen) (bigUint64 expLen) in Ok (be_value d) in
  let msb := if BitLen expHead >? 0 then BitLen expHead - 1 else 0 in
  let adjExpLen := (if expLen >? 32 then 8 * (expLen - 32) else 0) + msb in
  let gas := BigMax modLen baseLen in
  let gas :=
    if gas <=? 64 then gas * gas
    else if gas <=? 1024 then gas * gas / 4 + (96 * gas - 3072)
    else gas * gas / 16 + (480 * gas - 199680) in
  let gas := gas * BigMax adjExpLen 1 / ModExpQuadCoeffDiv in
  Ok (if BitLen gas >? 64 then MaxUint64 else bigUint64 gas).

Definition modExpRun (baseLen expLen modLen : Z) (input : list byte) : result vmErr (list byte) :=
  if (baseLen =? 0) && (modLen =? 0) then Ok []
  else
    let* b := getData input 0 baseLen in
    let* e := getData input baseLen expLen in
    let* m := getData input (u64 (baseLen + expLen)) modLen in
    let base := be_value b in
    let exp := be_value e in
    let modulus := be_value m in
    if BitLen modulus =? 0 then Ok (LeftPadBytes [] (i64 modLen))
    else Ok (LeftPadBytes (big_bytes (bigExp base exp modulus)) (i64 modLen)).

(** The three lengths at the head of the input. *)
Definition modExpLens (input : list byte) : result vmErr (Z * Z * Z) :=
  let* b := getData input 0 32 in
  let* e := getData input 32 32 in
  let* m := getData input 64 32 in
  Ok (be_value b, be_value e, be_value m).

(** ** Signatures *)

Definition secp256k1_N : Z := 0xfffffffffffffffffffffffffffffffebaaedce6af48a03bbfd25e8cd0364141.

(** [crypto.ValidateSignatureValues] (src/crypto/crypto.go) *)
Definition ValidateSignatureValues (v r s : Z) (homestead : bool) : bool :=
  if (r <? 1) || (s <? 1) then false
  else if homestead && (s >? secp256k1_N / 2) then false
  else (r <? secp256k1_N) && (s <? secp256k1_N) && ((v =? 0) || (v =? 1)).

Definition slice (b : list byte) (i j : nat) : list byte := take (j - i) (drop i b).

Section Precompiled.
Context {CR : Crypto} {NC : NativeCrypto}.

Definition ecrecoverRun (input : list byte) : result vmErr (list byte) :=
  let input := RightPadBytes input 128 in
  let r := be_value (slice input 64 96) in
  let s := be_value (slice input 96 128) in
  match input !! 63%nat with
  | None => Panic
  | Some b =>
      let v := byte_of_Z (byte_to_Z b - 27) in
      if negb (allZero (slice input 32 63)) || negb (ValidateSignatureValues (byte_to_Z v) r s false)
      then Ok []
      else
        match Ecrecover (slice input 0 32) (slice input 64 128 ++ [v]) with
        | None => Ok []
        | Some [] => Panic
        | Some (_ :: pubKey) =>
            Ok (replicate 12 x00 ++ drop 12 (HashBytes (Keccak256 pubKey)))
        end
  end.

(** The points of a pairing input, 192 bytes each. *)
Fixpoint pairingPoints (n : nat) (input : list byte) : result vmErr (list G1 * list G2) :=
  match n with
  | O => Ok ([], [])
  | S n' =>
      match g1Unmarshal (slice input 0 64), g2Unmarshal (slice input 64 192) with
      | None, _ => Err errCurvePoint
      | Some _, None => Err errCurvePoint
      | Some c, Some t =>
          let* (cs, ts) := pairingPoints n' (drop 192 input) in
          Ok (c :: cs, t :: ts)
      end
  end.

Definition true32Byte : list byte := replicate 31 x00 ++ [x01].
Definition false32Byte : list byte := replicate 32 x00.

Definition curvePoint (data : result vmErr (list byte)) : result vmErr G1 :=
  let* b := data in
  match g1Unmarshal b with Some p => Ok p | None => Err errCurvePoint end.

Definition RequiredGas (p : PrecompiledContract) (input : list byte) : result vmErr Z :=
  let words := u64 (Z.of_nat (length input) + 31) / 32 in
  match p with
  | ecrecoverP => Ok EcrecoverGas
  | sha256hash => Ok (u64 (words * Sha256PerWordGas + Sha256BaseGas))
  | ripemd160hash => Ok (u64 (words * Ripemd160PerWordGas + Ripemd160BaseGas))
  | dataCopy => Ok (u64 (words * IdentityPerWordGas + IdentityBaseGas))
  | bigModExp =>
      let* (baseLen, expLen, modLen) := modExpLens input in
      modExpGas baseLen expLen modLen (modExpBody input)
  | bn256Add => Ok Bn256AddGas
  | bn256ScalarMul => Ok Bn256ScalarMulGas
  | bn256Pairing =>
      Ok (u64 (Bn256PairingBaseGas + Z.of_nat (length input) / 192 * Bn256PairingPerPointGas))
  end.

Definition RunP (p : PrecompiledContract) (input : list byte) : result vmErr (list byte) :=
  match p with
  | ecrecoverP => ecrecoverRun input
  | sha256hash => Ok (Sha256 input)
  | ripemd160hash => Ok (LeftPadBytes (Ripemd160 input) 32)
  | dataCopy => Ok input
  | bigModExp =>
      let* (baseLen, expLen, modLen) := modExpLens input in
      modExpRun (bigUint64 baseLen) (bigUint64 expLen) (bigUint64 modLen) (modExpBody input)
  | bn256Add =>
      let* x := curvePoint (getData input 0 64) in
      let* y := curvePoint (getData input 64 64) in
      Ok (g1Marshal (g1Add x y))
  | bn256ScalarMul =>
      let* p := curvePoint (getData input 0 64) in
      let* k := getData input 64 32 in
      Ok (g1Marshal (g1ScalarMult p (be_value k)))
  | bn256Pairing =>
      if Z.of_nat (length input) mod 192 >? 0 then Err errBadPairingInput
      else
        let* (cs, ts) := pairingPoints (length input / 192) input in
        Ok (if pairingCheck cs ts then true32Byte else false32Byte)
  end.

(** The output and the error, and the contract after paying. *)
Definition RunPrecompiledContract (p : PrecompiledContract) (input : list byte) (contract : Contract)
    : result vmErr (list byte * option vmErr) * Contract :=
  match RequiredGas p input with
  | Ok gas =>
      let '(ok, contract) := UseGas contract gas in
      if ok then
        (match RunP p input with
         | Ok out => Ok (out, None)
         | Err e => Ok ([], Some e)
         | Panic => Panic
         | NoFuel => NoFuel
         end, contract)
      else (Ok ([], Some ErrOutOfGas), contract)
  | _ => (Panic, contract)
  end.

End Precompiled.
