(* ===== verification/VmInterp.v ===== *)
(** * Package core/vm: the interpreter and the EVM

    The instruction sets of the three forks (src/core/vm/jump_table.go), the
    interpreter's loop (interpreter.go), and [EVM.Call] and its siblings (evm.go)
    with the transfer functions they are given (src/core/evm.go).

    The loop and the calls recurse through each other.  [loop] takes a fuel that
    both its next round and the calls of its instruction get; since a round costs
    gas and a callee gets less gas than its caller has, a fuel above the gas is
    always enough ([VmGasProofs]).  The tracer, the JIT and [EVM.Cancel] are left
    out. *)

From stdpp Require Import base numbers list gmap sets option.
From Stdlib Require Import ZArith Lia Strings.Byte.
From S2P Require Import Prelude Rlp Common Params Types VmCore VmGas VmOps VmPrecompiled.

Section Interp.
Context {CR : Crypto} {NC : NativeCrypto} {S : Type} {SDB : StateDB S}.
Context (env : Env).
Notation VMM := (M (VM S) vmErr).
Notation EVMM := (M (EVM S) vmErr).
Notation config := (chainConfig env).
Notation number := (envNumber env).

(** ** jump_table.go *)

Record operation := mkOperation {
  oExecute : exec (S := S);
  oGasCost : gasFunc (S := S);
  (** The arguments of [makeStackFunc]. *)
  oPop : Z;
  oPush : Z;
  oMemorySize : option (memorySizeFunc (S := S));
  oHalts : bool;
  oJumps : bool;
  oWrites : bool;
  oReverts : bool;
  oReturns : bool
}.

(** Most operations have no flags; those that need memory name its size. *)
Definition plainOp (e : exec) (g : gasFunc) (pop push : Z) : option operation :=
  Some (mkOperation e g pop push None false false false false false).
Definition memOp (e : exec) (g : gasFunc) (pop push : Z) (m : memorySizeFunc) : option operation :=
  Some (mkOperation e g pop push (Some m) false false false false false).
Definition jumpOp (e : exec) (g : gasFunc) (pop push : Z) : option operation :=
  Some (mkOperation e g pop push None false true false false false).
Definition logOp (n : nat) : option operation :=
  Some (mkOperation (makeLog env n) (makeGasLog (Z.of_nat n)) (2 + Z.of_nat n) 0 (Some memoryLog)
          false false true false false).
Definition callOp (e : exec) (g : gasFunc) (pop push : Z) (m : memorySizeFunc) (writes : bool)
    : option operation :=
  Some (mkOperation e g pop push (Some m) false false writes false true).

Section Tables.
Context (callee : Callee S).

(** [None] stands for an operation that is not valid. *)
Definition frontierInstructionSet (op : Z) : option operation :=
  if (0x60 <=? op) && (op <=? 0x7f) then
    plainOp (makePush (op - 0x5f) (op - 0x5f)) gasPush 0 1
  else if (0x80 <=? op) && (op <=? 0x8f) then
    plainOp (makeDup (Z.to_nat (op - 0x7f))) gasDup (op - 0x7f) (op - 0x7f + 1)
  else if (0x90 <=? op) && (op <=? 0x9f) then
    plainOp (makeSwap (Z.to_nat (op - 0x8f))) gasSwap (op - 0x8f + 1) (op - 0x8f + 1)
  else if (0xa0 <=? op) && (op <=? 0xa4) then
    logOp (Z.to_nat (op - 0xa0))
  else
  match op with
  | 0x00 => Some (mkOperation opStop (constGasFunc 0) 0 0 None true false false false false)
  | 0x01 => plainOp opAdd (constGasFunc GasFastestStep) 2 1
  | 0x02 => plainOp opMul (constGasFunc GasFastStep) 2 1
  | 0x03 => plainOp opSub (constGasFunc GasFastestStep) 2 1
  | 0x04 => plainOp opDiv (constGasFunc GasFastStep) 2 1
  | 0x05 => plainOp opSdiv (constGasFunc GasFastStep) 2 1
  | 0x06 => plainOp opMod (constGasFunc GasFastStep) 2 1
  | 0x07 => plainOp opSmod (constGasFunc GasFastStep) 2 1
  | 0x08 => plainOp opAddmod (constGasFunc GasMidStep) 3 1
  | 0x09 => plainOp opMulmod (constGasFunc GasMidStep) 3 1
  | 0x0a => plainOp opExp (gasExp config number) 2 1
  | 0x0b => plainOp opSignExtend (constGasFunc GasFastStep) 2 1
  | 0x10 => plainOp opLt (constGasFunc GasFastestStep) 2 1
  | 0x11 => plainOp opGt (constGasFunc GasFastestStep) 2 1
  | 0x12 => plainOp opSlt (constGasFunc GasFastestStep) 2 1
  | 0x13 => plainOp opSgt (constGasFunc GasFastestStep) 2 1
  | 0x14 => plainOp opEq (constGasFunc GasFastestStep) 2 1
  | 0x15 => plainOp opIszero (constGasFunc GasFastestStep) 1 1
  | 0x16 => plainOp opAnd (constGasFunc GasFastestStep) 2 1
  | 0x17 => plainOp opOr (constGasFunc GasFastestStep) 2 1
  | 0x18 => plainOp opXor (constGasFunc GasFastestStep) 2 1
  | 0x19 => plainOp opNot (constGasFunc GasFastestStep) 1 1
  | 0x1a => plainOp opByte (constGasFunc GasFastestStep) 2 1
  | 0x20 => memOp (opSha3 env) gasSha3 2 1 memorySha3
  | 0x30 => plainOp opAddress (constGasFunc GasQuickStep) 0 1
  | 0x31 => plainOp opBalance (gasBalance config number) 1 1
  | 0x32 => plainOp (opOrigin env) (constGasFunc GasQuickStep) 0 1
  | 0x33 => plainOp opCaller (constGasFunc GasQuickStep) 0 1
  | 0x34 => plainOp opCallValue (constGasFunc GasQuickStep) 0 1
  | 0x35 => plainOp opCallDataLoad (constGasFunc GasFastestStep) 1 1
  | 0x36 => plainOp opCallDataSize (constGasFunc GasQuickStep) 0 1
  | 0x37 => memOp opCallDataCopy gasCallDataCopy 3 0 memoryCallDataCopy
  | 0x38 => plainOp opCodeSize (constGasFunc GasQuickStep) 0 1
  | 0x39 => memOp opCodeCopy gasCodeCopy 3 0 memoryCodeCopy
  | 0x3a => plainOp (opGasprice env) (constGasFunc GasQuickStep) 0 1
  | 0x3b => plainOp opExtCodeSize (gasExtCodeSize config number) 1 1
  | 0x3c => memOp opExtCodeCopy (gasExtCodeCopy config number) 4 0 memoryExtCodeCopy
  | 0x40 => plainOp (opBlockhash env) (constGasFunc GasExtStep) 1 1
  | 0x41 => plainOp (opCoinbase env) (constGasFunc GasQuickStep) 0 1
  | 0x42 => plainOp (opTimestamp env) (constGasFunc GasQuickStep) 0 1
  | 0x43 => plainOp (opNumber env) (constGasFunc GasQuickStep) 0 1
  | 0x44 => plainOp (opDifficulty env) (constGasFunc GasQuickStep) 0 1
  | 0x45 => plainOp (opGasLimit env) (constGasFunc GasQuickStep) 0 1
  | 0x50 => plainOp opPop (constGasFunc GasQuickStep) 1 0
  | 0x51 => memOp opMload gasMLoad 1 1 memoryMLoad
  | 0x52 => memOp opMstore gasMStore 2 0 memoryMStore
  | 0x53 => memOp opMstore8 gasMStore8 2 0 memoryMStore8
  | 0x54 => plainOp opSload (gasSLoad config number) 1 1
  | 0x55 => Some (mkOperation opSstore gasSStore 2 0 None false false true false false)
  | 0x56 => jumpOp opJump (constGasFunc GasMidStep) 1 0
  | 0x57 => jumpOp opJumpi (constGasFunc GasSlowStep) 2 0
  | 0x58 => plainOp opPc (constGasFunc GasQuickStep) 0 1
  | 0x59 => plainOp opMsize (constGasFunc GasQuickStep) 0 1
  | 0x5a => plainOp opGas (constGasFunc GasQuickStep) 0 1
  | 0x5b => plainOp opJumpdest (constGasFunc JumpdestGas) 0 0
  | 0xf0 => callOp (opCreate env callee) gasCreate 3 1 memoryCreate true
  | 0xf1 => callOp (opCall callee) (gasCall config number) 7 1 memoryCall false
  | 0xf2 => callOp (opCallCode callee) (gasCallCode config number) 7 1 memoryCall false
  | 0xf3 => Some (mkOperation opReturn gasReturn 2 0 (Some memoryReturn) true false false false false)
  | 0xff => Some (mkOperation opSuicide (gasSuicide config number) 1 0 None true false true false false)
  | _ => None
  end.

Definition homesteadInstructionSet (op : Z) : option operation :=
  if op =? 0xf4
  then callOp (opDelegateCall callee) (gasDelegateCall config number) 6 1 memoryDelegateCall false
  else frontierInstructionSet op.

Definition byzantiumInstructionSet (op : Z) : option operation :=
  if op =? 0xfa then
    callOp (opStaticCall callee) (gasStaticCall config number) 6 1 memoryStaticCall false
  else if op =? 0x3d then plainOp opReturnDataSize (constGasFunc GasQuickStep) 0 1
  else if op =? 0x3e then memOp opReturnDataCopy gasReturnDataCopy 3 0 memoryReturnDataCopy
  else if op =? 0xfd then
    Some (mkOperation opRevert gasRevert 2 0 (Some memoryRevert) false false false true true)
  else homesteadInstructionSet op.

(** The choice of [NewInterpreter]. *)
Definition jumpTable (op : Z) : option operation :=
  if IsByzantium config number then byzantiumInstructionSet op
  else if IsHomestead config number then homesteadInstructionSet op
  else frontierInstructionSet op.

(** ** interpreter.go *)

Definition CALL : Z := 0xf1.

Definition enforceRestrictions (op : Z) (o : operation) : VMM unit :=
  let! e := gets vmEvm in
  if rIsByzantium (Rules config number) && eReadOnly e then
    if oWrites o then throw errWriteProtection
    else if op =? CALL then
      let! value := Back 2 in
      if BitLen value >? 0 then throw errWriteProtection else ret tt
    else ret tt
  else ret tt.

(** The memory size an operation asks for, rounded up to words. *)
Definition memorySizeOf (o : operation) : VMM Z :=
  match oMemorySize o with
  | None => ret 0
  | Some f =>
      let! size := f in
      let! memSize := lift (uint64Gas size) in
      lift (mulGas (toWordSize memSize) 32)
  end.

(** Every failure to pay is [ErrOutOfGas]. *)
Definition chargeGas (o : operation) (memorySize : Z) : VMM unit := fun v =>
  let '(r, v) := oGasCost o memorySize v in
  match r with
  | Ok cost =>
      let '(ok, c) := UseGas (vmContract v) cost in
      if ok then (Ok tt, vm_with_contract v c) else (Err ErrOutOfGas, v)
  | Err _ => (Err ErrOutOfGas, v)
  | Panic => (Panic, v)
  | NoFuel => (NoFuel, v)
  end.

Definition setReturnData (o : operation) (res : list byte) (v : VM S) : VM S :=
  if oReturns o then vm_with_evm v (evm_with_returnData (vmEvm v) res) else v.

Definition executeOp (o : operation) : VMM (list byte) := fun v =>
  let '(r, v) := oExecute o v in
  (r, setReturnData o (match r with Ok res => res | _ => [] end) v).

(** One round of the loop: [None] to go on, or what [Run] returns.  An error of the
    monad is an error that [Run] returns. *)
Definition step : VMM (option (list byte * option vmErr)) :=
  let! v := gets (fun v => v) in
  let op := GetOp (vmContract v) (vmPc v) in
  match jumpTable op with
  | None => throw (errInvalidOpcode op)
  | Some o =>
      let! _ := lift (makeStackFunc (oPop o) (oPush o) (vmStack v)) in
      let! _ := enforceRestrictions op o in
      let! memorySize := memorySizeOf o in
      let! _ := if DisableGasMetering (vmConfig env) then ret tt else chargeGas o memorySize in
      let! _ := if memorySize >? 0
                then modify (fun v => vm_with_memory v (memResize memorySize (vmMemory v)))
                else ret tt in
      let! res := executeOp o in
      if oReverts o then ret (Some (res, Some errExecutionReverted))
      else if oHalts o then ret (Some (res, None))
      else
        let! _ := if oJumps o then ret tt
                  else modify (fun v => vm_with_pc v (u64 (vmPc v + 1))) in
        ret None
  end.

End Tables.

(** ** evm.go *)

Section Calls.
(** The interpreter's loop on a machine with fresh memory and stack. *)
Context (loopF : VMM (list byte * option vmErr)).

(** [Interpreter.Run]: output and error, and the contract with the gas left. *)
Definition Run (contract : Contract) (input : list byte)
    : EVMM (list byte * option vmErr * Contract) := fun e =>
  let e := evm_with_returnData (evm_with_depth e (eDepth e + 1)) [] in
  match cCode contract with
  | [] => (Ok ([], None, contract), evm_with_depth e (eDepth e - 1))
  | _ =>
      let '(r, v) := loopF (mkVM 0 e (withInput contract input) NewMemory []) in
      let e := vmEvm v in
      (let* (out, err) := r in Ok (out, err, vmContract v), evm_with_depth e (eDepth e - 1))
  end.

Definition precompiles (addr : Address) : option PrecompiledContract :=
  if IsByzantium config number then PrecompiledContractsByzantium addr
  else PrecompiledContractsHomestead addr.

Definition run (contract : Contract) (input : list byte)
    : EVMM (list byte * option vmErr * Contract) :=
  match cCodeAddr contract with
  | Some a =>
      match precompiles a with
      | Some p =>
          let '(r, contract) := RunPrecompiledContract p input contract in
          lift (let* (out, err) := r in Ok (out, err, contract))
      | None => Run contract input
      end
  | None => Run contract input
  end.

(** [CanTransfer] and [Transfer] of core/evm.go. *)
Definition CanTransfer (s : S) (addr : Address) (amount : Z) : bool := GetBalance addr s >=? amount.
Definition Transfer (sender recipient : Address) (amount : Z) (s : S) : S :=
  AddBalance recipient amount (SubBalance sender amount s).

Definition stateOf : EVMM S := gets eState.
Definition onStateE (f : S -> S) : EVMM unit := modify (fun e => evm_with_state e (f (eState e))).

Definition takeSnapshot : EVMM Z := fun e =>
  let '(id, s) := Snapshot (eState e) in (Ok id, evm_with_state e s).
Definition revertTo (id : Z) : EVMM unit := fun e =>
  match RevertToSnapshot id (eState e) with
  | Some s => (Ok tt, evm_with_state e s)
  | None => (Panic, e)
  end.

(** The JUMPDEST cache of [NewContract]: the caller contract's, or a fresh one. *)
Definition enterContract (caller : ContractRef) : EVMM unit :=
  match caller with
  | AccountRef _ => modify (fun e => evm_with_jumpdests e ∅)
  | ContractCaller _ => ret tt
  end.

(** After the run: an error reverts the state, and all but a revert consumes the
    gas that is left. *)
Definition settle (snapshot : Z) (r : list byte * option vmErr * Contract) : EVMM callResult :=
  let '(out, err, contract) := r in
  match err with
  | None => ret (out, cGas contract, None)
  | Some e =>
      let! _ := revertTo snapshot in
      ret (out, if bool_decide (e = errExecutionReverted) then cGas contract else 0, Some e)
  end.

Definition Call (caller : ContractRef) (addr : Address) (input : list byte) (gas value : Z)
    : EVMM callResult :=
  let! e := gets (fun e => e) in
  if NoRecursion (vmConfig env) && (eDepth e >? 0) then ret ([], gas, None)
  else if eDepth e >? CallCreateDepth then ret ([], gas, Some ErrDepth)
  else if negb (CanTransfer (eState e) (refAddress caller) value)
  then ret ([], gas, Some ErrInsufficientBalance)
  else
    let! snapshot := takeSnapshot in
    let! s := stateOf in
    if negb (Exist addr s) && bool_decide (precompiles addr = None)
       && IsEIP158 config number && (value =? 0)
    then ret ([], gas, None)
    else
      let! _ := if negb (Exist addr s) then onStateE (CreateAccount addr) else ret tt in
      let! _ := onStateE (Transfer (refAddress caller) addr value) in
      let! _ := enterContract caller in
      let! s := stateOf in
      let contract := SetCallCode (NewContract caller addr value gas) addr
                        (GetCodeHash addr s) (GetCode addr s) in
      let! r := run contract input in
      settle snapshot r.

Definition CallCode (caller : ContractRef) (addr : Address) (input : list byte) (gas value : Z)
    : EVMM callResult :=
  let! e := gets (fun e => e) in
  if NoRecursion (vmConfig env) && (eDepth e >? 0) then ret ([], gas, None)
  else if eDepth e >? CallCreateDepth then ret ([], gas, Some ErrDepth)
  else if negb (CanTransfer (eState e) (refAddress caller) value)
  then ret ([], gas, Some ErrInsufficientBalance)
  else
    let! snapshot := takeSnapshot in
    let! _ := enterContract caller in
    let! s := stateOf in
    let contract := SetCallCode (NewContract caller (refAddress caller) value gas) addr
                      (GetCodeHash addr s) (GetCode addr s) in
    let! r := run contract input in
    settle snapshot r.

(** The type assertion on the caller panics for an account. *)
Definition DelegateCall (caller : ContractRef) (addr : Address) (input : list byte) (gas : Z)
    : EVMM callResult :=
  let! e := gets (fun e => e) in
  if NoRecursion (vmConfig env) && (eDepth e >? 0) then ret ([], gas, None)
  else if eDepth e >? CallCreateDepth then ret ([], gas, Some ErrDepth)
  else
    let! snapshot := takeSnapshot in
    match caller with
    | AccountRef _ => panic
    | ContractCaller parent =>
        let! s := stateOf in
        let contract := SetCallCode (AsDelegate parent (NewContract caller (cSelf parent) 0 gas)) addr
                          (GetCodeHash addr s) (GetCode addr s) in
        let! r := run contract input in
        settle snapshot r
    end.

Definition setReadOnly (b : bool) : EVMM unit := modify (fun e => evm_with_readOnly e b).

Definition StaticCall (caller : ContractRef) (addr : Address) (input : list byte) (gas : Z)
    : EVMM callResult :=
  let! e := gets (fun e => e) in
  if NoRecursion (vmConfig env) && (eDepth e >? 0) then ret ([], gas, None)
  else if eDepth e >? CallCreateDepth then ret ([], gas, Some ErrDepth)
  else
    let! _ := setReadOnly true in
    let! snapshot := takeSnapshot in
    let! _ := enterContract caller in
    let! s := stateOf in
    let contract := SetCallCode (NewContract caller addr 0 gas) addr
                      (GetCodeHash addr s) (GetCode addr s) in
    let! r := run contract input in
    let! res := settle snapshot r in
    let! _ := setReadOnly (eReadOnly e) in
    ret res.

(** [crypto.CreateAddress] (src/crypto/crypto.go) *)
Definition CreateAddress (b : Address) (nonce : Z) : Address :=
  BytesToAddress (drop 12 (HashBytes (rlpHash (RList [rAddress b; RUint nonce])))).

Definition emptyCodeHash : Hash := Keccak256 [].

(** The end of [Create]: pay for the code and store it, or undo. *)
Definition deploy (contractAddr : Address) (snapshot : Z) (r : list byte * option vmErr * Contract)
    : EVMM createResult :=
  let '(out, err, contract) := r in
  let maxCodeSizeExceeded :=
    IsEIP158 config number && (Z.of_nat (length out) >? MaxCodeSize) in
  let! (err, contract) :=
    if bool_decide (err = None) && negb maxCodeSizeExceeded then
      let createDataGas := u64 (Z.of_nat (length out) * CreateDataGas) in
      let '(ok, contract) := UseGas contract createDataGas in
      if ok then let! _ := onStateE (SetCode contractAddr out) in ret (err, contract)
      else ret (Some ErrCodeStoreOutOfGas, contract)
    else ret (err, contract) in
  let! contract :=
    if maxCodeSizeExceeded
       || (negb (bool_decide (err = None))
           && (IsHomestead config number || negb (bool_decide (err = Some ErrCodeStoreOutOfGas))))
    then
      let! _ := revertTo snapshot in
      ret (if bool_decide (err = Some errExecutionReverted) then contract else withGas contract 0)
    else ret contract in
  let err := if maxCodeSizeExceeded && bool_decide (err = None) then Some errMaxCodeSizeExceeded
             else err in
  ret (out, contractAddr, cGas contract, err).

Definition Create (caller : ContractRef) (code : list byte) (gas value : Z) : EVMM createResult :=
  let! e := gets (fun e => e) in
  if eDepth e >? CallCreateDepth then ret ([], 0, gas, Some ErrDepth)
  else if negb (CanTransfer (eState e) (refAddress caller) value)
  then ret ([], 0, gas, Some ErrInsufficientBalance)
  else
    let nonce := GetNonce (refAddress caller) (eState e) in
    let! _ := onStateE (SetNonce (refAddress caller) (u64 (nonce + 1))) in
    let contractAddr := CreateAddress (refAddress caller) nonce in
    let! s := stateOf in
    let contractHash := GetCodeHash contractAddr s in
    if negb (GetNonce contractAddr s =? 0)
       || (negb (contractHash =? 0) && negb (contractHash =? emptyCodeHash))
    then ret ([], 0, 0, Some ErrContractAddressCollision)
    else
      let! snapshot := takeSnapshot in
      let! _ := onStateE (CreateAccount contractAddr) in
      let! _ := if IsEIP158 config number then onStateE (SetNonce contractAddr 1) else ret tt in
      let! _ := onStateE (Transfer (refAddress caller) contractAddr value) in
      let! _ := enterContract caller in
      let contract := SetCallCode (NewContract caller contractAddr value gas) contractAddr
                        (Keccak256 code) code in
      if NoRecursion (vmConfig env) && (eDepth e >? 0) then ret ([], contractAddr, gas, None)
      else
        let! r := run contract [] in
        deploy contractAddr snapshot r.

Definition calleeOf : Callee S :=
  mkCallee (fun c => Call (ContractCaller c)) (fun c => CallCode (ContractCaller c))
    (fun c => DelegateCall (ContractCaller c)) (fun c => StaticCall (ContractCaller c))
    (fun c => Create (ContractCaller c)).

End Calls.

(** ** The loop *)

Fixpoint loop (fuel : nat) : VMM (list byte * option vmErr) := fun v =>
  match fuel with
  | O => (NoFuel, v)
  | Datatypes.S fuel =>
      let '(r, v) := step (calleeOf (loop fuel)) v in
      match r with
      | Ok None => loop fuel v
      | Ok (Some x) => (Ok x, v)
      | Err e => (Ok ([], Some e), v)
      | Panic => (Panic, v)
      | NoFuel => (NoFuel, v)
      end
  end.

(** [NewEVM] *)
Definition NewEVM (s : S) : EVM S := mkEVM s 0 0 false [] ∅.

End Interp.
