(* ===== verification/Transactions.v ===== *)
(** * Package core/types: transactions and their signatures

    Transactions (src/core/types/transaction.go) and the signers that recover their
    senders (transaction_signing.go).  The cache of the sender is part of a
    transaction, as its field [from] is in the source; the caches of hash and size
    hold what the functions compute and are left out. *)

From stdpp Require Import base numbers list option.
From Stdlib Require Import ZArith Lia Strings.Byte.
From S2P Require Import Prelude Rlp RlpStream Common Params Types VmCore VmPrecompiled.

Inductive txErr :=
| ErrInvalidSig
| ErrInvalidChainId
| errInvalidPublicKey
| errRecovery
| ErrNonceTooHigh
| ErrNonceTooLow
| ErrGasLimitReached
| errInsufficientBalanceForGas
| errVM (e : vmErr).

Record txdata := mkTxdata {
  tdNonce : Z;
  tdPrice : Z;
  tdGasLimit : Z;
  (** [None] means contract creation. *)
  tdRecipient : option Address;
  tdAmount : Z;
  tdPayload : list byte;
  tdV : Z;
  tdR : Z;
  tdS : Z
}.

(** ** Signers *)

Inductive Signer :=
| FrontierSigner
| HomesteadSigner
| EIP155Signer (chainId : Z).

Definition NewEIP155Signer (chainId : option Z) : Signer := EIP155Signer (default 0 chainId).

Definition MakeSigner (config : ChainConfig) (blockNumber : option Z) : Signer :=
  if IsEIP155 config blockNumber then NewEIP155Signer (ChainId config)
  else if IsHomestead config blockNumber then HomesteadSigner
  else FrontierSigner.

Definition signerEqual (s s2 : Signer) : bool :=
  match s, s2 with
  | EIP155Signer c, EIP155Signer c2 => c2 =? c
  | HomesteadSigner, HomesteadSigner | FrontierSigner, FrontierSigner => true
  | _, _ => false
  end.

Record Transaction := mkTransaction {
  txData : txdata;
  (** [sigCache]: the signer and the sender it derived. *)
  txFrom : option (Signer * Address)
}.

(** ** Encoding *)

(** A nil pointer to an array of bytes is written as an empty string. *)
Definition rRecipient (to : option Address) : rlpValue :=
  match to with Some a => rAddress a | None => RNil (RBytes []) end.

Definition txRLP (d : txdata) : rlpValue :=
  RList [RUint (tdNonce d); RBig (Some (tdPrice d)); RUint (tdGasLimit d); rRecipient (tdRecipient d);
         RBig (Some (tdAmount d)); RBytes (tdPayload d); RBig (Some (tdV d)); RBig (Some (tdR d)); RBig (Some (tdS d))].
Definition txType : goType :=
  TStruct [TUint 64; TBig; TUint 64; TOptional (TByteArray 20); TBig; TBytes; TBig; TBig; TBig].

(** [DecodeRLP] *)
Definition txOf (v : rlpValue) : option Transaction :=
  match v with
  | RList [RUint nonce; RBig (Some price); RUint gasLimit; to; RBig (Some amount); RBytes payload;
           RBig (Some v); RBig (Some r); RBig (Some s)] =>
      recipient ← match to with RNil _ => Some None | RBytes a => Some (Some (BytesToAddress a)) | _ => None end;
      Some (mkTransaction (mkTxdata nonce price gasLimit recipient amount payload v r s) None)
  | _ => None
  end.
Definition decodeTx (b : list byte) : option Transaction :=
  match DecodeBytes b txType with Ok v => txOf v | _ => None end.

(** [newTransaction]: nil amounts and prices are zero. *)
Definition newTransaction (nonce : Z) (to : option Address) (amount : option Z) (gasLimit : Z) (gasPrice : option Z)
    (data : list byte) : Transaction :=
  mkTransaction (mkTxdata nonce (default 0 gasPrice) gasLimit to (default 0 amount) data 0 0 0) None.
Definition NewTransaction (nonce : Z) (to : Address) (amount : option Z) (gasLimit : Z) (gasPrice : option Z)
    (data : list byte) : Transaction :=
  newTransaction nonce (Some to) amount gasLimit gasPrice data.
Definition NewContractCreation (nonce : Z) (amount : option Z) (gasLimit : Z) (gasPrice : option Z)
    (data : list byte) : Transaction :=
  newTransaction nonce None amount gasLimit gasPrice data.

Definition Cost (tx : Transaction) : Z := tdPrice (txData tx) * tdGasLimit (txData tx) + tdAmount (txData tx).

(** ** Replay protection *)

Definition isProtectedV (V : Z) : bool :=
  if BitLen V <=? 8 then let v := bigUint64 V in negb (v =? 27) && negb (v =? 28) else true.
Definition Protected (tx : Transaction) : bool := isProtectedV (tdV (txData tx)).

(** The subtraction is that of uint64 for small values; [Div] of big.Int is Euclidean. *)
Definition deriveChainId (v : Z) : Z :=
  if BitLen v <=? 64 then
    let v := bigUint64 v in
    if (v =? 27) || (v =? 28) then 0 else u64 (v - 35) / 2
  else (v - 35) / 2.
Definition txChainId (tx : Transaction) : Z := deriveChainId (tdV (txData tx)).

Section Signing.
Context {CR : Crypto}.

Definition txHash (tx : Transaction) : Hash := rlpHash (txRLP (txData tx)).

(** The hash that is signed. *)
Definition signerHash (s : Signer) (tx : Transaction) : Hash :=
  let d := txData tx in
  let fields := [RUint (tdNonce d); RBig (Some (tdPrice d)); RUint (tdGasLimit d); rRecipient (tdRecipient d);
                 RBig (Some (tdAmount d)); RBytes (tdPayload d)] in
  match s with
  | FrontierSigner | HomesteadSigner => rlpHash (RList fields)
  | EIP155Signer chainId => rlpHash (RList (fields ++ [RBig (Some chainId); RUint 0; RUint 0]))
  end.

(** [copy(sig[end-len(b):end], b)] into zeros panics when [b] is too long. *)
Definition leftPad32 (b : list byte) : option (list byte) :=
  if (length b <=? 32)%nat then Some (replicate (32 - length b) x00 ++ b) else None.

Definition recoverPlain (sighash : Hash) (R S Vb : Z) (homestead : bool) : result txErr Address :=
  if BitLen Vb >? 8 then Err ErrInvalidSig
  else
    let V := byte_of_Z (u64 (bigUint64 Vb - 27)) in
    if negb (ValidateSignatureValues (byte_to_Z V) R S homestead) then Err ErrInvalidSig
    else
      match leftPad32 (big_bytes R), leftPad32 (big_bytes S) with
      | Some r, Some s =>
          match Ecrecover (HashBytes sighash) (r ++ s ++ [V]) with
          | None => Err errRecovery
          | Some [] => Err errInvalidPublicKey
          | Some (b :: pub) =>
              if negb (byte_to_Z b =? 4) then Err errInvalidPublicKey
              else Ok (be_value (take 20 (drop 12 (HashBytes (Keccak256 pub)))))
          end
      | _, _ => Panic
      end.

(** [signer.Sender(tx)] *)
Definition senderOf (s : Signer) (tx : Transaction) : result txErr Address :=
  let d := txData tx in
  let homestead := recoverPlain (signerHash HomesteadSigner tx) (tdR d) (tdS d) (tdV d) true in
  match s with
  | FrontierSigner => recoverPlain (signerHash FrontierSigner tx) (tdR d) (tdS d) (tdV d) false
  | HomesteadSigner => homestead
  | EIP155Signer chainId =>
      if negb (Protected tx) then homestead
      else if negb (txChainId tx =? chainId) then Err ErrInvalidChainId
      else recoverPlain (signerHash s tx) (tdR d) (tdS d) (tdV d - chainId * 2 - 8) true
  end.

(** [Sender], with the cache after it. *)
Definition Sender (signer : Signer) (tx : Transaction) : result txErr Address * Transaction :=
  let derive :=
    match senderOf signer tx with
    | Ok addr => (Ok addr, mkTransaction (txData tx) (Some (signer, addr)))
    | r => (r, tx)
    end in
  match txFrom tx with
  | Some (s, from) => if signerEqual s signer then (Ok from, tx) else derive
  | None => derive
  end.

(** [SignatureValues]: R, S and V from a signature of 65 bytes. *)
Definition SignatureValues (s : Signer) (sig : list byte) : result txErr (Z * Z * Z) :=
  if negb (length sig =? 65)%nat then Panic
  else
    let v := match sig !! 64%nat with Some b => byte_to_Z b | None => 0 end in
    let plain := byte_to_Z (byte_of_Z (v + 27)) in
    let V := match s with
             | FrontierSigner | HomesteadSigner => plain
             | EIP155Signer chainId =>
                 if negb (chainId =? 0) then byte_to_Z (byte_of_Z (v + 35)) + chainId * 2 else plain
             end in
    Ok (be_value (take 32 sig), be_value (take 32 (drop 32 sig)), V).

Definition WithSignature (signer : Signer) (sig : list byte) (tx : Transaction) : result txErr Transaction :=
  let* (r, s, v) := SignatureValues signer sig in
  let d := txData tx in
  Ok (mkTransaction (mkTxdata (tdNonce d) (tdPrice d) (tdGasLimit d) (tdRecipient d) (tdAmount d) (tdPayload d) v r s)
        None).

(** [SignTx] with the function that signs a hash. *)
Definition SignTx (sign : list byte -> option (list byte)) (s : Signer) (tx : Transaction) : result txErr Transaction :=
  match sign (HashBytes (signerHash s tx)) with
  | None => Err errRecovery
  | Some sig => WithSignature s sig tx
  end.

End Signing.

(** ** Messages *)

Record Message := mkMessage {
  msgTo : option Address;
  msgFrom : Address;
  msgNonce : Z;
  msgAmount : Z;
  msgGasLimit : Z;
  msgGasPrice : Z;
  msgData : list byte;
  msgCheckNonce : bool
}.

Definition AsMessage {CR : Crypto} (s : Signer) (tx : Transaction) : result txErr Message * Transaction :=
  let '(r, tx) := Sender s tx in
  let d := txData tx in
  (let* from := r in
   Ok (mkMessage (tdRecipient d) from (tdNonce d) (tdAmount d) (tdGasLimit d) (tdPrice d) (tdPayload d) true), tx).
