(* ===== verification/Transition.v ===== *)
(** * Package core: applying a message to the state

    The gas pool of a block (src/core/gaspool.go) and the state transition
    (src/core/state_transition.go): buy gas, run the message, refund, pay the fee. *)

From stdpp Require Import base numbers list option.
From Stdlib Require Import ZArith Lia Strings.Byte.
From S2P Require Import Prelude Common Params Types VmCore VmGas VmOps VmPrecompiled VmInterp Transactions.

(** ** gaspool.go *)

(** Adding panics when the pool overflows, here [None]. *)
Definition AddGas (amount gp : Z) : option Z :=
  if gp >? MaxUint64 - amount then None else Some (u64 (gp + amount)).
Definition SubGas (amount gp : Z) : result txErr Z :=
  if gp <? amount then Err ErrGasLimitReached else Ok (gp - amount).

(** ** state_transition.go *)

Definition nonZeroBytes (data : list byte) : Z :=
  Z.of_nat (length (filter (fun b => byte_to_Z b <> 0) data)).

Definition IntrinsicGas (data : list byte) (contractCreation homestead : bool) : result txErr Z :=
  let gas := if contractCreation && homestead then TxGasContractCreation else TxGas in
  match data with
  | [] => Ok gas
  | _ =>
      let nz := nonZeroBytes data in
      if (MaxUint64 - gas) / TxDataNonZeroGas <? nz then Err (errVM ErrOutOfGas)
      else
        let gas := u64 (gas + u64 (nz * TxDataNonZeroGas)) in
        let z := u64 (Z.of_nat (length data) - nz) in
        if (MaxUint64 - gas) / TxDataZeroGas <? z then Err (errVM ErrOutOfGas)
        else Ok (u64 (gas + u64 (z * TxDataZeroGas)))
  end.

(** The pool and the EVM are shared with the caller; the rest is the transition's own. *)
Record StateTransition (S : Type) := mkTransition {
  stGp : Z;
  stGas : Z;
  stInitialGas : Z;
  stEvm : EVM S
}.
Arguments mkTransition {S}.
Arguments stGp {S}.
Arguments stGas {S}.
Arguments stInitialGas {S}.
Arguments stEvm {S}.

Section Transition.
Context {CR : Crypto} {NC : NativeCrypto} {S : Type} {SDB : StateDB S} (env : Env) (msg : Message).
Notation TM := (M (StateTransition S) txErr).

Definition NewStateTransition (e : EVM S) (gp : Z) : StateTransition S := mkTransition gp 0 0 e.

Definition st_with_gas (g : Z) (st : StateTransition S) : StateTransition S :=
  mkTransition (stGp st) g (stInitialGas st) (stEvm st).
Definition st_with_evm (e : EVM S) (st : StateTransition S) : StateTransition S :=
  mkTransition (stGp st) (stGas st) (stInitialGas st) e.
Definition st_with_gp (gp : Z) (st : StateTransition S) : StateTransition S :=
  mkTransition gp (stGas st) (stInitialGas st) (stEvm st).
Definition stState (st : StateTransition S) : S := eState (stEvm st).
Definition stUpdate (f : S -> S) : TM unit :=
  modify (fun st => st_with_evm (evm_with_state (stEvm st) (f (stState st))) st).

(** A call of the EVM on the transition's state; its errors are values. *)
Definition runEvm {A} (m : M (EVM S) vmErr A) : TM A := fun st =>
  let '(r, e) := m (stEvm st) in
  (match r with Ok a => Ok a | Err x => Err (errVM x) | Panic => Panic | NoFuel => NoFuel end, st_with_evm e st).

Definition useGas (amount : Z) : TM unit := fun st =>
  if stGas st <? amount then (Err (errVM ErrOutOfGas), st) else (Ok tt, st_with_gas (stGas st - amount) st).

Definition buyGas : TM unit := fun st =>
  let mgval := msgGasLimit msg * msgGasPrice msg in
  if GetBalance (msgFrom msg) (stState st) <? mgval then (Err errInsufficientBalanceForGas, st)
  else
    match SubGas (msgGasLimit msg) (stGp st) with
    | Ok gp =>
        let s := SubBalance (msgFrom msg) mgval (stState st) in
        (Ok tt, mkTransition gp (u64 (stGas st + msgGasLimit msg)) (msgGasLimit msg) (evm_with_state (stEvm st) s))
    | Err e => (Err e, st)
    | Panic => (Panic, st)
    | NoFuel => (NoFuel, st)
    end.

Definition preCheck : TM unit :=
  let! _ := (if msgCheckNonce msg then
               let! st := gets (fun st => st) in
               let nonce := GetNonce (msgFrom msg) (stState st) in
               if nonce <? msgNonce msg then throw ErrNonceTooHigh
               else if nonce >? msgNonce msg then throw ErrNonceTooLow
               else ret tt
             else ret tt) in
  buyGas.

Definition gasUsed (st : StateTransition S) : Z := u64 (stInitialGas st - stGas st).

Definition refundGas : TM unit := fun st =>
  let refund := gasUsed st / 2 in
  let refund := if refund >? GetRefund (stState st) then GetRefund (stState st) else refund in
  let gas := u64 (stGas st + refund) in
  let s := AddBalance (msgFrom msg) (gas * msgGasPrice msg) (stState st) in
  let st := st_with_evm (evm_with_state (stEvm st) s) (st_with_gas gas st) in
  match AddGas gas (stGp st) with
  | Some gp => (Ok tt, st_with_gp gp st)
  | None => (Panic, st)
  end.

(** The call or the creation, on the interpreter's loop: output, gas left and error. *)
Definition execute (loopF : M (VM S) vmErr (list byte * option vmErr)) : TM (list byte * Z * option vmErr) :=
  let! st := gets (fun st => st) in
  let sender := AccountRef (msgFrom msg) in
  match msgTo msg with
  | None =>
      let! r := runEvm (Create env loopF sender (msgData msg) (stGas st) (msgAmount msg)) in
      let '(out, _, gas, vmerr) := r in ret (out, gas, vmerr)
  | Some to =>
      let! _ := stUpdate (fun s => SetNonce (msgFrom msg) (u64 (GetNonce (msgFrom msg) s + 1)) s) in
      runEvm (Call env loopF sender to (msgData msg) (stGas st) (msgAmount msg))
  end.

(** [TransitionDb]: output, gas used, and whether the execution failed. *)
Definition TransitionDb (loopF : M (VM S) vmErr (list byte * option vmErr)) : TM (list byte * Z * bool) :=
  let! _ := preCheck in
  let homestead := IsHomestead (chainConfig env) (envNumber env) in
  let contractCreation := bool_decide (msgTo msg = None) in
  let! gas := lift (IntrinsicGas (msgData msg) contractCreation homestead) in
  let! _ := useGas gas in
  let! (out, gasLeft, vmerr) := execute loopF in
  let! _ := modify (st_with_gas gasLeft) in
  if bool_decide (vmerr = Some ErrInsufficientBalance) then throw (errVM ErrInsufficientBalance)
  else
    let! _ := refundGas in
    let! st := gets (fun st => st) in
    let! _ := stUpdate (AddBalance (Coinbase (ctx env)) (gasUsed st * msgGasPrice msg)) in
    ret (out, gasUsed st, negb (bool_decide (vmerr = None))).

(** [ApplyMessage] on an EVM and a gas pool. *)
Definition ApplyMessage (loopF : M (VM S) vmErr (list byte * option vmErr)) (e : EVM S) (gp : Z)
    : result txErr (list byte * Z * bool) * StateTransition S :=
  TransitionDb loopF (NewStateTransition e gp).

End Transition.
