(* ===== verification/VmArithmetic.v ===== *)
(** * Package core/vm: what the arithmetic instructions compute

    The semantics of the arithmetic, comparison and bit instructions as functions
    on 256-bit words, in two's complement where they are signed, and the proof that
    the implementations of [VmOps] compute them. *)

From stdpp Require Import base numbers list gmap sets option.
From Stdlib Require Import ZArith Lia Strings.Byte.
From S2P Require Import Prelude Common Params Types VmCore VmGas VmOps VmPrecompiled VmInterp.

(** ** Reference semantics *)

Definition is_word (x : Z) : Prop := 0 <= x < 2 ^ 256.

(** A word as a signed number, and back. *)
Definition signed (x : Z) : Z := if x <? 2 ^ 255 then x else x - 2 ^ 256.
Definition toWord (x : Z) : Z := x mod 2 ^ 256.

(** The low [n] bits of a number, read in two's complement. *)
Definition lowSigned (n x : Z) : Z :=
  let r := x mod 2 ^ n in if r <? 2 ^ (n - 1) then r else r - 2 ^ n.

Definition wordSem (op : Z) (args : list Z) : option Z :=
  match op, args with
  | 0x01, [x; y] => Some ((x + y) mod 2 ^ 256)
  | 0x02, [x; y] => Some ((x * y) mod 2 ^ 256)
  | 0x03, [x; y] => Some ((x - y) mod 2 ^ 256)
  | 0x04, [x; y] => Some (if y =? 0 then 0 else x / y)
  | 0x05, [x; y] => Some (if y =? 0 then 0 else toWord (Z.quot (signed x) (signed y)))
  | 0x06, [x; y] => Some (if y =? 0 then 0 else x mod y)
  | 0x07, [x; y] => Some (if y =? 0 then 0 else toWord (Z.rem (signed x) (signed y)))
  | 0x08, [x; y; z] => Some (if z =? 0 then 0 else (x + y) mod z)
  | 0x09, [x; y; z] => Some (if z =? 0 then 0 else (x * y) mod z)
  | 0x0a, [x; y] => Some (x ^ y mod 2 ^ 256)
  | 0x0b, [k; x] => Some (if k <? 31 then toWord (lowSigned (8 * (k + 1)) x) else x)
  | 0x10, [x; y] => Some (flag (x <? y))
  | 0x11, [x; y] => Some (flag (y <? x))
  | 0x12, [x; y] => Some (flag (signed x <? signed y))
  | 0x13, [x; y] => Some (flag (signed y <? signed x))
  | 0x14, [x; y] => Some (flag (x =? y))
  | 0x15, [x] => Some (flag (x =? 0))
  | 0x16, [x; y] => Some (Z.land x y)
  | 0x17, [x; y] => Some (Z.lor x y)
  | 0x18, [x; y] => Some (Z.lxor x y)
  | 0x19, [x] => Some (2 ^ 256 - 1 - x)
  | 0x1a, [i; x] => Some (if i <? 32 then x / 256 ^ (31 - i) mod 256 else 0)
  | _, _ => None
  end.

(** ** Words *)

Lemma is_word_mod x : is_word (x mod 2 ^ 256).
Proof. unfold is_word. apply Z.mod_pos_bound. lia. Qed.

Lemma is_word_flag b : is_word (flag b).
Proof. unfold is_word. by destruct b. Qed.

Lemma S256_signed x : S256 x = signed x.
Proof. done. Qed.

Lemma signed_zero y : is_word y -> (signed y =? 0) = (y =? 0).
Proof.
  unfold is_word, signed. intros Hy. destruct (Z.ltb_spec y (2 ^ 255)); [done|].
  destruct (Z.eqb_spec y 0), (Z.eqb_spec (y - 2 ^ 256) 0); lia || done.
Qed.

(** Division of magnitudes with the sign of the product. *)
Lemma quot_abs x y : y <> 0 ->
  Z.abs x / Z.abs y * (if x * y <? 0 then -1 else 1) = Z.quot x y.
Proof.
  intros Hy. rewrite Z.quot_div by done. pose proof (Z.sgn_spec x). pose proof (Z.sgn_spec y).
  destruct (Z.ltb_spec (x * y) 0) as [H1|H1].
  - assert (Z.sgn x * Z.sgn y = -1) as -> by (rewrite <- Z.sgn_mul; lia). lia.
  - destruct (Z.eq_dec x 0) as [->|Hx]; [rewrite Z.div_0_l by lia; lia|].
    assert (Z.sgn x * Z.sgn y = 1) as -> by (rewrite <- Z.sgn_mul; apply Z.sgn_pos; nia). lia.
Qed.

Lemma rem_abs x y : y <> 0 ->
  Z.abs x mod Z.abs y * (if x <? 0 then -1 else 1) = Z.rem x y.
Proof.
  intros Hy. rewrite Z.rem_mod by done. destruct (Z.ltb_spec x 0).
  - rewrite Z.sgn_neg by lia. lia.
  - destruct (Z.eq_dec x 0) as [->|]; [by rewrite Z.mod_0_l by lia|]. rewrite Z.sgn_pos by lia. lia.
Qed.

Lemma lowSigned_bit n x : 0 <= n ->
  lowSigned (n + 1) x = x mod 2 ^ n - (if Z.testbit x n then 2 ^ n else 0).
Proof.
  intros Hn. unfold lowSigned. cbv zeta. rewrite Z.pow_add_r by lia. change (2 ^ 1) with 2.
  replace (n + 1 - 1) with n by lia.
  assert (Hp : 0 < 2 ^ n) by (apply Z.pow_pos_nonneg; lia).
  rewrite Z.rem_mul_r by lia.
  pose proof (Z.mod_pos_bound x (2 ^ n) Hp). pose proof (Z.mod_pos_bound (x / 2 ^ n) 2 ltac:(lia)).
  assert (Hb : (x / 2 ^ n) mod 2 = if Z.testbit x n then 1 else 0).
  { rewrite <- Z.testbit_spec' by done. by destruct (Z.testbit x n). }
  rewrite Hb. destruct (Z.testbit x n).
  - destruct (Z.ltb_spec (x mod 2 ^ n + 2 ^ n * 1) (2 ^ n)); lia.
  - destruct (Z.ltb_spec (x mod 2 ^ n + 2 ^ n * 0) (2 ^ n)); lia.
Qed.

(** The two masks of SIGNEXTEND. *)
Lemma signExtend_masks n x : 0 <= n ->
  (if Z.testbit x n then Z.lor x (Z.lnot (Z.shiftl 1 n - 1)) else Z.land x (Z.shiftl 1 n - 1)) =
  lowSigned (n + 1) x.
Proof.
  intros Hn. rewrite lowSigned_bit by done. rewrite Z.shiftl_1_l.
  assert (Hones : 2 ^ n - 1 = Z.ones n) by (rewrite Z.ones_equiv; lia). rewrite Hones.
  destruct (Z.testbit x n); [|rewrite Z.land_ones by done; lia].
  replace (Z.lor x (Z.lnot (Z.ones n))) with (Z.lnot (Z.land (Z.lnot x) (Z.ones n)))
    by (by rewrite Z.lnot_land, Z.lnot_involutive).
  rewrite Z.land_ones by done. unfold Z.lnot.
  assert (Hp : 0 < 2 ^ n) by (apply Z.pow_pos_nonneg; lia).
  assert (Hm : Z.pred (- x) mod 2 ^ n = 2 ^ n - 1 - x mod 2 ^ n).
  { symmetry. apply (Z.mod_unique_pos _ _ (- (x / 2 ^ n) - 1)).
    - pose proof (Z.mod_pos_bound x (2 ^ n) Hp). lia.
    - pose proof (Z.div_mod x (2 ^ n)). lia. }
  lia.
Qed.

Lemma words_lookup n z i : (i < n)%nat -> words n z !! i = Some (z / 2 ^ (64 * Z.of_nat i) mod 2 ^ 64).
Proof.
  revert z i. induction n as [|n IH]; intros z i Hi; [lia|]. destruct i as [|i]; cbn [words lookup list_lookup].
  - by rewrite Z.mul_0_r, Z.pow_0_r, Z.div_1_r.
  - rewrite IH by lia. rewrite Z.div_div by (try apply Z.pow_pos_nonneg; unfold wordBits; lia).
    unfold wordBits. rewrite <- Z.pow_add_r by lia. do 4 f_equal. lia.
Qed.

Lemma length_words n z : length (words n z) = n.
Proof. revert z. induction n; intros; cbn; auto. Qed.

Lemma bigEndianByteAt_value z n : 0 <= z -> 0 <= n ->
  byte_to_Z (bigEndianByteAt z n) = z / 256 ^ n mod 256.
Proof.
  intros Hz Hn. unfold bigEndianByteAt, wordBytes. destruct (Bits_words z) as (k & Hk & Hb & _).
  rewrite Z.abs_eq in * by done. rewrite Hk, length_words. rewrite Z.geb_leb.
  assert (Hi : 0 <= n / 8) by (apply Z.div_pos; lia).
  assert (Hr : 0 <= n mod 8 < 8) by (apply Z.mod_pos_bound; lia).
  assert (E256 : 256 ^ n = 2 ^ (64 * (n / 8)) * 2 ^ (8 * (n mod 8))).
  { rewrite <- Z.pow_add_r by lia. change 256 with (2 ^ 8). rewrite <- Z.pow_mul_r by lia. f_equal.
    pose proof (Z.div_mod n 8). lia. }
  rewrite E256, <- Z.div_div by (try apply Z.pow_pos_nonneg; try apply Z.pow_nonzero; lia).
  destruct (Z.leb_spec (Z.of_nat k) (n / 8)) as [Hle|Hlt].
  - rewrite (Z.div_small z); [by rewrite Z.div_0_l by (apply Z.pow_nonzero; lia)|].
    split; [done|]. eapply Z.lt_le_trans; [exact Hb|]. apply Z.pow_le_mono_r; lia.
  - rewrite words_lookup by lia. rewrite Z2Nat.id by lia. rewrite byte_to_of_Z, Z.shiftr_div_pow2 by lia.
    set (w := z / 2 ^ (64 * (n / 8))). change 256 with (2 ^ 8) at 1 2.
    apply Z.bits_inj'. intros j Hj. destruct (Z.ltb_spec j 8).
    + rewrite !Z.mod_pow2_bits_low, <- !Z.shiftr_div_pow2, !Z.shiftr_spec by lia.
      rewrite Z.mod_pow2_bits_low by lia. done.
    + by rewrite !Z.mod_pow2_bits_high by lia.
Qed.

Lemma Byte_value x i : is_word x -> 0 <= i < 32 ->
  byte_to_Z (Byte x 32 i) = x / 256 ^ (31 - i) mod 256.
Proof.
  intros Hx Hi. unfold Byte. rewrite Z.geb_leb. destruct (Z.leb_spec 32 i); [lia|].
  rewrite bigEndianByteAt_value; [done|apply Hx|lia].
Qed.

Lemma is_word_bits x : 0 <= x -> (forall i, 256 <= i -> Z.testbit x i = false) -> is_word x.
Proof.
  intros Hx H. replace x with (x mod 2 ^ 256); [apply is_word_mod|]. apply Z.bits_inj'. intros i Hi.
  destruct (Z.ltb_spec i 256); [by rewrite Z.mod_pow2_bits_low|].
  rewrite Z.mod_pow2_bits_high by lia. by rewrite H.
Qed.

Lemma word_bit_high x i : is_word x -> 256 <= i -> Z.testbit x i = false.
Proof.
  intros Hx Hi. replace x with (x mod 2 ^ 256) by (by apply Z.mod_small).
  apply Z.mod_pow2_bits_high. lia.
Qed.

Lemma is_word_bitops x y : is_word x -> is_word y ->
  is_word (Z.land x y) /\ is_word (Z.lor x y) /\ is_word (Z.lxor x y).
Proof.
  intros Hx Hy. assert (0 <= x /\ 0 <= y) as [Hx0 Hy0] by (split; [apply Hx|apply Hy]).
  split_and!; apply is_word_bits; intros;
    rewrite ?Z.land_nonneg, ?Z.lor_nonneg, ?Z.lxor_nonneg, ?Z.land_spec, ?Z.lor_spec, ?Z.lxor_spec,
      ?(word_bit_high x), ?(word_bit_high y) by done; try done; auto; tauto.
Qed.

Lemma is_word_small r y : is_word y -> 0 <= r < y \/ r = 0 -> is_word r.
Proof. unfold is_word. lia. Qed.

Lemma U256_small x : is_word x -> U256 x = x.
Proof. intros Hx. rewrite U256_mod. by apply Z.mod_small. Qed.

Lemma U256_lnot x : is_word x -> U256 (Z.lnot x) = 2 ^ 256 - 1 - x.
Proof.
  intros Hx. rewrite U256_mod. unfold Z.lnot, is_word in *. symmetry.
  apply (Z.mod_unique_pos _ _ (-1)); lia.
Qed.

Lemma bigInt64_small x : 0 <= x < 2 ^ 63 -> bigInt64 x = x.
Proof.
  intros Hx. unfold bigInt64, bigUint64, i64. destruct (Z.ltb_spec x 0); [lia|].
  rewrite Z.abs_eq, (Z.mod_small x), Z.mod_small by lia. lia.
Qed.

(** ** The instructions *)

Section Instructions.
Context {CR : Crypto} {NC : NativeCrypto} {S : Type} {SDB : StateDB S} (env : Env) (callee : Callee S).

(** On a stack with the arguments on top, the instruction replaces them by the
    result. *)
Definition Computes (op : Z) (args : list Z) (r : Z) : Prop :=
  forall (v : VM S) st, vmStack v = args ++ st ->
    exists o, jumpTable env callee op = Some o /\ oExecute o v = (Ok [], vm_with_stack v (r :: st)).

Lemma jumpTable_plain op o :
  op <> 0xfa -> op <> 0x3d -> op <> 0x3e -> op <> 0xfd -> op <> 0xf4 ->
  frontierInstructionSet env callee op = Some o -> jumpTable env callee op = Some o.
Proof.
  intros H1 H2 H3 H4 H5 E. unfold jumpTable, byzantiumInstructionSet, homesteadInstructionSet.
  apply Z.eqb_neq in H1, H2, H3, H4, H5. rewrite H1, H2, H3, H4, H5. by repeat case_match.
Qed.

Lemma Computes_intro op args r o :
  op <> 0xfa -> op <> 0x3d -> op <> 0x3e -> op <> 0xfd -> op <> 0xf4 ->
  frontierInstructionSet env callee op = Some o ->
  (forall (v : VM S) st, vmStack v = args ++ st -> oExecute o v = (Ok [], vm_with_stack v (r :: st))) ->
  Computes op args r.
Proof. intros H1 H2 H3 H4 H5 Ho H v st Hv. exists o. split; [by apply jumpTable_plain|by apply H]. Qed.

(** Runs an instruction's pops and pushes. *)
Ltac runOp :=
  (eapply Computes_intro; [done..|reflexivity|]; intros v st Hv; destruct v as [pc e c m stk]; cbn in Hv; subst stk;
  cbv [oExecute opAdd opMul opSub opDiv opSdiv opMod opSmod opAddmod opMulmod opExp opSignExtend opLt opGt
    opSlt opSgt opEq opIszero opAnd opOr opXor opNot opByte VmOps.done pop push mbind modify ret
    vm_with_stack vmStack vmPc vmEvm vmContract vmMemory]).

Ltac result :=
  try (cbn [flag]; reflexivity);
  match goal with |- (_, mkVM _ _ _ _ (?a :: _)) = (_, mkVM _ _ _ _ (?b :: _)) =>
    assert (a = b) as ->; [|reflexivity] end.

Lemma modular_computes x y :
  Computes 0x01 [x; y] ((x + y) mod 2 ^ 256) /\ Computes 0x02 [x; y] ((x * y) mod 2 ^ 256) /\
  Computes 0x03 [x; y] ((x - y) mod 2 ^ 256).
Proof. split_and!; runOp; result; apply U256_mod. Qed.

Lemma division_computes x y : is_word x -> is_word y ->
  Computes 0x04 [x; y] (if y =? 0 then 0 else x / y) /\ Computes 0x06 [x; y] (if y =? 0 then 0 else x mod y) /\
  is_word (if y =? 0 then 0 else x / y) /\ is_word (if y =? 0 then 0 else x mod y).
Proof.
  intros Hx Hy.
  assert (H1 : is_word (if y =? 0 then 0 else x / y)).
  { destruct (Z.eqb_spec y 0); [done|]. unfold is_word in *. split; [apply Z.div_pos; lia|].
    apply Z.div_lt_upper_bound; nia. }
  assert (H2 : is_word (if y =? 0 then 0 else x mod y)).
  { destruct (Z.eqb_spec y 0); [done|]. apply (is_word_small _ y Hy). left. apply Z.mod_pos_bound.
    unfold is_word in *. lia. }
  split_and!; [runOp; result|runOp; result|done|done];
    destruct (y =? 0); try done; by apply U256_small.
Qed.

Lemma signedDivision_computes x y : is_word x -> is_word y ->
  Computes 0x05 [x; y] (if y =? 0 then 0 else toWord (Z.quot (signed x) (signed y))) /\
  Computes 0x07 [x; y] (if y =? 0 then 0 else toWord (Z.rem (signed x) (signed y))).
Proof.
  intros Hx Hy. pose proof (signed_zero y Hy) as Hz.
  split; runOp; rewrite !S256_signed, Hz; destruct (Z.eqb_spec (signed y) 0) as [E|E]; rewrite <- Hz;
    try reflexivity; result; unfold toWord; rewrite U256_mod; f_equal; [by apply quot_abs|by apply rem_abs].
Qed.

Lemma ternary_computes x y z : 0 <= x -> 0 <= y -> is_word z ->
  let r1 := if z =? 0 then 0 else (x + y) mod z in
  let r2 := if z =? 0 then 0 else (x * y) mod z in
  (Computes 0x08 [x; y; z] r1 /\ is_word r1) /\ Computes 0x09 [x; y; z] r2 /\ is_word r2.
Proof.
  intros Hx Hy Hz. cbv zeta.
  assert (Hw : forall n, is_word (if z =? 0 then 0 else n mod z)).
  { intros n. destruct (Z.eqb_spec z 0); [done|]. apply (is_word_small _ z Hz). left.
    apply Z.mod_pos_bound. unfold is_word in Hz. lia. }
  assert (Hc : forall n, (if z >? 0 then U256 (n mod z) else 0) = if z =? 0 then 0 else n mod z).
  { intros n. specialize (Hw n). rewrite Z.gtb_ltb. unfold is_word in Hz.
    destruct (Z.ltb_spec 0 z), (Z.eqb_spec z 0); try lia. by apply U256_small. }
  split_and!; [|done| |done]; runOp; result; apply Hc.
Qed.

Lemma exp_computes x y : 0 <= y -> Computes 0x0a [x; y] (x ^ y mod 2 ^ 256).
Proof. intros Hy. runOp; result. by apply Exp_correct. Qed.

Lemma signExtend_computes k x : is_word k -> is_word x ->
  Computes 0x0b [k; x] (if k <? 31 then toWord (lowSigned (8 * (k + 1)) x) else x).
Proof.
  intros Hk Hx. runOp. destruct (Z.ltb_spec k 31) as [Hlt|]; [|reflexivity]. unfold is_word in Hk. result.
  rewrite U256_mod. unfold toWord. f_equal.
  assert (bigUint64 k = k) as -> by (unfold bigUint64; rewrite Z.abs_eq by lia; apply Z.mod_small; lia).
  rewrite signExtend_masks by lia. f_equal. lia.
Qed.

Lemma comparison_computes x y : is_word x -> is_word y ->
  Computes 0x10 [x; y] (flag (x <? y)) /\ Computes 0x11 [x; y] (flag (y <? x)) /\
  Computes 0x12 [x; y] (flag (signed x <? signed y)) /\
  Computes 0x13 [x; y] (flag (signed y <? signed x)) /\ Computes 0x14 [x; y] (flag (x =? y)) /\
  Computes 0x15 [x] (flag (x =? 0)).
Proof.
  intros Hx Hy. split_and!; runOp; result.
  - by rewrite Z.gtb_ltb.
  - rewrite !S256_signed. do 2 f_equal. pose proof (S256_range y Hy) as Hr. rewrite S256_signed in Hr.
    change (S256 (S256 y)) with (if signed y <? 2 ^ 255 then signed y else signed y - 2 ^ 256).
    destruct (Z.ltb_spec (signed y) (2 ^ 255)); [done|lia].
  - by rewrite Z.gtb_ltb.
  - rewrite Z.gtb_ltb. unfold is_word in Hx. destruct (Z.ltb_spec 0 x), (Z.eqb_spec x 0); try lia; done.
Qed.

Lemma bits_compute x y : is_word x -> is_word y ->
  Computes 0x16 [x; y] (Z.land x y) /\ Computes 0x17 [x; y] (Z.lor x y) /\ Computes 0x18 [x; y] (Z.lxor x y) /\
  Computes 0x19 [x] (2 ^ 256 - 1 - x) /\
  Computes 0x1a [x; y] (if x <? 32 then y / 256 ^ (31 - x) mod 256 else 0).
Proof.
  intros Hx Hy. split_and!; runOp; result; [by apply U256_lnot|].
  unfold is_word in Hx. destruct (Z.ltb_spec x 32) as [Hlt|]; [|done].
  assert (bigInt64 x = x) as -> by (by apply bigInt64_small; lia).
  apply Byte_value; [done|lia].
Qed.

(** The cases of [wordSem], with the arguments' bounds. *)
Ltac wordCases Hw Hr :=
  unfold wordSem in Hr;
  repeat match type of Hr with
  | match ?x with _ => _ end = _ => destruct x; try discriminate Hr
  end; injection Hr as <-; repeat match goal with
  | H : Forall is_word (_ :: _) |- _ =>
      let Hx := fresh "Hx" in let Ht := fresh "Ht" in inversion H as [|? ? Hx Ht]; subst; clear H
  end.

Lemma wordSem_word op args r : Forall is_word args -> wordSem op args = Some r -> is_word r.
Proof.
  intros Hw Hr. wordCases Hw Hr;
    try apply is_word_mod; try apply is_word_flag; try (apply is_word_bitops; done);
    try (by apply division_computes); try (unfold is_word in *; lia).
  - destruct (_ <? 31); [apply is_word_mod|done].
  - destruct (_ =? 0); [done|apply is_word_mod].
  - apply (ternary_computes z z0 z1); [apply Hx|apply Hx0|done].
  - destruct (_ =? 0); [done|apply is_word_mod].
  - destruct (_ <? 32); [|done]. unfold is_word. pose proof (Z.mod_pos_bound (z0 / 256 ^ (31 - z)) 256). lia.
  - apply (ternary_computes z z0 z1); [apply Hx|apply Hx0|done].
Qed.

Lemma wordSem_exec op args r :
  Forall is_word args -> wordSem op args = Some r -> Computes op args r.
Proof.
  intros Hw Hr. wordCases Hw Hr;
    try apply modular_computes; try (by apply division_computes); try (by apply signedDivision_computes);
    try (by apply comparison_computes); try (by apply bits_compute); try (by apply signExtend_computes);
    try (by apply exp_computes; apply Hx0); try (apply (ternary_computes z z0 z1); [apply Hx|apply Hx0|done]).
  - by apply (comparison_computes z z).
  - by apply (bits_compute z z).
Qed.

End Instructions.
