(* ===== verification/VmGasProofs.v ===== *)
(** * Package core/vm: gas bounds the execution

    Every instruction that does not end the execution costs gas, and a callee gets
    less gas than its caller had.  Hence a fuel above the gas is enough for the
    interpreter, and no call returns more gas than it was given. *)

From stdpp Require Import base numbers list gmap sets option.
From Stdlib Require Import ZArith Lia Strings.Byte.
From S2P Require Import Prelude Common Params Types VmCore VmGas VmOps VmPrecompiled VmInterp.

(** ** Computations that leave the contract alone *)

Section Keeps.
Context {S : Type} {SDB : StateDB S}.
Notation VMM := (M (VM S) vmErr).

(** Keeps the contract, and always returns. *)
Definition KeepsC {A} (m : VMM A) : Prop :=
  forall v, vmContract (snd (m v)) = vmContract v /\ fst (m v) <> NoFuel.

(** Also keeps the stack. *)
Definition KeepsS {A} (m : VMM A) : Prop :=
  forall v, vmContract (snd (m v)) = vmContract v /\ vmStack (snd (m v)) = vmStack v /\
            fst (m v) <> NoFuel.

Lemma KeepsS_C {A} (m : VMM A) : KeepsS m -> KeepsC m.
Proof. intros Hm v. destruct (Hm v) as (? & ? & ?). done. Qed.

Lemma KeepsC_bind {A B} (m : VMM A) (k : A -> VMM B) :
  KeepsC m -> (forall a, KeepsC (k a)) -> KeepsC (mbind m k).
Proof.
  intros Hm Hk v. unfold mbind. destruct (Hm v) as [E N].
  destruct (m v) as [[a| | |] v1]; cbn in *; try done.
  destruct (Hk a v1) as [E1 N1]. split; [congruence|done].
Qed.

Lemma KeepsS_bind {A B} (m : VMM A) (k : A -> VMM B) :
  KeepsS m -> (forall a, KeepsS (k a)) -> KeepsS (mbind m k).
Proof.
  intros Hm Hk v. unfold mbind. destruct (Hm v) as (E & E' & N).
  destruct (m v) as [[a| | |] v1]; cbn in *; try done.
  destruct (Hk a v1) as (E1 & E1' & N1). split_and!; [congruence|congruence|done].
Qed.

Lemma KeepsS_ret {A} (a : A) : KeepsS (ret a).
Proof. done. Qed.
Lemma KeepsS_throw {A} e : KeepsS (throw (A := A) e).
Proof. done. Qed.
Lemma KeepsS_panic {A} : KeepsS (panic (A := A)).
Proof. done. Qed.
Lemma KeepsS_gets {A} (f : VM S -> A) : KeepsS (gets f).
Proof. done. Qed.
Lemma KeepsS_lift {A} (r : result vmErr A) : r <> NoFuel -> KeepsS (lift r).
Proof. done. Qed.
Lemma KeepsS_Back n : KeepsS (Back n).
Proof. intros v. unfold Back. by destruct (vmStack v !! n). Qed.
Lemma KeepsS_onState f : KeepsS (onState f).
Proof. done. Qed.
Lemma KeepsS_getState : KeepsS getState.
Proof. done. Qed.
Lemma KeepsS_memoryGet o s : KeepsS (memoryGet o s).
Proof. intros v. unfold memoryGet, memGet. by repeat case_match. Qed.
Lemma KeepsS_memorySet o s d : KeepsS (memorySet o s d).
Proof. intros v. unfold memorySet. by case_match. Qed.
Lemma KeepsS_memoryGasCost n : KeepsS (memoryGasCost n).
Proof.
  intros v. unfold memoryGasCost, memoryGasCostOn. destruct (n =? 0); [done|].
  destruct (n >? _); [done|]. cbv zeta. by destruct (_ >? mLen _).
Qed.
Lemma KeepsS_setPc pc : KeepsS (setPc pc).
Proof. done. Qed.
Lemma KeepsS_checkJump pos : KeepsS (checkJump pos).
Proof.
  intros v. unfold checkJump. destruct (has _ _ _ _) as [r d] eqn:E. cbn. split_and!; [done..|].
  revert E. unfold has. repeat case_match; intros [= <- _]; done.
Qed.
Lemma KeepsS_if {A} (b : bool) (m1 m2 : VMM A) : KeepsS m1 -> KeepsS m2 -> KeepsS (if b then m1 else m2).
Proof. by destruct b. Qed.

Lemma KeepsC_pop : KeepsC pop.
Proof. intros v. unfold pop. by destruct (vmStack v). Qed.
Lemma KeepsC_push d : KeepsC (push d).
Proof. done. Qed.
Lemma KeepsC_dup n : KeepsC (dup n).
Proof. intros v. unfold dup. by case_match. Qed.
Lemma KeepsC_swap n : KeepsC (swap n).
Proof. intros v. unfold swap. by repeat case_match. Qed.
Lemma KeepsC_if {A} (b : bool) (m1 m2 : VMM A) : KeepsC m1 -> KeepsC m2 -> KeepsC (if b then m1 else m2).
Proof. by destruct b. Qed.

End Keeps.

Lemma addGas_fuel x y : addGas x y <> NoFuel.
Proof. unfold addGas. by repeat case_match. Qed.
Lemma mulGas_fuel x y : mulGas x y <> NoFuel.
Proof. unfold mulGas. by repeat case_match. Qed.
Lemma uint64Gas_fuel x : uint64Gas x <> NoFuel.
Proof. unfold uint64Gas. by repeat case_match. Qed.
Lemma callGas_fuel gt a b c : callGas gt a b c <> NoFuel.
Proof. unfold callGas. by repeat case_match. Qed.

Create HintDb vm.
#[export] Hint Resolve addGas_fuel mulGas_fuel uint64Gas_fuel callGas_fuel : vm.
#[export] Hint Resolve KeepsS_ret KeepsS_throw KeepsS_panic KeepsS_gets KeepsS_lift KeepsS_Back
  KeepsS_onState KeepsS_getState KeepsS_memoryGet KeepsS_memorySet KeepsS_memoryGasCost
  KeepsS_setPc KeepsS_checkJump : vm.
#[export] Hint Resolve KeepsC_pop KeepsC_push KeepsC_dup KeepsC_swap : vm.

(** The constant at the head of a term. *)
Ltac headOf t := lazymatch t with ?f _ => headOf f | _ => t end.

(** Follows the structure of a computation. *)
Ltac keeps :=
  repeat (cbn beta zeta; intros;
    match goal with
    | |- KeepsS (mbind _ _) => apply KeepsS_bind
    | |- KeepsC (mbind _ _) => apply KeepsC_bind
    | |- KeepsS (if _ then _ else _) => apply KeepsS_if
    | |- KeepsC (if _ then _ else _) => apply KeepsC_if
    | |- KeepsC (match ?x with _ => _ end) => destruct x
    | |- KeepsS (match ?x with _ => _ end) => destruct x
    | |- _ => solve [eauto with vm | apply KeepsS_C; eauto with vm]
    end).

(** ** What a computation yields *)

Section Yields.
Context {S : Type} {SDB : StateDB S}.
Notation VMM := (M (VM S) vmErr).

Definition Yields {A} (m : VMM A) (Q : A -> Prop) : Prop :=
  forall v a v', m v = (Ok a, v') -> Q a.

Lemma Yields_bind {A B} (m : VMM A) (k : A -> VMM B) (P : A -> Prop) (Q : B -> Prop) :
  Yields m P -> (forall a, P a -> Yields (k a) Q) -> Yields (mbind m k) Q.
Proof.
  intros Hm Hk v b v'. unfold mbind. destruct (m v) as [[a| | |] v1] eqn:E; try done.
  apply Hk. by eapply Hm.
Qed.

Lemma Yields_any {A B} (m : VMM A) (k : A -> VMM B) (Q : B -> Prop) :
  (forall a, Yields (k a) Q) -> Yields (mbind m k) Q.
Proof. intros Hk. by apply (Yields_bind m k (fun _ => True)). Qed.

Lemma Yields_ret {A} (a : A) (Q : A -> Prop) : Q a -> Yields (ret a) Q.
Proof. by intros H v b v' [= <- _]. Qed.

Lemma Yields_lift {A} (r : result vmErr A) (Q : A -> Prop) :
  (forall a, r = Ok a -> Q a) -> Yields (lift r) Q.
Proof. intros H v a v' [= E _]. by apply H. Qed.

Lemma Yields_if {A} (b : bool) (m1 m2 : VMM A) (Q : A -> Prop) :
  Yields m1 Q -> Yields m2 Q -> Yields (if b then m1 else m2) Q.
Proof. by destruct b. Qed.

Lemma Yields_weaken {A} (m : VMM A) (P Q : A -> Prop) :
  (forall a, P a -> Q a) -> Yields m P -> Yields m Q.
Proof. intros HPQ Hm v a v' E. by eapply HPQ, Hm. Qed.

Lemma memoryGasCost_yields n : Yields (memoryGasCost n) is_u64.
Proof.
  intros v a v'. unfold memoryGasCost, memoryGasCostOn. destruct (n =? 0); [by intros [= <- _]|].
  destruct (n >? _); [done|]. cbv zeta. destruct (_ >? mLen _); intros [= <- _]; [|done].
  apply u64_is_u64.
Qed.

End Yields.

Lemma addGas_Ok x y z : is_u64 x -> is_u64 y -> addGas x y = Ok z -> z = x + y /\ is_u64 z.
Proof.
  unfold addGas. intros Hx Hy. destruct (SafeAdd x y) as [w []] eqn:E; [done|].
  intros [= <-]. by apply (SafeAdd_false x y).
Qed.

Lemma uint64Gas_Ok v z : uint64Gas v = Ok z -> is_u64 z /\ z = bigUint64 v /\ BitLen v <= 64.
Proof.
  unfold uint64Gas, bigUint64Ov. destruct (BitLen v >? 64) eqn:E; [done|]. intros [= <-].
  rewrite Z.gtb_ltb in E. bools. split_and!; [|done..].
  unfold bigUint64. apply Z.mod_pos_bound. lia.
Qed.

Lemma mulGas_Ok x y z : is_u64 x -> is_u64 y -> mulGas x y = Ok z -> z = x * y /\ is_u64 z.
Proof.
  unfold mulGas. intros Hx Hy. rewrite SafeMul_spec by done.
  destruct (2 ^ 64 <=? x * y) eqn:E; [done|]. intros [= <-]. bools.
  assert (0 <= x * y) by (unfold is_u64 in *; nia). rewrite u64_small; unfold is_u64; lia.
Qed.

Lemma toWordSize_u64 n : is_u64 n -> is_u64 (toWordSize n).
Proof.
  unfold toWordSize, is_u64, MaxUint64. intros Hn.
  destruct (n >? _) eqn:E; rewrite Z.gtb_ltb in E; bools; [by vm_compute|].
  assert (0 <= (n + 31) / 32 < 2 ^ 64); [|lia].
  split; [apply Z.div_pos; lia|]. apply Z.div_lt_upper_bound; lia.
Qed.

(** ** Gas functions *)

Section GasFunctions.
Context {S : Type} {SDB : StateDB S}.

(** The function keeps contract and stack and charges at least [k]. *)
Definition GasAtLeast (k : Z) (g : gasFunc (S := S)) : Prop :=
  forall ms, KeepsS (g ms) /\ Yields (g ms) (fun cost => k <= cost).

Lemma const_atLeast k c : k <= c -> GasAtLeast k (constGasFunc c).
Proof. intros Hk ms. split; [done|]. by apply Yields_ret. Qed.

Lemma retGas_atLeast k c : k <= c -> GasAtLeast k (fun _ => ret c).
Proof. intros Hk ms. split; [done|]. by apply Yields_ret. Qed.

Lemma copy_atLeast k c w p : k <= c -> is_u64 c -> is_u64 w -> GasAtLeast k (gasCopy c w p).
Proof.
  intros Hk Hc Hw ms. split; [unfold gasCopy; keeps|].
  eapply Yields_bind; [apply memoryGasCost_yields|]. intros gas Hg.
  eapply Yields_bind; [apply Yields_lift; intros a; apply addGas_Ok; done|]. intros g1 [E1 H1].
  apply Yields_any. intros l.
  eapply Yields_bind; [apply Yields_lift; intros a; apply uint64Gas_Ok|]. intros ws (Hws & _).
  eapply Yields_bind; [apply Yields_lift; intros a; apply mulGas_Ok; [by apply toWordSize_u64|done]|].
  intros w1 [_ Hw1]. apply Yields_lift. intros a [-> _]%addGas_Ok; [|done..].
  unfold is_u64 in *. lia.
Qed.

Lemma memConst_atLeast k c : k <= c -> is_u64 c -> GasAtLeast k (gasMemConst c).
Proof.
  intros Hk Hc ms. split; [unfold gasMemConst; keeps|].
  eapply Yields_bind; [apply memoryGasCost_yields|]. intros gas Hg.
  apply Yields_lift. intros a [-> _]%addGas_Ok; [|done..]. unfold is_u64 in *. lia.
Qed.

Lemma memory_atLeast : GasAtLeast 0 memoryGasCost.
Proof.
  intros ms. split; [keeps|]. eapply Yields_weaken; [|apply memoryGasCost_yields].
  unfold is_u64. lia.
Qed.

Lemma log_atLeast k n : k <= LogGas -> GasAtLeast k (makeGasLog n).
Proof.
  intros Hk ms. split; [unfold makeGasLog; keeps|].
  apply Yields_any. intros sz.
  eapply Yields_bind; [apply Yields_lift; intros a; apply uint64Gas_Ok|]. intros rs (Hrs & _).
  eapply Yields_bind; [apply memoryGasCost_yields|]. intros gas Hg.
  eapply Yields_bind; [apply Yields_lift; intros a; by apply addGas_Ok|]. intros g1 [E1 H1].
  eapply Yields_bind.
  { apply Yields_lift. intros a. apply addGas_Ok; [done|apply u64_is_u64]. }
  intros g2 [E2 H2].
  eapply Yields_bind; [apply Yields_lift; intros a; by apply mulGas_Ok|]. intros m [_ Hm].
  apply Yields_lift. intros a [-> _]%addGas_Ok; [|done..].
  pose proof (u64_range (n * LogTopicGas)). unfold is_u64 in *. lia.
Qed.

Lemma sstore_atLeast : GasAtLeast 1 gasSStore.
Proof.
  intros ms. split; [unfold gasSStore; keeps|].
  unfold gasSStore. do 4 (apply Yields_any; intros). cbv zeta.
  repeat apply Yields_if; try (apply Yields_any; intros); by apply Yields_ret.
Qed.

Context (config : ChainConfig) (number : option Z).

Lemma exp_atLeast : GasAtLeast 1 (gasExp config number).
Proof.
  intros ms. split; [unfold gasExp; keeps|]. apply Yields_any. intros e.
  apply Yields_lift. intros a [-> _]%addGas_Ok; [|apply u64_is_u64|done].
  pose proof (u64_range ((BitLen e + 7) / 8 * ExpByte (gasTable config number))).
  unfold GasSlowStep. lia.
Qed.

Lemma suicide_atLeast : GasAtLeast 0 (gasSuicide config number).
Proof.
  intros ms. split; [unfold gasSuicide; keeps|].
  unfold gasSuicide. do 3 (apply Yields_any; intros). cbv zeta. apply Yields_any. intros _.
  apply Yields_ret.
  repeat case_match; try apply u64_range; try lia;
    destruct (gasTable_cases config number) as [-> |[-> | ->]]; cbn; lia.
Qed.

End GasFunctions.

(** ** Operations *)

Notation gasOf v := (cGas (vmContract v)).

Section Ops.
Context {CR : Crypto} {NC : NativeCrypto} {S : Type} {SDB : StateDB S} (env : Env).
Notation config := (chainConfig env).
Notation number := (envNumber env).

Lemma popTopics_keeps n : KeepsC (popTopics (S := S) n).
Proof. induction n as [|n IH]; cbn [popTopics]; keeps. Qed.

Lemma opMstore8_keeps : KeepsC (opMstore8 (S := S)).
Proof.
  unfold opMstore8. keeps. intros v. by case_match.
Qed.

(** What an operation does to the gas, for callees that are given less than [N]:
    [v] is the machine before the charge, [v3] the one it executes on. *)
Record OpGas (N : Z) (o : operation (S := S)) : Prop := {
  og_memory : match oMemorySize o with Some f => KeepsS f | None => True end;
  og_keeps : forall ms, KeepsS (oGasCost o ms);
  og_cost : forall ms, Yields (oGasCost o ms) (fun cost => 0 <= cost);
  og_execute : forall v ms cost v2 v3,
    is_u64 (gasOf v) -> gasOf v <= N ->
    oGasCost o ms v = (Ok cost, v2) -> cost <= gasOf v ->
    vmStack v3 = vmStack v -> vmEvm v3 = vmEvm v2 -> gasOf v3 = gasOf v - cost ->
    fst (oExecute o v3) <> NoFuel /\
    0 <= gasOf (snd (oExecute o v3)) <= gasOf v /\
    (oHalts o || oReverts o = false -> gasOf (snd (oExecute o v3)) < gasOf v)
}.

Lemma OpGas_simple N o :
  match oMemorySize o with Some f => KeepsS f | None => True end ->
  KeepsC (oExecute o) ->
  GasAtLeast (if oHalts o || oReverts o then 0 else 1) (oGasCost o) ->
  OpGas N o.
Proof.
  intros Hm Hx Hg. split; [done|apply Hg| |].
  - intros ms. eapply Yields_weaken; [|apply Hg]. cbn. intros a. destruct (_ || _); lia.
  - intros v ms cost v2 v3 Hv _ Hc Hle _ _ E3. destruct (Hx v3) as [Ex Nx].
    destruct (Hg ms) as [_ Hy]. specialize (Hy _ _ _ Hc). rewrite Ex, E3.
    unfold is_u64 in Hv. split; [done|]. destruct (_ || _); split; try done; lia.
Qed.

Lemma gasTable_bounds : 1 <= Calls (gasTable config number) /\ is_u64 (Calls (gasTable config number)) /\
  1 <= ExtcodeCopy (gasTable config number) /\ is_u64 (ExtcodeCopy (gasTable config number)) /\
  1 <= Balance (gasTable config number) /\ 1 <= ExtcodeSize (gasTable config number) /\
  1 <= SLoad (gasTable config number) /\ Calls (gasTable config number) <= 700.
Proof. by destruct (gasTable_cases config number) as [-> |[-> | ->]]; vm_compute. Qed.

Lemma gasCopies_atLeast : GasAtLeast 1 (gasCallDataCopy (S := S)) /\
  GasAtLeast 1 (gasReturnDataCopy (S := S)) /\ GasAtLeast 1 (gasCodeCopy (S := S)) /\
  GasAtLeast 1 (gasSha3 (S := S)) /\ GasAtLeast 1 (gasExtCodeCopy (S := S) config number).
Proof.
  pose proof gasTable_bounds as (_ & _ & H1 & H2 & _). by split_and!; apply copy_atLeast.
Qed.

Lemma gasMem_atLeast : GasAtLeast 1 (gasMLoad (S := S)) /\ GasAtLeast 1 (gasMStore (S := S)) /\
  GasAtLeast 1 (gasMStore8 (S := S)) /\ GasAtLeast 1 (gasCreate (S := S)).
Proof. by split_and!; apply memConst_atLeast. Qed.

Lemma gasTable_atLeast : GasAtLeast 1 (gasBalance (S := S) config number) /\
  GasAtLeast 1 (gasExtCodeSize (S := S) config number) /\ GasAtLeast 1 (gasSLoad (S := S) config number).
Proof.
  pose proof gasTable_bounds as (_ & _ & _ & _ & H1 & H2 & H3 & _).
  by split_and!; apply retGas_atLeast.
Qed.

(** *** The calling instructions *)

(** A call with gas below [N] returns, and gives back no more than it got. *)
Definition CallBound {A} (N : Z) (left : A -> Z) (f : Z -> M (EVM S) vmErr A) : Prop :=
  forall gas e, is_u64 gas -> gas < N ->
    fst (f gas e) <> NoFuel /\ forall a, fst (f gas e) = Ok a -> 0 <= left a <= gas.

Definition callLeft (r : callResult) : Z := snd (fst r).
Definition createLeft (r : createResult) : Z := snd (fst r).

Record CalleeBound (N : Z) (callee : Callee S) : Prop := {
  cb_call : forall c a i value, CallBound N callLeft (fun g => doCall callee c a i g value);
  cb_callCode : forall c a i value, CallBound N callLeft (fun g => doCallCode callee c a i g value);
  cb_delegate : forall c a i, CallBound N callLeft (doDelegateCall callee c a i);
  cb_static : forall c a i, CallBound N callLeft (doStaticCall callee c a i);
  cb_create : forall c code value, CallBound N createLeft (fun g => doCreate callee c code g value)
}.

(** The result of a computation whose gas ends between [lo] and [hi]. *)
Definition GasIn {A} (lo hi : Z) (r : result vmErr A * VM S) : Prop :=
  fst r <> NoFuel /\ lo <= gasOf (snd r) <= hi.

Lemma GasIn_bind {A B} lo hi (m : M (VM S) vmErr A) (k : A -> M (VM S) vmErr B) v :
  KeepsC m -> lo <= gasOf v <= hi ->
  (forall a v1, m v = (Ok a, v1) -> vmContract v1 = vmContract v -> GasIn lo hi (k a v1)) ->
  GasIn lo hi (mbind m k v).
Proof.
  intros Hm Hv Hk. destruct (Hm v) as [E N]. unfold mbind.
  destruct (m v) as [[a| | |] v1] eqn:Em; cbn [fst snd] in *; try done;
    [by apply Hk|unfold GasIn; cbn; by rewrite E..].
Qed.

Lemma finishCall_gas o s r v hi :
  is_u64 (gasOf v) -> 0 <= callLeft r -> gasOf v + callLeft r <= hi -> hi < 2 ^ 64 ->
  GasIn (gasOf v) hi (finishCall o s r v).
Proof.
  intros Hg H0 Hhi Hmax. destruct r as [[out left] err]. cbn in H0, Hhi. unfold finishCall.
  apply GasIn_bind; [keeps|lia|]. intros _ v1 _ E1.
  apply GasIn_bind; [keeps|rewrite E1; lia|]. intros _ v2 _ E2.
  split; [done|]. cbn. rewrite E2, E1. unfold is_u64 in Hg. rewrite u64_small; unfold is_u64; lia.
Qed.

Lemma callTail_gas N (f : Z -> M (EVM S) vmErr callResult) o s T v :
  CallBound N callLeft f -> is_u64 (gasOf v) -> 0 <= T -> T < N -> gasOf v + T < 2 ^ 64 ->
  GasIn (gasOf v) (gasOf v + T) (mbind (onEvm (f T)) (finishCall o s) v).
Proof.
  intros Hf Hv H0 HN Hmax. unfold mbind, onEvm.
  destruct (Hf T (vmEvm v)) as [Nf Ok]; [unfold is_u64 in *; lia|done|].
  destruct (f T (vmEvm v)) as [[r| | |] e]; cbn [fst] in *; try done; [|by split; cbn; [|lia]..].
  specialize (Ok r eq_refl).
  by apply (finishCall_gas o s r (vm_with_evm v e)); cbn; [|lia..].
Qed.

Lemma gasCallRest_spec base mg (v : VM S) cost v2 :
  is_u64 base -> is_u64 mg ->
  gasCallRest config number base mg v = (Ok cost, v2) ->
  let T := eCallGasTemp (vmEvm v2) in is_u64 T /\ cost = base + mg + T.
Proof.
  intros Hb Hm. unfold gasCallRest, mbind, lift, gets, modify.
  destruct (addGas base mg) as [g| | |] eqn:E1; try done.
  apply addGas_Ok in E1 as [E1 Hg]; [|done..].
  destruct (Back 0 v) as [[req| | |] v1] eqn:E2; try done.
  destruct (callGas _ _ _ _) as [temp| | |] eqn:E3; cbn -[addGas]; try done.
  assert (HT : is_u64 temp).
  { revert E3. unfold callGas. cbv zeta. repeat case_match; intros [= <-];
      first [apply u64_is_u64 | by apply Z.mod_pos_bound]. }
  destruct (addGas g temp) as [c| | |] eqn:E4; try done.
  intros [= <- <-]. cbn.
  apply addGas_Ok in E4 as [E4 _]; [|done..]. split; [done|lia].
Qed.

Lemma gasCallRest_keeps base mg : KeepsS (gasCallRest (S := S) config number base mg).
Proof. unfold gasCallRest. keeps. intros v. split_and!; done. Qed.

(** What the instruction's gas function promises: the cost covers the gas of the
    callee, with [bonus] more that the caller gave for free. *)
Definition CallCost (g : gasFunc (S := S)) (bonus : list Z -> Z) : Prop :=
  forall ms v cost v2, g ms v = (Ok cost, v2) ->
    let T := eCallGasTemp (vmEvm v2) in is_u64 T /\ T + bonus (vmStack v) + 1 <= cost.

(** What the instruction does with it. *)
Definition CallExec (N : Z) (m : exec (S := S)) (bonus : list Z -> Z) : Prop :=
  forall v, let T := eCallGasTemp (vmEvm v) + bonus (vmStack v) in
    is_u64 (gasOf v) -> 0 <= eCallGasTemp (vmEvm v) -> T < N -> gasOf v + T < 2 ^ 64 ->
    GasIn (gasOf v) (gasOf v + T) (m v).

Definition stipend (st : list Z) : Z :=
  match st with _ :: _ :: value :: _ => if U256 value =? 0 then 0 else CallStipend | _ => 0 end.
Definition noBonus (st : list Z) : Z := 0.

Lemma OpGas_call N e g pop push m writes bonus o :
  callOp e g pop push m writes = Some o -> KeepsS m -> (forall ms, KeepsS (g ms)) ->
  (forall st, 0 <= bonus st) -> CallCost g bonus -> CallExec N e bonus -> OpGas N o.
Proof.
  intros [= <-] Hm Hg Hb Hc Hx. split; cbn; [done..| |].
  - intros ms v cost v2 E. destruct (Hc _ _ _ _ E) as [HT Hcost].
    specialize (Hb (vmStack v)). unfold is_u64 in HT. lia.
  - intros v ms cost v2 v3 Hv HN E Hle Es Ee E3. destruct (Hc _ _ _ _ E) as [HT Hcost].
    specialize (Hb (vmStack v)). unfold is_u64 in *.
    destruct (Hx v3) as [Nx Gx]; rewrite ?Es, ?Ee, ?E3; unfold is_u64; [lia..|].
    rewrite Es, Ee, E3 in Gx. split; [done|]. lia.
Qed.

Lemma GasIn_gets {A B} lo hi (f : VM S -> A) (k : A -> M (VM S) vmErr B) v :
  GasIn lo hi (k (f v) v) -> GasIn lo hi (mbind (gets f) k v).
Proof. done. Qed.

Lemma GasIn_pop {B} lo hi (k : Z -> M (VM S) vmErr B) v :
  lo <= gasOf v <= hi ->
  (forall x st, vmStack v = x :: st -> GasIn lo hi (k x (vm_with_stack v st))) ->
  GasIn lo hi (mbind pop k v).
Proof.
  intros Hv Hk. unfold mbind, pop. destruct (vmStack v) as [|x st]; [by split|]. by apply Hk.
Qed.

Ltac callSteps :=
  repeat match goal with
    | |- GasIn _ _ (mbind pop _ _) => apply GasIn_pop; [cbn; lia|intros ? ? ?; cbn [vmStack vm_with_stack vmEvm vmContract] in *]
    | |- GasIn _ _ (mbind (gets _) _ _) => apply GasIn_gets; cbv zeta; cbn [vmEvm vm_with_stack]
    | |- GasIn _ _ (mbind (memoryGet _ _) _ _) =>
        apply GasIn_bind; [keeps|cbn; lia|intros args v1 _ Ev1; cbn [vmContract vm_with_stack] in Ev1]
    end.

Lemma opDelegateCall_exec N callee :
  CalleeBound N callee -> CallExec N (opDelegateCall callee) noBonus.
Proof.
  intros HB v T Hv HT HN Hmax. subst T. unfold noBonus in *. rewrite Z.add_0_r in *.
  unfold opDelegateCall. callSteps.
  rewrite <- Ev1 in *.
  apply (callTail_gas N); try done. apply HB.
Qed.

Lemma opStaticCall_exec N callee :
  CalleeBound N callee -> CallExec N (opStaticCall callee) noBonus.
Proof.
  intros HB v T Hv HT HN Hmax. subst T. unfold noBonus in *. rewrite Z.add_0_r in *.
  unfold opStaticCall. callSteps.
  rewrite <- Ev1 in *.
  apply (callTail_gas N); try done. apply HB.
Qed.

Lemma stipend_nonneg st : 0 <= stipend st.
Proof. destruct st as [|? [|? [|x st]]]; cbn; try lia. by destruct (U256 x =? 0). Qed.

Lemma stipend_gas T value x0 x1 st :
  0 <= T -> T + stipend (x0 :: x1 :: value :: st) < 2 ^ 64 ->
  (if negb (U256 value =? 0) then u64 (T + CallStipend) else T) =
  T + stipend (x0 :: x1 :: value :: st).
Proof.
  cbn. destruct (U256 value =? 0); cbn; intros H0 H1; [lia|].
  apply u64_small. unfold is_u64, CallStipend in *. lia.
Qed.

Lemma opCall_exec N callee : CalleeBound N callee -> CallExec N (opCall callee) stipend.
Proof.
  intros HB v T Hv HT HN Hmax. subst T.
  pose proof (stipend_nonneg (vmStack v)) as Hs. unfold opCall. callSteps.
  rewrite <- Ev1 in *. simplify_eq.
  rewrite H in *.
  match goal with |- context [stipend (?a :: ?b :: ?c :: ?l)] =>
    rewrite (stipend_gas _ c a b l) by (unfold is_u64 in Hv; lia) end.
  apply (callTail_gas N (fun g => doCall callee _ _ _ g _)); try done; [apply HB|lia].
Qed.

Lemma opCallCode_exec N callee : CalleeBound N callee -> CallExec N (opCallCode callee) stipend.
Proof.
  intros HB v T Hv HT HN Hmax. subst T.
  pose proof (stipend_nonneg (vmStack v)) as Hs. unfold opCallCode. callSteps.
  rewrite <- Ev1 in *. simplify_eq.
  rewrite H in *.
  match goal with |- context [stipend (?a :: ?b :: ?c :: ?l)] =>
    rewrite (stipend_gas _ c a b l) by (unfold is_u64 in Hv; lia) end.
  apply (callTail_gas N (fun g => doCallCode callee _ _ _ g _)); try done; [apply HB|lia].
Qed.

(** The gas functions of the calls. *)
Lemma callBase_u64 (b : bool) n g :
  1 <= g <= 25700 -> is_u64 n -> n <= 25000 ->
  g <= (if b then u64 (g + n) else g) /\ is_u64 (if b then u64 (g + n) else g) /\
  (if b then u64 (g + n) else g) = g + (if b then n else 0).
Proof.
  intros Hg Hn Hn'. unfold is_u64 in *. destruct b; [|lia].
  rewrite u64_small; unfold is_u64; lia.
Qed.

Lemma Back_Ok n (v v' : VM S) x : Back n v = (Ok x, v') -> vmStack v !! n = Some x /\ v' = v.
Proof. unfold Back. destruct (vmStack v !! n); [|done]. by intros [= -> ->]. Qed.

Lemma stipend_le st value :
  st !! 2%nat = Some value -> stipend st <= if negb (value =? 0) then CallStipend else 0.
Proof.
  destruct st as [|? [|? [|x st]]]; try done. intros [= ->]. cbn.
  destruct (Z.eqb_spec value 0) as [->|]; cbn; [done|]. by destruct (_ =? 0).
Qed.

Lemma gasCallCode_cost : CallCost (gasCallCode config number) stipend.
Proof.
  intros ms v cost v2 E. unfold gasCallCode in E. m_step E.
  apply Back_Ok in E0 as [H2 ->]. m_step E. apply memoryGasCost_yields in E0.
  pose proof gasTable_bounds as (Hc1 & _ & _ & _ & _ & _ & _ & Hc2).
  destruct (callBase_u64 (negb (a =? 0)) CallValueTransferGas (Calls (gasTable config number)))
    as (_ & Hu & Eb); [lia|done|done|].
  apply gasCallRest_spec in E as [HT ->]; [|done..]. rewrite Eb.
  apply stipend_le in H2. unfold CallStipend, CallValueTransferGas, is_u64 in *.
  split; [done|]. destruct (negb _); lia.
Qed.

Lemma gasCall_cost : CallCost (gasCall config number) stipend.
Proof.
  intros ms v cost v2 E. unfold gasCall in E. m_step E. apply Back_Ok in E0 as [H2 ->].
  m_step E. apply Back_Ok in E0 as [_ ->]. m_step E. cbv zeta in E.
  pose proof gasTable_bounds as (Hc1 & _ & _ & _ & _ & _ & _ & Hc2).
  set (g0 := if IsEIP158 config number then _ else _) in E.
  assert (Hg0 : 1 <= g0 <= 25700).
  { unfold g0. repeat case_match; try lia; rewrite u64_small; unfold is_u64, CallNewAccountGas; lia. }
  clearbody g0. m_step E. apply memoryGasCost_yields in E1.
  destruct (callBase_u64 (negb (a =? 0)) CallValueTransferGas g0) as (_ & Hu & Eb); [lia|done|done|].
  apply gasCallRest_spec in E as [HT ->]; [|done..]. rewrite Eb.
  apply stipend_le in H2. unfold CallStipend, CallValueTransferGas, is_u64 in *.
  split; [done|]. destruct (negb _); lia.
Qed.

Lemma gasDelegateCall_cost : CallCost (gasDelegateCall config number) noBonus.
Proof.
  intros ms v cost v2 E. unfold gasDelegateCall in E. m_step E. apply memoryGasCost_yields in E0.
  pose proof gasTable_bounds as (Hc1 & Hu & _).
  apply gasCallRest_spec in E as [HT ->]; [|done..]. unfold is_u64, noBonus in *. lia.
Qed.

Lemma opCreate_exec N callee v :
  CalleeBound N callee -> is_u64 (gasOf v) -> gasOf v < N ->
  GasIn 0 (gasOf v) (opCreate env callee v).
Proof.
  intros HB Hv HN. assert (0 <= gasOf v <= gasOf v) by (unfold is_u64 in Hv; lia).
  unfold opCreate. callSteps. rewrite <- Ev1 in *. clear Ev1.
  set (g := if IsEIP150 _ _ then _ else _).
  assert (Hg : 0 <= g <= gasOf v1).
  { pose proof (Z.div_pos (gasOf v1) 64). pose proof (Z.div_le_upper_bound (gasOf v1) 64 (gasOf v1)).
    unfold g. destruct (IsEIP150 _ _); [|lia]. rewrite u64_small; unfold is_u64 in *; lia. }
  clearbody g. unfold UseGas. rewrite (proj2 (Z.ltb_ge _ _)) by lia. cbn [snd].
  unfold mbind, modify, onEvm. cbn [vmEvm vm_with_contract].
  match goal with |- context [doCreate callee ?c ?i g ?x ?e] =>
    destruct (cb_create _ _ HB c i x g e) as [Nf Ok]; [unfold is_u64 in *; lia|lia|];
    destruct (doCreate callee c i g x e) as [[r| | |] e'] end;
    cbn [fst] in *; try done; [|by split; cbn; [|lia]..].
  specialize (Ok r eq_refl). destruct r as [[[res addr] left] err]. cbn in Ok |- *.
  split; [done|]. cbn. rewrite u64_small; unfold is_u64 in *; lia.
Qed.

Lemma OpGas_create N callee o :
  CalleeBound N callee ->
  callOp (opCreate env callee) gasCreate 3 1 memoryCreate true = Some o -> OpGas N o.
Proof.
  intros HB [= <-]. destruct gasMem_atLeast as (_ & _ & _ & Hc).
  split; cbn -[opCreate gasCreate]; [unfold memoryCreate, memRange; keeps|apply Hc| |].
  - intros ms. eapply Yields_weaken; [|apply Hc]. cbn. lia.
  - intros v ms cost v2 v3 Hv HN E Hle _ _ E3.
    destruct (Hc ms) as [_ Hy]. specialize (Hy _ _ _ E). cbn in Hy. unfold is_u64 in Hv.
    destruct (opCreate_exec N callee v3) as [Nx Gx]; [done|unfold is_u64; lia|lia|].
    rewrite E3 in Gx. split; [done|]. lia.
Qed.

(** *** All instructions *)

Lemma memRange_keeps a b : KeepsS (memRange (S := S) a b).
Proof. unfold memRange. keeps. Qed.
Lemma memFixed_keeps l : KeepsS (memFixed (S := S) l).
Proof. unfold memFixed. keeps. Qed.
Lemma memTwo_keeps a b c d : KeepsS (memTwo (S := S) a b c d).
Proof. unfold memTwo. repeat (apply KeepsS_bind; [apply memRange_keeps|intros]). done. Qed.

Ltac memoryKeeps := first [done | apply memRange_keeps | apply memFixed_keeps | apply memTwo_keeps].
Ltac gasLeast :=
  first [ by apply const_atLeast | by apply retGas_atLeast | apply gasCopies_atLeast
        | apply gasMem_atLeast | apply gasTable_atLeast | apply memory_atLeast
        | by apply log_atLeast | apply sstore_atLeast | apply exp_atLeast | apply suicide_atLeast ].
Ltac execKeeps :=
  lazymatch goal with
  | |- KeepsC opMstore8 => apply opMstore8_keeps
  | |- KeepsC ?m => let f := headOf m in unfold f; keeps
  end.
Ltac simpleOp :=
  intros [= <-]; apply OpGas_simple; cbn [oMemorySize oExecute oGasCost oHalts oReverts];
  [memoryKeeps|execKeeps|cbn [orb]; gasLeast].
Ltac callingOp Hc Hx Hb :=
  intros Ho; eapply OpGas_call;
  [exact Ho|memoryKeeps| |apply Hb|apply Hc|by apply Hx].

#[local] Hint Resolve popTopics_keeps gasCallRest_keeps : vm.

Lemma jumpPc_keeps : KeepsC (modify (fun v : VM S => vm_with_pc v (u64 (vmPc v + 1)))).
Proof. done. Qed.
#[local] Hint Resolve jumpPc_keeps : vm.

Lemma noBonus_nonneg st : 0 <= noBonus st.
Proof. done. Qed.

Lemma gasCalls_keep ms : KeepsS (gasCall (S := S) config number ms) /\
  KeepsS (gasCallCode (S := S) config number ms) /\ KeepsS (gasDelegateCall (S := S) config number ms).
Proof. unfold gasCall, gasCallCode, gasDelegateCall. split_and!; keeps. Qed.

Lemma frontier_gas N callee op o :
  CalleeBound N callee -> frontierInstructionSet env callee op = Some o -> OpGas N o.
Proof.
  intros HB. unfold frontierInstructionSet.
  destruct (_ && _); [simpleOp|]. destruct (_ && _); [simpleOp|].
  destruct (_ && _); [simpleOp|]. destruct (_ && _); [simpleOp|].
  repeat case_match; try done; try (by simpleOp).
  - callingOp gasCall_cost opCall_exec stipend_nonneg. apply gasCalls_keep.
  - callingOp gasCallCode_cost opCallCode_exec stipend_nonneg. apply gasCalls_keep.
  - by apply OpGas_create.
Qed.

Lemma homestead_gas N callee op o :
  CalleeBound N callee -> homesteadInstructionSet env callee op = Some o -> OpGas N o.
Proof.
  intros HB. unfold homesteadInstructionSet. destruct (op =? _); [|by apply frontier_gas].
  callingOp gasDelegateCall_cost opDelegateCall_exec noBonus_nonneg. apply gasCalls_keep.
Qed.

Lemma jumpTable_gas N callee op o :
  CalleeBound N callee -> jumpTable env callee op = Some o -> OpGas N o.
Proof.
  intros HB. unfold jumpTable.
  destruct (IsByzantium _ _);
    [|destruct (IsHomestead _ _); [by apply homestead_gas|by apply frontier_gas]].
  unfold byzantiumInstructionSet. destruct (op =? _).
  { callingOp gasDelegateCall_cost opStaticCall_exec noBonus_nonneg. apply gasCalls_keep. }
  destruct (op =? _); [simpleOp|]. destruct (op =? _); [simpleOp|].
  destruct (op =? _); [simpleOp|by apply homestead_gas].
Qed.

End Ops.

(** ** The interpreter *)

Section Loop.
Context {CR : Crypto} {NC : NativeCrypto} {S : Type} {SDB : StateDB S} (env : Env).
Notation config := (chainConfig env).
Notation number := (envNumber env).
Notation VMM := (M (VM S) vmErr).

Lemma enforceRestrictions_keeps op o : KeepsS (enforceRestrictions (S := S) env op o).
Proof. unfold enforceRestrictions. keeps. Qed.

Lemma memorySizeOf_keeps N o : OpGas N o -> KeepsS (memorySizeOf (S := S) o).
Proof.
  intros Ho. pose proof (og_memory _ _ Ho). unfold memorySizeOf.
  destruct (oMemorySize o); [|done]. apply KeepsS_bind; [done|]. keeps.
Qed.

Lemma chargeGas_spec N o ms v :
  OpGas N o -> is_u64 (gasOf v) ->
  let (r, v') := chargeGas (S := S) o ms v in
  match r with
  | Ok _ => exists cost v2, oGasCost o ms v = (Ok cost, v2) /\ 0 <= cost <= gasOf v /\
      vmStack v' = vmStack v /\ vmEvm v' = vmEvm v2 /\ gasOf v' = gasOf v - cost
  | NoFuel => False
  | _ => gasOf v' = gasOf v
  end.
Proof.
  intros Ho Hv. unfold chargeGas. destruct (og_keeps _ _ Ho ms v) as (Ec & Es & Nf).
  destruct (oGasCost o ms v) as [[cost| | |] v2] eqn:E; cbn [fst snd] in *; try done; try congruence.
  unfold UseGas. rewrite Ec. destruct (_ <? cost) eqn:El; [by rewrite Ec|]. bools.
  exists cost, v2. split_and!; try done; try lia. by eapply (og_cost _ _ Ho).
Qed.

Lemma KeepsS_stay {A B} (m : VMM A) (k : A -> VMM B) v (Q : result vmErr B * VM S -> Prop) :
  KeepsS m ->
  (forall r v1, gasOf v1 = gasOf v -> r <> NoFuel -> (forall b, r <> Ok b) -> Q (r, v1)) ->
  (forall a v1, m v = (Ok a, v1) -> vmContract v1 = vmContract v -> vmStack v1 = vmStack v -> Q (k a v1)) ->
  Q (mbind m k v).
Proof.
  intros Hm Hbad Hgood. destruct (Hm v) as (Ec & Es & N). unfold mbind.
  destruct (m v) as [[a| | |] v1] eqn:E; cbn [fst snd] in *; try done; [by apply Hgood| |];
    apply Hbad; congruence.
Qed.

(** One instruction: gas never grows, and falls when the loop goes on. *)
Definition StepGas (g : Z) (res : result vmErr (option (list byte * option vmErr)) * VM S) : Prop :=
  fst res <> NoFuel /\ 0 <= gasOf (snd res) <= g /\
  (fst res = Ok None -> gasOf (snd res) < g).

Lemma executeTail_gas N o v ms cost v2 v3 :
  OpGas N o -> is_u64 (gasOf v) -> gasOf v <= N ->
  oGasCost o ms v = (Ok cost, v2) -> cost <= gasOf v ->
  vmStack v3 = vmStack v -> vmEvm v3 = vmEvm v2 -> gasOf v3 = gasOf v - cost ->
  StepGas (gasOf v) ((let! res := executeOp o in
              if oReverts o then ret (Some (res, Some errExecutionReverted))
              else if oHalts o then ret (Some (res, None))
              else
                let! _ := if oJumps o then ret tt
                          else modify (fun v => vm_with_pc v (u64 (vmPc v + 1))) in
                ret None) v3).
Proof.
  intros Ho Hv HN Ec Hle Es Ee Eg.
  destruct (og_execute _ _ Ho v ms cost v2 v3) as (Nf & Hg & Hlt); try done.
  unfold mbind at 1, executeOp. destruct (oExecute o v3) as [r v4]. cbn [fst snd] in *.
  assert (E : forall x, gasOf (setReturnData o x v4) = gasOf v4) by
    (intros x; unfold setReturnData; by destruct (oReturns o)).
  destruct r as [res|e| |]; [|split; cbn; [done|split; [by rewrite E|done]]..|done].
  destruct (oReverts o); [split; cbn; [done|by rewrite E]|].
  destruct (oHalts o); [split; cbn; [done|by rewrite E]|].
  specialize (Hlt eq_refl). unfold mbind.
  destruct (oJumps o); split; cbn; try done; rewrite E; lia.
Qed.

Lemma step_gas N callee v :
  DisableGasMetering (vmConfig env) = false -> CalleeBound N callee ->
  is_u64 (gasOf v) -> gasOf v <= N -> StepGas (gasOf v) (step env callee v).
Proof.
  intros Hmeter HB Hv HN. unfold step.
  assert (Hbad : forall r v1, gasOf v1 = gasOf v -> r <> NoFuel -> (forall b, r <> Ok b) ->
    StepGas (gasOf v) (r, v1)).
  { intros r v1 E Nf Ne. unfold is_u64 in Hv. split; [done|]. cbn. split; [lia|by intros ?%Ne]. }
  apply KeepsS_stay; [done..|]. intros ? ? [= <- <-] _ _.
  destruct (jumpTable _ _ _) as [o|] eqn:Ej; [|by apply Hbad].
  pose proof (jumpTable_gas env N callee _ o HB Ej) as Ho.
  apply KeepsS_stay; [|done|].
  { apply KeepsS_lift. unfold makeStackFunc. by repeat case_match. }
  intros _ ? [= _ <-] _ _. apply KeepsS_stay; [apply enforceRestrictions_keeps|done|].
  intros _ v1 _ Ec1 Es1. apply KeepsS_stay; [by eapply memorySizeOf_keeps|by rewrite Ec1|].
  intros ms v2 _ Ec2 Es2. rewrite Hmeter.
  pose proof (chargeGas_spec N o ms v2 Ho) as Hc. rewrite Ec2, Ec1 in Hc. specialize (Hc Hv).
  unfold mbind at 1. destruct (chargeGas o ms v2) as [[[]|e| |] v3]; [|by apply Hbad..].
  destruct Hc as (cost & v' & Ecost & Hcost & Es3 & Ee3 & Eg3).
  rewrite <- Ec1, <- Ec2 in *.
  unfold mbind at 1. destruct (ms >? 0); cbn [modify ret];
    eapply (executeTail_gas N o v2 ms cost v'); try done; cbn; try lia.
Qed.

(** *** Precompiled contracts *)

Lemma getData_fuel d a b : getData d a b <> NoFuel.
Proof. unfold getData. by repeat case_match. Qed.

Lemma rbind_vm_fuel {E A B} (m : result E A) (k : A -> result E B) :
  m <> NoFuel -> (forall a, k a <> NoFuel) -> rbind m k <> NoFuel.
Proof. by destruct m; cbn. Qed.

Lemma pairingPoints_fuel n input : pairingPoints n input <> NoFuel.
Proof.
  revert input. induction n as [|n IH]; intros input; [done|]. cbn [pairingPoints].
  repeat case_match; try done. apply rbind_vm_fuel; [apply IH|]. by intros [].
Qed.

Lemma RunP_fuel p input : RunP p input <> NoFuel.
Proof.
  pose proof getData_fuel as Hd.
  destruct p; cbn [RunP]; try done.
  - unfold ecrecoverRun. cbv zeta. by repeat case_match.
  - apply rbind_vm_fuel; [unfold modExpLens; repeat (apply rbind_vm_fuel; [apply Hd|intros ?]); done|].
    intros [[b e] m]. unfold modExpRun. destruct (_ && _); [done|].
    repeat (apply rbind_vm_fuel; [apply Hd|intros ?]). cbv zeta. by destruct (_ =? 0).
  - unfold curvePoint.
    repeat (apply rbind_vm_fuel; [apply rbind_vm_fuel; [apply Hd|intros ?; by case_match]|intros ?]). done.
  - unfold curvePoint. apply rbind_vm_fuel; [apply rbind_vm_fuel; [apply Hd|intros ?; by case_match]|].
    intros ?. by apply rbind_vm_fuel.
  - destruct (_ >? 0); [done|]. apply rbind_vm_fuel; [apply pairingPoints_fuel|]. by intros [].
Qed.

Lemma bigUint64_nonneg x : 0 <= bigUint64 x.
Proof. unfold bigUint64. by apply Z.mod_pos_bound. Qed.

Lemma RequiredGas_nonneg p input gas : RequiredGas p input = Ok gas -> 0 <= gas.
Proof.
  destruct p; cbn [RequiredGas]; try (by intros [= <-]); try (intros [= <-]; apply u64_range).
  destruct (modExpLens input) as [[[b e] m]| | |]; cbn; try done.
  unfold modExpGas. destruct (if Z.of_nat _ <=? b then _ else _) as [h| | |]; cbn -[bigUint64]; try done.
  intros [= <-]. destruct (_ >? 64); [done|apply bigUint64_nonneg].
Qed.

Lemma RunPrecompiled_gas p input c :
  0 <= cGas c ->
  fst (RunPrecompiledContract p input c) <> NoFuel /\
  0 <= cGas (snd (RunPrecompiledContract p input c)) <= cGas c.
Proof.
  intros Hc. unfold RunPrecompiledContract. pose proof (RequiredGas_nonneg p input) as Hn.
  destruct (RequiredGas p input) as [gas| | |]; [|by split..].
  specialize (Hn gas eq_refl). unfold UseGas. destruct (_ <? gas) eqn:E; cbn; [by split|]. bools.
  pose proof (RunP_fuel p input). split; [by destruct (RunP p input)|lia].
Qed.

(** *** Calls *)

Notation EVMM := (M (EVM S) vmErr).

(** An EVM computation returns, and what it returns satisfies [Q]. *)
Definition Gives {A} (Q : A -> Prop) (m : EVMM A) : Prop :=
  forall e, fst (m e) <> NoFuel /\ forall a, fst (m e) = Ok a -> Q a.

Lemma Gives_bind {A B} (P : A -> Prop) (Q : B -> Prop) (m : EVMM A) (k : A -> EVMM B) :
  Gives P m -> (forall a, P a -> Gives Q (k a)) -> Gives Q (mbind m k).
Proof.
  intros Hm Hk e. unfold mbind. destruct (Hm e) as [N H].
  destruct (m e) as [[a| | |] e1]; cbn [fst] in *; try done. by apply Hk, H.
Qed.

Lemma Gives_ret {A} (Q : A -> Prop) a : Q a -> Gives Q (ret a).
Proof. intros HQ e. split; [done|]. by intros b [= <-]. Qed.

Lemma Gives_any {A B} (Q : B -> Prop) (m : EVMM A) (k : A -> EVMM B) :
  (forall e, fst (m e) <> NoFuel) -> (forall a, Gives Q (k a)) -> Gives Q (mbind m k).
Proof. intros Hm Hk. apply (Gives_bind (fun _ => True)); [|done]. intros e. by split. Qed.

Lemma Gives_panic {A} (Q : A -> Prop) : Gives Q panic.
Proof. intros e. by split. Qed.

Lemma Gives_if {A} (b : bool) (Q : A -> Prop) m1 m2 :
  Gives Q m1 -> Gives Q m2 -> Gives Q (if b then m1 else m2).
Proof. by destruct b. Qed.

Lemma takeSnapshot_fuel (e : EVM S) : fst (takeSnapshot e) <> NoFuel.
Proof. unfold takeSnapshot. by destruct (Snapshot _). Qed.
Lemma revertTo_fuel id (e : EVM S) : fst (revertTo id e) <> NoFuel.
Proof. unfold revertTo. by destruct (RevertToSnapshot _ _). Qed.
Lemma enterContract_fuel c (e : EVM S) : fst (enterContract c e) <> NoFuel.
Proof. by destruct c. Qed.
Lemma ifState_fuel (b : bool) (f : S -> S) e :
  fst ((if b then onStateE f else ret tt) e) <> (NoFuel : result vmErr unit).
Proof. by destruct b. Qed.

Definition runLeft (r : list byte * option vmErr * Contract) : Z := cGas (snd r).
Definition LeftIn {A} (left : A -> Z) (gas : Z) (a : A) : Prop := 0 <= left a <= gas.

(** The loop on machines with less gas than [N]. *)
Definition LoopBound (N : Z) (loopF : VMM (list byte * option vmErr)) : Prop :=
  forall v, is_u64 (gasOf v) -> gasOf v < N -> GasIn 0 (gasOf v) (loopF v).

Section Bounded.
Context (N : Z) (loopF : VMM (list byte * option vmErr)) (HL : LoopBound N loopF).

Lemma Run_gas c input :
  is_u64 (cGas c) -> cGas c < N -> Gives (LeftIn runLeft (cGas c)) (Run loopF c input).
Proof.
  intros Hu HN e. unfold Run. destruct (cCode c); [split; [done|]; intros a [= <-]; split; [apply Hu|done]|].
  match goal with |- context [loopF ?v] => destruct (HL v Hu HN) as [Nf Hg];
    destruct (loopF v) as [[[out err]| | |] v'] end; cbn in *; try by split.
  split; [done|]. by intros a [= <-].
Qed.

Lemma run_gas c input :
  is_u64 (cGas c) -> cGas c < N -> Gives (LeftIn runLeft (cGas c)) (run env loopF c input).
Proof.
  intros Hu HN. unfold run. destruct (cCodeAddr c) as [a|]; [|by apply Run_gas].
  destruct (precompiles env a) as [p|]; [|by apply Run_gas].
  destruct (RunPrecompiled_gas p input c) as [Nf Hg]; [apply Hu|].
  destruct (RunPrecompiledContract p input c) as [r c']. cbn [fst snd] in *. intros e.
  destruct r as [[out err]| | |]; cbn; try by split. split; [done|]. by intros a' [= <-].
Qed.

Lemma settle_gas id gas r :
  LeftIn runLeft gas r -> Gives (LeftIn callLeft gas) (settle id r).
Proof.
  destruct r as [[out [err|]] c]; unfold LeftIn, runLeft; cbn [snd settle]; intros Hr.
  - apply Gives_any; [apply revertTo_fuel|]. intros _. apply Gives_ret. cbn.
    destruct (bool_decide _); lia.
  - by apply Gives_ret.
Qed.

(** Walks through the checks and state changes before a call runs. *)
Ltac gives :=
  repeat (cbv zeta; match goal with
    | |- Gives _ (mbind (gets _) _) => apply Gives_any; [done|intros ?]
    | |- Gives _ (mbind (modify _) _) => apply Gives_any; [done|intros ?]
    | |- Gives _ (mbind takeSnapshot _) => apply Gives_any; [apply takeSnapshot_fuel|intros ?]
    | |- Gives _ (mbind (revertTo _) _) => apply Gives_any; [apply revertTo_fuel|intros ?]
    | |- Gives _ (mbind stateOf _) => apply Gives_any; [done|intros ?]
    | |- Gives _ (mbind (onStateE _) _) => apply Gives_any; [done|intros ?]
    | |- Gives _ (mbind (setReadOnly _) _) => apply Gives_any; [done|intros ?]
    | |- Gives _ (mbind (enterContract _) _) => apply Gives_any; [apply enterContract_fuel|intros ?]
    | |- Gives _ (mbind (if _ then onStateE _ else ret tt) _) =>
        apply Gives_any; [apply ifState_fuel|intros ?]
    | |- Gives _ (if _ then _ else _) => apply Gives_if
    | |- Gives _ (ret _) => apply Gives_ret; unfold LeftIn; cbn; lia
    end).

Lemma runSettle_gas gas c input id :
  cGas c = gas -> is_u64 gas -> gas < N ->
  Gives (LeftIn callLeft gas) (mbind (run env loopF c input) (settle id)).
Proof.
  intros <- Hu HN. eapply Gives_bind; [by apply run_gas|]. intros r. apply settle_gas.
Qed.

Lemma Call_gas caller addr input gas value :
  is_u64 gas -> gas < N -> Gives (LeftIn callLeft gas) (Call env loopF caller addr input gas value).
Proof.
  intros Hu HN. assert (0 <= gas) by apply Hu. unfold Call. gives. by apply runSettle_gas.
Qed.

Lemma CallCode_gas caller addr input gas value :
  is_u64 gas -> gas < N ->
  Gives (LeftIn callLeft gas) (CallCode env loopF caller addr input gas value).
Proof.
  intros Hu HN. assert (0 <= gas) by apply Hu. unfold CallCode. gives. by apply runSettle_gas.
Qed.

Lemma DelegateCall_gas caller addr input gas :
  is_u64 gas -> gas < N ->
  Gives (LeftIn callLeft gas) (DelegateCall env loopF caller addr input gas).
Proof.
  intros Hu HN. assert (0 <= gas) by apply Hu. unfold DelegateCall. gives.
  destruct caller as [|parent]; [apply Gives_panic|]. gives. by apply runSettle_gas.
Qed.

Lemma StaticCall_gas caller addr input gas :
  is_u64 gas -> gas < N ->
  Gives (LeftIn callLeft gas) (StaticCall env loopF caller addr input gas).
Proof.
  intros Hu HN. assert (0 <= gas) by apply Hu. unfold StaticCall. gives.
  eapply (Gives_bind (LeftIn runLeft gas)); [by apply run_gas|]. intros r Hr.
  eapply Gives_bind; [by apply settle_gas|]. intros res Hres. gives. by apply Gives_ret.
Qed.

Lemma deploy_gas addr id gas r :
  LeftIn runLeft gas r -> Gives (LeftIn createLeft gas) (deploy env addr id r).
Proof.
  destruct r as [[out err] c]. unfold LeftIn at 1, runLeft. cbn [snd]. intros Hr. unfold deploy.
  cbv zeta. eapply (Gives_bind (fun r => 0 <= cGas (snd r) <= gas)).
  { apply Gives_if; [|by apply Gives_ret].
    pose proof (u64_range (Z.of_nat (length out) * CreateDataGas)) as Hc. unfold UseGas.
    destruct (_ <? _) eqn:E; bools; [by apply Gives_ret|]. gives. }
  intros [err' c'] Hc'. cbn [snd] in Hc'.
  eapply (Gives_bind (fun c => 0 <= cGas c <= gas)).
  { apply Gives_if; [|by apply Gives_ret]. gives. apply Gives_ret.
    destruct (bool_decide _); cbn; lia. }
  intros c'' Hc''. by apply Gives_ret.
Qed.

Lemma Create_gas caller code gas value :
  is_u64 gas -> gas < N -> Gives (LeftIn createLeft gas) (Create env loopF caller code gas value).
Proof.
  intros Hu HN. assert (0 <= gas) by apply Hu. unfold Create. gives.
  eapply (Gives_bind (LeftIn runLeft gas)); [by apply run_gas|]. intros r. apply deploy_gas.
Qed.

Lemma calleeOf_bound : CalleeBound N (calleeOf env loopF).
Proof.
  split; intros; intros gas e Hu HN;
    [exact (Call_gas _ _ _ gas _ Hu HN e)|exact (CallCode_gas _ _ _ gas _ Hu HN e)|exact (DelegateCall_gas _ _ _ gas Hu HN e)
    |exact (StaticCall_gas _ _ _ gas Hu HN e)|exact (Create_gas _ _ gas _ Hu HN e)].
Qed.

End Bounded.

(** Enough fuel for the gas is enough for the loop. *)
Lemma loop_gas fuel :
  DisableGasMetering (vmConfig env) = false -> LoopBound (Z.of_nat fuel) (loop env fuel).
Proof.
  intros Hm. induction fuel as [|fuel IH]; intros v Hu HN; [unfold is_u64 in Hu; lia|].
  cbn [loop]. destruct (step_gas (Z.of_nat fuel) (calleeOf env (loop env fuel)) v)
    as (Nf & Hg & Hlt); [done|by apply calleeOf_bound|done|lia|].
  destruct (step env (calleeOf env (loop env fuel)) v) as [r v1]. cbn [fst snd] in *.
  destruct r as [[x|]| | |]; try by split.
  specialize (Hlt eq_refl). destruct (IH v1) as [N1 G1]; [unfold is_u64 in *; lia|lia|].
  split; [done|lia].
Qed.

End Loop.
