(* ===== verification/VmFuel.v ===== *)
(** * Package core/vm: the fuel of the interpreter

    The loop of [VmInterp] takes a fuel because Go's recursion between [Run] and
    [Call] has no structural bound.  More fuel never changes a result that is
    there, so with [VmGasProofs] a run has one result, whatever the fuel above its
    gas. *)

From stdpp Require Import base numbers list gmap sets option.
From Stdlib Require Import ZArith Lia Strings.Byte.
From S2P Require Import Prelude Common Params Types VmCore VmGas VmOps VmPrecompiled VmInterp VmGasProofs.

(** [m2] gives the result of [m1], unless that ran out of fuel. *)
Definition Finer {St E A : Type} (m1 m2 : M St E A) : Prop :=
  forall v, fst (m1 v) = NoFuel \/ m1 v = m2 v.

Lemma Finer_refl {St E A} (m : M St E A) : Finer m m.
Proof. intros v. by right. Qed.

Lemma Finer_bind {St E A B} (m1 m2 : M St E A) (k1 k2 : A -> M St E B) :
  Finer m1 m2 -> (forall a, Finer (k1 a) (k2 a)) -> Finer (mbind m1 k1) (mbind m2 k2).
Proof.
  intros Hm Hk v. unfold mbind. destruct (Hm v) as [H|H].
  - left. destruct (m1 v) as [[] ?]; cbn in *; done.
  - rewrite <- H. destruct (m1 v) as [[a| | |] v1]; try by right. apply Hk.
Qed.

Lemma Finer_if {St E A} (b : bool) (m1 m2 n1 n2 : M St E A) :
  Finer m1 m2 -> Finer n1 n2 -> Finer (if b then m1 else n1) (if b then m2 else n2).
Proof. by destruct b. Qed.

Ltac finer :=
  repeat first
    [ apply Finer_refl | apply Finer_bind; [|intros ?] | apply Finer_if | progress cbv zeta
    | progress case_match ].

Section Fuel.
Context {CR : Crypto} {NC : NativeCrypto} {S : Type} {SDB : StateDB S} (env : Env).
Notation VMM := (M (VM S) vmErr).
Notation EVMM := (M (EVM S) vmErr).
Notation operation := (operation (S := S)).

Lemma Finer_onEvm {A} (m1 m2 : EVMM A) : Finer m1 m2 -> Finer (onEvm m1) (onEvm m2).
Proof.
  intros H v. unfold onEvm. destruct (H (vmEvm v)) as [E|E].
  - left. destruct (m1 (vmEvm v)) as [r e]. done.
  - right. by rewrite E.
Qed.

Record FinerCallee (c1 c2 : Callee S) : Prop := {
  fc_call : forall c a i g x, Finer (doCall c1 c a i g x) (doCall c2 c a i g x);
  fc_callCode : forall c a i g x, Finer (doCallCode c1 c a i g x) (doCallCode c2 c a i g x);
  fc_delegate : forall c a i g, Finer (doDelegateCall c1 c a i g) (doDelegateCall c2 c a i g);
  fc_static : forall c a i g, Finer (doStaticCall c1 c a i g) (doStaticCall c2 c a i g);
  fc_create : forall c i g x, Finer (doCreate c1 c i g x) (doCreate c2 c i g x)
}.

(** Operations that differ in their executions only. *)
Definition FinerOp (o1 o2 : option operation) : Prop :=
  match o1, o2 with
  | None, None => True
  | Some o1, Some o2 =>
      o2 = mkOperation (oExecute o2) (oGasCost o1) (oPop o1) (oPush o1) (oMemorySize o1) (oHalts o1)
             (oJumps o1) (oWrites o1) (oReverts o1) (oReturns o1) /\ Finer (oExecute o1) (oExecute o2)
  | _, _ => False
  end.

Lemma FinerOp_refl o : FinerOp o o.
Proof. destruct o as [[]|]; [|done]. split; [done|apply Finer_refl]. Qed.

Section Table.
Context (c1 c2 : Callee S) (HC : FinerCallee c1 c2).

Lemma calls_finer :
  Finer (opCreate env c1) (opCreate env c2) /\ Finer (opCall c1) (opCall c2) /\
  Finer (opCallCode c1) (opCallCode c2) /\ Finer (opDelegateCall c1) (opDelegateCall c2) /\
  Finer (opStaticCall c1) (opStaticCall c2).
Proof.
  destruct HC. unfold opCreate, opCall, opCallCode, opDelegateCall, opStaticCall.
  split_and!; repeat first [apply Finer_onEvm; done | apply Finer_refl | apply Finer_bind; [|intros ?] | progress cbv zeta].
Qed.

Lemma callOp_finer e1 e2 g pop push m w : Finer e1 e2 -> FinerOp (callOp e1 g pop push m w) (callOp e2 g pop push m w).
Proof. by intros H. Qed.

Lemma jumpTable_finer op : FinerOp (jumpTable env c1 op) (jumpTable env c2 op).
Proof.
  destruct calls_finer as (H1 & H2 & H3 & H4 & H5).
  assert (Hf : FinerOp (frontierInstructionSet env c1 op) (frontierInstructionSet env c2 op)).
  { unfold frontierInstructionSet. do 4 (destruct (_ && _); [apply FinerOp_refl|]).
    repeat (case_match; try apply FinerOp_refl; try by apply callOp_finer). }
  assert (Hh : FinerOp (homesteadInstructionSet env c1 op) (homesteadInstructionSet env c2 op)).
  { unfold homesteadInstructionSet. destruct (_ =? _); [by apply callOp_finer|done]. }
  unfold jumpTable, byzantiumInstructionSet.
  repeat (case_match; try done; try apply FinerOp_refl; try by apply callOp_finer).
Qed.

Lemma step_finer : Finer (step env c1) (step env c2).
Proof.
  unfold step. apply Finer_bind; [apply Finer_refl|]. intros v. cbv zeta.
  pose proof (jumpTable_finer (GetOp (vmContract v) (vmPc v))) as H.
  destruct (jumpTable env c1 _) as [o1|], (jumpTable env c2 _) as [o2|]; try done; [|apply Finer_refl].
  destruct H as [E H]. destruct o1 as [e1 g p q m h j w r rr], o2 as [e2 ? ? ? ? ? ? ? ? ?].
  cbn in E, H. injection E as -> -> -> -> -> -> -> -> ->.
  do 5 (apply Finer_bind; [apply Finer_refl|intros ?]).
  apply Finer_bind; [|intros ?; apply Finer_refl].
  intros u. unfold executeOp. cbn [oExecute]. destruct (H u) as [E|E].
  - left. destruct (e1 u) as [rs u']. by cbn in *; subst.
  - right. by rewrite E.
Qed.

End Table.

Section Calls.
Context (l1 l2 : VMM (list byte * option vmErr)) (HL : Finer l1 l2).

Lemma run_finer c input : Finer (run env l1 c input) (run env l2 c input).
Proof.
  assert (HR : Finer (Run l1 c input) (Run l2 c input)).
  { intros e. unfold Run. destruct (cCode c); [by right|].
    match goal with |- context [l1 ?v] => destruct (HL v) as [E|E]; [left|right; by rewrite E] end.
    destruct (l1 _) as [r v]. by cbn in *; subst. }
  unfold run. finer; done.
Qed.

Ltac calls := repeat first [apply run_finer | apply Finer_refl | apply Finer_if | apply Finer_bind; [|intros ?] | progress cbv zeta].

Lemma calls_loop_finer caller gas :
  (forall a i x, Finer (Call env l1 caller a i gas x) (Call env l2 caller a i gas x)) /\
  (forall a i x, Finer (CallCode env l1 caller a i gas x) (CallCode env l2 caller a i gas x)) /\
  (forall a i, Finer (DelegateCall env l1 caller a i gas) (DelegateCall env l2 caller a i gas)) /\
  (forall a i, Finer (StaticCall env l1 caller a i gas) (StaticCall env l2 caller a i gas)) /\
  (forall code x, Finer (Create env l1 caller code gas x) (Create env l2 caller code gas x)).
Proof.
  split_and!; intros; [unfold Call|unfold CallCode|unfold DelegateCall|unfold StaticCall|unfold Create]; calls.
  destruct caller; calls.
Qed.

Lemma calleeOf_finer : FinerCallee (calleeOf env l1) (calleeOf env l2).
Proof.
  split; intros; cbn [calleeOf doCall doCallCode doDelegateCall doStaticCall doCreate];
    apply (calls_loop_finer (ContractCaller c) g).
Qed.

End Calls.

Lemma loop_finer fuel : Finer (loop env fuel) (loop env (Datatypes.S fuel)).
Proof.
  induction fuel as [|fuel IH]; intros v; [by left|].
  change (loop env (Datatypes.S (Datatypes.S fuel)) v) with
    (let '(r, v) := step env (calleeOf env (loop env (Datatypes.S fuel))) v in
      match r with
      | Ok None => loop env (Datatypes.S fuel) v
      | Ok (Some x) => (Ok x, v)
      | Err e => (Ok ([], Some e), v)
      | Panic => (Panic, v)
      | NoFuel => (NoFuel, v)
      end).
  change (loop env (Datatypes.S fuel) v) with
    (let '(r, v) := step env (calleeOf env (loop env fuel)) v in
      match r with
      | Ok None => loop env fuel v
      | Ok (Some x) => (Ok x, v)
      | Err e => (Ok ([], Some e), v)
      | Panic => (Panic, v)
      | NoFuel => (NoFuel, v)
      end).
  destruct (step_finer _ _ (calleeOf_finer _ _ IH) v) as [E|E].
  - left. destruct (step env (calleeOf env (loop env fuel)) v) as [r v1]. by cbn in *; subst.
  - rewrite <- E. destruct (step env (calleeOf env (loop env fuel)) v) as [[[x|]| | |] v1];
      [right; reflexivity|apply IH|right; reflexivity..].
Qed.

Lemma loop_finer_le f1 f2 : (f1 <= f2)%nat -> Finer (loop env f1) (loop env f2).
Proof.
  induction 1 as [|f2 _ IH]; [apply Finer_refl|]. intros v. destruct (IH v) as [E|E]; [by left|].
  destruct (loop_finer f2 v) as [E2|E2]; [left; by rewrite E|right; by rewrite E].
Qed.

(** From the gas on, all fuels give the result that the gas' own fuel gives. *)
Lemma Finer_stable {A} (m : nat -> M (EVM S) vmErr A) (gas : Z) e :
  (forall f1 f2, (f1 <= f2)%nat -> Finer (m f1) (m f2)) ->
  (forall fuel, gas < Z.of_nat fuel -> fst (m fuel e) <> NoFuel) ->
  forall fuel, 0 <= gas < Z.of_nat fuel -> m fuel e = m (Z.to_nat (gas + 1)) e.
Proof.
  intros Hm Hn fuel Hf. destruct (Hm (Z.to_nat (gas + 1)) fuel ltac:(lia) e) as [E|E]; [|done].
  by destruct (Hn (Z.to_nat (gas + 1)) ltac:(lia)).
Qed.

End Fuel.
