(* ===== verification/VmStateSpec.v ===== *)
(** * Package core/vm: what the machine relies on in its state database

    The interface [VmCore.StateDB] lists operations; this file states what they
    promise each other.  [StateDBLaws] is about snapshots: whatever is done after a
    snapshot, reverting to it gives back a state that looks the same.
    [BalanceLaws] is about ether, and [StaticLaws] about the operations that a
    static call may use.  The machine's theorems are proved against these classes;
    [StateLaws] proves them for the database of package core/state. *)

From stdpp Require Import base numbers list gmap sets option.
From Stdlib Require Import ZArith Lia Strings.Byte.
From S2P Require Import Prelude Common Types VmCore.

(** The calls that change a state. *)
Inductive update :=
| UCreateAccount (a : Address)
| USubBalance (a : Address) (x : Z)
| UAddBalance (a : Address) (x : Z)
| USetNonce (a : Address) (n : Z)
| USetCode (a : Address) (code : list byte)
| UAddRefund (gas : Z)
| USetState (a : Address) (k v : Hash)
| USuicide (a : Address)
| UAddLog (l : Log)
| UAddPreimage (h : Hash) (b : list byte).

Section Spec.
Context {S : Type} {SDB : StateDB S}.

Definition runUpdate (u : update) : S -> S :=
  match u with
  | UCreateAccount a => CreateAccount a
  | USubBalance a x => SubBalance a x
  | UAddBalance a x => AddBalance a x
  | USetNonce a n => SetNonce a n
  | USetCode a code => SetCode a code
  | UAddRefund gas => AddRefund gas
  | USetState a k v => SetState a k v
  | USuicide a => Suicide a
  | UAddLog l => AddLog l
  | UAddPreimage h b => AddPreimage h b
  end.

(** Every getter agrees. *)
Record SameView (s s' : S) : Prop := {
  sv_balance : forall a, GetBalance a s' = GetBalance a s;
  sv_nonce : forall a, GetNonce a s' = GetNonce a s;
  sv_codeHash : forall a, GetCodeHash a s' = GetCodeHash a s;
  sv_code : forall a, GetCode a s' = GetCode a s;
  sv_codeSize : forall a, GetCodeSize a s' = GetCodeSize a s;
  sv_state : forall a k, GetState a k s' = GetState a k s;
  sv_suicided : forall a, HasSuicided a s' = HasSuicided a s;
  sv_exist : forall a, Exist a s' = Exist a s;
  sv_empty : forall a, Empty a s' = Empty a s;
  sv_refund : GetRefund s' = GetRefund s
}.

(** What an account holds agrees; whether an empty account exists may not. *)
Record SameData (s s' : S) : Prop := {
  sd_balance : forall a, GetBalance a s' = GetBalance a s;
  sd_nonce : forall a, GetNonce a s' = GetNonce a s;
  sd_code : forall a, GetCode a s' = GetCode a s;
  sd_state : forall a k, GetState a k s' = GetState a k s;
  sd_suicided : forall a, HasSuicided a s' = HasSuicided a s;
  sd_refund : GetRefund s' = GetRefund s
}.

Class StateDBLaws := {
  (** The states that the operations keep to. *)
  sOk : S -> Prop;
  (** States that cannot be told apart. *)
  sEq : S -> S -> Prop;
  #[global] sEq_equivalence :: Equivalence sEq;
  sEq_view : forall s s', sEq s s' -> SameView s s';
  update_ok : forall u s, sOk s -> sOk (runUpdate u s);
  (** An update keeps every snapshot, and what reverting to it gives. *)
  update_reverts : forall u s id s0,
    sOk s -> RevertToSnapshot id s = Some s0 ->
    exists s1, RevertToSnapshot id (runUpdate u s) = Some s1 /\ sEq s0 s1;
  snapshot_ok : forall s id s', sOk s -> Snapshot s = (id, s') -> sOk s' /\ sEq s s';
  (** The new snapshot is the youngest. *)
  snapshot_reverts : forall s id s', sOk s -> Snapshot s = (id, s') ->
    (exists s0, RevertToSnapshot id s' = Some s0 /\ sEq s s0) /\
    forall i s0, RevertToSnapshot i s = Some s0 ->
      i < id /\ exists s1, RevertToSnapshot i s' = Some s1 /\ sEq s0 s1;
  revert_ok : forall s id s', sOk s -> RevertToSnapshot id s = Some s' -> sOk s';
  (** Reverting keeps the older snapshots. *)
  revert_reverts : forall s id s' i s0, sOk s -> RevertToSnapshot id s = Some s' ->
    i < id -> RevertToSnapshot i s = Some s0 ->
    exists s1, RevertToSnapshot i s' = Some s1 /\ sEq s0 s1
}.

(** What an update does to the balance of [b] and to the sum of all balances. *)
Definition balanceAfter (u : update) (b : Address) (s : S) : Z :=
  match u with
  | USubBalance a x => if a =? b then GetBalance b s - x else GetBalance b s
  | UAddBalance a x => if a =? b then GetBalance b s + x else GetBalance b s
  | USuicide a => if a =? b then 0 else GetBalance b s
  | _ => GetBalance b s
  end.
Definition supplyAfter (u : update) (s : S) (supply : Z) : Z :=
  match u with
  | USubBalance a x => supply - x
  | UAddBalance a x => supply + x
  | USuicide a => supply - GetBalance a s
  | _ => supply
  end.
(** The addresses of an update have twenty bytes, keys and values of storage thirty-two. *)
Definition updateAddress (u : update) : Prop :=
  match u with
  | UCreateAccount a | USubBalance a _ | UAddBalance a _ | USetNonce a _ | USetCode a _
  | USuicide a => is_address a
  | USetState a k v => is_address a /\ is_hash k /\ is_hash v
  | UAddRefund _ | UAddLog _ | UAddPreimage _ _ => True
  end.

Class BalanceLaws {SL : StateDBLaws} := {
  (** The sum of all balances. *)
  supply : S -> Z;
  supply_eq : forall s s', sEq s s' -> supply s' = supply s;
  update_balance : forall u b s, sOk s -> GetBalance b (runUpdate u s) = balanceAfter u b s;
  update_supply : forall u s, sOk s -> updateAddress u -> supply (runUpdate u s) = supplyAfter u s (supply s)
}.

Class StaticLaws {SL : StateDBLaws} := {
  create_fresh : forall a s, sOk s -> Exist a s = false -> SameData s (CreateAccount a s);
  add_nothing : forall a s, sOk s -> SameData s (AddBalance a 0 s);
  sub_nothing : forall a s, sOk s -> SameData s (SubBalance a 0 s);
  preimage_data : forall h b s, sOk s -> SameData s (AddPreimage h b s)
}.

(** The refund counter is a uint64. *)
Class RefundLaws {SL : StateDBLaws} := {
  update_refund : forall u s, sOk s -> is_u64 (GetRefund s) -> is_u64 (GetRefund (runUpdate u s))
}.

(** A byte string that an int can index with room to spare. *)
Definition small (b : list byte) : Prop := Z.of_nat (length b) < 2 ^ 62.

Context {CR : Crypto}.

(** Codes are found under their hash and are not absurdly long. *)
Definition CodeOk (s : S) : Prop :=
  forall a, is_address a -> small (GetCode a s) /\ GetCodeSize a s = Z.of_nat (length (GetCode a s)) /\
    (GetCode a s <> [] -> GetCodeHash a s = Keccak256 (GetCode a s)).

Class SafetyLaws {SL : StateDBLaws} {BL : BalanceLaws} := {
  balance_le_supply : forall s a, sOk s -> (forall b, is_address b -> 0 <= GetBalance b s) ->
    is_address a -> GetBalance a s <= supply s;
  update_code : forall u s, sOk s -> CodeOk s ->
    (forall a code, u = USetCode a code -> small code) -> CodeOk (runUpdate u s);
  (** What a database keeps in order while its accounts are used by their addresses. *)
  tidy : S -> Prop;
  update_tidy : forall u s, sOk s -> updateAddress u -> tidy s -> tidy (runUpdate u s);
  snapshot_tidy : forall s id s', sOk s -> Snapshot s = (id, s') -> tidy s -> tidy s';
  revert_tidy : forall s id s', sOk s -> RevertToSnapshot id s = Some s' -> tidy s -> tidy s'
}.

End Spec.
Arguments StateDBLaws S {SDB}.
Arguments BalanceLaws S {SDB SL}.
Arguments StaticLaws S {SDB SL}.
Arguments RefundLaws S {SDB SL}.
Arguments SafetyLaws S {SDB CR SL BL}.
