(* ===== verification/TransactionProofs.v ===== *)
(** * Package core/types: lemmas about transactions

    Recovering senders never panics and gives addresses; signatures go round through
    [WithSignature] and [Sender]; transactions go round through their encoding. *)

From stdpp Require Import base numbers list option.
From Stdlib Require Import ZArith Lia Strings.Byte.
From S2P Require Import Prelude Rlp RlpStream RlpProofs RlpStreamProofs RlpDecodeProofs RlpTypeProofs RlpRawProofs Common Params Types VmCore VmPrecompiled VmStateSpec Transactions.

(** ** Well-formed transactions *)

(** What the Go types of the fields allow, and big integers that are not negative. *)
Record TxOk (tx : Transaction) : Prop := {
  to_nonce : is_u64 (tdNonce (txData tx));
  to_price : 0 <= tdPrice (txData tx);
  to_gas : is_u64 (tdGasLimit (txData tx));
  to_recipient : forall a, tdRecipient (txData tx) = Some a -> is_address a;
  to_amount : 0 <= tdAmount (txData tx);
  to_payload : small (tdPayload (txData tx));
  to_cache : forall s a, txFrom tx = Some (s, a) -> is_address a
}.

(** ** Padding *)

Lemma be_bytes_big n z : 0 <= z < 256 ^ Z.of_nat n -> replicate (n - length (big_bytes z)) x00 ++ big_bytes z = be_bytes n z.
Proof.
  intros Hz. pose proof (big_bytes_length z (Z.of_nat n) Hz ltac:(lia)) as Hl.
  apply be_value_inj; [rewrite length_app, length_replicate, length_be_bytes; lia|].
  rewrite be_value_zeroes, be_value_big_bytes, be_value_be_bytes, Z.mod_small, Z.abs_eq by lia. done.
Qed.

Lemma leftPad32_spec z : 0 <= z < 2 ^ 256 -> leftPad32 (big_bytes z) = Some (be_bytes 32 z).
Proof.
  intros Hz. change (2 ^ 256) with (256 ^ Z.of_nat 32) in Hz. pose proof (big_bytes_length z (Z.of_nat 32) Hz ltac:(lia)) as Hl.
  unfold leftPad32. destruct (Nat.leb_spec (length (big_bytes z)) 32); [|lia]. f_equal. by apply be_bytes_big.
Qed.

Section Signing.
Context {CR : Crypto}.

(** The address of a public key, without its format byte. *)
Definition keyAddress (pub : list byte) : Address := be_value (take 20 (drop 12 (HashBytes (Keccak256 pub)))).

Lemma keyAddress_address pub : is_address (keyAddress pub).
Proof.
  unfold is_address, keyAddress. pose proof (be_value_range (take 20 (drop 12 (HashBytes (Keccak256 pub))))) as H.
  rewrite length_take, length_drop in H. unfold HashBytes in *. rewrite length_be_bytes in H.
  change (256 ^ Z.of_nat (20 `min` (32 - 12))) with (2 ^ 160) in H. lia.
Qed.

Lemma validate_range v r s hs : ValidateSignatureValues v r s hs = true -> 0 < r < 2 ^ 256 /\ 0 < s < 2 ^ 256 /\ (v = 0 \/ v = 1).
Proof.
  assert (HN : secp256k1_N < 2 ^ 256) by (vm_compute; reflexivity).
  unfold ValidateSignatureValues. destruct (Z.ltb_spec r 1); [done|]. destruct (Z.ltb_spec s 1); [done|]. cbn [orb].
  destruct (hs && _); [done|]. rewrite !andb_true_iff, orb_true_iff, !Z.ltb_lt, !Z.eqb_eq. lia.
Qed.

(** Recovery, when the values are valid. *)
Lemma recoverPlain_eq h R S Vb hs v :
  BitLen Vb <= 8 -> u64 (bigUint64 Vb - 27) mod 256 = v -> ValidateSignatureValues v R S hs = true ->
  recoverPlain h R S Vb hs =
  match Ecrecover (HashBytes h) (be_bytes 32 R ++ be_bytes 32 S ++ [byte_of_Z v]) with
  | None => Err errRecovery
  | Some [] => Err errInvalidPublicKey
  | Some (b :: pub) => if negb (byte_to_Z b =? 4) then Err errInvalidPublicKey else Ok (keyAddress pub)
  end.
Proof.
  intros Hb Ev Hv. destruct (validate_range _ _ _ _ Hv) as (HR & HS & Hv01). unfold recoverPlain.
  destruct (Z.gtb_spec (BitLen Vb) 8); [lia|]. rewrite byte_to_of_Z, Ev, Hv. cbn [negb].
  rewrite !leftPad32_spec by lia.
  assert (Eb : byte_of_Z (u64 (bigUint64 Vb - 27)) = byte_of_Z v) by (rewrite <- Ev; symmetry; apply byte_of_Z_mod).
  rewrite Eb. unfold keyAddress. reflexivity.
Qed.

Lemma recoverPlain_ok h R S Vb hs :
  match recoverPlain h R S Vb hs with Ok a => is_address a | Err _ => True | Panic | NoFuel => False end.
Proof.
  destruct (Z.le_gt_cases (BitLen Vb) 8) as [Hb|Hb].
  2: { unfold recoverPlain. by destruct (Z.gtb_spec (BitLen Vb) 8); [|lia]. }
  destruct (ValidateSignatureValues (u64 (bigUint64 Vb - 27) mod 256) R S hs) eqn:Hv.
  - rewrite (recoverPlain_eq _ _ _ _ _ _ Hb eq_refl Hv). destruct (Ecrecover _ _) as [[|b pub]|]; [done| |done].
    destruct (negb _); [done|]. apply keyAddress_address.
  - unfold recoverPlain. destruct (Z.gtb_spec (BitLen Vb) 8); [lia|]. by rewrite byte_to_of_Z, Hv.
Qed.

Lemma senderOf_ok s tx : match senderOf s tx with Ok a => is_address a | Err _ => True | Panic | NoFuel => False end.
Proof.
  destruct s; cbn [senderOf]; try apply recoverPlain_ok. destruct (negb _); [apply recoverPlain_ok|].
  destruct (negb _); [done|]. apply recoverPlain_ok.
Qed.

Lemma Sender_ok s tx :
  TxOk tx -> match fst (Sender s tx) with Ok a => is_address a | Err _ => True | Panic | NoFuel => False end.
Proof.
  intros Htx. pose proof (senderOf_ok s tx) as H. unfold Sender.
  destruct (txFrom tx) as [[s' a]|] eqn:E; [destruct (signerEqual s' s); [by eapply to_cache|]|];
    by destruct (senderOf s tx).
Qed.

Lemma Sender_data s tx : txData (snd (Sender s tx)) = txData tx.
Proof.
  unfold Sender. destruct (txFrom tx) as [[s' a]|]; [destruct (signerEqual s' s); [done|]|]; by destruct (senderOf s tx).
Qed.

Lemma AsMessage_ok s tx :
  TxOk tx ->
  match fst (AsMessage s tx) with
  | Ok m => is_address (msgFrom m) /\ msgTo m = tdRecipient (txData tx) /\ msgNonce m = tdNonce (txData tx) /\
      msgAmount m = tdAmount (txData tx) /\ msgGasLimit m = tdGasLimit (txData tx) /\ msgGasPrice m = tdPrice (txData tx) /\
      msgData m = tdPayload (txData tx) /\ msgCheckNonce m = true
  | Err _ => True
  | Panic | NoFuel => False
  end.
Proof.
  intros Htx. pose proof (Sender_ok s tx Htx) as H. pose proof (Sender_data s tx) as Ed. unfold AsMessage.
  destruct (Sender s tx) as [r tx']. cbn in *. rewrite Ed. by destruct r.
Qed.

(** ** Signing *)

Definition sigR (sig : list byte) : Z := be_value (take 32 sig).
Definition sigS (sig : list byte) : Z := be_value (take 32 (drop 32 sig)).
(** From Homestead on, the upper range of S is not accepted. *)
Definition strict (s : Signer) : bool := match s with FrontierSigner => false | _ => true end.

Lemma sig_parts sig v :
  length sig = 65%nat -> sig !! 64%nat = Some v -> sig = be_bytes 32 (sigR sig) ++ be_bytes 32 (sigS sig) ++ [v].
Proof.
  intros Hl Hv. assert (Hb : forall b, length b = 32%nat -> be_bytes 32 (be_value b) = b).
  { intros b Hb. apply be_value_inj; [by rewrite length_be_bytes|]. rewrite be_value_be_bytes. apply Z.mod_small.
    pose proof (be_value_range b) as Hr. rewrite Hb in Hr. exact Hr. }
  unfold sigR, sigS. rewrite !Hb by (rewrite length_take, ?length_drop; lia).
  rewrite <- (take_drop 32 sig) at 1. f_equal. rewrite <- (take_drop 32 (drop 32 sig)) at 1. f_equal.
  rewrite drop_drop. apply list_eq. intros [|i].
  - rewrite lookup_drop. exact Hv.
  - rewrite lookup_drop, lookup_ge_None_2 by lia. symmetry. by apply lookup_ge_None_2; cbn; lia.
Qed.

(** The transaction with the values of a signature, [V] among them. *)
Definition signedV (s : Signer) (v : Z) : Z :=
  match s with EIP155Signer c => if c =? 0 then v + 27 else v + 35 + c * 2 | _ => v + 27 end.
Definition withValues (V R S : Z) (tx : Transaction) : Transaction :=
  let d := txData tx in
  mkTransaction (mkTxdata (tdNonce d) (tdPrice d) (tdGasLimit d) (tdRecipient d) (tdAmount d) (tdPayload d) V R S) None.

Lemma WithSignature_eq s sig tx v :
  length sig = 65%nat -> sig !! 64%nat = Some v -> byte_to_Z v < 220 ->
  WithSignature s sig tx = Ok (withValues (signedV s (byte_to_Z v)) (sigR sig) (sigS sig) tx).
Proof.
  intros Hl Hv Hs. pose proof (byte_to_Z_range v). unfold WithSignature, SignatureValues. rewrite Hl, Hv. cbn [Nat.eqb negb rbind].
  unfold withValues, signedV, sigR, sigS. do 3 f_equal.
  destruct s as [| |c]; rewrite !byte_to_of_Z, !Z.mod_small by lia; [done..|]. by destruct (Z.eqb_spec c 0).
Qed.

Lemma signerHash_values s V R S tx : signerHash s (withValues V R S tx) = signerHash s tx.
Proof. done. Qed.

Lemma small_V x v : v = 0 \/ v = 1 -> x = v + 27 -> BitLen x <= 8 /\ u64 (bigUint64 x - 27) mod 256 = v.
Proof. by intros [->| ->] ->. Qed.

(** A protected [V] names its chain. *)
Lemma protected_V c v : 0 < c -> v = 0 \/ v = 1 -> isProtectedV (v + 35 + c * 2) = true /\ deriveChainId (v + 35 + c * 2) = c.
Proof.
  intros Hc Hv. split.
  - unfold isProtectedV. destruct (Z.leb_spec (BitLen (v + 35 + c * 2)) 8) as [Hb|]; [|done].
    apply BitLen_le in Hb; [|lia]. unfold bigUint64. rewrite Z.mod_small by lia.
    destruct (Z.eqb_spec (Z.abs (v + 35 + c * 2)) 27), (Z.eqb_spec (Z.abs (v + 35 + c * 2)) 28); lia || done.
  - assert (E : (v + 35 + c * 2 - 35) / 2 = c).
    { replace (v + 35 + c * 2 - 35) with (v + c * 2) by lia. rewrite Z.div_add by lia. by destruct Hv as [->| ->]. }
    unfold deriveChainId. destruct (Z.leb_spec (BitLen (v + 35 + c * 2)) 64) as [Hb|]; [|done].
    apply BitLen_le in Hb; [|lia]. unfold bigUint64. rewrite Z.mod_small, Z.abs_eq by lia.
    destruct (Z.eqb_spec (v + 35 + c * 2) 27), (Z.eqb_spec (v + 35 + c * 2) 28); try lia. cbn [orb].
    rewrite u64_small by (unfold is_u64; lia). done.
Qed.

Lemma sender_of_signature s sig tx v pub :
  (forall c, s = EIP155Signer c -> 0 < c) -> length sig = 65%nat -> sig !! 64%nat = Some v ->
  ValidateSignatureValues (byte_to_Z v) (sigR sig) (sigS sig) (strict s) = true ->
  Ecrecover (HashBytes (signerHash s tx)) sig = Some (x04 :: pub) ->
  exists tx', WithSignature s sig tx = Ok tx' /\ fst (Sender s tx') = Ok (keyAddress pub).
Proof.
  intros Hc Hl Hv Hval Hrec. destruct (validate_range _ _ _ _ Hval) as (_ & _ & Hv01).
  eexists. split; [apply (WithSignature_eq _ _ _ v); [done|done|lia]|]. set (tx' := withValues _ _ _ _).
  assert (Hs : senderOf s tx' = Ok (keyAddress pub)); [|unfold Sender; cbn [txFrom tx' withValues]; by rewrite Hs].
  assert (Hp : forall Vb, Vb = byte_to_Z v + 27 -> recoverPlain (signerHash s tx') (sigR sig) (sigS sig) Vb (strict s) = Ok (keyAddress pub)).
  { intros Vb EV. destruct (small_V Vb (byte_to_Z v) Hv01 EV) as [H1 H2]. rewrite (recoverPlain_eq _ _ _ _ _ _ H1 H2 Hval).
    rewrite byte_of_to_Z, <- (sig_parts sig v Hl Hv). unfold tx'. rewrite signerHash_values, Hrec. done. }
  destruct s as [| |c]; cbn [senderOf strict] in *; [by apply Hp..|].
  specialize (Hc c eq_refl). destruct (protected_V c (byte_to_Z v) Hc Hv01) as [P1 P2].
  assert (EV : tdV (txData tx') = byte_to_Z v + 35 + c * 2).
  { cbn. destruct (Z.eqb_spec c 0); [lia|done]. }
  unfold Protected, txChainId. rewrite EV, P1, P2, Z.eqb_refl. cbn [negb]. apply Hp. lia.
Qed.

(** Elsewhere a protected transaction has no sender. *)
Lemma protected_elsewhere c sig tx v tx' :
  0 < c -> length sig = 65%nat -> sig !! 64%nat = Some v -> byte_to_Z v = 0 \/ byte_to_Z v = 1 ->
  WithSignature (EIP155Signer c) sig tx = Ok tx' ->
  (forall c', c' <> c -> senderOf (EIP155Signer c') tx' = Err ErrInvalidChainId) /\
  senderOf HomesteadSigner tx' = Err ErrInvalidSig /\ senderOf FrontierSigner tx' = Err ErrInvalidSig.
Proof.
  intros Hc Hl Hv Hv01. rewrite (WithSignature_eq _ _ _ v) by (done || lia).
  destruct (protected_V c (byte_to_Z v) Hc Hv01) as [P1 P2]. set (V := byte_to_Z v + 35 + c * 2) in *.
  assert (EV : signedV (EIP155Signer c) (byte_to_Z v) = V) by (cbn; by destruct (Z.eqb_spec c 0); [lia|]). rewrite EV. intros [= <-].
  assert (Hp : forall h R S hs, recoverPlain h R S V hs = Err ErrInvalidSig).
  { intros h R S hs. unfold recoverPlain. destruct (Z.gtb_spec (BitLen V) 8) as [|Hb]; [done|].
    apply BitLen_le in Hb; [|lia]. assert (HV : 37 <= V < 256) by (unfold V in *; lia).
    unfold bigUint64. rewrite Z.abs_eq, (Z.mod_small V), u64_small, byte_to_of_Z, Z.mod_small by (unfold is_u64; lia).
    destruct (ValidateSignatureValues (V - 27) R S hs) eqn:Ev; [|done].
    apply validate_range in Ev as (_ & _ & Hv'). lia. }
  split_and!; [|apply Hp..]. intros c' Hne. unfold senderOf, Protected, txChainId. cbn [txData withValues tdV].
  rewrite P1, P2. cbn [negb]. by destruct (Z.eqb_spec c c').
Qed.

End Signing.

(** ** Encoding *)

Definition txSizeOk (d : txdata) : Prop :=
  is_u64 (tdNonce d) /\ is_u64 (tdGasLimit d) /\ 0 <= tdPrice d < 2 ^ 256 /\ 0 <= tdAmount d < 2 ^ 256 /\
  0 <= tdV d < 2 ^ 256 /\ 0 <= tdR d < 2 ^ 256 /\ 0 <= tdS d < 2 ^ 256 /\ small (tdPayload d) /\
  forall a, tdRecipient d = Some a -> is_address a.

Lemma BytesToAddress_bytes a : is_address a -> BytesToAddress (AddressBytes a) = a.
Proof.
  intros Ha. unfold BytesToAddress. rewrite setBytes_value by done. unfold AddressBytes.
  rewrite be_value_be_bytes. change (256 ^ Z.of_nat 20) with (2 ^ 160). change (256 ^ AddressLength) with (2 ^ 160).
  unfold is_address in Ha. by rewrite !Z.mod_small by (rewrite ?Z.mod_small; lia).
Qed.

Lemma recipient_type to : (forall a, to = Some a -> is_address a) -> hasType (TOptional (TByteArray 20)) (rRecipient to) = true.
Proof.
  intros Ha. destruct to as [a|]; [|done]. unfold rRecipient, rAddress. cbn [hasType rlpBytes].
  assert (Hl : length (AddressBytes a) = 20%nat) by apply length_be_bytes. rewrite Hl. cbn [Nat.eqb andb].
  assert (He : (20 <= length (encString (AddressBytes a)))%nat).
  { pose proof (length_encString (AddressBytes a)) as H. rewrite Hl in H. lia. }
  apply andb_true_iff. split; apply negb_true_iff, bool_decide_eq_false; intros E; rewrite E in He; cbn in He; lia.
Qed.

Lemma tx_type d : txSizeOk d -> hasType txType (txRLP d) = true.
Proof.
  destruct d as [n p g to a d V R S]. unfold txSizeOk. cbn [tdNonce tdGasLimit tdPrice tdAmount tdV tdR tdS tdPayload tdRecipient].
  intros (Hn & Hg & Hp & Ha & HV & HR & HS & _ & Hto). unfold is_u64 in *. unfold txRLP, txType.
  cbn [tdNonce tdGasLimit tdPrice tdAmount tdV tdR tdS tdPayload tdRecipient]. pose proof (recipient_type to Hto) as Ht.
  assert (Hb : forall z, 0 <= z < 2 ^ 256 -> (0 <=? z) = true) by (intros z Hz; apply Z.leb_le; lia).
  assert (Hu : forall z, 0 <= z < 2 ^ 64 -> (0 <=? z) && (z <? 2 ^ 64) = true).
  { intros z Hz. apply andb_true_iff. rewrite Z.leb_le, Z.ltb_lt. lia. }
  change (hasType (TUint 64) (RUint n) && (hasType TBig (RBig (Some p)) && (hasType (TUint 64) (RUint g) &&
    (hasType (TOptional (TByteArray 20)) (rRecipient to) && (hasType TBig (RBig (Some a)) && (true && (hasType TBig (RBig (Some V)) &&
    (hasType TBig (RBig (Some R)) && (hasType TBig (RBig (Some S)) && true)))))))) = true).
  rewrite Ht. cbn [hasType]. by rewrite !Hu, !Hb.
Qed.

Lemma tx_size d : txSizeOk d -> rlpSize (txRLP d) < 2 ^ 64.
Proof.
  destruct d as [n p g to a d V R S]. unfold txSizeOk. cbn [tdNonce tdGasLimit tdPrice tdAmount tdV tdR tdS tdPayload tdRecipient].
  intros (_ & _ & Hp & Ha & HV & HR & HS & Hd & _). unfold small in *.
  assert (Hb : forall z, 0 <= z < 2 ^ 256 -> len (big_bytes z) <= 32).
  { intros z Hz. apply big_bytes_length; [exact Hz|lia]. }
  assert (Hr : rlpSize (rRecipient to) <= 29).
  { destruct to; cbn [rRecipient rAddress rlpSize]; [|cbn; lia]. unfold AddressBytes. rewrite length_be_bytes. lia. }
  unfold txRLP. cbn [rlpSize foldr tdNonce tdGasLimit tdPrice tdAmount tdV tdR tdS tdPayload tdRecipient from_option id].
  pose proof (Hb p Hp). pose proof (Hb a Ha). pose proof (Hb V HV). pose proof (Hb R HR). pose proof (Hb S HS). lia.
Qed.

Lemma tx_back d : txSizeOk d -> txOf (txRLP d) = Some (mkTransaction d None).
Proof.
  destruct d as [n p g to a d V R S]. intros (_ & _ & _ & _ & _ & _ & _ & _ & Hto). unfold txRLP, txOf.
  cbn [tdNonce tdGasLimit tdPrice tdAmount tdV tdR tdS tdPayload tdRecipient] in *.
  destruct to as [x|]; [|done]. unfold rRecipient, rAddress. cbn [base.mbind option_bind].
  by rewrite BytesToAddress_bytes by (by apply Hto).
Qed.

Lemma tx_roundtrip tx :
  txSizeOk (txData tx) ->
  exists b, EncodeToBytes (txRLP (txData tx)) = Ok b /\ decodeTx b = Some (mkTransaction (txData tx) None).
Proof.
  intros Hok. pose proof (tx_size _ Hok) as Hs. destruct (decode_bytes txType (txRLP (txData tx))) as (E1 & E2); [done|by apply tx_type|lia|].
  exists (rlpBytes (txRLP (txData tx))). split; [done|]. unfold decodeTx. rewrite E2. by apply tx_back.
Qed.
