(* ===== verification/State.v ===== *)
(** * Package core/state: the state database

    Accounts as state objects (src/core/state/state_object.go), the journal of
    changes (journal.go) and the database that keeps them (statedb.go).

    Objects live in the map [stateObjects] and the source changes them through
    pointers into it; here an operation takes the object out of the map and puts it
    back under its address, which is why an object has no address of its own.  The
    callback [onDirty] is a flag that says whether it is still set.  Tries, the code
    store and their commit are the interface [Database] of database.go.

    The module is named after the package, as its operations have the names of the
    interface that [VmCore.StateDB] is. *)

From stdpp Require Import base numbers list gmap sets option sorting.
From Stdlib Require Import ZArith Lia Strings.Byte.
From S2P Require Import Prelude Rlp RlpStream Common Types VmCore.

(** ** [sort.Search] of Go's standard library: the least index in [i, j) where [f]
    holds, by bisection, or [j]. *)
Fixpoint searchLoop (fuel : nat) (i j : nat) (f : nat -> bool) : nat :=
  match fuel with
  | O => i
  | S fuel =>
      if (i <? j)%nat then
        let h := ((i + j) / 2)%nat in
        if f h then searchLoop fuel i h f else searchLoop fuel (h + 1) j f
      else i
  end.
Definition search (n : nat) (f : nat -> bool) : nat := searchLoop n 0 n f.

Module state.

Record Account := mkAccount {
  Nonce : Z;
  Balance : Z;
  Root : Hash;
  CodeHash : Hash
}.

(** ** database.go: what the package asks of tries and their store *)

Class Database (D T : Type) := {
  OpenTrie : D -> Hash -> option T;
  (** With the hash of the account's address. *)
  OpenStorageTrie : D -> Hash -> Hash -> option T;
  (** The trie that opens under the zero hash. *)
  EmptyTrie : T;
  ContractCode : D -> Hash -> Hash -> option (list byte);
  (** [None] is an error, [Some []] a key that is absent. *)
  TryGet : T -> list byte -> option (list byte);
  TryUpdate : T -> list byte -> list byte -> option T;
  TryDelete : T -> list byte -> option T;
  TrieHash : T -> Hash;
  (** Commits a trie, calling back for each leaf and its parent. *)
  TrieCommit : T -> (list byte -> Hash -> D -> D) -> D -> option (Hash * T * D);
  (** [TrieDB().Insert] and [TrieDB().Reference] *)
  InsertCode : Hash -> list byte -> D -> D;
  Reference : Hash -> Hash -> D -> D
}.

(** ** Accounts and storage values as the tries keep them *)

(** The nonce is a uint64. *)
Definition accountRLP (a : Account) : rlpValue :=
  RList [RUint (u64 (Nonce a)); RBig (Some (Balance a)); rHash (Root a); rHash (CodeHash a)].
Definition accountType : goType := TStruct [TUint 64; TBig; TByteArray 32; TByteArray 32].

(** [rlp.DecodeBytes(enc, &data)] *)
Definition decodeAccount (enc : list byte) : option Account :=
  match DecodeBytes enc accountType with
  | Ok (RList [RUint nonce; RBig (Some balance); RBytes root; RBytes codeHash]) =>
      Some (mkAccount nonce balance (BytesToHash root) (BytesToHash codeHash))
  | _ => None
  end.

(** The content that [rlp.Split] finds. *)
Definition rlpSplit (enc : list byte) : option (list byte) :=
  match Split enc with Ok (_, content, _) => Some content | _ => None end.

(** ** state_object.go *)

Record stateObject {T : Type} := mkObject {
  oData : Account;
  oDbErr : bool;
  oTrie : option T;
  oCode : option (list byte);
  cachedStorage : gmap Hash Hash;
  dirtyStorage : gmap Hash Hash;
  dirtyCode : bool;
  suicided : bool;
  touched : bool;
  deleted : bool;
  (** Whether the callback is set. *)
  onDirty : bool
}.
Arguments stateObject : clear implicits.
Arguments mkObject {T}.

(** ** journal.go *)

Inductive journalEntry {T : Type} :=
| createObjectChange (account : Address)
| resetObjectChange (account : Address) (prev : stateObject T)
| suicideChange (account : Address) (prev : bool) (prevbalance : Z)
| balanceChange (account : Address) (prev : Z)
| nonceChange (account : Address) (prev : Z)
| storageChange (account : Address) (key prevalue : Hash)
| codeChange (account : Address) (prevcode : option (list byte)) (prevhash : Hash)
| refundChange (prev : Z)
| addLogChange (txhash : Hash)
| addPreimageChange (hash : Hash)
| touchChange (account : Address) (prev prevDirty : bool).
Arguments journalEntry : clear implicits.

(** ** statedb.go *)

Record revision := mkRevision { revId : Z; journalIndex : nat }.

(** A log with the fields that the database derives. *)
Record DerivedLog := mkDerivedLog {
  dLog : Log;
  dTxHash : Hash;
  dBlockHash : Hash;
  dTxIndex : Z;
  dIndex : Z
}.

Record StateDB {D T : Type} := mkStateDB {
  db : D;
  trie : T;
  stateObjects : gmap Address (stateObject T);
  stateObjectsDirty : gset Address;
  refund : Z;
  thash : Hash;
  bhash : Hash;
  txIndex : Z;
  logs : gmap Hash (list DerivedLog);
  logSize : Z;
  preimages : gmap Hash (list byte);
  journal : list (journalEntry T);
  validRevisions : list revision;
  nextRevisionId : Z
}.
Arguments StateDB : clear implicits.
Arguments mkStateDB {D T}.

Definition ripemd : Address := 3.

(** ** Field updates *)

Section Fields.
Context {D T : Type}.

Definition o_with_oData (x : Account) (o : stateObject T) : stateObject T :=
  mkObject x (oDbErr o) (oTrie o) (oCode o) (cachedStorage o) (dirtyStorage o) (dirtyCode o)
    (suicided o) (touched o) (deleted o) (onDirty o).
Definition o_with_oDbErr (x : bool) (o : stateObject T) : stateObject T :=
  mkObject (oData o) x (oTrie o) (oCode o) (cachedStorage o) (dirtyStorage o) (dirtyCode o)
    (suicided o) (touched o) (deleted o) (onDirty o).
Definition o_with_oTrie (x : option T) (o : stateObject T) : stateObject T :=
  mkObject (oData o) (oDbErr o) x (oCode o) (cachedStorage o) (dirtyStorage o) (dirtyCode o)
    (suicided o) (touched o) (deleted o) (onDirty o).
Definition o_with_oCode (x : option (list byte)) (o : stateObject T) : stateObject T :=
  mkObject (oData o) (oDbErr o) (oTrie o) x (cachedStorage o) (dirtyStorage o) (dirtyCode o)
    (suicided o) (touched o) (deleted o) (onDirty o).
Definition o_with_cachedStorage (x : gmap Hash Hash) (o : stateObject T) : stateObject T :=
  mkObject (oData o) (oDbErr o) (oTrie o) (oCode o) x (dirtyStorage o) (dirtyCode o) (suicided
    o) (touched o) (deleted o) (onDirty o).
Definition o_with_dirtyStorage (x : gmap Hash Hash) (o : stateObject T) : stateObject T :=
  mkObject (oData o) (oDbErr o) (oTrie o) (oCode o) (cachedStorage o) x (dirtyCode o) (suicided
    o) (touched o) (deleted o) (onDirty o).
Definition o_with_dirtyCode (x : bool) (o : stateObject T) : stateObject T :=
  mkObject (oData o) (oDbErr o) (oTrie o) (oCode o) (cachedStorage o) (dirtyStorage o) x
    (suicided o) (touched o) (deleted o) (onDirty o).
Definition o_with_suicided (x : bool) (o : stateObject T) : stateObject T :=
  mkObject (oData o) (oDbErr o) (oTrie o) (oCode o) (cachedStorage o) (dirtyStorage o)
    (dirtyCode o) x (touched o) (deleted o) (onDirty o).
Definition o_with_touched (x : bool) (o : stateObject T) : stateObject T :=
  mkObject (oData o) (oDbErr o) (oTrie o) (oCode o) (cachedStorage o) (dirtyStorage o)
    (dirtyCode o) (suicided o) x (deleted o) (onDirty o).
Definition o_with_deleted (x : bool) (o : stateObject T) : stateObject T :=
  mkObject (oData o) (oDbErr o) (oTrie o) (oCode o) (cachedStorage o) (dirtyStorage o)
    (dirtyCode o) (suicided o) (touched o) x (onDirty o).
Definition o_with_onDirty (x : bool) (o : stateObject T) : stateObject T :=
  mkObject (oData o) (oDbErr o) (oTrie o) (oCode o) (cachedStorage o) (dirtyStorage o)
    (dirtyCode o) (suicided o) (touched o) (deleted o) x.

Definition with_db (x : D) (s : StateDB D T) : StateDB D T :=
  mkStateDB x (trie s) (stateObjects s) (stateObjectsDirty s) (refund s) (thash s) (bhash s)
    (txIndex s) (logs s) (logSize s) (preimages s) (journal s) (validRevisions s)
    (nextRevisionId s).
Definition with_trie (x : T) (s : StateDB D T) : StateDB D T :=
  mkStateDB (db s) x (stateObjects s) (stateObjectsDirty s) (refund s) (thash s) (bhash s)
    (txIndex s) (logs s) (logSize s) (preimages s) (journal s) (validRevisions s)
    (nextRevisionId s).
Definition with_stateObjects (x : gmap Address (stateObject T)) (s : StateDB D T) : StateDB D T :=
  mkStateDB (db s) (trie s) x (stateObjectsDirty s) (refund s) (thash s) (bhash s) (txIndex s)
    (logs s) (logSize s) (preimages s) (journal s) (validRevisions s) (nextRevisionId s).
Definition with_stateObjectsDirty (x : gset Address) (s : StateDB D T) : StateDB D T :=
  mkStateDB (db s) (trie s) (stateObjects s) x (refund s) (thash s) (bhash s) (txIndex s) (logs
    s) (logSize s) (preimages s) (journal s) (validRevisions s) (nextRevisionId s).
Definition with_refund (x : Z) (s : StateDB D T) : StateDB D T :=
  mkStateDB (db s) (trie s) (stateObjects s) (stateObjectsDirty s) x (thash s) (bhash s)
    (txIndex s) (logs s) (logSize s) (preimages s) (journal s) (validRevisions s)
    (nextRevisionId s).
Definition with_logs (x : gmap Hash (list DerivedLog)) (s : StateDB D T) : StateDB D T :=
  mkStateDB (db s) (trie s) (stateObjects s) (stateObjectsDirty s) (refund s) (thash s) (bhash
    s) (txIndex s) x (logSize s) (preimages s) (journal s) (validRevisions s) (nextRevisionId
    s).
Definition with_logSize (x : Z) (s : StateDB D T) : StateDB D T :=
  mkStateDB (db s) (trie s) (stateObjects s) (stateObjectsDirty s) (refund s) (thash s) (bhash
    s) (txIndex s) (logs s) x (preimages s) (journal s) (validRevisions s) (nextRevisionId s).
Definition with_preimages (x : gmap Hash (list byte)) (s : StateDB D T) : StateDB D T :=
  mkStateDB (db s) (trie s) (stateObjects s) (stateObjectsDirty s) (refund s) (thash s) (bhash
    s) (txIndex s) (logs s) (logSize s) x (journal s) (validRevisions s) (nextRevisionId s).
Definition with_journal (x : list (journalEntry T)) (s : StateDB D T) : StateDB D T :=
  mkStateDB (db s) (trie s) (stateObjects s) (stateObjectsDirty s) (refund s) (thash s) (bhash
    s) (txIndex s) (logs s) (logSize s) (preimages s) x (validRevisions s) (nextRevisionId s).
Definition with_validRevisions (x : list revision) (s : StateDB D T) : StateDB D T :=
  mkStateDB (db s) (trie s) (stateObjects s) (stateObjectsDirty s) (refund s) (thash s) (bhash
    s) (txIndex s) (logs s) (logSize s) (preimages s) (journal s) x (nextRevisionId s).
Definition with_nextRevisionId (x : Z) (s : StateDB D T) : StateDB D T :=
  mkStateDB (db s) (trie s) (stateObjects s) (stateObjectsDirty s) (refund s) (thash s) (bhash
    s) (txIndex s) (logs s) (logSize s) (preimages s) (journal s) (validRevisions s) x.

Definition a_with_Nonce (x : Z) (a : Account) : Account := mkAccount x (Balance a) (Root a) (CodeHash a).
Definition a_with_Balance (x : Z) (a : Account) : Account := mkAccount (Nonce a) x (Root a) (CodeHash a).
Definition a_with_Root (x : Hash) (a : Account) : Account := mkAccount (Nonce a) (Balance a) x (CodeHash a).
Definition a_with_CodeHash (x : Hash) (a : Account) : Account := mkAccount (Nonce a) (Balance a) (Root a) x.

End Fields.

Section Operations.
Context {CR : Crypto} {D T : Type} {DB : Database D T}.
Notation object := (stateObject T).
Notation statedb := (StateDB D T).

Definition emptyCodeHash : Hash := Keccak256 [].

Definition addrHash (a : Address) : Hash := Keccak256 (AddressBytes a).

(** [newObject]; the nil balance of a fresh [Account] is 0 already. *)
Definition newObject (data : Account) (dirty : bool) : object :=
  mkObject (if CodeHash data =? 0 then a_with_CodeHash emptyCodeHash data else data)
    false None None ∅ ∅ false false false false dirty.

Definition empty (o : object) : bool :=
  (Nonce (oData o) =? 0) && (Balance (oData o) =? 0) && (CodeHash (oData o) =? emptyCodeHash).

Definition MarkStateObjectDirty (a : Address) (s : statedb) : statedb :=
  with_stateObjectsDirty ({[a]} ∪ stateObjectsDirty s) s.

Definition setStateObject (a : Address) (o : object) (s : statedb) : statedb :=
  with_stateObjects (<[a := o]> (stateObjects s)) s.

Definition append (e : journalEntry T) (s : statedb) : statedb :=
  with_journal (journal s ++ [e]) s.

(** The end of every setter: call [onDirty] once. *)
Definition fireDirty (a : Address) (o : object) (s : statedb) : object * statedb :=
  if onDirty o then (o_with_onDirty false o, MarkStateObjectDirty a s) else (o, s).

(** The setter's object goes back to the map. *)
Definition putDirty (a : Address) (o : object) (s : statedb) : statedb :=
  let '(o, s) := fireDirty a o s in setStateObject a o s.

Definition getStateObject (a : Address) (s : statedb) : option object * statedb :=
  match stateObjects s !! a with
  | Some o => (if deleted o then None else Some o, s)
  | None =>
      match TryGet (trie s) (AddressBytes a) with
      | None | Some [] => (None, s)
      | Some enc =>
          match decodeAccount enc with
          | None => (None, s)
          | Some data => let o := newObject data true in (Some o, setStateObject a o s)
          end
      end
  end.

(** The new object and the previous one. *)
Definition createObject (a : Address) (s : statedb) : object * option object * statedb :=
  let '(prev, s) := getStateObject a s in
  let '(newobj, s) := fireDirty a (newObject (mkAccount 0 0 0 0) true) s in
  let s := append (match prev with
                   | None => createObjectChange a
                   | Some o => resetObjectChange a o
                   end) s in
  (newobj, prev, setStateObject a newobj s).

Definition GetOrNewStateObject (a : Address) (s : statedb) : object * statedb :=
  let '(o, s) := getStateObject a s in
  match o with
  | Some o => (o, s)
  | None => let '(o, _, s) := createObject a s in (o, s)
  end.

(** *** Methods of stateObject that change it *)

Definition so_setBalance (a : Address) (amount : Z) (o : object) : statedb -> statedb :=
  putDirty a (o_with_oData (a_with_Balance amount (oData o)) o).
Definition so_setNonce (a : Address) (nonce : Z) (o : object) : statedb -> statedb :=
  putDirty a (o_with_oData (a_with_Nonce nonce (oData o)) o).
Definition so_setCode (a : Address) (hash : Hash) (code : option (list byte)) (o : object) : statedb -> statedb :=
  putDirty a (o_with_dirtyCode true (o_with_oCode code (o_with_oData (a_with_CodeHash hash (oData o)) o))).
Definition so_setState (a : Address) (key value : Hash) (o : object) : statedb -> statedb :=
  putDirty a (o_with_dirtyStorage (<[key := value]> (dirtyStorage o))
               (o_with_cachedStorage (<[key := value]> (cachedStorage o)) o)).
Definition so_markSuicided (a : Address) (o : object) : statedb -> statedb :=
  putDirty a (o_with_suicided true o).

Definition so_touch (a : Address) (o : object) (s : statedb) : statedb :=
  putDirty a (o_with_touched true o) (append (touchChange a (touched o) (negb (onDirty o))) s).

Definition so_SetBalance (a : Address) (amount : Z) (o : object) (s : statedb) : statedb :=
  so_setBalance a amount o (append (balanceChange a (Balance (oData o))) s).
Definition so_SetNonce (a : Address) (nonce : Z) (o : object) (s : statedb) : statedb :=
  so_setNonce a nonce o (append (nonceChange a (Nonce (oData o))) s).

Definition so_AddBalance (a : Address) (amount : Z) (o : object) (s : statedb) : statedb :=
  if amount =? 0 then if empty o then so_touch a o s else s
  else so_SetBalance a (Balance (oData o) + amount) o s.
Definition so_SubBalance (a : Address) (amount : Z) (o : object) (s : statedb) : statedb :=
  if amount =? 0 then s else so_SetBalance a (Balance (oData o) - amount) o s.

Definition setError (b : bool) (o : object) : object := o_with_oDbErr (oDbErr o || b) o.

(** The storage trie, opened on first use; an empty one when that fails. *)
Definition getTrie (d : D) (a : Address) (o : object) : T * object :=
  match oTrie o with
  | Some t => (t, o)
  | None =>
      match OpenStorageTrie d (addrHash a) (Root (oData o)) with
      | Some t => (t, o_with_oTrie (Some t) o)
      | None => (EmptyTrie, setError true (o_with_oTrie (Some EmptyTrie) o))
      end
  end.

Definition so_GetState (d : D) (a : Address) (key : Hash) (o : object) : Hash * object :=
  match cachedStorage o !! key with
  | Some value => (value, o)
  | None =>
      let '(t, o) := getTrie d a o in
      match TryGet t (HashBytes key) with
      | None => (0, setError true o)
      | Some enc =>
          let '(value, o) :=
            match enc with
            | [] => (0, o)
            | _ => match rlpSplit enc with
                   | Some content => (BytesToHash content, o)
                   | None => (0, setError true o)
                   end
            end in
          (value, o_with_cachedStorage (<[key := value]> (cachedStorage o)) o)
      end
  end.

Definition so_SetState (a : Address) (key value : Hash) (o : object) (s : statedb) : statedb :=
  let '(prev, o) := so_GetState (db s) a key o in
  so_setState a key value o (append (storageChange a key prev) s).

(** [None] is nil. *)
Definition so_Code (d : D) (a : Address) (o : object) : option (list byte) * object :=
  match oCode o with
  | Some code => (Some code, o)
  | None =>
      if CodeHash (oData o) =? emptyCodeHash then (None, o)
      else
        match ContractCode d (addrHash a) (CodeHash (oData o)) with
        | Some code => (Some code, o_with_oCode (Some code) o)
        | None => (None, setError true o)
        end
  end.

Definition so_SetCode (a : Address) (hash : Hash) (code : list byte) (o : object) (s : statedb) : statedb :=
  let '(prev, o) := so_Code (db s) a o in
  so_setCode a hash (Some code) o (append (codeChange a prev (CodeHash (oData o))) s).

(** One entry of [updateTrie]'s loop; [bytes.TrimLeft] drops the leading zeros. *)
Definition updateEntry (t : T) (o : object) (key value : Hash) : T * object :=
  let o := o_with_dirtyStorage (delete key (dirtyStorage o)) o in
  let r := if EmptyHash value then TryDelete t (HashBytes key)
           else TryUpdate t (HashBytes key) (rlpEncode (RBytes (big_bytes value))) in
  match r with
  | Some t => (t, o)
  | None => (t, setError true o)
  end.

(** The loop over the map [dirtyStorage]; Go does not fix its order. *)
Definition updateTrie (d : D) (a : Address) (o : object) : T * object :=
  let '(t, o) := getTrie d a o in
  let '(t, o) := foldl (fun '(t, o) '(k, v) => updateEntry t o k v) (t, o)
                   (map_to_list (dirtyStorage o)) in
  (t, o_with_oTrie (Some t) o).

Definition updateRoot (d : D) (a : Address) (o : object) : object :=
  let '(t, o) := updateTrie d a o in
  o_with_oData (a_with_Root (TrieHash t) (oData o)) o.

(** Error or the object and the database after the commit. *)
Definition CommitTrie (a : Address) (o : object) (d : D) : option (object * D) :=
  let '(t, o) := updateTrie d a o in
  if oDbErr o then None
  else
    match TrieCommit t (fun _ _ d => d) d with
    | Some (root, t, d) =>
        Some (o_with_oData (a_with_Root root (oData o)) (o_with_oTrie (Some t) o), d)
    | None => None
    end.

Definition deepCopy (o : object) (dirty : bool) : object :=
  let c := newObject (oData o) dirty in
  mkObject (oData c) false (oTrie o) (oCode o) (dirtyStorage o) (dirtyStorage o) (dirtyCode o)
    (suicided o) false (deleted o) dirty.

(** *** Reading

    The source's getters also cache what they read; [cached] below says which state
    they leave behind. *)

Definition look {A} (f : object -> A) (dflt : A) (a : Address) (s : statedb) : A :=
  match fst (getStateObject a s) with Some o => f o | None => dflt end.

Definition Exist (a : Address) (s : statedb) : bool := look (fun _ => true) false a s.
Definition Empty (a : Address) (s : statedb) : bool := look empty true a s.
Definition GetBalance (a : Address) (s : statedb) : Z := look (fun o => Balance (oData o)) 0 a s.
Definition GetNonce (a : Address) (s : statedb) : Z := look (fun o => Nonce (oData o)) 0 a s.
Definition GetCode (a : Address) (s : statedb) : list byte :=
  look (fun o => default [] (fst (so_Code (db s) a o))) [] a s.
Definition GetCodeSize (a : Address) (s : statedb) : Z :=
  look (fun o => Z.of_nat (length
          match oCode o with
          | Some code => code
          | None => default [] (ContractCode (db s) (addrHash a) (CodeHash (oData o)))
          end)) 0 a s.
Definition GetCodeHash (a : Address) (s : statedb) : Hash := look (fun o => CodeHash (oData o)) 0 a s.
Definition GetState (a : Address) (key : Hash) (s : statedb) : Hash :=
  look (fun o => fst (so_GetState (db s) a key o)) 0 a s.
Definition HasSuicided (a : Address) (s : statedb) : bool := look suicided false a s.
Definition GetRefund (s : statedb) : Z := refund s.
Definition GetLogs (h : Hash) (s : statedb) : list DerivedLog := default [] (logs s !! h).

(** The states that reading leaves behind: of the getters that only look the
    object up, of [GetCode] and of [GetState]. *)
Definition cacheObject (a : Address) (s : statedb) : statedb := snd (getStateObject a s).
Definition cacheWith (f : object -> object) (a : Address) (s : statedb) : statedb :=
  let '(o, s) := getStateObject a s in
  match o with Some o => setStateObject a (f o) s | None => s end.
Definition cacheCode (a : Address) (s : statedb) : statedb :=
  cacheWith (fun o => snd (so_Code (db s) a o)) a s.
Definition cacheState (a : Address) (key : Hash) (s : statedb) : statedb :=
  cacheWith (fun o => snd (so_GetState (db s) a key o)) a s.

(** *** Writing *)

Definition AddBalance (a : Address) (amount : Z) (s : statedb) : statedb :=
  let '(o, s) := GetOrNewStateObject a s in so_AddBalance a amount o s.
Definition SubBalance (a : Address) (amount : Z) (s : statedb) : statedb :=
  let '(o, s) := GetOrNewStateObject a s in so_SubBalance a amount o s.
Definition SetBalance (a : Address) (amount : Z) (s : statedb) : statedb :=
  let '(o, s) := GetOrNewStateObject a s in so_SetBalance a amount o s.
Definition SetNonce (a : Address) (nonce : Z) (s : statedb) : statedb :=
  let '(o, s) := GetOrNewStateObject a s in so_SetNonce a nonce o s.
Definition SetCode (a : Address) (code : list byte) (s : statedb) : statedb :=
  let '(o, s) := GetOrNewStateObject a s in so_SetCode a (Keccak256 code) code o s.
Definition SetState (a : Address) (key value : Hash) (s : statedb) : statedb :=
  let '(o, s) := GetOrNewStateObject a s in so_SetState a key value o s.

(** The flag, and the balance that is cleared after it. *)
Definition Suicide (a : Address) (s : statedb) : bool * statedb :=
  let '(o, s) := getStateObject a s in
  match o with
  | None => (false, s)
  | Some o =>
      let s := append (suicideChange a (suicided o) (Balance (oData o))) s in
      (true, so_markSuicided a (o_with_oData (a_with_Balance 0 (oData o)) o) s)
  end.

Definition CreateAccount (a : Address) (s : statedb) : statedb :=
  let '(newobj, prev, s) := createObject a s in
  match prev with
  | Some p => so_setBalance a (Balance (oData p)) newobj s
  | None => s
  end.

Definition AddLog (l : Log) (s : statedb) : statedb :=
  let s := append (addLogChange (thash s)) s in
  let d := mkDerivedLog l (thash s) (bhash s) (txIndex s) (logSize s) in
  with_logSize (logSize s + 1)
    (with_logs (<[thash s := default [] (logs s !! thash s) ++ [d]]> (logs s)) s).

Definition AddPreimage (h : Hash) (preimage : list byte) (s : statedb) : statedb :=
  match preimages s !! h with
  | Some _ => s
  | None => with_preimages (<[h := preimage]> (preimages s)) (append (addPreimageChange h) s)
  end.

Definition AddRefund (gas : Z) (s : statedb) : statedb :=
  with_refund (u64 (refund s + gas)) (append (refundChange (refund s)) s).

Definition Prepare (th bh : Hash) (ti : Z) (s : statedb) : statedb :=
  mkStateDB (db s) (trie s) (stateObjects s) (stateObjectsDirty s) (refund s) th bh ti
    (logs s) (logSize s) (preimages s) (journal s) (validRevisions s) (nextRevisionId s).

(** *** Undoing: [None] is the panic of a method call on a nil object. *)

Definition onObject (a : Address) (f : object -> statedb -> statedb) (s : statedb) : option statedb :=
  let '(o, s) := getStateObject a s in
  match o with Some o => Some (f o s) | None => None end.

Definition undo (ch : journalEntry T) (s : statedb) : option statedb :=
  match ch with
  | createObjectChange a =>
      Some (with_stateObjectsDirty (stateObjectsDirty s ∖ {[a]})
             (with_stateObjects (delete a (stateObjects s)) s))
  | resetObjectChange a prev => Some (setStateObject a prev s)
  | suicideChange a prev prevbalance =>
      let '(o, s) := getStateObject a s in
      match o with
      | Some o => Some (so_setBalance a prevbalance (o_with_suicided prev o) s)
      | None => Some s
      end
  | touchChange a prev prevDirty =>
      if negb prev && negb (a =? ripemd) then
        onObject a (fun o s =>
          let s := setStateObject a (o_with_touched prev o) s in
          if prevDirty then s else with_stateObjectsDirty (stateObjectsDirty s ∖ {[a]}) s) s
      else Some s
  | balanceChange a prev => onObject a (so_setBalance a prev) s
  | nonceChange a prev => onObject a (so_setNonce a prev) s
  | codeChange a prevcode prevhash => onObject a (so_setCode a prevhash prevcode) s
  | storageChange a key prevalue => onObject a (so_setState a key prevalue) s
  | refundChange prev => Some (with_refund prev s)
  | addLogChange txhash =>
      let l := default [] (logs s !! txhash) in
      match l with
      | [] => None
      | [_] => Some (with_logSize (logSize s - 1) (with_logs (delete txhash (logs s)) s))
      | _ => Some (with_logSize (logSize s - 1)
                    (with_logs (<[txhash := removelast l]> (logs s)) s))
      end
  | addPreimageChange h => Some (with_preimages (delete h (preimages s)) s)
  end.

(** From the last entry to the first. *)
Definition undoAll (js : list (journalEntry T)) (s : statedb) : option statedb :=
  foldr (fun ch r => match r with Some s => undo ch s | None => None end) (Some s) js.

Definition Snapshot (s : statedb) : Z * statedb :=
  let id := nextRevisionId s in
  (id, with_validRevisions (validRevisions s ++ [mkRevision id (length (journal s))])
         (with_nextRevisionId (id + 1) s)).

Definition RevertToSnapshot (revid : Z) (s : statedb) : option statedb :=
  let revs := validRevisions s in
  let idx := search (length revs)
               (fun i => match revs !! i with Some r => revid <=? revId r | None => false end) in
  match revs !! idx with
  | Some r =>
      if revId r =? revid then
        match undoAll (drop (journalIndex r) (journal s)) s with
        | Some s => Some (with_validRevisions (take idx revs)
                            (with_journal (take (journalIndex r) (journal s)) s))
        | None => None
        end
      else None
  | None => None
  end.

(** *** Between transactions *)

Definition New (root : Hash) (d : D) : option statedb :=
  match OpenTrie d root with
  | None => None
  | Some tr => Some (mkStateDB d tr ∅ ∅ 0 0 0 0 ∅ 0 ∅ [] [] 0)
  end.

Definition clearJournalAndRefund (s : statedb) : statedb :=
  with_refund 0 (with_validRevisions [] (with_journal [] s)).

Definition Reset (root : Hash) (s : statedb) : option statedb :=
  match OpenTrie (db s) root with
  | None => None
  | Some tr =>
      Some (clearJournalAndRefund
              (mkStateDB (db s) tr ∅ ∅ (refund s) 0 0 0 ∅ 0 ∅ (journal s) (validRevisions s)
                 (nextRevisionId s)))
  end.

(** It panics when the account has no encoding.  The errors of the trie are not looked
    at: it stays as it was. *)
Definition updateStateObject (a : Address) (o : object) (s : statedb) : option statedb :=
  match EncodeToBytes (accountRLP (oData o)) with
  | Ok data => Some (with_trie (default (trie s) (TryUpdate (trie s) (AddressBytes a) data)) s)
  | _ => None
  end.

Definition deleteStateObject (a : Address) (o : object) (s : statedb) : statedb :=
  with_trie (default (trie s) (TryDelete (trie s) (AddressBytes a)))
    (setStateObject a (o_with_deleted true o) s).

(** One round of [Finalise]; a dirty address without an object is a nil pointer. *)
Definition finaliseOne (deleteEmptyObjects : bool) (s : statedb) (a : Address) : option statedb :=
  match stateObjects s !! a with
  | None => None
  | Some o =>
      if suicided o || (deleteEmptyObjects && empty o) then Some (deleteStateObject a o s)
      else
        let o := updateRoot (db s) a o in
        updateStateObject a o (setStateObject a o s)
  end.

(** Rounds in the given order; Go does not fix the order of a map. *)
Definition finaliseIn (order : list Address) (deleteEmptyObjects : bool) (s : statedb) : option statedb :=
  foldl (fun r a => match r with Some s => finaliseOne deleteEmptyObjects s a | None => None end)
    (Some s) order.

Definition Finalise (deleteEmptyObjects : bool) (s : statedb) : option statedb :=
  clearJournalAndRefund <$> finaliseIn (elements (stateObjectsDirty s)) deleteEmptyObjects s.

Definition IntermediateRoot (deleteEmptyObjects : bool) (s : statedb) : option (Hash * statedb) :=
  s ← Finalise deleteEmptyObjects s; Some (TrieHash (trie s), s).

(** One round of [Commit] over the objects. *)
Definition commitOne (deleteEmptyObjects : bool) (s : statedb) (a : Address) : result unit statedb :=
  match stateObjects s !! a with
  | None => Ok s
  | Some o =>
      let isDirty := bool_decide (a ∈ stateObjectsDirty s) in
      let undirty s := with_stateObjectsDirty (stateObjectsDirty s ∖ {[a]}) s in
      if suicided o || (isDirty && deleteEmptyObjects && empty o)
      then Ok (undirty (deleteStateObject a o s))
      else if isDirty then
        let '(o, d) := match oCode o with
                       | Some code =>
                           if dirtyCode o
                           then (o_with_dirtyCode false o, InsertCode (CodeHash (oData o)) code (db s))
                           else (o, db s)
                       | None => (o, db s)
                       end in
        match CommitTrie a o d with
        | None => Err tt
        | Some (o, d) =>
            match updateStateObject a o (setStateObject a o (with_db d s)) with
            | None => Panic
            | Some s => Ok (undirty s)
            end
        end
      else Ok (undirty s)
  end.

(** The callback of the account trie's commit. *)
Definition onLeaf (leaf : list byte) (parent : Hash) (d : D) : D :=
  match decodeAccount leaf with
  | None => d
  | Some account =>
      let d := if Root account =? emptyCodeHash then d else Reference (Root account) parent d in
      if CodeHash account =? emptyCodeHash then d else Reference (CodeHash account) parent d
  end.

Definition commitIn (order : list Address) (deleteEmptyObjects : bool) (s : statedb) : result unit statedb :=
  foldl (fun r a => let* s := r in commitOne deleteEmptyObjects s a) (Ok s) order.

Definition Commit (deleteEmptyObjects : bool) (s : statedb) : result unit (Hash * statedb) :=
  let* s := commitIn (elements (dom (stateObjects s))) deleteEmptyObjects s in
  match TrieCommit (trie s) onLeaf (db s) with
  | None => Err tt
  | Some (root, t, d) => Ok (root, clearJournalAndRefund (with_db d (with_trie t s)))
  end.

(** [None] when a dirty address has no object to copy. *)
Definition Copy (s : statedb) : option statedb :=
  if bool_decide (stateObjectsDirty s ⊆ dom (stateObjects s)) then
    Some (mkStateDB (db s) (trie s)
            ((fun o => deepCopy o true) <$> filter (fun '(a, _) => a ∈ stateObjectsDirty s) (stateObjects s))
            (stateObjectsDirty s) (refund s) 0 0 0 (logs s) (logSize s) (preimages s) [] [] 0)
  else None.

End Operations.

(** The database behind the interface of the machine. *)
#[global] Instance vmStateDB {CR : Crypto} {D T} {DB : Database D T} : VmCore.StateDB (StateDB D T) := {
  VmCore.CreateAccount := CreateAccount;
  VmCore.SubBalance := SubBalance;
  VmCore.AddBalance := AddBalance;
  VmCore.GetBalance := GetBalance;
  VmCore.GetNonce := GetNonce;
  VmCore.SetNonce := SetNonce;
  VmCore.GetCodeHash := GetCodeHash;
  VmCore.GetCode := GetCode;
  VmCore.SetCode := SetCode;
  VmCore.GetCodeSize := GetCodeSize;
  VmCore.AddRefund := AddRefund;
  VmCore.GetRefund := GetRefund;
  VmCore.GetState := GetState;
  VmCore.SetState := SetState;
  VmCore.Suicide a s := snd (Suicide a s);
  VmCore.HasSuicided := HasSuicided;
  VmCore.Exist := Exist;
  VmCore.Empty := Empty;
  VmCore.RevertToSnapshot := RevertToSnapshot;
  VmCore.Snapshot := Snapshot;
  VmCore.AddLog := AddLog;
  VmCore.AddPreimage := AddPreimage
}.

End state.
