(* ===== verification/Receipts.v ===== *)
(** * Package core/types: receipts and bloom filters

    Receipts with their two encodings (src/core/types/receipt.go), the logs in them
    (log.go) and the bloom filters over the logs (bloom9.go).  A bloom filter has no false
    negatives, fits into its 256 bytes, and receipts go round through the encoding of the
    database. *)

From stdpp Require Import base numbers list option.
From Stdlib Require Import ZArith Lia Strings.Byte.
From S2P Require Import Prelude Rlp RlpStream RlpProofs RlpStreamProofs RlpDecodeProofs RlpTypeProofs RlpRawProofs Common Params Types VmCore VmPrecompiled Transactions VmStateSpec TransactionProofs State.

(** ** bloom9.go *)

Definition BloomByteLength : Z := 256.
Notation Bloom := (list byte).

(** [SetBytes] on a zero filter panics when the bytes do not fit, here [None]. *)
Definition BytesToBloom (b : list byte) : option Bloom :=
  if BloomByteLength <? Z.of_nat (length b) then None
  else Some (replicate (Z.to_nat BloomByteLength - length b) x00 ++ b).

Section Blooms.
Context {CR : Crypto}.

(** Three of 2048 bits, from the first six bytes of the hash. *)
Definition bloomBit (h : list byte) (i : nat) : Z :=
  match h !! i, h !! S i with
  | Some b0, Some b1 => Z.land (byte_to_Z b1 + Z.shiftl (byte_to_Z b0) 8) 2047
  | _, _ => 0
  end.
Definition bloom9 (b : list byte) : Z :=
  let h := HashBytes (Keccak256 b) in
  foldl (fun r i => Z.lor r (Z.shiftl 1 (bloomBit h i))) 0 [0; 2; 4]%nat.

Definition bloomLog (bin : Z) (l : Log) : Z :=
  foldl (fun bin t => Z.lor bin (bloom9 (HashBytes t))) (Z.lor bin (bloom9 (AddressBytes (lAddress l)))) (lTopics l).
Definition LogsBloom (logs : list Log) : Z := foldl bloomLog 0 logs.

Definition BloomAdd (d : Z) (b : Bloom) : option Bloom :=
  BytesToBloom (big_bytes (Z.lor (be_value b) (bloom9 (big_bytes d)))).
Definition BloomLookup (bin : Bloom) (topic : list byte) : bool :=
  let cmp := bloom9 topic in Z.land (be_value bin) cmp =? cmp.

End Blooms.

(** ** receipt.go *)

Definition ReceiptStatusFailed : Z := 0.
Definition ReceiptStatusSuccessful : Z := 1.

Record Receipt := mkReceipt {
  rcPostState : list byte;
  rcStatus : Z;
  rcCumulativeGasUsed : Z;
  rcBloom : Bloom;
  rcLogs : list state.DerivedLog;
  rcTxHash : Hash;
  rcContractAddress : Address;
  rcGasUsed : Z
}.

Definition emptyBloom : Bloom := replicate (Z.to_nat BloomByteLength) x00.

Definition NewReceipt (root : list byte) (failed : bool) (cumulativeGasUsed : Z) : Receipt :=
  mkReceipt root (if failed then ReceiptStatusFailed else ReceiptStatusSuccessful) cumulativeGasUsed emptyBloom [] 0 0 0.

Definition CreateBloom {CR : Crypto} (receipts : list Receipt) : option Bloom :=
  BytesToBloom (big_bytes (foldl (fun bin r => Z.lor bin (LogsBloom (state.dLog <$> rcLogs r))) 0 receipts)).

(** The status, or the root before Byzantium. *)
Definition receiptStatusFailedRLP : list byte := [].
Definition receiptStatusSuccessfulRLP : list byte := [x01].

Definition statusEncoding (r : Receipt) : list byte :=
  match rcPostState r with
  | [] => if rcStatus r =? ReceiptStatusFailed then receiptStatusFailedRLP else receiptStatusSuccessfulRLP
  | root => root
  end.
Definition setStatus (b : list byte) (r : Receipt) : option Receipt :=
  let with_status x := mkReceipt (rcPostState r) x (rcCumulativeGasUsed r) (rcBloom r) (rcLogs r) (rcTxHash r)
                         (rcContractAddress r) (rcGasUsed r) in
  if bool_decide (b = receiptStatusSuccessfulRLP) then Some (with_status ReceiptStatusSuccessful)
  else if bool_decide (b = receiptStatusFailedRLP) then Some (with_status ReceiptStatusFailed)
  else if (length b =? 32)%nat then
    Some (mkReceipt b (rcStatus r) (rcCumulativeGasUsed r) (rcBloom r) (rcLogs r) (rcTxHash r) (rcContractAddress r) (rcGasUsed r))
  else None.

(** *** Encodings: consensus fields only, and all fields *)

Definition logRLP (l : state.DerivedLog) : rlpValue :=
  RList [rAddress (lAddress (state.dLog l)); RList (rHash <$> lTopics (state.dLog l)); RBytes (lData (state.dLog l))].
Definition receiptRLP (r : Receipt) : rlpValue :=
  RList [RBytes (statusEncoding r); RUint (rcCumulativeGasUsed r); RBytes (rcBloom r); RList (logRLP <$> rcLogs r)].

Definition storageLogRLP (l : state.DerivedLog) : rlpValue :=
  RList [rAddress (lAddress (state.dLog l)); RList (rHash <$> lTopics (state.dLog l)); RBytes (lData (state.dLog l));
         RUint (lBlockNumber (state.dLog l)); rHash (state.dTxHash l); RUint (state.dTxIndex l); rHash (state.dBlockHash l);
         RUint (state.dIndex l)].
Definition receiptStorageRLP (r : Receipt) : rlpValue :=
  RList [RBytes (statusEncoding r); RUint (rcCumulativeGasUsed r); RBytes (rcBloom r); rHash (rcTxHash r);
         rAddress (rcContractAddress r); RList (storageLogRLP <$> rcLogs r); RUint (rcGasUsed r)].

Definition logType : goType := TStruct [TByteArray 20; TSlice (TByteArray 32); TBytes].
Definition storageLogType : goType :=
  TStruct [TByteArray 20; TSlice (TByteArray 32); TBytes; TUint 64; TByteArray 32; TUint 64; TByteArray 32; TUint 64].
Definition receiptType : goType := TStruct [TBytes; TUint 64; TByteArray 256; TSlice logType].
Definition receiptStorageType : goType :=
  TStruct [TBytes; TUint 64; TByteArray 256; TByteArray 32; TByteArray 20; TSlice storageLogType; TUint 64].

(** [DecodeRLP] of logs and receipts. *)
Definition topicOf (v : rlpValue) : option Hash :=
  match v with RBytes b => Some (BytesToHash b) | _ => None end.
Definition storageLogOf (v : rlpValue) : option state.DerivedLog :=
  match v with
  | RList [RBytes a; RList topics; RBytes data; RUint number; RBytes txh; RUint txi; RBytes bh; RUint i] =>
      topics ← mapM topicOf topics;
      Some (state.mkDerivedLog (mkLog (BytesToAddress a) topics data number) (BytesToHash txh) (BytesToHash bh) txi i)
  | _ => None
  end.
Definition receiptForStorageOf (v : rlpValue) : option Receipt :=
  match v with
  | RList [RBytes status; RUint cumulative; RBytes bloom; RBytes txh; RBytes contract; RList logs; RUint gas] =>
      logs ← mapM storageLogOf logs;
      r ← setStatus status (mkReceipt [] 0 0 emptyBloom [] 0 0 0);
      Some (mkReceipt (rcPostState r) (rcStatus r) cumulative bloom logs (BytesToHash txh) (BytesToAddress contract) gas)
  | _ => None
  end.
Definition decodeReceiptForStorage (b : list byte) : option Receipt :=
  match DecodeBytes b receiptStorageType with Ok v => receiptForStorageOf v | _ => None end.

(** * Lemmas about receipts and blooms *)

(** ** Sets of bits *)

(** All bits of [c] are in [x]. *)
Definition covers (x c : Z) : Prop := Z.land x c = c.

Lemma covers_refl x : covers x x.
Proof. apply Z.land_diag. Qed.
Lemma covers_lor_r x y c : covers y c -> covers (Z.lor x y) c.
Proof. unfold covers. intros H. rewrite Z.land_lor_distr_l, H, Z.lor_comm. apply Z.bits_inj'. intros n Hn.
  rewrite Z.lor_spec, Z.land_spec. destruct (Z.testbit c n), (Z.testbit x n); done. Qed.
Lemma covers_lor_l x y c : covers x c -> covers (Z.lor x y) c.
Proof. rewrite Z.lor_comm. apply covers_lor_r. Qed.

Definition is_bloom (x : Z) : Prop := 0 <= x < 2 ^ 2048.

Lemma is_bloom_lor x y : is_bloom x -> is_bloom y -> is_bloom (Z.lor x y).
Proof.
  unfold is_bloom. intros Hx Hy. assert (H0 : 0 <= Z.lor x y) by (apply Z.lor_nonneg; lia). split; [done|].
  destruct (Z.eq_dec (Z.lor x y) 0) as [->|Hn]; [by vm_compute|]. apply Z.log2_lt_pow2; [lia|]. rewrite Z.log2_lor by lia.
  assert (Hlog : forall z, 0 <= z < 2 ^ 2048 -> Z.log2 z < 2048).
  { intros z Hz. destruct (Z.eq_dec z 0) as [->|]; [by vm_compute|]. apply Z.log2_lt_pow2; lia. }
  apply Z.max_lub_lt; by apply Hlog.
Qed.

(** Bits that only grow. *)
Definition Grows {A} (f : Z -> A -> Z) : Prop := forall x c a, covers x c -> covers (f x a) c.
Definition Stays {A} (f : Z -> A -> Z) : Prop := forall x a, is_bloom x -> is_bloom (f x a).

Lemma foldl_covers {A} (f : Z -> A -> Z) l x c : Grows f -> covers x c -> covers (foldl f x l) c.
Proof. intros Hf. revert x. induction l as [|a l IH]; intros x Hx; [done|]. by apply IH, Hf. Qed.
Lemma foldl_bloom {A} (f : Z -> A -> Z) l x : Stays f -> is_bloom x -> is_bloom (foldl f x l).
Proof. intros Hf. revert x. induction l as [|a l IH]; intros x Hx; [done|]. by apply IH, Hf. Qed.
Lemma foldl_elem {A} (f : Z -> A -> Z) l x a c : Grows f -> a ∈ l -> (forall x, covers (f x a) c) -> covers (foldl f x l) c.
Proof.
  intros Hf Ha Hc. revert x. induction l as [|b l IH]; intros x; [by apply elem_of_nil in Ha|].
  apply elem_of_cons in Ha as [<-|Ha]; cbn [foldl]; [by apply foldl_covers|by apply IH].
Qed.

Section Blooms.
Context {CR : Crypto}.

Lemma bloomBit_range h i : 0 <= bloomBit h i < 2048.
Proof.
  unfold bloomBit. destruct (h !! i); [|lia]. destruct (h !! S i); [|lia].
  change 2047 with (Z.ones 11). rewrite Z.land_ones by lia. apply Z.mod_pos_bound. lia.
Qed.

Lemma bloom9_bloom b : is_bloom (bloom9 b).
Proof.
  unfold bloom9. apply foldl_bloom; [|by vm_compute]. intros x i Hx. apply is_bloom_lor; [done|].
  pose proof (bloomBit_range (HashBytes (Keccak256 b)) i) as Hb. rewrite Z.shiftl_1_l. split; [apply Z.pow_nonneg; lia|].
  apply Z.pow_lt_mono_r; lia.
Qed.

Lemma topics_grow : Grows (fun bin t => Z.lor bin (bloom9 (HashBytes t))).
Proof. intros x c a H. by apply covers_lor_l. Qed.
Lemma bloomLog_grows : Grows bloomLog.
Proof. intros x c l H. unfold bloomLog. apply foldl_covers; [apply topics_grow|by apply covers_lor_l]. Qed.
Lemma bloomLog_stays : Stays bloomLog.
Proof.
  intros x l H. unfold bloomLog. apply foldl_bloom; [intros y t Hy|]; apply is_bloom_lor; try done; apply bloom9_bloom.
Qed.

(** The address and the topics of a log. *)
Definition logKeys (l : Log) : list (list byte) := AddressBytes (lAddress l) :: (HashBytes <$> lTopics l).

Lemma bloomLog_covers x l k : k ∈ logKeys l -> covers (bloomLog x l) (bloom9 k).
Proof.
  unfold logKeys, bloomLog. intros [->|(t & -> & Ht)%list_elem_of_fmap]%elem_of_cons.
  - apply foldl_covers; [apply topics_grow|]. apply covers_lor_r, covers_refl.
  - eapply foldl_elem; [apply topics_grow|exact Ht|]. intros y. apply covers_lor_r, covers_refl.
Qed.

Lemma LogsBloom_covers ls l k : l ∈ ls -> k ∈ logKeys l -> covers (LogsBloom ls) (bloom9 k).
Proof. intros Hl Hk. eapply foldl_elem; [apply bloomLog_grows|exact Hl|]. intros x. by apply bloomLog_covers. Qed.
Lemma LogsBloom_bloom ls : is_bloom (LogsBloom ls).
Proof. apply foldl_bloom; [apply bloomLog_stays|by vm_compute]. Qed.

Lemma BytesToBloom_some z : is_bloom z -> BytesToBloom (big_bytes z) = Some (be_bytes 256 z).
Proof.
  intros Hz. change (2 ^ 2048) with (256 ^ Z.of_nat 256) in Hz. unfold is_bloom in Hz.
  assert (Hz' : 0 <= z < 256 ^ Z.of_nat 256) by exact Hz.
  pose proof (big_bytes_length z (Z.of_nat 256) Hz' ltac:(lia)) as Hl. unfold BytesToBloom. change BloomByteLength with 256.
  destruct (Z.ltb_spec 256 (len (big_bytes z))); [lia|]. f_equal. by apply be_bytes_big.
Qed.

Lemma CreateBloom_spec rs :
  exists b z, CreateBloom rs = Some b /\ length b = 256%nat /\ be_value b = z /\
    forall r l k, r ∈ rs -> l ∈ state.dLog <$> rcLogs r -> k ∈ logKeys l -> covers z (bloom9 k).
Proof.
  set (z := foldl (fun bin r => Z.lor bin (LogsBloom (state.dLog <$> rcLogs r))) 0 rs).
  assert (Hz : is_bloom z).
  { apply foldl_bloom; [|by vm_compute]. intros x r Hx. apply is_bloom_lor; [done|apply LogsBloom_bloom]. }
  exists (be_bytes 256 z), z. split_and!.
  - by apply BytesToBloom_some.
  - apply length_be_bytes.
  - rewrite be_value_be_bytes. by apply Z.mod_small.
  - intros r l k Hr Hl Hk. eapply foldl_elem; [intros x c a H; by apply covers_lor_l|exact Hr|].
    intros x. apply covers_lor_r. by eapply LogsBloom_covers.
Qed.

End Blooms.

(** ** Receipts in the database *)

Definition LogOk (l : state.DerivedLog) : Prop :=
  is_address (lAddress (state.dLog l)) /\ Forall is_hash (lTopics (state.dLog l)) /\ is_u64 (lBlockNumber (state.dLog l)) /\
  is_hash (state.dTxHash l) /\ is_u64 (state.dTxIndex l) /\ is_hash (state.dBlockHash l) /\ is_u64 (state.dIndex l).

(** A receipt has a status, or the root of the state before Byzantium. *)
Record ReceiptOk (r : Receipt) : Prop := {
  ro_status : rcPostState r = [] /\ (rcStatus r = 0 \/ rcStatus r = 1) \/ length (rcPostState r) = 32%nat;
  ro_cumulative : is_u64 (rcCumulativeGasUsed r);
  ro_bloom : length (rcBloom r) = 256%nat;
  ro_tx : is_hash (rcTxHash r);
  ro_contract : is_address (rcContractAddress r);
  ro_logs : Forall LogOk (rcLogs r);
  ro_gas : is_u64 (rcGasUsed r)
}.

Lemma BytesToHash_bytes h : is_hash h -> BytesToHash (HashBytes h) = h.
Proof.
  intros Hh. unfold BytesToHash. rewrite setBytes_value by done. unfold HashBytes. rewrite be_value_be_bytes.
  change (256 ^ Z.of_nat 32) with (2 ^ 256). change (256 ^ HashLength) with (2 ^ 256).
  unfold is_hash in Hh. by rewrite !Z.mod_small by (rewrite ?Z.mod_small; lia).
Qed.

Lemma hash_type h : hasType (TByteArray 32) (rHash h) = true.
Proof. unfold rHash. cbn [hasType]. unfold HashBytes. by rewrite length_be_bytes. Qed.
Lemma address_type a : hasType (TByteArray 20) (rAddress a) = true.
Proof. unfold rAddress. cbn [hasType]. unfold AddressBytes. by rewrite length_be_bytes. Qed.
Lemma uint_type z : is_u64 z -> hasType (TUint 64) (RUint z) = true.
Proof. unfold is_u64. intros Hz. cbn [hasType]. apply andb_true_iff. rewrite Z.leb_le, Z.ltb_lt. lia. Qed.
Lemma slice_type {A} t (f : A -> rlpValue) l : Forall (fun x => hasType t (f x) = true) l -> hasType (TSlice t) (RList (f <$> l)) = true.
Proof. intros H. cbn [hasType]. apply forallb_Forall, Forall_fmap. exact H. Qed.

Lemma log_type l : LogOk l -> hasType storageLogType (storageLogRLP l) = true.
Proof.
  intros (Ha & Ht & Hn & Hh & Hi & Hb & Hx). apply hasType_struct.
  repeat apply Forall2_cons_2; try apply Forall2_nil_2; try apply address_type; try apply hash_type; try (by apply uint_type); [|done].
  apply slice_type. apply Forall_true. intros h. apply hash_type.
Qed.

Lemma topics_back ts : Forall is_hash ts -> mapM topicOf (rHash <$> ts) = Some ts.
Proof.
  intros H. apply mapM_Some. apply Forall2_fmap_l. induction H as [|t ts Ht _ IH]; constructor; [|done].
  unfold compose, topicOf, rHash. by rewrite BytesToHash_bytes.
Qed.

Lemma log_back l : LogOk l -> storageLogOf (storageLogRLP l) = Some l.
Proof.
  destruct l as [[a ts d n] th bh ti i]. intros (Ha & Ht & Hn & Hh & Hi & Hb & Hx).
  cbn [state.dLog lAddress lTopics lData lBlockNumber state.dTxHash state.dTxIndex state.dBlockHash state.dIndex] in *.
  unfold storageLogOf, storageLogRLP, rAddress. cbn [state.dLog lAddress lTopics lData lBlockNumber state.dTxHash state.dTxIndex state.dBlockHash state.dIndex].
  change (rHash th) with (RBytes (HashBytes th)). change (rHash bh) with (RBytes (HashBytes bh)). rewrite (topics_back ts Ht). cbn [base.mbind option_bind].
  by rewrite BytesToAddress_bytes, !BytesToHash_bytes.
Qed.

(** The status of a receipt with a root is not kept. *)
Definition storedStatus (r : Receipt) : Z := match rcPostState r with [] => rcStatus r | _ => 0 end.

Lemma status_back r :
  ReceiptOk r -> setStatus (statusEncoding r) (mkReceipt [] 0 0 emptyBloom [] 0 0 0) =
  Some (mkReceipt (rcPostState r) (storedStatus r) 0 emptyBloom [] 0 0 0).
Proof.
  intros [H _ _ _ _ _ _]. unfold statusEncoding, storedStatus. destruct H as [[-> [-> | ->]]|Hl]; [done..|].
  destruct (rcPostState r) as [|b root] eqn:E; [done|]. unfold setStatus.
  rewrite bool_decide_eq_false_2 by (intros E'; rewrite E' in Hl; done). rewrite bool_decide_eq_false_2 by done. by rewrite Hl.
Qed.

Lemma receipt_type r : ReceiptOk r -> hasType receiptStorageType (receiptStorageRLP r) = true.
Proof.
  intros [_ Hc Hb Ht Ha Hl Hg]. apply hasType_struct.
  repeat apply Forall2_cons_2; try apply Forall2_nil_2; try apply address_type; try apply hash_type; try (by apply uint_type).
  - done.
  - cbn [hasType]. by rewrite Hb.
  - apply slice_type. eapply Forall_impl; [|exact Hl]. intros l. apply log_type.
Qed.

(** What the database gives back. *)
Definition stored (r : Receipt) : Receipt :=
  mkReceipt (rcPostState r) (storedStatus r) (rcCumulativeGasUsed r) (rcBloom r) (rcLogs r) (rcTxHash r) (rcContractAddress r) (rcGasUsed r).

Lemma receipt_back r : ReceiptOk r -> receiptForStorageOf (receiptStorageRLP r) = Some (stored r).
Proof.
  intros Hr. pose proof Hr as [_ Hc Hb Ht Ha Hl Hg]. unfold receiptForStorageOf, receiptStorageRLP, rHash, rAddress.
  assert (El : mapM storageLogOf (storageLogRLP <$> rcLogs r) = Some (rcLogs r)).
  { apply mapM_Some, Forall2_fmap_l. induction Hl as [|l ls Hl' _ IH]; constructor; [by apply log_back|done]. }
  rewrite El. cbn [base.mbind option_bind]. rewrite (status_back r Hr). cbn [base.mbind option_bind].
  by rewrite BytesToHash_bytes, BytesToAddress_bytes.
Qed.

Lemma receipt_roundtrip r :
  ReceiptOk r -> rlpSize (receiptStorageRLP r) < 2 ^ 64 ->
  exists b, EncodeToBytes (receiptStorageRLP r) = Ok b /\ decodeReceiptForStorage b = Some (stored r).
Proof.
  intros Hr Hs. destruct (decode_bytes receiptStorageType (receiptStorageRLP r)) as (E1 & E2); [done|by apply receipt_type|done|].
  exists (rlpBytes (receiptStorageRLP r)). split; [done|]. unfold decodeReceiptForStorage. rewrite E2. by apply receipt_back.
Qed.
