(* ===== verification/Blocks.v ===== *)
(** * Package core/types: blocks

    Blocks with their bodies (src/core/types/block.go), and the root hash of a list, a trie
    of its encoded elements under their encoded indices (src/core/types/derive_sha.go).  The
    root of a list stands for the list; headers, bodies and blocks go round through their
    encodings. *)

From stdpp Require Import base numbers list gmap option.
From Stdlib Require Import ZArith Lia Strings.Byte.
From S2P Require Import Prelude Rlp RlpStream RlpProofs RlpDecodeProofs RlpTypeProofs RlpRawProofs Common Types TrieDatabase Trie TrieTree TrieEncode TrieWalk TrieDbProofs TrieHash TrieProofs Transactions TransactionProofs State Receipts.

(** ** derive_sha.go *)

Section Roots.
Context {CR : Crypto}.

(** A trie without a database, [new(trie.Trie)]; an error of [Update] is only logged. *)
Definition noDatabase : triedb.Database := triedb.NewDatabase ∅.
Definition updateAt (i : Z) (value : list byte) (t : trie.Trie) : result trie.trieErr trie.Trie :=
  match trie.TryUpdate noDatabase t (rlpEncode (RUint i)) value with
  | Err _ => Ok t
  | r => r
  end.

Fixpoint updateAll (i : Z) (values : list (list byte)) (t : trie.Trie) : result trie.trieErr trie.Trie :=
  match values with
  | [] => Ok t
  | v :: values => let* t := updateAt i v t in updateAll (i + 1) values t
  end.

(** The values are what [GetRlp] returns. *)
Definition DeriveSha (values : list (list byte)) : result trie.trieErr Hash :=
  let* t := updateAll 0 values (trie.mkTrie trie.nilNode 0 0 0) in
  match trie.rootHash t with
  | Ok (h, _) => Ok h
  | Err _ | Panic => Panic
  | NoFuel => NoFuel
  end.

(** [Transactions.GetRlp] and [Receipts.GetRlp] of all the elements. *)
Definition txsRlp (txs : list Transaction) : list (list byte) := (fun tx => rlpEncode (txRLP (txData tx))) <$> txs.
Definition receiptsRlp (receipts : list Receipt) : list (list byte) := (fun r => rlpEncode (receiptRLP r)) <$> receipts.
End Roots.

(** ** block.go *)

Record Block := mkBlock {
  bHeader : Header;
  bTransactions : list Transaction;
  bUncles : list Header
}.

(** The contents without the header. *)
Record Body := mkBody { Transactions : list Transaction; Uncles : list Header }.

Definition NewBlockWith (header : Header) (body : Body) : Block := mkBlock header (Transactions body) (Uncles body).
Definition blockBody (b : Block) : Body := mkBody (bTransactions b) (bUncles b).

Section Blocks.
Context {CR : Crypto}.

Definition CalcUncleHash (uncles : list Header) : Hash := rlpHash (RList (headerRLP <$> uncles)).

(** [CalcUncleHash(nil)], and [DeriveSha(Transactions{})]. *)
Definition EmptyUncleHash : Hash := CalcUncleHash [].
Definition EmptyRootHash : result trie.trieErr Hash := DeriveSha [].

Definition blockHash (b : Block) : Hash := headerHash (bHeader b).

(** [b.Transaction(hash)] *)
Definition blockTransaction (hash : Hash) (b : Block) : option Transaction :=
  snd <$> list_find (fun tx => txHash tx = hash) (bTransactions b).

Definition withRoots (txHash receiptHash uncleHash : Hash) (bloom : list byte) (h : Header) : Header :=
  mkHeader (hParentHash h) uncleHash (hCoinbase h) (hSigners h) (hVoters h) (hSigner h) (hRoot h) txHash receiptHash bloom
    (hDifficulty h) (hNumber h) (hGasLimit h) (hGasUsed h) (hTime h) (hExtra h) (hMixDigest h) (hNonce h).

(** Without receipts the bloom of the header is left as it is. *)
Definition NewBlock (header : Header) (txs : list Transaction) (uncles : list Header) (receipts : list Receipt) : result trie.trieErr Block :=
  let h := CopyHeader header in
  let* txHash := match txs with [] => EmptyRootHash | _ => DeriveSha (txsRlp txs) end in
  let* receiptHash := match receipts with [] => EmptyRootHash | _ => DeriveSha (receiptsRlp receipts) end in
  let* bloom := match receipts with [] => Ok (hBloom h) | _ => deref (CreateBloom receipts) end in
  let uncleHash := match uncles with [] => EmptyUncleHash | _ => CalcUncleHash uncles end in
  Ok (mkBlock (withRoots txHash receiptHash uncleHash bloom h) txs (CopyHeader <$> uncles)).

Definition NewBlockWithHeader (header : Header) : Block := mkBlock (CopyHeader header) [] [].
Definition WithSeal (header : Header) (b : Block) : Block := mkBlock header (bTransactions b) (bUncles b).
Definition WithBody (txs : list Transaction) (uncles : list Header) (b : Block) : Block :=
  mkBlock (CopyHeader (bHeader b)) txs (CopyHeader <$> uncles).

(** *** The encoding *)

Definition blockRLP (b : Block) : rlpValue :=
  RList [headerRLP (bHeader b); RList ((fun tx => txRLP (txData tx)) <$> bTransactions b); RList (headerRLP <$> bUncles b)].

Definition bodyRLP (body : Body) : rlpValue :=
  RList [RList ((fun tx => txRLP (txData tx)) <$> Transactions body); RList (headerRLP <$> Uncles body)].

Definition headerType : goType := TStruct [
  TByteArray 32; TByteArray 32; TByteArray 20; TSlice (TByteArray 20); TSlice (TByteArray 20); TBytes;
  TByteArray 32; TByteArray 32; TByteArray 32; TByteArray 256; TBig; TBig; TUint 64; TUint 64;
  TBig; TBytes; TByteArray 32; TByteArray 8 ].
Definition blockType : goType := TStruct [headerType; TSlice txType; TSlice headerType].

Definition bodyType : goType := TStruct [TSlice txType; TSlice headerType].

Definition addressOf (v : rlpValue) : option Address := match v with RBytes b => Some (BytesToAddress b) | _ => None end.
Definition headerOf (v : rlpValue) : option Header :=
  match v with
  | RList [RBytes parent; RBytes uncle; RBytes coinbase; RList signers; RList voters; RBytes signer; RBytes root; RBytes tx; RBytes receipt;
           RBytes bloom; RBig difficulty; RBig number; RUint gasLimit; RUint gasUsed; RBig time; RBytes extra; RBytes mix; RBytes nonce] =>
      signers ← mapM addressOf signers;
      voters ← mapM addressOf voters;
      Some (mkHeader (BytesToHash parent) (BytesToHash uncle) (BytesToAddress coinbase) signers voters signer (BytesToHash root)
              (BytesToHash tx) (BytesToHash receipt) bloom difficulty number gasLimit gasUsed time extra (BytesToHash mix) nonce)
  | _ => None
  end.
Definition bodyOf (v : rlpValue) : option Body :=
  match v with
  | RList [RList txs; RList uncles] => txs ← mapM txOf txs; uncles ← mapM headerOf uncles; Some (mkBody txs uncles)
  | _ => None
  end.

(** [DecodeRLP] *)
Definition blockOf (v : rlpValue) : option Block :=
  match v with
  | RList [header; RList txs; RList uncles] =>
      header ← headerOf header;
      txs ← mapM txOf txs;
      uncles ← mapM headerOf uncles;
      Some (mkBlock header txs uncles)
  | _ => None
  end.
Definition decodeBlock (b : list byte) : option Block :=
  match DecodeBytes b blockType with Ok v => blockOf v | _ => None end.
End Blocks.

(** * Roots and encodings *)

(** ** Roots of lists *)

Section Lists.
Context {CR : Crypto}.

(** The key of a position. *)
Definition indexKey (i : Z) : list byte := rlpEncode (RUint i).

Lemma indexKey_bytes i : is_u64 i -> indexKey i = rlpBytes (RUint i) /\ DecodeBytes (indexKey i) (TUint 64) = Ok (RUint i) /\ len (indexKey i) < 2 ^ 30.
Proof.
  intros Hi. assert (Ht : hasType (TUint 64) (RUint i) = true) by (by apply uint_type).
  assert (Hs : rlpSize (RUint i) < 2 ^ 10) by (cbn [rlpSize]; lia).
  pose proof (rlpSize_bound (RUint i) (hasType_encodable false (TUint 64) eq_refl (RUint i) Ht) ltac:(lia)) as Hb.
  destruct (decode_bytes (TUint 64) (RUint i)) as [_ E]; [done|done|lia|].
  assert (Ei : indexKey i = rlpBytes (RUint i)).
  { apply rlpEncode_bytes; [by apply (hasType_encodable false (TUint 64) eq_refl (RUint i) Ht)|lia]. }
  rewrite Ei. split_and!; [done|done|lia].
Qed.

Lemma indexKey_inj i j : is_u64 i -> is_u64 j -> indexKey i = indexKey j -> i = j.
Proof.
  intros Hi Hj E. destruct (indexKey_bytes i Hi) as (_ & Ei & _), (indexKey_bytes j Hj) as (_ & Ej & _). congruence.
Qed.

(** The updates of [DeriveSha], and the tree they build. *)
Fixpoint indexed (i : Z) (values : list (list byte)) : list (list byte * list byte) :=
  match values with [] => [] | v :: values => (indexKey i, v) :: indexed (i + 1) values end.
Definition listTree (values : list (list byte)) : tree := tupdates TNil (indexed 0 values).

(** Lists whose roots can be taken. *)
Definition ListOk (values : list (list byte)) : Prop :=
  Z.of_nat (length values) < 2 ^ 64 /\ Forall (fun v => v <> [] /\ len v < 2 ^ 32) values.

Lemma updateAll_updates values : forall i t t', updates noDatabase (indexed i values) t = Ok t' -> updateAll i values t = Ok t'.
Proof.
  induction values as [|v values IH]; intros i t t' E; [exact E|]. cbn [indexed updates] in E. cbn [updateAll]. unfold updateAt.
  fold (indexKey i). destruct (trie.TryUpdate noDatabase t (indexKey i) v); [|discriminate E..]. by apply IH.
Qed.

Lemma indexed_small values : forall i, 0 <= i -> i + Z.of_nat (length values) <= 2 ^ 64 -> Forall (fun v => v <> [] /\ len v < 2 ^ 32) values ->
  Forall (fun kv => len kv.1 < 2 ^ 30 /\ len kv.2 < 2 ^ 32) (indexed i values).
Proof.
  induction values as [|v values IH]; intros i Hi Hl Hv; cbn [indexed]; [constructor|]. cbn [length] in Hl. constructor.
  - destruct (indexKey_bytes i) as (_ & _ & Hk); [unfold is_u64; lia|]. split; [done|]. apply (Forall_inv Hv).
  - apply IH; [lia|lia|by apply Forall_inv_tail in Hv].
Qed.

Lemma listTree_stands values :
  ListOk values -> exists t, updateAll 0 values (trie.mkTrie trie.nilNode 0 0 0) = Ok t /\ Stands noDatabase t (listTree values) /\ bounded (listTree values).
Proof.
  intros [Hl Hv]. destruct (updates_stand noDatabase (indexed 0 values) (trie.mkTrie trie.nilNode 0 0 0) TNil) as (t & E & H1 & H2);
    [apply Stands_empty|apply bounded_empty|apply indexed_small; [lia|lia|done]|]. exists t. split; [by apply updateAll_updates|done].
Qed.

Lemma DeriveSha_root values : ListOk values -> DeriveSha values = Ok (rootOf (listTree values)).
Proof.
  intros Hok. destruct (listTree_stands values Hok) as (t & E & Hs & Hb). unfold DeriveSha. rewrite E. cbn [rbind].
  destruct (rootHash_stands _ _ _ Hs Hb) as (t' & -> & _). done.
Qed.

(** Under the key of a position is the element at it. *)
Lemma tupdates_content values : forall i T t k,
  0 <= i -> i + Z.of_nat (length values) <= 2 ^ 64 -> Stands noDatabase t T -> is_u64 k ->
  content (tupdates T (indexed i values)) (indexKey k) =
  if bool_decide (i <= k < i + Z.of_nat (length values)) then default [] (values !! Z.to_nat (k - i)) else content T (indexKey k).
Proof.
  induction values as [|v values IH]; intros i T t k Hi Hl Ht Hk; cbn [indexed tupdates foldl length] in *.
  - by rewrite bool_decide_eq_false_2 by lia.
  - destruct (TryUpdate_stands noDatabase t T (indexKey i) v Ht) as (t1 & _ & H1 & H2).
    fold (tupdates (tupdate T (indexKey i) v) (indexed (i + 1) values)). rewrite (IH (i + 1) _ t1 k) by (done || lia). rewrite H2.
    destruct (decide (k = i)) as [->|Hne].
    + rewrite (bool_decide_eq_false_2 (i + 1 <= i < _)) by lia. rewrite bool_decide_eq_true_2 by done.
      rewrite bool_decide_eq_true_2 by lia. by replace (Z.to_nat (i - i)) with 0%nat by lia.
    + rewrite (bool_decide_eq_false_2 (indexKey k = indexKey i)) by (intros E; apply Hne, indexKey_inj; unfold is_u64 in *; [lia..|done]).
      destruct (decide (i + 1 <= k < i + 1 + Z.of_nat (length values))) as [Hin|Hout].
      * rewrite !bool_decide_eq_true_2 by lia. by replace (Z.to_nat (k - i)) with (S (Z.to_nat (k - (i + 1)))) by lia.
      * by rewrite !bool_decide_eq_false_2 by lia.
Qed.

Lemma listTree_content values k :
  Z.of_nat (length values) < 2 ^ 64 -> is_u64 (Z.of_nat k) -> content (listTree values) (indexKey (Z.of_nat k)) = default [] (values !! k).
Proof.
  intros Hl Hk. unfold listTree. rewrite (tupdates_content values 0 TNil (trie.mkTrie trie.nilNode 0 0 0)) by (done || lia || apply Stands_empty).
  case_bool_decide as Hr.
  - by replace (Z.to_nat (Z.of_nat k - 0)) with k by lia.
  - rewrite lookup_ge_None_2 by lia. done.
Qed.

Lemma listTree_inj l l' : ListOk l -> ListOk l' -> listTree l = listTree l' -> l = l'.
Proof.
  intros [Hl Hv] [Hl' Hv'] E. apply list_eq. intros k. destruct (decide (Z.of_nat k < 2 ^ 64)) as [Hk|Hk].
  - assert (Ek : default [] (l !! k) = default [] (l' !! k)).
    { rewrite <- !listTree_content by (done || unfold is_u64; lia). by rewrite E. }
    destruct (l !! k) as [v|] eqn:E1, (l' !! k) as [v'|] eqn:E2; cbn in Ek; [congruence| | |done].
    + destruct (Forall_lookup_1 _ _ _ _ Hv E1). by subst.
    + destruct (Forall_lookup_1 _ _ _ _ Hv' E2). by subst.
  - rewrite !lookup_ge_None_2 by lia. done.
Qed.

Lemma DeriveSha_binds P l l' :
  Distinct P -> ListOk l -> ListOk l' -> Known P (listTree l) -> Known P (listTree l') -> DeriveSha l = DeriveSha l' <-> l = l'.
Proof.
  intros HP Hl Hl' Hk Hk'. split; [|by intros ->]. rewrite !DeriveSha_root by done. intros E.
  destruct (listTree_stands l Hl) as (t & _ & [_ Hc _] & Hb), (listTree_stands l' Hl') as (t' & _ & [_ Hc' _] & Hb').
  apply listTree_inj; [done..|]. apply (rootOf_binds P HP); [done..|]. by injection E.
Qed.
End Lists.

(** ** Encodings *)

(** From a reader, a value is read as from a slice that holds nothing else. *)
Lemma Decode_DecodeBytes b t v : b <> [] -> DecodeBytes b t = Ok v -> Decode b t = Ok v.
Proof.
  intros Hb. unfold DecodeBytes, Decode. assert (Es : NewStream b 0 = NewStream b (Z.of_nat (length b))).
  { unfold NewStream. by destruct b. }
  rewrite Es. destruct (decoder t _) as [r s]. cbn [fst]. destruct r as [w| | |]; cbn [rbind]; [|done..]. by destruct (sIn s).
Qed.

Lemma decode_reader t v :
  typeOk false t = true -> hasType t v = true -> rlpSize v < 2 ^ 64 ->
  exists b, EncodeToBytes v = Ok b /\ rlpEncode v = b /\ b <> [] /\ DecodeBytes b t = Ok v /\ Decode b t = Ok v.
Proof.
  intros Ht Hv Hs. destruct (decode_bytes t v Ht Hv Hs) as [E1 E2]. pose proof (hasType_encodable _ _ Ht v Hv) as He.
  pose proof (rlpSize_bound v He Hs). assert (Hne : rlpBytes v <> []).
  { destruct (decoder_ok false t Ht) as [R _]. by apply (rd_nonempty _ _ _ _ _ (R 0%nat)). }
  exists (rlpBytes v). split_and!; [done|apply rlpEncode_bytes; [done|lia]|done|done|by apply Decode_DecodeBytes].
Qed.

Definition big_nat (x : option Z) : Prop := exists z, x = Some z /\ 0 <= z.

(** The fields are in their ranges and no pointer is nil. *)
Record HeaderOk (h : Header) : Prop := {
  ho_hashes : Forall is_hash [hParentHash h; hUncleHash h; hRoot h; hTxHash h; hReceiptHash h; hMixDigest h];
  ho_addresses : Forall is_address (hCoinbase h :: hSigners h ++ hVoters h);
  ho_bloom : length (hBloom h) = 256%nat;
  ho_big : Forall big_nat [hDifficulty h; hNumber h; hTime h];
  ho_gas : is_u64 (hGasLimit h) /\ is_u64 (hGasUsed h);
  ho_nonce : length (hNonce h) = 8%nat
}.

Lemma big_type x : big_nat x -> hasType TBig (RBig x) = true.
Proof. intros (z & -> & Hz). cbn. by apply Z.leb_le. Qed.

Lemma header_type h : HeaderOk h -> hasType headerType (headerRLP h) = true.
Proof.
  intros [_ _ Hb Hbig [Hg Hg'] Hn]. inversion_clear Hbig as [|? ? H1 H2]. inversion_clear H2 as [|? ? H3 H4]. inversion_clear H4 as [|? ? H5 _].
  assert (Ha : forall l, hasType (TSlice (TByteArray 20)) (rAddresses l) = true).
  { intros l. apply slice_type, Forall_true. intros a. apply address_type. }
  apply hasType_struct. repeat apply Forall2_cons_2; try apply Forall2_nil_2; try apply hash_type; try apply address_type; try apply Ha;
    try (by apply uint_type); try (by apply big_type); try done; cbn [hasType]; by rewrite ?Hb, ?Hn.
Qed.

Lemma addresses_back l : Forall is_address l -> mapM addressOf (rAddress <$> l) = Some l.
Proof.
  intros H. apply mapM_Some, Forall2_fmap_l. induction H as [|a l Ha _ IH]; constructor; [|done].
  unfold compose, addressOf, rAddress. by rewrite BytesToAddress_bytes.
Qed.

Lemma header_back h : HeaderOk h -> headerOf (headerRLP h) = Some h.
Proof.
  destruct h as [p u c ss vs sg r t rc bl df n gl gu tm ex mx nc]. intros [Hh Ha _ _ _ _]. cbn in Hh, Ha. apply list.Forall_cons in Ha as [Hc Ha]. apply list.Forall_app in Ha as [Hs Hv].
  rewrite !list.Forall_cons in Hh. destruct Hh as (H1 & H2 & H3 & H4 & H5 & H6 & _). unfold headerOf, headerRLP, rHash, rAddresses.
  cbn [hParentHash hUncleHash hCoinbase hSigners hVoters hSigner hRoot hTxHash hReceiptHash hBloom hDifficulty hNumber hGasLimit hGasUsed hTime hExtra hMixDigest hNonce].
  change (rAddress c) with (RBytes (AddressBytes c)). rewrite (addresses_back ss Hs), (addresses_back vs Hv).
  cbn [base.mbind option_bind]. by rewrite !BytesToHash_bytes, BytesToAddress_bytes by done.
Qed.

(** Transactions come back without the cached sender. *)
Definition uncached (tx : Transaction) : Transaction := mkTransaction (txData tx) None.

Record BodyOk (body : Body) : Prop := {
  bo_txs : Forall (fun tx => txSizeOk (txData tx)) (Transactions body);
  bo_uncles : Forall HeaderOk (Uncles body)
}.
Definition storedBody (body : Body) : Body := mkBody (uncached <$> Transactions body) (Uncles body).

Lemma mapM_back {A B} (f : A -> rlpValue) (g : rlpValue -> option B) (r : A -> B) (P : A -> Prop) l :
  (forall x, P x -> g (f x) = Some (r x)) -> Forall P l -> mapM g (f <$> l) = Some (r <$> l).
Proof. intros Hg Hl. induction Hl as [|x l Hx _ IH]; [done|]. cbn [fmap list_fmap mapM]. rewrite Hg by done. cbn. by rewrite IH. Qed.

Lemma body_type body : BodyOk body -> hasType bodyType (bodyRLP body) = true.
Proof.
  intros [Ht Hu]. apply hasType_struct. repeat apply Forall2_cons_2; try apply Forall2_nil_2.
  - apply (slice_type txType (fun tx => txRLP (txData tx))). eapply Forall_impl; [|exact Ht]. intros tx. apply tx_type.
  - apply slice_type. eapply Forall_impl; [|exact Hu]. apply header_type.
Qed.

Lemma body_back body : BodyOk body -> bodyOf (bodyRLP body) = Some (storedBody body).
Proof.
  intros [Ht Hu]. unfold bodyOf, bodyRLP. rewrite (mapM_back _ _ uncached (fun tx => txSizeOk (txData tx))) by (done || (intros tx Hx; by apply tx_back)).
  cbn [base.mbind option_bind]. rewrite (mapM_back _ _ id HeaderOk) by (done || (intros h Hh; by apply header_back)). cbn [base.mbind option_bind].
  by rewrite list_fmap_id.
Qed.

Lemma block_type b : HeaderOk (bHeader b) -> BodyOk (blockBody b) -> hasType blockType (blockRLP b) = true.
Proof.
  intros Hh Hb. pose proof (body_type _ Hb) as Ht. apply hasType_struct in Ht. apply hasType_struct. apply Forall2_cons_2; [by apply header_type|exact Ht].
Qed.

Lemma block_back b : HeaderOk (bHeader b) -> BodyOk (blockBody b) -> blockOf (blockRLP b) = Some (NewBlockWith (bHeader b) (storedBody (blockBody b))).
Proof.
  intros Hh Hb. pose proof (body_back _ Hb) as E. unfold blockOf, blockRLP. rewrite (header_back _ Hh). cbn [base.mbind option_bind].
  unfold bodyOf, bodyRLP in E. cbn [blockBody Transactions Uncles] in E. destruct (mapM txOf _) as [txs|]; [|discriminate E]. cbn [base.mbind option_bind] in E |- *.
  destruct (mapM headerOf _) as [us|]; [|discriminate E]. cbn [base.mbind option_bind] in E |- *. injection E as -> ->. done.
Qed.

Lemma block_roundtrip b :
  HeaderOk (bHeader b) -> BodyOk (blockBody b) -> rlpSize (blockRLP b) < 2 ^ 64 ->
  exists bs, EncodeToBytes (blockRLP b) = Ok bs /\ decodeBlock bs = Some (NewBlockWith (bHeader b) (storedBody (blockBody b))).
Proof.
  intros Hh Hb Hs. destruct (decode_reader blockType (blockRLP b)) as (bs & E & _ & _ & Ed & _); [done|by apply block_type|done|].
  exists bs. split; [done|]. unfold decodeBlock. rewrite Ed. by apply block_back.
Qed.

(** Different headers have different encodings. *)
Lemma header_inj h h' :
  HeaderOk h -> HeaderOk h' -> rlpSize (headerRLP h) < 2 ^ 64 -> rlpSize (headerRLP h') < 2 ^ 64 ->
  rlpEncode (headerRLP h) = rlpEncode (headerRLP h') -> h = h'.
Proof.
  intros Hh Hh' Hs Hs' E. destruct (decode_reader headerType (headerRLP h)) as (b & _ & Eb & _ & Ed & _); [done|by apply header_type|done|].
  destruct (decode_reader headerType (headerRLP h')) as (b' & _ & Eb' & _ & Ed' & _); [done|by apply header_type|done|].
  assert (Ev : headerRLP h = headerRLP h') by congruence. pose proof (header_back h Hh) as E1. rewrite Ev, (header_back h' Hh') in E1. by injection E1.
Qed.
