(* ===== verification/ChainDb.v ===== *)
(** * Package core: the store of the chain

    Headers, bodies, difficulties, receipts and lookup entries under their keys in a
    key-value database (src/core/database_util.go).

    The database is a map, as in src/ethdb/memory_database.go.  A write that fails ends
    the process in the source ([log.Crit]); only a batch can fail here.  Headers that are
    read back have a number, since decoding sets it. *)

From stdpp Require Import base numbers list gmap option.
From Stdlib Require Import ZArith Lia Strings.Byte.
From S2P Require Import Prelude Rlp RlpStream Common Types TrieDatabase Transactions State Receipts Blocks.

Module chaindb.

Notation DB := triedb.Disk.

Inductive chainErr :=
| errRLP (e : rlpErr)
| errBatch
| ErrUnknownAncestor
| ErrNoGenesis
| errAborted.

(** ** memory_database.go *)

(** [data, _ := db.Get(key)]: nothing when the key is absent. *)
Definition Get (key : list byte) (db : DB) : list byte := default [] (db !! key).
Definition Has (key : list byte) (db : DB) : bool := bool_decide (is_Some (db !! key)).
Definition Put {E} (key value : list byte) : M DB E unit := modify (<[key := value]>).
Definition Delete {E} (key : list byte) : M DB E unit := modify (base.delete key).

(** ** Keys *)

Definition headerPrefix : byte := x68.
Definition tdSuffix : byte := x74.
Definition numSuffix : byte := x6e.
Definition blockHashPrefix : byte := x48.
Definition bodyPrefix : byte := x62.
Definition blockReceiptsPrefix : byte := x72.
Definition lookupPrefix : byte := x6c.
Definition bloomBitsPrefix : byte := x42.

(** "LastHeader", "LastBlock", "LastFast", "receipts-" and "BlockchainVersion" *)
Definition headHeaderKey : list byte := [x4c; x61; x73; x74; x48; x65; x61; x64; x65; x72].
Definition headBlockKey : list byte := [x4c; x61; x73; x74; x42; x6c; x6f; x63; x6b].
Definition headFastKey : list byte := [x4c; x61; x73; x74; x46; x61; x73; x74].
Definition oldReceiptsPrefix : list byte := [x72; x65; x63; x65; x69; x70; x74; x73; x2d].
Definition oldTxMetaSuffix : list byte := [x01].
Definition versionKey : list byte := [x42; x6c; x6f; x63; x6b; x63; x68; x61; x69; x6e; x56; x65; x72; x73; x69; x6f; x6e].

Definition encodeBlockNumber (number : Z) : list byte := be_bytes 8 number.
Definition numHashKey (prefix : byte) (number : Z) (hash : Hash) : list byte := prefix :: be_bytes 8 number ++ HashBytes hash.
Definition numKey (number : Z) : list byte := headerPrefix :: be_bytes 8 number ++ [numSuffix].
Definition tdKey (number : Z) (hash : Hash) : list byte := headerPrefix :: be_bytes 8 number ++ HashBytes hash ++ [tdSuffix].
Definition hashKey (prefix : byte) (hash : Hash) : list byte := prefix :: HashBytes hash.
Definition bloomBitsKey (bit section : Z) (head : Hash) : list byte := bloomBitsPrefix :: be_bytes 2 bit ++ be_bytes 8 section ++ HashBytes head.

(** The parts of a key whose entry can go to the archive. *)
Definition DBArchiveKey (key : list byte) : bool * byte * Z * Hash :=
  match key with
  | p :: rest =>
      if negb (length key =? 41)%nat then (false, x00, 0, 0)
      else if bool_decide (p = headerPrefix) || bool_decide (p = bodyPrefix) || bool_decide (p = blockReceiptsPrefix)
      then (true, p, be_value (take 8 rest), BytesToHash (drop 8 rest))
      else (false, x00, 0, 0)
  | [] => (false, x00, 0, 0)
  end.

(** ** Reading *)

(** A hash that is stored, or the zero hash. *)
Definition getHash (key : list byte) (db : DB) : Hash :=
  match Get key db with [] => 0 | data => BytesToHash data end.

Definition GetCanonicalHash (number : Z) (db : DB) : Hash := getHash (numKey number) db.
Definition GetHeadHeaderHash (db : DB) : Hash := getHash headHeaderKey db.
Definition GetHeadBlockHash (db : DB) : Hash := getHash headBlockKey db.
Definition GetHeadFastBlockHash (db : DB) : Hash := getHash headFastKey db.

Definition missingNumber : Z := 2 ^ 64 - 1.
Definition GetBlockNumber (hash : Hash) (db : DB) : Z :=
  let data := Get (hashKey blockHashPrefix hash) db in
  if negb (length data =? 8)%nat then missingNumber else be_value data.

(** [rlp.Decode] of what is stored under a key, if there is anything. *)
Definition getRLP {A} (key : list byte) (t : goType) (conv : rlpValue -> option A) (db : DB) : option A :=
  match Get key db with
  | [] => None
  | data => match Decode data t with Ok v => conv v | _ => None end
  end.
(** The same with [rlp.DecodeBytes]. *)
Definition getAllRLP {A} (key : list byte) (t : goType) (conv : rlpValue -> option A) (db : DB) : option A :=
  match Get key db with
  | [] => None
  | data => match DecodeBytes data t with Ok v => conv v | _ => None end
  end.

Definition GetHeaderRLP (hash : Hash) (number : Z) (db : DB) : list byte := Get (numHashKey headerPrefix number hash) db.
Definition GetHeader (hash : Hash) (number : Z) (db : DB) : option Header :=
  getRLP (numHashKey headerPrefix number hash) headerType headerOf db.
Definition GetBodyRLP (hash : Hash) (number : Z) (db : DB) : list byte := Get (numHashKey bodyPrefix number hash) db.
Definition GetBody (hash : Hash) (number : Z) (db : DB) : option Body :=
  getRLP (numHashKey bodyPrefix number hash) bodyType bodyOf db.
Definition tdOf (v : rlpValue) : option Z := match v with RBig x => x | _ => None end.
Definition GetTd (hash : Hash) (number : Z) (db : DB) : option Z := getRLP (tdKey number hash) TBig tdOf db.

Definition GetBlock (hash : Hash) (number : Z) (db : DB) : option Block :=
  header ← GetHeader hash number db;
  body ← GetBody hash number db;
  Some (NewBlockWith header body).

Definition receiptsOf (v : rlpValue) : option (list Receipt) :=
  match v with RList l => mapM receiptForStorageOf l | _ => None end.
(** nil is the empty list. *)
Definition GetBlockReceipts (hash : Hash) (number : Z) (db : DB) : list Receipt :=
  default [] (getAllRLP (numHashKey blockReceiptsPrefix number hash) (TSlice receiptStorageType) receiptsOf db).

Record TxLookupEntry := mkEntry { BlockHash : Hash; BlockIndex : Z; Index : Z }.
Definition entryRLP (e : TxLookupEntry) : rlpValue := RList [rHash (BlockHash e); RUint (BlockIndex e); RUint (Index e)].
Definition entryType : goType := TStruct [TByteArray 32; TUint 64; TUint 64].
Definition entryOf (v : rlpValue) : option TxLookupEntry :=
  match v with RList [RBytes h; RUint n; RUint i] => Some (mkEntry (BytesToHash h) n i) | _ => None end.

Definition GetTxLookupEntry (hash : Hash) (db : DB) : Hash * Z * Z :=
  match getAllRLP (hashKey lookupPrefix hash) entryType entryOf db with
  | Some e => (BlockHash e, BlockIndex e, Index e)
  | None => (0, 0, 0)
  end.

(** The element at an index: [len(l) <= int(index)] is checked on a signed integer, the access panics out of range. *)
Definition elementAt {E A} (l : list A) (index : Z) : result E (option A) :=
  if Z.of_nat (length l) <=? i64 index then Ok None else let* x := deref (l !! Z.to_nat index) in Ok (Some x).

Definition GetTransaction (hash : Hash) (db : DB) : result chainErr (option (Transaction * Hash * Z * Z)) :=
  let '(blockHash, blockNumber, txIndex) := GetTxLookupEntry hash db in
  if negb (blockHash =? 0) then
    match GetBody blockHash blockNumber db with
    | None => Ok None
    | Some body =>
        let* tx := elementAt (Transactions body) txIndex in
        Ok ((fun tx => (tx, blockHash, blockNumber, txIndex)) <$> tx)
    end
  else
    Ok (tx ← getAllRLP (HashBytes hash) txType txOf db;
        entry ← getAllRLP (HashBytes hash ++ oldTxMetaSuffix) entryType entryOf db;
        Some (tx, BlockHash entry, BlockIndex entry, Index entry)).

(** A receipt that does not decode is returned with its fields zero. *)
Definition GetReceipt (hash : Hash) (db : DB) : result chainErr (option (Receipt * Hash * Z * Z)) :=
  let '(blockHash, blockNumber, receiptIndex) := GetTxLookupEntry hash db in
  if negb (blockHash =? 0) then
    let* r := elementAt (GetBlockReceipts blockHash blockNumber db) receiptIndex in
    Ok ((fun r => (r, blockHash, blockNumber, receiptIndex)) <$> r)
  else
    Ok (match Get (oldReceiptsPrefix ++ HashBytes hash) db with
        | [] => None
        | data =>
            let receipt := match Decode data receiptStorageType with Ok v => receiptForStorageOf v | _ => None end in
            Some (default (mkReceipt [] 0 0 emptyBloom [] 0 0 0) receipt, 0, 0, 0)
        end).

(** [None] is an error. *)
Definition GetBloomBits (bit section : Z) (head : Hash) (db : DB) : option (list byte) := db !! bloomBitsKey (bit mod 2 ^ 16) section head.

Definition GetBlockChainVersion (db : DB) : Z :=
  match DecodeBytes (Get versionKey db) (TUint 64) with Ok (RUint vsn) => i64 vsn | _ => 0 end.

(** ** Writing *)

Section Writing.
Context {CR : Crypto}.

Definition encode (v : rlpValue) : result chainErr (list byte) :=
  match EncodeToBytes v with
  | Ok b => Ok b
  | Err e => Err (errRLP e)
  | Panic => Panic
  | NoFuel => NoFuel
  end.

Definition WriteCanonicalHash (hash : Hash) (number : Z) : M DB chainErr unit := Put (numKey number) (HashBytes hash).
Definition WriteHeadHeaderHash (hash : Hash) : M DB chainErr unit := Put headHeaderKey (HashBytes hash).
Definition WriteHeadBlockHash (hash : Hash) : M DB chainErr unit := Put headBlockKey (HashBytes hash).
Definition WriteHeadFastBlockHash (hash : Hash) : M DB chainErr unit := Put headFastKey (HashBytes hash).

Definition WriteHeader (header : Header) : M DB chainErr unit :=
  let! data := lift (encode (headerRLP header)) in
  let hash := headerHash header in
  let! num := lift (uint64Of (hNumber header)) in
  let! _ := Put (hashKey blockHashPrefix hash) (encodeBlockNumber num) in
  Put (numHashKey headerPrefix num hash) data.

Definition WriteBodyRLP (hash : Hash) (number : Z) (rlp : list byte) : M DB chainErr unit := Put (numHashKey bodyPrefix number hash) rlp.
Definition WriteBody (hash : Hash) (number : Z) (body : Body) : M DB chainErr unit :=
  let! data := lift (encode (bodyRLP body)) in
  WriteBodyRLP hash number data.

Definition WriteTd (hash : Hash) (number : Z) (td : Z) : M DB chainErr unit :=
  let! data := lift (encode (RBig (Some td))) in
  Put (tdKey number hash) data.

Definition WriteBlock (block : Block) : M DB chainErr unit :=
  let! number := lift (uint64Of (hNumber (bHeader block))) in
  let! _ := WriteBody (blockHash block) number (blockBody block) in
  WriteHeader (CopyHeader (bHeader block)).

Definition WriteBlockReceipts (hash : Hash) (number : Z) (receipts : list Receipt) : M DB chainErr unit :=
  let! bytes := lift (encode (RList (receiptStorageRLP <$> receipts))) in
  Put (numHashKey blockReceiptsPrefix number hash) bytes.

Fixpoint writeEntries (block : Block) (number i : Z) (txs : list Transaction) : M DB chainErr unit :=
  match txs with
  | [] => ret tt
  | tx :: txs =>
      let! data := lift (encode (entryRLP (mkEntry (blockHash block) number i))) in
      let! _ := Put (hashKey lookupPrefix (txHash tx)) data in
      writeEntries block number (i + 1) txs
  end.
(** Without transactions the number is not read. *)
Definition WriteTxLookupEntries (block : Block) : M DB chainErr unit :=
  match bTransactions block with
  | [] => ret tt
  | txs => let! number := lift (uint64Of (hNumber (bHeader block))) in writeEntries block number 0 txs
  end.

Definition WriteBloomBits (bit section : Z) (head : Hash) (bits : list byte) : M DB chainErr unit :=
  Put (bloomBitsKey (bit mod 2 ^ 16) section head) bits.

Definition WriteBlockChainVersion (vsn : Z) : M DB chainErr unit := Put versionKey (rlpEncode (RUint (u64 vsn))).

(** ** Deleting *)

Definition DeleteCanonicalHash (number : Z) : M DB chainErr unit := Delete (numKey number).
Definition DeleteHeader (hash : Hash) (number : Z) : M DB chainErr unit :=
  let! _ := Delete (hashKey blockHashPrefix hash) in
  Delete (numHashKey headerPrefix number hash).
Definition DeleteBody (hash : Hash) (number : Z) : M DB chainErr unit := Delete (numHashKey bodyPrefix number hash).
Definition DeleteTd (hash : Hash) (number : Z) : M DB chainErr unit := Delete (tdKey number hash).
Definition DeleteBlockReceipts (hash : Hash) (number : Z) : M DB chainErr unit := Delete (numHashKey blockReceiptsPrefix number hash).
Definition DeleteBlock (hash : Hash) (number : Z) : M DB chainErr unit :=
  let! _ := DeleteBlockReceipts hash number in
  let! _ := DeleteHeader hash number in
  let! _ := DeleteBody hash number in
  DeleteTd hash number.
Definition DeleteTxLookupEntry (hash : Hash) : M DB chainErr unit := Delete (hashKey lookupPrefix hash).

(** ** Preimages *)

(** The preimages that the table [PreimageTable] does not have, in one batch. *)
Definition WritePreimages `{triedb.DiskWrites} (preimages : gmap Hash (list byte)) : M DB chainErr unit := fun db =>
  let missing := filter (fun kv => db !! triedb.secureKey (HashBytes kv.1) = None) (map_to_list preimages) in
  let batch := foldl (fun b kv => triedb.Put (triedb.secureKey (HashBytes kv.1)) kv.2 b) triedb.NewBatch missing in
  match missing with
  | [] => (Ok tt, db)
  | _ => if triedb.writeOk db batch then (Ok tt, triedb.writeAll (triedb.writes batch) db) else (Err errBatch, db)
  end.

(** ** Common ancestors *)

(** The parent that is stored. *)
Definition parentOf (h : Header) (db : DB) : result chainErr (option Header) :=
  let* n := uint64Of (hNumber h) in Ok (GetHeader (hParentHash h) (u64 (n - 1)) db).

(** Down to the number [bn]; nil when an ancestor is missing. *)
Fixpoint descend (fuel : nat) (a : Header) (bn : Z) (db : DB) : result chainErr (option Header) :=
  match fuel with
  | O => NoFuel
  | S fuel =>
      let* n := uint64Of (hNumber a) in
      if n >? bn then
        let* p := parentOf a db in
        match p with None => Ok None | Some a => descend fuel a bn db end
      else Ok (Some a)
  end.
Fixpoint meet (fuel : nat) (a b : Header) (db : DB) : result chainErr (option Header) :=
  match fuel with
  | O => NoFuel
  | S fuel =>
      if headerHash a =? headerHash b then Ok (Some a)
      else
        let* a := parentOf a db in
        match a with
        | None => Ok None
        | Some a =>
            let* b := parentOf b db in
            match b with None => Ok None | Some b => meet fuel a b db end
        end
  end.
Definition FindCommonAncestor (fuel : nat) (a b : Header) (db : DB) : result chainErr (option Header) :=
  let* bn := uint64Of (hNumber b) in
  let* a := descend fuel a bn db in
  match a with
  | None => Ok None
  | Some a =>
      let* an := uint64Of (hNumber a) in
      let* b := descend fuel b an db in
      match b with None => Ok None | Some b => meet fuel a b db end
  end.
End Writing.
End chaindb.
