(* ===== verification/Genesis.v ===== *)
(** * Package core: the genesis block

    [Genesis] of src/core/genesis.go: the block of a specification with its state, written to
    the database, and the setup of a database that may have one already.

    The source keeps the state and the chain in one database; here the state is behind the
    class [state.Database], and the flush of its nodes, [TrieDB().Commit], is the argument
    [flush].  The configurations and hashes of the public networks are the record
    [Networks], and the encoding of configurations the class [ConfigJSON]. *)

From stdpp Require Import base numbers list gmap option.
From Stdlib Require Import ZArith Lia Strings.Byte.
From S2P Require Import Prelude Rlp Common Params Types TrieDatabase Transactions State Receipts Blocks ChainDb.

(** [json.Marshal] and [json.Unmarshal] on [ChainConfig]. *)
Class ConfigJSON := {
  configMarshal : ChainConfig -> option (list byte);
  configUnmarshal : list byte -> option ChainConfig
}.

Module genesis.

Record GenesisAccount := mkAccount { gaCode : list byte; gaStorage : gmap Hash Hash; gaBalance : Z; gaNonce : Z }.

Record Genesis := mkGenesis {
  gConfig : option ChainConfig;
  gNonce : Z;
  gTimestamp : Z;
  gExtraData : list byte;
  gSigners : list Address;
  gVoters : list Address;
  gSigner : list byte;
  gGasLimit : Z;
  gDifficulty : option Z;
  gMixhash : Hash;
  gCoinbase : Address;
  gAlloc : gmap Address GenesisAccount;
  gNumber : Z;
  gGasUsed : Z;
  gParentHash : Hash
}.

Inductive genesisErr :=
| errGenesisNoConfig
| errGenesisNumber
| GenesisMismatchError (stored new : Hash)
| ErrChainConfigNotFound
| errConfigJSON
| errNoHeadNumber
| errCompat (e : ConfigCompatError)
| errStore (e : chaindb.chainErr).

Record Networks := mkNetworks {
  MainnetGenesisHash : Hash;
  MainnetChainConfig : ChainConfig;
  TestnetGenesisHash : Hash;
  TestnetChainConfig : ChainConfig;
  AllCliqueProtocolChanges : ChainConfig;
  DefaultGenesisBlock : Genesis
}.

Definition GenesisGasLimit : Z := 210284448.
Definition EncodeNonce (i : Z) : list byte := be_bytes 8 i.
(** "ethereum-config-" *)
Definition configPrefix : list byte := [x65; x74; x68; x65; x72; x65; x75; x6d; x2d; x63; x6f; x6e; x66; x69; x67; x2d].

(** The orders in which one run of [ToBlock] takes the entries of the maps; Go does not fix
    them. *)
Record Iteration := mkIteration {
  overAlloc : gmap Address GenesisAccount -> list (Address * GenesisAccount);
  overStorage : Address -> gmap Hash Hash -> list (Hash * Hash)
}.

(** [Total] of an allocation. *)
Definition Total (alloc : gmap Address GenesisAccount) : Z := map_fold (fun _ st sum => sum + gaBalance st) 0 alloc.

Section Genesis.
Context {CR : Crypto} {D T : Type} {DB : state.Database D T} {CJ : ConfigJSON}.
Notation statedb := (state.StateDB D T).
Notation GM A := (M chaindb.DB genesisErr A).

(** ** The block *)

Definition allocOne (it : Iteration) (s : statedb) (entry : Address * GenesisAccount) : statedb :=
  let '(addr, account) := entry in
  let s := state.AddBalance addr (gaBalance account) s in
  let s := state.SetCode addr (gaCode account) s in
  let s := state.SetNonce addr (gaNonce account) s in
  foldl (fun s kv => state.SetState addr kv.1 kv.2 s) s (overStorage it addr (gaStorage account)).
Definition allocState (it : Iteration) (g : Genesis) (s : statedb) : statedb := foldl (allocOne it) s (overAlloc it (gAlloc g)).

Definition genesisHead (g : Genesis) (root : Hash) : Header :=
  mkHeader (gParentHash g) 0 (gCoinbase g) (gSigners g) (gVoters g) (gSigner g) root 0 0 emptyBloom
    (Some (default 1 (gDifficulty g))) (Some (gNumber g)) (if gGasLimit g =? 0 then GenesisGasLimit else gGasLimit g) (gGasUsed g)
    (Some (gTimestamp g)) (gExtraData g) (gMixhash g) (EncodeNonce (gNonce g)).

(** Failing commits of the state are only logged; the model goes on with the state before. *)
Definition ToBlock (it : Iteration) (flush : Hash -> D -> D) (g : Genesis) (d : D) : result genesisErr (Block * D) :=
  let* s := deref (state.New 0 d) in
  let* (root, s) := deref (state.IntermediateRoot false (allocState it g s)) in
  let* s := match state.Commit false s with Ok (_, s) => Ok s | Err _ => Ok s | Panic => Panic | NoFuel => NoFuel end in
  match NewBlock (genesisHead g root) [] [] [] with
  | Ok b => Ok (b, flush root (state.db s))
  | NoFuel => NoFuel
  | _ => Panic
  end.

(** ** Writing it *)

Definition stores {A} (m : M chaindb.DB chaindb.chainErr A) : GM A := fun db =>
  match m db with
  | (Ok a, db) => (Ok a, db)
  | (Err e, db) => (Err (errStore e), db)
  | (Panic, db) => (Panic, db)
  | (NoFuel, db) => (NoFuel, db)
  end.

Definition WriteChainConfig (hash : Hash) (cfg : ChainConfig) : GM unit :=
  match configMarshal cfg with
  | None => throw errConfigJSON
  | Some b => chaindb.Put (configPrefix ++ HashBytes hash) b
  end.
Definition GetChainConfig (hash : Hash) (db : chaindb.DB) : result genesisErr ChainConfig :=
  match chaindb.Get (configPrefix ++ HashBytes hash) db with
  | [] => Err ErrChainConfigNotFound
  | b => match configUnmarshal b with Some cfg => Ok cfg | None => Err errConfigJSON end
  end.

(** A nil difficulty is written as zero. *)
Definition writeTd (hash : Hash) (number : Z) (td : option Z) : M chaindb.DB chaindb.chainErr unit :=
  let! data := lift (chaindb.encode (RBig td)) in
  chaindb.Put (chaindb.tdKey number hash) data.

Definition commitBlock (nets : Networks) (g : Genesis) (block : Block) : GM unit :=
  let hash := blockHash block in
  let! z := lift (deref (hNumber (bHeader block))) in
  if negb (z =? 0) then throw errGenesisNumber
  else
    let number := bigUint64 z in
    let! _ := stores (writeTd hash number (gDifficulty g)) in
    let! _ := stores (chaindb.WriteBlock block) in
    let! _ := stores (chaindb.WriteBlockReceipts hash number []) in
    let! _ := stores (chaindb.WriteCanonicalHash hash number) in
    let! _ := stores (chaindb.WriteHeadBlockHash hash) in
    let! _ := stores (chaindb.WriteHeadHeaderHash hash) in
    WriteChainConfig hash (default (AllCliqueProtocolChanges nets) (gConfig g)).

(** The block, nil with an error before the configuration is written, and the state's database. *)
Definition Commit (it : Iteration) (nets : Networks) (flush : Hash -> D -> D) (g : Genesis) (d : D) : GM (Block * D) :=
  let! (block, d) := lift (ToBlock it flush g d) in
  let! _ := commitBlock nets g block in
  ret (block, d).

(** ** Setting up a database *)

Definition configOrDefault (nets : Networks) (g : option Genesis) (ghash : Hash) : option ChainConfig :=
  match g with
  | Some g => gConfig g
  | None =>
      Some (if ghash =? MainnetGenesisHash nets then MainnetChainConfig nets
            else if ghash =? TestnetGenesisHash nets then TestnetChainConfig nets
            else AllCliqueProtocolChanges nets)
  end.

(** The configuration, the hash of the genesis block and the error, with the state's database;
    [fresh] is an empty one.  When the block could not be written there is none to take the
    hash of. *)
Definition outcome : Type := option ChainConfig * Hash * option genesisErr * D.

Definition writeConfig (hash : Hash) (cfg : option ChainConfig) (d : D) : GM outcome := fun db =>
  match cfg with
  | None => (Ok (cfg, hash, None, d), db)
  | Some c =>
      match WriteChainConfig hash c db with
      | (Ok _, db) => (Ok (cfg, hash, None, d), db)
      | (Err e, db) => (Ok (cfg, hash, Some e, d), db)
      | (Panic, db) => (Panic, db)
      | (NoFuel, db) => (NoFuel, db)
      end
  end.

Definition setupNew (it : Iteration) (nets : Networks) (flush : Hash -> D -> D) (g : Genesis) (d : D) : GM outcome :=
  let! (block, d) := lift (ToBlock it flush g d) in
  fun db =>
    match commitBlock nets g block db with
    | (Ok _, db) => (Ok (gConfig g, blockHash block, None, d), db)
    | (Err errConfigJSON, db) => (Ok (gConfig g, blockHash block, Some errConfigJSON, d), db)
    | (NoFuel, db) => (NoFuel, db)
    | (_, db) => (Panic, db)
    end.

Definition setupConfig (fuel : nat) (nets : Networks) (g : option Genesis) (stored : Hash) (d : D) : GM outcome := fun db =>
  let newcfg := configOrDefault nets g stored in
  match GetChainConfig stored db with
  | Err ErrChainConfigNotFound => writeConfig stored newcfg d db
  | Err e => (Ok (newcfg, stored, Some e, d), db)
  | Panic => (Panic, db)
  | NoFuel => (NoFuel, db)
  | Ok storedcfg =>
      if bool_decide (g = None) && negb (stored =? MainnetGenesisHash nets) then (Ok (Some storedcfg, stored, None, d), db)
      else
        let height := chaindb.GetBlockNumber (chaindb.GetHeadHeaderHash db) db in
        if height =? chaindb.missingNumber then (Ok (newcfg, stored, Some errNoHeadNumber, d), db)
        else
          match newcfg with
          | None => (Panic, db)
          | Some cfg =>
              match CheckCompatible fuel storedcfg cfg height with
              | None => (NoFuel, db)
              | Some (Some e) =>
                  if negb (height =? 0) && negb (RewindTo e =? 0) then (Ok (newcfg, stored, Some (errCompat e), d), db)
                  else writeConfig stored newcfg d db
              | Some None => writeConfig stored newcfg d db
              end
          end
  end.

Definition SetupGenesisBlock (it : Iteration) (fuel : nat) (nets : Networks) (flush : Hash -> D -> D) (fresh : D) (g : option Genesis) (d : D)
    : GM outcome := fun db =>
  if match g with Some g => bool_decide (gConfig g = None) | None => false end
  then (Ok (Some (AllCliqueProtocolChanges nets), 0, Some errGenesisNoConfig, d), db)
  else
    let stored := chaindb.GetCanonicalHash 0 db in
    if stored =? 0 then setupNew it nets flush (default (DefaultGenesisBlock nets) g) d db
    else
      match g with
      | None => setupConfig fuel nets g stored d db
      | Some g' =>
          (let! (block, _) := lift (ToBlock it flush g' fresh) in
           let hash := blockHash block in
           if negb (hash =? stored) then ret (gConfig g', hash, Some (GenesisMismatchError stored hash), d)
           else setupConfig fuel nets g stored d) db
      end.
End Genesis.
End genesis.
