(* ===== verification/ChainDbProofs.v ===== *)
(** * Package core: the store of the chain is a store

    The keys of the entries are apart from each other and from the nodes of the tries, so
    that an entry is read back as it was written, whatever else is written. *)

From stdpp Require Import base numbers list gmap option.
From Stdlib Require Import ZArith Lia Strings.Byte.
From S2P Require Import Prelude Rlp RlpStream RlpDecodeProofs RlpTypeProofs RlpRawProofs Common Types TrieDatabase Transactions TransactionProofs State Receipts Blocks ChainDb Genesis.
Import chaindb.

(** ** The entries *)

Inductive key :=
| KHeader (number : Z) (hash : Hash)
| KTd (number : Z) (hash : Hash)
| KBody (number : Z) (hash : Hash)
| KReceipts (number : Z) (hash : Hash)
| KCanonical (number : Z)
| KNumber (hash : Hash)
| KLookup (hash : Hash)
| KBloomBits (bit section : Z) (hash : Hash)
| KHeadHeader
| KHeadBlock
| KHeadFast
| KVersion
| KConfig (hash : Hash)
(** Nodes of tries and codes, and preimages: written by the node database. *)
| KNode (hash : Hash)
| KPreimage (hash : Hash).
#[global] Instance key_eq_dec : EqDecision key.
Proof. solve_decision. Defined.

Definition keyBytes (k : key) : list byte :=
  match k with
  | KHeader n h => numHashKey headerPrefix n h
  | KTd n h => tdKey n h
  | KBody n h => numHashKey bodyPrefix n h
  | KReceipts n h => numHashKey blockReceiptsPrefix n h
  | KCanonical n => numKey n
  | KNumber h => hashKey blockHashPrefix h
  | KLookup h => hashKey lookupPrefix h
  | KBloomBits b s h => bloomBitsKey b s h
  | KHeadHeader => headHeaderKey
  | KHeadBlock => headBlockKey
  | KHeadFast => headFastKey
  | KVersion => versionKey
  | KConfig h => genesis.configPrefix ++ HashBytes h
  | KNode h => HashBytes h
  | KPreimage h => triedb.secureKey (HashBytes h)
  end.

Definition keyOk (k : key) : Prop :=
  match k with
  | KHeader n h | KTd n h | KBody n h | KReceipts n h => is_u64 n /\ is_hash h
  | KCanonical n => is_u64 n
  | KNumber h | KLookup h | KConfig h | KNode h | KPreimage h => is_hash h
  | KBloomBits b s h => 0 <= b < 2 ^ 16 /\ is_u64 s /\ is_hash h
  | KHeadHeader | KHeadBlock | KHeadFast | KVersion => True
  end.

Lemma length_keyBytes k :
  length (keyBytes k) =
  match k with
  | KHeader _ _ | KBody _ _ | KReceipts _ _ => 41
  | KTd _ _ => 42
  | KCanonical _ | KHeadHeader => 10
  | KNumber _ | KLookup _ => 33
  | KBloomBits _ _ _ | KPreimage _ => 43
  | KHeadBlock => 9
  | KHeadFast => 8
  | KVersion => 17
  | KConfig _ => 48
  | KNode _ => 32
  end%nat.
Proof.
  destruct k; cbn [keyBytes]; unfold numHashKey, tdKey, numKey, hashKey, bloomBitsKey, triedb.secureKey, HashBytes;
    cbn [length]; rewrite ?length_app, ?length_be_bytes; reflexivity.
Qed.

(** The parts of a key. *)
Lemma cons_tail (x y : byte) (l l' : list byte) : x :: l = y :: l' -> l = l'.
Proof. by injection 1. Qed.
Lemma be8_app n n' (r r' : list byte) : is_u64 n -> is_u64 n' -> be_bytes 8 n ++ r = be_bytes 8 n' ++ r' -> n = n' /\ r = r'.
Proof.
  intros Hn Hn' E. apply app_inj_1 in E as [E1 E2]; [|by rewrite !length_be_bytes]. split; [|done]. by apply (be_bytes_inj 8).
Qed.

Lemma keyBytes_inj k k' : keyOk k -> keyOk k' -> keyBytes k = keyBytes k' -> k = k'.
Proof.
  intros Hk Hk' E. pose proof (f_equal length E) as El. rewrite !length_keyBytes in El.
  destruct k, k'; try discriminate El; try discriminate E; try done; cbn [keyOk] in Hk, Hk'; cbn [keyBytes] in E;
    unfold numHashKey, tdKey, numKey, hashKey, bloomBitsKey in E.
  1, 3, 4: apply cons_tail in E; destruct Hk, Hk'; apply be8_app in E as [-> E]; [|done..]; by apply HashBytes_inj in E as ->.
  - apply cons_tail in E. destruct Hk, Hk'. apply be8_app in E as [-> E]; [|done..]. apply app_inv_tail in E. by apply HashBytes_inj in E as ->.
  - apply cons_tail in E. apply be8_app in E as [-> _]; done.
  - apply cons_tail in E. by apply HashBytes_inj in E as ->.
  - apply cons_tail in E. by apply HashBytes_inj in E as ->.
  - apply cons_tail in E. destruct Hk as (? & ? & ?), Hk' as (? & ? & ?). apply app_inj_1 in E as [E1 E]; [|by rewrite !length_be_bytes].
    apply be8_app in E as [-> E]; [|done..]. apply HashBytes_inj in E as ->; [|done..]. by apply (be_bytes_inj 2) in E1 as ->.
  - apply app_inv_head in E. by apply HashBytes_inj in E as ->.
  - by apply HashBytes_inj in E as ->.
  - apply app_inv_head in E. by apply HashBytes_inj in E as ->.
Qed.

(** ** Frames *)

(** At most the entries [ks] have changed. *)
Definition Only (ks : list key) (db db' : DB) : Prop :=
  forall k, keyOk k -> k ∉ ks -> db' !! keyBytes k = db !! keyBytes k.

Lemma Only_refl db : Only [] db db.
Proof. done. Qed.
Lemma Only_trans ks ks' db db1 db2 : Only ks db db1 -> Only ks' db1 db2 -> Only (ks ++ ks') db db2.
Proof. intros H1 H2 k Hk Hin. rewrite elem_of_app in Hin. rewrite H2, H1 by tauto. done. Qed.
Lemma Only_mono ks ks' db db' : Only ks db db' -> (forall k, k ∈ ks -> k ∈ ks') -> Only ks' db db'.
Proof. intros H Hs k Hk Hin. apply H; [done|]. intros Hx. by apply Hin, Hs. Qed.
Lemma Only_insert k v db : keyOk k -> Only [k] db (<[keyBytes k := v]> db).
Proof.
  intros Hk k' Hk' Hin. rewrite lookup_insert_ne; [done|]. intros E. apply Hin, list_elem_of_singleton. symmetry. by apply keyBytes_inj.
Qed.
Lemma Only_delete k db : keyOk k -> Only [k] db (base.delete (keyBytes k) db).
Proof.
  intros Hk k' Hk' Hin. rewrite lookup_delete_ne; [done|]. intros E. apply Hin, list_elem_of_singleton. symmetry. by apply keyBytes_inj.
Qed.

(** What a reader sees depends on its entry. *)
Lemma Get_same k ks db db' : Only ks db db' -> keyOk k -> k ∉ ks -> Get (keyBytes k) db' = Get (keyBytes k) db.
Proof. intros Ho Hk Hin. unfold Get. by rewrite Ho. Qed.

#[local] Ltac same k :=
  match goal with HO : Only _ _ _ |- _ => let E := fresh in pose proof (Get_same k _ _ _ HO) as E; cbn [keyBytes keyOk] in E; by rewrite E end.

Section Readers.
Context (ks : list key) (db db' : DB) (HO : Only ks db db').

Lemma GetHeader_same h n : is_u64 n -> is_hash h -> KHeader n h ∉ ks -> GetHeader h n db' = GetHeader h n db.
Proof. intros Hn Hh Hk. unfold GetHeader, getRLP. same (KHeader n h). Qed.
Lemma GetBody_same h n : is_u64 n -> is_hash h -> KBody n h ∉ ks -> GetBody h n db' = GetBody h n db.
Proof. intros Hn Hh Hk. unfold GetBody, getRLP. same (KBody n h). Qed.
Lemma GetTd_same h n : is_u64 n -> is_hash h -> KTd n h ∉ ks -> GetTd h n db' = GetTd h n db.
Proof. intros Hn Hh Hk. unfold GetTd, getRLP. same (KTd n h). Qed.
Lemma GetBlockReceipts_same h n : is_u64 n -> is_hash h -> KReceipts n h ∉ ks -> GetBlockReceipts h n db' = GetBlockReceipts h n db.
Proof. intros Hn Hh Hk. unfold GetBlockReceipts, getAllRLP. same (KReceipts n h). Qed.
Lemma GetTxLookupEntry_same h : is_hash h -> KLookup h ∉ ks -> GetTxLookupEntry h db' = GetTxLookupEntry h db.
Proof. intros Hh Hk. unfold GetTxLookupEntry, getAllRLP. same (KLookup h). Qed.
Lemma GetBlockNumber_same h : is_hash h -> KNumber h ∉ ks -> GetBlockNumber h db' = GetBlockNumber h db.
Proof. intros Hh Hk. unfold GetBlockNumber. same (KNumber h). Qed.
Lemma GetCanonicalHash_same n : is_u64 n -> KCanonical n ∉ ks -> GetCanonicalHash n db' = GetCanonicalHash n db.
Proof. intros Hn Hk. unfold GetCanonicalHash, getHash. same (KCanonical n). Qed.
Lemma GetHeadHeaderHash_same : KHeadHeader ∉ ks -> GetHeadHeaderHash db' = GetHeadHeaderHash db.
Proof. intros Hk. unfold GetHeadHeaderHash, getHash. same KHeadHeader. Qed.
Lemma GetHeadBlockHash_same : KHeadBlock ∉ ks -> GetHeadBlockHash db' = GetHeadBlockHash db.
Proof. intros Hk. unfold GetHeadBlockHash, getHash. same KHeadBlock. Qed.
End Readers.

(** ** Writing and reading back *)

Lemma Get_insert k v db : Get k (<[k := v]> db) = v.
Proof. unfold Get. by rewrite lookup_insert_eq. Qed.

Lemma HashBytes_nonempty h : HashBytes h <> [].
Proof. intros E. apply (f_equal length) in E. unfold HashBytes in E. by rewrite length_be_bytes in E. Qed.

Lemma getHash_insert k h db : is_hash h -> getHash k (<[k := HashBytes h]> db) = h.
Proof.
  intros Hh. unfold getHash. rewrite Get_insert. pose proof (HashBytes_nonempty h). destruct (HashBytes h) as [|b r] eqn:E; [done|].
  rewrite <- E. by apply BytesToHash_bytes.
Qed.
Lemma getHash_delete k db : getHash k (base.delete k db) = 0.
Proof. unfold getHash, Get. by rewrite lookup_delete_eq. Qed.

Lemma getRLP_insert {A} k t (conv : rlpValue -> option A) v x db :
  typeOk false t = true -> hasType t v = true -> rlpSize v < 2 ^ 64 -> conv v = Some x ->
  exists b, encode v = Ok b /\ getRLP k t conv (<[k := b]> db) = Some x /\ getAllRLP k t conv (<[k := b]> db) = Some x.
Proof.
  intros Ht Hv Hs Hx. destruct (decode_reader t v Ht Hv Hs) as (b & E & _ & Hne & E1 & E2). exists b. unfold encode, getRLP, getAllRLP.
  rewrite E, Get_insert. split; [done|]. destruct b; [done|]. by rewrite E1, E2.
Qed.

Section Entries.
Context {CR : Crypto}.

Definition numberOf (h : Header) : Z := bigUint64 (default 0 (hNumber h)).

Lemma numberOf_u64 h : is_u64 (numberOf h).
Proof. unfold numberOf, bigUint64, is_u64. apply Z.mod_pos_bound. lia. Qed.

(** A header that can be stored. *)
Record Storable (h : Header) : Prop := {
  so_ok : HeaderOk h;
  so_size : rlpSize (headerRLP h) < 2 ^ 64;
  so_hash : is_hash (headerHash h)
}.

Lemma header_number h : HeaderOk h -> exists z, hNumber h = Some z /\ 0 <= z.
Proof. intros [_ _ _ Hb _ _]. rewrite !list.Forall_cons in Hb. by destruct Hb as (_ & (z & Ez & Hz) & _); exists z. Qed.

Lemma uint64Of_number {E} h : HeaderOk h -> uint64Of (E := E) (hNumber h) = Ok (numberOf h).
Proof. intros Hh. destruct (header_number h Hh) as (z & Ez & _). unfold numberOf. by rewrite Ez. Qed.

Lemma CopyHeader_ok h : HeaderOk h -> CopyHeader h = h.
Proof.
  destruct h. intros [_ _ _ Hb _ _]. cbn in Hb. rewrite !list.Forall_cons in Hb. destruct Hb as ((? & -> & _) & (? & -> & _) & (? & -> & _) & _). done.
Qed.

Lemma WriteHeader_ok h db :
  Storable h -> exists db', WriteHeader h db = (Ok tt, db') /\ Only [KNumber (headerHash h); KHeader (numberOf h) (headerHash h)] db db' /\
    GetHeader (headerHash h) (numberOf h) db' = Some h /\ GetBlockNumber (headerHash h) db' = numberOf h.
Proof.
  intros [Hh Hs Hx]. pose proof (numberOf_u64 h) as Hn. set (db1 := <[keyBytes (KNumber (headerHash h)) := encodeBlockNumber (numberOf h)]> db).
  destruct (getRLP_insert (keyBytes (KHeader (numberOf h) (headerHash h))) headerType headerOf (headerRLP h) h db1) as (b & E & Eg & _);
    [done|by apply header_type|done|by apply header_back|]. unfold WriteHeader, mbind, lift. rewrite E, uint64Of_number by done.
  exists (<[keyBytes (KHeader (numberOf h) (headerHash h)) := b]> db1). split; [done|].
  assert (Ho : Only [KHeader (numberOf h) (headerHash h)] db1 (<[keyBytes (KHeader (numberOf h) (headerHash h)) := b]> db1)) by (by apply Only_insert).
  split_and!.
  - apply (Only_trans [KNumber (headerHash h)] [KHeader (numberOf h) (headerHash h)] _ db1); [|done]. by apply Only_insert.
  - done.
  - rewrite (GetBlockNumber_same _ _ _ Ho) by (done || (rewrite list_elem_of_singleton; done)). unfold GetBlockNumber, db1. cbn [keyBytes]. rewrite Get_insert.
    unfold encodeBlockNumber. rewrite length_be_bytes, be_value_be_bytes. cbn [Nat.eqb negb]. by apply Z.mod_small.
Qed.

Lemma WriteTd_ok hash n td db :
  is_u64 n -> is_hash hash -> 0 <= td < 2 ^ 256 ->
  exists db', WriteTd hash n td db = (Ok tt, db') /\ Only [KTd n hash] db db' /\ GetTd hash n db' = Some td.
Proof.
  intros Hn Hx Ht. destruct (getRLP_insert (keyBytes (KTd n hash)) TBig tdOf (RBig (Some td)) td db) as (b & E & Eg & _); [done|cbn; apply Z.leb_le; lia| |done|].
  { pose proof (big_bytes_length td 32 Ht). cbn [rlpSize from_option id]. lia. }
  unfold WriteTd, mbind, lift. rewrite E. eexists. split; [reflexivity|]. split; [by apply (Only_insert (KTd n hash))|done].
Qed.

Lemma WriteBody_ok hash n body db :
  is_u64 n -> is_hash hash -> BodyOk body -> rlpSize (bodyRLP body) < 2 ^ 64 ->
  exists db', WriteBody hash n body db = (Ok tt, db') /\ Only [KBody n hash] db db' /\ GetBody hash n db' = Some (storedBody body).
Proof.
  intros Hn Hx Hb Hs. destruct (getRLP_insert (keyBytes (KBody n hash)) bodyType bodyOf (bodyRLP body) (storedBody body) db) as (b & E & Eg & _);
    [done|by apply body_type|done|by apply body_back|].
  unfold WriteBody, mbind, lift. rewrite E. eexists. split; [reflexivity|]. split; [by apply (Only_insert (KBody n hash))|done].
Qed.

(** A block that can be stored, and what is read back: the senders are not stored. *)
Record BlockStorable (b : Block) : Prop := {
  bs_header : Storable (bHeader b);
  bs_body : BodyOk (blockBody b);
  bs_size : rlpSize (bodyRLP (blockBody b)) < 2 ^ 64
}.
Definition storedBlock (b : Block) : Block := NewBlockWith (bHeader b) (storedBody (blockBody b)).
Notation numberOfBlock b := (numberOf (bHeader b)).

Lemma WriteBlock_ok b db :
  BlockStorable b ->
  exists db', WriteBlock b db = (Ok tt, db') /\
    Only [KBody (numberOfBlock b) (blockHash b); KNumber (blockHash b); KHeader (numberOfBlock b) (blockHash b)] db db' /\
    GetBlock (blockHash b) (numberOfBlock b) db' = Some (storedBlock b) /\ GetBlockNumber (blockHash b) db' = numberOfBlock b /\
    GetBody (blockHash b) (numberOfBlock b) db' = Some (storedBody (blockBody b)).
Proof.
  intros [[Hh Hs Hx] Hb Hbs]. pose proof (numberOf_u64 (bHeader b)) as Hn. unfold WriteBlock, mbind, lift. rewrite uint64Of_number by done.
  destruct (WriteBody_ok (blockHash b) (numberOfBlock b) (blockBody b) db) as (db1 & E1 & Ho1 & Eb); [done..|]. rewrite E1.
  rewrite CopyHeader_ok by done. destruct (WriteHeader_ok (bHeader b) db1) as (db2 & E2 & Ho2 & Eh & En); [done|]. rewrite E2.
  exists db2. split; [done|]. assert (Eb2 : GetBody (blockHash b) (numberOfBlock b) db2 = Some (storedBody (blockBody b))).
  { rewrite (GetBody_same _ _ _ Ho2); [done|done|done|]. rewrite !not_elem_of_cons. by split_and!; [..|apply not_elem_of_nil]. }
  split_and!; [exact (Only_trans _ _ _ _ _ Ho1 Ho2)| |done|done].
  unfold GetBlock. change (headerHash (bHeader b)) with (blockHash b) in Eh. rewrite Eh. cbn [base.mbind option_bind]. rewrite Eb2. done.
Qed.

Lemma WriteBlockReceipts_ok hash n rs db :
  is_u64 n -> is_hash hash -> Forall ReceiptOk rs -> rlpSize (RList (receiptStorageRLP <$> rs)) < 2 ^ 64 ->
  exists db', WriteBlockReceipts hash n rs db = (Ok tt, db') /\ Only [KReceipts n hash] db db' /\ GetBlockReceipts hash n db' = stored <$> rs.
Proof.
  intros Hn Hx Hr Hs.
  destruct (getRLP_insert (keyBytes (KReceipts n hash)) (TSlice receiptStorageType) receiptsOf (RList (receiptStorageRLP <$> rs)) (stored <$> rs) db)
    as (b & E & _ & Eg); [done| |done| |].
  - apply slice_type. eapply Forall_impl; [|exact Hr]. apply receipt_type.
  - cbn [receiptsOf]. apply (mapM_back _ _ _ ReceiptOk); [|done]. apply receipt_back.
  - unfold WriteBlockReceipts, mbind, lift. rewrite E. eexists. split; [reflexivity|]. split; [by apply (Only_insert (KReceipts n hash))|].
    unfold GetBlockReceipts. cbn [keyBytes] in Eg. by rewrite Eg.
Qed.

(** *** Lookup entries *)

Lemma entry_type e : is_u64 (BlockIndex e) -> is_u64 (Index e) -> hasType entryType (entryRLP e) = true.
Proof. intros H1 H2. apply hasType_struct. repeat apply Forall2_cons_2; try apply Forall2_nil_2; [apply hash_type|by apply uint_type..]. Qed.

Lemma entry_back e : is_hash (BlockHash e) -> entryOf (entryRLP e) = Some e.
Proof. destruct e as [h n i]. cbn [BlockHash]. intros Hh. unfold entryOf, entryRLP, rHash. cbn [BlockHash BlockIndex Index]. by rewrite BytesToHash_bytes. Qed.

Lemma entry_size e : rlpSize (entryRLP e) < 2 ^ 64.
Proof. unfold entryRLP, rHash, HashBytes. cbn [rlpSize foldr]. rewrite length_be_bytes. lia. Qed.

Lemma WriteEntry_ok e hash db :
  is_hash hash -> is_hash (BlockHash e) -> is_u64 (BlockIndex e) -> is_u64 (Index e) ->
  exists b, encode (entryRLP e) = Ok b /\ Only [KLookup hash] db (<[hashKey lookupPrefix hash := b]> db) /\
    GetTxLookupEntry hash (<[hashKey lookupPrefix hash := b]> db) = (BlockHash e, BlockIndex e, Index e).
Proof.
  intros Hh Hb Hn Hi. destruct (getRLP_insert (keyBytes (KLookup hash)) entryType entryOf (entryRLP e) e db) as (b & E & _ & Eg);
    [done|by apply entry_type|apply entry_size|by apply entry_back|]. exists b. split; [done|]. split; [by apply (Only_insert (KLookup hash))|].
  unfold GetTxLookupEntry. cbn [keyBytes] in Eg. by rewrite Eg.
Qed.

Definition lookups (txs : list Transaction) : list key := (fun tx => KLookup (txHash tx)) <$> txs.

Lemma writeEntries_ok b n txs : forall i db,
  is_u64 n -> is_hash (blockHash b) -> Forall (fun tx => is_hash (txHash tx)) txs -> 0 <= i -> i + Z.of_nat (length txs) <= 2 ^ 64 ->
  NoDup (txHash <$> txs) ->
  exists db', writeEntries b n i txs db = (Ok tt, db') /\ Only (lookups txs) db db' /\
    forall k tx, txs !! k = Some tx -> GetTxLookupEntry (txHash tx) db' = (blockHash b, n, i + Z.of_nat k).
Proof.
  induction txs as [|tx txs IH]; intros i db Hn Hb Hh Hi Hl Hd; cbn [writeEntries]; [by exists db|].
  cbn [fmap list_fmap] in Hd. apply list.NoDup_cons in Hd as [Hnew Hd]. cbn [length] in Hl. pose proof (Forall_inv Hh) as Hh1. apply Forall_inv_tail in Hh.
  destruct (WriteEntry_ok (mkEntry (blockHash b) n i) (txHash tx) db) as (d & E & Ho & Eg); [done|done|done|cbn; unfold is_u64; lia|].
  unfold mbind, lift. rewrite E. unfold Put, modify.
  destruct (IH (i + 1) (<[hashKey lookupPrefix (txHash tx) := d]> db)) as (db' & E' & Ho' & Hg); [done|done|done|lia|lia|done|].
  exists db'. split; [done|]. split; [exact (Only_trans [_] _ _ _ _ Ho Ho')|]. intros [|k] tx' Hk.
  - injection Hk as <-. rewrite (GetTxLookupEntry_same _ _ _ Ho'); [by rewrite Eg, Z.add_0_r|done|].
    intros (tx' & Ex & Hin)%list_elem_of_fmap. injection Ex as Ex. apply Hnew, list_elem_of_fmap. by exists tx'.
  - rewrite (Hg k tx' Hk). f_equal. lia.
Qed.

Lemma WriteTxLookupEntries_ok b db :
  HeaderOk (bHeader b) -> is_hash (blockHash b) -> Forall (fun tx => is_hash (txHash tx)) (bTransactions b) ->
  Z.of_nat (length (bTransactions b)) < 2 ^ 63 -> NoDup (txHash <$> bTransactions b) ->
  exists db', WriteTxLookupEntries b db = (Ok tt, db') /\ Only (lookups (bTransactions b)) db db' /\
    forall k tx, bTransactions b !! k = Some tx -> GetTxLookupEntry (txHash tx) db' = (blockHash b, numberOf (bHeader b), Z.of_nat k).
Proof.
  intros Hh Hb Hx Hl Hd. unfold WriteTxLookupEntries. destruct (bTransactions b) as [|tx txs] eqn:Et; [by exists db|].
  unfold mbind at 1, lift at 1. rewrite uint64Of_number by done. rewrite <- Et in *.
  destruct (writeEntries_ok b (numberOf (bHeader b)) (bTransactions b) 0 db) as (db' & E & Ho & Hg); [apply numberOf_u64|done|done|done|lia|done|].
  exists db'. split; [done|]. split; [done|]. intros k tx' Hk. by rewrite (Hg k tx' Hk).
Qed.

Lemma elementAt_ok {E A} (l : list A) k x :
  l !! k = Some x -> Z.of_nat (length l) < 2 ^ 63 -> elementAt (E := E) l (Z.of_nat k) = Ok (Some x).
Proof.
  intros Hk Hl. pose proof (lookup_lt_Some _ _ _ Hk). unfold elementAt. rewrite i64_small by lia. destruct (Z.leb_spec (Z.of_nat (length l)) (Z.of_nat k)); [lia|].
  rewrite Nat2Z.id, Hk. done.
Qed.

Lemma GetTransaction_ok hash b n k body tx db :
  GetTxLookupEntry hash db = (b, n, Z.of_nat k) -> b <> 0 -> GetBody b n db = Some body -> Transactions body !! k = Some tx ->
  Z.of_nat (length (Transactions body)) < 2 ^ 63 -> GetTransaction hash db = Ok (Some (tx, b, n, Z.of_nat k)).
Proof.
  intros El Hb Ebo Hk Hl. unfold GetTransaction. rewrite El. destruct (Z.eqb_spec b 0); [done|]. cbn [negb]. rewrite Ebo.
  by rewrite (elementAt_ok _ k tx).
Qed.

Lemma GetReceipt_ok hash b n k r db :
  GetTxLookupEntry hash db = (b, n, Z.of_nat k) -> b <> 0 -> GetBlockReceipts b n db !! k = Some r ->
  Z.of_nat (length (GetBlockReceipts b n db)) < 2 ^ 63 -> GetReceipt hash db = Ok (Some (r, b, n, Z.of_nat k)).
Proof.
  intros El Hb Hk Hl. unfold GetReceipt. rewrite El. destruct (Z.eqb_spec b 0); [done|]. cbn [negb].
  by rewrite (elementAt_ok _ k r).
Qed.
End Entries.
