(* ===== verification/HeaderChain.v ===== *)
(** * Package core: the chain of headers

    [HeaderChain] of src/core/headerchain.go over the store of the chain: which of the
    stored headers are canonical, and the head, the header with the highest total
    difficulty.

    The caches of github.com/hashicorp/golang-lru are the class [LRU].  Where the source
    calls [log.Crit], which ends the process, the model panics.  What the clock, the random
    source and the interrupt flag decide are arguments: [coin] breaks a tie, [stop] says
    before which header the import is aborted. *)

From stdpp Require Import base numbers list gmap option.
From Stdlib Require Import ZArith Lia Strings.Byte.
From S2P Require Import Prelude Rlp Common Types TrieDatabase CliqueSnapshot Blocks ChainDb.

(** [Contains] and [Purge] of an LRU cache, besides [Get] and [Add]. *)
Class LRU (C K V : Type) := {
  lruCache :: Cache C K V;
  cacheContains : K -> C -> bool;
  cachePurge : C -> C
}.

Module headerchain.

Record HeaderChain (HC TC NC : Type) := mkHeaderChain {
  chainDb : chaindb.DB;
  genesisHeader : Header;
  (** nil while [SetHead] runs. *)
  currentHeader : option Header;
  currentHeaderHash : Hash;
  headerCache : HC;
  tdCache : TC;
  numberCache : NC
}.
Arguments mkHeaderChain {HC TC NC}.
Arguments chainDb {HC TC NC}.
Arguments genesisHeader {HC TC NC}.
Arguments currentHeader {HC TC NC}.
Arguments currentHeaderHash {HC TC NC}.
Arguments headerCache {HC TC NC}.
Arguments tdCache {HC TC NC}.
Arguments numberCache {HC TC NC}.

Inductive WriteStatus := NonStatTy | CanonStatTy | SideStatTy.

Section Chain.
Context {CR : Crypto} {HC TC NC : Type} {HCI : LRU HC Z Header} {TCI : LRU TC Z Z} {NCI : LRU NC Z Z}.
Notation chain := (HeaderChain HC TC NC).
Notation HM A := (M chain chaindb.chainErr A).

Definition setDb (db : chaindb.DB) (hc : chain) : chain :=
  mkHeaderChain db (genesisHeader hc) (currentHeader hc) (currentHeaderHash hc) (headerCache hc) (tdCache hc) (numberCache hc).
Definition setCurrent (h : option Header) (hash : Hash) (hc : chain) : chain :=
  mkHeaderChain (chainDb hc) (genesisHeader hc) h hash (headerCache hc) (tdCache hc) (numberCache hc).
Definition setHeaders (c : HC) (hc : chain) : chain :=
  mkHeaderChain (chainDb hc) (genesisHeader hc) (currentHeader hc) (currentHeaderHash hc) c (tdCache hc) (numberCache hc).
Definition setTds (c : TC) (hc : chain) : chain :=
  mkHeaderChain (chainDb hc) (genesisHeader hc) (currentHeader hc) (currentHeaderHash hc) (headerCache hc) c (numberCache hc).
Definition setNumbers (c : NC) (hc : chain) : chain :=
  mkHeaderChain (chainDb hc) (genesisHeader hc) (currentHeader hc) (currentHeaderHash hc) (headerCache hc) (tdCache hc) c.
Definition SetGenesis (head : Header) : HM unit :=
  modify (fun hc => mkHeaderChain (chainDb hc) head (currentHeader hc) (currentHeaderHash hc) (headerCache hc) (tdCache hc) (numberCache hc)).

(** An access to the database. *)
Definition onDb {A} (m : M chaindb.DB chaindb.chainErr A) : HM A := fun hc => let '(r, db) := m (chainDb hc) in (r, setDb db hc).
(** An error ends the process. *)
Definition crit {A} (m : HM A) : HM A := fun hc => match m hc with (Err _, hc) => (Panic, hc) | r => r end.

(** ** Cached reads *)

Definition GetBlockNumber (hash : Hash) : HM Z := fun hc =>
  let '(hit, c) := cacheGet hash (numberCache hc) in
  let hc := setNumbers c hc in
  match hit with
  | Some number => (Ok number, hc)
  | None =>
      let number := chaindb.GetBlockNumber hash (chainDb hc) in
      (Ok number, if number =? chaindb.missingNumber then hc else setNumbers (cacheAdd hash number (numberCache hc)) hc)
  end.

Definition GetHeader (hash : Hash) (number : Z) : HM (option Header) := fun hc =>
  let '(hit, c) := cacheGet hash (headerCache hc) in
  let hc := setHeaders c hc in
  match hit with
  | Some header => (Ok (Some header), hc)
  | None =>
      match chaindb.GetHeader hash number (chainDb hc) with
      | None => (Ok None, hc)
      | Some header => (Ok (Some header), setHeaders (cacheAdd hash header (headerCache hc)) hc)
      end
  end.

Definition GetTd (hash : Hash) (number : Z) : HM (option Z) := fun hc =>
  let '(hit, c) := cacheGet hash (tdCache hc) in
  let hc := setTds c hc in
  match hit with
  | Some td => (Ok (Some td), hc)
  | None =>
      match chaindb.GetTd hash number (chainDb hc) with
      | None => (Ok None, hc)
      | Some td => (Ok (Some td), setTds (cacheAdd hash td (tdCache hc)) hc)
      end
  end.

Definition GetTdByHash (hash : Hash) : HM (option Z) := let! n := GetBlockNumber hash in GetTd hash n.
Definition GetHeaderByHash (hash : Hash) : HM (option Header) := let! n := GetBlockNumber hash in GetHeader hash n.
Definition GetHeaderByNumber (number : Z) : HM (option Header) := fun hc =>
  let hash := chaindb.GetCanonicalHash number (chainDb hc) in
  if hash =? 0 then (Ok None, hc) else GetHeader hash number hc.
Definition HasHeader (hash : Hash) (number : Z) (hc : chain) : bool :=
  cacheContains hash (numberCache hc) || cacheContains hash (headerCache hc) || chaindb.Has (chaindb.numHashKey chaindb.headerPrefix number hash) (chainDb hc).

Definition WriteTd (hash : Hash) (number : Z) (td : Z) : HM unit :=
  let! _ := onDb (chaindb.WriteTd hash number td) in
  modify (fun hc => setTds (cacheAdd hash td (tdCache hc)) hc).

(** ** Opening *)

Definition NewHeaderChain (db : chaindb.DB) (hcache : HC) (tcache : TC) (ncache : NC) : result chaindb.chainErr chain :=
  let hc := mkHeaderChain db (mkHeader 0 0 0 [] [] [] 0 0 0 [] None None 0 0 None [] 0 []) None 0 hcache tcache ncache in
  match GetHeaderByNumber 0 hc with
  | (Ok None, _) => Err chaindb.ErrNoGenesis
  | (Ok (Some g), hc) =>
      let hc := setCurrent (Some g) 0 (snd (SetGenesis g hc)) in
      let head := chaindb.GetHeadBlockHash (chainDb hc) in
      let '(current, hc) :=
        if head =? 0 then (g, hc)
        else match GetHeaderByHash head hc with (Ok (Some chead), hc) => (chead, hc) | (_, hc) => (g, hc) end in
      Ok (setCurrent (Some current) (headerHash current) hc)
  | (Err e, _) => Err e
  | (Panic, _) => Panic
  | (NoFuel, _) => NoFuel
  end.

(** ** Writing headers *)

(** Deletes the canonical numbers from [i] on. *)
Fixpoint dropAbove (fuel : nat) (i : Z) : HM unit := fun hc =>
  match fuel with
  | O => (NoFuel, hc)
  | S fuel =>
      if chaindb.GetCanonicalHash i (chainDb hc) =? 0 then (Ok tt, hc)
      else (let! _ := onDb (chaindb.DeleteCanonicalHash i) in dropAbove fuel (u64 (i + 1))) hc
  end.

(** Makes the ancestors canonical, down to one that is. *)
Fixpoint overwrite (fuel : nat) (headHash : Hash) (headNumber : Z) (headHeader : option Header) : HM unit := fun hc =>
  match fuel with
  | O => (NoFuel, hc)
  | S fuel =>
      if chaindb.GetCanonicalHash headNumber (chainDb hc) =? headHash then (Ok tt, hc)
      else
        (let! _ := onDb (chaindb.WriteCanonicalHash headHash headNumber) in
         let! h := lift (deref headHeader) in
         let headHash := hParentHash h in
         let! n := lift (uint64Of (hNumber h)) in
         let headNumber := u64 (n - 1) in
         let! headHeader := GetHeader headHash headNumber in
         overwrite fuel headHash headNumber headHeader) hc
  end.

Definition WriteHeader (fuel : nat) (coin : bool) (header : Header) : HM WriteStatus :=
  let hash := headerHash header in
  let! number := lift (uint64Of (hNumber header)) in
  let! ptd := GetTd (hParentHash header) (u64 (number - 1)) in
  match ptd with
  | None => throw chaindb.ErrUnknownAncestor
  | Some ptd =>
      let! currentHash := gets currentHeaderHash in
      let! current := gets currentHeader in
      let! current := lift (deref current) in
      let! currentNumber := lift (uint64Of (hNumber current)) in
      let! localTd := GetTd currentHash currentNumber in
      let! difficulty := lift (deref (hDifficulty header)) in
      let externTd := difficulty + ptd in
      let! _ := crit (WriteTd hash number externTd) in
      let! _ := crit (onDb (chaindb.WriteHeader header)) in
      let! localTd := lift (deref localTd) in
      let! status :=
        (if (externTd >? localTd) || (externTd =? localTd) && coin then
           let! _ := dropAbove fuel (u64 (number + 1)) in
           let headHash := hParentHash header in
           let headNumber := u64 (number - 1) in
           let! headHeader := GetHeader headHash headNumber in
           let! _ := overwrite fuel headHash headNumber headHeader in
           let! _ := onDb (chaindb.WriteCanonicalHash hash number) in
           let! _ := onDb (chaindb.WriteHeadHeaderHash hash) in
           let! _ := modify (setCurrent (Some (CopyHeader header)) hash) in
           ret CanonStatTy
         else ret SideStatTy) in
      let! _ := modify (fun hc => setHeaders (cacheAdd hash header (headerCache hc)) hc) in
      let! _ := modify (fun hc => setNumbers (cacheAdd hash number (numberCache hc)) hc) in
      ret status
  end.

(** The index of the header that failed, with the error. *)
Fixpoint insertFrom (write : Header -> HM unit) (stop : Z -> bool) (i : Z) (headers : list Header) : HM (Z * option chaindb.chainErr) := fun hc =>
  match headers with
  | [] => (Ok (0, None), hc)
  | header :: headers =>
      if stop i then (Ok (i, Some chaindb.errAborted), hc)
      else
        match uint64Of (hNumber header) with
        | Ok number =>
            if HasHeader (headerHash header) number hc then insertFrom write stop (i + 1) headers hc
            else
              match write header hc with
              | (Ok _, hc) => insertFrom write stop (i + 1) headers hc
              | (Err e, hc) => (Ok (i, Some e), hc)
              | (Panic, hc) => (Panic, hc)
              | (NoFuel, hc) => (NoFuel, hc)
              end
        | Err e => (Err e, hc)
        | Panic => (Panic, hc)
        | NoFuel => (NoFuel, hc)
        end
  end.
(** The last header is logged, and there must be one. *)
Definition InsertHeaderChain (headers : list Header) (write : Header -> HM unit) (stop : Z -> bool) : HM (Z * option chaindb.chainErr) :=
  let! r := insertFrom write stop 0 headers in
  match snd r, headers with None, [] => panic | _, _ => ret r end.

(** [ValidateHeaderChain], the checks before an import: [verify] are the results of the engine's
    [VerifyHeaders], [banned] are the [BadHashes].  The random positions of the seals to check are
    computed and not used. *)
Inductive validErr := errNonContiguous | errValidAborted | ErrBlacklistedHash | errVerify (e : cliqueErr).

Fixpoint contiguous (prev : Header) (headers : list Header) : result validErr bool :=
  match headers with
  | [] => Ok true
  | h :: headers =>
      let* n := uint64Of (hNumber h) in
      let* m := uint64Of (hNumber prev) in
      if negb (n =? u64 (m + 1)) || negb (hParentHash h =? headerHash prev) then Ok false else contiguous h headers
  end.
Fixpoint checkAll (banned : Hash -> bool) (stop : Z -> bool) (i : Z) (headers : list Header) (results : list (option cliqueErr)) : Z * option validErr :=
  match headers, results with
  | h :: headers, r :: results =>
      if stop i then (0, Some errValidAborted)
      else if banned (headerHash h) then (i, Some ErrBlacklistedHash)
      else match r with Some e => (i, Some (errVerify e)) | None => checkAll banned stop (i + 1) headers results end
  | _, _ => (0, None)
  end.
Definition ValidateHeaderChain (verify : list Header -> list (option cliqueErr)) (banned : Hash -> bool) (stop : Z -> bool) (headers : list Header) (checkFreq : Z)
    : result validErr (Z * option validErr) :=
  let* linked := match headers with [] => Ok true | h :: headers => contiguous h headers end in
  if negb linked then Ok (0, Some errNonContiguous)
  else if checkFreq =? 0 then Panic
  else match headers with [] => Panic | _ => Ok (checkAll banned stop 0 headers (verify headers)) end.

(** ** Ancestors *)

Fixpoint blockHashesLoop (n : nat) (header : Header) : HM (list Hash) := fun hc =>
  match n with
  | O => (Ok [], hc)
  | S n =>
      let next := hParentHash header in
      (let! number := lift (uint64Of (hNumber header)) in
       let! header := GetHeader next (u64 (number - 1)) in
       match header with
       | None => ret []
       | Some header =>
           let! z := lift (deref (hNumber header)) in
           if z =? 0 then ret [next] else let! rest := blockHashesLoop n header in ret (next :: rest)
       end) hc
  end.
Definition GetBlockHashesFromHash (hash : Hash) (max : Z) : HM (list Hash) :=
  let! header := GetHeaderByHash hash in
  match header with None => ret [] | Some header => blockHashesLoop (Z.to_nat max) header end.

(** One round per ancestor; with the budget of headers off the canonical chain that is left. *)
Fixpoint ancestorLoop (ancestor : nat) (hash : Hash) (number : Z) (budget : Z) : HM (Hash * Z * Z) := fun hc =>
  match ancestor with
  | O => (Ok (hash, number, budget), hc)
  | S rest =>
      if chaindb.GetCanonicalHash number (chainDb hc) =? hash then
        let number := u64 (number - Z.of_nat ancestor) in
        (Ok (chaindb.GetCanonicalHash number (chainDb hc), number, budget), hc)
      else if budget =? 0 then (Ok (0, 0, budget), hc)
      else
        (let budget := budget - 1 in
         let! header := GetHeader hash number in
         match header with
         | None => ret (0, 0, budget)
         | Some header => ancestorLoop rest (hParentHash header) (u64 (number - 1)) budget
         end) hc
  end.
Definition GetAncestor (hash : Hash) (number ancestor maxNonCanonical : Z) : HM (Hash * Z * Z) :=
  if ancestor >? number then ret (0, 0, maxNonCanonical)
  else if ancestor =? 1 then
    let! header := GetHeader hash number in
    match header with
    | Some header => ret (hParentHash header, u64 (number - 1), maxNonCanonical)
    | None => ret (0, 0, maxNonCanonical)
    end
  else ancestorLoop (Z.to_nat ancestor) hash number maxNonCanonical.

(** ** Moving the head *)

Definition SetCurrentHeader (head : Header) : HM unit :=
  let! _ := onDb (chaindb.WriteHeadHeaderHash (headerHash head)) in
  modify (setCurrent (Some head) (headerHash head)).

(** Deletes the current header and its difficulty, down to [head]; the callback deletes more of a block. *)
Fixpoint rewind (fuel : nat) (head : Z) (delFn : option (Hash -> Z -> chaindb.DB -> chaindb.DB)) : HM unit := fun hc =>
  match fuel, currentHeader hc with
  | O, _ => (NoFuel, hc)
  | S fuel, None => (Ok tt, hc)
  | S fuel, Some h =>
      (let! num := lift (uint64Of (hNumber h)) in
       if negb (num >? head) then ret tt
       else
         let hash := headerHash h in
         let! _ := match delFn with Some f => onDb (modify (f hash num)) | None => ret tt end in
         let! _ := onDb (chaindb.DeleteHeader hash num) in
         let! _ := onDb (chaindb.DeleteTd hash num) in
         let! parent := GetHeader (hParentHash h) (u64 (num - 1)) in
         let! _ := modify (fun hc => setCurrent parent (currentHeaderHash hc) hc) in
         rewind fuel head delFn) hc
  end.

(** The numbers [height], ..., [head + 1]. *)
Fixpoint unnumber (n : nat) (i : Z) : HM unit :=
  match n with
  | O => ret tt
  | S n => let! _ := onDb (chaindb.DeleteCanonicalHash i) in unnumber n (i - 1)
  end.

Definition purge (hc : chain) : chain :=
  setNumbers (cachePurge (numberCache hc)) (setTds (cachePurge (tdCache hc)) (setHeaders (cachePurge (headerCache hc)) hc)).

Definition SetHead (fuel : nat) (head : Z) (delFn : option (Hash -> Z -> chaindb.DB -> chaindb.DB)) : HM unit :=
  let! current := gets currentHeader in
  let! height := match current with Some h => lift (uint64Of (hNumber h)) | None => ret 0 end in
  let! _ := rewind fuel head delFn in
  let! _ := unnumber (Z.to_nat (height - head)) height in
  let! _ := modify purge in
  let! _ := modify (fun hc => let h := default (genesisHeader hc) (currentHeader hc) in setCurrent (Some h) (headerHash h) hc) in
  let! hash := gets currentHeaderHash in
  onDb (chaindb.WriteHeadHeaderHash hash).

End Chain.
End headerchain.
