(* ===== verification/HeaderChainStore.v ===== *)
(** * Package core: stored headers and their ancestors

    What the chain of headers relies on: the headers of the store form a tree that is
    rooted in the genesis header, with the total difficulties along it, and the caches
    hold what the store holds. *)

From stdpp Require Import base numbers list gmap option.
From Stdlib Require Import ZArith Lia Strings.Byte.
From S2P Require Import Prelude Rlp Common Types TrieDatabase CliqueSnapshot CliqueEngineSpec Blocks ChainDb ChainDbProofs HeaderChain.

(** golang-lru: what a cache contains can be got, and nothing is left after a purge. *)
Class LRULaws (C K V : Type) `{LRU C K V} : Prop := {
  lru_cache :: CacheLaws C K V;
  contains_get : forall k c, cacheContains k c = true -> exists v, fst (cacheGet k c) = Some v;
  purge_get : forall k c, fst (cacheGet k (cachePurge c)) = None;
  purge_contains : forall k c, cacheContains k (cachePurge c) = false
}.

Section Tree.
Context {CR : Crypto}.

(** The headers that can occur. *)
Variable U : Header -> Prop.

Definition difficultyOf (h : Header) : Z := default 0 (hDifficulty h).

(** They can be stored, and their hashes tell them apart. *)
Record Universe : Prop := {
  un_storable : forall h, U h -> Storable h;
  un_parent : forall h, U h -> is_hash (hParentHash h);
  un_nonzero : forall h, U h -> headerHash h <> 0;
  un_inj : forall h h', U h -> U h' -> headerHash h = headerHash h' -> h = h';
  un_number : forall h, U h -> numberOf h < chaindb.missingNumber;
  un_exact : forall h, U h -> hNumber h = Some (numberOf h);
  un_difficulty : forall h, U h -> difficultyOf h < 2 ^ 128
}.
Hypothesis HU : Universe.

Definition StoredIn (db : chaindb.DB) (h : Header) : Prop := U h /\ chaindb.GetHeader (headerHash h) (numberOf h) db = Some h.

(** [p] is the parent of [h]. *)
Definition Parent (h p : Header) : Prop := hParentHash h = headerHash p /\ numberOf h = numberOf p + 1.

Record Store (g : Header) (db : chaindb.DB) : Prop := {
  sr_header : forall x n h, is_hash x -> is_u64 n -> chaindb.GetHeader x n db = Some h -> StoredIn db h /\ headerHash h = x /\ numberOf h = n;
  sr_genesis : StoredIn db g /\ numberOf g = 0;
  sr_parent : forall h, StoredIn db h -> h <> g -> exists p, StoredIn db p /\ Parent h p;
  sr_number : forall h, StoredIn db h -> chaindb.GetBlockNumber (headerHash h) db = numberOf h;
  sr_known : forall x, is_hash x -> chaindb.GetBlockNumber x db <> chaindb.missingNumber -> exists h, StoredIn db h /\ headerHash h = x;
  sr_td : forall h, StoredIn db h -> exists td, chaindb.GetTd (headerHash h) (numberOf h) db = Some td /\ 0 <= td < (numberOf h + 1) * 2 ^ 128;
  sr_sum : forall h p, StoredIn db h -> StoredIn db p -> h <> g -> Parent h p -> forall td td',
    chaindb.GetTd (headerHash h) (numberOf h) db = Some td -> chaindb.GetTd (headerHash p) (numberOf p) db = Some td' -> td = td' + difficultyOf h;
  sr_lone : forall x n td, is_hash x -> is_u64 n -> chaindb.GetTd x n db = Some td -> exists h, StoredIn db h /\ headerHash h = x /\ numberOf h = n;
  sr_raw : forall x n, is_hash x -> is_u64 n -> is_Some (db !! keyBytes (KHeader n x)) -> is_Some (chaindb.GetHeader x n db)
}.

(** Ancestors, by the hashes of parents. *)
Inductive Anc (db : chaindb.DB) : Header -> Header -> Prop :=
| Anc_self h : StoredIn db h -> Anc db h h
| Anc_parent h p a : StoredIn db h -> Parent h p -> Anc db p a -> Anc db h a.

Lemma U_hash h : U h -> is_hash (headerHash h).
Proof. intros Hh. by apply so_hash, un_storable. Qed.

Lemma Anc_stored db h a : Anc db h a -> StoredIn db h /\ StoredIn db a.
Proof. induction 1 as [h Hs|h p a Hs Hp Ha [_ IH]]; done. Qed.

Lemma Anc_le db h a : Anc db h a -> numberOf a <= numberOf h.
Proof. induction 1 as [|h p a Hs [_ Hn] Ha IH]; lia. Qed.

Lemma StoredIn_inj db h h' : StoredIn db h -> StoredIn db h' -> headerHash h = headerHash h' -> h = h'.
Proof. intros [H1 _] [H2 _]. by apply un_inj. Qed.

Lemma Parent_unique db h p p' : StoredIn db p -> StoredIn db p' -> Parent h p -> Parent h p' -> p = p'.
Proof. intros H1 H2 [E1 _] [E2 _]. apply (StoredIn_inj db); [done..|congruence]. Qed.

(** Of two ancestors the lower one is an ancestor of the other. *)
Lemma Anc_linear db h a b : Anc db h a -> Anc db h b -> numberOf b <= numberOf a -> Anc db a b.
Proof.
  induction 1 as [h Hs|h p a Hs Hp Ha IH]; intros Hb Hle; [done|]. apply IH; [|done]. inversion Hb as [|? p' ? _ Hp' Hb']; subst.
  - pose proof (Anc_le _ _ _ Ha). destruct Hp as [_ Hn]. lia.
  - by rewrite (Parent_unique db h p p' (proj1 (Anc_stored _ _ _ Ha)) (proj1 (Anc_stored _ _ _ Hb')) Hp Hp').
Qed.
Lemma Anc_unique db h a b : Anc db h a -> Anc db h b -> numberOf a = numberOf b -> a = b.
Proof.
  intros Ha Hb En. assert (Hab : Anc db a b) by (apply (Anc_linear db h); [done..|lia]). inversion Hab as [|? p ? _ [_ Hn] Hp]; subst; [done|].
  pose proof (Anc_le _ _ _ Hp). lia.
Qed.
Lemma Anc_trans db h a b : Anc db h a -> Anc db a b -> Anc db h b.
Proof. induction 1; [done|]. intros Hb. econstructor; eauto. Qed.

(** Every number below has an ancestor. *)
Lemma Anc_exists g db h n : Store g db -> StoredIn db h -> 0 <= n <= numberOf h -> exists a, Anc db h a /\ numberOf a = n.
Proof.
  intros HS. remember (Z.to_nat (numberOf h)) as k eqn:Ek. revert h Ek. induction k as [|k IH]; intros h Ek Hh Hn.
  - exists h. split; [by constructor|]. pose proof (numberOf_u64 h) as H0. unfold is_u64 in H0. lia.
  - destruct (decide (n = numberOf h)) as [->|Hne]; [exists h; split; [by constructor|done]|].
    destruct (sr_parent g db HS h Hh) as (p & Hp & Hpar); [intros ->; destruct (sr_genesis g db HS); lia|].
    destruct Hpar as [E1 E2]. destruct (IH p) as (a & Ha & En); [lia|done|lia|]. exists a. split; [|done]. by apply (Anc_parent db h p).
Qed.

Lemma Store_zero g db h : Store g db -> StoredIn db h -> numberOf h = 0 -> h = g.
Proof.
  intros HS Hh Hn. destruct (decide (h = g)) as [|Hne]; [done|]. destruct (sr_parent g db HS h Hh Hne) as (p & _ & _ & E).
  pose proof (numberOf_u64 p) as H0. unfold is_u64 in H0. lia.
Qed.

Lemma Anc_mono db db' h a : (forall x, StoredIn db x -> StoredIn db' x) -> Anc db h a -> Anc db' h a.
Proof. intros Hs. induction 1; [constructor; auto|econstructor; eauto]. Qed.

(** ** Changes of the canonical numbering only *)

Definition numbering (k : key) : Prop := match k with KCanonical _ | KHeadHeader | KHeadBlock | KHeadFast => True | _ => False end.
Definition Renumbered (db db' : chaindb.DB) : Prop := forall k, keyOk k -> ~ numbering k -> db' !! keyBytes k = db !! keyBytes k.

Lemma Renumbered_refl db : Renumbered db db.
Proof. done. Qed.
Lemma Renumbered_trans db db1 db2 : Renumbered db db1 -> Renumbered db1 db2 -> Renumbered db db2.
Proof. intros H1 H2 k Hk Hn. by rewrite H2, H1. Qed.
Lemma Only_renumbered ks db db' : Only ks db db' -> Forall numbering ks -> Renumbered db db'.
Proof. intros Ho Hf k Hk Hn. apply Ho; [done|]. intros Hin. rewrite list.Forall_forall in Hf. by apply Hn, Hf. Qed.

Lemma Renumbered_reads db db' : Renumbered db db' ->
  (forall x n, is_hash x -> is_u64 n -> chaindb.GetHeader x n db' = chaindb.GetHeader x n db) /\
  (forall x n, is_hash x -> is_u64 n -> chaindb.GetTd x n db' = chaindb.GetTd x n db) /\
  (forall x, is_hash x -> chaindb.GetBlockNumber x db' = chaindb.GetBlockNumber x db).
Proof.
  intros Hr. assert (HG : forall k, keyOk k -> ~ numbering k -> chaindb.Get (keyBytes k) db' = chaindb.Get (keyBytes k) db).
  { intros k Hk Hn. unfold chaindb.Get. by rewrite Hr. }
  split_and!.
  - intros x n Hx Hn. pose proof (HG (KHeader n x) (conj Hn Hx) id) as E. cbn [keyBytes] in E. unfold chaindb.GetHeader, chaindb.getRLP. by rewrite E.
  - intros x n Hx Hn. pose proof (HG (KTd n x) (conj Hn Hx) id) as E. cbn [keyBytes] in E. unfold chaindb.GetTd, chaindb.getRLP. by rewrite E.
  - intros x Hx. pose proof (HG (KNumber x) Hx id) as E. cbn [keyBytes] in E. unfold chaindb.GetBlockNumber. by rewrite E.
Qed.

Lemma Renumbered_stored db db' h : Renumbered db db' -> StoredIn db' h <-> StoredIn db h.
Proof.
  intros Hr. destruct (Renumbered_reads db db' Hr) as (E & _ & _). unfold StoredIn.
  split; intros [H1 H2]; (split; [done|]); [rewrite <- E|rewrite E]; try done; (by apply U_hash) || apply numberOf_u64.
Qed.

Lemma Anc_renumbered db db' h a : Renumbered db db' -> Anc db' h a <-> Anc db h a.
Proof. intros Hr. split; apply Anc_mono; intros x; by rewrite (Renumbered_stored db db' x Hr). Qed.

Lemma Store_renumbered g db db' : Renumbered db db' -> Store g db -> Store g db'.
Proof.
  intros Hr [H1 H2 H3 H4 H5 H6 H7 H8 H9]. destruct (Renumbered_reads db db' Hr) as (Eh & Et & En).
  assert (Hs : forall h, StoredIn db' h <-> StoredIn db h) by (intros h; by apply Renumbered_stored).
  assert (HE : forall h, StoredIn db h -> is_hash (headerHash h)) by (intros h [Hh _]; by apply U_hash).
  split.
  - intros x n h Hx Hn. rewrite Hs, Eh by done. by apply H1.
  - by rewrite Hs.
  - intros h Hh Hne. apply Hs in Hh. destruct (H3 h Hh Hne) as (p & Hp & Hpar). exists p. by rewrite Hs.
  - intros h Hh. apply Hs in Hh. rewrite En by auto. auto.
  - intros x Hx. rewrite En by done. intros Hm. destruct (H5 x Hx Hm) as (h & Hh & E). exists h. by rewrite Hs.
  - intros h Hh. apply Hs in Hh. rewrite Et by (auto || apply numberOf_u64). auto.
  - intros h p Hh Hp. apply Hs in Hh, Hp. rewrite !Et by (auto || apply numberOf_u64). by apply H7.
  - intros x n td Hx Hn. rewrite Et by done. intros Htd. destruct (H8 x n td Hx Hn Htd) as (h & Hh & E). exists h. by rewrite Hs.
  - intros x n Hx Hn. rewrite Eh, (Hr (KHeader n x) (conj Hn Hx) id) by done. by apply H9.
Qed.

(** ** Adding a header below its parent *)

Section Add.
Context (g header p : Header) (db db' : chaindb.DB) (tdp : Z).
Hypothesis HS : Store g db.
Hypothesis Hu : U header.
Hypothesis Hp : StoredIn db p.
Hypothesis Hpar : Parent header p.
Hypothesis Htp : chaindb.GetTd (headerHash p) (numberOf p) db = Some tdp.
Hypothesis HO : Only [KTd (numberOf header) (headerHash header); KNumber (headerHash header); KHeader (numberOf header) (headerHash header)] db db'.
Hypothesis Eh : chaindb.GetHeader (headerHash header) (numberOf header) db' = Some header.
Hypothesis En : chaindb.GetBlockNumber (headerHash header) db' = numberOf header.
Hypothesis Et : chaindb.GetTd (headerHash header) (numberOf header) db' = Some (tdp + difficultyOf header).

#[local] Ltac apart := rewrite !not_elem_of_cons; split_and!; [congruence..|apply not_elem_of_nil].

Lemma added_not_genesis : header <> g.
Proof. intros ->. destruct (sr_genesis g db HS) as [_ E]. destruct Hpar as [_ E']. pose proof (numberOf_u64 p) as H0. unfold is_u64 in H0. lia. Qed.

Lemma added_other h : StoredIn db h -> h <> header -> headerHash h <> headerHash header.
Proof. intros [Hh _] Hne E. by apply Hne, un_inj. Qed.

Lemma added_header x n : is_hash x -> is_u64 n -> x <> headerHash header -> chaindb.GetHeader x n db' = chaindb.GetHeader x n db.
Proof. intros Hx Hn Hne. apply (GetHeader_same _ _ _ HO); [done..|apart]. Qed.

Lemma added_keeps h : StoredIn db h -> StoredIn db' h.
Proof.
  intros Hh. destruct (decide (h = header)) as [->|Hne]; [by split|]. pose proof Hh as [Hu' E]. split; [done|].
  rewrite added_header; [done|by apply U_hash|apply numberOf_u64|by apply added_other].
Qed.

Lemma added_stored h : StoredIn db' h <-> StoredIn db h \/ h = header.
Proof.
  split; [|by intros [Hh| ->]; [apply added_keeps|split]]. intros [Hh E]. destruct (decide (headerHash h = headerHash header)) as [Ex|Hne].
  - right. by apply un_inj.
  - left. split; [done|]. rewrite <- added_header; [done|by apply U_hash|apply numberOf_u64|done].
Qed.

(** The difficulties that were known are as they were. *)
Lemma added_td h : StoredIn db h -> chaindb.GetTd (headerHash h) (numberOf h) db' = chaindb.GetTd (headerHash h) (numberOf h) db.
Proof.
  intros Hh. pose proof Hh as [Hu' _]. destruct (decide (h = header)) as [->|Hne].
  - destruct (sr_td g db HS header Hh) as (td & E & _). rewrite E, Et. f_equal. symmetry. by apply (sr_sum g db HS header p Hh Hp added_not_genesis Hpar).
  - pose proof (added_other h Hh Hne). apply (GetTd_same _ _ _ HO); [apply numberOf_u64|by apply U_hash|apart].
Qed.

Lemma added_sum h q td td' :
  StoredIn db' h -> StoredIn db' q -> h <> g -> Parent h q -> chaindb.GetTd (headerHash h) (numberOf h) db' = Some td ->
  chaindb.GetTd (headerHash q) (numberOf q) db' = Some td' -> td = td' + difficultyOf h.
Proof.
  intros Hh Hq Hg Hpq. assert (Hback : exists p', StoredIn db p' /\ Parent h p').
  { apply added_stored in Hh as [Hh| ->]; [|by exists p]. by apply (sr_parent g db HS). }
  destruct Hback as (p' & Hp' & Hpp). rewrite (Parent_unique db' h q p' Hq (added_keeps p' Hp') Hpq Hpp). rewrite (added_td p' Hp').
  apply added_stored in Hh as [Hh| ->]; [rewrite (added_td h Hh); by apply (sr_sum g db HS)|].
  rewrite Et, (Parent_unique db header p' p Hp' Hp Hpp Hpar), Htp. congruence.
Qed.

Lemma Store_add : Store g db'.
Proof.
  pose proof (U_hash header Hu) as Hx. pose proof (numberOf_u64 header) as Hnh. split.
  - intros x n h Hx' Hn E. destruct (decide (KHeader n x = KHeader (numberOf header) (headerHash header))) as [Ek|Hne].
    + injection Ek as -> ->. rewrite Eh in E. injection E as <-. done.
    + rewrite (GetHeader_same _ _ _ HO) in E by (done || apart). destruct (sr_header g db HS x n h Hx' Hn E) as (Hh & <- & <-). by split; [apply added_keeps|].
  - destruct (sr_genesis g db HS) as [Hg E]. by split; [apply added_keeps|].
  - intros h Hh Hne. apply added_stored in Hh as [Hh| ->].
    + destruct (sr_parent g db HS h Hh Hne) as (q & Hq & Hpq). exists q. by split; [apply added_keeps|].
    + exists p. by split; [apply added_keeps|].
  - intros h Hh. apply added_stored in Hh as [Hh| ->]; [|done]. destruct (decide (h = header)) as [->|Hne]; [done|].
    pose proof (added_other h Hh Hne). rewrite (GetBlockNumber_same _ _ _ HO) by ((apply U_hash, Hh) || apart). by apply (sr_number g db HS).
  - intros x Hx' Hm. destruct (decide (x = headerHash header)) as [->|Hne]; [by exists header|].
    rewrite (GetBlockNumber_same _ _ _ HO) in Hm by (done || apart). destruct (sr_known g db HS x Hx' Hm) as (h & Hh & E). exists h. by split; [apply added_keeps|].
  - intros h Hh. apply added_stored in Hh as [Hh| ->]; [rewrite added_td by done; by apply (sr_td g db HS)|].
    destruct (sr_td g db HS p Hp) as (td & E & Hr). rewrite Htp in E. injection E as ->. eexists. split; [exact Et|]. destruct Hpar as [_ ->].
    pose proof (un_difficulty HU header Hu). pose proof (un_storable HU header Hu) as [[_ _ _ Hb _ _] _ _]. unfold difficultyOf in *.
    inversion Hb as [|? ? (z & Ez & Hz) _]. rewrite Ez in *. cbn [default] in *. unfold id in *. lia.
  - intros h q Hh Hq Hg Hpq td td'. by apply added_sum.
  - intros x n td Hx' Hn E. destruct (decide (KTd n x = KTd (numberOf header) (headerHash header))) as [Ek|Hne].
    + injection Ek as -> ->. exists header. done.
    + rewrite (GetTd_same _ _ _ HO) in E by (done || apart). destruct (sr_lone g db HS x n td Hx' Hn E) as (h & Hh & E'). exists h. by split; [apply added_keeps|].
  - intros x n Hx' Hn Hs. destruct (decide (KHeader n x = KHeader (numberOf header) (headerHash header))) as [Ek|Hne].
    + injection Ek as -> ->. by rewrite Eh.
    + rewrite (HO (KHeader n x)) in Hs by (done || apart). rewrite (GetHeader_same _ _ _ HO) by (done || apart). by apply (sr_raw g db HS).
Qed.
End Add.
End Tree.
