(* ===== verification/HeaderChainProofs.v ===== *)
(** * Package core: the chain of headers is the chain of the head

    The reads of [HeaderChain] agree with the store, and writing a header keeps the
    canonical numbering equal to the ancestors of the head. *)

From stdpp Require Import base numbers list gmap option.
From Stdlib Require Import ZArith Lia Strings.Byte.
From S2P Require Import Prelude Rlp Common Types TrieDatabase CliqueSnapshot CliqueEngineSpec Blocks ChainDb ChainDbProofs HeaderChain HeaderChainStore.
Import headerchain.

Lemma mbind_Ok {S E A B} (m : M S E A) (k : A -> M S E B) s a s' : m s = (Ok a, s') -> mbind m k s = k a s'.
Proof. intros E1. unfold mbind. by rewrite E1. Qed.

Section Chain.
Context {CR : Crypto} {HC TC NC : Type} {HCI : LRU HC Z Header} {TCI : LRU TC Z Z} {NCI : LRU NC Z Z}.
Context {HCL : LRULaws HC Z Header} {TCL : LRULaws TC Z Z} {NCL : LRULaws NC Z Z}.
Context (U : Header -> Prop) (HU : Universe U).
Notation chain := (HeaderChain HC TC NC).
Notation HM A := (M chain chaindb.chainErr A).

Definition stored (hc : chain) (h : Header) : Prop := StoredIn U (chainDb hc) h.
Definition tdOf (hc : chain) (h : Header) : option Z := chaindb.GetTd (headerHash h) (numberOf h) (chainDb hc).
Definition canonical (hc : chain) (n : Z) : Hash := chaindb.GetCanonicalHash n (chainDb hc).

(** ** Caches *)

Record CachesOk (hc : chain) : Prop := {
  co_header : forall x h, fst (cacheGet x (headerCache hc)) = Some h -> stored hc h /\ headerHash h = x;
  co_td : forall x td, fst (cacheGet x (tdCache hc)) = Some td -> exists h, stored hc h /\ headerHash h = x /\ tdOf hc h = Some td;
  co_number : forall x n, fst (cacheGet x (numberCache hc)) = Some n -> exists h, stored hc h /\ headerHash h = x /\ numberOf h = n
}.

Record Good (hc : chain) : Prop := {
  gd_store : Store U (genesisHeader hc) (chainDb hc);
  gd_caches : CachesOk hc
}.

(** What a read can change. *)
Record Reads (hc hc' : chain) : Prop := {
  rd_db : chainDb hc' = chainDb hc;
  rd_genesis : genesisHeader hc' = genesisHeader hc;
  rd_current : currentHeader hc' = currentHeader hc;
  rd_hash : currentHeaderHash hc' = currentHeaderHash hc;
  rd_good : Good hc'
}.

Lemma Reads_refl hc : Good hc -> Reads hc hc.
Proof. by split. Qed.
Lemma Reads_trans hc hc1 hc2 : Reads hc hc1 -> Reads hc1 hc2 -> Reads hc hc2.
Proof. intros [] []. split; congruence || done. Qed.

Lemma Reads_headers hc c : Good hc -> (forall x h, fst (cacheGet x c) = Some h -> stored hc h /\ headerHash h = x) -> Reads hc (setHeaders c hc).
Proof. intros [HS [H1 H2 H3]] Hc. split; [done..|]. split; [done|]. by split. Qed.
Lemma Reads_tds hc c :
  Good hc -> (forall x td, fst (cacheGet x c) = Some td -> exists h, stored hc h /\ headerHash h = x /\ tdOf hc h = Some td) -> Reads hc (setTds c hc).
Proof. intros [HS [H1 H2 H3]] Hc. split; [done..|]. split; [done|]. by split. Qed.
Lemma Reads_numbers hc c :
  Good hc -> (forall x n, fst (cacheGet x c) = Some n -> exists h, stored hc h /\ headerHash h = x /\ numberOf h = n) -> Reads hc (setNumbers c hc).
Proof. intros [HS [H1 H2 H3]] Hc. split; [done..|]. split; [done|]. by split. Qed.

Lemma GetHeader_reads hc x n :
  Good hc -> is_hash x -> is_u64 n ->
  exists r hc', GetHeader x n hc = (Ok r, hc') /\ Reads hc hc' /\ (forall h, r = Some h -> stored hc h /\ headerHash h = x) /\
    (forall h, stored hc h -> headerHash h = x -> numberOf h = n -> r = Some h).
Proof.
  intros HG Hx Hn. pose proof HG as [HS [H1 H2 H3]]. unfold GetHeader. destruct (cacheGet x (headerCache hc)) as [hit c] eqn:Ec.
  assert (Hc : forall y h, fst (cacheGet y c) = Some h -> stored hc h /\ headerHash h = y).
  { intros y h Hy. apply H1, (cacheGet_keeps x). by rewrite Ec. }
  pose proof (Reads_headers hc c HG Hc) as HR. destruct hit as [h|].
  - destruct (H1 x h) as [Hh Eh]; [by rewrite Ec|]. eexists (Some h), _. split_and!; [done|done|by intros h' [= <-]|].
    intros h' Hh' E _. f_equal. apply (StoredIn_inj U HU (chainDb hc)); [done..|congruence].
  - change (chainDb (setHeaders c hc)) with (chainDb hc). destruct (chaindb.GetHeader x n (chainDb hc)) as [h|] eqn:Eh.
    + destruct (sr_header U _ _ HS x n h Hx Hn Eh) as (Hh & E1 & E2). eexists (Some h), _. split_and!; [reflexivity| |by intros h' [= <-]|].
      * refine (Reads_trans _ _ _ HR (Reads_headers (setHeaders c hc) _ (rd_good _ _ HR) _)). intros y h' Hy.
        destruct (cacheAdd_adds _ _ _ _ _ Hy) as [[-> ->]|Hy']; [done|by apply Hc].
      * intros h' Hh' E _. f_equal. apply (StoredIn_inj U HU (chainDb hc)); [done..|congruence].
    + eexists None, _. split_and!; [done|done|done|]. intros h' [_ Hh'] E En. rewrite E, En in Hh'. congruence.
Qed.

Lemma GetTd_reads hc x n :
  Good hc -> is_hash x -> is_u64 n ->
  exists r hc', GetTd x n hc = (Ok r, hc') /\ Reads hc hc' /\ (forall td, r = Some td -> exists h, stored hc h /\ headerHash h = x) /\
    (forall h, stored hc h -> headerHash h = x -> numberOf h = n -> r = tdOf hc h).
Proof.
  intros HG Hx Hn. pose proof HG as [HS [H1 H2 H3]]. unfold GetTd. destruct (cacheGet x (tdCache hc)) as [hit c] eqn:Ec.
  assert (Hc : forall y td, fst (cacheGet y c) = Some td -> exists h, stored hc h /\ headerHash h = y /\ tdOf hc h = Some td).
  { intros y td Hy. apply H2, (cacheGet_keeps x). by rewrite Ec. }
  pose proof (Reads_tds hc c HG Hc) as HR. destruct hit as [td|].
  - destruct (H2 x td) as (h & Hh & Eh & Et); [by rewrite Ec|]. eexists (Some td), _. split_and!; [done|done|intros ? _; by exists h|].
    intros h' Hh' E _. by rewrite (StoredIn_inj U HU (chainDb hc) h' h Hh' Hh) by congruence.
  - change (chainDb (setTds c hc)) with (chainDb hc). destruct (chaindb.GetTd x n (chainDb hc)) as [td|] eqn:Et.
    + destruct (sr_lone U _ _ HS x n td Hx Hn Et) as (h & Hh & E1 & E2). assert (Eh : tdOf hc h = Some td) by (unfold tdOf; by rewrite E1, E2).
      eexists (Some td), _. split_and!; [reflexivity| |intros ? _; by exists h|].
      * refine (Reads_trans _ _ _ HR (Reads_tds (setTds c hc) _ (rd_good _ _ HR) _)). intros y td' Hy.
        destruct (cacheAdd_adds _ _ _ _ _ Hy) as [[-> ->]|Hy']; [by exists h|by apply Hc].
      * intros h' Hh' E _. by rewrite (StoredIn_inj U HU (chainDb hc) h' h Hh' Hh) by congruence.
    + eexists None, _. split_and!; [done|done|done|]. intros h Hh E En. unfold tdOf. by rewrite E, En.
Qed.

Lemma GetBlockNumber_reads hc x :
  Good hc -> is_hash x -> exists hc', GetBlockNumber x hc = (Ok (chaindb.GetBlockNumber x (chainDb hc)), hc') /\ Reads hc hc'.
Proof.
  intros HG Hx. pose proof HG as [HS [H1 H2 H3]]. unfold GetBlockNumber. destruct (cacheGet x (numberCache hc)) as [hit c] eqn:Ec.
  assert (Hc : forall y n, fst (cacheGet y c) = Some n -> exists h, stored hc h /\ headerHash h = y /\ numberOf h = n).
  { intros y n Hy. apply H3, (cacheGet_keeps x). by rewrite Ec. }
  pose proof (Reads_numbers hc c HG Hc) as HR. destruct hit as [n|].
  - destruct (H3 x n) as (h & Hh & <- & <-); [by rewrite Ec|]. rewrite (sr_number U _ _ HS h Hh). by eexists.
  - change (chainDb (setNumbers c hc)) with (chainDb hc). eexists. split; [reflexivity|].
    destruct (Z.eqb_spec (chaindb.GetBlockNumber x (chainDb hc)) chaindb.missingNumber) as [E|Hm]; [done|].
    refine (Reads_trans _ _ _ HR (Reads_numbers (setNumbers c hc) _ (rd_good _ _ HR) _)). intros y n Hy.
    destruct (cacheAdd_adds _ _ _ _ _ Hy) as [[-> ->]|Hy']; [|by apply Hc].
    destruct (sr_known U _ _ HS x Hx Hm) as (h & Hh & <-). exists h. by rewrite (sr_number U _ _ HS h Hh).
Qed.

(** ** Renumbering *)

Record Moves (hc hc' : chain) : Prop := {
  mv_db : Renumbered (chainDb hc) (chainDb hc');
  mv_genesis : genesisHeader hc' = genesisHeader hc;
  mv_current : currentHeader hc' = currentHeader hc;
  mv_hash : currentHeaderHash hc' = currentHeaderHash hc;
  mv_good : Good hc'
}.

Lemma Moves_trans hc hc1 hc2 : Moves hc hc1 -> Moves hc1 hc2 -> Moves hc hc2.
Proof. intros [] []. split; [by eapply Renumbered_trans|congruence..|done]. Qed.
Lemma Reads_moves hc hc' : Reads hc hc' -> Moves hc hc'.
Proof. intros [E ? ? ? ?]. split; [rewrite E; apply Renumbered_refl|done..]. Qed.

Lemma setDb_moves hc db : Good hc -> Renumbered (chainDb hc) db -> Moves hc (setDb db hc).
Proof.
  intros [HS [H1 H2 H3]] Hr. split; [done..|]. destruct (Renumbered_reads _ _ Hr) as (_ & Et & _).
  assert (Hs : forall h, stored (setDb db hc) h <-> stored hc h) by (intros h; by apply (Renumbered_stored U HU)).
  split; [by eapply Store_renumbered|]. split.
  - intros x h Hh. destruct (H1 x h Hh). by rewrite Hs.
  - intros x td Ht. destruct (H2 x td Ht) as (h & Hh & E & E'). exists h. rewrite Hs. split_and!; [done..|].
    unfold tdOf. cbn [setDb chainDb]. rewrite Et; [done|apply (U_hash U HU), Hh|apply numberOf_u64].
  - intros x n Hn. destruct (H3 x n Hn) as (h & Hh & E). exists h. by rewrite Hs.
Qed.

Lemma canonical_write n h db m :
  is_u64 n -> is_u64 m -> is_hash h ->
  chaindb.GetCanonicalHash m (<[keyBytes (KCanonical n) := HashBytes h]> db) = if bool_decide (m = n) then h else chaindb.GetCanonicalHash m db.
Proof.
  intros Hn Hm Hh. case_bool_decide as E; [subst; by apply getHash_insert|].
  apply (GetCanonicalHash_same [KCanonical n]); [by apply (Only_insert (KCanonical n))|done|]. rewrite list_elem_of_singleton. congruence.
Qed.
Lemma canonical_delete n db m :
  is_u64 n -> is_u64 m ->
  chaindb.GetCanonicalHash m (base.delete (keyBytes (KCanonical n)) db) = if bool_decide (m = n) then 0 else chaindb.GetCanonicalHash m db.
Proof.
  intros Hn Hm. case_bool_decide as E; [subst; by apply getHash_delete|].
  apply (GetCanonicalHash_same [KCanonical n]); [by apply (Only_delete (KCanonical n))|done|]. rewrite list_elem_of_singleton. congruence.
Qed.

Lemma write_canonical_moves hc h n :
  Good hc -> is_u64 n -> is_hash h ->
  exists hc', onDb (chaindb.WriteCanonicalHash h n) hc = (Ok tt, hc') /\ Moves hc hc' /\
    forall m, is_u64 m -> canonical hc' m = if bool_decide (m = n) then h else canonical hc m.
Proof.
  intros HG Hn Hh. eexists. split; [reflexivity|]. split; [|intros m Hm; by apply canonical_write].
  apply setDb_moves; [done|]. eapply Only_renumbered; [by apply (Only_insert (KCanonical n))|by repeat constructor].
Qed.
Lemma delete_canonical_moves hc n :
  Good hc -> is_u64 n ->
  exists hc', onDb (chaindb.DeleteCanonicalHash n) hc = (Ok tt, hc') /\ Moves hc hc' /\
    forall m, is_u64 m -> canonical hc' m = if bool_decide (m = n) then 0 else canonical hc m.
Proof.
  intros HG Hn. eexists. split; [reflexivity|]. split; [|intros m Hm; by apply canonical_delete].
  apply setDb_moves; [done|]. eapply Only_renumbered; [by apply (Only_delete (KCanonical n))|by repeat constructor].
Qed.

(** [dropAbove] removes the numbers from [i] on, when they are used up to [M]. *)
Lemma dropAbove_ok M fuel : forall i hc,
  Good hc -> M < 2 ^ 64 - 1 -> is_u64 i -> (forall n, is_u64 n -> i <= n -> canonical hc n <> 0 <-> n <= M) -> (Z.to_nat (M + 1 - i) < fuel)%nat ->
  exists hc', dropAbove fuel i hc = (Ok tt, hc') /\ Moves hc hc' /\
    forall n, is_u64 n -> canonical hc' n = if bool_decide (i <= n) then 0 else canonical hc n.
Proof.
  induction fuel as [|fuel IH]; intros i hc HG HM Hi Hused Hf; [lia|]. cbn [dropAbove]. fold (canonical hc i).
  destruct (Z.eqb_spec (canonical hc i) 0) as [E0|Hne].
  - exists hc. split; [done|]. split; [by apply Reads_moves, Reads_refl|]. intros n Hn. case_bool_decide as Hle; [|done].
    destruct (decide (canonical hc n = 0)) as [|Hn0]; [done|]. apply (Hused n Hn Hle) in Hn0. destruct (Hused i Hi ltac:(lia)) as [_ Hx]. lia.
  - assert (HiM : i <= M) by (apply Hused; [done|lia|done]). destruct (delete_canonical_moves hc i HG Hi) as (hc1 & E1 & Hm1 & Hc1).
    rewrite (mbind_Ok _ _ _ _ _ E1). assert (Ei : u64 (i + 1) = i + 1) by (apply u64_small; unfold is_u64 in *; lia). rewrite Ei.
    destruct (IH (i + 1) hc1) as (hc2 & E2 & Hm2 & Hc2); [by destruct Hm1|done|unfold is_u64 in *; lia| |lia|].
    { intros n Hn Hle. rewrite Hc1 by done. rewrite bool_decide_eq_false_2 by lia. apply Hused; [done|lia]. }
    exists hc2. split; [done|]. split; [by eapply Moves_trans|]. intros n Hn. rewrite Hc2, Hc1 by done. repeat case_bool_decide; lia || done.
Qed.

(** ** The ancestors of a header become canonical *)

Section Overwrite.
Variables (db0 : chaindb.DB) (head p : Header).
Notation A := (Anc U db0).

(** The canonical number [n] is the ancestor of [h]. *)
Definition On (hc : chain) (h : Header) (n : Z) : Prop := exists b, A h b /\ numberOf b = n /\ canonical hc n = headerHash b.

Hypothesis Hhead : StoredIn U db0 head.

(** Halfway: from [a] up the numbers are those of [p], below they are those of the old head. *)
Record Halfway (a : Header) (hc : chain) : Prop := {
  hw_good : Good hc;
  hw_db : Renumbered db0 (chainDb hc);
  hw_anc : A p a;
  hw_below : forall n, 0 <= n <= numberOf a -> n <= numberOf head -> On hc head n;
  hw_gap : forall n, is_u64 n -> n <= numberOf a -> numberOf head < n -> canonical hc n = 0;
  hw_above : forall n, numberOf a < n <= numberOf p -> On hc p n
}.

(** The chains have met: all numbers are those of [p]. *)
Lemma Halfway_met a hc : Halfway a hc -> canonical hc (numberOf a) = headerHash a -> forall n, 0 <= n <= numberOf p -> On hc p n.
Proof.
  intros [HG Hr Ha Hbelow Hgap Habove] Ea n Hn. pose proof (Anc_stored U _ _ _ Ha) as [Hp Has]. pose proof (numberOf_u64 a) as Hna.
  destruct (decide (numberOf a < n)) as [|Hlt]; [by apply Habove; lia|].
  assert (Hah : numberOf a <= numberOf head).
  { destruct (decide (numberOf a <= numberOf head)) as [|Hgt]; [done|]. exfalso. apply (un_nonzero U HU a (proj1 Has)). rewrite <- Ea. apply Hgap; [done|lia|lia]. }
  destruct (Hbelow (numberOf a)) as (b & Hb & Enb & Eb); [unfold is_u64 in *; lia|done|].
  assert (b = a) as -> by (apply (StoredIn_inj U HU db0); [by apply (Anc_stored U _ _ _ Hb)|done|congruence]).
  destruct (Hbelow n) as (c & Hc & Enc & Ec); [lia|lia|]. exists c. split_and!; [|done..]. apply (Anc_trans U _ _ a); [done|].
  apply (Anc_linear U HU _ head); [done..|lia].
Qed.

(** They meet at the genesis header at the latest. *)
Lemma Halfway_genesis a hc : Halfway a hc -> canonical hc (numberOf a) <> headerHash a -> a <> genesisHeader hc.
Proof.
  intros [HG Hr Ha Hbelow _ _] Hne ->. apply Hne. destruct (sr_genesis U _ _ (gd_store _ HG)) as [Hgs Eg]. rewrite Eg in *.
  destruct (Hbelow 0) as (b & Hb & Enb & Eb); [lia|pose proof (numberOf_u64 head) as H0; unfold is_u64 in H0; lia|].
  rewrite Eb. f_equal. apply (Store_zero U (genesisHeader hc) (chainDb hc) b (gd_store _ HG)); [|done]. apply (Renumbered_stored U HU db0); [done|].
  by apply (Anc_stored U _ _ _ Hb).
Qed.

(** One number further down. *)
Lemma Halfway_step a q hc hc' :
  Halfway a hc -> StoredIn U db0 q -> Parent a q -> Good hc' -> Renumbered (chainDb hc) (chainDb hc') ->
  (forall m, is_u64 m -> canonical hc' m = if bool_decide (m = numberOf a) then headerHash a else canonical hc m) -> Halfway q hc'.
Proof.
  intros [HG Hr Ha Hbelow Hgap Habove] Hq Hpar HG' Hr' Hc. pose proof (Anc_stored U _ _ _ Ha) as [Hp Has]. pose proof (numberOf_u64 a) as Hna.
  pose proof (numberOf_u64 p) as Hnp. pose proof Hpar as [_ Eq]. pose proof (Anc_le U _ _ _ Ha) as Hle.
  assert (Hon : forall h n, is_u64 n -> n <> numberOf a -> On hc h n -> On hc' h n).
  { intros h n Hn Hna' (b & Hb & Enb & Eb). exists b. split_and!; [done..|]. rewrite Hc by done. by rewrite bool_decide_eq_false_2. }
  split.
  - done.
  - by eapply Renumbered_trans.
  - apply (Anc_trans U _ _ a); [done|]. apply (Anc_parent U _ _ q); [done|done|by constructor].
  - intros n Hn Hnh. apply Hon; [unfold is_u64 in *; lia|lia|]. by apply Hbelow; lia.
  - intros n Hn Hnq' Hnh. rewrite Hc by done. rewrite bool_decide_eq_false_2 by lia. by apply Hgap; [..|lia|].
  - intros n Hn. destruct (decide (n = numberOf a)) as [->|Hna']; [|apply Hon; [unfold is_u64 in *; lia|done|apply Habove; lia]].
    exists a. split_and!; [done..|]. rewrite Hc by done. by rewrite bool_decide_eq_true_2.
Qed.

Lemma overwrite_ok fuel : forall a hc,
  Halfway a hc -> (Z.to_nat (numberOf a) < fuel)%nat ->
  exists hc', overwrite fuel (headerHash a) (numberOf a) (Some a) hc = (Ok tt, hc') /\ Moves hc hc' /\
    (forall n, 0 <= n <= numberOf p -> On hc' p n) /\ forall n, is_u64 n -> numberOf p < n -> canonical hc' n = canonical hc n.
Proof.
  induction fuel as [|fuel IH]; intros a hc HW Hf; [lia|]. pose proof HW as [HG Hr Ha _ _ _]. pose proof (Anc_stored U _ _ _ Ha) as [_ Has].
  pose proof (proj1 Has) as HUa. pose proof (numberOf_u64 a) as Hna. pose proof (Anc_le U _ _ _ Ha) as Hle.
  cbn [overwrite]. fold (canonical hc (numberOf a)). destruct (Z.eqb_spec (canonical hc (numberOf a)) (headerHash a)) as [Ea|Hne].
  { exists hc. split; [done|]. split; [by apply Reads_moves, Reads_refl|]. split; [by eapply Halfway_met|done]. }
  destruct (write_canonical_moves hc (headerHash a) (numberOf a) HG Hna (U_hash U HU a HUa)) as (hc1 & E1 & Hm1 & Hc1).
  rewrite (mbind_Ok _ _ _ _ _ E1). cbn [deref]. rewrite (mbind_Ok _ _ _ a hc1) by done.
  rewrite (mbind_Ok _ _ _ (numberOf a) hc1) by (unfold lift; by rewrite (uint64Of_number a (so_ok _ (un_storable U HU a HUa)))).
  destruct (sr_parent U _ _ (gd_store _ HG) a) as (q & Hq & Hpar); [by apply (Renumbered_stored U HU db0)|by apply Halfway_genesis|]. pose proof Hpar as [Eq1 Eq2].
  pose proof (numberOf_u64 q) as Hnq. assert (Eu : u64 (numberOf a - 1) = numberOf q) by (rewrite Eq2; rewrite u64_small; unfold is_u64 in *; lia).
  rewrite Eu, Eq1. assert (Hq1 : stored hc1 q) by (apply (Renumbered_stored U HU (chainDb hc)); [by destruct Hm1|done]).
  destruct (GetHeader_reads hc1 (headerHash q) (numberOf q)) as (r & hc2 & E2 & HR2 & _ & Hr2); [by destruct Hm1|apply (U_hash U HU), Hq|done|].
  rewrite (mbind_Ok _ _ _ _ _ E2). rewrite (Hr2 q Hq1 eq_refl eq_refl). pose proof (Moves_trans _ _ _ Hm1 (Reads_moves _ _ HR2)) as Hm2.
  assert (Hc2 : forall m, is_u64 m -> canonical hc2 m = if bool_decide (m = numberOf a) then headerHash a else canonical hc m).
  { intros m Hm. unfold canonical at 1. rewrite (rd_db _ _ HR2). by apply Hc1. }
  destruct (IH q hc2) as (hc3 & E3 & Hm3 & Hon3 & Hab3); [|unfold is_u64 in *; lia|].
  { apply (Halfway_step a q hc); [done|by apply (Renumbered_stored U HU db0) in Hq|done|by destruct Hm2|by destruct Hm2|done]. }
  exists hc3. split; [done|]. split; [by eapply Moves_trans|]. split; [done|].
  intros n Hn Hnp. rewrite Hab3, Hc2 by done. by rewrite bool_decide_eq_false_2 by lia.
Qed.
End Overwrite.

(** ** The invariant *)

(** The canonical numbers are those of the ancestors of the head. *)
Record Inv (hc : chain) (head : Header) : Prop := {
  iv_good : Good hc;
  iv_current : currentHeader hc = Some head;
  iv_hash : currentHeaderHash hc = headerHash head;
  iv_head : chaindb.GetHeadHeaderHash (chainDb hc) = headerHash head;
  iv_stored : stored hc head;
  iv_below : forall n, 0 <= n <= numberOf head -> On (chainDb hc) hc head n;
  iv_above : forall n, is_u64 n -> numberOf head < n -> canonical hc n = 0
}.

(** No stored header has a higher total difficulty than the head. *)
Definition Heaviest (hc : chain) (head : Header) : Prop :=
  forall h td tdh, stored hc h -> tdOf hc h = Some td -> tdOf hc head = Some tdh -> td <= tdh.

Lemma Inv_used hc head n : Inv hc head -> is_u64 n -> canonical hc n <> 0 <-> n <= numberOf head.
Proof.
  intros HI Hn. split.
  - intros Hc. destruct (decide (n <= numberOf head)); [done|]. destruct Hc. apply (iv_above _ _ HI); [done|lia].
  - intros Hle. unfold is_u64 in Hn. destruct (iv_below _ _ HI n) as (b & Hb & _ & ->); [lia|]. apply (un_nonzero U HU), (Anc_stored U _ _ _ Hb).
Qed.

Lemma Inv_reads hc hc' head : Inv hc head -> Reads hc hc' -> Inv hc' head.
Proof.
  intros [H1 H2 H3 H4 H5 H6 H7] [E1 E2 E3 E4 HG]. unfold stored, On, canonical in *.
  split; unfold stored, On, canonical; rewrite ?E1, ?E3, ?E4; done.
Qed.
Lemma Heaviest_reads hc hc' head : Heaviest hc head -> Reads hc hc' -> Heaviest hc' head.
Proof. intros H [E _ _ _ _]. unfold Heaviest, stored, tdOf in *. by rewrite E. Qed.

(** *** The header and its difficulty are stored *)

Section Write.
Context (hc : chain) (head header p : Header) (tdp : Z).
Hypothesis HI : Inv hc head.
Hypothesis Hu : U header.
Hypothesis Hp : stored hc p.
Hypothesis Hpar : Parent header p.
Hypothesis Htp : tdOf hc p = Some tdp.

Definition newTd : Z := difficultyOf header + tdp.

(** Such a state: [hc'] has the header besides what [hc] has. *)
Record Added (hc' : chain) : Prop := {
  ad_stored : forall h, stored hc' h <-> stored hc h \/ h = header;
  ad_td : tdOf hc' header = Some newTd;
  ad_old : forall h, stored hc h -> tdOf hc' h = tdOf hc h;
  ad_inv : Inv hc' head
}.

Lemma newTd_range : 0 <= newTd < 2 ^ 256.
Proof.
  destruct (sr_td U _ _ (gd_store _ (iv_good _ _ HI)) p Hp) as (td & E & Hr). unfold tdOf in Htp. rewrite Htp in E. injection E as ->.
  pose proof (un_difficulty U HU header Hu). pose proof (un_storable U HU header Hu) as [[_ _ _ Hb _ _] _ _]. unfold newTd, difficultyOf in *.
  inversion Hb as [|? ? (z & Ez & Hz) _]. rewrite Ez in *. cbn [default] in *. unfold id in *. pose proof (numberOf_u64 p) as Hn. unfold is_u64 in Hn. lia.
Qed.

Definition headerKeys : list key := [KTd (numberOf header) (headerHash header); KNumber (headerHash header); KHeader (numberOf header) (headerHash header)].

Lemma Added_state db1 db2 :
  Only headerKeys (chainDb hc) db2 -> chaindb.GetHeader (headerHash header) (numberOf header) db2 = Some header ->
  chaindb.GetBlockNumber (headerHash header) db2 = numberOf header -> chaindb.GetTd (headerHash header) (numberOf header) db2 = Some newTd ->
  Added (setDb db2 (setTds (cacheAdd (headerHash header) newTd (tdCache hc)) (setDb db1 hc))).
Proof.
  intros HO Eh En Et. pose proof HI as [[HS [H1 H2 H3]] Hcur Hhash Hhd Hst Hbel Hab].
  assert (Et' : chaindb.GetTd (headerHash header) (numberOf header) db2 = Some (tdp + difficultyOf header)) by (rewrite Et; unfold newTd; f_equal; lia).
  assert (Hkeep : forall h, stored hc h -> StoredIn U db2 h) by (intros h; by apply (added_keeps U HU header (chainDb hc))).
  assert (Hold : forall h, stored hc h -> chaindb.GetTd (headerHash h) (numberOf h) db2 = tdOf hc h).
  { intros h Hh. by apply (added_td U HU (genesisHeader hc) header p (chainDb hc) db2 tdp). }
  assert (Hcan : forall n, is_u64 n -> chaindb.GetCanonicalHash n db2 = canonical hc n).
  { intros n Hn. apply (GetCanonicalHash_same _ _ _ HO); [done|]. unfold headerKeys. rewrite !not_elem_of_cons. split_and!; [done..|apply not_elem_of_nil]. }
  split; unfold stored, tdOf; cbn [setDb setTds chainDb].
  - intros h. by apply (added_stored U HU header (chainDb hc) db2).
  - done.
  - exact Hold.
  - split; unfold stored, canonical; cbn [setDb setTds chainDb currentHeader currentHeaderHash genesisHeader]; try done.
    + split; cbn [setDb setTds chainDb genesisHeader]; [by apply (Store_add U HU (genesisHeader hc) header p (chainDb hc) db2 tdp)|].
      split; unfold stored, tdOf; cbn [setDb setTds chainDb headerCache tdCache numberCache].
      * intros x h Hx. destruct (H1 x h Hx) as [Hh E]. by split; [apply Hkeep|].
      * intros x td Hx. destruct (cacheAdd_adds _ _ _ _ _ Hx) as [[-> ->]|Hx']; [by exists header|].
        destruct (H2 x td Hx') as (h & Hh & E & E'). exists h. split_and!; [by apply Hkeep|done|]. by rewrite Hold.
      * intros x n Hx. destruct (H3 x n Hx) as (h & Hh & E). exists h. by split; [apply Hkeep|].
    + rewrite (GetHeadHeaderHash_same _ _ _ HO); [done|]. unfold headerKeys. rewrite !not_elem_of_cons. split_and!; [done..|apply not_elem_of_nil].
    + by apply Hkeep.
    + intros n Hn. destruct (Hbel n Hn) as (b & Hb & Enb & Eb). pose proof (numberOf_u64 head) as Hnh. exists b. split_and!; [|done|].
      * eapply Anc_mono; [|exact Hb]. exact Hkeep.
      * unfold canonical in *. cbn [setDb setTds chainDb]. rewrite Hcan; [done|]. unfold is_u64 in *. lia.
    + intros n Hn Hlt. rewrite Hcan by done. by apply Hab.
Qed.

Lemma writes_header :
  exists hc', mbind (crit (WriteTd (headerHash header) (numberOf header) newTd)) (fun _ => crit (onDb (chaindb.WriteHeader header))) hc = (Ok tt, hc') /\ Added hc'.
Proof.
  pose proof (un_storable U HU header Hu) as Hst. destruct (WriteTd_ok (headerHash header) (numberOf header) newTd (chainDb hc)) as (db1 & E1 & Ho1 & Et);
    [apply numberOf_u64|apply (so_hash _ Hst)|apply newTd_range|]. destruct (WriteHeader_ok header db1 Hst) as (db2 & E2 & Ho2 & Eh & En).
  eexists. split.
  - unfold mbind, crit, WriteTd, mbind, onDb. rewrite E1. unfold modify. cbn [setDb setTds chainDb]. rewrite E2. reflexivity.
  - apply Added_state; [exact (Only_trans [_] _ _ _ _ Ho1 Ho2)|done|done|].
    rewrite (GetTd_same _ _ _ Ho2); [done|apply numberOf_u64|apply (so_hash _ Hst)|]. rewrite !not_elem_of_cons. split_and!; [done..|apply not_elem_of_nil].
Qed.
End Write.

(** *** A heavier header becomes the head *)

Definition reorganise (fuel : nat) (header : Header) (number : Z) : HM WriteStatus :=
  let! _ := dropAbove fuel (u64 (number + 1)) in
  let! headHeader := GetHeader (hParentHash header) (u64 (number - 1)) in
  let! _ := overwrite fuel (hParentHash header) (u64 (number - 1)) headHeader in
  let! _ := onDb (chaindb.WriteCanonicalHash (headerHash header) number) in
  let! _ := onDb (chaindb.WriteHeadHeaderHash (headerHash header)) in
  let! _ := modify (setCurrent (Some (CopyHeader header)) (headerHash header)) in
  ret CanonStatTy.

Lemma Moves_stored hc hc' h : Moves hc hc' -> stored hc' h <-> stored hc h.
Proof. intros [Hr _ _ _ _]. by apply (Renumbered_stored U HU). Qed.
Lemma Moves_td hc hc' h : Moves hc hc' -> stored hc h -> tdOf hc' h = tdOf hc h.
Proof.
  intros [Hr _ _ _ _] Hh. destruct (Renumbered_reads _ _ Hr) as (_ & Et & _). apply Et; [apply (U_hash U HU), Hh|apply numberOf_u64].
Qed.

(** Writing the hash of the head. *)
Lemma write_head_moves hc h :
  Good hc -> is_hash h ->
  exists hc', onDb (chaindb.WriteHeadHeaderHash h) hc = (Ok tt, hc') /\ Moves hc hc' /\ chaindb.GetHeadHeaderHash (chainDb hc') = h /\
    forall m, is_u64 m -> canonical hc' m = canonical hc m.
Proof.
  intros HG Hh. eexists. split; [reflexivity|]. split; [|split; [by apply (getHash_insert chaindb.headHeaderKey)|]].
  - apply setDb_moves; [done|]. eapply Only_renumbered; [by apply (Only_insert KHeadHeader)|by repeat constructor].
  - intros m Hm. apply (GetCanonicalHash_same [KHeadHeader]); [by apply (Only_insert KHeadHeader)|done|]. by rewrite list_elem_of_singleton.
Qed.

Lemma Inv_halfway hc hc' head p :
  Inv hc head -> Moves hc hc' -> stored hc p -> (forall n, is_u64 n -> n <= numberOf p + 1 -> canonical hc' n = canonical hc n) -> Halfway (chainDb hc) head p p hc'.
Proof.
  intros HI Hm Hp Hc. pose proof (numberOf_u64 p) as Hn. split.
  - by destruct Hm.
  - by destruct Hm.
  - by constructor.
  - intros n Hnp Hnh. destruct (iv_below _ _ HI n) as (b & Hb & Enb & Eb); [lia|]. exists b. split_and!; [done..|]. rewrite Hc; [done|unfold is_u64 in *; lia|lia].
  - intros n Hnu Hnp Hnh. rewrite Hc by (done || lia). by apply (iv_above _ _ HI).
  - intros n Hnp. lia.
Qed.

Lemma reorganise_ok hc head header p fuel :
  Inv hc head -> stored hc header -> stored hc p -> Parent header p -> numberOf head < Z.of_nat fuel -> numberOf header < Z.of_nat fuel ->
  exists hc', reorganise fuel header (numberOf header) hc = (Ok CanonStatTy, hc') /\ Inv hc' header /\
    (forall h, stored hc' h <-> stored hc h) /\ forall h, stored hc h -> tdOf hc' h = tdOf hc h.
Proof.
  intros HI Hh Hp Hpar Hf1 Hf2. pose proof Hh as [Hu _]. pose proof (un_number U HU header Hu) as Hnum. pose proof (un_number U HU head (proj1 (iv_stored _ _ HI))) as Hnumh.
  unfold chaindb.missingNumber in *. pose proof (numberOf_u64 header) as Hn. pose proof (numberOf_u64 p) as Hnp. pose proof Hpar as [Ep En].
  assert (Eu : u64 (numberOf header - 1) = numberOf p) by (rewrite u64_small; unfold is_u64 in *; lia).
  assert (Eu' : u64 (numberOf header + 1) = numberOf header + 1) by (rewrite u64_small; unfold is_u64 in *; lia).
  unfold reorganise. rewrite Eu, Eu', Ep.
  destruct (dropAbove_ok (numberOf head) fuel (numberOf header + 1) hc) as (hc1 & E1 & Hm1 & Hc1); [by destruct HI|lia|unfold is_u64 in *; lia| |unfold is_u64 in *; lia|].
  { intros n Hnu _. by apply Inv_used. }
  rewrite (mbind_Ok _ _ _ _ _ E1). destruct (GetHeader_reads hc1 (headerHash p) (numberOf p)) as (r & hc2 & E2 & HR2 & _ & Hr2); [by destruct Hm1|apply (U_hash U HU), Hp|done|].
  rewrite (mbind_Ok _ _ _ _ _ E2), (Hr2 p) by (done || by apply (Moves_stored hc)). pose proof (Moves_trans _ _ _ Hm1 (Reads_moves _ _ HR2)) as Hm2.
  assert (Hc2 : forall n, is_u64 n -> canonical hc2 n = if bool_decide (numberOf header + 1 <= n) then 0 else canonical hc n).
  { intros n Hnu. unfold canonical at 1. rewrite (rd_db _ _ HR2). by apply Hc1. }
  destruct (overwrite_ok (chainDb hc) head p fuel p hc2) as (hc3 & E3 & Hm3 & Hon3 & Hab3).
  { apply Inv_halfway; [done..|]. intros n Hnu Hle. rewrite Hc2 by done. by rewrite bool_decide_eq_false_2 by lia. }
  { unfold is_u64 in *. lia. }
  rewrite (mbind_Ok _ _ _ _ _ E3). destruct (write_canonical_moves hc3 (headerHash header) (numberOf header)) as (hc4 & E4 & Hm4 & Hc4); [by destruct Hm3|done|by apply (U_hash U HU)|].
  rewrite (mbind_Ok _ _ _ _ _ E4). destruct (write_head_moves hc4 (headerHash header)) as (hc5 & E5 & Hm5 & Eh5 & Hc5); [by destruct Hm4|by apply (U_hash U HU)|].
  rewrite (mbind_Ok _ _ _ _ _ E5). pose proof (Moves_trans _ _ _ (Moves_trans _ _ _ Hm2 Hm3) (Moves_trans _ _ _ Hm4 Hm5)) as Hm.
  assert (Hc : forall n, is_u64 n -> canonical hc5 n = if bool_decide (n = numberOf header) then headerHash header else canonical hc3 n) by (intros n Hnu; by rewrite Hc5, Hc4).
  eexists. split; [reflexivity|]. rewrite (CopyHeader_ok header) by (apply so_ok, (un_storable U HU), Hu). split_and!.
  - split; unfold stored, canonical; cbn [setCurrent chainDb currentHeader currentHeaderHash]; try done.
    + destruct Hm as [_ _ _ _ [HS [G1 G2 G3]]]. by split; [|split].
    + by apply (Moves_stored hc hc5).
    + intros n Hnn. assert (Hnu : is_u64 n) by (unfold is_u64 in *; lia). destruct (decide (n = numberOf header)) as [->|Hne].
      * exists header. split_and!; [|done|]; [constructor; by apply (Moves_stored hc hc5)|]. unfold canonical. cbn [setCurrent chainDb].
        fold (canonical hc5 (numberOf header)). rewrite Hc by done. by rewrite bool_decide_eq_true_2.
      * destruct (Hon3 n) as (b & Hb & Enb & Eb); [lia|]. exists b. split_and!; [|done|].
        -- cbn [setCurrent chainDb]. apply (Anc_renumbered U HU (chainDb hc)); [by destruct Hm|]. by apply (Anc_parent U _ _ p).
        -- unfold canonical. cbn [setCurrent chainDb]. fold (canonical hc5 n). rewrite Hc by done. by rewrite bool_decide_eq_false_2.
    + intros n Hnu Hlt. fold (canonical hc5 n). rewrite Hc by done. rewrite bool_decide_eq_false_2 by lia. rewrite Hab3 by (done || lia).
      rewrite Hc2 by done. by rewrite bool_decide_eq_true_2 by lia.
  - intros h. by apply (Moves_stored hc hc5).
  - intros h Hx. by apply (Moves_td hc hc5).
Qed.

(** *** Writing a header *)

Lemma mbind_Ok_inv {S E A B} (m : M S E A) (k : A -> M S E B) s b s' : mbind m k s = (Ok b, s') -> exists a s1, m s = (Ok a, s1) /\ k a s1 = (Ok b, s').
Proof. unfold mbind. destruct (m s) as [[a| | |] s1]; [|done..]. intros E1. by exists a, s1. Qed.

Definition remember (header : Header) (number : Z) (status : WriteStatus) : HM WriteStatus :=
  let! _ := modify (fun hc => setHeaders (cacheAdd (headerHash header) header (headerCache hc)) hc) in
  let! _ := modify (fun hc => setNumbers (cacheAdd (headerHash header) number (numberCache hc)) hc) in
  ret status.

Lemma remember_ok hc header status :
  Good hc -> stored hc header -> exists hc', remember header (numberOf header) status hc = (Ok status, hc') /\ Reads hc hc'.
Proof.
  intros HG Hh. eexists. split; [reflexivity|]. eapply Reads_trans.
  - apply (Reads_headers hc (cacheAdd (headerHash header) header (headerCache hc)) HG). intros x h Hx.
    destruct (cacheAdd_adds _ _ _ _ _ Hx) as [[-> ->]|Hx']; [done|by apply (co_header _ (gd_caches _ HG))].
  - apply Reads_numbers.
    + apply Reads_headers; [done|]. intros x h Hx. destruct (cacheAdd_adds _ _ _ _ _ Hx) as [[-> ->]|Hx']; [done|by apply (co_header _ (gd_caches _ HG))].
    + intros x n Hx. destruct (cacheAdd_adds _ _ _ _ _ Hx) as [[-> ->]|Hx']; [by exists header|by apply (co_number _ (gd_caches _ HG))].
Qed.

(** The header is the new head if it is heavier; the coin decides a tie. *)
Definition decides (coin : bool) (td tdh : Z) : bool := (td >? tdh) || (td =? tdh) && coin.
Definition writeStatus (b : bool) : WriteStatus := if b then CanonStatTy else SideStatTy.

Lemma write_settles hc head header p td tdh b fuel :
  Inv hc head -> stored hc header -> stored hc p -> Parent header p -> tdOf hc header = Some td -> tdOf hc head = Some tdh ->
  (b = true -> tdh <= td) -> (b = false -> td <= tdh) -> numberOf head < Z.of_nat fuel -> numberOf header < Z.of_nat fuel ->
  exists hc', (let! status := (if b then reorganise fuel header (numberOf header) else ret SideStatTy) in remember header (numberOf header) status) hc
      = (Ok (writeStatus b), hc') /\
    Inv hc' (if b then header else head) /\
    ((forall h td', stored hc h -> h <> header -> tdOf hc h = Some td' -> td' <= tdh) -> Heaviest hc' (if b then header else head)) /\
    (forall h, stored hc' h <-> stored hc h) /\ forall h, stored hc h -> tdOf hc' h = tdOf hc h.
Proof.
  intros HI Hh Hp Hpar Et Eth Hb1 Hb2 Hf1 Hf2.
  assert (Hdone : exists hc1, (if b then reorganise fuel header (numberOf header) else ret SideStatTy) hc = (Ok (writeStatus b), hc1) /\
    Inv hc1 (if b then header else head) /\ (forall h, stored hc1 h <-> stored hc h) /\ forall h, stored hc h -> tdOf hc1 h = tdOf hc h).
  { destruct b; [by eapply reorganise_ok|]. by exists hc. }
  destruct Hdone as (hc1 & E1 & HI1 & Hs1 & Ht1). rewrite (mbind_Ok _ _ _ _ _ E1).
  destruct (remember_ok hc1 header (writeStatus b)) as (hc2 & E2 & HR); [by destruct HI1|by apply Hs1|]. exists hc2. split; [done|].
  assert (Hs2 : forall h, stored hc2 h <-> stored hc h) by (intros h; unfold stored at 1; rewrite (rd_db _ _ HR); apply Hs1).
  assert (Ht2 : forall h, stored hc h -> tdOf hc2 h = tdOf hc h) by (intros h Hx; unfold tdOf at 1; rewrite (rd_db _ _ HR); by apply Ht1).
  split_and!; [by eapply Inv_reads| |done|done]. intros Hmax h td' tdh' Hx. apply Hs2 in Hx. rewrite !Ht2 by (done || (destruct b; [done|apply (iv_stored _ _ HI)])).
  intros Ex Ex'. assert (Htd' : h <> header -> td' <= tdh) by (intros Hne; by eapply Hmax).
  assert (Htd : h = header -> td' = td) by (intros ->; congruence). assert (tdh' = if b then td else tdh) as -> by (destruct b; congruence).
  destruct b; [specialize (Hb1 eq_refl)|specialize (Hb2 eq_refl)]; destruct (decide (h = header)) as [Eq|Hne];
    [specialize (Htd Eq)|specialize (Htd' Hne)|specialize (Htd Eq)|specialize (Htd' Hne)]; lia.
Qed.

Lemma WriteHeader_spec hc head header p td tdh coin fuel :
  Inv hc head -> U header -> stored hc p -> Parent header p -> tdOf hc p = Some td -> tdOf hc head = Some tdh ->
  numberOf head < Z.of_nat fuel -> numberOf header < Z.of_nat fuel ->
  exists b hc', b = decides coin (difficultyOf header + td) tdh /\ WriteHeader fuel coin header hc = (Ok (writeStatus b), hc') /\
    Inv hc' (if b then header else head) /\ (Heaviest hc head -> Heaviest hc' (if b then header else head)) /\
    (forall h, stored hc' h <-> stored hc h \/ h = header) /\ tdOf hc' header = Some (difficultyOf header + td) /\
    forall h, stored hc h -> tdOf hc' h = tdOf hc h.
Proof.
  intros HI Hu Hp Hpar Et Eth Hf1 Hf2. exists (decides coin (difficultyOf header + td) tdh). pose proof (un_storable U HU header Hu) as Hst.
  pose proof (numberOf_u64 header) as Hn. pose proof (numberOf_u64 p) as Hnp. pose proof Hpar as [Ep En].
  assert (Eu : u64 (numberOf header - 1) = numberOf p) by (rewrite u64_small; unfold is_u64 in *; lia).
  unfold WriteHeader. rewrite (mbind_Ok _ _ _ (numberOf header) hc) by (unfold lift; by rewrite (uint64Of_number header (so_ok _ Hst))). rewrite Eu, Ep.
  destruct (GetTd_reads hc (headerHash p) (numberOf p)) as (r1 & hc1 & E1 & HR1 & _ & Er1); [by destruct HI|apply (U_hash U HU), Hp|done|].
  rewrite (mbind_Ok _ _ _ _ _ E1). rewrite (Er1 p Hp eq_refl eq_refl), Et. pose proof (Inv_reads _ _ _ HI HR1) as HI1.
  rewrite (mbind_Ok _ _ _ (headerHash head) hc1) by (unfold gets; by rewrite (iv_hash _ _ HI1)).
  rewrite (mbind_Ok _ _ _ (Some head) hc1) by (unfold gets; by rewrite (iv_current _ _ HI1)). rewrite (mbind_Ok _ _ _ head hc1) by done.
  pose proof (un_storable U HU head (proj1 (iv_stored _ _ HI))) as Hsh.
  rewrite (mbind_Ok _ _ _ (numberOf head) hc1) by (unfold lift; by rewrite (uint64Of_number head (so_ok _ Hsh))).
  destruct (GetTd_reads hc1 (headerHash head) (numberOf head)) as (r2 & hc2 & E2 & HR2 & _ & Er2); [by destruct HI1|apply (so_hash _ Hsh)|apply numberOf_u64|].
  rewrite (mbind_Ok _ _ _ _ _ E2). rewrite (Er2 head (iv_stored _ _ HI1) eq_refl eq_refl). pose proof (Inv_reads _ _ _ HI1 HR2) as HI2.
  pose proof (Reads_trans _ _ _ HR1 HR2) as HR. assert (Hs2 : forall h, stored hc2 h <-> stored hc h) by (intros h; unfold stored; by rewrite (rd_db _ _ HR)).
  assert (Ht2 : forall h, tdOf hc2 h = tdOf hc h) by (intros h; unfold tdOf; by rewrite (rd_db _ _ HR)).
  assert (Ht1 : tdOf hc1 head = Some tdh) by (unfold tdOf; by rewrite (rd_db _ _ HR1)). rewrite Ht1.
  assert (Ed : hDifficulty header = Some (difficultyOf header)).
  { destruct Hst as [[_ _ _ Hb _ _] _ _]. inversion Hb as [|? ? (z & Ez & Hz) _]. unfold difficultyOf. by rewrite Ez. }
  rewrite (mbind_Ok _ _ _ (difficultyOf header) hc2) by (unfold lift; by rewrite Ed).
  destruct (writes_header hc2 head header p td) as (hc4 & E34 & [Hs4 Ht4 Hold4 HI4]); [done|done|by apply Hs2|done|by rewrite Ht2|].
  apply mbind_Ok_inv in E34 as ([] & hc3 & E3 & E4). unfold newTd in E3, Ht4. rewrite (mbind_Ok _ _ _ _ _ E3), (mbind_Ok _ _ _ _ _ E4).
  rewrite (mbind_Ok _ _ _ tdh hc4) by done.
  destruct (write_settles hc4 head header p (difficultyOf header + td) tdh (decides coin (difficultyOf header + td) tdh) fuel) as (hc5 & E5 & HI5 & HH5 & Hs5 & Ht5);
    [done|apply Hs4; by right|apply Hs4; left; by apply Hs2|done|done| | | |done|done|].
  - rewrite Hold4, Ht2 by (apply Hs2, (iv_stored _ _ HI)). done.
  - unfold decides. intros Hb. destruct (Z.gtb_spec (difficultyOf header + td) tdh), (Z.eqb_spec (difficultyOf header + td) tdh); cbn in Hb; lia || done.
  - unfold decides. intros Hb. destruct (Z.gtb_spec (difficultyOf header + td) tdh); cbn in Hb; lia || done.
  - exists hc5. split; [done|]. split; [unfold reorganise in E5; rewrite Eu, Ep in E5; exact E5|].
    split; [done|]. split; [|split; [|split]].
    + intros HH. apply HH5. intros h td' Hh Hne Ex. apply Hs4 in Hh as [Hh|]; [|done]. rewrite Hold4, Ht2 in Ex by done. apply Hs2 in Hh. by eapply HH.
    + intros h. by rewrite Hs5, Hs4, Hs2.
    + rewrite Ht5; [done|]. apply Hs4. by right.
    + intros h Hh. rewrite Ht5, Hold4, Ht2; [done|by apply Hs2|]. apply Hs4. left. by apply Hs2.
Qed.

Lemma WriteHeader_unknown hc head header coin fuel :
  Inv hc head -> U header -> (forall h, stored hc h -> headerHash h <> hParentHash header) ->
  exists hc', WriteHeader fuel coin header hc = (Err chaindb.ErrUnknownAncestor, hc') /\ Reads hc hc'.
Proof.
  intros HI Hu Hno. pose proof (un_storable U HU header Hu) as Hst. unfold WriteHeader.
  rewrite (mbind_Ok _ _ _ (numberOf header) hc) by (unfold lift; by rewrite (uint64Of_number header (so_ok _ Hst))).
  destruct (GetTd_reads hc (hParentHash header) (u64 (numberOf header - 1))) as (r & hc1 & E1 & HR & Hr & _);
    [by destruct HI|by apply (un_parent U HU)|apply Z.mod_pos_bound; lia|]. rewrite (mbind_Ok _ _ _ _ _ E1).
  destruct r as [td|]; [|by exists hc1]. destruct (Hr td eq_refl) as (h & Hh & E). by destruct (Hno h Hh).
Qed.

(** ** Importing headers *)

Lemma HasHeader_stored hc h : Good hc -> U h -> HasHeader (headerHash h) (numberOf h) hc = true <-> stored hc h.
Proof.
  intros [HS [H1 H2 H3]] Hh. pose proof (U_hash U HU h Hh) as Hx. pose proof (numberOf_u64 h) as Hn. unfold HasHeader. rewrite !orb_true_iff. split.
  - intros [[Hc|Hc]|Hd].
    + destruct (contains_get _ _ Hc) as (n & Eg). destruct (H3 _ _ Eg) as (h' & Hh' & E & _). by rewrite (un_inj U HU h h') by (done || apply Hh').
    + destruct (contains_get _ _ Hc) as (h' & Eg). destruct (H1 _ _ Eg) as (Hh' & E). by rewrite (un_inj U HU h h') by (done || apply Hh').
    + unfold chaindb.Has in Hd. apply bool_decide_eq_true in Hd. destruct (sr_raw U _ _ HS _ _ Hx Hn Hd) as (h' & Eg).
      destruct (sr_header U _ _ HS _ _ _ Hx Hn Eg) as (Hh' & E & _). by rewrite (un_inj U HU h h') by (done || apply Hh').
  - intros [_ Eg]. right. apply bool_decide_eq_true. unfold chaindb.GetHeader, chaindb.getRLP, chaindb.Get in Eg.
    destruct (chainDb hc !! chaindb.numHashKey chaindb.headerPrefix (numberOf h) (headerHash h)); [by eexists|discriminate Eg].
Qed.

(** A chain of headers on top of [p]. *)
Fixpoint LinkedOn (p : Header) (headers : list Header) : Prop :=
  match headers with [] => True | h :: headers => Parent h p /\ LinkedOn h headers end.

Section Import.
Variables (fuel : nat) (coin : Header -> bool) (stop : Z -> bool).
(** The callback that [BlockChain.InsertHeaderChain] passes. *)
Definition writeOne (h : Header) : HM unit := let! _ := WriteHeader fuel (coin h) h in ret tt.

Lemma writeOne_ok hc head h p :
  Inv hc head -> U h -> stored hc p -> Parent h p -> numberOf head < Z.of_nat fuel -> numberOf h < Z.of_nat fuel ->
  exists hc' head', writeOne h hc = (Ok tt, hc') /\ Inv hc' head' /\ (Heaviest hc head -> Heaviest hc' head') /\ (head' = head \/ head' = h) /\
    (forall x, stored hc' x <-> stored hc x \/ x = h) /\ forall x, stored hc x -> tdOf hc' x = tdOf hc x.
Proof.
  intros HI Hu Hp Hpar Hf1 Hf2. pose proof (gd_store _ (iv_good _ _ HI)) as HS. destruct (sr_td U _ _ HS p Hp) as (td & Et & _).
  destruct (sr_td U _ _ HS head (iv_stored _ _ HI)) as (tdh & Eth & _).
  destruct (WriteHeader_spec hc head h p td tdh (coin h) fuel) as (b & hc' & _ & E & HI' & HH' & Hs & _ & Ht); [done..|].
  exists hc', (if b then h else head). unfold writeOne. rewrite (mbind_Ok _ _ _ _ _ E). split_and!; [done..| |done|done]. destruct b; auto.
Qed.

Lemma insertFrom_ok headers : forall i hc head p,
  Inv hc head -> stored hc p -> LinkedOn p headers -> Forall U headers -> (forall j, stop j = false) ->
  numberOf head < Z.of_nat fuel -> Forall (fun h => numberOf h < Z.of_nat fuel) headers ->
  exists hc' head', insertFrom writeOne stop i headers hc = (Ok (0, None), hc') /\ Inv hc' head' /\ (Heaviest hc head -> Heaviest hc' head') /\
    (forall x, stored hc' x <-> stored hc x \/ x ∈ headers) /\ forall x, stored hc x -> tdOf hc' x = tdOf hc x.
Proof.
  induction headers as [|h headers IH]; intros i hc head p HI Hp Hl Hu Hst Hf Hfs; cbn [insertFrom].
  { exists hc, head. split_and!; try done. intros x. rewrite elem_of_nil. tauto. }
  destruct Hl as [Hpar Hl]. pose proof (Forall_inv Hu) as Hu1. apply Forall_inv_tail in Hu. pose proof (Forall_inv Hfs) as Hf1. apply Forall_inv_tail in Hfs.
  rewrite Hst, (uint64Of_number h) by (by apply so_ok, (un_storable U HU)). destruct (HasHeader (headerHash h) (numberOf h) hc) eqn:Eh.
  - apply HasHeader_stored in Eh; [|by destruct HI|done]. destruct (IH (i + 1) hc head h) as (hc' & head' & E & H1 & H2 & Hs & Ht); [done..|].
    exists hc', head'. split_and!; try done. intros x. rewrite Hs, elem_of_cons. split; [tauto|]. intros [?|[->|?]]; tauto.
  - destruct (writeOne_ok hc head h p) as (hc1 & head1 & E1 & HI1 & HH1 & Hd1 & Hs1 & Ht1); [done..|]. rewrite E1.
    destruct (IH (i + 1) hc1 head1 h) as (hc' & head' & E & H1 & H2 & Hs & Ht); [done|apply Hs1; by right|done|done|done|destruct Hd1 as [-> | ->]; done|done|].
    exists hc', head'. split_and!; [done|done|auto| |].
    + intros x. rewrite Hs, Hs1, elem_of_cons. tauto.
    + intros x Hx. rewrite Ht, Ht1; [done|done|]. apply Hs1. by left.
Qed.
End Import.
End Chain.
