(* ===== verification/HeaderChainRewind.v ===== *)
(** * Package core: rewinding the chain of headers

    [SetHead] of headerchain.go: when every stored header above the new head is canonical,
    the chain afterwards is the chain up to it. *)

From stdpp Require Import base numbers list gmap option.
From Stdlib Require Import ZArith Lia Strings.Byte.
From S2P Require Import Prelude Rlp Common Types TrieDatabase CliqueSnapshot CliqueEngineSpec Blocks ChainDb ChainDbProofs HeaderChain HeaderChainStore HeaderChainProofs.
Import headerchain.

Section Rewind.
Context {CR : Crypto} {HC TC NC : Type} {HCI : LRU HC Z Header} {TCI : LRU TC Z Z} {NCI : LRU NC Z Z}.
Context {HCL : LRULaws HC Z Header} {TCL : LRULaws TC Z Z} {NCL : LRULaws NC Z Z}.
Context (U : Header -> Prop) (HU : Universe U).
Notation chain := (HeaderChain HC TC NC).

(** The entries of a header. *)
Definition headKeys (a : Header) : list key := [KNumber (headerHash a); KHeader (numberOf a) (headerHash a); KTd (numberOf a) (headerHash a)].
(** What the callback may delete. *)
Definition ofBody (k : key) : Prop := match k with KBody _ _ | KReceipts _ _ | KLookup _ => True | _ => False end.

(** The callback leaves the headers alone. *)
Definition DeletesBodies (delFn : option (Hash -> Z -> chaindb.DB -> chaindb.DB)) : Prop :=
  match delFn with
  | None => True
  | Some f => forall x n db k, is_hash x -> is_u64 n -> keyOk k -> ~ ofBody k -> f x n db !! keyBytes k = db !! keyBytes k
  end.

(** The callback of [BlockChain.SetHead]. *)
Definition deleteBodies : option (Hash -> Z -> chaindb.DB -> chaindb.DB) := Some (fun hash num db => snd (chaindb.DeleteBody hash num db)).
Lemma deleteBodies_ok : DeletesBodies deleteBodies.
Proof.
  intros x n db k Hx Hn Hk Hb. apply (lookup_delete_ne db). intros E. change (chaindb.numHashKey chaindb.bodyPrefix n x) with (keyBytes (KBody n x)) in E.
  apply keyBytes_inj in E; [|done|done]. by subst k.
Qed.

Section Cut.
Context (g head : Header) (db0 : chaindb.DB) (HS : Store U g db0) (Hhead : StoredIn U db0 head).

(** The canonical headers above [k] are gone, and nothing else of the headers. *)
Record Cut (k : Z) (db : chaindb.DB) : Prop := {
  ct_gone : forall a x, Anc U db0 head a -> k < numberOf a -> x ∈ headKeys a -> db !! keyBytes x = None;
  ct_rest : forall x, keyOk x -> ~ ofBody x -> (forall a, Anc U db0 head a -> k < numberOf a -> x ∉ headKeys a) -> db !! keyBytes x = db0 !! keyBytes x
}.

Lemma Cut_start : Cut (numberOf head) db0.
Proof. split; [|done]. intros a x Ha Hlt. pose proof (Anc_le U _ _ _ Ha). lia. Qed.

Lemma headKeys_ok a x : U a -> x ∈ headKeys a -> keyOk x /\ ~ ofBody x.
Proof.
  intros Ha Hx. pose proof (U_hash U HU a Ha). pose proof (numberOf_u64 a). unfold headKeys in Hx. rewrite !elem_of_cons in Hx.
  destruct Hx as [->|[->|[->|Hx]]]; [by split; [|exact id]..|by apply elem_of_nil in Hx].
Qed.

(** One more. *)
Lemma Cut_step h q db db' :
  Anc U db0 head h -> Parent h q -> Cut (numberOf h) db ->
  (forall x, keyOk x -> ~ ofBody x -> x ∉ headKeys h -> db' !! keyBytes x = db !! keyBytes x) ->
  (forall x, x ∈ headKeys h -> db' !! keyBytes x = None) -> Cut (numberOf q) db'.
Proof.
  intros Hh [_ Eq] [Hgone Hrest] Hsame Hdel. split.
  - intros a x Ha Hlt Hx. destruct (decide (x ∈ headKeys h)) as [Hin|Hout]; [by apply Hdel|].
    assert (Hlt' : numberOf h < numberOf a).
    { destruct (decide (numberOf a = numberOf h)) as [E|]; [|lia]. by rewrite (Anc_unique U HU _ _ _ _ Ha Hh E) in Hx. }
    destruct (headKeys_ok a x) as [H1 H2]; [apply (Anc_stored U _ _ _ Ha)|done|]. rewrite Hsame by done. by apply (Hgone a).
  - intros x Hk Hb Hno. rewrite Hsame; [|done|done|apply Hno; [done|lia]]. apply Hrest; [done..|]. intros a Ha Hlt. apply Hno; [done|lia].
Qed.

Lemma low_header k db x n : Cut k db -> is_hash x -> is_u64 n -> n <= k -> db !! keyBytes (KHeader n x) = db0 !! keyBytes (KHeader n x).
Proof.
  intros [_ Hrest] Hx Hn Hle. apply Hrest; [done|exact id|]. intros a Ha Hlt. unfold headKeys. rewrite !not_elem_of_cons.
  split_and!; [done| |done|apply not_elem_of_nil]. intros E. injection E as E _. lia.
Qed.
Lemma low_td k db x n : Cut k db -> is_hash x -> is_u64 n -> n <= k -> db !! keyBytes (KTd n x) = db0 !! keyBytes (KTd n x).
Proof.
  intros [_ Hrest] Hx Hn Hle. apply Hrest; [done|exact id|]. intros a Ha Hlt. unfold headKeys. rewrite !not_elem_of_cons.
  split_and!; [done|done| |apply not_elem_of_nil]. intros E. injection E as E _. lia.
Qed.

(** *** Without forks above, the store is cut off at a number *)

Context (k : Z) (db : chaindb.DB) (HC1 : Cut k db).
Hypothesis Hforks : forall h, StoredIn U db0 h -> k < numberOf h -> Anc U db0 head h.

(** What is left was there. *)
Lemma left_same x : keyOk x -> ~ ofBody x -> is_Some (db !! keyBytes x) -> db !! keyBytes x = db0 !! keyBytes x.
Proof.
  intros Hx Hb [v Ev]. apply (ct_rest _ _ HC1); [done..|]. intros a Ha Hlt Hin. by rewrite (ct_gone _ _ HC1 a x) in Ev.
Qed.

Lemma Get_None x d : d !! keyBytes x = None -> chaindb.Get (keyBytes x) d = [].
Proof. intros E. unfold chaindb.Get. by rewrite E. Qed.

Lemma cut_header x n : is_hash x -> is_u64 n -> chaindb.GetHeader x n db = if bool_decide (k < n) then None else chaindb.GetHeader x n db0.
Proof.
  intros Hx Hn. unfold chaindb.GetHeader at 1, chaindb.getRLP, chaindb.Get. case_bool_decide as Hlt.
  - destruct (db !! keyBytes (KHeader n x)) as [v|] eqn:Ev; cbn [keyBytes] in Ev; [|by rewrite Ev]. exfalso.
    pose proof (left_same (KHeader n x) (conj Hn Hx) id) as E. cbn [keyBytes] in E. rewrite Ev in E. specialize (E ltac:(done)).
    destruct (sr_raw U g db0 HS x n Hx Hn) as (h & Eh); [by eexists|]. destruct (sr_header U g db0 HS x n h Hx Hn Eh) as (Hh & <- & <-).
    pose proof (ct_gone _ _ HC1 h (KHeader (numberOf h) (headerHash h)) (Hforks h Hh Hlt) Hlt) as Hg. cbn [keyBytes] in Hg.
    rewrite Hg in Ev; [done|]. unfold headKeys. rewrite !elem_of_cons. auto.
  - pose proof (low_header k db x n HC1 Hx Hn ltac:(lia)) as E. cbn [keyBytes] in E. unfold chaindb.GetHeader, chaindb.getRLP, chaindb.Get. by rewrite E.
Qed.

Lemma cut_td x n : is_hash x -> is_u64 n -> chaindb.GetTd x n db = if bool_decide (k < n) then None else chaindb.GetTd x n db0.
Proof.
  intros Hx Hn. case_bool_decide as Hlt.
  - destruct (chaindb.GetTd x n db) as [td|] eqn:Et; [|done]. exfalso.
    assert (E : db !! keyBytes (KTd n x) = db0 !! keyBytes (KTd n x)).
    { apply left_same; [done|exact id|]. unfold chaindb.GetTd, chaindb.getRLP, chaindb.Get in Et. cbn [keyBytes]. destruct (db !! chaindb.tdKey n x); [by eexists|discriminate Et]. }
    assert (Et0 : chaindb.GetTd x n db0 = Some td) by (unfold chaindb.GetTd, chaindb.getRLP, chaindb.Get in *; cbn [keyBytes] in E; by rewrite <- E).
    destruct (sr_lone U g db0 HS x n td Hx Hn Et0) as (h & Hh & <- & <-).
    pose proof (ct_gone _ _ HC1 h (KTd (numberOf h) (headerHash h)) (Hforks h Hh Hlt) Hlt) as Hg. cbn [keyBytes] in Hg.
    unfold chaindb.GetTd, chaindb.getRLP, chaindb.Get in Et. rewrite Hg in Et; [discriminate Et|]. unfold headKeys. rewrite !elem_of_cons. auto.
  - pose proof (low_td k db x n HC1 Hx Hn ltac:(lia)) as E. cbn [keyBytes] in E. unfold chaindb.GetTd, chaindb.getRLP, chaindb.Get. by rewrite E.
Qed.

Lemma cut_number x :
  is_hash x -> k < chaindb.missingNumber ->
  chaindb.GetBlockNumber x db = if bool_decide (k < chaindb.GetBlockNumber x db0) then chaindb.missingNumber else chaindb.GetBlockNumber x db0.
Proof.
  intros Hx Hk. assert (Hnone : db !! keyBytes (KNumber x) = None -> chaindb.GetBlockNumber x db = chaindb.missingNumber).
  { intros E. unfold chaindb.GetBlockNumber. pose proof (Get_None (KNumber x) db E) as E'. cbn [keyBytes] in E'. by rewrite E'. }
  assert (Hsame : db !! keyBytes (KNumber x) = db0 !! keyBytes (KNumber x) -> chaindb.GetBlockNumber x db = chaindb.GetBlockNumber x db0).
  { intros E. unfold chaindb.GetBlockNumber, chaindb.Get. cbn [keyBytes] in E. by rewrite E. }
  destruct (decide (chaindb.GetBlockNumber x db0 = chaindb.missingNumber)) as [Em|Hm].
  - rewrite Em, bool_decide_eq_true_2 by done. destruct (db !! keyBytes (KNumber x)) as [v|] eqn:Ev; [|by apply Hnone].
    rewrite <- Em. apply Hsame. rewrite <- Ev. apply left_same; [done|exact id|]. rewrite Ev. by eexists.
  - destruct (sr_known U g db0 HS x Hx Hm) as (h & Hh & <-). rewrite (sr_number U g db0 HS h Hh) in *. case_bool_decide as Hlt.
    + apply Hnone, (ct_gone _ _ HC1 h); [by apply Hforks|done|]. unfold headKeys. rewrite !elem_of_cons. auto.
    + apply Hsame, (ct_rest _ _ HC1); [done|exact id|]. intros a Ha Hla. unfold headKeys. rewrite !not_elem_of_cons.
      split_and!; [|done|done|apply not_elem_of_nil]. intros E. injection E as E.
      rewrite (StoredIn_inj U HU db0 h a Hh (proj2 (Anc_stored U _ _ _ Ha)) E) in Hlt. lia.
Qed.

Lemma cut_stored h : StoredIn U db h <-> StoredIn U db0 h /\ numberOf h <= k.
Proof.
  pose proof (numberOf_u64 h) as Hn. unfold StoredIn. split.
  - intros [Hh E]. rewrite cut_header in E by (done || by apply (U_hash U HU)). case_bool_decide; [done|]. split; [done|lia].
  - intros [[Hh E] Hle]. split; [done|]. rewrite cut_header by (done || by apply (U_hash U HU)). by rewrite bool_decide_eq_false_2 by lia.
Qed.

Lemma cut_Store : 0 <= k < chaindb.missingNumber -> Store U g db.
Proof.
  intros Hk. pose proof HS as [H1 H2 H3 H4 H5 H6 H7 H8 H9].
  assert (Ht : forall h, StoredIn U db h -> chaindb.GetTd (headerHash h) (numberOf h) db = chaindb.GetTd (headerHash h) (numberOf h) db0).
  { intros h [Hh Hle]%cut_stored. rewrite cut_td by (apply (U_hash U HU), Hh || apply numberOf_u64). by rewrite bool_decide_eq_false_2 by lia. }
  split.
  - intros x n h Hx Hn E. rewrite cut_header in E by done. case_bool_decide as Hlt; [done|]. destruct (H1 x n h Hx Hn E) as (Hh & E1 & E2).
    split; [apply cut_stored; split; [done|lia]|done].
  - destruct H2 as [Hg E]. split; [apply cut_stored; split; [done|lia]|done].
  - intros h [Hh Hle]%cut_stored Hne. destruct (H3 h Hh Hne) as (p & Hp & Hpar). exists p. split; [|done]. apply cut_stored. split; [done|]. destruct Hpar. lia.
  - intros h [Hh Hle]%cut_stored. rewrite cut_number by (lia || apply (U_hash U HU), Hh). rewrite (H4 h Hh). by rewrite bool_decide_eq_false_2 by lia.
  - intros x Hx Hm. rewrite cut_number in Hm by (done || lia). case_bool_decide as Hlt; [done|]. destruct (H5 x Hx Hm) as (h & Hh & <-).
    exists h. split; [|done]. apply cut_stored. rewrite (H4 h Hh) in Hlt. split; [done|lia].
  - intros h Hh. rewrite Ht by done. apply H6. by apply cut_stored in Hh as [? _].
  - intros h p Hh Hp Hne Hpar td td'. rewrite !Ht by done. apply cut_stored in Hh as [Hh _], Hp as [Hp _]. by apply H7.
  - intros x n td Hx Hn E. rewrite cut_td in E by done. case_bool_decide as Hlt; [done|]. destruct (H8 x n td Hx Hn E) as (h & Hh & E1 & E2).
    exists h. split; [apply cut_stored; split; [done|lia]|done].
  - intros x n Hx Hn Hs. pose proof (left_same (KHeader n x) (conj Hn Hx) id Hs) as E. rewrite E in Hs. destruct (H9 x n Hx Hn Hs) as (h & Eh).
    rewrite cut_header by done. case_bool_decide as Hlt; [|by eexists]. exfalso. destruct (H1 x n h Hx Hn Eh) as (Hh & <- & <-).
    rewrite <- E in Hs. rewrite (ct_gone _ _ HC1 h (KHeader (numberOf h) (headerHash h)) (Hforks h Hh Hlt) Hlt) in Hs; [by destruct Hs|].
    unfold headKeys. rewrite !elem_of_cons. auto.
Qed.

Lemma cut_Anc h a : numberOf h <= k -> Anc U db0 h a -> Anc U db h a.
Proof.
  intros Hle. induction 1 as [h Hh|h p a Hh Hpar Ha IH]; [constructor; by apply cut_stored|].
  apply (Anc_parent U _ _ p); [by apply cut_stored|done|]. apply IH. destruct Hpar. lia.
Qed.
End Cut.

(** ** The loop *)

Section Loop.
Context (g head : Header) (db0 : chaindb.DB) (HS : Store U g db0) (Hhead : StoredIn U db0 head) (N : Z) (HN : 0 <= N).
Context (delFn : option (Hash -> Z -> chaindb.DB -> chaindb.DB)) (Hdel : DeletesBodies delFn).

(** At the header [h]; the cache may know headers that are gone. *)
Record At (h : Header) (hc : chain) : Prop := {
  at_current : currentHeader hc = Some h;
  at_anc : Anc U db0 head h;
  at_cut : Cut head db0 (numberOf h) (chainDb hc);
  at_cache : forall x y, fst (cacheGet x (headerCache hc)) = Some y -> StoredIn U db0 y /\ headerHash y = x
}.

Lemma GetHeader_parent h q (hc : chain) :
  Cut head db0 (numberOf q) (chainDb hc) -> (forall x y, fst (cacheGet x (headerCache hc)) = Some y -> StoredIn U db0 y /\ headerHash y = x) ->
  StoredIn U db0 q -> Parent h q ->
  exists c, GetHeader (headerHash q) (numberOf q) hc = (Ok (Some q), setHeaders c hc) /\
    forall x y, fst (cacheGet x c) = Some y -> StoredIn U db0 y /\ headerHash y = x.
Proof.
  intros Hcut Hc Hq Hpar. pose proof (U_hash U HU q (proj1 Hq)) as Hx. pose proof (numberOf_u64 q) as Hn. unfold GetHeader.
  destruct (cacheGet (headerHash q) (headerCache hc)) as [hit c] eqn:Ec.
  assert (Hc' : forall x y, fst (cacheGet x c) = Some y -> StoredIn U db0 y /\ headerHash y = x).
  { intros x y Hy. apply Hc, (cacheGet_keeps (headerHash q)). by rewrite Ec. }
  destruct hit as [y|].
  - destruct (Hc (headerHash q) y) as [Hy Ey]; [by rewrite Ec|]. exists c. split; [|done]. by rewrite (StoredIn_inj U HU db0 y q).
  - cbn [setHeaders chainDb]. assert (Eh : chaindb.GetHeader (headerHash q) (numberOf q) (chainDb hc) = Some q).
    { destruct Hq as [_ <-]. pose proof (low_header head db0 (numberOf q) (chainDb hc) (headerHash q) (numberOf q) Hcut Hx Hn ltac:(lia)) as E. cbn [keyBytes] in E.
      unfold chaindb.GetHeader, chaindb.getRLP, chaindb.Get. by rewrite E. }
    rewrite Eh. eexists. split; [reflexivity|]. intros x y Hy. destruct (cacheAdd_adds _ _ _ _ _ Hy) as [[-> ->]|Hy']; [done|by apply Hc'].
Qed.

(** The deletions of one round. *)
Definition deleted (h : Header) (db : chaindb.DB) : chaindb.DB :=
  let db := match delFn with Some f => f (headerHash h) (numberOf h) db | None => db end in
  base.delete (keyBytes (KTd (numberOf h) (headerHash h)))
    (base.delete (keyBytes (KHeader (numberOf h) (headerHash h))) (base.delete (keyBytes (KNumber (headerHash h))) db)).

Lemma deleted_cut h q db : Anc U db0 head h -> Parent h q -> Cut head db0 (numberOf h) db -> Cut head db0 (numberOf q) (deleted h db).
Proof.
  intros Hh Hpar Hcut. pose proof (U_hash U HU h (proj1 (proj2 (Anc_stored U _ _ _ Hh)))) as Hx. pose proof (numberOf_u64 h) as Hn.
  apply (Cut_step head db0 h q db); [done..| |].
  - intros x Hk Hb Hout. unfold headKeys in Hout. rewrite !not_elem_of_cons in Hout. destruct Hout as (H1 & H2 & H3 & _). unfold deleted.
    rewrite !lookup_delete_ne by (intros E; apply keyBytes_inj in E; [congruence|done|done]). unfold DeletesBodies in Hdel. destruct delFn; [by apply Hdel|done].
  - intros x Hin. unfold headKeys in Hin. rewrite !elem_of_cons in Hin. unfold deleted. rewrite !lookup_delete_None.
    destruct Hin as [->|[->|[->|Hin]]]; [tauto..|by apply elem_of_nil in Hin].
Qed.

Lemma rewind_step h hc fuel :
  At h hc -> N < numberOf h ->
  exists q hc', rewind (S fuel) N delFn hc = rewind fuel N delFn hc' /\ At q hc' /\ numberOf h = numberOf q + 1 /\ genesisHeader hc' = genesisHeader hc.
Proof.
  intros [Hc Ha Hcut Hcache] Hlt. pose proof (proj2 (Anc_stored U _ _ _ Ha)) as Hs. pose proof (un_storable U HU h (proj1 Hs)) as Hst.
  destruct (sr_parent U g db0 HS h Hs) as (q & Hq & Hpar); [intros ->; destruct (sr_genesis U g db0 HS); lia|]. pose proof Hpar as [E1 E2].
  pose proof (numberOf_u64 h) as Hn. pose proof (numberOf_u64 q) as Hnq.
  assert (Eu : u64 (numberOf h - 1) = numberOf q) by (rewrite u64_small; unfold is_u64 in *; lia).
  set (hc1 := setDb (deleted h (chainDb hc)) hc). pose proof (deleted_cut h q (chainDb hc) Ha Hpar Hcut) as Hcut1.
  destruct (GetHeader_parent h q hc1 Hcut1 Hcache Hq Hpar) as (c & Eg & Hcache1).
  exists q, (setCurrent (Some q) (currentHeaderHash hc) (setHeaders c hc1)). split; [|split; [|done]].
  - cbn [rewind]. rewrite Hc. rewrite (mbind_Ok _ _ _ (numberOf h) hc) by (unfold lift; by rewrite (uint64Of_number h (so_ok _ Hst))).
    destruct (Z.gtb_spec (numberOf h) N); [|lia]. cbn [negb]. rewrite Eu, E1.
    set (hcA := setDb (match delFn with Some f => f (headerHash h) (numberOf h) (chainDb hc) | None => chainDb hc end) hc).
    rewrite (mbind_Ok _ _ _ tt hcA) by (unfold hcA; destruct delFn; [done|by destruct hc]).
    rewrite (mbind_Ok _ _ _ tt (setDb (base.delete (keyBytes (KHeader (numberOf h) (headerHash h))) (base.delete (keyBytes (KNumber (headerHash h))) (chainDb hcA))) hc)) by done.
    rewrite (mbind_Ok _ _ _ tt hc1) by done. rewrite (mbind_Ok _ _ _ _ _ Eg). done.
  - split; [done| |exact Hcut1|exact Hcache1]. apply (Anc_trans U _ _ h); [done|]. apply (Anc_parent U _ _ q); [done|done|by constructor].
Qed.

Lemma rewind_ok fuel : forall h hc,
  At h hc -> numberOf h < Z.of_nat fuel ->
  exists h' hc', rewind fuel N delFn hc = (Ok tt, hc') /\ At h' hc' /\ numberOf h' = Z.min N (numberOf h) /\ genesisHeader hc' = genesisHeader hc.
Proof.
  induction fuel as [|fuel IH]; intros h hc Hat Hf; [pose proof (numberOf_u64 h) as H0; unfold is_u64 in H0; lia|].
  destruct (decide (N < numberOf h)) as [Hlt|Hge].
  - destruct (rewind_step h hc fuel Hat Hlt) as (q & hc1 & E & Hat1 & En & Eg). rewrite E. destruct (IH q hc1 Hat1) as (h' & hc' & E' & Hat' & En' & Eg'); [lia|].
    exists h', hc'. split_and!; [done|done|lia|congruence].
  - exists h, hc. pose proof Hat as [Hc Ha _ _]. pose proof (proj2 (Anc_stored U _ _ _ Ha)) as Hs. cbn [rewind]. rewrite Hc.
    rewrite (mbind_Ok _ _ _ (numberOf h) hc) by (unfold lift; by rewrite (uint64Of_number h (so_ok _ (un_storable U HU h (proj1 Hs))))).
    destruct (Z.gtb_spec (numberOf h) N); [lia|]. split_and!; [done|done|lia|done].
Qed.
End Loop.

(** ** The numbering, the caches and the head *)

Lemma unnumber_ok n : forall i (hc : chain),
  is_u64 i -> Z.of_nat n <= i ->
  exists db, unnumber n i hc = (Ok tt, setDb db hc) /\ Renumbered (chainDb hc) db /\
    forall m, is_u64 m -> chaindb.GetCanonicalHash m db = if bool_decide (i - Z.of_nat n < m <= i) then 0 else canonical hc m.
Proof.
  induction n as [|n IH]; intros i hc Hi Hn; cbn [unnumber].
  - exists (chainDb hc). split; [by destruct hc|]. split; [done|]. intros m Hm. by rewrite bool_decide_eq_false_2 by lia.
  - set (db1 := base.delete (keyBytes (KCanonical i)) (chainDb hc)). rewrite (mbind_Ok _ _ _ tt (setDb db1 hc)) by done.
    destruct (IH (i - 1) (setDb db1 hc)) as (db & E & Hr & Hc); [unfold is_u64 in *; lia|lia|]. exists db. split; [rewrite E; by destruct hc|]. split.
    + eapply Renumbered_trans; [|exact Hr]. eapply Only_renumbered; [by apply (Only_delete (KCanonical i))|by repeat constructor].
    + intros m Hm. rewrite Hc by done. unfold canonical, db1. cbn [setDb chainDb]. rewrite canonical_delete by done. repeat case_bool_decide; lia || done.
Qed.

Lemma purged_caches (hc : chain) : CachesOk U (purge hc).
Proof. split; intros x y Hx; cbn [purge setNumbers setTds setHeaders headerCache tdCache numberCache] in Hx; by rewrite purge_get in Hx. Qed.

Lemma Cut_canonical head db0 k db n : Cut head db0 k db -> is_u64 n -> chaindb.GetCanonicalHash n db = chaindb.GetCanonicalHash n db0.
Proof.
  intros [_ Hrest] Hn. pose proof (Hrest (KCanonical n) Hn id) as E. cbn [keyBytes] in E. unfold chaindb.GetCanonicalHash, chaindb.getHash, chaindb.Get.
  rewrite E; [done|]. intros a _ _. unfold headKeys. rewrite !not_elem_of_cons. split_and!; [done..|apply not_elem_of_nil].
Qed.

(** What is above the new head was canonical, and is gone after. *)
Lemma SetHead_spec (hc : chain) head N fuel delFn :
  Inv U hc head -> 0 <= N <= numberOf head -> DeletesBodies delFn -> (forall h, stored U hc h -> N < numberOf h -> Anc U (chainDb hc) head h) ->
  numberOf head < Z.of_nat fuel ->
  exists head' (hc' : chain), SetHead fuel N delFn hc = (Ok tt, hc') /\ Anc U (chainDb hc) head head' /\ numberOf head' = N /\ Inv U hc' head' /\
    forall h, stored U hc' h <-> stored U hc h /\ numberOf h <= N.
Proof.
  intros HI HN Hdel Hforks Hf. pose proof HI as [[HS HC0] Hcur Hhash Hhd Hst Hbel Hab]. pose proof (un_number U HU head (proj1 Hst)) as Hnum.
  pose proof (numberOf_u64 head) as Hnh. unfold SetHead. rewrite (mbind_Ok _ _ _ (Some head) hc) by (unfold gets; by rewrite Hcur).
  rewrite (mbind_Ok _ _ _ (numberOf head) hc) by (unfold lift; by rewrite (uint64Of_number head (so_ok _ (un_storable U HU head (proj1 Hst))))).
  destruct (rewind_ok (genesisHeader hc) head (chainDb hc) HS N ltac:(lia) delFn Hdel fuel head hc) as (h' & hc1 & E1 & [Hc1 Ha Hcut _] & En & Eg1);
    [by split; [|constructor|apply Cut_start|apply (co_header _ _ HC0)]|done|]. rewrite Z.min_l in En by lia. rewrite En in Hcut.
  rewrite (mbind_Ok _ _ _ _ _ E1). destruct (unnumber_ok (Z.to_nat (numberOf head - N)) (numberOf head) hc1) as (db2 & E2 & Hr2 & Hc2); [done|lia|].
  rewrite (mbind_Ok _ _ _ _ _ E2), (mbind_Ok _ _ _ tt (purge (setDb db2 hc1))) by done.
  set (hc3 := setCurrent (Some h') (headerHash h') (purge (setDb db2 hc1))).
  rewrite (mbind_Ok _ _ _ tt hc3) by (unfold modify, hc3; cbn [purge setDb setHeaders setTds setNumbers currentHeader]; by rewrite Hc1).
  rewrite (mbind_Ok _ _ _ (headerHash h') hc3) by done. pose proof (proj2 (Anc_stored U _ _ _ Ha)) as Hs'. pose proof (U_hash U HU h' (proj1 Hs')) as Hx'.
  assert (HG3 : Good U hc3).
  { split; [|destruct (purged_caches (setDb db2 hc1)); by split]. unfold hc3. cbn [setCurrent purge setDb setHeaders setTds setNumbers genesisHeader chainDb]. rewrite Eg1.
    apply (Store_renumbered U HU _ (chainDb hc1)); [done|]. apply (cut_Store (genesisHeader hc) head (chainDb hc) HS N); [done|done|lia]. }
  destruct (write_head_moves U HU hc3 (headerHash h') HG3 Hx') as (hc4 & E4 & Hm4 & Eh4 & Hc4). exists h', hc4. split; [done|]. split; [done|]. split; [done|].
  assert (Hr4 : Renumbered (chainDb hc1) (chainDb hc4)) by (eapply Renumbered_trans; [exact Hr2|apply Hm4]).
  assert (Hs4 : forall h, stored U hc4 h <-> stored U hc h /\ numberOf h <= N).
  { intros h. unfold stored at 1. rewrite (Renumbered_stored U HU (chainDb hc1)) by done. by apply (cut_stored (genesisHeader hc) head (chainDb hc)). }
  assert (Hcan : forall m, is_u64 m -> canonical hc4 m = if bool_decide (N < m) then 0 else canonical hc m).
  { intros m Hm. rewrite Hc4 by done. unfold canonical at 1. change (chainDb hc3) with db2. rewrite Hc2 by done. unfold canonical.
    rewrite (Cut_canonical head (chainDb hc) N (chainDb hc1)) by done. repeat case_bool_decide; try lia; try done. by apply Hab; [|lia]. }
  split; [|done]. split; [by destruct Hm4|rewrite (mv_current _ _ _ Hm4); done|rewrite (mv_hash _ _ _ Hm4); done|done|apply Hs4; split; [done|lia]| |].
  - intros n Hn. rewrite En in Hn. destruct (Hbel n) as (b & Hb & Enb & Eb); [lia|]. exists b. split_and!; [|done|].
    + apply (Anc_renumbered U HU (chainDb hc1)); [done|]. apply (cut_Anc (genesisHeader hc) head (chainDb hc) HS N); [done|done|lia|].
      apply (Anc_linear U HU _ head); [done..|lia].
    + rewrite Hcan by (unfold is_u64 in *; lia). by rewrite bool_decide_eq_false_2 by lia.
  - intros n Hnu Hlt. rewrite Hcan by done. by rewrite bool_decide_eq_true_2 by lia.
Qed.
End Rewind.
