(* ===== verification/HeaderChainQueries.v ===== *)
(** * Package core: looking up ancestors

    [FindCommonAncestor] of database_util.go, [GetAncestor] and [GetBlockHashesFromHash]
    of headerchain.go return ancestors by the hashes of parents. *)

From stdpp Require Import base numbers list gmap option.
From Stdlib Require Import ZArith Lia Strings.Byte.
From S2P Require Import Prelude Rlp Common Types TrieDatabase CliqueSnapshot CliqueEngineSpec Blocks ChainDb ChainDbProofs HeaderChain HeaderChainStore HeaderChainProofs.
Import headerchain.

Section Common.
Context {CR : Crypto} (U : Header -> Prop) (HU : Universe U) (g : Header) (db : chaindb.DB) (HS : Store U g db).
Notation A := (Anc U db).

Lemma stored_number {E} h : StoredIn U db h -> uint64Of (E := E) (hNumber h) = Ok (numberOf h).
Proof. intros [Hh _]. by apply uint64Of_number, so_ok, (un_storable U HU). Qed.

Lemma parentOf_ok h p : StoredIn U db p -> StoredIn U db h -> Parent h p -> chaindb.parentOf h db = Ok (Some p).
Proof.
  intros Hp Hh [E1 E2]. unfold chaindb.parentOf. rewrite stored_number by done. cbn [rbind]. pose proof (numberOf_u64 h) as Hn. pose proof (numberOf_u64 p) as Hnp.
  assert (Eu : u64 (numberOf h - 1) = numberOf p) by (rewrite u64_small; unfold is_u64 in *; lia). rewrite Eu, E1. destruct Hp as [_ ->]. done.
Qed.

Lemma stored_parent h : StoredIn U db h -> 0 < numberOf h -> exists p, StoredIn U db p /\ Parent h p.
Proof. intros Hh Hn. apply (sr_parent U g db HS); [done|]. intros ->. destruct (sr_genesis U g db HS). lia. Qed.

Lemma A_parent h p : StoredIn U db h -> StoredIn U db p -> Parent h p -> A h p.
Proof. intros Hh Hp Hpar. apply (Anc_parent U _ _ p); [done|done|by constructor]. Qed.

Lemma descend_ok fuel : forall h bn, StoredIn U db h -> 0 <= bn -> numberOf h < Z.of_nat fuel ->
  exists a, chaindb.descend fuel h bn db = Ok (Some a) /\ A h a /\ numberOf a = Z.min (numberOf h) bn.
Proof.
  induction fuel as [|fuel IH]; intros h bn Hh Hbn Hf; [pose proof (numberOf_u64 h) as H0; unfold is_u64 in H0; lia|].
  cbn [chaindb.descend]. rewrite stored_number by done. cbn [rbind]. destruct (Z.gtb_spec (numberOf h) bn) as [Hgt|Hle].
  - destruct (stored_parent h Hh) as (p & Hp & Hpar); [lia|]. rewrite (parentOf_ok h p) by done. cbn [rbind]. pose proof Hpar as [_ E2].
    destruct (IH p bn Hp Hbn) as (a & E & Ha & En); [lia|]. exists a. split; [done|]. split; [by eapply Anc_parent|lia].
  - exists h. split; [done|]. split; [by constructor|lia].
Qed.

(** From one height on, the chains meet at the highest common ancestor. *)
Lemma meet_ok fuel : forall a b, StoredIn U db a -> StoredIn U db b -> numberOf a = numberOf b -> numberOf a < Z.of_nat fuel ->
  exists c, chaindb.meet fuel a b db = Ok (Some c) /\ A a c /\ A b c /\ forall d, A a d -> A b d -> numberOf d <= numberOf c.
Proof.
  induction fuel as [|fuel IH]; intros a b Ha Hb En Hf; [pose proof (numberOf_u64 a) as H0; unfold is_u64 in H0; lia|].
  cbn [chaindb.meet]. destruct (Z.eqb_spec (headerHash a) (headerHash b)) as [E|Hne].
  - rewrite (StoredIn_inj U HU db a b Ha Hb E). exists b. split_and!; [done|by constructor|by constructor|]. intros d Hd _. by apply (Anc_le U db).
  - assert (Hpos : 0 < numberOf a).
    { pose proof (numberOf_u64 a) as H0. unfold is_u64 in H0. destruct (decide (numberOf a = 0)) as [E0|]; [|lia]. exfalso. apply Hne.
      rewrite (Store_zero U g db a HS Ha E0). by rewrite (Store_zero U g db b HS Hb) by lia. }
    destruct (stored_parent a Ha Hpos) as (p & Hp & Hpar), (stored_parent b Hb ltac:(lia)) as (q & Hq & Hqar).
    rewrite (parentOf_ok a p) by done. cbn [rbind]. rewrite (parentOf_ok b q) by done. cbn [rbind]. pose proof Hpar as [_ E1]. pose proof Hqar as [_ E2].
    destruct (IH p q) as (c & E & Hc1 & Hc2 & Hmax); [done|done|lia|lia|]. exists c. split_and!; [done|by eapply Anc_parent|by eapply Anc_parent|].
    intros d Hd1 Hd2. assert (Hne' : d <> a /\ d <> b).
    { split; intros ->; apply Hne; f_equal; [apply (Anc_unique U HU db b)|symmetry; apply (Anc_unique U HU db a)]; (done || by constructor). }
    apply Hmax.
    + inversion Hd1 as [|? p' ? _ Hp' Hd]; subst; [by destruct Hne'|]. by rewrite (Parent_unique U HU db a p p' Hp (proj1 (Anc_stored U _ _ _ Hd)) Hpar Hp').
    + inversion Hd2 as [|? q' ? _ Hq' Hd]; subst; [by destruct Hne'|]. by rewrite (Parent_unique U HU db b q q' Hq (proj1 (Anc_stored U _ _ _ Hd)) Hqar Hq').
Qed.

Lemma FindCommonAncestor_ok fuel a b :
  StoredIn U db a -> StoredIn U db b -> numberOf a < Z.of_nat fuel -> numberOf b < Z.of_nat fuel ->
  exists c, chaindb.FindCommonAncestor fuel a b db = Ok (Some c) /\ A a c /\ A b c /\ forall d, A a d -> A b d -> numberOf d <= numberOf c.
Proof.
  intros Ha Hb Hfa Hfb. pose proof (numberOf_u64 a) as Hna. pose proof (numberOf_u64 b) as Hnb. unfold is_u64 in *. unfold chaindb.FindCommonAncestor.
  rewrite stored_number by done. cbn [rbind]. destruct (descend_ok fuel a (numberOf b)) as (a' & -> & Ha' & Ea'); [done|lia|done|]. cbn [rbind].
  pose proof (proj2 (Anc_stored U _ _ _ Ha')) as Hsa'. rewrite stored_number by done. cbn [rbind].
  destruct (descend_ok fuel b (numberOf a')) as (b' & -> & Hb' & Eb'); [done|lia|done|]. cbn [rbind]. pose proof (proj2 (Anc_stored U _ _ _ Hb')) as Hsb'.
  destruct (meet_ok fuel a' b') as (c & -> & Hc1 & Hc2 & Hmax); [done|done|lia|lia|]. exists c. split_and!; [done|by eapply Anc_trans|by eapply Anc_trans|].
  intros d Hd1 Hd2. pose proof (Anc_le U _ _ _ Hd1). pose proof (Anc_le U _ _ _ Hd2).
  apply Hmax; [apply (Anc_linear U HU _ a)|apply (Anc_linear U HU _ b)]; (done || lia).
Qed.
End Common.

Section Queries.
Context {CR : Crypto} {HC TC NC : Type} {HCI : LRU HC Z Header} {TCI : LRU TC Z Z} {NCI : LRU NC Z Z}.
Context {HCL : LRULaws HC Z Header} {TCL : LRULaws TC Z Z} {NCL : LRULaws NC Z Z}.
Context (U : Header -> Prop) (HU : Universe U).
Notation chain := (HeaderChain HC TC NC).

(** The header is on the canonical chain. *)
Definition onChain (hc : chain) (h : Header) : Prop := canonical hc (numberOf h) = headerHash h.

Lemma onChain_anc (hc : chain) head h : Inv U hc head -> stored U hc h -> onChain hc h -> Anc U (chainDb hc) head h.
Proof.
  intros HI Hh Hc. pose proof (numberOf_u64 h) as Hn. assert (Hle : numberOf h <= numberOf head).
  { apply (Inv_used U HU hc head); [done|done|]. rewrite Hc. apply (un_nonzero U HU), Hh. }
  destruct (iv_below U _ _ HI (numberOf h)) as (b & Hb & Enb & Eb); [unfold is_u64 in *; lia|].
  rewrite (StoredIn_inj U HU (chainDb hc) h b); [done|done|apply (Anc_stored U _ _ _ Hb)|]. unfold onChain in Hc. congruence.
Qed.

(** The ancestor at a distance, or nothing when [budget] headers off the canonical chain do not reach it. *)
Definition Answer (hc : chain) (h : Header) (k budget : Z) (r : Hash * Z * Z) : Prop :=
  (exists a b, r = (headerHash a, numberOf a, b) /\ Anc U (chainDb hc) h a /\ numberOf a = numberOf h - k) \/
  (r = (0, 0, 0) /\ budget < k /\ forall a, Anc U (chainDb hc) h a -> numberOf h - budget <= numberOf a -> ~ onChain hc a).

Lemma Answer_parent (hc : chain) h p k budget r :
  stored U hc h -> stored U hc p -> Parent h p -> ~ onChain hc h -> Answer hc p (k - 1) (budget - 1) r -> Answer hc h k budget r.
Proof.
  intros Hh Hp Hpar Hoff [(a & b & -> & Ha & En)|(-> & Hb & Hno)]; pose proof Hpar as [_ E].
  - left. exists a, b. split; [done|]. split; [by eapply Anc_parent|lia].
  - right. split; [done|]. split; [lia|]. intros a Ha Hle. inversion Ha as [|? p' ? _ Hp' Ha']; subst; [done|]. apply Hno; [|lia].
    by rewrite (Parent_unique U HU _ h p p' Hp (proj1 (Anc_stored U _ _ _ Ha')) Hpar Hp').
Qed.

Lemma Answer_reads (hc hc' : chain) h k budget r : Reads U hc hc' -> Answer hc' h k budget r -> Answer hc h k budget r.
Proof. intros [E _ _ _ _]. unfold Answer, onChain, canonical. by rewrite E. Qed.

Lemma ancestorLoop_ok n : forall h budget (hc : chain) head,
  Inv U hc head -> stored U hc h -> Z.of_nat n <= numberOf h -> 0 <= budget ->
  exists r hc', ancestorLoop n (headerHash h) (numberOf h) budget hc = (Ok r, hc') /\ Reads U hc hc' /\ Answer hc h (Z.of_nat n) budget r.
Proof.
  induction n as [|n IH]; intros h budget hc head HI Hh Hn Hb; cbn [ancestorLoop].
  - eexists _, hc. split; [reflexivity|]. split; [by apply Reads_refl, (iv_good U _ _ HI)|]. left. exists h, budget. split; [done|]. split; [by constructor|lia].
  - pose proof (numberOf_u64 h) as Hu. fold (canonical hc (numberOf h)). destruct (Z.eqb_spec (canonical hc (numberOf h)) (headerHash h)) as [Ec|Hoff].
    + assert (Eu : u64 (numberOf h - Z.of_nat (S n)) = numberOf h - Z.of_nat (S n)) by (apply u64_small; unfold is_u64 in *; lia). rewrite Eu.
      eexists _, hc. split; [reflexivity|]. split; [by apply Reads_refl, (iv_good U _ _ HI)|]. left. pose proof (onChain_anc hc head h HI Hh Ec) as Hah.
      pose proof (Anc_le U _ _ _ Hah) as Hle. destruct (iv_below U _ _ HI (numberOf h - Z.of_nat (S n))) as (b & Hb' & Enb & Eb); [lia|].
      exists b, budget. unfold canonical in Eb. rewrite Eb, Enb. split; [done|]. split; [|done]. apply (Anc_linear U HU _ head); [done..|lia].
    + destruct (Z.eqb_spec budget 0) as [->|Hpos].
      { eexists _, hc. split; [reflexivity|]. split; [by apply Reads_refl, (iv_good U _ _ HI)|]. right. split; [done|]. split; [lia|]. intros a Ha Hle.
        assert (a = h) as ->; [|done]. apply (Anc_unique U HU (chainDb hc) h); [done|by constructor|]. pose proof (Anc_le U _ _ _ Ha). lia. }
      destruct (GetHeader_reads U HU hc (headerHash h) (numberOf h)) as (r & hc1 & E1 & HR & _ & Hr); [apply HI|apply (U_hash U HU), Hh|done|].
      rewrite (mbind_Ok _ _ _ _ _ E1), (Hr h) by done. destruct (stored_parent U (genesisHeader hc) (chainDb hc) (gd_store _ _ (iv_good U _ _ HI)) h Hh) as (p & Hp & Hpar); [lia|].
      pose proof Hpar as [Ep En]. pose proof (numberOf_u64 p) as Hup. assert (Eu : u64 (numberOf h - 1) = numberOf p) by (rewrite u64_small; unfold is_u64 in *; lia). rewrite Eu, Ep.
      destruct (IH p (budget - 1) hc1 head) as (r' & hc2 & E2 & HR2 & Ha); [by eapply Inv_reads|unfold stored; by rewrite (rd_db _ _ _ HR)|lia|lia|].
      exists r', hc2. split; [done|]. split; [by eapply Reads_trans|]. apply (Answer_parent hc h p); [done..|]. apply (Answer_reads hc hc1); [done|].
      by replace (Z.of_nat (S n) - 1) with (Z.of_nat n) by lia.
Qed.

Lemma GetAncestor_ok (hc : chain) head h k budget :
  Inv U hc head -> stored U hc h -> 0 <= k <= numberOf h -> 0 <= budget ->
  exists r hc', GetAncestor (headerHash h) (numberOf h) k budget hc = (Ok r, hc') /\ Reads U hc hc' /\ Answer hc h k budget r.
Proof.
  intros HI Hh Hk Hb. unfold GetAncestor. destruct (Z.gtb_spec k (numberOf h)); [lia|]. destruct (Z.eqb_spec k 1) as [->|Hne].
  - destruct (GetHeader_reads U HU hc (headerHash h) (numberOf h)) as (r & hc1 & E1 & HR & _ & Hr); [apply HI|apply (U_hash U HU), Hh|apply numberOf_u64|].
    rewrite (mbind_Ok _ _ _ _ _ E1), (Hr h) by done. eexists _, hc1. split; [reflexivity|]. split; [done|]. left.
    destruct (stored_parent U (genesisHeader hc) (chainDb hc) (gd_store _ _ (iv_good U _ _ HI)) h Hh) as (p & Hp & Hpar); [lia|]. pose proof Hpar as [Ep En].
    pose proof (numberOf_u64 p) as Hup. exists p, budget. rewrite Ep. split; [|split; [by apply A_parent|lia]]. do 2 f_equal. rewrite u64_small; unfold is_u64 in *; lia.
  - destruct (ancestorLoop_ok (Z.to_nat k) h budget hc head) as (r & hc' & E & HR & Ha); [done|done|lia|done|]. rewrite Z2Nat.id in Ha by lia. by exists r, hc'.
Qed.

(** *** A list of hashes *)

(** The hashes of the ancestors from the parent on. *)
Inductive Ancestry (db : chaindb.DB) : Header -> list Hash -> Prop :=
| Ancestry_nil h : Ancestry db h []
| Ancestry_cons h p l : StoredIn U db p -> Parent h p -> Ancestry db p l -> Ancestry db h (headerHash p :: l).

Lemma blockHashesLoop_ok n : forall h (hc : chain),
  Good U hc -> stored U hc h -> 0 < numberOf h ->
  exists l hc', blockHashesLoop n h hc = (Ok l, hc') /\ Reads U hc hc' /\ Ancestry (chainDb hc) h l /\ length l = Nat.min n (Z.to_nat (numberOf h)).
Proof.
  induction n as [|n IH]; intros h hc HG Hh Hpos; cbn [blockHashesLoop].
  { eexists _, hc. split; [reflexivity|]. split; [by apply Reads_refl|]. split; [constructor|done]. }
  rewrite (mbind_Ok _ _ _ (numberOf h) hc) by (unfold lift; by rewrite (stored_number U HU (chainDb hc))).
  destruct (stored_parent U (genesisHeader hc) (chainDb hc) (gd_store _ _ HG) h Hh Hpos) as (p & Hp & Hpar). pose proof Hpar as [Ep En].
  pose proof (numberOf_u64 p) as Hup. pose proof (numberOf_u64 h) as Huh.
  assert (Eu : u64 (numberOf h - 1) = numberOf p) by (rewrite u64_small; unfold is_u64 in *; lia). rewrite Eu, Ep.
  destruct (GetHeader_reads U HU hc (headerHash p) (numberOf p)) as (r & hc1 & E1 & HR & _ & Hr); [done|apply (U_hash U HU), Hp|done|].
  rewrite (mbind_Ok _ _ _ _ _ E1), (Hr p Hp eq_refl eq_refl). rewrite (mbind_Ok _ _ _ (numberOf p) hc1) by (unfold lift; by rewrite (un_exact U HU p (proj1 Hp))).
  destruct (Z.eqb_spec (numberOf p) 0) as [E0|Hne].
  - eexists _, hc1. split; [reflexivity|]. split; [done|]. split; [apply (Ancestry_cons _ _ p); [done|done|constructor]|]. cbn [length]. unfold is_u64 in *. lia.
  - assert (Hp1 : stored U hc1 p) by (unfold stored; by rewrite (rd_db _ _ _ HR)).
    destruct (IH p hc1) as (l & hc2 & E2 & HR2 & Hl & Hlen); [apply HR|done|unfold is_u64 in *; lia|]. rewrite (mbind_Ok _ _ _ _ _ E2). rewrite (rd_db _ _ _ HR) in Hl.
    eexists _, hc2. split; [reflexivity|]. split; [by eapply Reads_trans|]. split; [by apply (Ancestry_cons _ _ p)|]. cbn [length]. unfold is_u64 in *. lia.
Qed.

Lemma GetHeaderByHash_stored (hc : chain) h : Good U hc -> stored U hc h -> exists hc', GetHeaderByHash (headerHash h) hc = (Ok (Some h), hc') /\ Reads U hc hc'.
Proof.
  intros HG Hh. pose proof (U_hash U HU h (proj1 Hh)) as Hx. unfold GetHeaderByHash. destruct (GetBlockNumber_reads U hc (headerHash h) HG Hx) as (hc1 & E1 & HR1).
  rewrite (mbind_Ok _ _ _ _ _ E1), (sr_number U _ _ (gd_store _ _ HG) h Hh).
  destruct (GetHeader_reads U HU hc1 (headerHash h) (numberOf h)) as (r & hc2 & E2 & HR2 & _ & Hr); [apply HR1|done|apply numberOf_u64|].
  exists hc2. rewrite E2, (Hr h); [|unfold stored; by rewrite (rd_db _ _ _ HR1)|done|done]. split; [done|by eapply Reads_trans].
Qed.

Lemma GetBlockHashes_ok (hc : chain) h max :
  Good U hc -> stored U hc h -> 0 < numberOf h -> 0 <= max ->
  exists l hc', GetBlockHashesFromHash (headerHash h) max hc = (Ok l, hc') /\ Reads U hc hc' /\ Ancestry (chainDb hc) h l /\
    Z.of_nat (length l) = Z.min max (numberOf h).
Proof.
  intros HG Hh Hpos Hmax. destruct (GetHeaderByHash_stored hc h HG Hh) as (hc1 & E1 & HR1). unfold GetBlockHashesFromHash. rewrite (mbind_Ok _ _ _ _ _ E1).
  destruct (blockHashesLoop_ok (Z.to_nat max) h hc1) as (l & hc2 & E2 & HR2 & Hl & Hlen); [apply HR1|unfold stored; by rewrite (rd_db _ _ _ HR1)|done|].
  rewrite (rd_db _ _ _ HR1) in Hl. exists l, hc2. split; [done|]. split; [by eapply Reads_trans|]. split; [done|]. lia.
Qed.
End Queries.
