(* ===== verification/Processor.v ===== *)
(** * Package core: processing the transactions of a block

    The contexts of src/core/evm.go, [ApplyTransaction] and [Process] of
    src/core/state_processor.go, and the engine's [Finalize] with its block reward
    (src/consensus/clique/indigo.go).  What the processor asks of the consensus engine
    is the record [Engine]; [cliqueEngine] is the one of package clique. *)

From stdpp Require Import base numbers list gmap sets option.
From Stdlib Require Import ZArith Lia Strings.Byte.
From S2P Require Import Prelude Rlp Common Params Types CliqueSnapshot CliqueEngine VmCore VmGas VmOps VmPrecompiled VmInterp Transactions Transition State Receipts Blocks.

(** ** evm.go *)

(** The chain's headers by hash and number. *)
Definition headerReader : Type := Hash -> Z -> option Header.

Section Contexts.
Context {CR : Crypto}.

(** Back from the parent of [ref], as long as the chain has headers.  Their numbers go
    down from that of [ref], which bounds the rounds.  Stored headers have a number. *)
Fixpoint getHashLoop (fuel : nat) (chain : headerReader) (header : option Header) (n : Z) : Hash :=
  match fuel, header with
  | S fuel, Some h =>
      let number := bigUint64 (default 0 (hNumber h)) in
      if number =? n then headerHash h
      else getHashLoop fuel chain (chain (hParentHash h) (u64 (number - 1))) n
  | _, _ => 0
  end.
Definition GetHashFn (ref : Header) (chain : headerReader) (n : Z) : Hash :=
  let number := bigUint64 (default 0 (hNumber ref)) in
  getHashLoop (Z.to_nat number) chain (chain (hParentHash ref) (u64 (number - 1))) n.

(** [NewEVMContextLite]: origin and price are set later. *)
Definition NewEVMContextLite (header : Header) (chain : headerReader) (beneficiary : Address) : Context :=
  mkContext (GetHashFn header chain) 0 0 beneficiary (hGasLimit header) (default 0 (hNumber header))
    (default 0 (hTime header)) (default 0 (hDifficulty header)).
Definition NewEVMContext (msg : Message) (header : Header) (chain : headerReader) (beneficiary : Address) : Context :=
  mkContext (GetHashFn header chain) (msgFrom msg) (msgGasPrice msg) beneficiary (hGasLimit header)
    (default 0 (hNumber header)) (default 0 (hTime header)) (default 0 (hDifficulty header)).
End Contexts.

(** ** The engine *)

Record Engine (S : Type) := mkEngine {
  engAuthor : Header -> option Address;
  (** Without assembling a block; [None] is a panic. *)
  engFinalize : Header -> S -> option (Header * S)
}.
Arguments mkEngine {S}.
Arguments engAuthor {S}.
Arguments engFinalize {S}.

(** [vmenv.Reset] *)
Definition evmReset {S} (e : EVM S) : EVM S := evm_with_callGas (evm_with_depth e 0) 0.

Section Processor.
Context {CR : Crypto} {NC : NativeCrypto} {D T : Type} {DB : state.Database D T}.
Notation statedb := (state.StateDB D T).

(** ** indigo.go *)

Definition BlockReward : Z := 7 * 10 ^ 18.

Definition Finalize (config : ChainConfig) (header : Header) (s : statedb) : option (Header * statedb) :=
  let s := state.AddBalance (hCoinbase header) BlockReward s in
  '(root, s) ← state.IntermediateRoot (IsEIP158 config (hNumber header)) s;
  Some (mkHeader (hParentHash header) EmptyUncleHash (hCoinbase header) (hSigners header) (hVoters header) (hSigner header)
          root (hTxHash header) (hReceiptHash header) (hBloom header) (hDifficulty header) (hNumber header) (hGasLimit header)
          (hGasUsed header) (hTime header) (hExtra header) (hMixDigest header) (hNonce header), s).

Definition cliqueEngine `{SnapshotJSON} {DB' RC SC : Type} `{Database DB'} `{Cache RC Z CliqueSnapshot.Snapshot} `{Cache SC Z Z}
    (c : Clique DB' RC SC) (config : ChainConfig) : Engine statedb :=
  mkEngine (fun h => match fst (Author h c) with Ok a => Some a | _ => None end) (Finalize config).

(** ** state_processor.go *)

(** What the transactions of a block share. *)
Record Progress := mkProgress {
  pgEvm : EVM statedb;
  pgPool : Z;
  pgUsed : Z
}.

Definition withMessage (env : Env) (msg : Message) : Env :=
  let c := ctx env in
  mkEnv (mkContext (GetHash c) (msgFrom msg) (msgGasPrice msg) (Coinbase c) (GasLimit c) (BlockNumber c) (Time c) (Difficulty c))
    (chainConfig env) (vmConfig env).

(** The receipt of a transaction that has been applied and finalised. *)
Definition makeReceipt (root : list byte) (failed : bool) (cumulative gas : Z) (msg : Message) (tx : Transaction) (s : statedb)
    : option Receipt :=
  let r := NewReceipt root failed cumulative in
  let address := match msgTo msg with None => CreateAddress (msgFrom msg) (tdNonce (txData tx)) | Some _ => 0 end in
  let r := mkReceipt (rcPostState r) (rcStatus r) (rcCumulativeGasUsed r) (rcBloom r) (state.GetLogs (txHash tx) s) (txHash tx)
             address gas in
  bloom ← CreateBloom [r];
  Some (mkReceipt (rcPostState r) (rcStatus r) (rcCumulativeGasUsed r) bloom (rcLogs r) (rcTxHash r) (rcContractAddress r) gas).

Definition ApplyTransaction (env : Env) (fuel : nat) (header : Header) (tx : Transaction) (signer : Signer)
    : M Progress txErr (Receipt * Z) := fun p =>
  match fst (AsMessage signer tx) with
  | Err e => (Err e, p)
  | Panic => (Panic, p)
  | NoFuel => (NoFuel, p)
  | Ok msg =>
      let config := chainConfig env in
      let env := withMessage env msg in
      let '(r, st) := ApplyMessage env msg (loop env fuel) (evmReset (pgEvm p)) (pgPool p) in
      let p := mkProgress (stEvm st) (stGp st) (pgUsed p) in
      match r with
      | Err e => (Err e, p)
      | Panic => (Panic, p)
      | NoFuel => (NoFuel, p)
      | Ok (_, gas, failed) =>
          let s := eState (pgEvm p) in
          match (if IsByzantium config (hNumber header) then s ← state.Finalise true s; Some ([], s)
                 else '(h, s) ← state.IntermediateRoot (IsEIP158 config (hNumber header)) s; Some (HashBytes h, s)) with
          | None => (Panic, p)
          | Some (root, s) =>
              let used := u64 (pgUsed p + gas) in
              let p := mkProgress (evm_with_state (pgEvm p) s) (pgPool p) used in
              match makeReceipt root failed used gas msg tx s with
              | None => (Panic, p)
              | Some receipt => (Ok (receipt, gas), p)
              end
          end
      end
  end.

(** The transactions in their order, from index [i] on. *)
Fixpoint applyAll (env : Env) (fuel : nat) (header : Header) (blockHash : Hash) (signer : Signer) (i : Z)
    (txs : list Transaction) : M Progress txErr (list Receipt) :=
  match txs with
  | [] => ret []
  | tx :: txs =>
      let! _ := modify (fun p =>
        let e := pgEvm p in
        mkProgress (evm_with_state e (state.Prepare (txHash tx) blockHash i (eState e))) (pgPool p) (pgUsed p)) in
      let! (receipt, _) := ApplyTransaction env fuel header tx signer in
      let! receipts := applyAll env fuel header blockHash signer (i + 1) txs in
      ret (receipt :: receipts)
  end.

(** Receipts, logs, gas used and the state. *)
Definition Process (eng : Engine statedb) (config : ChainConfig) (chain : headerReader) (cfg : VmConfig) (fuel : nat)
    (block : Block) (s : statedb) : result txErr (list Receipt * list state.DerivedLog * Z * statedb) :=
  let header := CopyHeader (bHeader block) in
  let txs := bTransactions block in
  match AddGas (hGasLimit header) 0 with
  | None => Panic
  | Some gp =>
      let beneficiary := default 0 (engAuthor eng header) in
      let env := mkEnv (NewEVMContextLite header chain beneficiary) config cfg in
      let signer := MakeSigner config (hNumber header) in
      let '(r, p) := applyAll env fuel header (headerHash (bHeader block)) signer 0 txs (mkProgress (NewEVM s) gp 0) in
      let* receipts := r in
      match engFinalize eng header (eState (pgEvm p)) with
      | None => Panic
      | Some (_, s) => Ok (receipts, mjoin (rcLogs <$> receipts), pgUsed p, s)
      end
  end.

End Processor.
Arguments Progress D T : clear implicits.
