(* ===== verification/StateProofs.v ===== *)
(** * Package core/state: reverting

    The observable part of a state database, [abs], and what undoing a journal
    entry does to it.  Every operation appends to the journal what takes it back
    ([Step]); hence [RevertToSnapshot] restores everything that can be observed. *)

From stdpp Require Import base numbers list gmap sets option functions sorting.
From Stdlib Require Import ZArith Lia Strings.Byte.
From S2P Require Import Prelude Common Types VmCore State.

(** ** [sort.Search] *)

Lemma searchLoop_spec f k fuel : forall i j,
  (i <= k <= j)%nat -> (j - i <= fuel)%nat ->
  (forall n, (i <= n < k)%nat -> f n = false) -> (forall n, (k <= n < j)%nat -> f n = true) ->
  searchLoop fuel i j f = k.
Proof.
  induction fuel as [|fuel IH]; intros i j Hk Hf Hlo Hhi; cbn [searchLoop]; [lia|].
  destruct (Nat.ltb_spec i j) as [Hij|]; [|lia].
  assert (Hh : (i <= (i + j) / 2 < j)%nat).
  { split; [apply Nat.div_le_lower_bound; lia|apply Nat.Div0.div_lt_upper_bound; lia]. }
  destruct (f ((i + j) / 2)%nat) eqn:E.
  - apply IH; [|lia|intros n Hn; apply Hlo; lia|intros n Hn; apply Hhi; lia].
    split; [lia|]. destruct (decide (k <= (i + j) / 2)%nat); [done|].
    rewrite Hlo in E; [done|lia].
  - apply IH; [|lia|intros n Hn; apply Hlo; lia|intros n Hn; apply Hhi; lia].
    split; [|lia]. destruct (decide (k <= (i + j) / 2)%nat); [|lia].
    rewrite Hhi in E; [done|lia].
Qed.

Lemma search_spec n k f :
  (k <= n)%nat -> (forall i, (i < k)%nat -> f i = false) -> (forall i, (k <= i < n)%nat -> f i = true) ->
  search n f = k.
Proof. intros Hk Hlo Hhi. apply searchLoop_spec; [lia|lia|intros; apply Hlo; lia|done]. Qed.

Import state.

Section Proofs.
Context {CR : Crypto} {D T : Type} {DB : Database D T}.
Notation object := (stateObject T).
Notation statedb := (StateDB D T).
Notation entry := (journalEntry T).

(** ** What can be observed *)

Record View := mkView {
  vNonce : Z;
  vBalance : Z;
  vCodeHash : Hash;
  vCode : list byte;
  vSuicided : bool
}.

Definition objView (d : D) (a : Address) (o : object) : View :=
  mkView (Nonce (oData o)) (Balance (oData o)) (CodeHash (oData o))
    (default [] (fst (so_Code d a o))) (suicided o).

Record Obs := mkObs {
  acct : Address -> option View;
  stor : Address -> Hash -> Hash;
  oRefund : Z;
  oLogs : Hash -> list DerivedLog;
  oLogSize : Z;
  oPreimages : gmap Hash (list byte)
}.

Definition lookObj (a : Address) (s : statedb) : option object := fst (getStateObject a s).

Definition abs (s : statedb) : Obs :=
  mkObs (fun a => objView (db s) a <$> lookObj a s) (fun a k => GetState a k s)
    (refund s) (fun h => GetLogs h s) (logSize s) (preimages s).

(** Two observations are the same, pointwise. *)
Record ObsEq (x y : Obs) : Prop := {
  eq_acct : forall a, acct x a = acct y a;
  eq_stor : forall a k, stor x a k = stor y a k;
  eq_refund : oRefund x = oRefund y;
  eq_logs : forall h, oLogs x h = oLogs y h;
  eq_logSize : oLogSize x = oLogSize y;
  eq_preimages : oPreimages x = oPreimages y
}.

#[export] Instance ObsEq_equiv : Equivalence ObsEq.
Proof.
  split.
  - intros x. by split.
  - intros x y []. by split.
  - intros x y z [] []. split; intros; etrans; eauto.
Qed.

(** The object that reading from the trie makes. *)
Definition loadObject (t : T) (a : Address) : option object :=
  match TryGet t (AddressBytes a) with
  | None | Some [] => None
  | Some enc => (fun data => newObject data true) <$> decodeAccount enc
  end.

Lemma getStateObject_eq a s :
  getStateObject a s =
  match stateObjects s !! a with
  | Some o => (if deleted o then None else Some o, s)
  | None => match loadObject (trie s) a with
            | Some o => (Some o, setStateObject a o s)
            | None => (None, s)
            end
  end.
Proof.
  unfold getStateObject, loadObject. destruct (stateObjects s !! a); [done|].
  destruct (TryGet _ _) as [[|b enc]|]; try done. by destruct (decodeAccount _).
Qed.

Definition viewAt (d : D) (a : Address) (r : option object) : option View := objView d a <$> r.
Definition storAt (d : D) (a : Address) (r : option object) (k : Hash) : Hash :=
  match r with Some o => fst (so_GetState d a k o) | None => 0 end.

(** What undoing an entry does to the observations, in the database [d]. *)
Definition updV (a : Address) (f : View -> View) (x : Obs) : option Obs :=
  match acct x a with
  | Some v => Some (mkObs (<[a := Some (f v)]> (acct x)) (stor x) (oRefund x) (oLogs x) (oLogSize x)
                      (oPreimages x))
  | None => None
  end.
Definition setObj (d : D) (a : Address) (r : option object) (x : Obs) : Obs :=
  mkObs (<[a := viewAt d a r]> (acct x)) (<[a := storAt d a r]> (stor x)) (oRefund x) (oLogs x)
    (oLogSize x) (oPreimages x).
Definition codeIn (d : D) (a : Address) (hash : Hash) (code : option (list byte)) : list byte :=
  match code with
  | Some c => c
  | None => if hash =? emptyCodeHash then [] else default [] (ContractCode d (addrHash a) hash)
  end.

Definition undoObs (d : D) (ch : entry) (x : Obs) : option Obs :=
  match ch with
  | createObjectChange a => Some (setObj d a None x)
  | resetObjectChange a prev => Some (setObj d a (Some prev) x)
  | suicideChange a prev b =>
      Some (default x (updV a (fun v => mkView (vNonce v) b (vCodeHash v) (vCode v) prev) x))
  | touchChange a prev _ =>
      if negb prev && negb (a =? ripemd) then updV a (fun v => v) x else Some x
  | balanceChange a b => updV a (fun v => mkView (vNonce v) b (vCodeHash v) (vCode v) (vSuicided v)) x
  | nonceChange a n => updV a (fun v => mkView n (vBalance v) (vCodeHash v) (vCode v) (vSuicided v)) x
  | codeChange a c h =>
      updV a (fun v => mkView (vNonce v) (vBalance v) h (codeIn d a h c) (vSuicided v)) x
  | storageChange a k w =>
      if acct x a then
        Some (mkObs (acct x) (<[a := <[k := w]> (stor x a)]> (stor x)) (oRefund x) (oLogs x)
                (oLogSize x) (oPreimages x))
      else None
  | refundChange prev => Some (mkObs (acct x) (stor x) prev (oLogs x) (oLogSize x) (oPreimages x))
  | addLogChange h =>
      match oLogs x h with
      | [] => None
      | l => Some (mkObs (acct x) (stor x) (oRefund x) (<[h := removelast l]> (oLogs x)) (oLogSize x - 1)
                     (oPreimages x))
      end
  | addPreimageChange h =>
      Some (mkObs (acct x) (stor x) (oRefund x) (oLogs x) (oLogSize x) (delete h (oPreimages x)))
  end.

(** ** Objects and their observations *)

Lemma lookObj_eq a s :
  lookObj a s = match stateObjects s !! a with
                | Some o => if deleted o then None else Some o
                | None => loadObject (trie s) a
                end.
Proof.
  unfold lookObj. rewrite getStateObject_eq. destruct (stateObjects s !! a); [done|].
  by destruct (loadObject _ _).
Qed.

Lemma loadObject_live t a o : loadObject t a = Some o -> deleted o = false.
Proof.
  unfold loadObject. destruct (TryGet _ _) as [[|b enc]|]; try done.
  destruct (decodeAccount _); [|done]. by intros [= <-].
Qed.

Lemma lookObj_live a s o : lookObj a s = Some o -> deleted o = false.
Proof.
  rewrite lookObj_eq. destruct (stateObjects s !! a) as [o'|]; [|apply loadObject_live].
  destruct (deleted o') eqn:E; [done|]. by intros [= <-].
Qed.

Lemma GetState_eq a k s : GetState a k s = storAt (db s) a (lookObj a s) k.
Proof. done. Qed.

(** The values that the object's methods return. *)
Definition trieOf (d : D) (a : Address) (o : object) : T :=
  match oTrie o with
  | Some t => t
  | None => default EmptyTrie (OpenStorageTrie d (addrHash a) (Root (oData o)))
  end.
Definition valueIn (t : T) (k : Hash) : Hash :=
  match TryGet t (HashBytes k) with
  | Some (b :: enc) => match rlpSplit (b :: enc) with Some content => BytesToHash content | None => 0 end
  | _ => 0
  end.
Definition storVal (d : D) (a : Address) (k : Hash) (o : object) : Hash :=
  match cachedStorage o !! k with Some v => v | None => valueIn (trieOf d a o) k end.

Lemma so_GetState_val d a k o : fst (so_GetState d a k o) = storVal d a k o.
Proof.
  unfold so_GetState, storVal, getTrie, trieOf, valueIn. destruct (cachedStorage o !! k); [done|].
  destruct (oTrie o) as [t|]; [|destruct (OpenStorageTrie _ _ _) as [t|]]; cbn;
    destruct (TryGet _ _) as [[|b enc]|]; try done; by destruct (rlpSplit _).
Qed.

Lemma so_Code_val d a o :
  default [] (fst (so_Code d a o)) = codeIn d a (CodeHash (oData o)) (oCode o).
Proof.
  unfold so_Code, codeIn. destruct (oCode o); [done|]. destruct (_ =? _); [done|].
  by destruct (ContractCode _ _ _).
Qed.

(** Objects that look the same. *)
Definition sameObj (d : D) (a : Address) (o1 o2 : object) : Prop :=
  objView d a o1 = objView d a o2 /\
  forall k, fst (so_GetState d a k o1) = fst (so_GetState d a k o2).

Lemma lookObj_set a b o s :
  deleted o = false -> lookObj b (setStateObject a o s) = if decide (b = a) then Some o else lookObj b s.
Proof.
  intros Ho. rewrite !lookObj_eq. cbn. destruct (decide (b = a)) as [->|].
  - rewrite lookup_insert_eq. by rewrite Ho.
  - by rewrite lookup_insert_ne.
Qed.

(** Only some fields are observed. *)
Lemma abs_ext s1 s2 :
  stateObjects s1 = stateObjects s2 -> trie s1 = trie s2 -> db s1 = db s2 ->
  refund s1 = refund s2 -> logs s1 = logs s2 -> logSize s1 = logSize s2 ->
  preimages s1 = preimages s2 -> ObsEq (abs s1) (abs s2).
Proof.
  intros Eo Et Ed Er El Els Ep.
  assert (H : forall a, lookObj a s1 = lookObj a s2) by (intros a; by rewrite !lookObj_eq, Eo, Et).
  split; cbn; try done; intros; rewrite ?GetState_eq, ?Ed, ?H; unfold GetLogs; by rewrite ?El.
Qed.

Lemma abs_set a o s :
  deleted o = false -> ObsEq (abs (setStateObject a o s)) (setObj (db s) a (Some o) (abs s)).
Proof.
  intros Ho. split; try done; [intros b|intros b k; cbn; rewrite !GetState_eq];
    cbn; rewrite lookObj_set by done; unfold insert, fn_insert; repeat case_decide; by simplify_eq.
Qed.

Lemma setObj_same d a o1 o2 x :
  sameObj d a o1 o2 -> ObsEq (setObj d a (Some o1) x) (setObj d a (Some o2) x).
Proof.
  intros [Hv Hs]. split; try done; [intros b|intros b k]; cbn; unfold insert, fn_insert;
    case_decide; try done; cbn; congruence.
Qed.

#[export] Instance setObj_proper d a r : Proper (ObsEq ==> ObsEq) (setObj d a r).
Proof.
  intros x y []. split; cbn; try done; intros; unfold insert, fn_insert; by case_decide.
Qed.

(** Putting back an object that looks the same changes nothing. *)
Lemma setObj_id s a o1 o2 :
  lookObj a s = Some o1 -> sameObj (db s) a o1 o2 -> ObsEq (setObj (db s) a (Some o2) (abs s)) (abs s).
Proof.
  intros H [Hv Hs]. split; try done; [intros b|intros b k]; cbn; unfold insert, fn_insert;
    case_decide; try done; subst b; rewrite ?GetState_eq, H; cbn; [by rewrite Hv|by rewrite Hs].
Qed.

(** Reading leaves behind a state that looks the same. *)
Lemma getStateObject_spec a s r s' :
  getStateObject a s = (r, s') ->
  r = lookObj a s /\ lookObj a s' = r /\ ObsEq (abs s') (abs s) /\
  journal s' = journal s /\ trie s' = trie s /\ db s' = db s /\
  (forall o, r = Some o -> stateObjects s' !! a = Some o) /\
  (forall b, b <> a -> stateObjects s' !! b = stateObjects s !! b).
Proof.
  intros E. assert (Er : r = lookObj a s) by (unfold lookObj; by rewrite E).
  rewrite getStateObject_eq in E. pose proof (lookObj_eq a s) as El.
  destruct (stateObjects s !! a) as [o|] eqn:Eo.
  - injection E as E1 <-. split_and!; try done.
    intros o' ->. destruct (deleted o); [done|]. by injection E1 as ->.
  - destruct (loadObject (trie s) a) as [o|] eqn:Eload; injection E as E1 <-;
      [|split_and!; try done; congruence].
    pose proof (loadObject_live _ _ _ Eload) as Hl. split_and!; try done.
    + rewrite lookObj_set by done. by rewrite decide_True.
    + etrans; [by apply abs_set|]. by eapply setObj_id.
    + intros o' <-. rewrite <- E1 in *. cbn. by rewrite lookup_insert_eq.
    + intros b Hb. cbn. by rewrite lookup_insert_ne.
Qed.


Lemma putDirty_abs a o s :
  deleted o = false -> ObsEq (abs (putDirty a o s)) (setObj (db s) a (Some o) (abs s)).
Proof.
  intros Ho. unfold putDirty, fireDirty. destruct (onDirty o); [|by apply abs_set].
  etrans; [by apply abs_set|]. cbn.
  etrans; [apply (setObj_same _ _ _ o)|by apply setObj_proper, abs_ext].
  split; [|intros k; by rewrite !so_GetState_val]. unfold objView. by rewrite !so_Code_val.
Qed.

(** ** Undoing *)

(** What an entry takes for granted about the account trie. *)
Definition entryOk (t : T) (ch : entry) : Prop :=
  match ch with
  | createObjectChange a => loadObject t a = None
  | resetObjectChange a prev => deleted prev = false
  | _ => True
  end.

(** The fields that an undo leaves alone. *)
Record Frame (s s' : statedb) : Prop := {
  fr_db : db s' = db s;
  fr_trie : trie s' = trie s;
  fr_journal : journal s' = journal s;
  fr_revisions : validRevisions s' = validRevisions s;
  fr_next : nextRevisionId s' = nextRevisionId s;
  fr_thash : thash s' = thash s;
  fr_bhash : bhash s' = bhash s;
  fr_txIndex : txIndex s' = txIndex s
}.

#[export] Instance Frame_preorder : PreOrder Frame.
Proof.
  split; [by intros s; split|]. intros x y z [] []. split; etrans; eauto.
Qed.

Lemma getStateObject_frame a s : Frame s (snd (getStateObject a s)).
Proof.
  rewrite getStateObject_eq. destruct (stateObjects s !! a); [by split|].
  by destruct (loadObject _ _).
Qed.

Lemma putDirty_frame a o s : Frame s (putDirty a o s).
Proof. unfold putDirty, fireDirty. by destruct (onDirty o). Qed.

Lemma updV_setObj a f o o' s :
  lookObj a s = Some o -> objView (db s) a o' = f (objView (db s) a o) ->
  (forall k, storVal (db s) a k o' = storVal (db s) a k o) ->
  exists x, updV a f (abs s) = Some x /\ ObsEq (setObj (db s) a (Some o') (abs s)) x.
Proof.
  intros H Hv Hs. unfold updV. cbn [acct abs]. rewrite H. cbn [fmap option_fmap option_map].
  eexists. split; [done|]. split; try done; [intros b|intros b k]; cbn; unfold insert, fn_insert;
    case_decide; try done; subst; cbn; [by rewrite Hv|].
  rewrite GetState_eq, H. cbn. by rewrite !so_GetState_val.
Qed.

Lemma onObject_obs a g s :
  (forall o, deleted (g o) = deleted o) ->
  match onObject a (fun o => putDirty a (g o)) s with
  | Some s' => Frame s s' /\ exists o, lookObj a s = Some o /\
                 ObsEq (abs s') (setObj (db s) a (Some (g o)) (abs s))
  | None => lookObj a s = None
  end.
Proof.
  intros Hg. unfold onObject. destruct (getStateObject a s) as [r s1] eqn:E.
  pose proof (getStateObject_frame a s) as Hf. rewrite E in Hf. cbn in Hf.
  apply getStateObject_spec in E as (-> & Hl & Habs & _ & _ & Hd & _).
  destruct (lookObj a s) as [o|] eqn:El; [|done]. split; [etrans; [done|apply putDirty_frame]|].
  exists o. split; [done|]. etrans; [apply putDirty_abs; rewrite Hg; by eapply lookObj_live|].
  rewrite Hd. by apply setObj_proper.
Qed.

(** A setter's undo in one step: the object [g o], seen as [f] of the view. *)
Lemma onObject_updV a g f s :
  (forall o, deleted (g o) = deleted o) ->
  (forall o, objView (db s) a (g o) = f (objView (db s) a o)) ->
  (forall o k, storVal (db s) a k (g o) = storVal (db s) a k o) ->
  match onObject a (fun o => putDirty a (g o)) s with
  | Some s' => Frame s s' /\ exists x, updV a f (abs s) = Some x /\ ObsEq (abs s') x
  | None => updV a f (abs s) = None
  end.
Proof.
  intros Hg Hv Hs. pose proof (onObject_obs a g s Hg) as H.
  destruct (onObject _ _ _) as [s'|].
  - destruct H as (Hf & o & Ho & Habs). split; [done|].
    destruct (updV_setObj a f o (g o) s) as (x & E & Hx); [done..|].
    exists x. split; [done|]. by etrans.
  - unfold updV. cbn [acct abs]. by rewrite H.
Qed.

Definition UndoOk (ch : entry) (s : statedb) : Prop :=
  match undo ch s with
  | Some s' => Frame s s' /\ exists x, undoObs (db s) ch (abs s) = Some x /\ ObsEq (abs s') x
  | None => undoObs (db s) ch (abs s) = None
  end.

Lemma undo_setters a s b n c h :
  UndoOk (balanceChange a b) s /\ UndoOk (nonceChange a n) s /\ UndoOk (codeChange a c h) s.
Proof.
  split_and!; unfold UndoOk; cbn [undo undoObs]; unfold so_setBalance, so_setNonce, so_setCode;
    apply onObject_updV; try done; intros o; unfold objView; by rewrite ?so_Code_val.
Qed.

Lemma undo_storage a k w s : UndoOk (storageChange a k w) s.
Proof.
  unfold UndoOk. cbn [undo undoObs]. unfold so_setState.
  match goal with |- context [onObject a (fun o => putDirty a (@?g o)) s] =>
    pose proof (onObject_obs a g s (fun _ => eq_refl)) as H end.
  cbn [acct abs]. destruct (onObject _ _ _) as [s'|]; [|by rewrite H].
  destruct H as (Hf & o & Ho & Habs). split; [done|]. rewrite Ho. eexists. split; [done|].
  etrans; [exact Habs|]. split; try done; [intros b|intros b k']; cbn;
    destruct (decide (b = a)) as [->|Hb]; rewrite ?fn_lookup_insert, ?fn_lookup_insert_ne by done; try done.
  - rewrite Ho. cbn. unfold objView. by rewrite !so_Code_val.
  - cbn. rewrite so_GetState_val. unfold storVal. cbn [cachedStorage o_with_cachedStorage o_with_dirtyStorage].
    destruct (decide (k' = k)) as [->|Hk]; [by rewrite fn_lookup_insert, lookup_insert_eq|].
    rewrite fn_lookup_insert_ne, lookup_insert_ne by done.
    rewrite GetState_eq, Ho. cbn. by rewrite so_GetState_val.
Qed.

Lemma undo_suicide a p b s : UndoOk (suicideChange a p b) s.
Proof.
  unfold UndoOk. cbn [undo undoObs].
  pose proof (onObject_updV a
    (fun o => o_with_oData (a_with_Balance b (oData o)) (o_with_suicided p o))
    (fun v => mkView (vNonce v) b (vCodeHash v) (vCode v) p) s) as H.
  unfold onObject in H. destruct (getStateObject a s) as [[o|] s1] eqn:E.
  - destruct H as (Hf & x & Ex & Hx); [done|..]; try done.
    { intros o'. unfold objView. by rewrite !so_Code_val. }
    split; [done|]. exists x. by rewrite Ex.
  - pose proof (getStateObject_frame a s) as Hf. rewrite E in Hf. cbn in Hf. split; [done|].
    apply getStateObject_spec in E as (Hl & _ & Habs & _). exists (abs s). split; [|done].
    unfold updV. cbn [acct abs]. by rewrite <- Hl.
Qed.

Lemma undo_touch a p pd s : UndoOk (touchChange a p pd) s.
Proof.
  unfold UndoOk. cbn [undo undoObs]. destruct (_ && _).
  2: { split; [done|]. by exists (abs s). }
  unfold onObject. destruct (getStateObject a s) as [r s1] eqn:E.
  pose proof (getStateObject_frame a s) as Hf. rewrite E in Hf. cbn in Hf.
  apply getStateObject_spec in E as (-> & Hl & Habs & _ & _ & Hd & _).
  destruct (lookObj a s) as [o|] eqn:El; [|unfold updV; cbn [acct abs]; by rewrite El].
  destruct (updV_setObj a (fun v => v) o (o_with_touched p o) s) as (x & Ex & Hx); try done.
  { unfold objView. by rewrite !so_Code_val. }
  assert (Hset : ObsEq (abs (setStateObject a (o_with_touched p o) s1)) x).
  { etrans; [apply abs_set, (lookObj_live a s o El)|]. etrans; [|exact Hx]. rewrite Hd.
    by apply setObj_proper. }
  split; [etrans; [exact Hf|by destruct pd]|]. exists x. split; [done|].
  destruct pd; [done|]. etrans; [|exact Hset]. by apply abs_ext.
Qed.

Lemma undo_object ch s :
  entryOk (trie s) ch ->
  match ch with createObjectChange _ | resetObjectChange _ _ => UndoOk ch s | _ => True end.
Proof.
  destruct ch as [a|a prev| | | | | | | | |]; try done; cbn; intros H; unfold UndoOk;
    cbn [undo undoObs]; (split; [done|]); eexists; (split; [done|]); [|by apply abs_set].
  assert (Hl : forall b, lookObj b (with_stateObjectsDirty (stateObjectsDirty s ∖ {[a]})
      (with_stateObjects (delete a (stateObjects s)) s)) = if decide (b = a) then None else lookObj b s).
  { intros b. rewrite !lookObj_eq. cbn. destruct (decide (b = a)) as [->|].
    - by rewrite lookup_delete_eq.
    - by rewrite lookup_delete_ne. }
  split; try done; [intros b|intros b k; cbn; rewrite !GetState_eq]; cbn; rewrite Hl;
    unfold insert, fn_insert; repeat case_decide; by simplify_eq.
Qed.

Lemma undo_rest ch s :
  match ch with
  | refundChange _ | addLogChange _ | addPreimageChange _ => UndoOk ch s | _ => True end.
Proof.
  destruct ch as [| | | | | | |p|h|h|]; try done; unfold UndoOk; cbn [undo undoObs oLogs abs].
  - split; [done|]. eexists. split; [done|]. split; try done; intros; cbn; by rewrite ?GetState_eq, ?lookObj_eq.
  - unfold GetLogs. destruct (default [] (logs s !! h)) as [|l [|l' ls]] eqn:El; [done|..];
      (split; [done|]); eexists; (split; [done|]);
      (split; try done; [intros a|intros a k|intros h']; cbn; rewrite ?GetState_eq, ?lookObj_eq; try done);
      unfold GetLogs; cbn; (destruct (decide (h' = h)) as [->|];
        [rewrite fn_lookup_insert|rewrite fn_lookup_insert_ne by done]).
    + by rewrite lookup_delete_eq.
    + by rewrite lookup_delete_ne.
    + by rewrite lookup_insert_eq.
    + by rewrite lookup_insert_ne.
  - split; [done|]. eexists. split; [done|]. split; try done; intros; cbn; by rewrite ?GetState_eq, ?lookObj_eq.
Qed.

Lemma undo_obs ch s : entryOk (trie s) ch -> UndoOk ch s.
Proof.
  intros H. destruct ch.
  - by apply (undo_object (createObjectChange _) s).
  - by apply (undo_object (resetObjectChange _ _) s).
  - apply undo_suicide.
  - by apply (undo_setters _ _ _ 0 None 0).
  - by apply (undo_setters _ _ 0 _ None 0).
  - apply undo_storage.
  - by apply (undo_setters _ _ 0 0).
  - apply (undo_rest (refundChange _)).
  - apply (undo_rest (addLogChange _)).
  - apply (undo_rest (addPreimageChange _)).
  - apply undo_touch.
Qed.

(** ** Undoing a stretch of the journal *)

Definition undoAllObs (d : D) (js : list entry) (x : Obs) : option Obs :=
  foldr (fun ch r => r ≫= undoObs d ch) (Some x) js.

Lemma updV_proper a f x y :
  ObsEq x y -> option_Forall2 ObsEq (updV a f x) (updV a f y).
Proof.
  intros []. unfold updV. rewrite eq_acct0. destruct (acct y a); constructor. split; cbn; try done.
  intros b. unfold insert, fn_insert. by case_decide.
Qed.

Lemma undoObs_proper d ch x y :
  ObsEq x y -> option_Forall2 ObsEq (undoObs d ch x) (undoObs d ch y).
Proof.
  intros H. destruct ch; cbn [undoObs]; try (by apply updV_proper).
  - constructor. by apply setObj_proper.
  - constructor. by apply setObj_proper.
  - constructor. destruct (updV_proper account (fun v => mkView (vNonce v) prevbalance (vCodeHash v)
      (vCode v) prev) x y H); done.
  - destruct H. rewrite eq_acct0. destruct (acct y account); constructor. split; cbn; try done.
    intros b k. unfold insert, fn_insert. repeat case_decide; done.
  - constructor. destruct H. by split.
  - destruct H. rewrite eq_logs0. destruct (oLogs y txhash) as [|l ls]; constructor;
      split; cbn; try done; [|by rewrite eq_logSize0].
    intros h. unfold insert, fn_insert. by case_decide.
  - constructor. destruct H. split; cbn; try done. by rewrite eq_preimages0.
  - destruct (_ && _); [by apply updV_proper|by constructor].
Qed.

Lemma undoAllObs_proper d js x y :
  ObsEq x y -> option_Forall2 ObsEq (undoAllObs d js x) (undoAllObs d js y).
Proof.
  intros H. induction js as [|ch js IH]; cbn; [by constructor|].
  fold (undoAllObs d js x) (undoAllObs d js y). destruct IH; [by apply undoObs_proper|constructor].
Qed.

Lemma undoAllObs_app d js1 js2 x :
  undoAllObs d (js1 ++ js2) x = undoAllObs d js2 x ≫= undoAllObs d js1.
Proof.
  unfold undoAllObs. rewrite foldr_app. set (r := foldr _ _ js2).
  destruct r as [y|]; [done|]. cbn. induction js1 as [|ch js1 IH]; cbn; [done|]. by rewrite IH.
Qed.

Lemma undoAll_obs js s :
  Forall (entryOk (trie s)) js ->
  match undoAll js s with
  | Some s' => Frame s s' /\ exists x, undoAllObs (db s) js (abs s) = Some x /\ ObsEq (abs s') x
  | None => undoAllObs (db s) js (abs s) = None
  end.
Proof.
  induction js as [|ch js IH]; intros Hok; cbn.
  { split; [done|]. by exists (abs s). }
  apply Forall_cons in Hok as [Hch Hjs]. specialize (IH Hjs).
  fold (undoAll js s) (undoAllObs (db s) js (abs s)).
  destruct (undoAll js s) as [s1|]; [|by rewrite IH].
  destruct IH as (Hf & x & Ex & Hx). rewrite Ex. cbn.
  assert (Hok1 : entryOk (trie s1) ch) by (by rewrite (fr_trie _ _ Hf)).
  pose proof (undo_obs ch s1 Hok1) as Hu. unfold UndoOk in Hu.
  rewrite (fr_db _ _ Hf) in Hu. pose proof (undoObs_proper (db s) ch _ _ Hx) as Hp.
  destruct (undo ch s1) as [s2|].
  - destruct Hu as (Hf2 & y & Ey & Hy). rewrite Ey in Hp. inversion Hp as [? z Hz Hyz Ez|].
    split; [by etrans|]. exists z. split; [done|]. by etrans.
  - rewrite Hu in Hp. by inversion Hp.
Qed.

(** ** Operations *)

(** An object marked deleted is no longer in the trie. *)
Definition DeletedOk (s : statedb) : Prop :=
  forall a o, stateObjects s !! a = Some o -> deleted o = true -> loadObject (trie s) a = None.

(** From [s] to [s'] by changes that the journal of [s'] takes back. *)
Record Step (s s' : statedb) : Prop := {
  step_journal : exists js, journal s' = journal s ++ js /\ Forall (entryOk (trie s)) js /\
    exists x, undoAllObs (db s) js (abs s') = Some x /\ ObsEq x (abs s);
  step_db : db s' = db s;
  step_trie : trie s' = trie s;
  step_revisions : validRevisions s' = validRevisions s;
  step_next : nextRevisionId s' = nextRevisionId s;
  step_thash : thash s' = thash s;
  step_deleted : DeletedOk s'
}.

Lemma Step_refl s : DeletedOk s -> Step s s.
Proof. intros H. split; try done. exists []. rewrite app_nil_r. split_and!; [done|done|]. by exists (abs s). Qed.

Lemma Step_trans s1 s2 s3 : Step s1 s2 -> Step s2 s3 -> Step s1 s3.
Proof.
  intros [(js1 & Ej1 & Ok1 & x1 & Ex1 & Hx1) Ed1 Et1 Er1 En1 Eh1 _]
    [(js2 & Ej2 & Ok2 & x2 & Ex2 & Hx2) Ed2 Et2 Er2 En2 Eh2 Hd]. split; try congruence; [|done].
  exists (js1 ++ js2). split_and!; [by rewrite Ej2, Ej1, app_assoc|by apply Forall_app; rewrite <- Et1 at 2|].
  rewrite undoAllObs_app, <- Ed1, Ex2. cbn. rewrite Ed1.
  pose proof (undoAllObs_proper (db s1) js1 _ _ Hx2) as Hp. rewrite Ex1 in Hp.
  inversion Hp as [y ? Hy Ey|]; subst. exists y. split; [done|]. by etrans.
Qed.

(** The fields that an operation on an object may not change. *)
Record OpFrame (s s' : statedb) : Prop := {
  of_db : db s' = db s;
  of_trie : trie s' = trie s;
  of_revisions : validRevisions s' = validRevisions s;
  of_next : nextRevisionId s' = nextRevisionId s;
  of_thash : thash s' = thash s
}.

Lemma DeletedOk_set a o s : DeletedOk s -> deleted o = false -> DeletedOk (setStateObject a o s).
Proof.
  intros H Ho b o'. cbn. destruct (decide (b = a)) as [->|].
  - rewrite lookup_insert_eq. intros [= <-]. congruence.
  - rewrite lookup_insert_ne by done. apply H.
Qed.

Lemma DeletedOk_put a o s : DeletedOk s -> deleted o = false -> DeletedOk (putDirty a o s).
Proof.
  intros H Ho. unfold putDirty, fireDirty. destruct (onDirty o); by apply DeletedOk_set.
Qed.

Lemma Step_set s s' a o ch x :
  OpFrame s s' -> DeletedOk s' -> journal s' = journal s ++ [ch] ->
  ObsEq (abs s') (setObj (db s) a (Some o) (abs s)) -> entryOk (trie s) ch ->
  undoObs (db s) ch (setObj (db s) a (Some o) (abs s)) = Some x -> ObsEq x (abs s) -> Step s s'.
Proof.
  intros [] Hd Ej Habs Hok Ex Hx. split; try done. exists [ch]. split_and!; [done|by repeat constructor|].
  pose proof (undoObs_proper (db s) ch _ _ Habs) as Hp. rewrite Ex in Hp.
  inversion Hp as [y ? Hy Ey|]; subst. cbn. exists y. split; [done|]. by etrans.
Qed.

Lemma Step_put s a o ch x :
  DeletedOk s -> deleted o = false -> entryOk (trie s) ch ->
  undoObs (db s) ch (setObj (db s) a (Some o) (abs s)) = Some x -> ObsEq x (abs s) ->
  Step s (putDirty a o (append ch s)).
Proof.
  intros Hd Ho Hok Ex Hx. eapply (Step_set _ _ a o ch); try done.
  - unfold putDirty, fireDirty. by destruct (onDirty o).
  - by apply DeletedOk_put.
  - unfold putDirty, fireDirty. by destruct (onDirty o).
  - etrans; [by apply putDirty_abs|]. cbn [db append with_journal].
    apply setObj_proper. by apply abs_ext.
Qed.

Lemma Step_cache a s r s' : getStateObject a s = (r, s') -> DeletedOk s -> Step s s'.
Proof.
  intros E Hd. pose proof (getStateObject_frame a s) as Hf. rewrite E in Hf. cbn in Hf.
  apply getStateObject_spec in E as (Er & _ & Habs & Ej & Et & Ed & Hin & Hout).
  destruct Hf. split; try done.
  - exists []. rewrite app_nil_r. split_and!; [done|done|]. by exists (abs s').
  - intros b o Hb Hdel. rewrite Et. destruct (decide (b = a)) as [->|Hne]; [|by eapply Hd; rewrite <- ?Hout].
    destruct (stateObjects s !! a) as [o1|] eqn:Eo; rewrite lookObj_eq, Eo in Er.
    + destruct (deleted o1) eqn:E1; [by eapply Hd|]. rewrite (Hin o1 Er) in Hb. congruence.
    + by destruct (loadObject (trie s) a) as [o1|] eqn:El; [|done]; rewrite (Hin o1 Er) in Hb;
        simplify_eq; rewrite (loadObject_live _ _ _ El) in Hdel.
Qed.

(** A setter's entry takes the setter back. *)
Lemma updV_undo a f o o' s :
  lookObj a s = Some o -> f (objView (db s) a o') = objView (db s) a o ->
  (forall k, storVal (db s) a k o' = storVal (db s) a k o) ->
  exists x, updV a f (setObj (db s) a (Some o') (abs s)) = Some x /\ ObsEq x (abs s).
Proof.
  intros H Hv Hs. unfold updV. cbn [acct setObj]. rewrite fn_lookup_insert. cbn. eexists.
  split; [done|]. split; try done; [intros b|intros b k]; cbn;
    (destruct (decide (b = a)) as [->|Hb]; rewrite ?fn_lookup_insert, ?fn_lookup_insert_ne by done; [|done]).
  - by rewrite Hv, H.
  - rewrite GetState_eq, H. cbn. by rewrite !so_GetState_val.
Qed.

Lemma Step_setter a f o o' ch s :
  DeletedOk s -> lookObj a s = Some o -> deleted o' = false ->
  (forall x, undoObs (db s) ch x = updV a f x) -> entryOk (trie s) ch ->
  f (objView (db s) a o') = objView (db s) a o ->
  (forall k, storVal (db s) a k o' = storVal (db s) a k o) ->
  Step s (putDirty a o' (append ch s)).
Proof.
  intros Hd Hl Ho Hu Hok Hv Hs. destruct (updV_undo a f o o' s) as (x & Ex & Hx); [done..|].
  eapply Step_put; try done. by rewrite Hu.
Qed.

(** *** Setters on an object *)

Section Setters.
Context (a : Address) (o : object) (s : statedb).
Context (Hd : DeletedOk s) (Hl : lookObj a s = Some o).

Let Hlive : deleted o = false := lookObj_live a s o Hl.

Ltac viewEq := unfold objView; rewrite ?so_Code_val; by destruct o as [[]].

Lemma Step_SetBalance b : Step s (so_SetBalance a b o s).
Proof.
  eapply (Step_setter a (fun v => mkView (vNonce v) (Balance (oData o)) (vCodeHash v) (vCode v) (vSuicided v)) o);
    try done. viewEq.
Qed.

Lemma Step_SetNonce n : Step s (so_SetNonce a n o s).
Proof.
  eapply (Step_setter a (fun v => mkView (Nonce (oData o)) (vBalance v) (vCodeHash v) (vCode v) (vSuicided v)) o);
    try done. viewEq.
Qed.

Lemma Step_touch : Step s (so_touch a o s).
Proof.
  unfold so_touch. destruct (negb (touched o) && negb (a =? ripemd)) eqn:E.
  - eapply (Step_setter a (fun v => v) o); try done; [|viewEq].
    intros x. cbn [undoObs]. by rewrite E.
  - eapply (Step_put s a _ _ (setObj (db s) a (Some (o_with_touched true o)) (abs s))); try done.
    { cbn [undoObs]. by rewrite E. }
    apply (setObj_id s a o); [done|]. split; [viewEq|]. intros k. by rewrite !so_GetState_val.
Qed.

Lemma Step_AddBalance b : Step s (so_AddBalance a b o s).
Proof.
  unfold so_AddBalance. destruct (b =? 0); [|apply Step_SetBalance].
  destruct (empty o); [apply Step_touch|by apply Step_refl].
Qed.

Lemma Step_SubBalance b : Step s (so_SubBalance a b o s).
Proof.
  unfold so_SubBalance. destruct (b =? 0); [by apply Step_refl|apply Step_SetBalance].
Qed.

Lemma so_Code_cases :
  snd (so_Code (db s) a o) = o \/ (exists c, snd (so_Code (db s) a o) = o_with_oCode (Some c) o) \/
  snd (so_Code (db s) a o) = setError true o.
Proof.
  unfold so_Code. destruct (oCode o); [by left|]. destruct (_ =? _); [by left|].
  destruct (ContractCode _ _ _); [right; left; by eexists|by do 2 right].
Qed.

Lemma Step_SetCode h c : Step s (so_SetCode a h c o s).
Proof.
  unfold so_SetCode. destruct (so_Code (db s) a o) as [prev o'] eqn:E.
  pose proof so_Code_cases as Ho'. rewrite E in Ho'. cbn in Ho'.
  assert (Hdata : oData o' = oData o) by (destruct Ho' as [->|[[? ->]| ->]]; done).
  eapply (Step_setter a (fun v => mkView (vNonce v) (vBalance v) (CodeHash (oData o))
            (codeIn (db s) a (CodeHash (oData o)) prev) (vSuicided v)) o); try done.
  - destruct Ho' as [->|[[? ->]| ->]]; done.
  - intros x. cbn [undoObs]. by rewrite Hdata.
  - unfold objView. rewrite so_Code_val. cbn. rewrite Hdata. f_equal.
    + replace prev with (fst (so_Code (db s) a o)) by (by rewrite E).
      unfold so_Code, codeIn. destruct (oCode o); [done|].
      destruct (_ =? _); [done|]. by destruct (ContractCode _ _ _).
    + destruct Ho' as [->|[[? ->]| ->]]; done.
  - intros k. unfold storVal, trieOf. cbn. destruct Ho' as [->|[[? ->]| ->]]; done.
Qed.

(** Reading a slot keeps the object's looks. *)
Lemma so_GetState_snd k :
  let o' := snd (so_GetState (db s) a k o) in
  oData o' = oData o /\ oCode o' = oCode o /\ suicided o' = suicided o /\ deleted o' = deleted o /\
  trieOf (db s) a o' = trieOf (db s) a o /\
  (cachedStorage o' = cachedStorage o \/
   cachedStorage o' = <[k := storVal (db s) a k o]> (cachedStorage o)).
Proof.
  cbv zeta. pose proof (so_GetState_val (db s) a k o) as Hv. revert Hv.
  unfold so_GetState. destruct (cachedStorage o !! k) as [v|]; [intros _; split_and!; auto|].
  assert (Ht : let (t, o') := getTrie (db s) a o in
    t = trieOf (db s) a o /\ trieOf (db s) a o' = t /\ oData o' = oData o /\ oCode o' = oCode o /\
    suicided o' = suicided o /\ deleted o' = deleted o /\ cachedStorage o' = cachedStorage o).
  { unfold getTrie, trieOf. destruct (oTrie o) eqn:E; [by rewrite E|].
    by destruct (OpenStorageTrie _ _ _). }
  destruct (getTrie (db s) a o) as [t o1]. destruct Ht as (-> & Et & Ed & Ec & Es & El & Eca).
  destruct (TryGet _ _) as [[|b enc]|]; [|destruct (rlpSplit (b :: enc))|]; cbn; intros <-;
    rewrite <- Eca; split_and!; auto.
Qed.

Lemma so_GetState_same k : sameObj (db s) a o (snd (so_GetState (db s) a k o)) /\
  deleted (snd (so_GetState (db s) a k o)) = false.
Proof.
  destruct (so_GetState_snd k) as (Ed & Ec & Es & El & Et & Hc).
  split; [split|by rewrite El].
  - unfold objView. by rewrite !so_Code_val, Ed, Ec, Es.
  - intros k'. rewrite !so_GetState_val. unfold storVal at 2. rewrite Et.
    destruct Hc as [->| ->]; [done|].
    destruct (decide (k' = k)) as [->|]; [by rewrite lookup_insert_eq|by rewrite lookup_insert_ne].
Qed.

Lemma Step_SetState k w : Step s (so_SetState a k w o s).
Proof.
  unfold so_SetState. destruct (so_GetState (db s) a k o) as [prev o'] eqn:E.
  destruct (so_GetState_same k) as [[Hv Hs] Hdel]. rewrite E in Hv, Hs, Hdel. cbn in Hv, Hs, Hdel.
  assert (Ep : prev = storVal (db s) a k o) by (rewrite <- so_GetState_val; by rewrite E).
  eapply (Step_put s a _ (storageChange a k prev) _ Hd); [done|done|..].
  { cbn [undoObs acct setObj]. by rewrite fn_lookup_insert. }
  split; try done; [intros b|intros b k']; cbn;
    (destruct (decide (b = a)) as [->|Hb]; rewrite ?fn_lookup_insert, ?fn_lookup_insert_ne by done; [|done]).
  - rewrite Hl. cbn. rewrite Hv. unfold objView. by rewrite !so_Code_val.
  - rewrite GetState_eq, Hl. cbn [storAt]. destruct (decide (k' = k)) as [->|Hk].
    + by rewrite fn_lookup_insert, Ep, so_GetState_val.
    + rewrite fn_lookup_insert_ne by done. rewrite Hs. cbn [storAt].
      rewrite !so_GetState_val. unfold storVal. cbn. by rewrite lookup_insert_ne.
Qed.

Lemma Step_suicide :
  Step s (so_markSuicided a (o_with_oData (a_with_Balance 0 (oData o)) o)
            (append (suicideChange a (suicided o) (Balance (oData o))) s)).
Proof.
  destruct (updV_undo a (fun v => mkView (vNonce v) (Balance (oData o)) (vCodeHash v) (vCode v) (suicided o)) o
    (o_with_suicided true (o_with_oData (a_with_Balance 0 (oData o)) o)) s) as (x & Ex & Hx);
    try done; [viewEq|].
  eapply Step_put; try done. cbn [undoObs]. by rewrite Ex.
Qed.

End Setters.

(** *** Operations of the database *)

Lemma lookObj_none a s : DeletedOk s -> lookObj a s = None -> loadObject (trie s) a = None.
Proof.
  intros Hd. rewrite lookObj_eq. destruct (stateObjects s !! a) as [o|] eqn:E; [|done].
  destruct (deleted o) eqn:Eo; [|done]. intros _. by eapply Hd.
Qed.

Definition freshObject : object := o_with_onDirty false (newObject (mkAccount 0 0 0 0) true).

Lemma createObject_eq a s :
  createObject a s =
  let '(prev, s1) := getStateObject a s in
  (freshObject, prev,
   setStateObject a freshObject (append (match prev with
                                         | None => createObjectChange a
                                         | Some o => resetObjectChange a o
                                         end) (MarkStateObjectDirty a s1))).
Proof. unfold createObject. by destruct (getStateObject a s) as [prev s1]. Qed.

Lemma Step_fresh a o ch s s' :
  DeletedOk s -> deleted o = false ->
  ch = match lookObj a s with None => createObjectChange a | Some p => resetObjectChange a p end ->
  OpFrame s s' -> DeletedOk s' -> journal s' = journal s ++ [ch] ->
  ObsEq (abs s') (setObj (db s) a (Some o) (abs s)) -> Step s s'.
Proof.
  intros Hd Ho Hch Hf Hd' Ej Habs.
  eapply (Step_set s s' a o ch (setObj (db s) a (lookObj a s) (setObj (db s) a (Some o) (abs s)))); try done.
  - subst ch. destruct (lookObj a s) eqn:E; cbn; [by eapply lookObj_live|by apply lookObj_none].
  - subst ch. by destruct (lookObj a s).
  - split; try done; [intros b|intros b k]; cbn;
      (destruct (decide (b = a)) as [->|Hb]; rewrite ?fn_lookup_insert, ?fn_lookup_insert_ne by done; done).
Qed.

Lemma createObject_spec a s o prev s' :
  DeletedOk s -> createObject a s = (o, prev, s') ->
  Step s s' /\ prev = lookObj a s /\ o = freshObject /\ lookObj a s' = Some o.
Proof.
  intros Hd. rewrite createObject_eq. destruct (getStateObject a s) as [r s1] eqn:E.
  intros [= <- <- <-]. pose proof (Step_cache _ _ _ _ E Hd) as H1.
  apply getStateObject_spec in E as (Hr & Hl & _). split_and!; try done.
  - eapply Step_trans; [exact H1|]. eapply (Step_fresh a freshObject); try done.
    + apply H1.
    + apply DeletedOk_set; [apply H1|done].
    + by rewrite Hl.
    + etrans; [by apply abs_set|]. cbn [db append with_journal MarkStateObjectDirty with_stateObjectsDirty].
      apply setObj_proper. by apply abs_ext.
  - rewrite lookObj_set by done. by rewrite decide_True.
Qed.

Lemma GetOrNew_spec a s o s' :
  DeletedOk s -> GetOrNewStateObject a s = (o, s') -> Step s s' /\ lookObj a s' = Some o.
Proof.
  intros Hd. unfold GetOrNewStateObject. destruct (getStateObject a s) as [r s1] eqn:E.
  pose proof (Step_cache _ _ _ _ E Hd) as H1. apply getStateObject_spec in E as (_ & Hl & _).
  destruct r as [o1|]; [by intros [= <- <-]|].
  destruct (createObject a s1) as [[o1 p] s2] eqn:Ec. intros [= <- <-].
  apply createObject_spec in Ec as (H2 & _ & _ & H4); [|apply H1]. split; [by eapply Step_trans|done].
Qed.

Lemma Step_CreateAccount a s : DeletedOk s -> Step s (CreateAccount a s).
Proof.
  intros Hd. unfold CreateAccount. destruct (createObject a s) as [[o prev] s1] eqn:E.
  destruct prev as [p|].
  2: { by apply createObject_spec in E as (? & _). }
  rewrite createObject_eq in E. destruct (getStateObject a s) as [r s0] eqn:E0.
  injection E as <- -> <-. pose proof (Step_cache _ _ _ _ E0 Hd) as H0.
  apply getStateObject_spec in E0 as (_ & Hl & _). eapply Step_trans; [exact H0|].
  eapply (Step_fresh a (o_with_oData (a_with_Balance (Balance (oData p)) (oData freshObject)) freshObject));
    try done.
  - apply H0.
  - apply DeletedOk_put; [|done]. apply DeletedOk_set; [apply H0|done].
  - by rewrite Hl.
  - etrans; [by apply putDirty_abs|]. cbn [db setStateObject with_stateObjects append with_journal
      MarkStateObjectDirty with_stateObjectsDirty].
    etrans; [apply setObj_proper, abs_set; done|]. cbn [db append with_journal MarkStateObjectDirty
      with_stateObjectsDirty].
    split; try done; [intros b|intros b k]; cbn;
      (destruct (decide (b = a)) as [->|Hb]; rewrite ?fn_lookup_insert, ?fn_lookup_insert_ne by done; [done|]);
      rewrite ?GetState_eq, !lookObj_eq; done.
Qed.

End Proofs.
