(* ===== verification/StateLaws.v ===== *)
(** * Package core/state: the laws of the state database

    The database of [State] keeps the promises of [VmStateSpec]: reverting restores
    what can be observed, ether moves as the operations say, and the operations of
    a static call change no account's data. *)

From stdpp Require Import base numbers list gmap sets option functions sorting.
From Stdlib Require Import ZArith Lia Strings.Byte.
From S2P Require Import Prelude Common Types VmCore VmStateSpec State StateProofs.
Import state.

(** ** Sums over finite sets *)

Definition sumOver (f : Z -> Z) (l : list Z) : Z := foldr (fun a acc => f a + acc) 0 l.

Lemma sumOver_perm f l1 l2 : l1 ≡ₚ l2 -> sumOver f l1 = sumOver f l2.
Proof. unfold sumOver. induction 1; cbn; lia. Qed.

Lemma sumOver_ext f g l : (forall a, a ∈ l -> f a = g a) -> sumOver f l = sumOver g l.
Proof.
  intros H. induction l as [|b l IH]; [done|]. cbn. rewrite (H b) by set_solver.
  fold (sumOver f l) (sumOver g l). rewrite IH; [done|]. set_solver.
Qed.

Lemma sumOver_app f l1 l2 : sumOver f (l1 ++ l2) = sumOver f l1 + sumOver f l2.
Proof. unfold sumOver. induction l1 as [|b l1 IH]; cbn; lia. Qed.

Lemma sumOver_zero f l : (forall a, a ∈ l -> f a = 0) -> sumOver f l = 0.
Proof.
  intros H. induction l as [|b l IH]; [done|]. cbn. fold (sumOver f l).
  rewrite (H b), IH by set_solver. lia.
Qed.

Lemma sumOver_nonneg f l : (forall a, a ∈ l -> 0 <= f a) -> 0 <= sumOver f l.
Proof.
  intros H. induction l as [|b l IH]; [done|]. cbn. fold (sumOver f l).
  pose proof (H b ltac:(set_solver)). assert (0 <= sumOver f l) by (apply IH; set_solver). lia.
Qed.

Lemma sumOver_le f g l : (forall a, a ∈ l -> f a <= g a) -> sumOver f l <= sumOver g l.
Proof.
  intros H. induction l as [|b l IH]; [done|]. cbn. fold (sumOver f l) (sumOver g l).
  pose proof (H b ltac:(set_solver)). assert (sumOver f l <= sumOver g l) by (apply IH; set_solver). lia.
Qed.

(** A larger set, where the function vanishes. *)
Lemma sumOver_subset f (X Y : gset Z) :
  X ⊆ Y -> (forall a, a ∈ Y -> a ∉ X -> f a = 0) -> sumOver f (elements Y) = sumOver f (elements X).
Proof.
  intros HXY Hz. rewrite (union_difference_L X Y HXY).
  rewrite (sumOver_perm _ _ _ (elements_disj_union X (Y ∖ X) ltac:(set_solver))).
  rewrite sumOver_app, (sumOver_zero f (elements (Y ∖ X))); [lia|].
  intros a Ha%elem_of_elements. apply Hz; set_solver.
Qed.

Lemma sumOver_split f a (X : gset Z) :
  a ∈ X -> sumOver f (elements X) = f a + sumOver f (elements (X ∖ {[a]})).
Proof.
  intros Ha. rewrite (union_difference_L {[a]} X) at 1 by set_solver.
  rewrite (sumOver_perm _ _ _ (elements_disj_union {[a]} (X ∖ {[a]}) ltac:(set_solver))).
  rewrite elements_singleton, sumOver_app. cbn. lia.
Qed.

(** Two functions that differ in one place. *)
Lemma sumOver_one f g a (X : gset Z) :
  a ∈ X -> (forall b, b ∈ X -> b <> a -> f b = g b) ->
  sumOver f (elements X) = sumOver g (elements X) + (f a - g a).
Proof.
  intros Ha H. rewrite (union_difference_L {[a]} X) by set_solver.
  rewrite !(sumOver_perm _ _ _ (elements_disj_union {[a]} (X ∖ {[a]}) ltac:(set_solver))).
  rewrite !sumOver_app, elements_singleton. cbn.
  rewrite (sumOver_ext f g (elements (X ∖ {[a]}))); [lia|].
  intros b Hb%elem_of_elements. apply H; set_solver.
Qed.

Section Laws.
Context {CR : Crypto} {D T : Type} {DB : Database D T}.
Notation object := (stateObject T).
Notation statedb := (StateDB D T).

(** ** Updates are steps *)

(** An entry that does not concern an account. *)
Lemma Step_entry s s' ch x :
  OpFrame s s' -> DeletedOk s' -> journal s' = journal s ++ [ch] -> entryOk (trie s) ch ->
  undoObs (db s) ch (abs s') = Some x -> ObsEq x (abs s) -> Step s s'.
Proof.
  intros [] Hd Ej Hok Ex Hx. split; try done. exists [ch]. split_and!; [done|by repeat constructor|].
  cbn. by exists x.
Qed.

Lemma lookObj_fields a s s' :
  stateObjects s = stateObjects s' -> trie s = trie s' -> lookObj a s = lookObj a s'.
Proof. intros Eo Et. by rewrite !lookObj_eq, Eo, Et. Qed.

Lemma Step_AddLog l s : DeletedOk s -> Step s (AddLog l s).
Proof.
  intros Hd.
  assert (El : GetLogs (thash s) (AddLog l s) =
    GetLogs (thash s) s ++ [mkDerivedLog l (thash s) (bhash s) (txIndex s) (logSize s)]).
  { unfold GetLogs. cbn. by rewrite lookup_insert_eq. }
  set (d := mkDerivedLog _ _ _ _ _) in El.
  eapply (Step_entry s _ (addLogChange (thash s))
    (let x := abs (AddLog l s) in
     mkObs (acct x) (stor x) (oRefund x) (<[thash s := removelast (GetLogs (thash s) s ++ [d])]> (oLogs x))
       (oLogSize x - 1) (oPreimages x))); try done.
  - cbn [undoObs oLogs abs]. rewrite El. by destruct (GetLogs (thash s) s).
  - split; cbn; try done; try (intros; rewrite ?GetState_eq; by erewrite lookObj_fields).
    + intros h. destruct (decide (h = thash s)) as [->|].
      * by rewrite fn_lookup_insert, removelast_last.
      * rewrite fn_lookup_insert_ne by done. unfold GetLogs. cbn. by rewrite lookup_insert_ne.
    + lia.
Qed.

Lemma Step_AddPreimage h b s : DeletedOk s -> Step s (AddPreimage h b s).
Proof.
  intros Hd. unfold AddPreimage. destruct (preimages s !! h) eqn:E; [by apply Step_refl|].
  eapply (Step_entry s _ (addPreimageChange h)); try done.
  split; cbn; try done; try (intros; rewrite ?GetState_eq; by erewrite lookObj_fields).
  by rewrite delete_insert_id.
Qed.

Lemma Step_AddRefund g s : DeletedOk s -> Step s (AddRefund g s).
Proof.
  intros Hd. eapply (Step_entry s _ (refundChange (refund s))); try done.
  split; cbn; try done; intros; rewrite ?GetState_eq; by erewrite lookObj_fields.
Qed.

Lemma Step_Suicide a s : DeletedOk s -> Step s (snd (Suicide a s)).
Proof.
  intros Hd. unfold Suicide. destruct (getStateObject a s) as [r s1] eqn:E.
  pose proof (Step_cache _ _ _ _ E Hd) as H1. apply getStateObject_spec in E as (_ & Hl & _).
  destruct r as [o|]; [|done]. eapply Step_trans; [exact H1|]. apply Step_suicide; [apply H1|done].
Qed.

Lemma update_Step u s : DeletedOk s -> Step s (runUpdate u s).
Proof.
  intros Hd. destruct u; cbn [runUpdate VmCore.CreateAccount VmCore.SubBalance VmCore.AddBalance
    VmCore.SetNonce VmCore.SetCode VmCore.AddRefund VmCore.SetState VmCore.Suicide VmCore.AddLog
    VmCore.AddPreimage vmStateDB].
  1: by apply Step_CreateAccount.
  5: by apply Step_AddRefund.
  6: by apply Step_Suicide.
  6: by apply Step_AddLog.
  6: by apply Step_AddPreimage.
  all: unfold SubBalance, AddBalance, SetNonce, SetCode, SetState;
    destruct (GetOrNewStateObject a s) as [o s1] eqn:E; apply GetOrNew_spec in E as [H1 Hl]; [|done];
    (eapply Step_trans; [exact H1|]); assert (Hd1 : DeletedOk s1) by apply H1.
  - by apply Step_SubBalance.
  - by apply Step_AddBalance.
  - by apply Step_SetNonce.
  - by apply Step_SetCode.
  - by apply Step_SetState.
Qed.

(** ** Well-formed states *)

Record RevisionsOk (s : statedb) : Prop := {
  (** Younger snapshots have larger identifiers and longer journals. *)
  ro_sorted : forall i j r r', (i < j)%nat -> validRevisions s !! i = Some r ->
    validRevisions s !! j = Some r' -> revId r < revId r' /\ (journalIndex r <= journalIndex r')%nat;
  ro_next : forall r, r ∈ validRevisions s -> revId r < nextRevisionId s;
  ro_index : forall r, r ∈ validRevisions s -> (journalIndex r <= length (journal s))%nat
}.

Record StateOk (s : statedb) : Prop := {
  so_deleted : DeletedOk s;
  so_journal : Forall (entryOk (trie s)) (journal s);
  so_revisions : RevisionsOk s
}.

Lemma Revert_eq s id n r :
  RevisionsOk s -> validRevisions s !! n = Some r -> revId r = id ->
  RevertToSnapshot id s =
  (fun s' => with_validRevisions (take n (validRevisions s))
               (with_journal (take (journalIndex r) (journal s')) s'))
    <$> undoAll (drop (journalIndex r) (journal s)) s.
Proof.
  intros [Hs _ _] Hn Hr. unfold RevertToSnapshot.
  rewrite (search_spec _ n).
  - rewrite Hn, Hr, Z.eqb_refl. by destruct (undoAll _ _).
  - apply lookup_lt_Some in Hn. lia.
  - intros i Hi. destruct (lookup_lt_is_Some_2 (validRevisions s) i) as [r' Hr'].
    { apply lookup_lt_Some in Hn. lia. }
    rewrite Hr'. destruct (Hs i n r' r Hi Hr' Hn). apply Z.leb_gt. lia.
  - intros i Hi. destruct (lookup_lt_is_Some_2 (validRevisions s) i) as [r' Hr']; [lia|].
    rewrite Hr'. apply Z.leb_le. destruct (decide (i = n)) as [->|]; [simplify_eq; lia|].
    destruct (Hs n i r r') as [? _]; [lia|done|done|]. lia.
Qed.

Lemma Revert_inv s id s' :
  RevertToSnapshot id s = Some s' -> exists n r, validRevisions s !! n = Some r /\ revId r = id.
Proof.
  unfold RevertToSnapshot. destruct (_ !! search _ _) as [r|] eqn:E; [|done].
  destruct (revId r =? id) eqn:Er; [|done]. bools. intros _. by eexists _, r.
Qed.

Lemma getStateObject_DeletedOk a s r s' :
  getStateObject a s = (r, s') -> DeletedOk s -> DeletedOk s' /\ forall o, r = Some o -> deleted o = false.
Proof.
  intros E Hd. split; [apply (Step_cache _ _ _ _ E Hd)|].
  intros o ->. apply (lookObj_live a s). unfold lookObj. by rewrite E.
Qed.

Lemma undo_DeletedOk ch s s' :
  entryOk (trie s) ch -> DeletedOk s -> undo ch s = Some s' -> DeletedOk s'.
Proof.
  intros Hok Hd. assert (Hon : forall a f, (forall o s, DeletedOk s -> deleted o = false -> DeletedOk (f o s)) ->
    onObject a f s = Some s' -> DeletedOk s').
  { intros a f Hf. unfold onObject. destruct (getStateObject a s) as [[o|] s1] eqn:E; [|done].
    apply getStateObject_DeletedOk in E as [H1 H2]; [|done]. intros [= <-]. by apply Hf, H2. }
  destruct ch; cbn [undo]; try (apply Hon; intros o s0 H0 Ho; by apply DeletedOk_put); try (by intros [= <-]).
  - intros [= <-] b o. cbn. intros [_ Hb]%lookup_delete_Some. by apply Hd.
  - intros [= <-]. by apply DeletedOk_set.
  - destruct (getStateObject account s) as [[o|] s1] eqn:E; apply getStateObject_DeletedOk in E as [H1 H2];
      try done; intros [= <-]; [|done]. apply DeletedOk_put; [done|]. cbn. by apply H2.
  - destruct (default [] _) as [|l [|l' ls]]; [done|..]; by intros [= <-].
  - destruct (_ && _); [|by intros [= <-]]. apply Hon. intros o s0 H0 Ho.
    destruct prevDirty; by apply DeletedOk_set.
Qed.

Lemma undoAll_DeletedOk js s s' :
  Forall (entryOk (trie s)) js -> DeletedOk s -> undoAll js s = Some s' -> DeletedOk s'.
Proof.
  intros Hok Hd. revert s'. induction js as [|ch js IH]; cbn; intros s'; [by intros [= <-]|].
  apply Forall_cons in Hok as [Hch Hjs]. fold (undoAll js s).
  pose proof (undoAll_obs js s Hjs) as Ho. destruct (undoAll js s) as [s1|]; [|done].
  apply undo_DeletedOk; [|by apply IH]. by rewrite (fr_trie _ _ (proj1 Ho)).
Qed.

Lemma revert_obs s id n r :
  StateOk s -> validRevisions s !! n = Some r -> revId r = id ->
  match RevertToSnapshot id s with
  | Some s' =>
      db s' = db s /\ trie s' = trie s /\ journal s' = take (journalIndex r) (journal s) /\
      validRevisions s' = take n (validRevisions s) /\ nextRevisionId s' = nextRevisionId s /\
      DeletedOk s' /\
      exists x, undoAllObs (db s) (drop (journalIndex r) (journal s)) (abs s) = Some x /\
                ObsEq (abs s') x
  | None => undoAllObs (db s) (drop (journalIndex r) (journal s)) (abs s) = None
  end.
Proof.
  intros [Hd Hj Hr] Hn Hid. rewrite (Revert_eq s id n r) by done.
  pose proof (undoAll_obs (drop (journalIndex r) (journal s)) s (Forall_drop _ _ _ Hj)) as Hu.
  pose proof (undoAll_DeletedOk (drop (journalIndex r) (journal s)) s) as Hdel.
  destruct (undoAll _ s) as [s'|]; [|done]. destruct Hu as ([Fd Ft Fj Fr Fn _ _ _] & x & Ex & Hx).
  cbn. split_and!; try done; [by rewrite Fj| |].
  - apply (Hdel s'); [by apply Forall_drop|done|done].
  - exists x. split; [done|]. etrans; [|exact Hx]. by apply abs_ext.
Qed.

Lemma RevisionsOk_app s s' js :
  RevisionsOk s -> validRevisions s' = validRevisions s -> nextRevisionId s' = nextRevisionId s ->
  journal s' = journal s ++ js -> RevisionsOk s'.
Proof.
  intros [H1 H2 H3] Er En Ej. split; rewrite Er, ?En, ?Ej; try done.
  intros r Hr. rewrite length_app. specialize (H3 r Hr). lia.
Qed.

Lemma Step_ok s s' : StateOk s -> Step s s' -> StateOk s'.
Proof.
  intros [Hd Hj Hr] [(js & Ej & Hok & _) Ed Et Er En Eh Hd']. split; [done| |by eapply RevisionsOk_app].
  rewrite Ej, Et. by apply Forall_app.
Qed.

(** States that look the same, over the same database. *)
Definition stateEq (s s' : statedb) : Prop := db s = db s' /\ ObsEq (abs s) (abs s').

#[export] Instance stateEq_equivalence : Equivalence stateEq.
Proof.
  split.
  - by intros s.
  - intros s s' [? ?]. split; [done|by symmetry].
  - intros s1 s2 s3 [? ?] [? ?]. split; [congruence|by etrans].
Qed.

Lemma Step_reverts s s' id s0 :
  StateOk s -> Step s s' -> RevertToSnapshot id s = Some s0 ->
  exists s1, RevertToSnapshot id s' = Some s1 /\ stateEq s0 s1.
Proof.
  intros Hok Hst E. pose proof (Step_ok s s' Hok Hst) as Hok'.
  destruct Hst as [(js & Ej & _ & x & Ex & Hx) Ed Et Er En Eh Hd'].
  destruct (Revert_inv _ _ _ E) as (n & r & Hn & Hid).
  pose proof (revert_obs s id n r Hok Hn Hid) as H0. rewrite E in H0.
  destruct H0 as (Ed0 & _ & _ & _ & _ & _ & y & Ey & Hy).
  assert (Hn' : validRevisions s' !! n = Some r) by (by rewrite Er).
  pose proof (revert_obs s' id n r Hok' Hn' Hid) as H1.
  assert (Hidx : (journalIndex r <= length (journal s))%nat).
  { apply (ro_index s (so_revisions s Hok)). by eapply list_elem_of_lookup_2. }
  rewrite Ej, Ed, drop_app_le, undoAllObs_app, Ex in H1 by done. cbn in H1.
  pose proof (undoAllObs_proper (db s) (drop (journalIndex r) (journal s)) _ _ Hx) as Hp.
  rewrite Ey in Hp. inversion Hp as [z ? Hz Ez|]; subst.
  destruct (RevertToSnapshot (revId r) s') as [s1|]; [|congruence].
  destruct H1 as (Ed1 & _ & _ & _ & _ & _ & w & Ew & Hw). exists s1. split; [done|].
  split; [congruence|]. rewrite Ew in Ez. injection Ez as ->.
  etrans; [exact Hy|]. symmetry. by etrans.
Qed.

(** ** Snapshots *)

Lemma Snapshot_ok s id s' :
  StateOk s -> Snapshot s = (id, s') -> StateOk s' /\ stateEq s s'.
Proof.
  intros [Hd Hj [H1 H2 H3]] [= <- <-]. split; [|split; [done|by apply abs_ext]]. split; [done|done|].
  split; cbn.
  - intros i j r r' Hij Hi Hj'. apply lookup_app_Some in Hj' as [Hj'|[Hlen Hj']].
    + rewrite lookup_app_l in Hi by (apply lookup_lt_Some in Hj'; lia). by eapply H1.
    + apply list_lookup_singleton_Some in Hj' as [Hj0 <-].
      rewrite lookup_app_l in Hi by lia. apply list_elem_of_lookup_2 in Hi.
      specialize (H2 r Hi). specialize (H3 r Hi). cbn. lia.
  - intros r [Hr|Hr]%elem_of_app; [specialize (H2 r Hr); lia|].
    apply list_elem_of_singleton in Hr as ->. cbn. lia.
  - intros r [Hr|Hr]%elem_of_app; [by apply H3|]. by apply list_elem_of_singleton in Hr as ->.
Qed.

Lemma Snapshot_reverts s id s' :
  StateOk s -> Snapshot s = (id, s') ->
  (exists s0, RevertToSnapshot id s' = Some s0 /\ stateEq s s0) /\
  forall i s0, RevertToSnapshot i s = Some s0 ->
    i < id /\ exists s1, RevertToSnapshot i s' = Some s1 /\ stateEq s0 s1.
Proof.
  intros Hok E. destruct (Snapshot_ok s id s' Hok E) as [Hok' [Ed Heq]].
  injection E as <- <-. set (s' := with_validRevisions _ _) in *. split.
  - assert (Hn : validRevisions s' !! length (validRevisions s) =
        Some (mkRevision (nextRevisionId s) (length (journal s)))).
    { cbn. rewrite lookup_app_r by done. by rewrite Nat.sub_diag. }
    pose proof (revert_obs s' _ _ _ Hok' Hn eq_refl) as H. cbn in H. rewrite drop_all in H.
    destruct (RevertToSnapshot _ s') as [s0|]; [|done].
    destruct H as (Ed0 & _ & _ & _ & _ & _ & x & [= <-] & Hx). exists s0. split; [done|].
    split; [done|]. etrans; [exact Heq|]. by symmetry.
  - intros i s0 E0. destruct (Revert_inv _ _ _ E0) as (n & r & Hn & Hid). split.
    { rewrite <- Hid. apply (ro_next s (so_revisions s Hok)). by eapply list_elem_of_lookup_2. }
    assert (Hn' : validRevisions s' !! n = Some r).
    { cbn. rewrite lookup_app_l; [done|by eapply lookup_lt_Some]. }
    pose proof (revert_obs s i n r Hok Hn Hid) as H0. rewrite E0 in H0.
    destruct H0 as (Ed0 & _ & _ & _ & _ & _ & x & Ex & Hx).
    pose proof (revert_obs s' i n r Hok' Hn' Hid) as H1. cbn in H1.
    pose proof (undoAllObs_proper (db s) (drop (journalIndex r) (journal s)) _ _ Heq) as Hp.
    rewrite Ex in Hp. inversion Hp as [? z Hz E1 E2|].
    destruct (RevertToSnapshot i s') as [s1|]; [|congruence].
    destruct H1 as (Ed1 & _ & _ & _ & _ & _ & w & Ew & Hw). exists s1. split; [done|].
    split; [congruence|]. rewrite Ew in E2. injection E2 as ->.
    etrans; [exact Hx|]. etrans; [exact Hz|]. by symmetry.
Qed.

Lemma Revert_ok s id s' : StateOk s -> RevertToSnapshot id s = Some s' -> StateOk s'.
Proof.
  intros Hok E. destruct (Revert_inv _ _ _ E) as (n & r & Hn & Hid).
  pose proof (revert_obs s id n r Hok Hn Hid) as H. rewrite E in H.
  destruct H as (_ & Et & Ej & Er & En & Hd & _). destruct Hok as [_ Hj [H1 H2 H3]].
  split; [done| |split].
  - rewrite Et, Ej. by apply Forall_take.
  - intros i j r1 r2 Hij. rewrite Er. intros [Hi _]%lookup_take_Some [Hj' _]%lookup_take_Some. by eapply H1.
  - intros r1. rewrite Er, En. intros Hr1. apply H2. eapply subseteq_take; exact Hr1.
  - intros r1. rewrite Er, Ej. intros [i Hi]%list_elem_of_lookup_1.
    apply lookup_take_Some in Hi as [Hi Hlt]. destruct (H1 i n r1 r Hlt Hi Hn) as [_ Hle].
    rewrite length_take. apply list_elem_of_lookup_2, H3 in Hi. lia.
Qed.

Lemma Revert_reverts s id s' i s0 :
  StateOk s -> RevertToSnapshot id s = Some s' -> i < id -> RevertToSnapshot i s = Some s0 ->
  exists s1, RevertToSnapshot i s' = Some s1 /\ stateEq s0 s1.
Proof.
  intros Hok E Hi E0. pose proof (Revert_ok s id s' Hok E) as Hok'.
  destruct (Revert_inv _ _ _ E) as (n & r & Hn & Hid).
  destruct (Revert_inv _ _ _ E0) as (m & q & Hm & Hiq).
  pose proof (revert_obs s id n r Hok Hn Hid) as H. rewrite E in H.
  destruct H as (Ed & _ & Ej & Er & _ & _ & x & Ex & Hx).
  pose proof (revert_obs s i m q Hok Hm Hiq) as H0. rewrite E0 in H0.
  destruct H0 as (Ed0 & _ & _ & _ & _ & _ & y & Ey & Hy).
  assert (Hmn : (m < n)%nat).
  { destruct (Nat.lt_total m n) as [|[->|Hlt]]; [done|simplify_eq; lia|].
    destruct (ro_sorted s (so_revisions s Hok) n m r q Hlt Hn Hm). lia. }
  destruct (ro_sorted s (so_revisions s Hok) m n q r Hmn Hm Hn) as [_ Hle].
  assert (Hm' : validRevisions s' !! m = Some q) by (rewrite Er; by rewrite lookup_take_lt).
  pose proof (revert_obs s' i m q Hok' Hm' Hiq) as H1. rewrite Ej, Ed in H1.
  assert (Esplit : drop (journalIndex q) (journal s) =
    drop (journalIndex q) (take (journalIndex r) (journal s)) ++ drop (journalIndex r) (journal s)).
  { rewrite <- (take_drop (journalIndex r) (journal s)) at 1.
    assert (Hl : (journalIndex r <= length (journal s))%nat).
    { apply (ro_index s (so_revisions s Hok)). by eapply list_elem_of_lookup_2. }
    rewrite drop_app_le by (rewrite length_take; lia). done. }
  rewrite Esplit, undoAllObs_app, Ex in Ey. cbn in Ey.
  pose proof (undoAllObs_proper (db s) (drop (journalIndex q) (take (journalIndex r) (journal s))) _ _ Hx) as Hp.
  rewrite Ey in Hp. inversion Hp as [z ? Hz E1 E2|].
  destruct (RevertToSnapshot i s') as [s1|]; [|congruence].
  destruct H1 as (Ed1 & _ & _ & _ & _ & _ & w & Ew & Hw). exists s1. split; [done|].
  split; [congruence|]. rewrite Ew in E1. injection E1 as ->.
  etrans; [exact Hy|]. symmetry. by etrans.
Qed.

(** ** The laws of snapshots *)

(** What the package relies on in its stores: there is no code under the hash of
    the empty code, the zero root is that of an empty trie, and a trie holds
    finitely many accounts. *)
Class DatabaseLaws := {
  code_of_nothing : forall d h, default [] (ContractCode d h emptyCodeHash) = [];
  empty_storage : forall d h k, TryGet (default EmptyTrie (OpenStorageTrie d h 0)) k = Some [];
  trieAddresses : T -> gset Address;
  trie_addresses : forall t a, is_address a -> loadObject t a <> None -> a ∈ trieAddresses t
}.

Context {DL : DatabaseLaws}.

(** The getters, as observations. *)
Definition viewOr {A} (f : View -> A) (dflt : A) (a : Address) (s : statedb) : A :=
  match acct (abs s) a with Some v => f v | None => dflt end.

Lemma look_view {A} (f : View -> A) (g : object -> A) dflt a s :
  (forall o, g o = f (objView (db s) a o)) -> look g dflt a s = viewOr f dflt a s.
Proof. intros H. unfold look, viewOr. cbn. unfold lookObj. by destruct (fst _); cbn. Qed.

Lemma getters_view a s :
  GetBalance a s = viewOr vBalance 0 a s /\ GetNonce a s = viewOr vNonce 0 a s /\
  GetCodeHash a s = viewOr vCodeHash 0 a s /\ GetCode a s = viewOr vCode [] a s /\
  GetCodeSize a s = viewOr (fun v => Z.of_nat (length (vCode v))) 0 a s /\
  HasSuicided a s = viewOr vSuicided false a s /\ Exist a s = viewOr (fun _ => true) false a s /\
  Empty a s = viewOr (fun v => (vNonce v =? 0) && (vBalance v =? 0) && (vCodeHash v =? emptyCodeHash)) true a s.
Proof.
  split_and!; apply look_view; try done. intros o. cbn. do 2 f_equal. rewrite so_Code_val. unfold codeIn.
  destruct (oCode o); [done|]. destruct (Z.eqb_spec (CodeHash (oData o)) emptyCodeHash) as [->|]; [|done].
  apply code_of_nothing.
Qed.

Lemma viewOr_eq {A} (f : View -> A) dflt a s s' : stateEq s s' -> viewOr f dflt a s' = viewOr f dflt a s.
Proof. intros [_ []]. unfold viewOr. by rewrite eq_acct. Qed.

Lemma stateEq_view s s' : stateEq s s' -> SameView s s'.
Proof.
  intros H. assert (Hv : forall A (f : View -> A) dflt a, viewOr f dflt a s' = viewOr f dflt a s)
    by (intros; by apply viewOr_eq).
  split; cbn; try (intros a; destruct (getters_view a s) as (? & ? & ? & ? & ? & ? & ? & ?),
    (getters_view a s') as (? & ? & ? & ? & ? & ? & ? & ?)); try congruence.
  - intros k. symmetry. apply (eq_stor _ _ (proj2 H)).
  - symmetry. apply (eq_refund _ _ (proj2 H)).
Qed.

#[export] Instance stateDBLaws : StateDBLaws statedb.
Proof.
  refine {| sOk := StateOk; sEq := stateEq |}.
  - apply stateEq_view.
  - intros u s Hok. eapply Step_ok; [done|]. by apply update_Step, Hok.
  - intros u s id s0 Hok. apply Step_reverts; [done|]. by apply update_Step, Hok.
  - apply Snapshot_ok.
  - apply Snapshot_reverts.
  - apply Revert_ok.
  - apply Revert_reverts.
Defined.

(** ** Updates as functions on observations *)

Definition freshView : View := mkView 0 0 emptyCodeHash [] false.
Definition accountOr (x : Obs) (a : Address) : View := default freshView (acct x a).
Definition setV (a : Address) (v : View) (x : Obs) : Obs :=
  mkObs (<[a := Some v]> (acct x)) (stor x) (oRefund x) (oLogs x) (oLogSize x) (oPreimages x).

(** The specification of an update, in a transaction [th] of block [bh]. *)
Definition specUpdate (th bh : Hash) (ti : Z) (u : update) (x : Obs) : Obs :=
  match u with
  | UCreateAccount a =>
      mkObs (<[a := Some (mkView 0 (vBalance (accountOr x a)) emptyCodeHash [] false)]> (acct x))
        (<[a := fun _ => 0]> (stor x)) (oRefund x) (oLogs x) (oLogSize x) (oPreimages x)
  | USubBalance a b =>
      let v := accountOr x a in
      setV a (mkView (vNonce v) (vBalance v - b) (vCodeHash v) (vCode v) (vSuicided v)) x
  | UAddBalance a b =>
      let v := accountOr x a in
      setV a (mkView (vNonce v) (vBalance v + b) (vCodeHash v) (vCode v) (vSuicided v)) x
  | USetNonce a n =>
      let v := accountOr x a in
      setV a (mkView n (vBalance v) (vCodeHash v) (vCode v) (vSuicided v)) x
  | USetCode a code =>
      let v := accountOr x a in
      setV a (mkView (vNonce v) (vBalance v) (Keccak256 code) code (vSuicided v)) x
  | UAddRefund gas =>
      mkObs (acct x) (stor x) (u64 (oRefund x + gas)) (oLogs x) (oLogSize x) (oPreimages x)
  | USetState a k w =>
      mkObs (<[a := Some (accountOr x a)]> (acct x)) (<[a := <[k := w]> (stor x a)]> (stor x))
        (oRefund x) (oLogs x) (oLogSize x) (oPreimages x)
  | USuicide a =>
      match acct x a with
      | Some v => setV a (mkView (vNonce v) 0 (vCodeHash v) (vCode v) true) x
      | None => x
      end
  | UAddLog l =>
      mkObs (acct x) (stor x) (oRefund x)
        (<[th := oLogs x th ++ [mkDerivedLog l th bh ti (oLogSize x)]]> (oLogs x)) (oLogSize x + 1)
        (oPreimages x)
  | UAddPreimage h b =>
      mkObs (acct x) (stor x) (oRefund x) (oLogs x) (oLogSize x)
        (match oPreimages x !! h with Some _ => oPreimages x | None => <[h := b]> (oPreimages x) end)
  end.

Lemma freshObject_view d a : objView d a freshObject = freshView.
Proof.
  unfold objView. rewrite so_Code_val. cbn. unfold codeIn. by rewrite Z.eqb_refl.
Qed.

Lemma freshObject_storage d a k : storVal d a k freshObject = 0.
Proof. unfold storVal, trieOf, valueIn. cbn. by rewrite empty_storage. Qed.

(** The object that a setter works on, and the state with it. *)
Lemma GetOrNew_obs a s o s' :
  DeletedOk s -> GetOrNewStateObject a s = (o, s') ->
  o = default freshObject (lookObj a s) /\ deleted o = false /\ db s' = db s /\
  ObsEq (abs s') (setObj (db s) a (Some o) (abs s)).
Proof.
  intros Hd. unfold GetOrNewStateObject. destruct (getStateObject a s) as [r s1] eqn:E.
  pose proof (Step_cache _ _ _ _ E Hd) as H1.
  apply getStateObject_spec in E as (Hr & Hl & Habs & _ & _ & Hdb & _).
  destruct r as [o1|].
  - intros [= <- <-]. rewrite <- Hr. split_and!; [done|by eapply lookObj_live|done|].
    etrans; [exact Habs|]. symmetry. by apply (setObj_id s a o1).
  - rewrite createObject_eq. destruct (getStateObject a s1) as [r2 s2] eqn:E2.
    apply getStateObject_spec in E2 as (_ & _ & Habs2 & _ & _ & Hdb2 & _). intros [= <- <-].
    rewrite <- Hr. split_and!; [done|done|by rewrite <- Hdb, <- Hdb2|].
    etrans; [by apply abs_set|]. cbn [db append with_journal MarkStateObjectDirty with_stateObjectsDirty].
    rewrite Hdb2, Hdb. apply setObj_proper. etrans; [by apply (abs_ext _ s2)|].
    etrans; [exact Habs2|exact Habs].
Qed.

(** A setter that puts [g o] for the object. *)
Lemma setter_obs a g s s1 o x :
  DeletedOk s -> GetOrNewStateObject a s = (o, s1) ->
  (forall o, deleted (g o) = deleted o) ->
  acct x a = Some (objView (db s) a (g o)) -> (forall k, stor x a k = storVal (db s) a k (g o)) ->
  (forall b, b <> a -> acct x b = acct (abs s) b /\ forall k, stor x b k = stor (abs s) b k) ->
  oRefund x = refund s -> (forall h, oLogs x h = GetLogs h s) -> oLogSize x = logSize s ->
  oPreimages x = preimages s ->
  forall ch, ObsEq (abs (putDirty a (g o) (append ch s1))) x.
Proof.
  intros Hd E Hg Ha Hs Hb Hr Hlog Hls Hp ch. apply GetOrNew_obs in E as (_ & Hlive & Hdb & Habs); [|done].
  etrans; [apply putDirty_abs; by rewrite Hg|]. cbn [db append with_journal]. rewrite Hdb.
  etrans; [apply setObj_proper; etrans; [by apply (abs_ext _ s1)|exact Habs]|].
  split; cbn; try done; [intros b|intros b k];
    (destruct (decide (b = a)) as [->|Hne]; rewrite ?fn_lookup_insert, ?fn_lookup_insert_ne by done).
  - by rewrite Ha.
  - symmetry. by apply Hb.
  - cbn. by rewrite so_GetState_val, Hs.
  - symmetry. by apply Hb.
Qed.

(** The object's view and storage, in terms of the observations. *)
Lemma base_view a s o s1 :
  DeletedOk s -> GetOrNewStateObject a s = (o, s1) ->
  objView (db s) a o = accountOr (abs s) a /\ forall k, storVal (db s) a k o = stor (abs s) a k.
Proof.
  intros Hd E. apply GetOrNew_obs in E as (-> & _); [|done]. unfold accountOr. cbn.
  destruct (lookObj a s) as [o|] eqn:El; cbn.
  - split; [done|]. intros k. rewrite GetState_eq, El. cbn. by rewrite so_GetState_val.
  - split; [apply freshObject_view|]. intros k. rewrite GetState_eq, El. apply freshObject_storage.
Qed.

Lemma keep_obs a s o s1 :
  DeletedOk s -> GetOrNewStateObject a s = (o, s1) ->
  ObsEq (abs s1) (setV a (accountOr (abs s) a) (abs s)).
Proof.
  intros Hd E. destruct (base_view a s o s1 Hd E) as [Hv Hs].
  apply GetOrNew_obs in E as (_ & _ & _ & Habs); [|done]. etrans; [exact Habs|].
  split; cbn; try done; [intros b|intros b k];
    (destruct (decide (b = a)) as [->|Hne]; rewrite ?fn_lookup_insert, ?fn_lookup_insert_ne by done; try done).
  - cbn. by rewrite Hv.
  - cbn. by rewrite so_GetState_val, Hs.
Qed.

Lemma view_eta v : mkView (vNonce v) (vBalance v) (vCodeHash v) (vCode v) (vSuicided v) = v.
Proof. by destruct v. Qed.

(** A setter that only changes the view. *)
Lemma setV_obs a g v s s1 o :
  DeletedOk s -> GetOrNewStateObject a s = (o, s1) ->
  (forall o, deleted (g o) = deleted o) -> objView (db s) a (g o) = v ->
  (forall k, storVal (db s) a k (g o) = storVal (db s) a k o) ->
  forall ch, ObsEq (abs (putDirty a (g o) (append ch s1))) (setV a v (abs s)).
Proof.
  intros Hd E Hg Hv Hs ch. destruct (base_view a s o s1 Hd E) as [_ Hbs].
  eapply setter_obs; try done.
  - cbn. by rewrite fn_lookup_insert, Hv.
  - intros k. cbn. by rewrite Hs, Hbs.
  - intros b Hb. cbn. by rewrite fn_lookup_insert_ne.
Qed.

Lemma SetBalance_obs a b s o s1 :
  DeletedOk s -> GetOrNewStateObject a s = (o, s1) ->
  let v := accountOr (abs s) a in
  ObsEq (abs (so_SetBalance a b o s1))
    (setV a (mkView (vNonce v) b (vCodeHash v) (vCode v) (vSuicided v)) (abs s)).
Proof.
  intros Hd E. destruct (base_view a s o s1 Hd E) as [Hv _]. cbv zeta. rewrite <- Hv.
  apply (setV_obs a (fun o => o_with_oData (a_with_Balance b (oData o)) o)); try done.
  unfold objView. by rewrite !so_Code_val.
Qed.

Lemma spec_balance a f s o s1 (op : Z -> object -> statedb -> statedb) b :
  DeletedOk s -> GetOrNewStateObject a s = (o, s1) ->
  (forall x, f x 0 = x) ->
  op b o s1 = so_SetBalance a (f (Balance (oData o)) b) o s1 \/
  (b = 0 /\ (op b o s1 = s1 \/ op b o s1 = so_touch a o s1)) ->
  let v := accountOr (abs s) a in
  ObsEq (abs (op b o s1))
    (setV a (mkView (vNonce v) (f (vBalance v) b) (vCodeHash v) (vCode v) (vSuicided v)) (abs s)).
Proof.
  intros Hd E Hf Hop. destruct (base_view a s o s1 Hd E) as [Hv Hs]. cbv zeta.
  destruct Hop as [->|[-> [->| ->]]].
  - replace (Balance (oData o)) with (vBalance (accountOr (abs s) a)) by (by rewrite <- Hv).
    by apply SetBalance_obs.
  - rewrite Hf, view_eta. by eapply keep_obs.
  - rewrite Hf, view_eta. rewrite <- Hv.
    apply (setV_obs a (fun o => o_with_touched true o)); try done.
    unfold objView. by rewrite !so_Code_val.
Qed.

Lemma createObject_obs a s o prev s' :
  createObject a s = (o, prev, s') ->
  o = freshObject /\ prev = lookObj a s /\ db s' = db s /\
  ObsEq (abs s') (setObj (db s) a (Some freshObject) (abs s)).
Proof.
  rewrite createObject_eq. destruct (getStateObject a s) as [r s1] eqn:E. intros [= <- <- <-].
  apply getStateObject_spec in E as (Hr & _ & Habs & _ & _ & Hdb & _). split_and!; try done.
  etrans; [by apply abs_set|]. cbn [db append with_journal MarkStateObjectDirty with_stateObjectsDirty].
  rewrite Hdb. apply setObj_proper. etrans; [by apply (abs_ext _ s1)|exact Habs].
Qed.

Lemma setObj_setObj d a r1 r2 x : ObsEq (setObj d a r1 (setObj d a r2 x)) (setObj d a r1 x).
Proof.
  split; try done; [intros b|intros b k]; cbn;
    (destruct (decide (b = a)) as [->|Hb]; rewrite ?fn_lookup_insert, ?fn_lookup_insert_ne by done; done).
Qed.

(** A fresh object with a balance. *)
Lemma fresh_obs (o : object) a b x d :
  o = o_with_oData (a_with_Balance b (oData (freshObject (T := T)))) freshObject ->
  ObsEq (setObj d a (Some o) x)
    (mkObs (<[a := Some (mkView 0 b emptyCodeHash [] false)]> (acct x)) (<[a := fun _ => 0]> (stor x))
       (oRefund x) (oLogs x) (oLogSize x) (oPreimages x)).
Proof.
  intros ->. split; try done; [intros c|intros c k]; cbn;
    (destruct (decide (c = a)) as [->|Hb]; rewrite ?fn_lookup_insert, ?fn_lookup_insert_ne by done; try done).
  - cbn. unfold objView. rewrite so_Code_val. cbn. unfold codeIn. by rewrite Z.eqb_refl.
  - cbn. rewrite so_GetState_val. apply freshObject_storage.
Qed.

Lemma CreateAccount_obs a s :
  ObsEq (abs (CreateAccount a s)) (specUpdate (thash s) (bhash s) (txIndex s) (UCreateAccount a) (abs s)).
Proof.
  unfold CreateAccount. destruct (createObject a s) as [[o prev] s1] eqn:E.
  apply createObject_obs in E as (-> & -> & Hdb & Habs). cbn [specUpdate]. unfold accountOr. cbn [acct abs].
  destruct (lookObj a s) as [p|]; cbn [fmap option_fmap option_map default].
  - etrans; [by apply putDirty_abs|]. rewrite Hdb. etrans; [apply setObj_proper, Habs|].
    etrans; [apply setObj_setObj|]. by apply fresh_obs.
  - etrans; [exact Habs|]. by apply fresh_obs.
Qed.

Lemma SetCode_obs a code s :
  DeletedOk s ->
  ObsEq (abs (SetCode a code s)) (specUpdate (thash s) (bhash s) (txIndex s) (USetCode a code) (abs s)).
Proof.
  intros Hd. unfold SetCode. destruct (GetOrNewStateObject a s) as [o s1] eqn:E.
  destruct (base_view a s o s1 Hd E) as [Hv Hs]. cbn [specUpdate]. cbv zeta. rewrite <- Hv.
  unfold so_SetCode. destruct (so_Code (db s1) a o) as [prev o'] eqn:Ec.
  pose proof (so_Code_cases a o s1) as Ho'. rewrite Ec in Ho'. cbn in Ho'.
  pose proof (GetOrNew_obs a s o s1 Hd E) as (_ & _ & Hdb & _).
  replace o' with (snd (so_Code (db s1) a o)) by (by rewrite Ec).
  apply (setV_obs a (fun o => o_with_dirtyCode true (o_with_oCode (Some code)
    (o_with_oData (a_with_CodeHash (Keccak256 code) (oData (snd (so_Code (db s1) a o)))) (snd (so_Code (db s1) a o))))));
    try done; rewrite ?Ec; cbn [snd].
  - intros o1. pose proof (so_Code_cases a o1 s1) as Ho1. cbn. by destruct Ho1 as [->|[[? ->]| ->]].
  - unfold objView. rewrite !so_Code_val. cbn. by destruct Ho' as [->|[[? ->]| ->]].
  - intros k. unfold storVal, trieOf. cbn. by destruct Ho' as [->|[[? ->]| ->]].
Qed.

Lemma SetState_obs a k w s :
  DeletedOk s ->
  ObsEq (abs (SetState a k w s)) (specUpdate (thash s) (bhash s) (txIndex s) (USetState a k w) (abs s)).
Proof.
  intros Hd. unfold SetState. destruct (GetOrNewStateObject a s) as [o s1] eqn:E.
  destruct (base_view a s o s1 Hd E) as [Hv Hs].
  pose proof (GetOrNew_spec a s o s1 Hd E) as [_ Hl].
  pose proof (GetOrNew_obs a s o s1 Hd E) as (_ & Hlive & Hdb & Habs).
  destruct (so_GetState_same a o s1 Hl k) as [[Hv' Hs'] Hdel].
  unfold so_SetState. destruct (so_GetState (db s1) a k o) as [prev o']. cbn [snd] in Hv', Hs', Hdel.
  rewrite Hdb in Hv', Hs'.
  etrans; [by apply putDirty_abs|]. cbn [db append with_journal]. rewrite Hdb.
  etrans; [apply setObj_proper; etrans; [by apply (abs_ext _ s1)|exact Habs]|].
  etrans; [apply setObj_setObj|].
  split; try done; [intros b|intros b k']; cbn [acct stor setObj specUpdate];
    (destruct (decide (b = a)) as [->|Hb]; rewrite ?fn_lookup_insert, ?fn_lookup_insert_ne by done; try done).
  - rewrite <- Hv, Hv'. unfold viewAt, objView. cbn [fmap option_fmap option_map]. by rewrite !so_Code_val.
  - cbn [storAt]. rewrite so_GetState_val. unfold storVal. cbn [cachedStorage o_with_cachedStorage o_with_dirtyStorage].
    destruct (decide (k' = k)) as [->|Hk]; [by rewrite fn_lookup_insert, lookup_insert_eq|].
    rewrite fn_lookup_insert_ne, lookup_insert_ne by done.
    change (GetState a k' s) with (stor (abs s) a k').
    rewrite <- Hs, <- so_GetState_val, Hs', so_GetState_val. done.
Qed.

Lemma Suicide_obs a s :
  ObsEq (abs (snd (Suicide a s))) (specUpdate (thash s) (bhash s) (txIndex s) (USuicide a) (abs s)).
Proof.
  unfold Suicide. cbn [specUpdate acct abs]. destruct (getStateObject a s) as [r s1] eqn:E.
  apply getStateObject_spec in E as (Hr & Hl & Habs & _ & _ & Hdb & _). rewrite <- Hr.
  destruct r as [o|]; cbn [snd fmap option_fmap option_map]; [|exact Habs].
  pose proof (lookObj_live _ _ _ Hl) as Hlive.
  etrans; [by apply putDirty_abs|]. cbn [db append with_journal]. rewrite Hdb.
  etrans; [apply setObj_proper; etrans; [by apply (abs_ext _ s1)|exact Habs]|].
  split; try done; [intros b|intros b k']; cbn;
    (destruct (decide (b = a)) as [->|Hb]; rewrite ?fn_lookup_insert, ?fn_lookup_insert_ne by done; try done).
  - cbn. unfold objView. by rewrite !so_Code_val.
  - rewrite GetState_eq, <- Hr. cbn. by rewrite !so_GetState_val.
Qed.

(** The database implements the specification of each update. *)
Lemma update_spec u s :
  DeletedOk s -> ObsEq (abs (runUpdate u s)) (specUpdate (thash s) (bhash s) (txIndex s) u (abs s)).
Proof.
  intros Hd. destruct u; cbn [runUpdate VmCore.CreateAccount VmCore.SubBalance VmCore.AddBalance
    VmCore.SetNonce VmCore.SetCode VmCore.AddRefund VmCore.SetState VmCore.Suicide VmCore.AddLog
    VmCore.AddPreimage vmStateDB];
    try (unfold SubBalance, AddBalance, SetNonce;
         destruct (GetOrNewStateObject a s) as [o s1] eqn:E; pose proof (base_view a s o s1 Hd E) as [Hv Hs]).
  - apply CreateAccount_obs.
  - apply (spec_balance a Z.sub s o s1 (so_SubBalance a) x); try done; [lia|].
    unfold so_SubBalance. destruct (Z.eqb_spec x 0) as [->|]; [by right; split; [|left]|by left].
  - apply (spec_balance a Z.add s o s1 (so_AddBalance a) x); try done; [lia|].
    unfold so_AddBalance. destruct (Z.eqb_spec x 0) as [->|]; [|by left].
    right. split; [done|]. destruct (empty o); [by right|by left].
  - cbn [specUpdate]. cbv zeta. rewrite <- Hv.
    apply (setV_obs a (fun o => o_with_oData (a_with_Nonce n (oData o)) o)); try done.
    unfold objView. by rewrite !so_Code_val.
  - by apply SetCode_obs.
  - split; cbn; try done; intros; rewrite ?GetState_eq; by erewrite lookObj_fields.
  - by apply SetState_obs.
  - apply Suicide_obs.
  - split; cbn; try done; try (intros; rewrite ?GetState_eq; by erewrite lookObj_fields).
    intros h. unfold GetLogs. cbn. destruct (decide (h = thash s)) as [->|].
    + by rewrite fn_lookup_insert, lookup_insert_eq.
    + by rewrite fn_lookup_insert_ne, lookup_insert_ne.
  - unfold AddPreimage. cbn [specUpdate oPreimages abs]. destruct (preimages s !! h); [done|].
    split; cbn; try done; intros; rewrite ?GetState_eq; by erewrite lookObj_fields.
Qed.

(** ** Balances *)

Lemma GetBalance_acct a s : GetBalance a s = match acct (abs s) a with Some v => vBalance v | None => 0 end.
Proof. apply (getters_view a s). Qed.

Lemma update_balance_law u b s : StateOk s -> GetBalance b (runUpdate u s) = balanceAfter u b s.
Proof.
  intros Hok. pose proof (update_spec u s (so_deleted s Hok)) as [Ha _ _ _ _ _].
  rewrite GetBalance_acct, Ha. destruct u; cbn [specUpdate balanceAfter VmCore.GetBalance vmStateDB];
    rewrite ?GetBalance_acct; try done; unfold setV, accountOr; cbn [acct].
  1,4,5,6: destruct (decide (b = a)) as [->|];
    [rewrite fn_lookup_insert|by rewrite fn_lookup_insert_ne by done]; by destruct (acct (abs s) a).
  1,2: destruct (Z.eqb_spec a b) as [->|]; [|by rewrite fn_lookup_insert_ne];
    rewrite fn_lookup_insert; by destruct (acct (abs s) b).
  destruct (acct (abs s) a) as [v|] eqn:E; cbn [acct];
    (destruct (Z.eqb_spec a b) as [<-|]; [|by rewrite ?fn_lookup_insert_ne]).
  - by rewrite fn_lookup_insert.
  - cbn. cbn in E. by rewrite E.
Qed.

Definition isAddress (a : Address) : bool := (0 <=? a) && (a <? 2 ^ 160).

(** The addresses that can have a balance. *)
Definition support (s : statedb) : gset Address :=
  filter (fun a => isAddress a = true) (dom (stateObjects s) ∪ trieAddresses (trie s)).

Definition totalBalance (s : statedb) : Z := sumOver (fun a => GetBalance a s) (elements (support s)).

Lemma isAddress_spec a : isAddress a = true <-> is_address a.
Proof. unfold isAddress, is_address. rewrite andb_true_iff, Z.leb_le, Z.ltb_lt. done. Qed.

Lemma support_address a s : a ∈ support s -> isAddress a = true.
Proof. unfold support. rewrite elem_of_filter. by intros [? _]. Qed.

Lemma outside_support a s : isAddress a = true -> a ∉ support s -> GetBalance a s = 0.
Proof.
  intros Ha Hs. rewrite GetBalance_acct. cbn. rewrite lookObj_eq.
  destruct (stateObjects s !! a) as [o|] eqn:E.
  { apply elem_of_dom_2 in E. destruct Hs. unfold support. rewrite elem_of_filter. set_solver. }
  destruct (loadObject (trie s) a) as [o|] eqn:El; [|done].
  destruct Hs. unfold support. rewrite elem_of_filter. split; [done|]. apply elem_of_union_r, trie_addresses; [|by rewrite El].
  by apply isAddress_spec.
Qed.

(** The sum over any larger set of addresses. *)
Lemma totalBalance_over (X : gset Address) s :
  support s ⊆ X -> (forall a, a ∈ X -> isAddress a = true) ->
  totalBalance s = sumOver (fun a => GetBalance a s) (elements X).
Proof.
  intros Hsub Haddr. symmetry. apply sumOver_subset; [done|].
  intros a Ha Hs. apply outside_support; [by apply Haddr|done].
Qed.

Lemma totalBalance_change s s' a :
  isAddress a = true -> (forall b, b <> a -> GetBalance b s' = GetBalance b s) ->
  totalBalance s' = totalBalance s + (GetBalance a s' - GetBalance a s).
Proof.
  intros Ha Hb. set (X := support s ∪ support s' ∪ {[a]}).
  assert (HX : forall b, b ∈ X -> isAddress b = true).
  { intros b [[Hs|Hs]%elem_of_union| ->%elem_of_singleton]%elem_of_union; [by eapply support_address..|done]. }
  rewrite (totalBalance_over X s), (totalBalance_over X s') by (done || set_solver).
  apply (sumOver_one (fun b => GetBalance b s') (fun b => GetBalance b s)); [set_solver|].
  intros b _. apply Hb.
Qed.

Lemma totalBalance_same s s' :
  (forall b, GetBalance b s' = GetBalance b s) -> totalBalance s' = totalBalance s.
Proof. intros H. rewrite (totalBalance_change s s' 0); [|done|done]. rewrite H. lia. Qed.

#[export] Instance balanceLaws : BalanceLaws statedb.
Proof.
  refine {| supply := totalBalance |}.
  - intros s s' Heq%stateEq_view. apply totalBalance_same. apply (sv_balance _ _ Heq).
  - apply update_balance_law.
  - intros u s Hok Hu. pose proof (fun b => update_balance_law u b s Hok) as Hb.
    destruct u; cbn [updateAddress supplyAfter balanceAfter VmCore.GetBalance vmStateDB] in *;
      try (by apply totalBalance_same); apply isAddress_spec in Hu;
      (rewrite (totalBalance_change s _ a Hu);
       [rewrite Hb, Z.eqb_refl; lia|intros b Hne; rewrite Hb; destruct (Z.eqb_spec a b); congruence]).
Defined.

(** ** Static calls *)

(** Observations that differ at most in whether an account that holds nothing
    exists. *)
Lemma same_data s s' :
  (forall a, accountOr (abs s') a = accountOr (abs s) a) ->
  (forall a k, stor (abs s') a k = stor (abs s) a k) -> refund s' = refund s -> SameData s s'.
Proof.
  intros Ha Hs Hr.
  assert (Hv : forall A (f : View -> A) a, viewOr f (f freshView) a s' = viewOr f (f freshView) a s).
  { intros A f a. specialize (Ha a). unfold viewOr, accountOr in *.
    destruct (acct (abs s') a), (acct (abs s) a); cbn in *; congruence. }
  split; cbn; try done; intros a; destruct (getters_view a s) as (E1 & E2 & _ & E3 & _ & E4 & _),
    (getters_view a s') as (F1 & F2 & _ & F3 & _ & F4 & _);
    [rewrite E1, F1|rewrite E2, F2|rewrite E3, F3|rewrite E4, F4]; apply Hv.
Qed.

#[export] Instance staticLaws : StaticLaws statedb.
Proof.
  split.
  - intros a s Hok Hex. pose proof (update_spec (UCreateAccount a) s (so_deleted s Hok)) as [Ha Hs Hr _ _ _].
    assert (Hn : acct (abs s) a = None).
    { destruct (getters_view a s) as (_ & _ & _ & _ & _ & _ & E & _). cbn in Hex. rewrite E in Hex.
      unfold viewOr in Hex. by destruct (acct (abs s) a). }
    apply same_data; [| |done].
    + intros b. unfold accountOr at 1. rewrite Ha. cbn [specUpdate acct]. unfold accountOr.
      destruct (decide (b = a)) as [->|]; [by rewrite fn_lookup_insert, Hn|by rewrite fn_lookup_insert_ne].
    + intros b k. rewrite Hs. cbn [specUpdate stor].
      destruct (decide (b = a)) as [->|]; [|by rewrite fn_lookup_insert_ne]. rewrite fn_lookup_insert.
      cbn in Hn |- *. rewrite GetState_eq. by destruct (lookObj a s).
  - intros a s Hok. pose proof (update_spec (UAddBalance a 0) s (so_deleted s Hok)) as [Ha Hs Hr _ _ _].
    apply same_data; [|done|done]. intros b. unfold accountOr at 1. rewrite Ha.
    cbn [specUpdate setV acct]. rewrite Z.add_0_r, view_eta. unfold accountOr.
    destruct (decide (b = a)) as [->|]; [by rewrite fn_lookup_insert|by rewrite fn_lookup_insert_ne].
  - intros a s Hok. pose proof (update_spec (USubBalance a 0) s (so_deleted s Hok)) as [Ha Hs Hr _ _ _].
    apply same_data; [|done|done]. intros b. unfold accountOr at 1. rewrite Ha.
    cbn [specUpdate setV acct]. rewrite Z.sub_0_r, view_eta. unfold accountOr.
    destruct (decide (b = a)) as [->|]; [by rewrite fn_lookup_insert|by rewrite fn_lookup_insert_ne].
  - intros h b s Hok. pose proof (update_spec (UAddPreimage h b) s (so_deleted s Hok)) as [Ha Hs Hr _ _ _].
    apply same_data; [|done|done]. intros c. unfold accountOr. by rewrite Ha.
Defined.

(** ** Reading changes nothing *)

Lemma cacheWith_same f a s :
  (forall o, lookObj a s = Some o -> sameObj (db s) a o (f o) /\ deleted (f o) = false) ->
  ObsEq (abs (cacheWith f a s)) (abs s).
Proof.
  intros Hf. unfold cacheWith. destruct (getStateObject a s) as [r s1] eqn:E.
  apply getStateObject_spec in E as (Hr & Hl & Habs & _ & _ & Hdb & _).
  destruct r as [o|]; [|done]. destruct (Hf o (eq_sym Hr)) as [Hsame Hdel].
  etrans; [by apply abs_set|]. rewrite <- Hdb in Hsame. etrans; [by apply (setObj_id s1 a o)|done].
Qed.

Lemma caching_same a k s :
  ObsEq (abs (cacheObject a s)) (abs s) /\ ObsEq (abs (cacheCode a s)) (abs s) /\
  ObsEq (abs (cacheState a k s)) (abs s).
Proof.
  split_and!.
  - unfold cacheObject. destruct (getStateObject a s) as [r s1] eqn:E.
    by apply getStateObject_spec in E as (_ & _ & Habs & _).
  - apply cacheWith_same. intros o Ho. pose proof (lookObj_live _ _ _ Ho) as Hl.
    pose proof (so_Code_val (db s) a o) as Hc. pose proof (so_Code_cases a o s) as Hs.
    split; [split|by destruct Hs as [->|[[? ->]| ->]]].
    + unfold objView. rewrite (so_Code_val _ _ (snd _)).
      unfold so_Code, codeIn. destruct (oCode o) eqn:Eo; [cbn; by rewrite ?Eo|].
      destruct (_ =? _) eqn:E1; [cbn; by rewrite ?Eo, ?E1|].
      destruct (ContractCode _ _ _) eqn:E2; cbn; [done|]. by rewrite ?Eo, ?E1, ?E2.
    + intros k'. rewrite !so_GetState_val. unfold storVal, trieOf. by destruct Hs as [->|[[? ->]| ->]].
  - apply cacheWith_same. intros o Ho. by apply so_GetState_same.
Qed.

End Laws.
