(* ===== verification/StateSafety.v ===== *)
(** * Package core/state: the laws that safe execution relies on

    Codes stay under their hashes, the objects in order, and the refund counter a
    uint64. *)

From stdpp Require Import base numbers list gmap sets option functions sorting.
From Stdlib Require Import ZArith Lia Strings.Byte.
From S2P Require Import Prelude Common Types VmCore VmStateSpec State StateProofs StateLaws.
Import state.

Section Laws.
Context {CR : Crypto} {D T : Type} {DB : Database D T}.
Notation object := (stateObject T).
Notation statedb := (StateDB D T).

(** ** Order in the database *)

(** What is to be written is also cached, and of thirty-two bytes. *)
Definition cacheCovers (o : object) : Prop :=
  dirtyStorage o ⊆ cachedStorage o /\ map_Forall (fun k v => is_hash k /\ is_hash v) (cachedStorage o).
Definition liveObj (o : object) : Prop := deleted o = false /\ cacheCovers o.

Definition entryAddress (ch : journalEntry T) : Prop :=
  match ch with
  | resetObjectChange a prev => is_address a /\ cacheCovers prev
  | createObjectChange a | suicideChange a _ _ | balanceChange a _ | nonceChange a _
  | codeChange a _ _ | touchChange a _ _ => is_address a
  | storageChange a k v => is_address a /\ is_hash k /\ is_hash v
  | refundChange _ | addLogChange _ | addPreimageChange _ => True
  end.

(** Objects have addresses, dirty ones are there, deleted ones are dead or empty, and
    storage is written through the cache. *)
Record Tidy (s : statedb) : Prop := {
  ti_keys : forall a o, stateObjects s !! a = Some o -> is_address a;
  ti_dirty : forall a, a ∈ stateObjectsDirty s -> is_Some (stateObjects s !! a);
  ti_deleted : forall a o, stateObjects s !! a = Some o -> deleted o = true -> suicided o || empty o = true;
  ti_storage : forall a o, stateObjects s !! a = Some o -> cacheCovers o;
  ti_journal : Forall entryAddress (journal s)
}.

Lemma Tidy_empty s : stateObjects s = ∅ -> stateObjectsDirty s = ∅ -> journal s = [] -> Tidy s.
Proof.
  intros E1 E2 E3. split; rewrite ?E1, ?E2, ?E3; [intros a o|intros a Ha|intros a o|intros a o|by constructor];
    [by rewrite lookup_empty|by apply elem_of_empty in Ha|by rewrite lookup_empty|by rewrite lookup_empty].
Qed.

Lemma Tidy_set a o s : is_address a -> liveObj o -> Tidy s -> Tidy (setStateObject a o s).
Proof.
  intros Ha [Ho Hc] [H1 H2 H3 H5 H4]. split; cbn; try done.
  - intros b p [[-> _]|[_ Hb]]%lookup_insert_Some; [done|by eapply H1].
  - intros b Hb. destruct (decide (b = a)) as [->|]; [by rewrite lookup_insert_eq|]. rewrite lookup_insert_ne by done. by apply H2.
  - intros b p [[-> <-]|[_ Hb]]%lookup_insert_Some; [congruence|by eapply H3].
  - intros b p [[-> <-]|[_ Hb]]%lookup_insert_Some; [done|by eapply H5].
Qed.

Lemma Tidy_mark a o s : Tidy (setStateObject a o s) -> Tidy (setStateObject a o (MarkStateObjectDirty a s)).
Proof.
  intros [H1 H2 H3 H5 H4]. split; cbn in *; try done. intros b [->%elem_of_singleton|Hb]%elem_of_union; [by rewrite lookup_insert_eq|by apply H2].
Qed.

Lemma Tidy_put a o s : is_address a -> liveObj o -> Tidy s -> Tidy (putDirty a o s).
Proof.
  intros Ha Ho Hs. unfold putDirty, fireDirty. destruct (onDirty o); [|by apply Tidy_set].
  by apply Tidy_mark, Tidy_set.
Qed.

Lemma Tidy_append ch s : entryAddress ch -> Tidy s -> Tidy (append ch s).
Proof. intros Hc [H1 H2 H3 H5 H4]. split; cbn; try done. apply Forall_app. split; [done|by apply Forall_singleton]. Qed.

Lemma newObject_covers data b : cacheCovers (newObject data b).
Proof. split; [done|apply map_Forall_empty]. Qed.
Lemma loadObject_liveObj t a o : loadObject t a = Some o -> liveObj o.
Proof.
  intros E. split; [by eapply loadObject_live|]. unfold loadObject in E. destruct (TryGet _ _) as [[|b enc]|]; try done.
  destruct (decodeAccount _); [|done]. injection E as <-. apply newObject_covers.
Qed.

Lemma Tidy_cache a s r s' :
  getStateObject a s = (r, s') -> is_address a -> Tidy s -> Tidy s' /\ forall o, r = Some o -> liveObj o.
Proof.
  intros E Ha Hs. rewrite getStateObject_eq in E. destruct (stateObjects s !! a) as [o|] eqn:Eo.
  - injection E as <- <-. split; [done|]. destruct (deleted o) eqn:Ed; [done|]. intros p [= <-]. split; [done|by eapply ti_storage].
  - destruct (loadObject (trie s) a) as [o|] eqn:El; injection E as <- <-; [|done].
    assert (Ho : liveObj o) by (by eapply loadObject_liveObj). split; [by apply Tidy_set|]. by intros p [= <-].
Qed.

Lemma Tidy_createObject a s o prev s' :
  createObject a s = (o, prev, s') -> is_address a -> Tidy s -> Tidy s' /\ liveObj o.
Proof.
  unfold createObject. destruct (getStateObject a s) as [r s1] eqn:E. intros E' Ha Hs.
  destruct (Tidy_cache a s r s1 E Ha Hs) as [H1 Hr]. cbn [fireDirty onDirty newObject] in E'.
  injection E' as <- <- <-.
  assert (Hn : liveObj (o_with_onDirty false (newObject (mkAccount 0 0 0 0) true))) by (split; [done|apply newObject_covers]).
  split; [|done].
  set (ch := match r with None => _ | Some _ => _ end).
  change (Tidy (append ch (setStateObject a (o_with_onDirty false (newObject (mkAccount 0 0 0 0) true)) (MarkStateObjectDirty a s1)))).
  apply Tidy_append; [destruct r as [p|]; [split; [done|by apply Hr]|done]|].
  by apply Tidy_mark, Tidy_set.
Qed.

Lemma Tidy_GetOrNew a s o s' :
  GetOrNewStateObject a s = (o, s') -> is_address a -> Tidy s -> Tidy s' /\ liveObj o.
Proof.
  unfold GetOrNewStateObject. destruct (getStateObject a s) as [[p|] s1] eqn:E; intros E' Ha Hs;
    destruct (Tidy_cache a s _ s1 E Ha Hs) as [H1 H2].
  - injection E' as <- <-. split; [done|by apply H2].
  - destruct (createObject a s1) as [[q prev] s2] eqn:Ec. injection E' as <- <-. by eapply Tidy_createObject.
Qed.

(** The getters keep objects live. *)
Lemma covers_setError b o : cacheCovers o -> cacheCovers (setError b o).
Proof. done. Qed.
Lemma covers_cache k v o :
  cachedStorage o !! k = None -> is_hash k -> is_hash v -> cacheCovers o ->
  cacheCovers (o_with_cachedStorage (<[k := v]> (cachedStorage o)) o).
Proof.
  intros Hn Hk Hv [H1 H2]. split; cbn; [|by apply map_Forall_insert_2].
  etrans; [exact H1|by apply insert_subseteq].
Qed.
Lemma covers_write k v o :
  is_hash k -> is_hash v -> cacheCovers o ->
  cacheCovers (o_with_dirtyStorage (<[k := v]> (dirtyStorage o)) (o_with_cachedStorage (<[k := v]> (cachedStorage o)) o)).
Proof. intros Hk Hv [H1 H2]. split; cbn; [by apply insert_mono|by apply map_Forall_insert_2]. Qed.
Lemma so_GetState_live d a k o :
  is_hash k -> liveObj o -> is_hash (fst (so_GetState d a k o)) /\ liveObj (snd (so_GetState d a k o)).
Proof.
  intros Hk [Hd Hc]. unfold so_GetState, getTrie. destruct (cachedStorage o !! k) eqn:E; [split; [by eapply (proj2 Hc)|done]|].
  destruct (oTrie o) as [t|]; [|destruct (OpenStorageTrie d (addrHash a) (Root (oData o))) as [t|]];
    (destruct (TryGet _ _) as [[|b enc]|]; [| |done]; [|destruct (rlpSplit _)]); cbn [fst snd];
    (split; [first [done | apply BytesToHash_range]|split; [done|]]);
    match goal with |- cacheCovers (o_with_cachedStorage _ ?p) => apply (covers_cache k _ p) end; first [exact E | exact Hk | exact Hc | done | apply BytesToHash_range].
Qed.
Lemma so_Code_live d a o : liveObj o -> liveObj (snd (so_Code d a o)).
Proof. intros H. unfold so_Code. destruct (oCode o); [done|]. destruct (_ =? _); [done|]. by destruct (ContractCode _ _ _). Qed.

Lemma Tidy_update u s : updateAddress u -> Tidy s -> Tidy (runUpdate u s).
Proof.
  intros Hu Hs. destruct u; cbn [runUpdate VmCore.CreateAccount VmCore.SubBalance VmCore.AddBalance
    VmCore.SetNonce VmCore.SetCode VmCore.AddRefund VmCore.SetState VmCore.Suicide VmCore.AddLog
    VmCore.AddPreimage vmStateDB updateAddress] in *;
    try destruct Hu as (Hu & Hk & Hv);
    try (unfold SubBalance, AddBalance, SetNonce, SetCode, SetState;
      match goal with |- context [GetOrNewStateObject ?b s] =>
        destruct (GetOrNewStateObject b s) as [o s1] eqn:E; apply Tidy_GetOrNew in E as [H1 Hd]; [|done..] end).
  - unfold CreateAccount. destruct (createObject a s) as [[o prev] s1] eqn:E. apply Tidy_createObject in E as [H1 Hd]; [|done..].
    destruct prev; [by apply Tidy_put|done].
  - unfold so_SubBalance. destruct (x =? 0); [done|]. by apply Tidy_put, Tidy_append.
  - unfold so_AddBalance. destruct (x =? 0); [destruct (empty o); [|done]|]; by apply Tidy_put, Tidy_append.
  - by apply Tidy_put, Tidy_append.
  - unfold so_SetCode. pose proof (so_Code_live (db s1) a o Hd) as Hc. destruct (so_Code (db s1) a o) as [p o1]. cbn in Hc.
    by apply Tidy_put, Tidy_append.
  - destruct Hs as [H1 H2 H3 H5 H4]. split; cbn; try done. apply Forall_app. by split; [|apply Forall_singleton].
  - unfold so_SetState. destruct (so_GetState_live (db s1) a k o Hk Hd) as [Hp [Hc Hl]]. destruct (so_GetState (db s1) a k o) as [p o1]. cbn in Hp, Hc, Hl.
    apply Tidy_put; [done|split; [done|by apply covers_write]|by apply Tidy_append].
  - unfold Suicide. destruct (getStateObject a s) as [[o|] s1] eqn:E; apply Tidy_cache in E as [H1 Hd]; try done.
    cbn [snd]. apply Tidy_put; [done|exact (Hd o eq_refl)|by apply Tidy_append].
  - destruct Hs as [H1 H2 H3 H5 H4]. split; cbn; try done. apply Forall_app. by split; [|apply Forall_singleton].
  - unfold AddPreimage. destruct (preimages s !! h); [done|]. destruct Hs as [H1 H2 H3 H5 H4]. split; cbn; try done.
    apply Forall_app. by split; [|apply Forall_singleton].
Qed.

(** ** Undoing keeps the order *)

Lemma Tidy_fields s s' :
  stateObjects s' = stateObjects s -> stateObjectsDirty s' ⊆ stateObjectsDirty s -> journal s' = journal s -> Tidy s -> Tidy s'.
Proof. intros E1 E2 E3 [H1 H2 H3 H5 H4]. split; rewrite ?E1, ?E3; try done. intros a Ha. by apply H2, E2. Qed.

Lemma Tidy_undo ch s s' :
  entryOk (trie s) ch -> entryAddress ch -> undo ch s = Some s' -> Tidy s -> Tidy s'.
Proof.
  intros Hok Hch E Hs.
  assert (Hon : forall a f, is_address a -> (forall o s1, Tidy s1 -> liveObj o -> Tidy (f o s1)) ->
    onObject a f s = Some s' -> Tidy s').
  { intros a f Ha Hf. unfold onObject. destruct (getStateObject a s) as [[o|] s1] eqn:Eg; [|done].
    destruct (Tidy_cache a s _ s1 Eg Ha Hs) as [H1 H2]. intros [= <-]. by apply Hf, H2. }
  destruct ch; cbn [undo entryAddress entryOk] in *;
    try destruct Hch as (Hch & Hk & Hv);
    try (eapply Hon; [exact Hch| |exact E]; intros o s1 H1 Hd;
         (apply Tidy_put; [exact Hch|first [exact Hd | split; [apply Hd|by apply covers_write, Hd]]|exact H1])).
  - injection E as <-. destruct Hs as [H1 H2 H3 H5 H4]. split; cbn; try done.
    + intros b o [_ Hb]%lookup_delete_Some. by eapply H1.
    + intros b [Hb Hne]%elem_of_difference. rewrite lookup_delete_ne by set_solver. by apply H2.
    + intros b o [_ Hb]%lookup_delete_Some. by eapply H3.
    + intros b o [_ Hb]%lookup_delete_Some. by eapply H5.
  - injection E as <-. destruct Hch. apply Tidy_set; [done|split; [apply Hok|done]|done].
  - destruct (getStateObject account s) as [[o|] s1] eqn:Eg; destruct (Tidy_cache _ _ _ _ Eg Hch Hs) as [H1 H2]; injection E as <-; [|done].
    apply Tidy_put; [done|exact (H2 o eq_refl)|done].
  - injection E as <-. apply (Tidy_fields s); [done|set_solver|done|done].
  - destruct (default [] (logs s !! txhash)) as [|l [|l' ls]]; [done|..]; injection E as <-; (apply (Tidy_fields s); [done|set_solver|done|done]).
  - injection E as <-. apply (Tidy_fields s); [done|set_solver|done|done].
  - destruct (_ && _); [|by injection E as <-]. eapply Hon; [exact Hch| |exact E]. intros o s1 H1 Hd. cbn.
    pose proof (Tidy_set account (o_with_touched prev o) s1 Hch Hd H1) as H2. destruct prevDirty; [done|].
    eapply Tidy_fields; [..|exact H2]; cbn; [done|set_solver|done].
Qed.

Lemma Tidy_undoAll js s s' :
  Forall (entryOk (trie s)) js -> Forall entryAddress js -> undoAll js s = Some s' -> Tidy s -> Tidy s'.
Proof.
  revert s'. induction js as [|ch js IH]; intros s' Hok Ha E Hs; cbn in E; [by injection E as <-|]. fold (undoAll js s) in E.
  pose proof (undoAll_obs js s (Forall_inv_tail Hok)) as Ho. destruct (undoAll js s) as [s1|] eqn:E1; [|done].
  eapply Tidy_undo; [|by eapply Forall_inv|exact E|].
  - rewrite (fr_trie _ _ (proj1 Ho)). by eapply Forall_inv.
  - apply IH; [by eapply Forall_inv_tail..|done|done].
Qed.

Lemma Tidy_revert s id s' : StateOk s -> RevertToSnapshot id s = Some s' -> Tidy s -> Tidy s'.
Proof.
  intros Hok E Hs. unfold RevertToSnapshot in E. destruct (_ !! search _ _) as [r|]; [|done]. destruct (_ =? _); [|done].
  destruct (undoAll _ s) as [s1|] eqn:Eu; [|done]. injection E as <-.
  assert (H1 : Tidy s1).
  { eapply Tidy_undoAll; [| |exact Eu|done]; apply Forall_drop; [apply Hok|apply Hs]. }
  destruct H1 as [A B C G F]. split; cbn; try done. by apply Forall_take.
Qed.

Context {DL : DatabaseLaws}.

(** ** Codes *)

Lemma CodeOk_view s :
  CodeOk s <-> forall a v, is_address a -> acct (abs s) a = Some v ->
    small (vCode v) /\ (vCode v <> [] -> vCodeHash v = Keccak256 (vCode v)).
Proof.
  assert (Hg : forall a, VmCore.GetCode a s = viewOr vCode [] a s /\ VmCore.GetCodeHash a s = viewOr vCodeHash 0 a s /\
    VmCore.GetCodeSize a s = viewOr (fun v => Z.of_nat (length (vCode v))) 0 a s)
    by (intros a; pose proof (getters_view a s); tauto).
  split.
  - intros H a v Haa Hv. destruct (H a Haa) as (H1 & _ & H3). destruct (Hg a) as (E1 & E2 & _).
    unfold viewOr in E1, E2. rewrite Hv in E1, E2. by rewrite E1, E2 in *.
  - intros H a Haa. destruct (Hg a) as (E1 & E2 & E3). unfold viewOr in E1, E2, E3.
    destruct (acct (abs s) a) as [v|] eqn:Ev; rewrite E1, E2, E3; [|by split_and!].
    destruct (H a v Haa Ev). by split_and!.
Qed.

(** The specification changes a code only where it says so. *)
Lemma specUpdate_code th bh ti u x a v :
  acct (specUpdate th bh ti u x) a = Some v ->
  vCode v = [] \/ (exists code, u = USetCode a code /\ vCode v = code /\ vCodeHash v = Keccak256 code) \/
  exists w, acct x a = Some w /\ vCode v = vCode w /\ vCodeHash v = vCodeHash w.
Proof.
  assert (Hor : forall b (f : View -> View), (forall w, vCode (f w) = vCode w /\ vCodeHash (f w) = vCodeHash w) ->
    acct (setV b (f (accountOr x b)) x) a = Some v ->
    vCode v = [] \/ exists w, acct x a = Some w /\ vCode v = vCode w /\ vCodeHash v = vCodeHash w).
  { intros b f Hf. cbn. destruct (decide (a = b)) as [->|Hb].
    - rewrite fn_lookup_insert. intros [= <-]. destruct (Hf (accountOr x b)) as [-> ->].
      unfold accountOr. destruct (acct x b) as [w|]; [|by left]. right. by exists w.
    - rewrite fn_lookup_insert_ne by done. intros Ha. right. by exists v. }
  destruct u as [b|b c|b c|b n|b code|g|b k w|b|l|h p]; cbn [specUpdate acct]; intros Ha;
    try (right; right; by exists v).
  - destruct (decide (a = b)) as [->|Hb]; [rewrite fn_lookup_insert in Ha|rewrite fn_lookup_insert_ne in Ha by done].
    + injection Ha as <-. by left.
    + right; right. by exists v.
  - apply (Hor b (fun w => mkView (vNonce w) (vBalance w - c) (vCodeHash w) (vCode w) (vSuicided w))) in Ha; [tauto|done].
  - apply (Hor b (fun w => mkView (vNonce w) (vBalance w + c) (vCodeHash w) (vCode w) (vSuicided w))) in Ha; [tauto|done].
  - apply (Hor b (fun w => mkView n (vBalance w) (vCodeHash w) (vCode w) (vSuicided w))) in Ha; [tauto|done].
  - cbn in Ha. destruct (decide (a = b)) as [->|Hb];
      [rewrite fn_lookup_insert in Ha|rewrite fn_lookup_insert_ne in Ha by done].
    + injection Ha as <-. right; left. by exists code.
    + right; right. by exists v.
  - destruct (Hor b (fun w => w)) as [|]; [done|exact Ha|by left|by right; right].
  - destruct (acct x b) as [w|] eqn:Eb; [|right; right; by exists v]. cbn in Ha.
    destruct (decide (a = b)) as [->|Hb];
      [rewrite fn_lookup_insert in Ha|rewrite fn_lookup_insert_ne in Ha by done]; right; right.
    + injection Ha as <-. by exists w.
    + by exists v.
Qed.

(** The account trie stays what it is until the state is finalised. *)
Lemma update_trie u s : StateOk s -> trie (runUpdate u s) = trie s.
Proof. intros Hok. apply (step_trie _ _ (update_Step u s (so_deleted s Hok))). Qed.
Lemma revert_trie s id s' : StateOk s -> RevertToSnapshot id s = Some s' -> trie s' = trie s.
Proof.
  intros Hok E. destruct (Revert_inv _ _ _ E) as (n & r & Hn & Hid). pose proof (revert_obs s id n r Hok Hn Hid) as H.
  rewrite E in H. apply H.
Qed.

(** The laws with a promise [P] about the account trie. *)
Definition safetyLawsOn (P : T -> Prop) : SafetyLaws statedb.
Proof.
  refine {| tidy := fun s => Tidy s /\ P (trie s) |}.
  - intros s a Hok Hpos Ha. cbn. apply isAddress_spec in Ha.
    pose proof (totalBalance_over ({[a]} ∪ support s) s) as ->; [|set_solver|].
    + rewrite (sumOver_split _ a) by set_solver.
      match goal with |- ?x <= ?y + ?z => enough (0 <= z) by lia end.
      apply sumOver_nonneg. intros b Hb%elem_of_elements. apply Hpos, isAddress_spec.
      apply elem_of_difference in Hb as [[->%elem_of_singleton|Hb]%elem_of_union _]; [done|].
      by eapply support_address.
    + intros b [->%elem_of_singleton|Hb]%elem_of_union; [done|by eapply support_address].
  - intros u s Hok Hc Hu. rewrite CodeOk_view in *. intros a v Haa Hv.
    pose proof (update_spec u s (so_deleted s Hok)) as [Ha _ _ _ _ _]. rewrite Ha in Hv.
    apply specUpdate_code in Hv as [E|[(code & -> & E1 & E2)|(w & Hw & E1 & E2)]].
    + by rewrite E.
    + rewrite E1, E2. split; [by eapply Hu|done].
    + rewrite E1, E2. by apply (Hc a).
  - intros u s Hok Hu [Ht HP]. split; [by apply Tidy_update|by rewrite update_trie].
  - intros s id s' _ [= <- <-] [Ht HP]. split; [|done]. by apply (Tidy_fields s); [done|set_solver|done|].
  - intros s id s' Hok E [Ht HP]. split; [exact (Tidy_revert s id s' Hok E Ht)|by rewrite (revert_trie s id s' Hok E)].
Defined.

#[export] Instance safetyLaws : SafetyLaws statedb := safetyLawsOn (fun _ => True).

#[export] Instance refundLaws : RefundLaws statedb.
Proof.
  split. intros u s Hok Hr. pose proof (eq_refund _ _ (update_spec u s (so_deleted s Hok))) as E.
  change (is_u64 (refund (runUpdate u s))). cbn [abs oRefund] in E. rewrite E. cbn in Hr.
  destruct u; cbn [specUpdate oRefund abs setV]; try done; [apply u64_range|]. by destruct (acct _ a).
Qed.

End Laws.
