(* ===== verification/StateFinalise.v ===== *)
(** * Package core/state: finalising

    [Finalise] writes the dirty accounts to the account trie, through their storage
    tries, and removes the dead ones.  What can be observed of the other accounts stays
    as it was.  Proved against what the package relies on in its tries ([TrieLaws]).

    The tries find their keys by hash, so an account is only safe from the writes to
    others when their hashes differ.  That is asked for where it matters and not of all
    keys at once: no other address has the hash of a dirty address ([AddressApart]),
    and no dirty slot of an account has the hash of the slot looked at ([SlotApart]). *)

From stdpp Require Import base numbers list gmap sets option functions sorting.
From Stdlib Require Import ZArith Lia Strings.Byte.
From S2P Require Import Prelude Rlp RlpStream RlpProofs RlpStreamProofs RlpDecodeProofs RlpTypeProofs RlpRawProofs Common Types VmCore VmStateSpec State StateProofs StateLaws StateSafety.
Import state.

(** ** What the package relies on *)

(** A trie is a map; its keys are hashed.  Operations may fail on a trie whose nodes are
    not all in the store. *)
Class TrieLaws {CR : Crypto} {D T : Type} {DB : Database D T} := {
  whole : T -> Prop;
  update_whole : forall t k v, whole t -> v <> [] -> exists t', TryUpdate t k v = Some t' /\ whole t';
  delete_whole : forall t k, whole t -> exists t', TryDelete t k = Some t' /\ whole t';
  get_update : forall t k v t', v <> [] -> TryUpdate t k v = Some t' -> TryGet t' k = Some v;
  get_delete : forall t k t', TryDelete t k = Some t' -> TryGet t' k = Some [];
  update_other : forall t k v t' k', TryUpdate t k v = Some t' -> Keccak256 k <> Keccak256 k' -> TryGet t' k' = TryGet t k';
  delete_other : forall t k t' k', TryDelete t k = Some t' -> Keccak256 k <> Keccak256 k' -> TryGet t' k' = TryGet t k'
}.

(** No other address has the hash of this one. *)
Definition AddressApart {CR : Crypto} (a : Address) : Prop :=
  forall b, is_address b -> Keccak256 (AddressBytes a) = Keccak256 (AddressBytes b) -> a = b.

(** ** Accounts as the trie keeps them *)

Lemma HashBytes_length h : length (HashBytes h) = 32%nat.
Proof. apply length_be_bytes. Qed.

(** An account has an encoding, and it decodes to the account. *)
Lemma account_roundtrip a :
  0 <= Balance a < 2 ^ 256 ->
  exists b, EncodeToBytes (accountRLP a) = Ok b /\ b <> [] /\
    decodeAccount b = Some (mkAccount (u64 (Nonce a)) (Balance a) (Root a mod 2 ^ 256) (CodeHash a mod 2 ^ 256)).
Proof.
  intros Hb. pose proof (u64_range (Nonce a)) as Hn. unfold is_u64 in Hn.
  destruct (decode_bytes accountType (accountRLP a)) as (E1 & E2).
  - done.
  - unfold accountType, accountRLP, rHash. cbn [hasType]. rewrite !HashBytes_length. cbn.
    destruct (Z.leb_spec 0 (u64 (Nonce a))), (Z.ltb_spec (u64 (Nonce a)) (2 ^ 64)), (Z.leb_spec 0 (Balance a)); lia || done.
  - unfold accountRLP, rHash. cbn [rlpSize foldr from_option id]. rewrite !HashBytes_length.
    pose proof (big_bytes_length (Balance a) 32 ltac:(change (256 ^ 32) with (2 ^ 256); lia) ltac:(lia)). lia.
  - exists (rlpBytes (accountRLP a)). split_and!; [done| |].
    + cbn [rlpBytes accountRLP]. unfold encList, puthead. by destruct (_ <? _).
    + unfold decodeAccount. rewrite E2. unfold accountRLP, rHash. do 2 f_equal; unfold BytesToHash;
        rewrite setBytes_value by done; unfold HashBytes; rewrite be_value_be_bytes, Z.mod_mod; done.
Qed.

Section Finalise.
Context {CR : Crypto} {D T : Type} {DB : Database D T} {DL : DatabaseLaws} {TL : TrieLaws}.
Notation object := (stateObject T).
Notation statedb := (StateDB D T).

(** ** Storage tries *)

(** What writing the storage leaves alone. *)
Record SameCore (o o' : object) : Prop := {
  sc_nonce : Nonce (oData o') = Nonce (oData o);
  sc_balance : Balance (oData o') = Balance (oData o);
  sc_hash : CodeHash (oData o') = CodeHash (oData o);
  sc_code : oCode o' = oCode o;
  sc_cached : cachedStorage o' = cachedStorage o;
  sc_suicided : suicided o' = suicided o;
  sc_deleted : deleted o' = deleted o
}.

#[local] Instance SameCore_preorder : PreOrder SameCore.
Proof. split; [intros o; by split|]. intros o1 o2 o3 [] []. split; congruence. Qed.

Lemma getTrie_spec d a o t o' :
  getTrie d a o = (t, o') -> t = trieOf d a o /\ SameCore o o' /\ dirtyStorage o' = dirtyStorage o.
Proof.
  unfold getTrie, trieOf. destruct (oTrie o); [by intros [= <- <-]|].
  destruct (OpenStorageTrie _ _ _); intros [= <- <-]; (split_and!; [done|by split|done]).
Qed.

(** The bytes of a storage slot in the trie; zero is no entry. *)
Definition slotBytes (v : Hash) : list byte := if EmptyHash v then [] else rlpEncode (RBytes (big_bytes v)).

(** No other slot that is about to be written has the hash of this one. *)
Definition slotApart (o : object) (k : Hash) : Prop :=
  forall k' v, dirtyStorage o !! k' = Some v -> Keccak256 (HashBytes k') = Keccak256 (HashBytes k) -> k' = k.

#[local] Transparent rlpEncode.
Lemma slot_encoded v : is_hash v -> rlpEncode (RBytes (big_bytes v)) <> [].
Proof.
  intros Hv. unfold is_hash in Hv. pose proof (big_bytes_length v 32 ltac:(change (256 ^ 32) with (2 ^ 256); lia) ltac:(lia)).
  unfold rlpEncode. destruct (decode_bytes TBytes (RBytes (big_bytes v))) as [-> _]; [done|done|cbn; lia|].
  cbn [rlpBytes]. unfold encString, puthead. repeat case_match; done.
Qed.
#[local] Opaque rlpEncode.

Lemma updateEntry_spec t o k v t' o' :
  updateEntry t o k v = (t', o') ->
  SameCore o o' /\ dirtyStorage o' = delete k (dirtyStorage o) /\
  (forall k', Keccak256 (HashBytes k) <> Keccak256 (HashBytes k') -> TryGet t' (HashBytes k') = TryGet t (HashBytes k')) /\
  (whole t -> is_hash v -> whole t' /\ TryGet t' (HashBytes k) = Some (slotBytes v)).
Proof.
  unfold updateEntry, slotBytes. intros E.
  assert (Ho : SameCore o o' /\ dirtyStorage o' = delete k (dirtyStorage o)).
  { destruct (if EmptyHash v then _ else _); injection E as <- <-; split; [by split|done|by split|done]. }
  split_and!; [apply Ho..| |].
  - intros k' Hh. destruct (EmptyHash v); [destruct (TryDelete _ _) eqn:Et|destruct (TryUpdate _ _ _) eqn:Et];
      injection E as <- <-; [by eapply delete_other|done|by eapply update_other|done].
  - intros Hw Hv. destruct (EmptyHash v).
    + destruct (delete_whole t (HashBytes k) Hw) as (t1 & Et & Hw1). rewrite Et in E. injection E as <- <-.
      split; [done|by eapply get_delete].
    + destruct (update_whole t (HashBytes k) _ Hw (slot_encoded v Hv)) as (t1 & Et & Hw1). rewrite Et in E.
      injection E as <- <-. split; [done|]. eapply get_update; [by apply slot_encoded|done].
Qed.

Lemma updateEntries_spec l t o t' o' :
  foldl (fun '(t, o) '(k, v) => updateEntry t o k v) (t, o) l = (t', o') ->
  SameCore o o' /\ dirtyStorage o' = foldl (fun m kv => delete kv.1 m) (dirtyStorage o) l /\
  (forall k, (forall k', k' ∈ l.*1 -> Keccak256 (HashBytes k') <> Keccak256 (HashBytes k)) ->
     TryGet t' (HashBytes k) = TryGet t (HashBytes k)) /\
  (whole t -> NoDup l.*1 -> Forall (fun kv => is_hash kv.2) l -> forall k v, (k, v) ∈ l ->
     (forall k', k' ∈ l.*1 -> Keccak256 (HashBytes k') = Keccak256 (HashBytes k) -> k' = k) ->
     TryGet t' (HashBytes k) = Some (slotBytes v)).
Proof.
  revert t o. induction l as [|[k v] l IH]; intros t o E; cbn [foldl] in E.
  { injection E as <- <-. split_and!; try done. by intros _ _ _ k v ?%elem_of_nil. }
  destruct (updateEntry t o k v) as [t1 o1] eqn:E1. apply updateEntry_spec in E1 as (H1 & H2 & H3 & H4).
  apply IH in E as (I1 & I2 & I3 & I4). split_and!.
  - by etrans.
  - cbn [foldl fst]. by rewrite <- H2.
  - intros k' Hk'. rewrite I3, H3; [done| |]; intros; apply Hk'; cbn [fmap list_fmap fst]; set_solver.
  - intros Hw [Hn Hnd]%list.NoDup_cons [Hv Hl]%list.Forall_cons k' v' Hin Hap. destruct (H4 Hw Hv) as [Hw1 Hg].
    apply elem_of_cons in Hin as [[= -> ->]|Hin].
    + rewrite I3; [done|]. intros k' Hk' Hh. apply Hn. rewrite <- (Hap k'); [done|cbn; set_solver|done].
    + apply I4; try done. intros k2 Hk2. apply Hap. cbn. set_solver.
Qed.

Lemma delete_all (m : gmap Hash Hash) l : foldl (fun m (kv : Hash * Hash) => delete kv.1 m) m l ⊆ m.
Proof. revert m. induction l as [|kv l IH]; intros m; cbn [foldl]; [done|]. etrans; [apply IH|apply delete_subseteq]. Qed.

(** What writing an object's storage leaves: the storage looks the same, the trie holds
    what was dirty, and its hash is the root. *)
Record RootOk (d : D) (a : Address) (o o' : object) : Prop := {
  ro_core : SameCore o o';
  ro_covers : cacheCovers o';
  ro_dirty : dirtyStorage o' ⊆ dirtyStorage o;
  ro_storage : forall k, slotApart o k -> storVal d a k o' = storVal d a k o;
  ro_root : exists t, oTrie o' = Some t /\ Root (oData o') = TrieHash t /\
    (whole (trieOf d a o) -> forall k v, dirtyStorage o !! k = Some v -> slotApart o k ->
       TryGet t (HashBytes k) = Some (slotBytes v))
}.

Lemma updateRoot_spec d a o : cacheCovers o -> RootOk d a o (updateRoot d a o).
Proof.
  intros [Hc Hh]. unfold updateRoot, updateTrie.
  destruct (getTrie d a o) as [t o1] eqn:E1. apply getTrie_spec in E1 as (-> & H1 & H2).
  destruct (foldl _ _ _) as [t' o2] eqn:E2. apply updateEntries_spec in E2 as (I1 & I2 & I3 & I4). rewrite H2 in *.
  assert (Hl : forall k, k ∈ (map_to_list (dirtyStorage o)).*1 <-> is_Some (dirtyStorage o !! k)).
  { intros k. rewrite list_elem_of_fmap. split; [intros ([k' v] & -> & Hv%elem_of_map_to_list); by eexists|].
    intros [v Hv]. exists (k, v). by rewrite elem_of_map_to_list. }
  cbv zeta. assert (Hs : SameCore o o2) by (by etrans).
  split; [by destruct Hs; split| | | |].
  - split; cbn; rewrite (sc_cached _ _ Hs); [|done]. rewrite I2. etrans; [apply delete_all|done].
  - cbn. rewrite I2. apply delete_all.
  - intros k Hk. unfold storVal, trieOf. cbn. rewrite (sc_cached _ _ Hs). destruct (cachedStorage o !! k) eqn:Ek; [done|].
    unfold valueIn. rewrite I3; [done|]. intros k' [v Hv]%Hl E. apply (Hk k' v Hv) in E as ->.
    by rewrite (lookup_weaken _ _ _ _ Hv Hc) in Ek.
  - exists t'. split_and!; [done|done|]. intros Hw k v Hv Hk. apply I4; [done|apply NoDup_fst_map_to_list| |by apply elem_of_map_to_list|].
    { apply Forall_forall. intros [k0 v0] Hin%elem_of_map_to_list. by apply (map_Forall_lookup_1 _ _ k0 v0 Hh), (lookup_weaken _ _ _ _ Hin). }
    intros k' [v' Hv']%Hl. by apply (Hk k' v').
Qed.

(** ** Rounds *)

(** With or without the removal of empty accounts. *)
Context (del : bool).

(** Between rounds: what a round relies on.  The last clause is about calls with different
    flags: without the removal of empty accounts, those removed before have ended. *)
Record FinInv (s : statedb) : Prop := {
  fi_deleted : DeletedOk s;
  fi_tidy : Tidy s;
  fi_whole : whole (trie s);
  fi_balance : forall a, is_address a -> 0 <= GetBalance a s < 2 ^ 256;
  fi_apart : forall a, a ∈ stateObjectsDirty s -> AddressApart a;
  fi_ended : del = false -> forall a o, stateObjects s !! a = Some o -> deleted o = true -> suicided o = true
}.

(** The fields that rounds leave alone. *)
Record FinFrame (s s' : statedb) : Prop := {
  ff_db : db s' = db s;
  ff_dirty : stateObjectsDirty s' = stateObjectsDirty s;
  ff_refund : refund s' = refund s;
  ff_tx : thash s' = thash s /\ bhash s' = bhash s /\ txIndex s' = txIndex s;
  ff_logs : logs s' = logs s /\ logSize s' = logSize s;
  ff_preimages : preimages s' = preimages s;
  ff_next : nextRevisionId s' = nextRevisionId s
}.

(** An account that finalising removes. *)
Definition dead (s : statedb) (a : Address) : bool :=
  match stateObjects s !! a with Some o => suicided o || (del && empty o) | None => false end.

(** No slot of the account that is about to be written has the hash of another slot. *)
Definition SlotApart (s : statedb) (a : Address) (k : Hash) : Prop :=
  forall o, stateObjects s !! a = Some o -> slotApart o k.

(** The accounts but the removed ones, and their storage, look the same. *)
Definition Removes (gone : Address -> Prop) (s s' : statedb) : Prop :=
  forall a, is_address a ->
    (gone a -> acct (abs s') a = None) /\
    (~ gone a -> acct (abs s') a = acct (abs s) a /\ forall k, SlotApart s a k -> GetState a k s' = GetState a k s).

(** The account is in the account trie, with the root of a storage trie that holds the
    slots that were dirty. *)
Definition Stored (s s' : statedb) (a : Address) : Prop :=
  exists o o' t enc, stateObjects s !! a = Some o /\ stateObjects s' !! a = Some o' /\
    TryGet (trie s') (AddressBytes a) = Some enc /\ EncodeToBytes (accountRLP (oData o')) = Ok enc /\
    oTrie o' = Some t /\ Root (oData o') = TrieHash t /\
    (whole (trieOf (db s) a o) -> forall k v, dirtyStorage o !! k = Some v -> slotApart o k ->
       TryGet t (HashBytes k) = Some (slotBytes v)).

Lemma loadObject_get t t' a : TryGet t' (AddressBytes a) = TryGet t (AddressBytes a) -> loadObject t' a = loadObject t a.
Proof. unfold loadObject. by intros ->. Qed.

(** Writing one account to the map and to the trie. *)
Lemma put_spec s a o' t' :
  FinInv s -> is_address a -> is_Some (stateObjects s !! a) -> cacheCovers o' -> whole t' ->
  (deleted o' = true -> suicided o' || empty o' = true /\ loadObject t' a = None) ->
  (forall b, is_address b -> b <> a -> TryGet t' (AddressBytes b) = TryGet (trie s) (AddressBytes b)) ->
  let s' := with_trie t' (setStateObject a o' s) in
  DeletedOk s' /\ Tidy s' /\ (forall b, is_address b -> b <> a -> lookObj b s' = lookObj b s) /\
  lookObj a s' = if deleted o' then None else Some o'.
Proof.
  intros [Hd [T1 T2 T3 T4 T5] _ _ _ _] Ha Ho Hc Hw Hdel Hother s'. split_and!.
  - intros b p. cbn. intros [[-> <-]|[Hne Hb]]%lookup_insert_Some; [apply Hdel|]. intros Hp.
    rewrite (loadObject_get (trie s)); [by eapply Hd|]. apply Hother; [by eapply T1|done].
  - split; cbn; try done.
    + intros b p [[-> _]|[_ Hb]]%lookup_insert_Some; [done|by eapply T1].
    + intros b Hb%T2. destruct (decide (b = a)) as [->|]; [by rewrite lookup_insert_eq|by rewrite lookup_insert_ne].
    + intros b p [[-> <-]|[_ Hb]]%lookup_insert_Some; [intros Hp; by apply Hdel|by eapply T3].
    + intros b p [[-> <-]|[_ Hb]]%lookup_insert_Some; [done|by eapply T4].
  - intros b Hb Hne. rewrite !lookObj_eq. cbn. rewrite lookup_insert_ne by done.
    destruct (stateObjects s !! b); [done|]. by apply loadObject_get, Hother.
  - rewrite lookObj_eq. cbn. by rewrite lookup_insert_eq.
Qed.

(** Rounds on the accounts of a list: the dead ones are removed, the others written. *)
Record RoundOk (s s' : statedb) (l : list Address) : Prop := {
  rd_frame : FinFrame s s';
  rd_deleted : DeletedOk s';
  rd_tidy : Tidy s';
  rd_whole : whole (trie s');
  rd_removes : Removes (fun b => b ∈ l /\ dead s b = true) s s';
  rd_dead : forall b, dead s' b = dead s b;
  rd_slots : forall b k, SlotApart s b k -> SlotApart s' b k;
  rd_ended : del = false -> forall a o, stateObjects s' !! a = Some o -> deleted o = true -> suicided o = true;
  rd_others : forall b, b ∉ l -> stateObjects s' !! b = stateObjects s !! b /\
    (is_address b -> TryGet (trie s') (AddressBytes b) = TryGet (trie s) (AddressBytes b));
  rd_done : forall b, b ∈ l -> if dead s b then TryGet (trie s') (AddressBytes b) = Some [] else Stored s s' b
}.

Lemma dead_put s a o o' t' :
  stateObjects s !! a = Some o -> suicided o' || (del && empty o') = suicided o || (del && empty o) ->
  forall b, dead (with_trie t' (setStateObject a o' s)) b = dead s b.
Proof.
  intros Ho E b. unfold dead. cbn. destruct (decide (b = a)) as [->|]; [by rewrite lookup_insert_eq, Ho|by rewrite lookup_insert_ne].
Qed.

Lemma slots_put s a o o' t' :
  stateObjects s !! a = Some o -> dirtyStorage o' ⊆ dirtyStorage o ->
  forall b k, SlotApart s b k -> SlotApart (with_trie t' (setStateObject a o' s)) b k.
Proof.
  intros Ho E b k Hk p. cbn. intros [[-> <-]|[_ Hb]]%lookup_insert_Some; [|by apply Hk].
  intros k' v Hv. by eapply (Hk o Ho), lookup_weaken.
Qed.

Lemma others_put (s : statedb) a o' t' :
  (forall b, is_address b -> b <> a -> TryGet t' (AddressBytes b) = TryGet (trie s) (AddressBytes b)) ->
  forall b, b ∉ [a] -> stateObjects (with_trie t' (setStateObject a o' s)) !! b = stateObjects s !! b /\
    (is_address b -> TryGet t' (AddressBytes b) = TryGet (trie s) (AddressBytes b)).
Proof. intros Ht b Hb%not_elem_of_cons. cbn. rewrite lookup_insert_ne by naive_solver. split; [done|]. intros. by apply Ht; [|apply Hb]. Qed.

Lemma ended_put s a o' t' :
  FinInv s -> (del = false -> deleted o' = true -> suicided o' = true) ->
  del = false -> forall b o, stateObjects (with_trie t' (setStateObject a o' s)) !! b = Some o -> deleted o = true -> suicided o = true.
Proof. intros Hs Ho Hd b o. cbn. intros [[-> <-]|[_ Hb]]%lookup_insert_Some; [by apply Ho|by apply (fi_ended s Hs Hd b)]. Qed.

Lemma finaliseOne_dead s a o :
  FinInv s -> a ∈ stateObjectsDirty s -> stateObjects s !! a = Some o -> suicided o || (del && empty o) = true ->
  RoundOk s (deleteStateObject a o s) [a].
Proof.
  intros Hs Hdirty Ho Edead. pose proof (ti_keys s (fi_tidy s Hs) a o Ho) as Ha.
  destruct (delete_whole (trie s) (AddressBytes a) (fi_whole s Hs)) as (t' & Et & Hw').
  set (o' := o_with_deleted true o). unfold deleteStateObject. rewrite Et.
  change (RoundOk s (with_trie t' (setStateObject a o' s)) [a]).
  assert (Ht : forall b, is_address b -> b <> a -> TryGet t' (AddressBytes b) = TryGet (trie s) (AddressBytes b)).
  { intros b Hb Hne. eapply delete_other; [done|]. intros E. by apply Hne, eq_sym, (fi_apart s Hs a Hdirty). }
  destruct (put_spec s a o' t' Hs Ha ltac:(by eexists) (ti_storage s (fi_tidy s Hs) a o Ho) Hw') as (P1 & P2 & P3 & P4); [|done|].
  { intros _. split; [|unfold loadObject; by rewrite (get_delete _ _ _ Et)]. change (suicided o || empty o = true).
    destruct (suicided o); [done|]. by destruct del. }
  split; try done; [|by apply (dead_put s a o)|by apply (slots_put s a o)| |by apply others_put|].
  - assert (Hd : dead s a = true) by (unfold dead; by rewrite Ho).
    intros b Hbb. split; [intros [->%list_elem_of_singleton _]; cbn [abs acct]; by rewrite P4|].
    intros Hne. assert (b <> a) by (intros ->; apply Hne; set_solver).
    cbn [abs acct]. rewrite P3 by done. split; [done|]. intros k _. by rewrite !GetState_eq, P3.
  - apply ended_put; [done|]. intros Hd _. change (suicided o = true). by destruct (suicided o), del.
  - intros b ->%list_elem_of_singleton. replace (dead s a) with true by (unfold dead; by rewrite Ho). by eapply get_delete.
Qed.

Lemma finaliseOne_live s a o :
  FinInv s -> a ∈ stateObjectsDirty s -> stateObjects s !! a = Some o -> suicided o || (del && empty o) = false ->
  let o' := updateRoot (db s) a o in
  exists s', updateStateObject a o' (setStateObject a o' s) = Some s' /\ RoundOk s s' [a].
Proof.
  intros Hs Hdirty Ho Edead. pose proof Hs as [Hd Ht Hw Hb Hap Hend]. pose proof (ti_keys s Ht a o Ho) as Ha.
  assert (Hl : deleted o = false).
  { destruct (deleted o) eqn:E; [|done]. pose proof (ti_deleted s Ht a o Ho E) as Hse.
    destruct del; [cbn [andb] in Edead; congruence|]. by rewrite (Hend eq_refl a o Ho E) in Edead. }
  destruct (updateRoot_spec (db s) a o (ti_storage s Ht a o Ho)) as [U1 U2 U3 U4 (t & Et0 & Er & Hst)].
  set (o' := updateRoot (db s) a o) in *.
  assert (Hlook : lookObj a s = Some o) by (by rewrite lookObj_eq, Ho, Hl). cbv zeta.
  destruct (account_roundtrip (oData o')) as (enc & Ee & Hne & _).
  { rewrite (sc_balance _ _ U1). pose proof (Hb a Ha) as Hba. unfold GetBalance, look in Hba. fold (lookObj a s) in Hba.
    by rewrite Hlook in Hba. }
  unfold updateStateObject. rewrite Ee. cbn [trie setStateObject with_stateObjects].
  destruct (update_whole (trie s) (AddressBytes a) enc Hw Hne) as (t' & Et & Hw'). rewrite Et.
  exists (with_trie t' (setStateObject a o' s)). split; [done|].
  assert (Htr : forall b, is_address b -> b <> a -> TryGet t' (AddressBytes b) = TryGet (trie s) (AddressBytes b)).
  { intros b Hbb Hneb. eapply update_other; [done|]. intros E. by apply Hneb, eq_sym, (Hap a Hdirty). }
  assert (Hdead : dead s a = false) by (unfold dead; by rewrite Ho).
  assert (Hdel : deleted o' = false) by (by rewrite (sc_deleted _ _ U1)).
  destruct (put_spec s a o' t' Hs Ha ltac:(by eexists) U2 Hw' ltac:(congruence) Htr) as (P1 & P2 & P3 & P4).
  rewrite Hdel in P4. split; try done; [| |by apply (slots_put s a o)|apply ended_put; [done|congruence]|by apply others_put|].
  - intros b Hbb. split; [intros [->%list_elem_of_singleton Hx]; congruence|]. intros _. destruct (decide (b = a)) as [->|Hne'].
    + cbn [abs acct]. rewrite P4, Hlook. cbn. split.
      * f_equal. unfold objView. rewrite !so_Code_val. destruct U1. congruence.
      * intros k Hk. rewrite !GetState_eq, P4, Hlook. cbn [storAt]. rewrite !so_GetState_val. by apply U4, Hk.
    + cbn [abs acct]. rewrite P3 by done. split; [done|]. intros k _. by rewrite !GetState_eq, P3.
  - apply (dead_put s a o); [done|]. rewrite (sc_suicided _ _ U1). do 2 f_equal. unfold empty.
    by rewrite (sc_nonce _ _ U1), (sc_balance _ _ U1), (sc_hash _ _ U1).
  - intros b ->%list_elem_of_singleton. rewrite Hdead. exists o, o', t, enc. split_and!; try done; cbn.
    + by rewrite lookup_insert_eq.
    + by eapply get_update.
Qed.

Lemma Removes_iff (P Q : Address -> Prop) s s' : (forall a, P a <-> Q a) -> Removes P s s' -> Removes Q s s'.
Proof. intros H HR a Ha. rewrite <- H. by apply HR. Qed.

Lemma finaliseOne_spec s a :
  FinInv s -> a ∈ stateObjectsDirty s -> exists s', finaliseOne del s a = Some s' /\ RoundOk s s' [a].
Proof.
  intros Hs Hdirty. destruct (ti_dirty s (fi_tidy s Hs) a Hdirty) as [o Ho]. unfold finaliseOne. rewrite Ho.
  destruct (suicided o || (del && empty o)) eqn:Edead.
  - eexists. split; [done|]. by apply finaliseOne_dead.
  - by apply finaliseOne_live.
Qed.

Lemma Removes_balance gone s s' a :
  Removes gone s s' -> is_address a -> (gone a \/ ~ gone a) -> GetBalance a s' = GetBalance a s \/ GetBalance a s' = 0.
Proof.
  intros HR Ha Hg. destruct (HR a Ha) as [H1 H2]. rewrite !GetBalance_acct. destruct Hg as [Hg|Hg].
  - right. by rewrite H1.
  - left. by destruct (H2 Hg) as [-> _].
Qed.

Lemma gone_decides (l : list Address) s b : (b ∈ l /\ dead s b = true) \/ ~ (b ∈ l /\ dead s b = true).
Proof. destruct (decide (b ∈ l)); [|tauto]. destruct (dead s b); naive_solver. Qed.

Lemma RoundOk_inv l s s' : FinInv s -> RoundOk s s' l -> FinInv s'.
Proof.
  intros [_ _ _ Hb Hap _] R. destruct R as [F ? ? ? HR ? ? ? ? ?]. split; try done.
  - intros a Ha. destruct (Removes_balance _ s s' a HR Ha (gone_decides l s a)) as [->| ->]; [by apply Hb|lia].
  - by rewrite (ff_dirty _ _ F).
Qed.

(** ** Finalising *)

Lemma RoundOk_refl s : FinInv s -> RoundOk s s [].
Proof.
  intros []. split; try done; [|by intros b ?%elem_of_nil].
  intros a Ha. split; [by intros [?%elem_of_nil _]|done].
Qed.

Lemma Stored_before s1 s2 s3 b :
  stateObjects s2 !! b = stateObjects s1 !! b -> db s2 = db s1 -> Stored s2 s3 b -> Stored s1 s3 b.
Proof. intros E1 E2 (o & o' & t & enc & H). rewrite E1, E2 in H. by exists o, o', t, enc. Qed.

Lemma Stored_after s1 s2 s3 b :
  stateObjects s3 !! b = stateObjects s2 !! b -> TryGet (trie s3) (AddressBytes b) = TryGet (trie s2) (AddressBytes b) ->
  Stored s1 s2 b -> Stored s1 s3 b.
Proof. intros E1 E2 (o & o' & t & enc & H). rewrite <- E1, <- E2 in H. by exists o, o', t, enc. Qed.

Lemma RoundOk_cons s1 s2 s3 a l :
  is_address a -> a ∉ l -> (forall b, b ∈ l -> is_address b) ->
  RoundOk s1 s2 [a] -> RoundOk s2 s3 l -> RoundOk s1 s3 (a :: l).
Proof.
  intros Ha Hn Hl [F1 D1 T1 W1 R1 E1 S1 N1 O1 G1] [F2 D2 T2 W2 R2 E2 S2 N2 O2 G2]. split; try done.
  - destruct F1, F2. split; intuition congruence.
  - intros b Hb. destruct (R1 b Hb) as [A1 A2], (R2 b Hb) as [B1 B2]. rewrite E1 in B1, B2. split.
    + intros [[->|Hin]%elem_of_cons Hd]; [|by apply B1]. destruct B2 as [-> _]; [by intros [? _]|]. apply A1. set_solver.
    + intros Hg. destruct A2 as [A2 A3]; [intros [->%list_elem_of_singleton ?]; apply Hg; set_solver|].
      destruct B2 as [B2 B3]; [intros [? ?]; apply Hg; set_solver|]. split; [congruence|]. intros k Hk. rewrite B3 by auto. by apply A3.
  - intros b. by rewrite E2.
  - auto.
  - intros b [Hba Hbl]%not_elem_of_cons. destruct (O1 b) as [O3 O4]; [set_solver|]. destruct (O2 b Hbl) as [O5 O6].
    split; [congruence|]. intros Hb. by rewrite O6, O4.
  - intros b [->|Hin]%elem_of_cons.
    + specialize (G1 a ltac:(set_solver)). destruct (O2 a Hn) as [O3 O4].
      destruct (dead s1 a); [by rewrite O4|]. eapply Stored_after; [done|by apply O4|done].
    + specialize (G2 b Hin). rewrite E1 in G2. destruct (dead s1 b); [done|].
      eapply Stored_before; [|apply (ff_db _ _ F1)|done]. apply O1. intros ->%list_elem_of_singleton. done.
Qed.

(** In whatever order the dirty accounts come. *)
Lemma finaliseIn_spec order s :
  FinInv s -> NoDup order -> (forall a, a ∈ order -> a ∈ stateObjectsDirty s) ->
  exists s', finaliseIn order del s = Some s' /\ RoundOk s s' order.
Proof.
  revert s. induction order as [|a order IH]; intros s Hs Hnd Hd; [exists s; split; [done|by apply RoundOk_refl]|].
  apply list.NoDup_cons in Hnd as [Hn Hnd].
  destruct (finaliseOne_spec s a Hs) as (s1 & E1 & R1); [apply Hd; set_solver|].
  destruct (IH s1) as (s2 & E2 & R2); [by eapply RoundOk_inv|done| |].
  { intros b Hb. rewrite (ff_dirty _ _ (rd_frame _ _ _ R1)). apply Hd. set_solver. }
  assert (Ha : forall b, b ∈ a :: order -> is_address b).
  { intros b Hb. destruct (ti_dirty s (fi_tidy s Hs) b (Hd b Hb)) as [o Ho]. by eapply (ti_keys s (fi_tidy s Hs)). }
  exists s2. split; [unfold finaliseIn in *; cbn [foldl]; by rewrite E1|].
  apply (RoundOk_cons s s1 s2); [apply Ha; set_solver|done|intros; apply Ha; set_solver|done..].
Qed.

(** What finalising leaves. *)
Record Finalised (s s' : statedb) : Prop := {
  fd_frame : db s' = db s /\ stateObjectsDirty s' = stateObjectsDirty s /\ thash s' = thash s /\ bhash s' = bhash s /\
    txIndex s' = txIndex s /\ logs s' = logs s /\ logSize s' = logSize s /\ preimages s' = preimages s;
  fd_cleared : journal s' = [] /\ validRevisions s' = [] /\ refund s' = 0;
  fd_ok : StateOk s';
  fd_tidy : Tidy s';
  fd_whole : whole (trie s');
  fd_removes : Removes (fun a => a ∈ stateObjectsDirty s /\ dead s a = true) s s';
  fd_done : forall a, a ∈ stateObjectsDirty s ->
    if dead s a then TryGet (trie s') (AddressBytes a) = Some [] else Stored s s' a
}.

Lemma Removes_fields gone s s1 s2 :
  stateObjects s2 = stateObjects s1 -> trie s2 = trie s1 -> db s2 = db s1 -> Removes gone s s1 -> Removes gone s s2.
Proof.
  intros E1 E2 E3 HR a Ha. destruct (HR a Ha) as [H1 H2].
  assert (El : lookObj a s2 = lookObj a s1) by (by rewrite !lookObj_eq, E1, E2).
  assert (Ea : acct (abs s2) a = acct (abs s1) a) by (cbn; by rewrite E3, El). rewrite Ea. split; [done|].
  intros Hn. destruct (H2 Hn) as [H3 H4]. split; [done|]. intros k Hk. rewrite <- H4 by done. by rewrite !GetState_eq, E3, El.
Qed.

Lemma finaliseIn_cleared order s :
  FinInv s -> order ≡ₚ elements (stateObjectsDirty s) ->
  exists s', clearJournalAndRefund <$> finaliseIn order del s = Some s' /\ Finalised s s'.
Proof.
  intros Hs Hp. destruct (finaliseIn_spec order s Hs) as (s1 & E1 & [F1 D1 T1 W1 R1 _ _ _ _ G1]).
  { rewrite Hp. apply NoDup_elements. }
  { intros a Ha. by rewrite Hp, elem_of_elements in Ha. }
  rewrite E1. eexists. split; [done|]. split; try done.
  - destruct F1. cbn. tauto.
  - split; cbn; [done|by constructor|]. split; cbn; [done|by intros r ?%elem_of_nil..].
  - destruct T1. by split.
  - apply (Removes_fields _ s s1); [done..|]. eapply Removes_iff; [|exact R1]. intros a. cbn. by rewrite Hp, elem_of_elements.
  - intros a Ha. specialize (G1 a ltac:(by rewrite Hp, elem_of_elements)). destruct (dead s a); [done|].
    by apply (Stored_after s s1).
Qed.

Lemma Finalise_spec s : FinInv s -> exists s', Finalise del s = Some s' /\ Finalised s s'.
Proof. intros Hs. by apply finaliseIn_cleared. Qed.

Lemma dead_decides s a :
  (a ∈ stateObjectsDirty s /\ dead s a = true) \/ ~ (a ∈ stateObjectsDirty s /\ dead s a = true).
Proof. destruct (decide (a ∈ stateObjectsDirty s)); [|tauto]. destruct (dead s a); naive_solver. Qed.

(** The invariants of [VmSafety] across finalising. *)
Lemma Finalised_balance s s' a :
  Finalised s s' -> is_address a -> GetBalance a s' = GetBalance a s \/ GetBalance a s' = 0.
Proof. intros H Ha. eapply Removes_balance; [apply (fd_removes _ _ H)|done|apply dead_decides]. Qed.

Lemma Finalised_code s s' : Finalised s s' -> CodeOk s -> CodeOk s'.
Proof.
  intros H. rewrite !CodeOk_view. intros Hc a v Ha Hv. destruct (fd_removes _ _ H a Ha) as [H1 H2].
  destruct (dead_decides s a) as [Hg|Hg]; [by rewrite H1 in Hv|]. destruct (H2 Hg) as [E _]. rewrite E in Hv. by eapply Hc.
Qed.

Lemma Finalised_supply s s' :
  (forall a, is_address a -> 0 <= GetBalance a s) -> Finalised s s' -> totalBalance s' <= totalBalance s.
Proof.
  intros Hb H. set (X := support s ∪ support s').
  assert (HX : forall a, a ∈ X -> isAddress a = true) by (intros a [Ha|Ha]%elem_of_union; by eapply support_address).
  rewrite (totalBalance_over X s), (totalBalance_over X s') by (done || set_solver).
  apply sumOver_le. intros a Ha%elem_of_elements%HX%isAddress_spec. pose proof (Hb a Ha).
  destruct (Finalised_balance s s' a H Ha); lia.
Qed.

(** An account that ends still belongs to a state that can be finalised. *)
Lemma FinInv_suicide a s :
  del = true -> (forall b, is_address b -> AddressApart b) -> StateOk s -> FinInv s -> is_address a -> FinInv (VmCore.Suicide a s).
Proof.
  intros Hdel Hap Hok [Hd Ht Hw Hb _ _] Ha. pose proof (Tidy_update (USuicide a) s Ha Ht : Tidy (VmCore.Suicide a s)) as Ht'. split.
  - apply (Step_ok s _ Hok (update_Step (USuicide a) s Hd)).
  - exact Ht'.
  - pose proof (update_trie (USuicide a) s Hok) as E. cbn [runUpdate] in E. by rewrite E.
  - intros b Hbb. pose proof (update_balance_law (USuicide a) b s Hok) as E. cbn [balanceAfter VmCore.GetBalance vmStateDB] in E.
    change (VmCore.Suicide a s) with (runUpdate (USuicide a) s). rewrite E. destruct (a =? b); [lia|by apply Hb].
  - intros b Hbd. destruct (ti_dirty _ Ht' b Hbd) as [o Ho]. by apply Hap, (ti_keys _ Ht' b o).
  - congruence.
Qed.

End Finalise.

(** ** The order of updates

    Setters of different accounts commute but for the journal, and so do writes to
    different slots of one account. *)

Section Order.
Context {CR : Crypto} {D T : Type} {DB : Database D T}.
Notation object := (stateObject T).
Notation statedb := (StateDB D T).

(** States that differ at most in their journals. *)
Definition sameBut (s s' : statedb) : Prop := with_journal [] s = with_journal [] s'.

#[local] Instance sameBut_equivalence : Equivalence sameBut.
Proof. unfold sameBut. split; [done|by intros s s'|by intros s1 s2 s3 -> ->]. Qed.

Lemma sameBut_fields s s' :
  sameBut s s' -> stateObjects s = stateObjects s' /\ stateObjectsDirty s = stateObjectsDirty s' /\ trie s = trie s' /\ db s = db s'.
Proof. unfold sameBut. by intros [= ? ? ? ? ? ? ? ? ? ? ?]. Qed.

Lemma sameBut_append e s : sameBut (append e s) s.
Proof. by destruct s. Qed.

(** The object of one account, and whether it becomes dirty. *)
Definition put (a : Address) (r : object * bool) (s : statedb) : statedb :=
  with_stateObjects (<[a := r.1]> (stateObjects s))
    (with_stateObjectsDirty (if r.2 then {[a]} ∪ stateObjectsDirty s else stateObjectsDirty s) s).

Lemma put_same a r s s' : sameBut s s' -> sameBut (put a r s) (put a r s').
Proof. unfold sameBut. destruct s, s'. by intros [= -> -> -> -> -> -> -> -> -> -> -> -> ->]. Qed.

Lemma put_put a r1 r2 s : put a r2 (put a r1 s) = put a (r2.1, r1.2 || r2.2) s.
Proof.
  destruct s, r1 as [o1 []], r2 as [o2 []]; unfold put, with_stateObjects, with_stateObjectsDirty; cbn; f_equal; first [apply insert_insert_eq|set_solver].
Qed.

Lemma put_commute a b r1 r2 s : a <> b -> put b r2 (put a r1 s) = put a r1 (put b r2 s).
Proof.
  intros Hne. destruct s, r1 as [o1 []], r2 as [o2 []]; unfold put, with_stateObjects, with_stateObjectsDirty; cbn; f_equal; first [by apply insert_insert_ne, not_eq_sym|set_solver].
Qed.

(** The setters work on one account, whatever the journal. *)
Definition Local (a : Address) (f : statedb -> statedb) : Prop :=
  exists F : T -> D -> option object -> object * bool,
    forall s, sameBut (f s) (put a (F (trie s) (db s) (stateObjects s !! a)) s).

Lemma Local_proper a f s s' : Local a f -> sameBut s s' -> sameBut (f s) (f s').
Proof.
  intros [F HF] H. rewrite (HF s), (HF s'). destruct (sameBut_fields s s' H) as (-> & _ & -> & ->). by apply put_same.
Qed.

Lemma Local_commute a b f g s : a <> b -> Local a f -> Local b g -> sameBut (g (f s)) (f (g s)).
Proof.
  intros Hne Hf Hg. pose proof Hf as [F HF]. pose proof Hg as [G HG].
  set (r1 := F (trie s) (db s) (stateObjects s !! a)). set (r2 := G (trie s) (db s) (stateObjects s !! b)).
  transitivity (put b r2 (put a r1 s)).
  - rewrite (Local_proper b g _ _ Hg (HF s)), (HG _). cbn. rewrite lookup_insert_ne by done. done.
  - rewrite put_commute by done. symmetry. rewrite (Local_proper a f _ _ Hf (HG s)), (HF _). cbn. rewrite lookup_insert_ne by done. done.
Qed.

Lemma Local_compose a f g : Local a f -> Local a g -> Local a (fun s => g (f s)).
Proof.
  intros Hf Hg. pose proof Hf as [F HF]. pose proof Hg as [G HG].
  exists (fun t d o => let r := F t d o in let r2 := G t d (Some r.1) in (r2.1, r.2 || r2.2)). intros s.
  rewrite (Local_proper a g _ _ Hg (HF s)), (HG _). cbn [trie db stateObjects put with_stateObjects with_stateObjectsDirty].
  rewrite lookup_insert_eq, put_put. done.
Qed.

Lemma Local_foldl {A} a (f : A -> statedb -> statedb) g l :
  (forall x, Local a (f x)) -> Local a g -> Local a (fun s => foldl (fun s x => f x s) (g s) l).
Proof.
  intros Hf. revert g. induction l as [|x l IH]; intros g Hg; [done|]. cbn [foldl].
  apply (IH (fun s => f x (g s))). by apply Local_compose.
Qed.

(** *** The setters *)

Definition freshObject : object := o_with_onDirty false (newObject (mkAccount 0 0 0 0) true).

(** The object that a setter finds or makes, and whether that makes it dirty. *)
Definition openObject (a : Address) (t : T) (o : option object) : object * bool :=
  match o with
  | Some o => if deleted o then (freshObject, true) else (o, false)
  | None => match loadObject t a with Some o => (o, false) | None => (freshObject, true) end
  end.

Lemma open_spec a s :
  let r := openObject a (trie s) (stateObjects s !! a) in
  exists s', GetOrNewStateObject a s = (r.1, s') /\ sameBut s' (put a r s).
Proof.
  assert (Hc : forall s, getStateObject a s = (None, s) -> exists s', GetOrNewStateObject a s = (freshObject, s') /\ sameBut s' (put a (freshObject, true) s)).
  { intros s0 E. unfold GetOrNewStateObject. rewrite E. unfold createObject. rewrite E. eexists. split; [reflexivity|]. by destruct s0. }
  unfold openObject, loadObject. destruct (stateObjects s !! a) as [o|] eqn:Eo; [destruct (deleted o) eqn:Ed|].
  - apply Hc. unfold getStateObject. by rewrite Eo, Ed.
  - unfold GetOrNewStateObject, getStateObject. rewrite Eo, Ed. eexists. split; [reflexivity|]. destruct s. unfold sameBut, put. cbn in *.
    by rewrite insert_id.
  - assert (Hn : forall e, TryGet (trie s) (AddressBytes a) = e -> (e = None \/ e = Some [] \/ exists b, e = Some b /\ decodeAccount b = None) ->
      getStateObject a s = (None, s)).
    { intros e <- He. unfold getStateObject. rewrite Eo. destruct He as [->|[->|(b & -> & Eb)]]; [done..|]. rewrite Eb. by destruct b. }
    destruct (TryGet (trie s) (AddressBytes a)) as [[|x b]|] eqn:Et.
    + apply Hc. eapply Hn; [done|auto].
    + destruct (decodeAccount (x :: b)) as [data|] eqn:Eb; [|apply Hc; eapply Hn; [done|eauto 10]].
      unfold GetOrNewStateObject, getStateObject. rewrite Eo, Et, Eb. eexists. split; [reflexivity|]. by destruct s.
    + apply Hc. eapply Hn; [done|auto].
Qed.

(** After [onDirty] has been called. *)
Definition settled (o : object) : object * bool := (o_with_onDirty false o, onDirty o).

Lemma putDirty_spec a o e s : sameBut (putDirty a o (append e s)) (put a (settled o) s).
Proof. unfold putDirty, fireDirty, settled. destruct s, o as [? ? ? ? ? ? ? ? ? ? []]; done. Qed.

(** What a setter does with its object. *)
Lemma setter_local a (k : object -> statedb -> statedb) (K : D -> object -> object * bool) :
  (forall o s, stateObjects s !! a = Some o -> sameBut (k o s) (put a (K (db s) o) s)) ->
  Local a (fun s => let '(o, s) := GetOrNewStateObject a s in k o s).
Proof.
  intros Hk. exists (fun t d o => let r := openObject a t o in let r2 := K d r.1 in (r2.1, r.2 || r2.2)). intros s. cbv zeta.
  destruct (open_spec a s) as (s' & -> & Hs). set (r := openObject a (trie s) (stateObjects s !! a)) in *.
  destruct (sameBut_fields _ _ Hs) as (Eo & _ & _ & Ed). cbn in Eo, Ed.
  rewrite Hk by (by rewrite Eo, lookup_insert_eq). rewrite Ed, (put_same a _ _ _ Hs). by rewrite put_put.
Qed.

Lemma AddBalance_local a x : Local a (AddBalance a x).
Proof.
  apply (setter_local a (so_AddBalance a x) (fun _ o => if x =? 0 then if empty o then settled (o_with_touched true o) else (o, false)
    else settled (o_with_oData (a_with_Balance (Balance (oData o) + x) (oData o)) o))).
  intros o s Ho. unfold so_AddBalance, so_touch, so_SetBalance, so_setBalance.
  destruct (x =? 0); [destruct (empty o)|]; [apply putDirty_spec| |apply putDirty_spec].
  destruct s. unfold sameBut, put. cbn in *. by rewrite insert_id.
Qed.

Lemma SetNonce_local a n : Local a (SetNonce a n).
Proof.
  apply (setter_local a (so_SetNonce a n) (fun _ o => settled (o_with_oData (a_with_Nonce n (oData o)) o))).
  intros o s _. apply putDirty_spec.
Qed.

Lemma SetCode_local a code : Local a (SetCode a code).
Proof.
  apply (setter_local a (so_SetCode a (Keccak256 code) code) (fun d o => let o := snd (so_Code d a o) in
    settled (o_with_dirtyCode true (o_with_oCode (Some code) (o_with_oData (a_with_CodeHash (Keccak256 code) (oData o)) o))))).
  intros o s _. unfold so_SetCode. destruct (so_Code (db s) a o) as [prev o']. apply putDirty_spec.
Qed.

(** Writing a slot, on the object. *)
Definition slotSet (a : Address) (k v : Hash) (d : D) (o : object) : object :=
  let o := snd (so_GetState d a k o) in
  o_with_dirtyStorage (<[k := v]> (dirtyStorage o)) (o_with_cachedStorage (<[k := v]> (cachedStorage o)) o).

Lemma so_SetState_put a k v o s : sameBut (so_SetState a k v o s) (put a (settled (slotSet a k v (db s) o)) s).
Proof. unfold so_SetState, slotSet. destruct (so_GetState (db s) a k o) as [prev o']. apply putDirty_spec. Qed.

Lemma SetState_local a k v : Local a (SetState a k v).
Proof. apply (setter_local a (so_SetState a k v) (fun d o => settled (slotSet a k v d o))). intros o s _. apply so_SetState_put. Qed.

(** *** Slots *)

(** Whether reading a slot fails. *)
Definition readFails (t : T) (k : Hash) : bool :=
  match TryGet t (HashBytes k) with
  | None => true
  | Some [] => false
  | Some enc => bool_decide (rlpSplit enc = None)
  end.

(** The object after the storage trie was opened and a slot read, without the cache. *)
Definition slotRead (a : Address) (k : Hash) (d : D) (o : object) : object :=
  match cachedStorage o !! k with
  | Some _ => o
  | None => let '(t, o) := getTrie d a o in setError (readFails t k) o
  end.

Definition slotWrite (k v : Hash) (o : object) : object :=
  o_with_dirtyStorage (<[k := v]> (dirtyStorage o)) (o_with_cachedStorage (<[k := v]> (cachedStorage o)) o).

Lemma slotSet_eq a k v d o : slotSet a k v d o = slotWrite k v (slotRead a k d o).
Proof.
  unfold slotSet, slotRead, so_GetState, readFails. destruct (cachedStorage o !! k); [done|].
  destruct (getTrie d a o) as [t o1]. unfold slotWrite, setError. destruct o1.
  destruct (TryGet t (HashBytes k)) as [[|b enc]|]; cbn; [|destruct (rlpSplit (b :: enc)); cbn|]; by rewrite ?insert_insert_eq, ?orb_false_r.
Qed.

Lemma getTrie_write d a k v o : getTrie d a (slotWrite k v o) = ((getTrie d a o).1, slotWrite k v (getTrie d a o).2).
Proof. unfold getTrie. destruct o as [? ? [t|] ? ? ? ? ? ? ? ?]; cbn; [done|]. by destruct (OpenStorageTrie _ _ _). Qed.

Lemma slotRead_write a k k' v d o : k <> k' -> slotRead a k' d (slotWrite k v o) = slotWrite k v (slotRead a k' d o).
Proof.
  intros Hne. unfold slotRead. rewrite getTrie_write. cbn [slotWrite cachedStorage o_with_dirtyStorage o_with_cachedStorage].
  rewrite lookup_insert_ne by done. destruct (cachedStorage o !! k'); [done|]. by destruct (getTrie d a o) as [t []].
Qed.

Lemma slotWrite_commute k k' v v' o : k <> k' -> slotWrite k' v' (slotWrite k v o) = slotWrite k v (slotWrite k' v' o).
Proof. intros Hne. destruct o. unfold slotWrite, o_with_dirtyStorage, o_with_cachedStorage. cbn. f_equal; by apply insert_insert_ne, not_eq_sym. Qed.

Lemma slotRead_commute a k k' d o : slotRead a k' d (slotRead a k d o) = slotRead a k d (slotRead a k' d o).
Proof.
  assert (Hc : forall k o, cachedStorage (slotRead a k d o) = cachedStorage o).
  { intros k0 o0. unfold slotRead. destruct (cachedStorage o0 !! k0); [done|]. unfold getTrie.
    destruct o0 as [? ? [t|] ? ? ? ? ? ? ? ?]; cbn; [done|]. by destruct (OpenStorageTrie _ _ _). }
  unfold slotRead at 1 3. rewrite !Hc. unfold slotRead.
  destruct (cachedStorage o !! k) eqn:E1, (cachedStorage o !! k') eqn:E2; try done.
  unfold getTrie. destruct o as [data ? [t|] ? ? ? ? ? ? ? ?]; cbn; [|destruct (OpenStorageTrie _ _ _); cbn];
    destruct oDbErr0, (readFails _ k), (readFails _ k'); done.
Qed.

Lemma slotSet_commute a k k' v v' d o :
  k <> k' -> slotSet a k' v' d (slotSet a k v d o) = slotSet a k v d (slotSet a k' v' d o).
Proof.
  intros Hne. rewrite !slotSet_eq, !slotRead_write by done. rewrite slotWrite_commute by done. by rewrite slotRead_commute.
Qed.

Lemma settled_slot a k v d o b : slotSet a k v d (o_with_onDirty b o) = o_with_onDirty b (slotSet a k v d o).
Proof.
  rewrite !slotSet_eq. unfold slotRead, getTrie. destruct o as [data ? [t|] ? ? ? ? ? ? ? ?]; cbn; destruct (_ !! _); try done.
  by destruct (OpenStorageTrie _ _ _).
Qed.

Lemma slot_flags a k v d o : deleted (slotSet a k v d o) = deleted o /\ onDirty (slotSet a k v d o) = onDirty o.
Proof.
  rewrite slotSet_eq. unfold slotRead, getTrie. destruct o as [data ? [t|] ? ? ? ? ? ? ? ?]; cbn; destruct (_ !! _); try done.
  by destruct (OpenStorageTrie _ _ _).
Qed.

Lemma SetState_put a k v s :
  let r := openObject a (trie s) (stateObjects s !! a) in
  sameBut (SetState a k v s) (put a (o_with_onDirty false (slotSet a k v (db s) r.1), r.2 || onDirty r.1) s).
Proof.
  cbv zeta. unfold SetState. destruct (open_spec a s) as (s' & -> & Hs). set (r := openObject _ _ _) in *.
  destruct (sameBut_fields _ _ Hs) as (_ & _ & _ & Ed). cbn in Ed.
  rewrite so_SetState_put, Ed, (put_same a _ _ _ Hs), put_put. unfold settled. cbn [fst snd]. by rewrite (proj2 (slot_flags a k v (db s) r.1)).
Qed.

Lemma open_deleted a t o : deleted (openObject a t o).1 = false.
Proof.
  unfold openObject, loadObject. destruct o as [o|]; [by destruct (deleted o) eqn:E|].
  destruct (TryGet _ _) as [[|]|]; try done. by destruct (decodeAccount _).
Qed.

Lemma SetState_commute a k k' v v' s : k <> k' -> sameBut (SetState a k' v' (SetState a k v s)) (SetState a k v (SetState a k' v' s)).
Proof.
  intros Hne.
  assert (H2 : forall k v k' v' s, sameBut (SetState a k' v' (SetState a k v s))
    (let r := openObject a (trie s) (stateObjects s !! a) in
     put a (o_with_onDirty false (slotSet a k' v' (db s) (slotSet a k v (db s) r.1)), r.2 || onDirty r.1) s)).
  { clear. intros k v k' v' s. cbv zeta. set (r := openObject a (trie s) (stateObjects s !! a)).
    rewrite (Local_proper a _ _ _ (SetState_local a k' v') (SetState_put a k v s)). fold r. set (o1 := o_with_onDirty false _).
    rewrite (SetState_put a k' v' (put a (o1, _) s)). cbn [trie db stateObjects put with_stateObjects with_stateObjectsDirty fst].
    rewrite lookup_insert_eq. cbn [openObject]. assert (Hd : deleted o1 = false).
    { change (deleted o1) with (deleted (slotSet a k v (db s) r.1)). rewrite (proj1 (slot_flags a k v (db s) r.1)). apply open_deleted. }
    rewrite Hd, put_put. cbn [fst snd]. change (onDirty o1) with false. rewrite !orb_false_r. unfold o1. rewrite settled_slot.
    by destruct (slotSet a k' v' (db s) (slotSet a k v (db s) r.1)). }
  rewrite !H2. cbv zeta. by rewrite slotSet_commute.
Qed.

(** *** Orders *)

(** Steps with different keys commute, so their order does not matter. *)
Lemma foldl_perm {A B K : Type} (R : B -> B -> Prop) `{!Equivalence R} (key : A -> K) (f : B -> A -> B) l1 l2 :
  (forall x s s', R s s' -> R (f s x) (f s' x)) -> (forall x y s, key x <> key y -> R (f (f s x) y) (f (f s y) x)) ->
  l1 ≡ₚ l2 -> NoDup (key <$> l1) -> forall s s', R s s' -> R (foldl f s l1) (foldl f s' l2).
Proof.
  intros Hp Hc. induction 1 as [|x l1 l2 _ IH|x y l|l1 l2 l3 H12 IH1 _ IH2]; intros Hnd s s' Hs; cbn [foldl].
  - done.
  - apply list.NoDup_cons in Hnd as [_ Hnd]. by apply IH, Hp.
  - assert (Hgen : forall l s s', R s s' -> R (foldl f s l) (foldl f s' l)).
    { clear -Hp. intros l. induction l as [|z l IH]; intros s s' H; [done|]. cbn. by apply IH, Hp. }
    apply Hgen. etrans; [|by apply Hp, Hp]. apply Hc. intros E. apply list.NoDup_cons in Hnd as [Hn _]. apply Hn. rewrite E. left.
  - etrans; [by apply IH1|]. apply IH2; [by rewrite <- H12|done].
Qed.

(** Finalising does not look at the journal. *)
Lemma finaliseOne_journal del s j a : finaliseOne del (with_journal j s) a = with_journal j <$> finaliseOne del s a.
Proof.
  unfold finaliseOne. destruct s. cbn. destruct (_ !! _) as [o|]; [|done]. destruct (_ || _); [done|].
  unfold updateStateObject. by destruct (EncodeToBytes _).
Qed.

Lemma IntermediateRoot_same del s s' : sameBut s s' -> IntermediateRoot del s = IntermediateRoot del s'.
Proof.
  intros H. assert (E : s' = with_journal (journal s') s) by (unfold sameBut in H; destruct s, s'; injection H as -> -> -> -> -> -> -> -> -> -> -> -> ->; done).
  rewrite E. generalize (journal s'). clear. intros j. unfold IntermediateRoot, Finalise. f_equal.
  change (stateObjectsDirty (with_journal j s)) with (stateObjectsDirty s). unfold finaliseIn. generalize (elements (stateObjectsDirty s)). intros l.
  assert (Hl : forall r, foldl (fun r a => match r with Some s => finaliseOne del s a | None => None end) (with_journal j <$> r) l =
    with_journal j <$> foldl (fun r a => match r with Some s => finaliseOne del s a | None => None end) r l).
  { induction l as [|a l IH]; intros r; [done|]. cbn [foldl]. rewrite <- IH. f_equal. destruct r as [s0|]; [|done]. cbn. apply finaliseOne_journal. }
  specialize (Hl (Some s)). cbn in Hl. rewrite Hl. clear Hl.
  destruct (foldl _ (Some s) l) as [s0|]; [by destruct s0|done].
Qed.
End Order.
