(* ===== verification/GenesisProofs.v ===== *)
(** * Package core: the chain of a new database

    What [Commit] of genesis.go writes is read back, and the chain of headers that is opened
    on it consists of the genesis header. *)

From stdpp Require Import base numbers list gmap option.
From Stdlib Require Import ZArith Lia Strings.Byte.
From S2P Require Import Prelude Rlp Common Params Types TrieDatabase Trie CliqueSnapshot CliqueEngineSpec Transactions TransactionProofs State StateFinalise Receipts Blocks ChainDb Genesis ChainDbProofs HeaderChain HeaderChainStore HeaderChainProofs HeaderChainQueries.
Import genesis.

Section Genesis.
Context {CR : Crypto} {D T : Type} {DB : state.Database D T} {CJ : ConfigJSON}.

(** The block has the fields of the specification, and no body. *)
Lemma ToBlock_spec it flush g (d : D) b d' :
  ToBlock (T := T) it flush g d = Ok (b, d') ->
  bTransactions b = [] /\ bUncles b = [] /\ hNumber (bHeader b) = Some (gNumber g) /\ hDifficulty (bHeader b) = Some (default 1 (gDifficulty g)) /\
  hParentHash (bHeader b) = gParentHash g /\ hBloom (bHeader b) = emptyBloom.
Proof.
  unfold ToBlock. intros E. go_inv E. cbn [bTransactions bUncles bHeader withRoots CopyHeader genesisHead hNumber hDifficulty hParentHash hBloom].
  split_and!; reflexivity.
Qed.

(** ** The order of the accounts *)

(** Each entry of a map once. *)
Record IterationOk (it : Iteration) : Prop := {
  io_alloc : forall m, overAlloc it m ≡ₚ map_to_list m;
  io_storage : forall a m, overStorage it a m ≡ₚ map_to_list m
}.

Notation statedb := (state.StateDB D T).
#[local] Existing Instance sameBut_equivalence.

Lemma allocOne_local it e : Local e.1 (fun s : statedb => allocOne it s e).
Proof.
  destruct e as [a acc]. cbn [fst allocOne].
  apply (Local_foldl a (fun kv : Hash * Hash => state.SetState a kv.1 kv.2)
    (fun s => state.SetNonce a (gaNonce acc) (state.SetCode a (gaCode acc) (state.AddBalance a (gaBalance acc) s)))).
  - intros kv. apply SetState_local.
  - apply (Local_compose a (fun s => state.SetCode a (gaCode acc) (state.AddBalance a (gaBalance acc) s))); [|apply SetNonce_local].
    apply (Local_compose a (state.AddBalance a (gaBalance acc))); [apply AddBalance_local|apply SetCode_local].
Qed.

Lemma allocOne_order it1 it2 e (s : statedb) : IterationOk it1 -> IterationOk it2 -> sameBut (allocOne it1 s e) (allocOne it2 s e).
Proof.
  intros H1 H2. destruct e as [a acc]. cbn [allocOne].
  apply (foldl_perm sameBut (fst : Hash * Hash -> Hash)); [| | | |done].
  - intros kv s1 s2. apply Local_proper with a, SetState_local.
  - intros kv kv' s1. apply SetState_commute.
  - rewrite (io_storage it1 H1). symmetry. apply (io_storage it2 H2).
  - rewrite (io_storage it1 H1). apply NoDup_fst_map_to_list.
Qed.

Lemma allocState_order it1 it2 g (s : statedb) : IterationOk it1 -> IterationOk it2 -> sameBut (allocState it1 g s) (allocState it2 g s).
Proof.
  intros H1 H2. unfold allocState. transitivity (foldl (allocOne it2) s (overAlloc it1 (gAlloc g))).
  - assert (Hl : forall l (s1 s2 : statedb), sameBut s1 s2 -> sameBut (foldl (allocOne it1) s1 l) (foldl (allocOne it2) s2 l)).
    { intros l. induction l as [|e l IH]; intros s1 s2 Hs; [done|]. cbn [foldl]. apply IH.
      transitivity (allocOne it1 s2 e); [exact (Local_proper e.1 _ _ _ (allocOne_local it1 e) Hs)|by apply allocOne_order]. }
    by apply Hl.
  - apply (foldl_perm sameBut (fst : Address * GenesisAccount -> Address)); [| | | |done].
    + intros e s1 s2. exact (Local_proper e.1 _ _ _ (allocOne_local it2 e)).
    + intros e e' s1 Hne. exact (Local_commute e.1 e'.1 _ _ s1 Hne (allocOne_local it2 e) (allocOne_local it2 e')).
    + rewrite (io_alloc it1 H1). symmetry. apply (io_alloc it2 H2).
    + rewrite (io_alloc it1 H1). apply NoDup_fst_map_to_list.
Qed.

(** The block does not depend on the order. *)
Lemma ToBlock_order it1 it2 flush g (d : D) :
  IterationOk it1 -> IterationOk it2 -> ToBlock (T := T) it1 flush g d = ToBlock it2 flush g d.
Proof.
  intros H1 H2. unfold ToBlock. destruct (deref (state.New 0 d)) as [s| | |]; cbn [rbind]; try done.
  by rewrite (IntermediateRoot_same false _ _ (allocState_order it1 it2 g s H1 H2)).
Qed.

(** ** The entries *)

(** The entries of a genesis block. *)
Definition genesisKeys (h : Hash) : list key :=
  [KTd 0 h; KBody 0 h; KNumber h; KHeader 0 h; KReceipts 0 h; KCanonical 0; KHeadBlock; KHeadHeader; KConfig h].

Record Written (db : chaindb.DB) (b : Block) (td : Z) (db' : chaindb.DB) : Prop := {
  wr_only : Only (genesisKeys (headerHash (bHeader b))) db db';
  wr_header : chaindb.GetHeader (headerHash (bHeader b)) 0 db' = Some (bHeader b);
  wr_number : chaindb.GetBlockNumber (headerHash (bHeader b)) db' = 0;
  wr_td : chaindb.GetTd (headerHash (bHeader b)) 0 db' = Some td;
  wr_canonical : chaindb.GetCanonicalHash 0 db' = headerHash (bHeader b);
  wr_headBlock : chaindb.GetHeadBlockHash db' = headerHash (bHeader b);
  wr_headHeader : chaindb.GetHeadHeaderHash db' = headerHash (bHeader b);
  wr_block : bTransactions b = [] -> chaindb.GetBlock (headerHash (bHeader b)) 0 db' = Some b;
  wr_receipts : db' !! keyBytes (KReceipts 0 (headerHash (bHeader b))) = Some [xc0]
}.

Lemma stores_Ok {A} (m : M chaindb.DB chaindb.chainErr A) db a db' : m db = (Ok a, db') -> stores m db = (Ok a, db').
Proof. intros E. unfold stores. by rewrite E. Qed.

#[local] Ltac apart := rewrite ?not_elem_of_cons; split_and!; [done..|apply not_elem_of_nil].

Lemma commitBlock_ok nets g b td db cb :
  BlockStorable b -> hNumber (bHeader b) = Some 0 -> gDifficulty g = Some td -> 0 <= td < 2 ^ 256 ->
  configMarshal (default (AllCliqueProtocolChanges nets) (gConfig g)) = Some cb ->
  exists db', commitBlock nets g b db = (Ok tt, db') /\ Written db b td db' /\ db' !! keyBytes (KConfig (headerHash (bHeader b))) = Some cb.
Proof.
  intros Hb Hn Htd Hr Hc. pose proof Hb as [[Hh Hs Hx] _ _]. unfold commitBlock. rewrite Hn, Htd. rewrite (mbind_Ok _ _ _ 0 db) by done. cbn [Z.eqb negb].
  change (bigUint64 0) with 0. assert (En : numberOf (bHeader b) = 0) by (unfold numberOf; by rewrite Hn).
  destruct (WriteTd_ok (blockHash b) 0 td db) as (db1 & E1 & O1 & Et); [done|done|done|]. rewrite (mbind_Ok _ _ _ tt db1) by (by apply stores_Ok).
  destruct (WriteBlock_ok b db1 Hb) as (db2 & E2 & O2 & Eb & Enum & _). rewrite En in *. rewrite (mbind_Ok _ _ _ tt db2) by (by apply stores_Ok).
  set (db3 := <[keyBytes (KReceipts 0 (blockHash b)) := [xc0]]> db2). rewrite (mbind_Ok _ _ _ tt db3) by done.
  assert (O3 : Only [KReceipts 0 (blockHash b)] db2 db3) by (by apply Only_insert).
  set (db4 := <[keyBytes (KCanonical 0) := HashBytes (blockHash b)]> db3). rewrite (mbind_Ok _ _ _ tt db4) by done.
  set (db5 := <[keyBytes KHeadBlock := HashBytes (blockHash b)]> db4). rewrite (mbind_Ok _ _ _ tt db5) by done.
  set (db6 := <[keyBytes KHeadHeader := HashBytes (blockHash b)]> db5). rewrite (mbind_Ok _ _ _ tt db6) by done.
  unfold WriteChainConfig. rewrite Hc. set (db7 := <[keyBytes (KConfig (blockHash b)) := cb]> db6). exists db7. split; [done|]. split; [|apply lookup_insert_eq].
  assert (O4 : Only [KCanonical 0] db3 db4) by (by apply Only_insert). assert (O5 : Only [KHeadBlock] db4 db5) by (by apply Only_insert).
  assert (O6 : Only [KHeadHeader] db5 db6) by (by apply Only_insert). assert (O7 : Only [KConfig (blockHash b)] db6 db7) by (by apply Only_insert).
  pose proof (Only_trans _ _ _ _ _ O6 O7) as O67. pose proof (Only_trans _ _ _ _ _ O5 O67) as O57. pose proof (Only_trans _ _ _ _ _ O4 O57) as O47.
  pose proof (Only_trans _ _ _ _ _ O3 O47) as O37. pose proof (Only_trans _ _ _ _ _ O2 O37) as O27. cbn [app] in *.
  split; change (headerHash (bHeader b)) with (blockHash b).
  - exact (Only_trans _ _ _ _ _ O1 O27).
  - rewrite (GetHeader_same _ _ _ O37) by (done || apart). unfold chaindb.GetBlock in Eb. destruct (chaindb.GetHeader (blockHash b) 0 db2) as [h|]; [|discriminate Eb].
    cbn [base.mbind option_bind] in Eb. destruct (chaindb.GetBody (blockHash b) 0 db2); [|discriminate Eb]. apply (f_equal (fmap bHeader)) in Eb. exact Eb.
  - by rewrite (GetBlockNumber_same _ _ _ O37) by (done || apart).
  - by rewrite (GetTd_same _ _ _ O27) by (done || apart).
  - rewrite (GetCanonicalHash_same _ _ _ O57) by (done || apart). by apply getHash_insert.
  - rewrite (GetHeadBlockHash_same _ _ _ O67) by (done || apart). by apply getHash_insert.
  - rewrite (GetHeadHeaderHash_same _ _ _ O7) by (done || apart). by apply getHash_insert.
  - intros Etx. unfold chaindb.GetBlock in Eb |- *. rewrite (GetHeader_same _ _ _ O37), (GetBody_same _ _ _ O37) by (done || apart).
    rewrite Eb. f_equal. destruct b as [h txs uncles]. cbn in Etx. by subst txs.
  - rewrite (O47 (KReceipts 0 (blockHash b))) by (done || apart). apply lookup_insert_eq.
Qed.

(** A commit that succeeds. *)
Lemma Commit_inv it nets flush g (d d' : D) b db db' :
  Commit (T := T) it nets flush g d db = (Ok (b, d'), db') -> ToBlock (T := T) it flush g d = Ok (b, d') /\ commitBlock nets g b db = (Ok tt, db').
Proof.
  unfold Commit. intros E. apply mbind_Ok_inv in E as ([b0 d0] & db1 & E1 & E). unfold lift in E1. injection E1 as E1 <-.
  apply mbind_Ok_inv in E as ([] & db2 & E2 & E). by injection E as -> -> ->.
Qed.

Lemma Commit_written it nets flush g (d d' : D) b td db db' :
  Storable (bHeader b) -> gDifficulty g = Some td -> 0 <= td < 2 ^ 256 -> Commit (T := T) it nets flush g d db = (Ok (b, d'), db') ->
  numberOf (bHeader b) = 0 /\ Written db b td db'.
Proof.
  intros Hs Htd Hr [E1 E2]%Commit_inv. destruct (ToBlock_spec _ _ _ _ _ _ E1) as (Et & Eu & En & _).
  assert (H0 : gNumber g = 0 /\ is_Some (configMarshal (default (AllCliqueProtocolChanges nets) (gConfig g)))).
  { pose proof E2 as E3. unfold commitBlock in E3. apply mbind_Ok_inv in E3 as (z & db3 & Ez & E3). rewrite En in Ez. injection Ez as <- <-.
    destruct (Z.eqb_spec (gNumber g) 0) as [E0|]; [|discriminate E3]. split; [done|]. cbn [negb] in E3.
    do 6 (apply mbind_Ok_inv in E3 as (? & ? & _ & E3)). unfold WriteChainConfig in E3. destruct (configMarshal _); [by eexists|discriminate E3]. }
  destruct H0 as [H0 [cb Hc]]. rewrite H0 in En. split; [unfold numberOf; by rewrite En|].
  assert (Hb : BlockStorable b).
  { split; [done|..]; unfold blockBody; rewrite Et, Eu; [split; constructor|cbn; lia]. }
  destruct (commitBlock_ok nets g b td db cb Hb En Htd Hr Hc) as (db3 & E3 & HW & _). rewrite E2 in E3. by injection E3 as <-.
Qed.
End Genesis.

(** ** Opening the chain *)

Section Open.
Context {CR : Crypto} {HC TC NC : Type} {HCI : LRU HC Z Header} {TCI : LRU TC Z Z} {NCI : LRU NC Z Z}.
Context {HCL : LRULaws HC Z Header} {TCL : LRULaws TC Z Z} {NCL : LRULaws NC Z Z}.
Context (U : Header -> Prop) (HU : Universe U).
Notation chain := (headerchain.HeaderChain HC TC NC).
Import headerchain.

#[local] Ltac member H :=
  unfold genesisKeys in H; rewrite !elem_of_cons in H; repeat match type of H with _ \/ _ => destruct H as [H|H] end;
  try discriminate H; try (by apply elem_of_nil in H).

Section Fresh.
Context (b : Block) (td : Z) (db : chaindb.DB).
Hypothesis Hu : U (bHeader b).
Hypothesis Hn : numberOf (bHeader b) = 0.
Hypothesis Htd : 0 <= td < 2 ^ 128.
Hypothesis HW : Written ∅ b td db.

Notation g := (bHeader b).

Lemma absent k : keyOk k -> k ∉ genesisKeys (headerHash g) -> db !! keyBytes k = None.
Proof. intros Hk Hin. rewrite (wr_only _ _ _ _ HW k Hk Hin). apply lookup_empty. Qed.

Lemma fresh_header x n h : is_hash x -> is_u64 n -> chaindb.GetHeader x n db = Some h -> x = headerHash g /\ n = 0 /\ h = g.
Proof.
  intros Hx Hnu E. destruct (decide (KHeader n x ∈ genesisKeys (headerHash g))) as [Hin|Hout].
  - member Hin.
    injection Hin as -> ->. rewrite (wr_header _ _ _ _ HW) in E. by injection E as <-.
  - pose proof (absent (KHeader n x) (conj Hnu Hx) Hout) as Ea. cbn [keyBytes] in Ea. unfold chaindb.GetHeader, chaindb.getRLP, chaindb.Get in E. by rewrite Ea in E.
Qed.

Lemma fresh_td x n t : is_hash x -> is_u64 n -> chaindb.GetTd x n db = Some t -> x = headerHash g /\ n = 0 /\ t = td.
Proof.
  intros Hx Hnu E. destruct (decide (KTd n x ∈ genesisKeys (headerHash g))) as [Hin|Hout].
  - member Hin.
    injection Hin as -> ->. rewrite (wr_td _ _ _ _ HW) in E. by injection E as <-.
  - pose proof (absent (KTd n x) (conj Hnu Hx) Hout) as Ea. cbn [keyBytes] in Ea. unfold chaindb.GetTd, chaindb.getRLP, chaindb.Get in E. by rewrite Ea in E.
Qed.

Lemma fresh_stored h : StoredIn U db h <-> h = g.
Proof.
  split; [intros [Hh E]; by apply fresh_header in E as (_ & _ & ->); [|by apply (U_hash U HU)|apply numberOf_u64]|].
  intros ->. split; [done|]. rewrite Hn. apply (wr_header _ _ _ _ HW).
Qed.

Lemma fresh_Store : Store U g db.
Proof.
  assert (Hg : StoredIn U db g) by (by apply fresh_stored). split.
  - intros x n h Hx Hnu E. destruct (fresh_header x n h Hx Hnu E) as (-> & -> & ->). done.
  - done.
  - intros h ->%fresh_stored Hne. done.
  - intros h ->%fresh_stored. rewrite Hn. apply (wr_number _ _ _ _ HW).
  - intros x Hx Hm. exists g. split; [done|]. destruct (decide (KNumber x ∈ genesisKeys (headerHash g))) as [Hin|Hout].
    + member Hin. by injection Hin as ->.
    + destruct Hm. pose proof (absent (KNumber x) Hx Hout) as Ea. cbn [keyBytes] in Ea. unfold chaindb.GetBlockNumber, chaindb.Get. by rewrite Ea.
  - intros h ->%fresh_stored. exists td. rewrite Hn. split; [apply (wr_td _ _ _ _ HW)|lia].
  - intros h p ->%fresh_stored _ Hne. done.
  - intros x n t Hx Hnu E. destruct (fresh_td x n t Hx Hnu E) as (-> & -> & _). by exists g.
  - intros x n Hx Hnu [v Ev]. destruct (decide (KHeader n x ∈ genesisKeys (headerHash g))) as [Hin|Hout]; [|by rewrite absent in Ev].
    member Hin.
    injection Hin as -> ->. eexists. apply (wr_header _ _ _ _ HW).
Qed.

(** Caches as [lru.New] makes them. *)
Definition emptyCache {C V} `{LRU C Z V} (c : C) : Prop := forall x, fst (cacheGet x c) = None.

Lemma fresh_opens hcache tcache ncache :
  emptyCache hcache -> emptyCache tcache -> emptyCache ncache ->
  exists hc, NewHeaderChain db hcache tcache ncache = Ok hc /\ Inv U (hc : chain) g /\ Heaviest U hc g.
Proof.
  intros Eh Et En. pose proof (U_hash U HU g Hu) as Hx. pose proof (un_nonzero U HU g Hu) as H0. unfold NewHeaderChain, GetHeaderByNumber. cbn [chainDb].
  rewrite (wr_canonical _ _ _ _ HW). destruct (Z.eqb_spec (headerHash g) 0) as [|_]; [done|].
  unfold GetHeader at 1. cbn [headerCache]. pose proof (Eh (headerHash g)) as Eg. destruct (cacheGet (headerHash g) hcache) as [hit c] eqn:Ec. cbn [fst] in Eg. subst hit.
  cbn [setHeaders chainDb headerCache]. pose proof (wr_header _ _ _ _ HW) as Ehd. rewrite Ehd.
  unfold SetGenesis, modify. cbn [snd setHeaders setCurrent chainDb genesisHeader headerCache tdCache numberCache currentHeader currentHeaderHash].
  set (hc1 := mkHeaderChain db g (Some g) 0 (cacheAdd (headerHash g) g c) tcache ncache). assert (Hg : stored U hc1 g) by (by apply fresh_stored).
  assert (HG : Good U hc1).
  { split; [apply fresh_Store|]. split; unfold hc1; cbn [headerCache tdCache numberCache].
    - intros x h Hh. destruct (cacheAdd_adds _ _ _ _ _ Hh) as [[-> ->]|Hh']; [done|]. assert (Hk : fst (cacheGet x (snd (cacheGet (headerHash g) hcache))) = Some h) by (by rewrite Ec).
      apply cacheGet_keeps in Hk. by rewrite Eh in Hk.
    - intros x t Ht. by rewrite Et in Ht.
    - intros x n Hnn. by rewrite En in Hnn. }
  rewrite (wr_headBlock _ _ _ _ HW). destruct (Z.eqb_spec (headerHash g) 0) as [|_]; [done|].
  match goal with |- context [setCurrent (Some g) 0 ?x] => change (setCurrent (Some g) 0 x) with hc1 end.
  destruct (GetHeaderByHash_stored U HU hc1 g HG Hg) as (hc2 & E2 & [Ed Egen _ _ HG2]). rewrite E2. eexists. split; [reflexivity|].
  assert (Hs : forall h, stored U hc2 h <-> h = g) by (intros h; unfold stored; rewrite Ed; apply fresh_stored). split.
  - split; cbn [setCurrent chainDb currentHeader currentHeaderHash].
    + destruct HG2 as [HS2 [C1 C2 C3]]. by split; [|split].
    + done.
    + done.
    + rewrite Ed. apply (wr_headHeader _ _ _ _ HW).
    + by apply Hs.
    + intros n Hnn. assert (n = 0) as -> by lia. exists g. split_and!; [constructor; by apply Hs|done|]. unfold canonical. cbn [setCurrent chainDb]. rewrite Ed. apply (wr_canonical _ _ _ _ HW).
    + intros n Hnu Hlt. unfold canonical. cbn [setCurrent chainDb]. rewrite Ed. unfold hc1. cbn [chainDb]. unfold chaindb.GetCanonicalHash, chaindb.getHash, chaindb.Get.
      pose proof (absent (KCanonical n) Hnu) as Ea. cbn [keyBytes] in Ea. rewrite Ea; [done|]. unfold genesisKeys. rewrite !not_elem_of_cons.
      split_and!; try done; [|apply not_elem_of_nil]. intros E. injection E as ->. lia.
  - intros h t t' Hh E E'. apply Hs in Hh as ->. assert (t = t') as -> by congruence. lia.
Qed.
End Fresh.
End Open.
