(* ===== verification/ToyStore.v ===== *)
(** * A concrete store for examples

    Tries are finite maps, stored under a hash of their entries.  The theorems about package core/state hold
    for every [Database] with its laws; this instance serves them concrete states. *)

From stdpp Require Import base numbers list gmap sets option.
From Stdlib Require Import ZArith Lia Strings.Byte.
From S2P Require Import Prelude Common Types Toy VmCore VmPrecompiled State StateProofs StateLaws StateSafety StateFinalise.
Import state.

Module Store.

(** Keys and values; a key is the number its bytes write after a leading 1. *)
Notation trieMap := (gmap Z (list byte)).
Definition key (k : list byte) : Z := be_value (x01 :: k).

Definition root (t : trieMap) : Hash :=
  Toy.hash (mjoin ((fun '(k, v) => be_bytes 33 k ++ v) <$> map_to_list t)).

(** Committed tries by root, and codes by hash. *)
Record store := mkStore { tries : gmap Hash trieMap; codes : gmap Hash (list byte) }.

Definition openTrie (d : store) (h : Hash) : option trieMap :=
  if (h =? 0) || (h =? root ∅) then Some ∅ else tries d !! h.

#[global] Instance database : Database store trieMap := {|
  OpenTrie := openTrie;
  OpenStorageTrie := fun d _ h => openTrie d h;
  EmptyTrie := ∅;
  ContractCode := fun d _ h => if h =? emptyCodeHash then None else codes d !! h;
  TryGet := fun t k => Some (default [] (t !! key k));
  TryUpdate := fun t k v => Some (<[key k := v]> t);
  TryDelete := fun t k => Some (delete (key k) t);
  TrieHash := root;
  TrieCommit := fun t _ d => Some (root t, t, mkStore (<[root t := t]> (tries d)) (codes d));
  InsertCode := fun h c d => mkStore (tries d) (<[h := c]> (codes d));
  Reference := fun _ _ d => d
|}.

(** The addresses among the keys of a trie. *)
Definition addresses (t : trieMap) : gset Address :=
  set_map (fun k => k - 256 ^ 20) (dom t).

Lemma key_address a : is_address a -> key (AddressBytes a) = 256 ^ 20 + a.
Proof.
  intros Ha. unfold key. change (x01 :: AddressBytes a) with ([x01] ++ AddressBytes a).
  rewrite be_value_app. unfold AddressBytes. rewrite length_be_bytes, be_value_be_bytes.
  unfold is_address in Ha. rewrite Z.mod_small by (change (256 ^ Z.of_nat 20) with (2 ^ 160); lia). done.
Qed.

#[global] Instance databaseLaws : DatabaseLaws (CR := Toy.crypto) (D := store) (T := trieMap).
Proof.
  refine {| trieAddresses := addresses |}.
  - done.
  - done.
  - intros t a Ha Hl. unfold addresses. apply elem_of_map. exists (256 ^ 20 + a).
    split; [lia|]. apply elem_of_dom. rewrite <- key_address by done.
    unfold loadObject in Hl.
    change (TryGet t (AddressBytes a)) with (Some (default [] (t !! key (AddressBytes a)))) in Hl.
    destruct (t !! key (AddressBytes a)); [by eexists|done].
Defined.

Lemma key_inj k k' : key k = key k' -> k = k'.
Proof.
  assert (Hkey : forall b, 256 ^ Z.of_nat (length b) <= key b < 2 * 256 ^ Z.of_nat (length b)).
  { intros b. unfold key. rewrite be_value_cons. change (byte_to_Z x01) with 1. pose proof (be_value_range b). lia. }
  intros E. pose proof (Hkey k) as H1. pose proof (Hkey k') as H2.
  assert (Hlt : forall n m, (n < m)%nat -> 2 * 256 ^ Z.of_nat n <= 256 ^ Z.of_nat m).
  { intros n m Hn. replace (Z.of_nat m) with (Z.of_nat n + 1 + Z.of_nat (m - n - 1)) by lia. rewrite !Z.pow_add_r by lia.
    pose proof (Z.pow_pos_nonneg 256 (Z.of_nat n)). pose proof (Z.pow_pos_nonneg 256 (Z.of_nat (m - n - 1))). nia. }
  destruct (Nat.lt_total (length k) (length k')) as [Hl|[Hl|Hl]]; [specialize (Hlt _ _ Hl); lia| |specialize (Hlt _ _ Hl); lia].
  assert (Ek : x01 :: k = x01 :: k') by (apply be_value_inj; [cbn; lia|exact E]). by injection Ek.
Qed.

#[global] Instance trieLaws : TrieLaws (CR := Toy.crypto) (D := store) (T := trieMap).
Proof.
  refine {| whole := fun _ => True |}.
  - intros t k v _ _. by eexists.
  - intros t k _. by eexists.
  - intros t k v t' _ [= <-]. cbn. by rewrite lookup_insert_eq.
  - intros t k t' [= <-]. cbn. by rewrite lookup_delete_eq.
  - intros t k v t' k' [= <-] Hk. cbn. rewrite lookup_insert_ne; [done|]. by intros ->%key_inj.
  - intros t k t' k' [= <-] Hk. cbn. rewrite lookup_delete_ne; [done|]. by intros ->%key_inj.
Defined.

Lemma hash_short b : (length b <= 32)%nat -> Toy.hash b = key b mod 2 ^ 256.
Proof. intros H. unfold Toy.hash. by rewrite (proj2 (Nat.leb_le _ _) H). Qed.

Lemma key_hash h : is_hash h -> key (HashBytes h) = 1 * 2 ^ 256 + h.
Proof.
  intros Hh. unfold key, HashBytes. rewrite be_value_cons, length_be_bytes, be_value_be_bytes.
  change (256 ^ Z.of_nat 32) with (2 ^ 256). change (byte_to_Z x01) with 1. by rewrite Z.mod_small.
Qed.

(** The hash tells short keys apart. *)
Lemma address_apart a : is_address a -> AddressApart (CR := Toy.crypto) a.
Proof.
  intros Ha b Hb. change (@Keccak256 Toy.crypto) with Toy.hash.
  rewrite !hash_short by (unfold AddressBytes; rewrite length_be_bytes; lia). rewrite !key_address by done.
  unfold is_address in *. change (256 ^ 20) with (2 ^ 160). rewrite !Z.mod_small by lia. lia.
Qed.

(** Pairings and curves without content. *)
#[global] Instance nativeCrypto : NativeCrypto := {|
  G1 := unit;
  G2 := unit;
  Sha256 := fun bs => be_bytes 32 (Toy.hash bs);
  Ripemd160 := fun bs => be_bytes 20 (Toy.hash bs);
  g1Unmarshal := fun _ => Some tt;
  g1Marshal := fun _ => replicate 64 x00;
  g1Add := fun _ _ => tt;
  g1ScalarMult := fun _ _ => tt;
  g2Unmarshal := fun _ => Some tt;
  pairingCheck := fun _ _ => true
|}.

(** An account's entry, and the state over a trie. *)
Definition entry (a : Address) (nonce balance : Z) : Z * list byte :=
  (key (AddressBytes a),
   rlpEncode (accountRLP (mkAccount nonce balance 0 emptyCodeHash))).
Definition stateOver (t : trieMap) : StateDB store trieMap :=
  mkStateDB (mkStore {[ root t := t ]} ∅) t ∅ ∅ 0 0 0 0 ∅ 0 ∅ [] [] 0.

End Store.
