(* ===== verification/VmStateProofs.v ===== *)
(** * Package core/vm: what execution does to the state

    Against the laws of [VmStateSpec]: whatever code runs, snapshots taken before it
    stay good ([Evolves]), so a call that fails leaves the state as it found it. *)

From stdpp Require Import base numbers list gmap sets option.
From Stdlib Require Import ZArith Lia Strings.Byte.
From S2P Require Import Prelude Common Params Types VmCore VmGas VmOps VmPrecompiled VmInterp VmGasProofs VmStateSpec.

Section Evolve.
Context {S : Type} {SDB : StateDB S} {SL : StateDBLaws S}.

(** The state stays well-formed, and its snapshots good. *)
Definition Evolves (s s' : S) : Prop :=
  sOk s' /\ forall id s0, RevertToSnapshot id s = Some s0 ->
    exists s1, RevertToSnapshot id s' = Some s1 /\ sEq s0 s1.

Lemma Evolves_refl s : sOk s -> Evolves s s.
Proof. intros H. split; [done|]. intros id s0 E. by exists s0. Qed.

Lemma Evolves_trans s1 s2 s3 : Evolves s1 s2 -> Evolves s2 s3 -> Evolves s1 s3.
Proof.
  intros [_ H1] [H3 H2]. split; [done|]. intros id s0 E.
  destruct (H1 id s0 E) as (t & Et & Ht). destruct (H2 id t Et) as (t' & Et' & Ht').
  exists t'. split; [done|]. by etrans.
Qed.

Lemma update_evolves u s : sOk s -> Evolves s (runUpdate u s).
Proof. intros H. split; [by apply update_ok|]. intros id s0. by apply update_reverts. Qed.

Lemma snapshot_evolves s id s' : sOk s -> Snapshot s = (id, s') -> Evolves s s'.
Proof.
  intros H E. split; [by apply (snapshot_ok s id s')|]. intros i s0 E0.
  by apply (snapshot_reverts s id s' H E).
Qed.

(** From a snapshot on, reverting to it gives back the state before it. *)
Lemma revert_evolves s id s1 s2 :
  sOk s -> Snapshot s = (id, s1) -> Evolves s1 s2 ->
  exists s3, RevertToSnapshot id s2 = Some s3 /\ sEq s s3 /\ Evolves s s3.
Proof.
  intros H E [Hok2 H2]. destruct (snapshot_reverts s id s1 H E) as [(s0 & E0 & Heq) Hold].
  destruct (H2 id s0 E0) as (s3 & E3 & Heq3). exists s3. split; [done|]. split; [by etrans|].
  split; [by eapply revert_ok|]. intros i t Et. destruct (Hold i t Et) as (Hi & t1 & Et1 & Heqt1).
  destruct (H2 i t1 Et1) as (t2 & Et2 & Heqt2).
  destruct (revert_reverts s2 id s3 i t2 Hok2 E3 Hi Et2) as (t3 & Et3 & Heqt3).
  exists t3. split; [done|]. by do 2 (etrans; [done|]).
Qed.

End Evolve.

(** ** Relations on states that execution respects

    [w] says whether the code may write; static code may not.  A relation respects
    execution when it holds for each of the machine's own changes. *)

Record StateRel {S : Type} {SDB : StateDB S} {SL : StateDBLaws S} (w : bool) (R : S -> S -> Prop) : Prop := {
  sr_ok : forall s s', R s s' -> sOk s';
  sr_refl : forall s, sOk s -> R s s;
  sr_trans : forall s1 s2 s3, R s1 s2 -> R s2 s3 -> R s1 s3;
  sr_preimage : forall h b s, sOk s -> R s (AddPreimage h b s);
  sr_write : forall u s, w = true -> sOk s -> R s (runUpdate u s);
  sr_create : forall a s, Exist a s = false -> sOk s -> R s (CreateAccount a s);
  sr_transfer : forall a b s, sOk s -> R s (AddBalance b 0 (SubBalance a 0 s));
  sr_snapshot : forall s id s1, sOk s -> Snapshot s = (id, s1) -> R s s1;
  sr_revert : forall s id s1 s2, sOk s -> Snapshot s = (id, s1) -> R s1 s2 ->
    exists s3, RevertToSnapshot id s2 = Some s3 /\ sEq s s3 /\ R s s3
}.

Section Respects.
Context {S : Type} {SDB : StateDB S} {SL : StateDBLaws S}.
Context (w : bool) (R : S -> S -> Prop) (HR : StateRel w R).
Context {CR : Crypto} {NC : NativeCrypto} (env : Env).
Notation config := (chainConfig env).
Notation number := (envNumber env).
Notation VMM := (M (VM S) vmErr).
Notation EVMM := (M (EVM S) vmErr).
Notation stOf v := (eState (vmEvm v)).

(** The interpreter refuses to write. *)
Definition guarded (e : EVM S) : Prop :=
  w = true \/ (eReadOnly e = true /\ rIsByzantium (Rules config number) = true).

(** Execution goes on after the computation. *)
Definition alive {E A} (r : result E A) : Prop :=
  match r with Ok _ | Err _ => True | Panic | NoFuel => False end.

(** The computation respects the relation, and does not change the guard. *)
Definition RespectsE {A} (m : EVMM A) : Prop :=
  forall e, sOk (eState e) -> guarded e ->
    R (eState e) (eState (snd (m e))) /\ (alive (fst (m e)) -> eReadOnly (snd (m e)) = eReadOnly e).
Definition Respects {A} (m : VMM A) : Prop :=
  forall v, sOk (stOf v) -> guarded (vmEvm v) ->
    R (stOf v) (stOf (snd (m v))) /\
    (alive (fst (m v)) -> eReadOnly (vmEvm (snd (m v))) = eReadOnly (vmEvm v)).

Lemma guarded_same e e' : eReadOnly e' = eReadOnly e -> guarded e -> guarded e'.
Proof. unfold guarded. by intros ->. Qed.

Lemma Respects_bind {A B} (m : VMM A) (k : A -> VMM B) :
  Respects m -> (forall a, Respects (k a)) -> Respects (mbind m k).
Proof.
  intros Hm Hk v Hv Hg. unfold mbind. destruct (Hm v Hv Hg) as [H1 E1].
  destruct (m v) as [[a| | |] v1]; try done. cbn in H1, E1. specialize (E1 I).
  destruct (Hk a v1) as [H2 E2]; [by eapply sr_ok|by eapply guarded_same|].
  split; [by eapply (sr_trans w R)|]. rewrite <- E1. exact E2.
Qed.

Lemma RespectsE_bind {A B} (m : EVMM A) (k : A -> EVMM B) :
  RespectsE m -> (forall a, RespectsE (k a)) -> RespectsE (mbind m k).
Proof.
  intros Hm Hk v Hv Hg. unfold mbind. destruct (Hm v Hv Hg) as [H1 E1].
  destruct (m v) as [[a| | |] v1]; try done. cbn in H1, E1. specialize (E1 I).
  destruct (Hk a v1) as [H2 E2]; [by eapply sr_ok|by eapply guarded_same|].
  split; [by eapply (sr_trans w R)|]. rewrite <- E1. exact E2.
Qed.

(** A computation that leaves the state alone. *)
Definition Still {A} (m : VMM A) : Prop :=
  forall v, stOf (snd (m v)) = stOf v /\ eReadOnly (vmEvm (snd (m v))) = eReadOnly (vmEvm v).

Lemma Still_respects {A} (m : VMM A) : Still m -> Respects m.
Proof. intros Hm v Hv Hg. destruct (Hm v) as [-> E]. split; [by apply (sr_refl w R)|done]. Qed.

Lemma Still_ret {A} (a : A) : Still (ret a).
Proof. done. Qed.
Lemma Still_throw {A} e : Still (throw (A := A) e).
Proof. done. Qed.
Lemma Still_panic {A} : Still (panic (A := A)).
Proof. done. Qed.
Lemma Still_lift {A} (r : result vmErr A) : Still (lift r).
Proof. done. Qed.
Lemma Still_gets {A} (f : VM S -> A) : Still (gets f).
Proof. done. Qed.
Lemma Still_getState : Still getState.
Proof. done. Qed.
Lemma Still_pop : Still pop.
Proof. intros v. unfold pop. by destruct (vmStack v). Qed.
Lemma Still_push d : Still (push d).
Proof. done. Qed.
Lemma Still_Back n : Still (Back n).
Proof. intros v. unfold Back. by destruct (vmStack v !! n). Qed.
Lemma Still_dup n : Still (dup n).
Proof. intros v. unfold dup. by case_match. Qed.
Lemma Still_swap n : Still (swap n).
Proof. intros v. unfold swap. by repeat case_match. Qed.
Lemma Still_memoryGet o s : Still (memoryGet o s).
Proof. intros v. unfold memoryGet, memGet. by repeat case_match. Qed.
Lemma Still_memorySet o s d : Still (memorySet o s d).
Proof. intros v. unfold memorySet. by case_match. Qed.
Lemma Still_memoryGasCost n : Still (memoryGasCost n).
Proof.
  intros v. unfold memoryGasCost, memoryGasCostOn. destruct (n =? 0); [done|].
  destruct (n >? _); [done|]. cbv zeta. by destruct (_ >? mLen _).
Qed.
Lemma Still_setPc pc : Still (setPc pc).
Proof. done. Qed.
Lemma Still_setGas f : Still (setGas f).
Proof. done. Qed.
Lemma Still_checkJump pos : Still (checkJump pos).
Proof. intros v. unfold checkJump. by destruct (has _ _ _ _). Qed.

Lemma Respects_write u : w = true -> Respects (onState (runUpdate u)).
Proof. intros Hw v Hv _. split; [by apply (sr_write w R)|done]. Qed.

Lemma Respects_if {A} (b : bool) (m1 m2 : VMM A) :
  Respects m1 -> Respects m2 -> Respects (if b then m1 else m2).
Proof. by destruct b. Qed.

End Respects.

#[export] Hint Resolve Still_ret Still_throw Still_panic Still_lift Still_gets Still_getState Still_pop
  Still_push Still_Back Still_dup Still_swap Still_memoryGet Still_memorySet Still_memoryGasCost
  Still_setPc Still_setGas Still_checkJump : vm.

(** Follows the structure of a computation. *)
Ltac respects HR :=
  repeat (cbn beta zeta; intros;
    match goal with
    | |- Respects _ _ _ (mbind _ _) => apply (Respects_bind _ _ HR)
    | |- Respects _ _ _ (if _ then _ else _) => apply Respects_if
    | |- Respects _ _ _ (match ?x with _ => _ end) => destruct x
    | |- Respects _ _ _ (onState (AddRefund ?g)) => apply (Respects_write _ _ HR _ (UAddRefund g))
    | |- Respects _ _ _ (onState (SetState ?a ?k ?v)) => apply (Respects_write _ _ HR _ (USetState a k v))
    | |- Respects _ _ _ (onState (AddLog ?l)) => apply (Respects_write _ _ HR _ (UAddLog l))
    | |- Respects _ _ _ (onState (AddBalance ?a ?x)) => apply (Respects_write _ _ HR _ (UAddBalance a x))
    | |- Respects _ _ _ (onState (VmCore.Suicide ?a)) => apply (Respects_write _ _ HR _ (USuicide a))
    | |- _ => solve [eauto with vm | apply (Still_respects _ _ HR); eauto with vm]
    end).

Section Instructions.
Context {S : Type} {SDB : StateDB S} {SL : StateDBLaws S}.
Context (w : bool) (R : S -> S -> Prop) (HR : StateRel w R).
Context {CR : Crypto} {NC : NativeCrypto} (env : Env).
Notation config := (chainConfig env).
Notation number := (envNumber env).
Notation VMM := (M (VM S) vmErr).
Notation EVMM := (M (EVM S) vmErr).
Notation stOf v := (eState (vmEvm v)).
Notation Resp := (Respects w R env).
Notation RespE := (RespectsE w R env).

Record CalleeRespects (callee : Callee S) : Prop := {
  cr_call : forall c a i g value, w = true \/ value = 0 -> RespE (doCall callee c a i g value);
  cr_callCode : forall c a i g value, RespE (doCallCode callee c a i g value);
  cr_delegate : forall c a i g, RespE (doDelegateCall callee c a i g);
  cr_static : forall c a i g, RespE (doStaticCall callee c a i g);
  cr_create : forall c code g value, w = true -> RespE (doCreate callee c code g value)
}.

Lemma Respects_onEvm {A} (m : EVMM A) : RespE m -> Resp (onEvm m).
Proof.
  intros Hm v Hv Hg. unfold onEvm. destruct (Hm (vmEvm v) Hv Hg) as [H1 H2].
  by destruct (m (vmEvm v)).
Qed.

Lemma popTopics_respects n : Resp (popTopics n).
Proof. induction n as [|n IH]; cbn [popTopics]; respects HR. Qed.

Lemma opMstore8_respects : Resp opMstore8.
Proof.
  unfold opMstore8. respects HR. apply (Still_respects _ _ HR). intros v. by case_match.
Qed.

Lemma opSha3_respects : Resp (opSha3 env).
Proof.
  unfold opSha3. respects HR. intros v Hv _. split; [by apply (sr_preimage w R HR)|done].
Qed.

Lemma gasCallRest_respects base mg : Resp (gasCallRest config number base mg).
Proof. unfold gasCallRest. respects HR. Qed.

Lemma finishCall_respects o sz r : Resp (finishCall o sz r).
Proof. destruct r as [[out g] err]. unfold finishCall. respects HR. Qed.

(** What an operation does in the interpreter: static code gets to those that do
    not write, and to CALL when it sends nothing. *)
Record OpRespects (op : Z) (o : operation (S := S)) : Prop := {
  or_gas : w = true \/ oWrites o = false -> forall ms, Resp (oGasCost o ms);
  or_memory : match oMemorySize o with Some f => Resp f | None => True end;
  or_execute : forall v, sOk (stOf v) -> guarded w env (vmEvm v) ->
    w = true \/ (oWrites o = false /\ (op = CALL -> forall x, vmStack v !! 2%nat = Some x -> x = 0)) ->
    R (stOf v) (stOf (snd (oExecute o v))) /\
    (alive (fst (oExecute o v)) -> eReadOnly (vmEvm (snd (oExecute o v))) = eReadOnly (vmEvm v))
}.

Lemma OpRespects_simple op o :
  (w = true \/ oWrites o = false -> forall ms, Resp (oGasCost o ms)) ->
  match oMemorySize o with Some f => Resp f | None => True end ->
  (w = true \/ oWrites o = false -> Resp (oExecute o)) -> OpRespects op o.
Proof.
  intros Hg Hm Hx. split; [done|done|]. intros v Hv Hguard Hw. apply Hx; [|done|done].
  destruct Hw as [|[? _]]; auto.
Qed.

Lemma memRange_respects a b : Resp (memRange a b).
Proof. unfold memRange. respects HR. Qed.
Lemma memFixed_respects l : Resp (memFixed l).
Proof. unfold memFixed. respects HR. Qed.
Lemma memTwo_respects a b c d : Resp (memTwo a b c d).
Proof.
  unfold memTwo. repeat (apply (Respects_bind _ _ HR); [apply memRange_respects|intros]). respects HR.
Qed.

#[local] Hint Resolve memRange_respects memFixed_respects memTwo_respects popTopics_respects
  gasCallRest_respects finishCall_respects opMstore8_respects opSha3_respects : vm.

Ltac respectsUnfold :=
  lazymatch goal with
  | |- Respects _ _ _ opMstore8 => apply opMstore8_respects
  | |- Respects _ _ _ (opSha3 _) => apply opSha3_respects
  | |- Respects _ _ _ ?m => let f := headOf m in unfold f; respects HR
  end.
Ltac mayWrite Hw := try (assert (w = true) by (by destruct Hw)).
Ltac simpleRespects :=
  intros [= <-]; apply OpRespects_simple; cbn [oMemorySize oExecute oGasCost oWrites];
  [ intros Hw ms; mayWrite Hw; first [ solve [respectsUnfold]
      | unfold gasCallDataCopy, gasReturnDataCopy, gasCodeCopy, gasExtCodeCopy, gasSha3, gasCopy, gasMLoad,
          gasMStore8, gasMStore, gasCreate, gasMemConst; solve [respects HR] ]
  | first [done | apply memRange_respects | apply memFixed_respects | apply memTwo_respects]
  | intros Hw; mayWrite Hw; solve [respectsUnfold] ].

Context (callee : Callee S) (HC : CalleeRespects callee).

Lemma gasCalls_respect ms : Resp (gasCall config number ms) /\ Resp (gasCallCode config number ms) /\
  Resp (gasDelegateCall config number ms).
Proof. unfold gasCall, gasCallCode, gasDelegateCall. split_and!; respects HR. Qed.

(** The calls that pass no value on. *)
Lemma calls_respect :
  Resp (opCallCode callee) /\ Resp (opDelegateCall callee) /\ Resp (opStaticCall callee).
Proof.
  unfold opCallCode, opDelegateCall, opStaticCall. split_and!; respects HR;
    apply Respects_onEvm; apply HC.
Qed.

Lemma opCreate_respects : w = true -> Resp (opCreate env callee).
Proof.
  intros Hw. unfold opCreate. respects HR. apply Respects_onEvm. by apply HC.
Qed.

Lemma OpRespects_call op e g pop push m writes o :
  callOp e g pop push m writes = Some o -> (forall ms, Resp (g ms)) -> Resp m ->
  (w = true \/ writes = false -> Resp e) -> OpRespects op o.
Proof. intros [= <-] Hg Hm He. by apply OpRespects_simple. Qed.

Definition RespAt {A} (m : VMM A) (v : VM S) : Prop :=
  R (stOf v) (stOf (snd (m v))) /\
  (alive (fst (m v)) -> eReadOnly (vmEvm (snd (m v))) = eReadOnly (vmEvm v)).

Lemma RespAt_pop {B} (k : Z -> VMM B) v :
  sOk (stOf v) -> (forall x st, vmStack v = x :: st -> RespAt (k x) (vm_with_stack v st)) ->
  RespAt (mbind pop k) v.
Proof.
  intros Hv Hk. unfold RespAt, mbind, pop. destruct (vmStack v) as [|x st]; [|by apply Hk].
  split; [by apply (sr_refl w R HR)|done].
Qed.

(** Static code may send nothing. *)
Lemma opCall_value v :
  sOk (stOf v) -> guarded w env (vmEvm v) ->
  w = true \/ (forall x, vmStack v !! 2%nat = Some x -> x = 0) -> RespAt (opCall callee) v.
Proof.
  intros Hv Hg Hw. unfold opCall. apply RespAt_pop; [done|]. intros x0 st0 E0.
  unfold RespAt, mbind at 1, gets at 1.
  apply (RespAt_pop _ (vm_with_stack v st0)); [done|]. intros x1 st1 E1. cbn in E1.
  apply RespAt_pop; [done|]. intros x2 st2 E2. cbn in E2.
  assert (Hx2 : w = true \/ U256 x2 = 0).
  { destruct Hw as [|Hw]; [by left|right]. rewrite (Hw x2); [done|]. by rewrite E0, E1, E2. }
  match goal with |- RespAt ?m ?v' => assert (Hr : Resp m) end.
  { respects HR. apply Respects_onEvm. by apply HC. }
  by apply Hr.
Qed.

Lemma opCall_respects o :
  callOp (opCall callee) (gasCall config number) 7 1 memoryCall false = Some o -> OpRespects 241 o.
Proof.
  intros [= <-]. split; cbn [oGasCost oMemorySize oExecute oWrites].
  - intros _ ms. apply gasCalls_respect.
  - apply memTwo_respects.
  - intros v Hv Hg Hw. apply opCall_value; [done|done|].
    destruct Hw as [|[_ Hw]]; [by left|right]. by apply Hw.
Qed.

Lemma frontier_respects op o : frontierInstructionSet env callee op = Some o -> OpRespects op o.
Proof.
  unfold frontierInstructionSet.
  destruct (_ && _); [simpleRespects|]. destruct (_ && _); [simpleRespects|].
  destruct (_ && _); [simpleRespects|]. destruct (_ && _); [simpleRespects|].
  repeat case_match; try done; try (by simpleRespects).
  - apply opCall_respects.
  - intros Ho. eapply OpRespects_call; [exact Ho|apply gasCalls_respect|apply memTwo_respects|].
    intros _. apply calls_respect.
  - intros Ho. eapply OpRespects_call; [exact Ho| |apply memRange_respects|].
    + intros ms. unfold gasCreate, gasMemConst. respects HR.
    + intros [Hw|Hw]; [by apply opCreate_respects|done].
Qed.

Lemma homestead_respects op o : homesteadInstructionSet env callee op = Some o -> OpRespects op o.
Proof.
  unfold homesteadInstructionSet. destruct (op =? _); [|apply frontier_respects].
  intros Ho. eapply OpRespects_call; [exact Ho|apply gasCalls_respect|apply memTwo_respects|].
  intros _. apply calls_respect.
Qed.

Lemma jumpTable_respects op o : jumpTable env callee op = Some o -> OpRespects op o.
Proof.
  unfold jumpTable. destruct (IsByzantium _ _);
    [|destruct (IsHomestead _ _); [apply homestead_respects|apply frontier_respects]].
  unfold byzantiumInstructionSet. destruct (op =? _).
  { intros Ho. eapply OpRespects_call; [exact Ho|apply gasCalls_respect|apply memTwo_respects|].
    intros _. apply calls_respect. }
  destruct (op =? _); [simpleRespects|]. destruct (op =? _); [simpleRespects|].
  destruct (op =? _); [simpleRespects|apply homestead_respects].
Qed.

End Instructions.

(** ** The interpreter and the calls *)

Section Execution.
Context {S : Type} {SDB : StateDB S} {SL : StateDBLaws S}.
Context (w : bool) (R : S -> S -> Prop) (HR : StateRel w R).
Context {CR : Crypto} {NC : NativeCrypto} (env : Env).
Notation config := (chainConfig env).
Notation number := (envNumber env).
Notation VMM := (M (VM S) vmErr).
Notation EVMM := (M (EVM S) vmErr).
Notation stOf v := (eState (vmEvm v)).
Notation Resp := (Respects w R env).
Notation RespE := (RespectsE w R env).

Lemma BitLen_le_0 x : BitLen x <= 0 -> x = 0.
Proof. unfold BitLen. destruct (Z.eqb_spec x 0); [done|]. pose proof (Z.log2_nonneg (Z.abs x)). lia. Qed.

Lemma enforceRestrictions_Ok op o (v v' : VM S) :
  guarded w env (vmEvm v) -> enforceRestrictions env op o v = (Ok tt, v') ->
  v' = v /\ (w = true \/ (oWrites o = false /\ (op = CALL -> forall x, vmStack v !! 2%nat = Some x -> x = 0))).
Proof.
  intros Hg. unfold enforceRestrictions, mbind at 1, gets. destruct Hg as [Hw|[Hr Hb]].
  - intros E. split; [|by left]. revert E. destruct (_ && _); [|by intros [= <-]].
    destruct (oWrites o); [done|]. destruct (op =? CALL); [|by intros [= <-]].
    unfold mbind, Back. destruct (vmStack v !! 2%nat); [|done]. destruct (_ >? 0); [done|]. by intros [= <-].
  - rewrite Hr, Hb. cbn [andb]. destruct (oWrites o); [done|].
    destruct (Z.eqb_spec op CALL) as [->|Hne]; [|intros [= <-]; by split; [|right; split]].
    unfold mbind, Back. destruct (vmStack v !! 2%nat) as [x|] eqn:E; [|done].
    destruct (BitLen x >? 0) eqn:Eb; [done|]. intros [= <-]. split; [done|right].
    split; [done|]. intros _ y [= <-]. rewrite Z.gtb_ltb in Eb. bools. by apply BitLen_le_0.
Qed.

Lemma CalleeBound_0 (callee : Callee S) : CalleeBound 0 callee.
Proof. split; intros; intros gas e Hu Hlt; unfold is_u64 in Hu; lia. Qed.

Lemma chargeGas_respects op o ms :
  OpRespects w R env op o -> w = true \/ oWrites o = false -> Resp (chargeGas o ms).
Proof.
  intros Ho Hw v Hv Hg. destruct (or_gas _ _ _ _ _ Ho Hw ms v Hv Hg) as [H1 H2]. unfold chargeGas.
  destruct (oGasCost o ms v) as [[cost| | |] v1]; try done. cbn in *.
  by destruct (UseGas (vmContract v1) cost) as [[] c].
Qed.

Lemma memorySizeOf_respects op o : OpRespects w R env op o -> Resp (memorySizeOf o).
Proof.
  intros Ho. pose proof (or_memory _ _ _ _ _ Ho). unfold memorySizeOf.
  destruct (oMemorySize o); [|respects HR]. apply (Respects_bind _ _ HR); [done|]. respects HR.
Qed.

(** The stack that the charge and the memory's growth leave. *)
Lemma before_keeps callee op o :
  jumpTable env callee op = Some o -> KeepsS (memorySizeOf (S := S) o) /\
  forall ms v v', chargeGas o ms v = (Ok tt, v') -> vmStack v' = vmStack v.
Proof.
  intros Ej. pose proof (jumpTable_gas env 0 callee op o (CalleeBound_0 callee) Ej) as Ho.
  split; [by eapply memorySizeOf_keeps|]. intros ms v v' E. unfold chargeGas in E.
  destruct (og_keeps _ _ Ho ms v) as (_ & Es & _).
  destruct (oGasCost o ms v) as [[cost| | |] v1]; try done. cbn in Es.
  destruct (UseGas _ _) as [[] c]; [|done]. injection E as <-. done.
Qed.

Lemma RespAt_bind {A B} (m : VMM A) (k : A -> VMM B) v :
  Resp m -> sOk (stOf v) -> guarded w env (vmEvm v) ->
  (forall a v1, m v = (Ok a, v1) -> sOk (stOf v1) -> guarded w env (vmEvm v1) -> RespAt R (k a) v1) ->
  RespAt R (mbind m k) v.
Proof.
  intros Hm Hv Hg Hk. destruct (Hm v Hv Hg) as [H1 E1]. unfold RespAt, mbind.
  destruct (m v) as [[a| | |] v1]; try done. cbn in H1, E1. specialize (E1 I).
  destruct (Hk a v1 eq_refl) as [H2 E2]; [by eapply sr_ok|by eapply guarded_same|].
  split; [by eapply (sr_trans w R)|]. rewrite <- E1. exact E2.
Qed.

Lemma enforceRestrictions_still op o : Resp (enforceRestrictions env op o).
Proof. unfold enforceRestrictions. respects HR. Qed.

Lemma resize_respects ms :
  Resp (if ms >? 0 then modify (fun v : VM S => vm_with_memory v (memResize ms (vmMemory v))) else ret tt).
Proof. respects HR. Qed.

Lemma executeTail_respects op o v :
  OpRespects w R env op o -> sOk (stOf v) -> guarded w env (vmEvm v) ->
  w = true \/ (oWrites o = false /\ (op = CALL -> forall x, vmStack v !! 2%nat = Some x -> x = 0)) ->
  RespAt R (let! res := executeOp o in
            if oReverts o then ret (Some (res, Some errExecutionReverted))
            else if oHalts o then ret (Some (res, None))
            else
              let! _ := if oJumps o then ret tt
                        else modify (fun v => vm_with_pc v (u64 (vmPc v + 1))) in
              ret None) v.
Proof.
  intros Ho Hv Hg Hw. destruct (or_execute _ _ _ _ _ Ho v Hv Hg Hw) as [H1 H2].
  unfold RespAt, mbind, executeOp. destruct (oExecute o v) as [r v1]. cbn [snd] in H1, H2.
  assert (E : forall x, stOf (setReturnData o x v1) = stOf v1 /\
    eReadOnly (vmEvm (setReturnData o x v1)) = eReadOnly (vmEvm v1)).
  { intros x. unfold setReturnData. by destruct (oReturns o). }
  destruct r as [res|e| |]; cbn [snd];
    [|destruct (E []) as [E1 E2]; split; cbn; by rewrite ?E1, ?E2..]. destruct (E res) as [E1 E2].
  destruct (oReverts o); [split; cbn; by rewrite ?E1, ?E2|].
  destruct (oHalts o); [split; cbn; by rewrite ?E1, ?E2|].
  destruct (oJumps o); split; cbn; by rewrite ?E1, ?E2.
Qed.

Lemma step_respects callee : CalleeRespects w R env callee -> Resp (step env callee).
Proof.
  intros HC v Hv Hg. change (RespAt R (step env callee) v). unfold step.
  apply RespAt_bind; [respects HR|done|done|]. intros ? ? [= <- <-] _ _. cbv zeta.
  destruct (jumpTable env callee _) as [o|] eqn:Ej; [|split; [by apply (sr_refl w R HR)|done]].
  pose proof (jumpTable_respects w R HR env callee HC _ o Ej) as Ho.
  destruct (before_keeps callee _ o Ej) as [Hks Hcs].
  apply RespAt_bind; [respects HR|done|done|]. intros [] ? [= _ <-] _ _.
  apply RespAt_bind; [apply enforceRestrictions_still|done|done|]. intros [] v1 E1 Hv1 Hg1.
  apply enforceRestrictions_Ok in E1 as [-> Hw]; [|done].
  apply RespAt_bind; [by eapply memorySizeOf_respects|done|done|]. intros ms v2 E2 Hv2 Hg2.
  destruct (Hks v) as (_ & Es2 & _). rewrite E2 in Es2. cbn in Es2.
  apply RespAt_bind; [|done|done|].
  { apply Respects_if; [respects HR|]. eapply chargeGas_respects; [done|]. destruct Hw as [|[]]; auto. }
  intros [] v3 E3 Hv3 Hg3.
  assert (Es3 : vmStack v3 = vmStack v).
  { destruct (DisableGasMetering _); [by injection E3 as <-|]. apply Hcs in E3. congruence. }
  apply RespAt_bind; [apply resize_respects|done|done|]. intros [] v4 E4 Hv4 Hg4.
  assert (Es4 : vmStack v4 = vmStack v).
  { destruct (ms >? 0); injection E4 as <-; done. }
  eapply executeTail_respects; [done|done|done|]. by rewrite Es4.
Qed.

(** *** Calls

    [LoopOk]: the loop respects the relation and reports failures as values. *)

Definition NoErr {A} (r : result vmErr A) : Prop := forall e, r <> Err e.
Lemma NoErr_Err {A} (x : vmErr) : ~ NoErr (Err x : result vmErr A).
Proof. intros H. by apply (H x). Qed.

Definition LoopOk (loopF : VMM (list byte * option vmErr)) : Prop :=
  Resp loopF /\ forall v, NoErr (fst (loopF v)).

(** A call that fails leaves a state that looks like the one it found. *)
Definition FailsBack {A} (err : A -> option vmErr) (s : S) (r : result vmErr A * EVM S) : Prop :=
  forall a x, fst r = Ok a -> err a = Some x -> sEq s (eState (snd r)).

(** [RespectsE], and failures take effects back. *)
Definition Good {A} (err : A -> option vmErr) (m : EVMM A) : Prop :=
  forall e, sOk (eState e) -> guarded w env e ->
    R (eState e) (eState (snd (m e))) /\ (alive (fst (m e)) -> eReadOnly (snd (m e)) = eReadOnly e) /\
    NoErr (fst (m e)) /\ FailsBack err (eState e) (m e).

(** The same for the rest of a call after its snapshot [id] of [s], which gave [s1]. *)
Definition Body {A} (err : A -> option vmErr) (s : S) (s1 : S) (m : EVMM A) : Prop :=
  forall e, R s1 (eState e) -> guarded w env e ->
    R s (eState (snd (m e))) /\ (alive (fst (m e)) -> eReadOnly (snd (m e)) = eReadOnly e) /\
    NoErr (fst (m e)) /\ FailsBack err s (m e).

Lemma Good_ret {A} (err : A -> option vmErr) a : Good err (ret a).
Proof.
  intros e He Hg. split_and!; [by apply (sr_refl w R HR)|done|done|]. intros b x _ _. done.
Qed.

Lemma Good_gets {A B} (err : B -> option vmErr) (f : EVM S -> A) (k : A -> EVMM B) :
  (forall a, Good err (k a)) -> Good err (mbind (gets f) k).
Proof. intros Hk e. apply Hk. Qed.

Lemma Good_if {A} (err : A -> option vmErr) (b : bool) m1 m2 :
  Good err m1 -> Good err m2 -> Good err (if b then m1 else m2).
Proof. by destruct b. Qed.

Lemma Body_if {A} (err : A -> option vmErr) s s1 (b : bool) m1 m2 :
  Body err s s1 m1 -> Body err s s1 m2 -> Body err s s1 (if b then m1 else m2).
Proof. by destruct b. Qed.

Lemma Good_snapshot {A} (err : A -> option vmErr) (k : Z -> EVMM A) :
  (forall s id s1, sOk s -> Snapshot s = (id, s1) -> Body err s s1 (k id)) ->
  Good err (mbind takeSnapshot k).
Proof.
  intros Hk e He Hg. unfold mbind, takeSnapshot. destruct (Snapshot (eState e)) as [id s1] eqn:E.
  apply (Hk (eState e) id s1 He E (evm_with_state e s1)); [|exact Hg].
  apply (sr_refl w R HR). by eapply (sr_ok w R HR), (sr_snapshot w R HR).
Qed.

Definition BodyAt {A} (err : A -> option vmErr) (s s1 : S) (m : EVMM A) (e : EVM S) : Prop :=
  R s (eState (snd (m e))) /\ (alive (fst (m e)) -> eReadOnly (snd (m e)) = eReadOnly e) /\
  NoErr (fst (m e)) /\ FailsBack err s (m e).

Lemma BodyAt_bind {A B} (err : B -> option vmErr) s s1 (m : EVMM A) (k : A -> EVMM B) id e :
  sOk s -> Snapshot s = (id, s1) -> R s1 (eState e) -> guarded w env e ->
  R (eState e) (eState (snd (m e))) -> (alive (fst (m e)) -> eReadOnly (snd (m e)) = eReadOnly e) ->
  NoErr (fst (m e)) -> (forall a, Body err s s1 (k a)) -> BodyAt err s s1 (mbind m k) e.
Proof.
  intros Hs Hsnap He Hg H1 E1 Hne Hk. unfold BodyAt, mbind.
  assert (H2 : R s1 (eState (snd (m e)))) by (by eapply (sr_trans w R HR)).
  assert (H3 : R s (eState (snd (m e)))) by (eapply (sr_trans w R HR); [by eapply (sr_snapshot w R HR)|done]).
  destruct (m e) as [[a| | |] e1]; cbn [fst snd] in *; try (by split_and!).
  - specialize (E1 I). rewrite <- E1. apply Hk; [done|]. by eapply guarded_same.
  - by destruct (Hne e0).
Qed.

Lemma Body_bind {A B} (err : B -> option vmErr) s s1 (m : EVMM A) (k : A -> EVMM B) id :
  sOk s -> Snapshot s = (id, s1) ->
  RespE m -> (forall e, NoErr (fst (m e))) -> (forall a, Body err s s1 (k a)) -> Body err s s1 (mbind m k).
Proof.
  intros Hs Hsnap Hm Hne Hk e He Hg.
  destruct (Hm e) as [H1 E1]; [by eapply (sr_ok w R HR)|done|]. by eapply BodyAt_bind.
Qed.

Lemma Body_ret {A} (err : A -> option vmErr) s s1 id a :
  sOk s -> Snapshot s = (id, s1) -> err a = None -> Body err s s1 (ret a).
Proof.
  intros Hs Hsnap Herr e He Hg. split_and!; [|done|done|].
  - eapply (sr_trans w R HR); [by eapply (sr_snapshot w R HR)|done].
  - intros b x [= <-]. cbn. congruence.
Qed.

Definition callErr (r : callResult) : option vmErr := snd r.

Lemma Body_settle s id s1 r :
  sOk s -> Snapshot s = (id, s1) -> Body callErr s s1 (settle id r).
Proof.
  intros Hs Hsnap. destruct r as [[out [x|]] c]; cbn [settle]; [|by eapply Body_ret].
  intros e He Hg. unfold mbind, revertTo.
  destruct (sr_revert w R HR s id s1 (eState e) Hs Hsnap He) as (s3 & E3 & Heq & HR3). rewrite E3.
  cbn. split_and!; [done|done|done|]. intros a y _ _. done.
Qed.

Lemma RespE_state (f : S -> S) : (forall s, sOk s -> R s (f s)) -> RespE (onStateE f).
Proof. intros Hf e He Hg. split; [by apply Hf|done]. Qed.

Lemma RunPrecompiled_noErr p input c : NoErr (fst (RunPrecompiledContract p input c)).
Proof.
  intros x. unfold RunPrecompiledContract. destruct (RequiredGas p input); try done.
  destruct (UseGas c a) as [[] c']; [|done]. by destruct (RunP p input).
Qed.

Section Running.
Context (loopF : VMM (list byte * option vmErr)) (HL : LoopOk loopF).

Lemma Run_good c input : RespE (Run loopF c input) /\ forall e, NoErr (fst (Run loopF c input e)).
Proof.
  destruct HL as [Hr Hn]. split.
  - intros e He Hg. unfold Run. destruct (cCode c); [by split; [apply (sr_refl w R HR)|]|].
    match goal with |- context [loopF ?v] => destruct (Hr v He Hg) as [H1 H2];
      destruct (loopF v) as [[[out err]| | |] v'] end; by split.
  - intros e x. unfold Run. destruct (cCode c); [done|].
    match goal with |- context [loopF ?v] => specialize (Hn v x); destruct (loopF v) as [[[out err]| | |] v'] end;
      cbn in *; congruence.
Qed.

Lemma run_good c input : RespE (run env loopF c input) /\ forall e, NoErr (fst (run env loopF c input e)).
Proof.
  unfold run. destruct (cCodeAddr c) as [a|]; [|apply Run_good].
  destruct (precompiles env a) as [p|]; [|apply Run_good].
  pose proof (RunPrecompiled_noErr p input c) as Hn.
  destruct (RunPrecompiledContract p input c) as [r c']. cbn in Hn. split.
  - intros e He Hg. split; [by apply (sr_refl w R HR)|done].
  - intros e x. specialize (Hn x). destruct r as [[out err]| | |]; cbn; congruence.
Qed.

Lemma enterContract_good caller : RespE (enterContract caller) /\ forall e, NoErr (fst (enterContract (S := S) caller e)).
Proof.
  destruct caller; (split; [|done]); intros e He Hg; (split; [by apply (sr_refl w R HR)|done]).
Qed.

(** The end of every call. *)
Lemma Body_run s id s1 caller (mk : S -> Contract) input :
  sOk s -> Snapshot s = (id, s1) ->
  Body callErr s s1 (let! _ := enterContract caller in
                     let! st := stateOf in
                     let! r := run env loopF (mk st) input in
                     settle id r).
Proof.
  intros Hs Hsnap.
  eapply Body_bind; [done|done|apply enterContract_good|apply enterContract_good|]. intros _ e He Hg.
  destruct (run_good (mk (eState e)) input) as [Hr Hn].
  change (BodyAt callErr s s1 (mbind (run env loopF (mk (eState e)) input) (settle id)) e).
  destruct (Hr e) as [H1 H2]; [by eapply (sr_ok w R HR)|done|].
  eapply BodyAt_bind; try done. intros r. by apply Body_settle.
Qed.

Lemma Transfer_R a b x s : w = true \/ x = 0 -> sOk s -> R s (Transfer a b x s).
Proof.
  intros Hw Hs. destruct (decide (x = 0)) as [->|]; [by apply (sr_transfer w R HR)|].
  destruct Hw as [Hw|]; [|done]. unfold Transfer.
  assert (H1 : R s (SubBalance a x s)) by (by apply (sr_write w R HR (USubBalance a x))).
  eapply (sr_trans w R HR); [exact H1|]. apply (sr_write w R HR (UAddBalance b x)); [done|].
  by eapply (sr_ok w R HR).
Qed.

Lemma Call_good caller addr input gas value :
  w = true \/ value = 0 -> Good callErr (Call env loopF caller addr input gas value).
Proof.
  intros Hw. unfold Call. apply Good_gets. intros e0.
  apply Good_if; [apply Good_ret|]. apply Good_if; [apply Good_ret|]. apply Good_if; [apply Good_ret|].
  apply Good_snapshot. intros s id s1 Hs Hsnap e He Hg.
  assert (Hok : sOk (eState e)) by (by eapply (sr_ok w R HR)).
  match goal with |- context [mbind stateOf ?k e] => change (mbind stateOf k e) with (k (eState e) e) end.
  cbv beta. match goal with |- context [if ?c then _ else _] => destruct c end; [by eapply Body_ret|].
  eapply BodyAt_bind; try done.
  - destruct (Exist addr (eState e)) eqn:Ex; cbn; [by apply (sr_refl w R HR)|by apply (sr_create w R HR)].
  - by destruct (Exist addr (eState e)).
  - by destruct (Exist addr (eState e)).
  - intros _. eapply Body_bind; [done|done|apply RespE_state; intros; by apply Transfer_R|done|].
    intros _. by apply (Body_run s id s1 caller (fun st => SetCallCode (NewContract caller addr value gas) addr
                        (GetCodeHash addr st) (GetCode addr st))).
Qed.

Lemma CallCode_good caller addr input gas value :
  Good callErr (CallCode env loopF caller addr input gas value).
Proof.
  unfold CallCode. apply Good_gets. intros e0.
  apply Good_if; [apply Good_ret|]. apply Good_if; [apply Good_ret|]. apply Good_if; [apply Good_ret|].
  apply Good_snapshot. intros s id s1 Hs Hsnap.
  by apply (Body_run s id s1 caller (fun st => SetCallCode (NewContract caller (refAddress caller) value gas) addr
                      (GetCodeHash addr st) (GetCode addr st))).
Qed.

Lemma DelegateCall_good caller addr input gas :
  Good callErr (DelegateCall env loopF caller addr input gas).
Proof.
  unfold DelegateCall. apply Good_gets. intros e0.
  apply Good_if; [apply Good_ret|]. apply Good_if; [apply Good_ret|].
  apply Good_snapshot. intros s id s1 Hs Hsnap. destruct caller as [a|parent].
  - intros e He Hg. split_and!; try done. eapply (sr_trans w R HR); [by eapply (sr_snapshot w R HR)|done].
  - by apply (Body_run s id s1 (ContractCaller parent)
      (fun st => SetCallCode (AsDelegate parent (NewContract (ContractCaller parent) (cSelf parent) 0 gas)) addr
                   (GetCodeHash addr st) (GetCode addr st))).
Qed.

Lemma guarded_readOnly (e : EVM S) : guarded w env e -> guarded w env (evm_with_readOnly e true).
Proof. intros [|[_ ?]]; [by left|by right]. Qed.

Lemma StaticCall_good caller addr input gas :
  Good callErr (StaticCall env loopF caller addr input gas).
Proof.
  unfold StaticCall. intros e He Hg.
  match goal with |- context [mbind (gets ?f) ?k e] => change (mbind (gets f) k e) with (k e e) end.
  cbv beta. destruct (NoRecursion _ && _); [by apply Good_ret|].
  destruct (eDepth e >? _); [by apply Good_ret|].
  assert (Hm : Good callErr (let! id := takeSnapshot in
            let! _ := enterContract caller in
            let! s := stateOf in
            let! r := run env loopF (SetCallCode (NewContract caller addr 0 gas) addr
                        (GetCodeHash addr s) (GetCode addr s)) input in
            settle id r)).
  { apply Good_snapshot. intros s id s1 Hs Hsnap.
    by apply (Body_run s id s1 caller (fun st => SetCallCode (NewContract caller addr 0 gas) addr
                        (GetCodeHash addr st) (GetCode addr st))). }
  destruct (Hm (evm_with_readOnly e true) He (guarded_readOnly e Hg)) as (H1 & _ & H3 & H4).
  clear Hm. revert H1 H3 H4. unfold FailsBack, setReadOnly, modify, mbind, stateOf, gets.
  destruct (takeSnapshot _) as [[id| | |] e1]; cbn [fst snd]; [|intros ? []%NoErr_Err ?|by intros; split_and!..].
  destruct (enterContract caller e1) as [[[]| | |] e2]; cbn [fst snd];
    [|intros ? []%NoErr_Err ?|by intros; split_and!..].
  destruct (run env loopF _ input e2) as [[r| | |] e3]; cbn [fst snd];
    [|intros ? []%NoErr_Err ?|by intros; split_and!..].
  destruct (settle id r e3) as [[res| | |] e4]; cbn [fst snd]; [|intros ? []%NoErr_Err ?|by intros; split_and!..].
  intros H1 H3 H4. split_and!; done.
Qed.

(** *** Create

    Before Homestead a contract whose code could not be paid for stays. *)

Definition createErr (r : createResult) : option vmErr :=
  match snd r with
  | Some x => if IsHomestead config number || negb (bool_decide (x = ErrCodeStoreOutOfGas))
              then Some x else None
  | None => None
  end.

Lemma Body_deploy s id s1 addr r :
  w = true -> sOk s -> Snapshot s = (id, s1) -> Body createErr s s1 (deploy env addr id r).
Proof.
  intros Hw Hs Hsnap. destruct r as [[out err] c]. unfold deploy. cbv zeta.
  set (big := IsEIP158 config number && _). clearbody big.
  eapply Body_bind; [done|done| | |].
  { destruct (bool_decide (err = None) && negb big); [|intros e He Hg; by split; [apply (sr_refl w R HR)|]].
    destruct (UseGas c _) as [[] c']; [|intros e He Hg; by split; [apply (sr_refl w R HR)|]].
    apply (RespectsE_bind _ _ HR); [|intros _ e He Hg; by split; [apply (sr_refl w R HR)|]].
    apply RespE_state. intros s0 Hs0. by apply (sr_write w R HR (USetCode addr out)). }
  { intros e x. destruct (_ && _); [|done]. by destruct (UseGas c _) as [[] c']. }
  intros [err' c'] e He Hg. unfold mbind.
  set (undo := big || _). destruct undo eqn:Eu.
  - unfold revertTo. destruct (sr_revert w R HR s id s1 (eState e) Hs Hsnap He) as (s3 & E3 & Heq & HR3).
    rewrite E3. cbn. split_and!; [done|done|done|]. intros a y _ _. done.
  - cbn. split_and!; [|done|done|].
    + eapply (sr_trans w R HR); [by eapply (sr_snapshot w R HR)|done].
    + intros a y [= <-]. unfold createErr. cbn. unfold undo in Eu. bools. subst big. cbn.
      destruct err' as [x|]; [|done]. destruct (IsHomestead config number); [done|].
      intros E. cbn in *. destruct (bool_decide_reflect (x = ErrCodeStoreOutOfGas)) as [->|]; [done|].
      by rewrite bool_decide_eq_false_2 in H0 by congruence.
Qed.

(** The state that a failed creation goes back to: the caller's nonce is spent. *)
Definition createStart (caller : ContractRef) (value : Z) (e : EVM S) : S :=
  if (eDepth e >? CallCreateDepth) || negb (CanTransfer (eState e) (refAddress caller) value)
  then eState e
  else SetNonce (refAddress caller) (u64 (GetNonce (refAddress caller) (eState e) + 1)) (eState e).

Lemma Create_good caller code gas value e :
  w = true -> sOk (eState e) -> guarded w env e ->
  let r := Create env loopF caller code gas value e in
  R (eState e) (eState (snd r)) /\ (alive (fst r) -> eReadOnly (snd r) = eReadOnly e) /\
  NoErr (fst r) /\ FailsBack createErr (createStart caller value e) r.
Proof.
  intros Hw He Hg. unfold Create, createStart. cbv zeta.
  match goal with |- context [mbind (gets ?f) ?k e] => change (mbind (gets f) k e) with (k e e) end. cbv beta.
  destruct (eDepth e >? _); [by apply Good_ret|]. destruct (negb _); [by apply Good_ret|]. cbn [orb].
  set (s1 := SetNonce _ _ (eState e)).
  match goal with |- context [mbind (onStateE ?f) ?k e] =>
    change (mbind (onStateE f) k e) with (k tt (evm_with_state e s1)) end. cbv beta.
  assert (Hs1 : R (eState e) s1) by (by apply (sr_write w R HR (USetNonce _ _))).
  assert (Hok1 : sOk s1) by (by eapply (sr_ok w R HR)).
  match goal with |- context [mbind stateOf ?k ?e'] => change (mbind stateOf k e') with (k (eState e') e') end.
  cbv beta. destruct (_ || _).
  { split_and!; try done. intros a x _ _. done. }
  match goal with |- context [?m (evm_with_state e s1)] =>
    assert (Hm : Good createErr m) end.
  { apply Good_snapshot. intros s id s2 Hs Hsnap.
    eapply Body_bind; [done|done|apply RespE_state; intros; by apply (sr_write w R HR (UCreateAccount _))|done|].
    intros _. eapply Body_bind; [done|done| | |].
    { destruct (IsEIP158 _ _); [|intros e0 He0 Hg0; by split; [apply (sr_refl w R HR)|]].
      apply RespE_state. intros; by apply (sr_write w R HR (USetNonce _ _)). }
    { intros e0. by destruct (IsEIP158 _ _). }
    intros _. eapply Body_bind; [done|done|apply RespE_state; intros; apply Transfer_R; [by left|done]|done|].
    intros _. eapply Body_bind; [done|done|apply enterContract_good|apply enterContract_good|]. intros _.
    apply Body_if; [by eapply Body_ret|].
    eapply Body_bind; [done|done|apply run_good|apply run_good|]. intros r. by apply Body_deploy. }
  destruct (Hm (evm_with_state e s1) Hok1 Hg) as (H1 & H2 & H3 & H4).
  split_and!; [by eapply (sr_trans w R HR)|done|done|done].
Qed.

Lemma Good_respects {A} (err : A -> option vmErr) m : Good err m -> RespE m.
Proof. intros Hm e He Hg. by destruct (Hm e He Hg) as (? & ? & _). Qed.

Lemma calleeOf_respects : CalleeRespects w R env (calleeOf env loopF).
Proof.
  split; intros; cbn [calleeOf doCall doCallCode doDelegateCall doStaticCall doCreate].
  - eapply Good_respects. by apply Call_good.
  - eapply Good_respects. apply CallCode_good.
  - eapply Good_respects. apply DelegateCall_good.
  - eapply Good_respects. apply StaticCall_good.
  - intros e He Hg. by destruct (Create_good (ContractCaller c) code g value e) as (? & ? & _).
Qed.

End Running.

Lemma loop_ok fuel : LoopOk (loop env fuel).
Proof.
  induction fuel as [|fuel IH]; (split; [intros v Hv Hg|intros v x]); cbn [loop].
  - split; [by apply (sr_refl w R HR)|done].
  - done.
  - destruct (step_respects (calleeOf env (loop env fuel)) (calleeOf_respects _ IH) v Hv Hg) as [H1 H2].
    destruct (step env (calleeOf env (loop env fuel)) v) as [r v1]. cbn [fst snd] in *.
    destruct r as [[y|]|e| |]; try done. specialize (H2 I).
    destruct (proj1 IH v1) as [H3 H4]; [by eapply (sr_ok w R HR)|by eapply guarded_same|].
    split; [by eapply (sr_trans w R HR)|]. rewrite <- H2. exact H4.
  - destruct (step env (calleeOf env (loop env fuel)) v) as [[[y|]|e| |] v1]; try done.
    apply (proj2 IH).
Qed.

End Execution.

(** ** The two relations *)

Section Instances.
Context {S : Type} {SDB : StateDB S} {SL : StateDBLaws S}.

(** Any code. *)
Lemma evolves_rel : StateRel true (fun s s' => Evolves s s').
Proof.
  split.
  - by intros s s' [].
  - apply Evolves_refl.
  - apply Evolves_trans.
  - intros h b s. apply (update_evolves (UAddPreimage h b)).
  - intros u s _. apply update_evolves.
  - intros a s _. apply (update_evolves (UCreateAccount a)).
  - intros a b s Hs. pose proof (update_evolves (USubBalance a 0) s Hs) as H1.
    eapply Evolves_trans; [exact H1|]. apply (update_evolves (UAddBalance b 0)), H1.
  - apply snapshot_evolves.
  - apply revert_evolves.
Qed.

(** Static code: the accounts' data stay the same as well. *)
Definition Unchanged (s s' : S) : Prop := Evolves s s' /\ SameData s s'.

Lemma SameData_trans s1 s2 s3 : SameData s1 s2 -> SameData s2 s3 -> SameData s1 s3.
Proof. intros [] []. split; intros; etrans; eauto. Qed.

Lemma SameView_data s s' : SameView s s' -> SameData s s'.
Proof. by intros []. Qed.

(** Any code: the refund counter stays a uint64. *)
Lemma refund_rel {RL : RefundLaws S} :
  StateRel true (fun s s' => Evolves s s' /\ (is_u64 (GetRefund s) -> is_u64 (GetRefund s'))).
Proof.
  assert (Hu : forall u s, sOk s -> Evolves s (runUpdate u s) /\ (is_u64 (GetRefund s) -> is_u64 (GetRefund (runUpdate u s)))).
  { intros u s Hs. split; [by apply update_evolves|]. by apply update_refund. }
  split.
  - by intros s s' [[] _].
  - intros s Hs. split; [by apply Evolves_refl|done].
  - intros s1 s2 s3 [H1 D1] [H2 D2]. split; [by eapply Evolves_trans|auto].
  - intros h b s. apply (Hu (UAddPreimage h b)).
  - intros u s _. apply Hu.
  - intros a s _. apply (Hu (UCreateAccount a)).
  - intros a b s Hs. destruct (Hu (USubBalance a 0) s Hs) as [H1 D1].
    destruct (Hu (UAddBalance b 0) _ (proj1 H1)) as [H2 D2]. split; [by eapply Evolves_trans|auto].
  - intros s id s1 Hs E. split; [by eapply snapshot_evolves|].
    by rewrite (sv_refund _ _ (sEq_view _ _ (proj2 (snapshot_ok s id s1 Hs E)))).
  - intros s id s1 s2 Hs E [H2 _]. destruct (revert_evolves s id s1 s2 Hs E H2) as (s3 & E3 & Heq & H3).
    exists s3. split_and!; [done..|]. by rewrite (sv_refund _ _ (sEq_view _ _ Heq)).
Qed.

Context {ST : StaticLaws S}.

Lemma unchanged_rel : StateRel false Unchanged.
Proof.
  split.
  - by intros s s' [[] _].
  - intros s Hs. split; [by apply Evolves_refl|by split].
  - intros s1 s2 s3 [H1 D1] [H2 D2]. split; [by eapply Evolves_trans|by eapply SameData_trans].
  - intros h b s Hs. split; [by apply (update_evolves (UAddPreimage h b))|by apply preimage_data].
  - done.
  - intros a s Hex Hs. split; [by apply (update_evolves (UCreateAccount a))|by apply create_fresh].
  - intros a b s Hs. pose proof (update_evolves (USubBalance a 0) s Hs) as H1.
    pose proof (update_evolves (UAddBalance b 0) _ (proj1 H1)) as H2. split; [by eapply Evolves_trans|].
    eapply SameData_trans; [by apply (sub_nothing a s)|]. apply add_nothing, H1.
  - intros s id s1 Hs E. split; [by eapply snapshot_evolves|].
    apply SameView_data, sEq_view, (snapshot_ok s id s1 Hs E).
  - intros s id s1 s2 Hs E [H2 _]. destruct (revert_evolves s id s1 s2 Hs E H2) as (s3 & E3 & Heq & H3).
    exists s3. split_and!; [done|done|split; [done|]]. by apply SameView_data, sEq_view.
Qed.

End Instances.
