(* ===== verification/VmAnalysis.v ===== *)
(** * Package core/vm: jump destinations and the price of memory

    [codeBitmap] marks exactly the bytes that are arguments of a PUSH, so [has]
    accepts exactly the JUMPDEST instructions.  [memoryGasCost] charges the yellow
    paper's function of the memory's size, up to a bound that is lower than the one
    that its comment gives. *)

From stdpp Require Import base numbers list gmap sets option.
From Stdlib Require Import ZArith Lia Strings.Byte.
From S2P Require Import Prelude Common Params Types VmCore VmGas.

(** ** Reference: which bytes are push data *)

(** How many bytes of data follow an instruction. *)
Definition pushBytes (b : byte) : nat :=
  let op := byte_to_Z b in
  if (PUSH1 <=? op) && (op <=? PUSH32) then Z.to_nat (op - PUSH1 + 1) else 0.

(** For each byte of code whether it is data, when the first [skip] bytes are. *)
Fixpoint pushData (skip : nat) (code : list byte) : list bool :=
  match code with
  | [] => []
  | b :: code =>
      match skip with
      | O => false :: pushData (pushBytes b) code
      | S skip => true :: pushData skip code
      end
  end.

Definition isData (code : list byte) (i : nat) : bool := default false (pushData 0 code !! i).

(** ** Bits *)

Definition bitAt (bits : bitvec) (pos : Z) : bool :=
  match bits !! Z.to_nat (pos / 8) with
  | Some b => Z.testbit (byte_to_Z b) (7 - pos mod 8)
  | None => false
  end.

Lemma mod8_cases x : x mod 8 = 0 \/ x mod 8 = 1 \/ x mod 8 = 2 \/ x mod 8 = 3 \/ x mod 8 = 4 \/
  x mod 8 = 5 \/ x mod 8 = 6 \/ x mod 8 = 7.
Proof. pose proof (Z.mod_pos_bound x 8). lia. Qed.

Ltac mod8 x := destruct (mod8_cases x) as [->|[->|[->|[->|[->|[->|[->| ->]]]]]]].

Lemma mask_set p q : Z.testbit (Z.shiftr 0x80 (p mod 8)) (7 - q mod 8) = (p mod 8 =? q mod 8).
Proof. by mod8 p; mod8 q. Qed.
Lemma mask_low p q : Z.testbit (Z.shiftr 0xff (p mod 8)) (7 - q mod 8) = (p mod 8 <=? q mod 8).
Proof. by mod8 p; mod8 q. Qed.
Lemma mask_high p q :
  Z.testbit (0xff - Z.shiftr 0xff (p mod 8)) (7 - q mod 8) = (q mod 8 <? p mod 8).
Proof. by mod8 p; mod8 q. Qed.

Lemma land_mask b p :
  (Z.land (byte_to_Z b) (Z.shiftr 0x80 (p mod 8)) =? 0) = negb (Z.testbit (byte_to_Z b) (7 - p mod 8)).
Proof. mod8 p; by destruct b. Qed.

Lemma codeSegment_bit bits pos :
  0 <= pos -> pos / 8 < Z.of_nat (length bits) -> codeSegment bits pos = Some (negb (bitAt bits pos)).
Proof.
  intros H0 Hlt. unfold codeSegment, bitAt.
  destruct (lookup_lt_is_Some_2 bits (Z.to_nat (pos / 8))) as [b Hb].
  { pose proof (Z.div_pos pos 8). lia. }
  rewrite Hb. cbn [base.mbind option_bind]. by rewrite land_mask.
Qed.

(** Setting the bits of a mask in one byte. *)
Lemma bytes_or_spec bits i mask :
  0 <= i < Z.of_nat (length bits) -> 0 <= mask < 256 ->
  exists bits', bytes_or bits i mask = Some bits' /\ length bits' = length bits /\
    forall q, 0 <= q -> bitAt bits' q = bitAt bits q || ((q / 8 =? i) && Z.testbit mask (7 - q mod 8)).
Proof.
  intros Hi Hm. unfold bytes_or.
  destruct (lookup_lt_is_Some_2 bits (Z.to_nat i)) as [b Hb]; [lia|]. rewrite Hb. cbn.
  eexists. split; [done|]. split; [by rewrite length_insert|]. intros q Hq. unfold bitAt.
  pose proof (Z.div_pos q 8 Hq ltac:(lia)). destruct (Z.eqb_spec (q / 8) i) as [->|Hne].
  - rewrite list_lookup_insert_eq by lia. rewrite Hb, byte_to_of_Z.
    change 256 with (2 ^ 8). pose proof (Z.mod_pos_bound q 8 ltac:(lia)).
    rewrite Z.mod_pow2_bits_low by lia. by rewrite Z.lor_spec.
  - rewrite list_lookup_insert_ne by lia. cbn. by rewrite orb_false_r.
Qed.

Lemma bvset_spec bits p :
  0 <= p -> p / 8 < Z.of_nat (length bits) ->
  exists bits', bvset bits p = Some bits' /\ length bits' = length bits /\
    forall q, 0 <= q -> bitAt bits' q = bitAt bits q || (q =? p).
Proof.
  intros Hp Hlt. destruct (bytes_or_spec bits (p / 8) (Z.shiftr 0x80 (p mod 8))) as (bits' & E & Hl & H).
  - pose proof (Z.div_pos p 8). lia.
  - by mod8 p.
  - exists bits'. split; [done|]. split; [done|]. intros q Hq. rewrite H, mask_set by done. f_equal.
    pose proof (Z.div_mod p 8). pose proof (Z.div_mod q 8).
    destruct (Z.eqb_spec q p) as [->|]; [by rewrite !Z.eqb_refl|].
    apply andb_false_iff. rewrite !Z.eqb_neq. lia.
Qed.

Lemma bvset8_spec bits p :
  0 <= p -> p / 8 + 1 < Z.of_nat (length bits) ->
  exists bits', bvset8 bits p = Some bits' /\ length bits' = length bits /\
    forall q, 0 <= q -> bitAt bits' q = bitAt bits q || ((p <=? q) && (q <? p + 8)).
Proof.
  intros Hp Hlt. pose proof (Z.div_pos p 8 Hp ltac:(lia)) as Hd. unfold bvset8.
  destruct (bytes_or_spec bits (p / 8) (Z.shiftr 0xff (p mod 8))) as (b1 & E1 & L1 & H1); [lia|by mod8 p|].
  rewrite E1. cbn [base.mbind option_bind].
  destruct (bytes_or_spec b1 (p / 8 + 1) (0xff - Z.shiftr 0xff (p mod 8))) as (b2 & E2 & L2 & H2);
    [lia|by mod8 p|].
  exists b2. split; [done|]. split; [congruence|]. intros q Hq.
  rewrite H2, H1, mask_low, mask_high by done. rewrite <- orb_assoc. f_equal.
  pose proof (Z.div_mod p 8). pose proof (Z.div_mod q 8). pose proof (Z.mod_pos_bound p 8).
  pose proof (Z.mod_pos_bound q 8).
  apply eq_true_iff_eq. rewrite orb_true_iff, !andb_true_iff, !Z.eqb_eq, !Z.leb_le, !Z.ltb_lt. lia.
Qed.

Lemma mark8_spec n : forall bits p,
  0 <= p -> n = O \/ p / 8 + Z.of_nat n < Z.of_nat (length bits) ->
  exists bits', mark8 n bits p = Some (bits', p + 8 * Z.of_nat n) /\ length bits' = length bits /\
    forall q, 0 <= q -> bitAt bits' q = bitAt bits q || ((p <=? q) && (q <? p + 8 * Z.of_nat n)).
Proof.
  induction n as [|n IH]; intros bits p Hp Hn; cbn [mark8].
  - exists bits. split; [do 2 f_equal; lia|]. split; [done|]. intros q Hq.
    replace ((p <=? q) && (q <? p + 8 * Z.of_nat 0)) with false; [by rewrite orb_false_r|].
    symmetry. apply andb_false_iff. rewrite Z.leb_gt, Z.ltb_ge. lia.
  - destruct Hn as [|Hn]; [done|].
    destruct (bvset8_spec bits p) as (b1 & E1 & L1 & H1); [done|lia|]. rewrite E1. cbn [base.mbind option_bind].
    destruct (IH b1 (p + 8)) as (b2 & E2 & L2 & H2); [lia| |].
    { right. replace (p + 8) with (p + 1 * 8) by lia. rewrite Z.div_add by lia. lia. }
    exists b2. split; [rewrite E2; do 2 f_equal; lia|]. split; [congruence|]. intros q Hq.
    rewrite H2, H1, <- orb_assoc by done. f_equal. apply eq_true_iff_eq.
    rewrite orb_true_iff, !andb_true_iff, !Z.leb_le, !Z.ltb_lt. lia.
Qed.

Lemma mark1_spec n : forall bits p,
  0 <= p -> n = O \/ (p + Z.of_nat n - 1) / 8 < Z.of_nat (length bits) ->
  exists bits', mark1 n bits p = Some (bits', p + Z.of_nat n) /\ length bits' = length bits /\
    forall q, 0 <= q -> bitAt bits' q = bitAt bits q || ((p <=? q) && (q <? p + Z.of_nat n)).
Proof.
  induction n as [|n IH]; intros bits p Hp Hn; cbn [mark1].
  - exists bits. split; [do 2 f_equal; lia|]. split; [done|]. intros q Hq.
    replace ((p <=? q) && (q <? p + Z.of_nat 0)) with false; [by rewrite orb_false_r|].
    symmetry. apply andb_false_iff. rewrite Z.leb_gt, Z.ltb_ge. lia.
  - destruct Hn as [|Hn]; [done|].
    destruct (bvset_spec bits p) as (b1 & E1 & L1 & H1); [done| |].
    { eapply Z.le_lt_trans; [|exact Hn]. apply Z.div_le_mono; lia. }
    rewrite E1. cbn [base.mbind option_bind].
    destruct (IH b1 (p + 1)) as (b2 & E2 & L2 & H2); [lia| |].
    { right. replace (p + 1 + Z.of_nat n - 1) with (p + Z.of_nat (S n) - 1) by lia. congruence. }
    exists b2. split; [rewrite E2; do 2 f_equal; lia|]. split; [congruence|]. intros q Hq.
    rewrite H2, H1, <- orb_assoc by done. f_equal. apply eq_true_iff_eq.
    rewrite orb_true_iff, !andb_true_iff, !Z.leb_le, !Z.ltb_lt, Z.eqb_eq. lia.
Qed.

(** ** The bitmap *)

Lemma pushData_skip n code j :
  pushData n code !! j =
  if (j <? n)%nat then (if (j <? length code)%nat then Some true else None)
  else pushData 0 (drop n code) !! (j - n)%nat.
Proof.
  revert n j. induction code as [|b code IH]; intros n j.
  - rewrite drop_nil. cbn [pushData length]. rewrite !lookup_nil. destruct (j <? n)%nat; [by destruct j|done].
  - destruct n as [|n]; [rewrite Nat.sub_0_r; by destruct j|]. cbn [pushData drop length].
    destruct j as [|j]; [done|]. cbn [lookup list_lookup]. exact (IH n j).
Qed.

Lemma numbits_split op : PUSH1 <= op <= PUSH32 ->
  let n := op - PUSH1 + 1 in
  1 <= n <= 32 /\ 8 * Z.of_nat (Z.to_nat (n / 8)) + Z.of_nat (Z.to_nat (n mod 8)) = n.
Proof.
  unfold PUSH1, PUSH32. intros H. cbv zeta. split; [lia|].
  pose proof (Z.div_mod (op - 96 + 1) 8). pose proof (Z.mod_pos_bound (op - 96 + 1) 8).
  pose proof (Z.div_pos (op - 96 + 1) 8). lia.
Qed.

(** Marking the arguments of one PUSH. *)
Lemma markPush_spec bits p n m :
  0 <= p -> 1 <= n <= 32 -> (p + 32) / 8 < Z.of_nat (length bits) ->
  8 * Z.of_nat (Z.to_nat (n / 8)) + Z.of_nat (Z.to_nat (n mod 8)) = n -> m = Z.to_nat (n / 8) ->
  exists b1 b2, mark8 m bits p = Some (b1, p + 8 * Z.of_nat m) /\
    mark1 (Z.to_nat (n mod 8)) b1 (p + 8 * Z.of_nat m) = Some (b2, p + n) /\ length b2 = length bits /\
    forall q, 0 <= q -> bitAt b2 q = bitAt bits q || ((p <=? q) && (q <? p + n)).
Proof.
  intros Hp Hn Hlen Hsum ->. pose proof (Z.mod_pos_bound n 8 ltac:(lia)) as Hmod.
  pose proof (Z.div_mod n 8 ltac:(lia)) as Hdm. pose proof (Z.div_pos n 8 ltac:(lia) ltac:(lia)) as Hdiv.
  destruct (mark8_spec (Z.to_nat (n / 8)) bits p) as (b1 & E1 & L1 & H1); [done| |].
  { destruct (decide (n / 8 = 0)) as [->|]; [by left|right]. eapply Z.le_lt_trans; [|exact Hlen].
    apply Z.div_le_lower_bound; [lia|]. pose proof (Z.div_mod p 8). pose proof (Z.mod_pos_bound p 8). lia. }
  destruct (mark1_spec (Z.to_nat (n mod 8)) b1 (p + 8 * Z.of_nat (Z.to_nat (n / 8))))
    as (b2 & E2 & L2 & H2); [lia| |].
  { right. rewrite L1. eapply Z.le_lt_trans; [|exact Hlen]. apply Z.div_le_mono; lia. }
  exists b1, b2. split; [done|]. split; [rewrite E2; do 2 f_equal; lia|]. split; [congruence|].
  intros q Hq. rewrite H2, H1, <- orb_assoc by done. f_equal. apply eq_true_iff_eq.
  rewrite orb_true_iff, !andb_true_iff, !Z.leb_le, !Z.ltb_lt. lia.
Qed.

(** The data among the bytes from an instruction on: its arguments, and the data
    after them. *)
Lemma pushData_at code pc b :
  0 <= pc -> code !! Z.to_nat pc = Some b ->
  let next := pc + 1 + Z.of_nat (pushBytes b) in
  forall q, 0 <= q -> q < Z.of_nat (length code) ->
    (pc <=? q) && default false (pushData 0 (drop (Z.to_nat pc) code) !! Z.to_nat (q - pc)) =
    ((pc + 1 <=? q) && (q <? next)) ||
    ((next <=? q) && default false (pushData 0 (drop (Z.to_nat next) code) !! Z.to_nat (q - next))).
Proof.
  intros Hpc Eb next q Hq Hlt. assert (Hl : (Z.to_nat pc < length code)%nat) by (by eapply lookup_lt_Some).
  rewrite (drop_S _ _ _ Eb). cbn [pushData]. unfold next. set (n := pushBytes b).
  destruct (Z.leb_spec pc q) as [Hle|]; cbn [andb].
  2: { destruct (Z.leb_spec (pc + 1) q), (Z.leb_spec (pc + 1 + Z.of_nat n) q); try lia; done. }
  destruct (decide (q = pc)) as [->|Hne].
  { rewrite Z.sub_diag. cbn. destruct (Z.leb_spec (pc + 1) pc), (Z.leb_spec (pc + 1 + Z.of_nat n) pc); try lia; done. }
  replace (Z.to_nat (q - pc)) with (S (Z.to_nat (q - (pc + 1)))) by lia. cbn [lookup list_lookup].
  rewrite pushData_skip, drop_drop, length_drop.
  destruct (Z.leb_spec (pc + 1) q); [|lia].
  destruct (Z.ltb_spec q (pc + 1 + Z.of_nat n)), (Z.leb_spec (pc + 1 + Z.of_nat n) q),
    (Nat.ltb_spec (Z.to_nat (q - (pc + 1))) n); try lia; cbn [andb orb].
  - destruct (Nat.ltb_spec (Z.to_nat (q - (pc + 1))) (length code - S (Z.to_nat pc))); [done|lia].
  - replace (Z.to_nat (pc + 1 + Z.of_nat n)) with (S (Z.to_nat pc) + n)%nat by lia.
    by replace (Z.to_nat (q - (pc + 1 + Z.of_nat n))) with (Z.to_nat (q - (pc + 1)) - n)%nat by lia.
Qed.

Lemma codeBitmapLoop_spec code fuel : forall pc bits,
  0 <= pc -> (length code - Z.to_nat pc <= fuel)%nat -> length bits = (length code / 8 + 1 + 4)%nat ->
  exists bits', codeBitmapLoop fuel code pc bits = Some bits' /\ length bits' = length bits /\
    forall q, 0 <= q -> q < Z.of_nat (length code) ->
      bitAt bits' q = bitAt bits q ||
        ((pc <=? q) && default false (pushData 0 (drop (Z.to_nat pc) code) !! Z.to_nat (q - pc))).
Proof.
  induction fuel as [|fuel IH]; intros pc bits Hpc Hfuel Hlen; cbn [codeBitmapLoop].
  { exists bits. split_and!; [done|done|]. intros q Hq Hlt.
    destruct (Z.leb_spec pc q); [lia|]. cbn. by rewrite orb_false_r. }
  destruct (code !! Z.to_nat pc) as [b|] eqn:Eb.
  2: { exists bits. split_and!; [done|done|]. intros q Hq Hlt. apply lookup_ge_None_1 in Eb.
       destruct (Z.leb_spec pc q); [lia|]. cbn. by rewrite orb_false_r. }
  assert (Hlt : (Z.to_nat pc < length code)%nat) by (by eapply lookup_lt_Some).
  assert (Hdrop : drop (Z.to_nat pc) code = b :: drop (S (Z.to_nat pc)) code) by (by apply drop_S).
  pose proof (pushData_at code pc b Hpc Eb) as Hstep. unfold pushBytes in Hstep. cbv zeta in Hstep.
  destruct ((PUSH1 <=? byte_to_Z b) && (byte_to_Z b <=? PUSH32)) eqn:Ep.
  - bools. destruct (numbits_split (byte_to_Z b)) as [Hn Hsum]; [lia|]. cbv zeta in Hn, Hsum.
    set (n := byte_to_Z b - PUSH1 + 1) in *.
    destruct (markPush_spec bits (pc + 1) n (Z.to_nat (n / 8))) as (b1 & b2 & E1 & E2 & L2 & H2);
      [lia|lia| |done|done|].
    { rewrite Hlen. rewrite !Nat2Z.inj_add, Nat2Z.inj_div.
      apply Z.div_lt_upper_bound; [lia|]. pose proof (Z.div_mod (Z.of_nat (length code)) 8).
      pose proof (Z.mod_pos_bound (Z.of_nat (length code)) 8). lia. }
    rewrite E1. cbn [base.mbind option_bind]. rewrite E2. cbn [base.mbind option_bind].
    destruct (IH (pc + 1 + n) b2) as (b3 & E3 & L3 & H3); [lia|lia|congruence|].
    exists b3. split_and!; [done|congruence|]. intros q Hq Hqlt.
    rewrite H3, H2, Hstep, Z2Nat.id, <- orb_assoc by (done || lia). done.
  - destruct (IH (pc + 1) bits) as (b3 & E3 & L3 & H3); [lia|lia|done|].
    exists b3. split_and!; [done|done|]. intros q Hq Hqlt. rewrite H3, Hstep by done. f_equal.
    replace (pc + 1 + Z.of_nat 0) with (pc + 1) by lia.
    destruct (Z.leb_spec (pc + 1) q), (Z.ltb_spec q (pc + 1)); try lia; done.
Qed.

(** The bitmap is made, and marks the push data. *)
Lemma codeBitmap_data code :
  exists bits, codeBitmap code = Some bits /\
    forall i, (i < length code)%nat -> codeSegment bits (Z.of_nat i) = Some (negb (isData code i)).
Proof.
  destruct (codeBitmapLoop_spec code (length code) 0 (replicate (length code / 8 + 1 + 4) x00))
    as (bits & E & L & H); [lia|lia|by rewrite length_replicate|].
  exists bits. split; [done|]. intros i Hi.
  rewrite codeSegment_bit; [|lia|].
  - rewrite H by lia. rewrite drop_0, Z.sub_0_r, Nat2Z.id. unfold isData. do 2 f_equal.
    replace (bitAt _ _) with false; [by destruct (Z.leb_spec 0 (Z.of_nat i)); [|lia]|].
    symmetry. unfold bitAt. destruct (_ !! _) as [b|] eqn:Eb; [|done].
    apply lookup_replicate in Eb as [-> _]. apply Z.bits_0.
  - rewrite L, length_replicate. rewrite !Nat2Z.inj_add, Nat2Z.inj_div.
    apply Z.div_lt_upper_bound; [lia|]. pose proof (Z.div_mod (Z.of_nat (length code)) 8).
    pose proof (Z.mod_pos_bound (Z.of_nat (length code)) 8). lia.
Qed.

(** ** Valid destinations *)

(** A JUMPDEST instruction of the code. *)
Definition validJump (code : list byte) (dest : Z) : bool :=
  (dest <? Z.of_nat (length code)) &&
  match code !! Z.to_nat dest with
  | Some b => (byte_to_Z b =? JUMPDEST) && negb (isData code (Z.to_nat dest))
  | None => false
  end.

Lemma BitLen_lt n x : 0 <= x -> 0 < n -> BitLen x < n <-> x < 2 ^ (n - 1).
Proof.
  intros Hx Hn. unfold BitLen. destruct (Z.eqb_spec x 0) as [->|].
  - split; intros; [|lia]. apply Z.pow_pos_nonneg; lia.
  - rewrite Z.abs_eq by lia. rewrite (Z.log2_lt_pow2 x (n - 1)) by lia. lia.
Qed.

(** With a cache that has nothing else for the code's hash, [has] decides validity. *)
Lemma has_valid d h code dest :
  0 <= dest -> Z.of_nat (length code) < 2 ^ 62 -> d !! h = None \/ d !! h = codeBitmap code ->
  exists d', has d h code dest = (Ok (validJump code dest), d') /\
    (d' = d \/ exists bits, codeBitmap code = Some bits /\ d' = <[h := bits]> d).
Proof.
  intros H0 Hlen Hd. unfold has, validJump.
  destruct (codeBitmap_data code) as (bits & Ebits & Hbits).
  destruct (Z.ltb_spec dest (Z.of_nat (length code))) as [Hlt|Hge].
  2: { exists d. split; [|by left]. destruct (BitLen dest >=? 63) eqn:Eb; [done|].
       unfold bigUint64. rewrite Z.geb_leb in Eb. bools. apply (BitLen_lt 63) in Eb; [|lia..].
       rewrite Z.mod_small, Z.geb_leb by (rewrite Z.abs_eq; lia).
       by destruct (Z.leb_spec (Z.of_nat (length code)) (Z.abs dest)); [|lia]. }
  assert (Eb : BitLen dest >=? 63 = false).
  { rewrite Z.geb_leb. apply Z.leb_gt, BitLen_lt; lia. }
  assert (Eu : bigUint64 dest = dest).
  { unfold bigUint64. rewrite Z.abs_eq by lia. apply Z.mod_small. lia. }
  rewrite Eb, Eu, Z.geb_leb. destruct (Z.leb_spec (Z.of_nat (length code)) dest); [lia|]. cbn [orb andb].
  destruct (lookup_lt_is_Some_2 code (Z.to_nat dest)) as [b Hb]; [lia|]. rewrite Hb.
  specialize (Hbits (Z.to_nat dest) ltac:(lia)). rewrite Z2Nat.id in Hbits by done.
  destruct Hd as [Hd|Hd]; rewrite Hd, ?Ebits; cbv iota beta; rewrite Hbits;
    destruct (byte_to_Z b =? JUMPDEST); eexists; (split; [done|]); eauto.
Qed.

(** ** The price of memory *)

(** The yellow paper's cost of [w] words. *)
Definition memoryFee (w : Z) : Z := MemoryGas * w + w * w / QuadCoeffDiv.

Definition wordsOf (size : Z) : Z := (size + 31) / 32.

(** What was charged for the memory is its price. *)
Definition MemoryPaid (mem : Memory) : Prop :=
  exists w, 0 <= w < 2 ^ 32 /\ mLen mem = 32 * w /\ lastGasCost mem = memoryFee w.

Lemma memoryFee_mono w w' : 0 <= w <= w' -> memoryFee w <= memoryFee w'.
Proof.
  intros H. unfold memoryFee, MemoryGas, QuadCoeffDiv.
  assert (w * w / 512 <= w' * w' / 512) by (apply Z.div_le_mono; nia). lia.
Qed.

Lemma memoryFee_range w : 0 <= w < 2 ^ 32 -> 0 <= memoryFee w < 2 ^ 63.
Proof.
  intros H. assert (memoryFee w <= memoryFee (2 ^ 32 - 1)) by (apply memoryFee_mono; lia).
  assert (0 <= memoryFee w) by (apply (memoryFee_mono 0); lia).
  assert (memoryFee (2 ^ 32 - 1) < 2 ^ 63) by (by vm_compute). lia.
Qed.

Lemma wordsOf_range n : 0 < n <= 0x1fffffffe0 -> 1 <= wordsOf n < 2 ^ 32.
Proof.
  intros H. unfold wordsOf. split.
  - apply Z.div_le_lower_bound; lia.
  - apply Z.div_lt_upper_bound; lia.
Qed.

(** Up to that size the charge is the difference of the prices, and the memory is
    paid for again once it has grown. *)
Lemma memoryGas_fee mem n :
  MemoryPaid mem -> 0 < n <= 0x1fffffffe0 ->
  let w := wordsOf n in
  let '(r, mem') := memoryGasCostOn mem n in
  r = Ok (Z.max 0 (memoryFee w - lastGasCost mem)) /\ MemoryPaid (memResize (32 * w) mem').
Proof.
  intros (w0 & Hw0 & Hl & Hf) Hn. cbv zeta. pose proof (wordsOf_range n Hn) as Hw.
  unfold memoryGasCostOn. destruct (Z.eqb_spec n 0); [lia|].
  rewrite Z.gtb_ltb. destruct (Z.ltb_spec 0xffffffffe0 n); [lia|].
  assert (Ew : toWordSize n = wordsOf n).
  { unfold toWordSize, wordsOf. rewrite Z.gtb_ltb. destruct (Z.ltb_spec (MaxUint64 - 31) n); [|done].
    unfold MaxUint64 in *. lia. }
  rewrite Ew. set (w := wordsOf n) in *. clearbody w.
  rewrite (u64_small (w * 32)) by (unfold is_u64; lia). rewrite Z.gtb_ltb, Hl.
  destruct (Z.ltb_spec (32 * w0) (w * 32)) as [Hlt|Hge].
  - assert (Hmono : memoryFee w0 <= memoryFee w) by (apply memoryFee_mono; lia).
    pose proof (memoryFee_range w ltac:(lia)) as Hr. pose proof (memoryFee_range w0 Hw0) as Hr0.
    assert (Hsq : u64 (w * w) = w * w) by (apply u64_small; unfold is_u64; nia).
    assert (Hlin : u64 (w * MemoryGas) = MemoryGas * w) by (rewrite u64_small; unfold is_u64, MemoryGas; lia).
    rewrite Hsq, Hlin. fold (memoryFee w). rewrite (u64_small (memoryFee w)) by (unfold is_u64; lia).
    rewrite Hf, u64_small by (unfold is_u64; lia). split; [f_equal; lia|].
    exists w. unfold memResize, mLen in *. cbn [mStore lastGasCost].
    destruct (Z.ltb_spec (Z.of_nat (length (mStore mem))) (32 * w)); [|lia]. cbn [mStore lastGasCost].
    rewrite length_app, length_replicate. split; [lia|]. split; [lia|done].
  - split.
    + rewrite Hf. assert (memoryFee w <= memoryFee w0) by (apply memoryFee_mono; lia). f_equal. lia.
    + exists w0. unfold memResize. rewrite Hl. destruct (Z.ltb_spec (32 * w0) (32 * w)); [lia|done].
Qed.
