(* ===== verification/VmSafety.v ===== *)
(** * Package core/vm: execution never panics

    First part: the invariants of the machine, and the parts of the virtual machine
    that instructions use: slices of data, memory, the jump analysis, and the
    precompiled contracts.

    The source indexes slices without checks of its own in many places; what keeps
    it from panicking is the order of the interpreter's checks (stack heights,
    memory growth, gas).  The jump analysis is cached under the hash of the code and
    shared by the contracts that a transaction runs, so a panic is possible there
    when two of the codes that run have the same hash.  [KnownCodes] names the codes
    that an execution is about, and what follows from two of them having one hash;
    the restriction of a run to known codes is in [VmSafeLoop]. *)

From stdpp Require Import base numbers list gmap sets option.
From Stdlib Require Import ZArith Lia Strings.Byte.
From S2P Require Import Prelude Common Params Types VmCore VmGas VmOps VmPrecompiled VmInterp VmArithmetic VmGasProofs VmStateSpec VmStateProofs VmAnalysis.

(** No two codes of a list have the same hash. *)
Definition HashesDiffer {CR : Crypto} (codes : list (list byte)) : Prop :=
  forall c1 c2, c1 ∈ codes -> c2 ∈ codes -> Keccak256 c1 = Keccak256 c2 -> c1 = c2.

(** The codes that may run, and what two of them with one hash imply. *)
Class KnownCodes {CR : Crypto} := {
  knownCode : list byte -> bool;
  clash : Prop;
  known_apart : forall c1 c2, knownCode c1 = true -> knownCode c2 = true ->
    Keccak256 c1 = Keccak256 c2 -> c1 <> c2 -> clash
}.

(** All codes, with nothing known of their hashes. *)
Definition allCodes {CR : Crypto} : KnownCodes.
Proof. by refine {| knownCode := fun _ => true; clash := True |}. Defined.

(** The codes of a list whose hashes differ: no clash is possible. *)
Definition inCodes (codes : list (list byte)) (code : list byte) : bool := bool_decide (code ∈ codes).

Lemma inCodes_apart {CR : Crypto} codes :
  HashesDiffer codes -> forall c1 c2, inCodes codes c1 = true -> inCodes codes c2 = true ->
  Keccak256 c1 = Keccak256 c2 -> c1 <> c2 -> False.
Proof. unfold inCodes. intros H c1 c2 H1%bool_decide_eq_true H2%bool_decide_eq_true Hh Hne. by apply Hne, H. Qed.

Definition codesOf {CR : Crypto} (codes : list (list byte)) (H : HashesDiffer codes) : KnownCodes :=
  {| knownCode := inCodes codes; clash := False; known_apart := inCodes_apart codes H |}.

(** What the precompiled contracts rely on in the libraries they call: recovery
    does not return an empty key, and digests and curve points have a fixed size. *)
Class NativeLaws {CR : Crypto} {NC : NativeCrypto} := {
  Ecrecover_nonempty : forall h sig, Ecrecover h sig <> Some [];
  Sha256_length : forall b, length (Sha256 b) = 32%nat;
  Ripemd160_length : forall b, length (Ripemd160 b) = 20%nat;
  g1Marshal_length : forall p, length (g1Marshal p) = 64%nat
}.

(** ** Slices *)

Lemma small_app_replicate (b : list byte) n x :
  small b -> n < 2 ^ 62 -> small (b ++ replicate (Z.to_nat (n - Z.of_nat (length b))) x).
Proof. unfold small. intros. rewrite length_app, length_replicate. lia. Qed.

Lemma RightPadBytes_small b n : small b -> n < 2 ^ 62 -> small (RightPadBytes b n).
Proof. intros. unfold RightPadBytes. destruct (_ <=? _); [done|by apply small_app_replicate]. Qed.

Lemma LeftPadBytes_small b n : small b -> n < 2 ^ 62 -> small (LeftPadBytes b n).
Proof.
  intros. unfold LeftPadBytes. destruct (_ <=? _); [done|].
  unfold small in *. rewrite length_app, length_replicate. lia.
Qed.

Lemma length_RightPadBytes b n : Z.of_nat (length b) <= n -> Z.of_nat (length (RightPadBytes b n)) = n.
Proof.
  intros H. unfold RightPadBytes. destruct (Z.leb_spec n (Z.of_nat (length b))); [lia|].
  rewrite length_app, length_replicate. lia.
Qed.

Lemma small_take_drop (b : list byte) i j : small b -> small (take i (drop j b)).
Proof. unfold small. rewrite length_take, length_drop. lia. Qed.

Lemma small_drop (b : list byte) j : small b -> small (drop j b).
Proof. unfold small. rewrite length_drop. lia. Qed.

Lemma small_length (b : list byte) n : (length b <= n)%nat -> Z.of_nat n < 2 ^ 62 -> small b.
Proof. unfold small. lia. Qed.

Lemma is_word_length (b : list byte) : small b -> is_word (Z.of_nat (length b)).
Proof. unfold small, is_word. lia. Qed.

Lemma is_word_u64 x : is_u64 x -> is_word x.
Proof. unfold is_u64, is_word. lia. Qed.

Lemma is_word_be_value b : (length b <= 32)%nat -> is_word (be_value b).
Proof.
  intros Hl. pose proof (be_value_range b) as Hr. unfold is_word. split; [lia|].
  eapply Z.lt_le_trans; [apply Hr|]. change (2 ^ 256) with (256 ^ 32). apply Z.pow_le_mono_r; lia.
Qed.

Lemma bigUint64_small x : is_u64 x -> bigUint64 x = x.
Proof. unfold is_u64. intros Hx. unfold bigUint64. rewrite Z.abs_eq by lia. by apply Z.mod_small. Qed.

(** [getData] with a size that does not wrap. *)
Lemma getData_Ok d start size :
  small d -> 0 <= start -> 0 <= size < 2 ^ 62 ->
  exists r, getData d start size = Ok r /\ small r /\ Z.of_nat (length r) = size.
Proof.
  intros Hd H0 Hs. unfold getData, small in *. cbv zeta. rewrite !Z.gtb_ltb.
  set (n := Z.of_nat (length d)) in *. set (st := if n <? start then n else start).
  assert (Hst : 0 <= st <= n) by (unfold st; destruct (Z.ltb_spec n start); lia).
  rewrite u64_small by (unfold is_u64; lia).
  set (en := if n <? st + size then n else st + size).
  assert (Hen : st <= en <= n /\ en <= st + size) by (unfold en; destruct (Z.ltb_spec n (st + size)); lia).
  destruct (Z.ltb_spec en st); [lia|]. rewrite i64_small by lia. eexists. split; [done|].
  assert (Hl : Z.of_nat (length (RightPadBytes (take (Z.to_nat (en - st)) (drop (Z.to_nat st) d)) size)) = size).
  { apply length_RightPadBytes. rewrite length_take, length_drop. lia. }
  rewrite Hl. lia.
Qed.

Lemma getDataBig_small d start size :
  small d -> 0 <= start -> 0 <= size < 2 ^ 62 ->
  small (getDataBig d start size) /\ Z.of_nat (length (getDataBig d start size)) = size.
Proof.
  intros Hd H0 Hs. unfold getDataBig. cbv zeta. unfold BigMin. rewrite !Z.gtb_ltb.
  set (n := Z.of_nat (length d)) in *. set (st := if n <? start then n else start).
  assert (Hst : 0 <= st <= n) by (unfold st; destruct (Z.ltb_spec n start); lia).
  set (en := if n <? st + size then n else st + size).
  assert (Hen : st <= en <= n /\ en <= st + size) by (unfold en; destruct (Z.ltb_spec n (st + size)); lia).
  rewrite bigUint64_small by (unfold is_u64; lia). rewrite i64_small by lia.
  assert (Hl : Z.of_nat (length (RightPadBytes (take (Z.to_nat (en - st)) (drop (Z.to_nat st) d)) size)) = size).
  { apply length_RightPadBytes. rewrite length_take, length_drop. lia. }
  unfold small. rewrite Hl. lia.
Qed.

(** ** Precompiled contracts *)

Section Precompiled.
Context {CR : Crypto} {NC : NativeCrypto} {NL : NativeLaws}.

Lemma modExpLens_Ok input :
  small input -> exists b e m, modExpLens input = Ok (b, e, m) /\ is_word b /\ is_word e /\ is_word m.
Proof.
  intros Hi. unfold modExpLens.
  destruct (getData_Ok input 0 32) as (b & -> & _ & Hb); [done|lia|lia|]. cbn [rbind].
  destruct (getData_Ok input 32 32) as (e & -> & _ & He); [done|lia|lia|]. cbn [rbind].
  destruct (getData_Ok input 64 32) as (m & -> & _ & Hm); [done|lia|lia|]. cbn [rbind].
  eexists _, _, _. split; [done|]. split_and!; apply is_word_be_value; lia.
Qed.

(** The quadratic part of the price. *)
Definition modExpWork (x : Z) : Z :=
  if x <=? 64 then x * x else if x <=? 1024 then x * x / 4 + (96 * x - 3072)
  else x * x / 16 + (480 * x - 199680).

Lemma modExpWork_bounds x : 0 < x -> 1 <= modExpWork x /\ (2 ^ 40 <= x -> 2 ^ 76 <= modExpWork x).
Proof.
  intros Hx. unfold modExpWork. split.
  - destruct (Z.leb_spec x 64); [nia|]. destruct (Z.leb_spec x 1024).
    + pose proof (Z.div_pos (x * x) 4 ltac:(nia) ltac:(lia)). lia.
    + pose proof (Z.div_pos (x * x) 16 ltac:(nia) ltac:(lia)). lia.
  - intros Hl. destruct (Z.leb_spec x 64); [lia|]. destruct (Z.leb_spec x 1024); [lia|].
    assert (2 ^ 76 <= x * x / 16) by (apply Z.div_le_lower_bound; [lia|]; nia). lia.
Qed.

(** Lengths that can be paid for fit into an int. *)
Lemma modExpGas_Ok b e m input gas :
  small input -> is_word b -> is_word e -> is_word m -> modExpGas b e m input = Ok gas -> gas < 2 ^ 60 ->
  (b = 0 /\ m = 0) \/ (b < 2 ^ 40 /\ m < 2 ^ 40 /\ e < 2 ^ 62).
Proof.
  unfold is_word. intros Hi Hb He Hm E Hg. unfold modExpGas in E.
  match type of E with (let* _ := ?r in _) = _ => destruct r as [head| | |]; cbn [rbind] in E; try done end.
  set (msb := if BitLen head >? 0 then BitLen head - 1 else 0) in E. cbv zeta in E. injection E as E.
  assert (Hmsb : 0 <= msb).
  { unfold msb. pose proof (BitLen_nonneg head). rewrite Z.gtb_ltb. destruct (Z.ltb_spec 0 (BitLen head)); lia. }
  fold (modExpWork (BigMax m b)) in E.
  set (x := BigMax m b) in *. set (adj := (if e >? 32 then 8 * (e - 32) else 0) + msb) in *.
  assert (Hx : m <= x /\ b <= x /\ 0 <= x) by (unfold x, BigMax; destruct (Z.ltb_spec m b); lia).
  destruct (Z.eq_dec x 0) as [->|Hx0]; [left; lia|]. right.
  destruct (modExpWork_bounds x ltac:(lia)) as [Hw1 Hw2].
  set (a1 := BigMax adj 1) in *.
  assert (Ha : 1 <= a1 /\ adj <= a1) by (unfold a1, BigMax; destruct (Z.ltb_spec adj 1); lia).
  set (g := modExpWork x * a1 / ModExpQuadCoeffDiv) in *.
  assert (Hg0 : 0 <= g) by (apply Z.div_pos; unfold ModExpQuadCoeffDiv; nia).
  assert (Hgl : g < 2 ^ 60).
  { rewrite Z.gtb_ltb in E. destruct (Z.ltb_spec 64 (BitLen g)).
    - subst gas. unfold MaxUint64 in Hg. lia.
    - rewrite <- E in Hg. apply BitLen_le in H; [|lia]. rewrite Z.abs_eq in H by lia.
      by rewrite bigUint64_small in Hg by (unfold is_u64; lia). }
  assert (Hprod : modExpWork x * a1 < 20 * 2 ^ 60).
  { unfold g, ModExpQuadCoeffDiv in Hgl. pose proof (Z.div_mod (modExpWork x * a1) 20 ltac:(lia)).
    pose proof (Z.mod_pos_bound (modExpWork x * a1) 20 ltac:(lia)). lia. }
  assert (Hxs : x < 2 ^ 40).
  { destruct (Z.lt_ge_cases x (2 ^ 40)) as [|Hge]; [done|]. specialize (Hw2 Hge). nia. }
  assert (Hadj : adj < 20 * 2 ^ 60) by nia.
  split_and!; [lia|lia|]. unfold adj in Hadj. rewrite Z.gtb_ltb in Hadj.
  destruct (Z.ltb_spec 32 e); lia.
Qed.

Lemma modExpRun_Ok b e m input :
  small input -> (b = 0 /\ m = 0) \/ (0 <= b < 2 ^ 40 /\ 0 <= m < 2 ^ 40 /\ 0 <= e < 2 ^ 62) ->
  exists out, modExpRun b e m input = Ok out /\ small out.
Proof.
  intros Hi Hl. unfold modExpRun.
  destruct Hl as [[-> ->]|(Hb & Hm & He)]; [by exists []|]. destruct (_ && _); [by exists []|].
  destruct (getData_Ok input 0 b) as (x & -> & _); [done|lia|lia|]. cbn [rbind].
  destruct (getData_Ok input b e) as (y & -> & _); [done|lia|lia|]. cbn [rbind].
  destruct (getData_Ok input (u64 (b + e)) m) as (z & -> & _ & Hz); [done|apply u64_range|lia|]. cbn [rbind].
  cbv zeta. rewrite i64_small by lia.
  destruct (_ =? 0) eqn:E0; eexists; (split; [reflexivity|]); apply LeftPadBytes_small; try done; try lia.
  unfold small, big_bytes. rewrite length_be_bytes.
  assert (Hzl : be_value z < 2 ^ (8 * m)).
  { eapply Z.lt_le_trans; [apply be_value_range|]. rewrite Hz, Z.pow_mul_r by lia. done. }
  bools. assert (Hpos : 0 < be_value z).
  { pose proof (be_value_range z). unfold BitLen in E0. destruct (Z.eqb_spec (be_value z) 0); lia. }
  assert (Hr : 0 <= bigExp (be_value x) (be_value y) (be_value z) < 2 ^ (8 * m)).
  { unfold bigExp. destruct (_ =? 1); [lia|]. rewrite Zpow_facts.Zpow_mod_correct by lia.
    pose proof (Z.mod_pos_bound (be_value x ^ be_value y) (be_value z) Hpos). lia. }
  assert (BitLen (bigExp (be_value x) (be_value y) (be_value z)) <= 8 * m).
  { apply BitLen_le; [lia|]. rewrite Z.abs_eq; lia. }
  assert ((BitLen (bigExp (be_value x) (be_value y) (be_value z)) + 7) / 8 <= m + 1)
    by (apply Z.div_le_upper_bound; lia). lia.
Qed.

Lemma ecrecoverRun_Ok input : small input -> exists out, ecrecoverRun input = Ok out /\ small out.
Proof.
  intros Hi. unfold ecrecoverRun. cbv zeta.
  destruct (lookup_lt_is_Some_2 (RightPadBytes input 128) 63) as [x ->].
  { unfold RightPadBytes. destruct (Z.leb_spec 128 (Z.of_nat (length input))); [lia|].
    rewrite length_app, length_replicate. lia. }
  destruct (_ || _); [by exists []|]. destruct (Ecrecover _ _) as [[|y k]|] eqn:E; [|eexists; split; [done|]|by exists []].
  - by apply Ecrecover_nonempty in E.
  - eapply (small_length _ 64); [|done]. rewrite length_app, length_replicate, length_drop.
    unfold HashBytes. rewrite length_be_bytes. lia.
Qed.

Lemma curve_Ok input i : small input -> 0 <= i ->
  match curvePoint (getData input i 64) with Panic | NoFuel => False | _ => True end.
Proof.
  intros Hi H0. destruct (getData_Ok input i 64) as (d & E & _); [done|lia|lia|].
  rewrite E. cbn. by destruct (g1Unmarshal d).
Qed.

(** What a contract's run gives when it can be paid for. *)
Definition RunFine (r : result vmErr (list byte)) : Prop :=
  match r with Ok out => small out | Err _ => True | Panic | NoFuel => False end.

Lemma pairingPoints_fine n input :
  match pairingPoints n input with Panic | NoFuel => False | _ => True end.
Proof.
  revert input. induction n as [|n IH]; intros input; [done|]. cbn [pairingPoints].
  repeat case_match; try done; specialize (IH (drop 192 input));
    by destruct (pairingPoints n (drop 192 input)) as [[]| | |].
Qed.

Lemma RequiredGas_Ok p input : small input -> exists gas, RequiredGas p input = Ok gas.
Proof.
  intros Hi. destruct p; cbn [RequiredGas]; try (by eexists).
  destruct (modExpLens_Ok input Hi) as (b & e & m & -> & Hb & He & Hm). cbn [rbind]. unfold modExpGas.
  assert (Hd : small (modExpBody input)) by (by apply small_drop).
  unfold is_word in *.
  destruct (Z.leb_spec (Z.of_nat (length (modExpBody input))) b); [cbn [rbind]; by eexists|].
  rewrite (bigUint64_small b) by (unfold small, is_u64 in *; lia). rewrite Z.gtb_ltb.
  destruct (Z.ltb_spec 32 e).
  - destruct (getData_Ok (modExpBody input) b 32) as (d & -> & _); [done|lia|lia|]. by eexists.
  - rewrite (bigUint64_small e) by (unfold is_u64; lia).
    destruct (getData_Ok (modExpBody input) b e) as (d & -> & _); [done|lia|lia|]. by eexists.
Qed.

Lemma RunP_fine p input gas :
  small input -> RequiredGas p input = Ok gas -> gas < 2 ^ 60 -> RunFine (RunP p input).
Proof.
  intros Hi Hg Hlt. destruct p; cbn [RunP RequiredGas] in *.
  - destruct (ecrecoverRun_Ok input Hi) as (out & -> & Ho). done.
  - apply (small_length _ 32); [by rewrite Sha256_length|done].
  - apply LeftPadBytes_small; [|lia]. apply (small_length _ 20); [by rewrite Ripemd160_length|done].
  - done.
  - destruct (modExpLens_Ok input Hi) as (b & e & m & El & Hb & He & Hm). rewrite El in *. cbn [rbind] in *.
    assert (Hd : small (modExpBody input)) by (by apply small_drop).
    pose proof (modExpGas_Ok b e m (modExpBody input) gas Hd Hb He Hm Hg Hlt) as Hl.
    destruct (modExpRun_Ok (bigUint64 b) (bigUint64 e) (bigUint64 m) (modExpBody input) Hd) as (out & -> & Ho); [|done].
    unfold is_word in *. destruct Hl as [[-> ->]|(H1 & H2 & H3)]; [by left|]. right.
    rewrite !bigUint64_small by (unfold is_u64; lia). lia.
  - pose proof (curve_Ok input 0 Hi ltac:(lia)) as H1. pose proof (curve_Ok input 64 Hi ltac:(lia)) as H2.
    destruct (curvePoint (getData input 0 64)); cbn; try done.
    destruct (curvePoint (getData input 64 64)); cbn; try done.
    apply (small_length _ 64); [by rewrite g1Marshal_length|done].
  - pose proof (curve_Ok input 0 Hi ltac:(lia)) as H1. destruct (curvePoint (getData input 0 64)); cbn; try done.
    destruct (getData_Ok input 64 32) as (d & -> & _); [done|lia|lia|]. cbn.
    apply (small_length _ 64); [by rewrite g1Marshal_length|done].
  - destruct (_ >? 0); [done|]. pose proof (pairingPoints_fine (length input / 192) input) as H1.
    destruct (pairingPoints _ _) as [[cs ts]| | |]; cbn; try done.
    by destruct (pairingCheck cs ts).
Qed.

(** A precompiled contract runs, or fails for gas or for its input. *)
Lemma RunPrecompiled_fine p input c :
  small input -> 0 <= cGas c < 2 ^ 60 ->
  exists out err gas, RunPrecompiledContract p input c = (Ok (out, err), withGas c gas) /\
    small out /\ 0 <= gas <= cGas c.
Proof.
  intros Hi Hc. unfold RunPrecompiledContract. destruct (RequiredGas_Ok p input Hi) as [gas Hg]. rewrite Hg.
  pose proof (RequiredGas_nonneg p input gas Hg) as H0. unfold UseGas.
  destruct (Z.ltb_spec (cGas c) gas).
  - exists [], (Some ErrOutOfGas), (cGas c). destruct c; split_and!; try done; cbn in *; lia.
  - pose proof (RunP_fine p input gas Hi Hg ltac:(lia)) as Hf.
    destruct (RunP p input) as [out|e| |]; cbn in Hf; try done.
    + exists out, None, (cGas c - gas). split_and!; try done; lia.
    + exists [], (Some e), (cGas c - gas). split_and!; try done; lia.
Qed.

End Precompiled.

(** ** Invariants *)

Section Invariants.
Context {CR : Crypto} {KC : KnownCodes} {S : Type} {SDB : StateDB S} {SL : StateDBLaws S} {BL : BalanceLaws S} {FL : SafetyLaws S}.

(** The state: codes under their hashes, no debts, and no more ether than [W]. *)
Record StateInv (W : Z) (s : S) : Prop := {
  si_code : CodeOk s;
  si_balance : forall a, is_address a -> 0 <= GetBalance a s;
  si_supply : supply s <= W;
  si_tidy : tidy s
}.

(** Every cached bitmap is that of a known code with its hash. *)
Definition CacheOk (d : gmap Z (list byte)) : Prop :=
  forall h bits, d !! h = Some bits ->
    exists code, knownCode code = true /\ Keccak256 code = h /\ codeBitmap code = Some bits.

(** The EVM, since the state was [s0]. *)
Record EvmOk (W : Z) (s0 : S) (e : EVM S) : Prop := {
  eo_evolves : Evolves s0 (eState e);
  eo_inv : StateInv W (eState e);
  eo_cache : CacheOk (eJumpdests e);
  eo_return : small (eReturnData e)
}.

Record ContractOk (c : Contract) : Prop := {
  co_self : is_address (cSelf c);
  co_value : is_word (cValue c);
  co_gas : is_u64 (cGas c);
  co_code : small (cCode c);
  co_input : small (cInput c);
  co_hash : cCode c <> [] -> cCodeHash c = Keccak256 (cCode c)
}.

(** The size up to which memory can be bought. *)
Definition maxMemory : Z := 0xffffffffe0.

Record MachineOk (W : Z) (s0 : S) (v : VM S) : Prop := {
  mo_pc : 0 <= vmPc v < 2 ^ 62 + 64;
  mo_evm : EvmOk W s0 (vmEvm v);
  mo_contract : ContractOk (vmContract v);
  mo_memory : mLen (vmMemory v) <= maxMemory;
  mo_stack : Forall is_word (vmStack v);
  mo_known : knownCode (cCode (vmContract v)) = true
}.

Lemma StateInv_eq W s s' : sEq s s' -> tidy s' -> StateInv W s -> StateInv W s'.
Proof.
  intros Heq Ht [Hc Hb Hs _]. pose proof (sEq_view s s' Heq) as Hv. split; [| | |done].
  - intros a. rewrite (sv_code _ _ Hv), (sv_codeHash _ _ Hv), (sv_codeSize _ _ Hv). apply Hc.
  - intros a Ha. rewrite (sv_balance _ _ Hv). by apply Hb.
  - by rewrite (supply_eq s s' Heq).
Qed.

(** A balance is a word when all the ether is. *)
Lemma balance_word W s a :
  W < 2 ^ 256 -> sOk s -> StateInv W s -> is_address a -> is_word (GetBalance a s).
Proof.
  intros HW Hok [Hc Hb Hs _] Ha. pose proof (balance_le_supply s a Hok Hb Ha). specialize (Hb a Ha).
  unfold is_word. lia.
Qed.

(** *** Updates that keep the invariant *)

Definition quiet (u : update) : Prop :=
  match u with
  | UCreateAccount a | USetNonce a _ => is_address a
  | USetState a k v => is_address a /\ is_hash k /\ is_hash v
  | USetCode a code => is_address a /\ small code
  | UAddRefund _ | UAddLog _ | UAddPreimage _ _ => True
  | USubBalance _ _ | UAddBalance _ _ | USuicide _ => False
  end.

Lemma quiet_inv W u s : quiet u -> sOk s -> StateInv W s -> StateInv W (runUpdate u s).
Proof.
  intros Hq Hok [Hc Hb Hs Ht]. assert (Hu : updateAddress u) by (destruct u; try done; cbn in *; tauto). split.
  - apply update_code; [done|done|]. intros a code ->. apply Hq.
  - intros a Ha. rewrite update_balance by done. destruct u; try done; by apply Hb.
  - rewrite update_supply; [by destruct u|done|done].
  - by apply update_tidy.
Qed.

Lemma balance_add b x d s :
  sOk s -> GetBalance d (AddBalance b x s) = if b =? d then GetBalance d s + x else GetBalance d s.
Proof. apply (update_balance (UAddBalance b x)). Qed.
Lemma balance_sub b x d s :
  sOk s -> GetBalance d (SubBalance b x s) = if b =? d then GetBalance d s - x else GetBalance d s.
Proof. apply (update_balance (USubBalance b x)). Qed.
Lemma balance_suicide b d s :
  sOk s -> GetBalance d (VmCore.Suicide b s) = if b =? d then 0 else GetBalance d s.
Proof. apply (update_balance (USuicide b)). Qed.
Lemma supply_add b x s : sOk s -> is_address b -> supply (AddBalance b x s) = supply s + x.
Proof. apply (update_supply (UAddBalance b x)). Qed.
Lemma supply_sub b x s : sOk s -> is_address b -> supply (SubBalance b x s) = supply s - x.
Proof. apply (update_supply (USubBalance b x)). Qed.
Lemma supply_suicide b s : sOk s -> is_address b -> supply (VmCore.Suicide b s) = supply s - GetBalance b s.
Proof. apply (update_supply (USuicide b)). Qed.

(** A transfer of what the sender has. *)
Lemma transfer_inv W a b x s :
  is_address a -> is_address b -> 0 <= x <= GetBalance a s -> sOk s -> StateInv W s ->
  StateInv W (AddBalance b x (SubBalance a x s)).
Proof.
  intros Ha Hb Hx Hok [Hc Hbal Hs Ht].
  pose proof (update_ok (USubBalance a x) s Hok) as Hok1. cbn in Hok1. split.
  - apply (update_code (UAddBalance b x)); [done| |done]. by apply (update_code (USubBalance a x)).
  - intros d Hd. rewrite balance_add, balance_sub by done. specialize (Hbal d Hd).
    destruct (Z.eqb_spec b d), (Z.eqb_spec a d); subst; lia.
  - rewrite supply_add, supply_sub by done. lia.
  - apply (update_tidy (UAddBalance b x)); [done..|]. by apply (update_tidy (USubBalance a x)).
Qed.

(** The end of a contract: its ether moves to [b], or is gone when [b] is itself. *)
Lemma suicide_inv W a b s :
  is_address a -> is_address b -> sOk s -> StateInv W s ->
  StateInv W (VmCore.Suicide a (AddBalance b (GetBalance a s) s)).
Proof.
  intros Ha Hb Hok [Hc Hbal Hs Ht]. set (x := GetBalance a s).
  pose proof (update_ok (UAddBalance b x) s Hok) as Hok1. cbn in Hok1. pose proof (Hbal a Ha) as Hx. fold x in Hx. split.
  - apply (update_code (USuicide a)); [done| |done]. by apply (update_code (UAddBalance b x)).
  - intros d Hd. rewrite balance_suicide, balance_add by done. specialize (Hbal d Hd).
    destruct (a =? d); [done|]. destruct (b =? d); lia.
  - rewrite supply_suicide, supply_add, balance_add by done. fold x. destruct (b =? a); lia.
  - apply (update_tidy (USuicide a)); [done..|]. by apply (update_tidy (UAddBalance b x)).
Qed.

(** *** The EVM's fields *)

Lemma EvmOk_ok W s0 e : EvmOk W s0 e -> sOk (eState e).
Proof. intros H. apply (eo_evolves _ _ _ H). Qed.

Lemma EvmOk_state W s0 e s :
  EvmOk W s0 e -> (sOk (eState e) -> Evolves (eState e) s) -> StateInv W s -> EvmOk W s0 (evm_with_state e s).
Proof.
  intros [He Hi Hc Hr] Hs Hinv. split; try done. eapply Evolves_trans; [exact He|]. apply Hs, He.
Qed.

Lemma EvmOk_quiet W s0 e u :
  EvmOk W s0 e -> quiet u -> EvmOk W s0 (evm_with_state e (runUpdate u (eState e))).
Proof.
  intros He Hq. apply EvmOk_state; [done|by apply update_evolves|].
  apply quiet_inv; [done|by eapply EvmOk_ok|by apply He].
Qed.

Lemma EvmOk_suicide W s0 e a b :
  EvmOk W s0 e -> is_address a -> is_address b ->
  EvmOk W s0 (evm_with_state e (VmCore.Suicide a (AddBalance b (GetBalance a (eState e)) (eState e)))).
Proof.
  intros He Ha Hb. pose proof (EvmOk_ok _ _ _ He) as Hok. apply EvmOk_state; [done| |apply suicide_inv; try done; apply He].
  intros _. set (x := GetBalance a (eState e)).
  eapply Evolves_trans; [by apply (update_evolves (UAddBalance b x))|].
  apply (update_evolves (USuicide a)). by apply (update_ok (UAddBalance b x)).
Qed.

End Invariants.

(** ** Memory *)

Lemma memGet_Ok off len m :
  0 <= off -> 0 <= len -> calcMemSize off len <= mLen m -> mLen m <= maxMemory ->
  exists d, memGet (bigInt64 off) (bigInt64 len) m = Ok d /\ Z.of_nat (length d) = len /\ small d.
Proof.
  unfold calcMemSize, maxMemory. intros Ho Hl Hr Hm. unfold memGet.
  destruct (Z.eqb_spec len 0) as [->|Hne]; [by exists []|].
  rewrite !bigInt64_small by lia. destruct (Z.eqb_spec len 0); [lia|].
  rewrite !Z.gtb_ltb. destruct (Z.ltb_spec off (mLen m)); [|lia].
  destruct (Z.ltb_spec off 0); [lia|]. destruct (Z.ltb_spec len 0); [lia|].
  destruct (Z.ltb_spec (mLen m) (off + len)); [lia|]. cbn [orb]. eexists. split; [done|].
  unfold small, mLen in *. rewrite length_take, length_drop. lia.
Qed.

Lemma memSet_Ok off len value m :
  0 <= off -> 0 <= len -> calcMemSize off len <= mLen m -> mLen m <= maxMemory ->
  exists m', memSet (bigUint64 off) (bigUint64 len) value m = Ok m' /\ mLen m' = mLen m.
Proof.
  unfold calcMemSize, maxMemory. intros Ho Hl Hr Hm. unfold memSet. rewrite !Z.gtb_ltb.
  assert (H0 : 0 <= mLen m) by (unfold mLen; lia).
  destruct (Z.eqb_spec len 0) as [->|Hne].
  { change (bigUint64 0) with 0. destruct (Z.ltb_spec (mLen m) 0); [lia|]. by exists m. }
  rewrite !bigUint64_small by (unfold is_u64; lia). destruct (Z.ltb_spec (mLen m) len); [lia|].
  destruct (Z.ltb_spec 0 len); [|lia]. rewrite u64_small by (unfold is_u64; lia).
  destruct (Z.ltb_spec (mLen m) (off + len)); [lia|].
  destruct (Z.ltb_spec (off + len) off); [lia|]. cbn [orb]. eexists. split; [done|].
  unfold mLen, overwrite in *. cbn [mStore].
  rewrite !length_app, length_drop, !length_take. lia.
Qed.

Lemma memSet8_Ok off b m :
  0 <= off -> off + 1 <= mLen m -> mLen m <= maxMemory ->
  exists m', memSet8 (bigInt64 off) b m = Ok m' /\ mLen m' = mLen m.
Proof.
  unfold maxMemory. intros Ho Hr Hm. unfold memSet8. rewrite bigInt64_small by lia.
  destruct (Z.ltb_spec off 0); [lia|]. rewrite Z.geb_leb. destruct (Z.leb_spec (mLen m) off); [lia|].
  cbn [orb]. eexists. split; [done|]. unfold mLen. cbn [mStore]. by rewrite length_insert.
Qed.

(** ** The jump analysis *)

Section Jumps.
Context {CR : Crypto} {KC : KnownCodes}.

Lemma CacheOk_insert d code bits :
  CacheOk d -> knownCode code = true -> codeBitmap code = Some bits -> CacheOk (<[Keccak256 code := bits]> d).
Proof.
  intros Hd Hk E h b. destruct (decide (h = Keccak256 code)) as [->|].
  - rewrite lookup_insert_eq. intros [= <-]. by exists code.
  - rewrite lookup_insert_ne by done. apply Hd.
Qed.

(** The test answers, or panics because two known codes have one hash. *)
Definition HasSafe (code : list byte) (dest : Z) (res : result vmErr bool * gmap Z (list byte)) : Prop :=
  CacheOk (snd res) /\
  match fst res with
  | Ok b => b = true -> dest < Z.of_nat (length code)
  | Panic => clash
  | _ => False
  end.

Lemma has_cached d h code dest bits :
  CacheOk d -> clash -> 0 <= dest -> d !! h = Some bits -> HasSafe code dest (has d h code dest).
Proof.
  intros Hd Hc H0 E. unfold has. rewrite E. rewrite !Z.geb_leb.
  destruct (Z.leb_spec 63 (BitLen dest)) as [|Hb]; [by split|].
  apply (BitLen_lt 63) in Hb; [|lia..]. rewrite (bigUint64_small dest) by (unfold is_u64; lia).
  destruct (Z.leb_spec (Z.of_nat (length code)) dest); [by split|]. cbn [orb].
  destruct (code !! Z.to_nat dest) as [b|]; [|by split].
  destruct (_ =? _); [|by split]. destruct (codeSegment bits dest); (split; [exact Hd|cbn; auto]).
Qed.

Lemma has_safe d code dest :
  CacheOk d -> knownCode code = true -> 0 <= dest -> small code -> HasSafe code dest (has d (Keccak256 code) code dest).
Proof.
  intros Hd Hk H0 Hs.
  assert (Hd' : d !! Keccak256 code = None \/ d !! Keccak256 code = codeBitmap code ->
    HasSafe code dest (has d (Keccak256 code) code dest)).
  { intros Hd'. destruct (has_valid d (Keccak256 code) code dest H0 Hs Hd') as (d' & -> & Hor). split; cbn.
    - destruct Hor as [->|(bits & Eb & ->)]; [done|by apply CacheOk_insert].
    - unfold validJump. intros Hv%andb_prop. bools. lia. }
  destruct (d !! Keccak256 code) as [bits|] eqn:E; [|by apply Hd'; left].
  destruct (Hd _ _ E) as (code' & Hk' & Hh & Hb). destruct (decide (code' = code)) as [->|Hne]; [by apply Hd'; right|].
  apply has_cached with bits; [done| |done|done]. by apply (known_apart code' code).
Qed.

End Jumps.
