(* ===== verification/VmSafeOps.v ===== *)
(** * Package core/vm: instructions are safe

    Second part of the safety proof: with the stack items it asks for and the
    memory it has bought, every instruction of [VmOps] and every gas function of
    [VmGas] runs without a panic and keeps the invariants of [VmSafety]. *)

From stdpp Require Import base numbers list gmap sets option.
From Stdlib Require Import ZArith Lia Strings.Byte.
From S2P Require Import Prelude Common Params Types VmCore VmGas VmOps VmPrecompiled VmInterp VmArithmetic VmGasProofs VmStateSpec VmStateProofs VmAnalysis VmSafety.

(** ** Weakest preconditions *)

Section Wp.
Context {CR : Crypto} {KC : KnownCodes} {S : Type} {SDB : StateDB S} {SL : StateDBLaws S} {BL : BalanceLaws S} {FL : SafetyLaws S}.
Context (W : Z) (s0 : S).
Notation VMM := (M (VM S) vmErr).
Notation EVMM := (M (EVM S) vmErr).

(** From [v] the computation succeeds with [Q], fails in a good EVM, or panics
    because two known codes have one hash. *)
Definition wp {A} (m : VMM A) (Q : A -> VM S -> Prop) (v : VM S) : Prop :=
  match m v with
  | (Ok a, v') => Q a v'
  | (Err _, v') => EvmOk W s0 (vmEvm v')
  | (Panic, _) => clash
  | (NoFuel, _) => True
  end.

(** The same for computations of the EVM. *)
Definition wpE {A} (m : EVMM A) (Q : A -> EVM S -> Prop) (e : EVM S) : Prop :=
  match m e with
  | (Ok a, e') => Q a e'
  | (Err _, e') => EvmOk W s0 e'
  | (Panic, _) => clash
  | (NoFuel, _) => True
  end.

Lemma wp_bind {A B} (m : VMM A) (k : A -> VMM B) Q v :
  wp m (fun a v' => wp (k a) Q v') v -> wp (mbind m k) Q v.
Proof. unfold wp, mbind. by destruct (m v) as [[a| | |] v']. Qed.

Lemma wpE_bind {A B} (m : EVMM A) (k : A -> EVMM B) Q e :
  wpE m (fun a e' => wpE (k a) Q e') e -> wpE (mbind m k) Q e.
Proof. unfold wpE, mbind. by destruct (m e) as [[a| | |] e']. Qed.

Lemma wp_weaken {A} (m : VMM A) (Q Q' : A -> VM S -> Prop) v :
  (forall a v', Q a v' -> Q' a v') -> wp m Q v -> wp m Q' v.
Proof. unfold wp. intros H. destruct (m v) as [[a| | |] v']; auto. Qed.

Lemma wpE_weaken {A} (m : EVMM A) (Q Q' : A -> EVM S -> Prop) e :
  (forall a e', Q a e' -> Q' a e') -> wpE m Q e -> wpE m Q' e.
Proof. unfold wpE. intros H. destruct (m e) as [[a| | |] e']; auto. Qed.

Lemma wp_ret {A} (a : A) Q v : Q a v -> wp (ret a) Q v.
Proof. done. Qed.
Lemma wp_throw {A} x (Q : A -> VM S -> Prop) v : EvmOk W s0 (vmEvm v) -> wp (throw x) Q v.
Proof. done. Qed.
Lemma wp_gets {A} (f : VM S -> A) Q v : Q (f v) v -> wp (gets f) Q v.
Proof. done. Qed.
Lemma wp_getState Q (v : VM S) : Q (eState (vmEvm v)) v -> wp getState Q v.
Proof. done. Qed.
Lemma wp_modify f Q (v : VM S) : Q tt (f v) -> wp (modify f) Q v.
Proof. done. Qed.
Lemma wp_lift {A} (r : result vmErr A) Q v :
  EvmOk W s0 (vmEvm v) -> r <> Panic -> (forall a, r = Ok a -> Q a v) -> wp (lift r) Q v.
Proof. unfold wp, lift. intros He Hp Hq. destruct r; try done. by apply Hq. Qed.
Lemma wp_pop pc e c m x st Q : Q x (mkVM pc e c m st) -> wp pop Q (mkVM pc e c m (x :: st)).
Proof. done. Qed.
Lemma wp_push pc e c m x st Q : Q tt (mkVM pc e c m (x :: st)) -> wp (push x) Q (mkVM pc e c m st).
Proof. done. Qed.
Lemma wp_Back n Q (v : VM S) x : vmStack v !! n = Some x -> Q x v -> wp (Back n) Q v.
Proof. unfold wp, Back. by intros ->. Qed.
Lemma wp_if {A} (b : bool) (m1 m2 : VMM A) Q v :
  (b = true -> wp m1 Q v) -> (b = false -> wp m2 Q v) -> wp (if b then m1 else m2) Q v.
Proof. destruct b; auto. Qed.

Lemma wp_memoryGet off len Q (v : VM S) :
  0 <= off -> 0 <= len -> calcMemSize off len <= mLen (vmMemory v) -> mLen (vmMemory v) <= maxMemory ->
  (forall d, Z.of_nat (length d) = len -> small d -> Q d v) ->
  wp (memoryGet (bigInt64 off) (bigInt64 len)) Q v.
Proof.
  intros H0 Hl Hr Hm HQ. destruct (memGet_Ok off len (vmMemory v)) as (d & E & Hd & Hs); [done..|].
  unfold wp, memoryGet. rewrite E. by apply HQ.
Qed.

Lemma wp_memorySet pc e c m st off len value Q :
  0 <= off -> 0 <= len -> calcMemSize off len <= mLen m -> mLen m <= maxMemory ->
  (forall m', mLen m' = mLen m -> Q tt (mkVM pc e c m' st)) ->
  wp (memorySet (bigUint64 off) (bigUint64 len) value) Q (mkVM pc e c m st).
Proof.
  intros H0 Hl Hr Hm HQ. destruct (memSet_Ok off len value m) as (m' & E & Hd); [done..|].
  unfold wp, memorySet. cbn [vmMemory]. rewrite E. by apply HQ.
Qed.

Lemma wp_memorySet8 pc e c m st off b m' Q :
  memSet8 off b m = Ok m' -> Q tt (mkVM pc e c m' st) ->
  wp (fun v => match memSet8 off b (vmMemory v) with
               | Ok m => (Ok tt, vm_with_memory v m)
               | _ => (Panic, v)
               end) Q (mkVM pc e c m st).
Proof. intros E HQ. unfold wp. cbn [vmMemory]. by rewrite E. Qed.

Lemma wp_memoryGasCost pc e c m st ms Q :
  EvmOk W s0 e ->
  (forall m' cost, mStore m' = mStore m -> ms <= maxMemory -> Q cost (mkVM pc e c m' st)) ->
  wp (memoryGasCost ms) Q (mkVM pc e c m st).
Proof.
  intros He HQ. unfold wp, memoryGasCost, memoryGasCostOn. cbn [vmMemory]. rewrite Z.gtb_ltb.
  destruct (Z.eqb_spec ms 0) as [->|]; [by apply HQ|].
  destruct (Z.ltb_spec 0xffffffffe0 ms); [done|]. cbv zeta.
  by destruct (_ >? _); cbn; apply HQ.
Qed.

Lemma addGas_fine x y : addGas x y <> Panic.
Proof. unfold addGas. destruct (SafeAdd x y) as [? []]; done. Qed.
Lemma mulGas_fine x y : mulGas x y <> Panic.
Proof. unfold mulGas. destruct (SafeMul x y) as [? []]; done. Qed.
Lemma uint64Gas_fine x : uint64Gas x <> Panic.
Proof. unfold uint64Gas, bigUint64Ov. by destruct (_ >? _). Qed.
Lemma callGas_fine gt a b c : callGas gt a b c <> Panic.
Proof. unfold callGas. cbv zeta. by repeat case_match. Qed.

End Wp.
#[export] Hint Resolve addGas_fine mulGas_fine uint64Gas_fine callGas_fine : vm.

(** The cases of a stack that is high enough; names its items' bounds. *)
Ltac takeItems st Hst Hlen :=
  repeat (let x := fresh "x" in let Hx := fresh "Hx" in
    destruct st as [|x st]; [exfalso; cbn in Hlen; lia|];
    pose proof (Forall_inv Hst) as Hx; apply Forall_inv_tail in Hst).

(** One step of a computation on a machine in constructor form. *)
Ltac wpStep :=
  cbv zeta; cbn [vmPc vmEvm vmContract vmMemory vmStack vm_with_stack vm_with_pc vm_with_evm vm_with_contract vm_with_memory];
  lazymatch goal with
  | |- wp _ _ (mbind _ _) _ _ => apply wp_bind
  | |- wp _ _ (ret _) _ _ => apply wp_ret
  | |- wp _ _ VmOps.done _ _ => apply wp_ret
  | |- wp _ _ (throw _) _ _ => apply wp_throw
  | |- wp _ _ (gets _) _ _ => apply wp_gets
  | |- wp _ _ getState _ _ => apply wp_getState
  | |- wp _ _ (modify _) _ _ => apply wp_modify
  | |- wp _ _ (setPc _) _ _ => apply wp_modify
  | |- wp _ _ (setGas _) _ _ => apply wp_modify
  | |- wp _ _ (onState _) _ _ => apply wp_modify
  | |- wp _ _ (lift _) _ _ => apply wp_lift; [|auto with vm|intros ? ?]
  | |- wp _ _ pop _ (mkVM _ _ _ _ (_ :: _)) => apply wp_pop
  | |- wp _ _ (push _) _ _ => apply wp_push
  | |- wp _ _ (Back _) _ _ => eapply wp_Back; [reflexivity|]
  | |- wp _ _ (memoryGasCost _) _ _ => apply wp_memoryGasCost; [|intros ? ? ? ?]
  | |- wp _ _ (if _ then _ else _) _ _ => apply wp_if; intros ?
  end.

Section Gas.
Context {CR : Crypto} {KC : KnownCodes} {S : Type} {SDB : StateDB S} {SL : StateDBLaws S} {BL : BalanceLaws S} {FL : SafetyLaws S}.
Context (W : Z) (s0 : S) (config : ChainConfig) (number : option Z).
Notation VMM := (M (VM S) vmErr).
Notation wp := (wp W s0).

(** What a gas function leaves alone. *)
Record Kept (v v' : VM S) : Prop := {
  ke_pc : vmPc v' = vmPc v;
  ke_contract : vmContract v' = vmContract v;
  ke_stack : vmStack v' = vmStack v;
  ke_memory : mStore (vmMemory v') = mStore (vmMemory v);
  ke_evm : EvmOk W s0 (vmEvm v')
}.

(** A gas function on [n] stack items; [mem] says that it charges for the memory. *)
Definition GasSafe (n : Z) (mem : bool) (g : gasFunc (S := S)) : Prop :=
  forall v ms, MachineOk W s0 v -> n <= Z.of_nat (length (vmStack v)) ->
    wp (g ms) (fun _ v' => Kept v v' /\ (mem = true -> ms <= maxMemory)) v.

Ltac gasSafe :=
  intros v ms [Hpc He Hc Hm Hst] Hlen; destruct v as [pc e c m st];
  cbn [vmPc vmEvm vmContract vmMemory vmStack] in *; takeItems st Hst Hlen;
  repeat wpStep; try done; split; try done.

Lemma const_safe n g : GasSafe n false (constGasFunc g).
Proof. unfold constGasFunc. gasSafe. Qed.

Lemma fixedGas_safe n :
  GasSafe n false (gasBalance config number) /\ GasSafe n false (gasExtCodeSize config number) /\
  GasSafe n false (gasSLoad config number) /\ GasSafe n false gasPush /\ GasSafe n false gasSwap /\
  GasSafe n false gasDup.
Proof.
  split_and!; [unfold gasBalance|unfold gasExtCodeSize|unfold gasSLoad|unfold gasPush|unfold gasSwap|unfold gasDup];
    gasSafe.
Qed.

Lemma copy_safe constant perWord :
  GasSafe 3 true (gasCopy constant perWord 2) /\ GasSafe 4 true (gasCopy constant perWord 3) /\
  GasSafe 2 true (gasCopy constant perWord 1).
Proof. unfold gasCopy. split_and!; gasSafe. Qed.

Lemma memConst_safe n constant : GasSafe n true (gasMemConst constant).
Proof. unfold gasMemConst. gasSafe. Qed.

Lemma memory_safe n : GasSafe n true gasReturn /\ GasSafe n true gasRevert.
Proof. unfold gasReturn, gasRevert. split; gasSafe. Qed.

Lemma log_safe n k : GasSafe (2 + Z.of_nat n) true (makeGasLog k).
Proof. unfold makeGasLog. gasSafe. Qed.

Lemma exp_safe : GasSafe 2 false (gasExp config number).
Proof. unfold gasExp. gasSafe. Qed.

Lemma sstore_safe : GasSafe 2 false gasSStore.
Proof.
  unfold gasSStore. gasSafe. split; try done. by apply (EvmOk_quiet W s0 e (UAddRefund _)).
Qed.

Lemma suicide_safe : GasSafe 1 false (gasSuicide config number).
Proof.
  unfold gasSuicide. gasSafe. split; try done. by apply (EvmOk_quiet W s0 e (UAddRefund _)).
Qed.

Lemma EvmOk_callGas e g : EvmOk W s0 e -> EvmOk W s0 (evm_with_callGas e g).
Proof. by intros []. Qed.

Lemma calls_safe :
  GasSafe 7 true (gasCall config number) /\ GasSafe 7 true (gasCallCode config number) /\
  GasSafe 6 true (gasDelegateCall config number) /\ GasSafe 6 true (gasStaticCall config number).
Proof.
  assert (Hd : GasSafe 6 true (gasDelegateCall config number)).
  { unfold gasDelegateCall, gasCallRest. gasSafe; try (by apply EvmOk_callGas); split; try done; by apply EvmOk_callGas. }
  split_and!; [unfold gasCall, gasCallRest|unfold gasCallCode, gasCallRest|exact Hd|exact Hd];
    gasSafe; try (by apply EvmOk_callGas); split; try done; by apply EvmOk_callGas.
Qed.

End Gas.

(** ** Instructions *)

Section Exec.
Context {CR : Crypto} {KC : KnownCodes} {NC : NativeCrypto} {NL : NativeLaws} {S : Type} {SDB : StateDB S} {SL : StateDBLaws S}
  {BL : BalanceLaws S} {FL : SafetyLaws S}.
Context (W : Z) (HW : W < 2 ^ 256) (s0 : S) (env : Env) (HP : is_word (GasPrice (ctx env))).
Notation VMM := (M (VM S) vmErr).
Notation EVMM := (M (EVM S) vmErr).
Notation wp := (wp W s0).
Notation wpE := (wpE W s0).

(** A memory size function on [n] stack items, which are all that matters. *)
Definition MemSafe (n : Z) (f : memorySizeFunc (S := S)) : Prop :=
  forall v : VM S, n <= Z.of_nat (length (vmStack v)) -> Forall is_word (vmStack v) ->
    exists x, 0 <= x /\ forall v', vmStack v' = vmStack v -> f v' = (Ok x, v').

(** What an instruction leaves behind. *)
Record Post (npop npush : Z) (v : VM S) (res : list byte) (v' : VM S) : Prop := {
  po_res : small res;
  po_evm : EvmOk W s0 (vmEvm v');
  po_stack : Forall is_word (vmStack v');
  po_height : Z.of_nat (length (vmStack v')) = Z.of_nat (length (vmStack v)) + npush - npop;
  po_memory : mLen (vmMemory v') = mLen (vmMemory v);
  po_gas : is_u64 (cGas (vmContract v'));
  po_contract : vmContract v' = withGas (vmContract v) (cGas (vmContract v'));
  po_pc : 0 <= vmPc v' <= vmPc v + 32 \/ 0 <= vmPc v' < Z.of_nat (length (cCode (vmContract v)))
}.

Definition ExecSafe (npop npush : Z) (mf : option (memorySizeFunc (S := S))) (x : exec (S := S)) : Prop :=
  forall v, MachineOk W s0 v -> npop <= Z.of_nat (length (vmStack v)) ->
    match mf with Some f => forall y v', f v = (Ok y, v') -> y <= mLen (vmMemory v) | None => True end ->
    wp x (Post npop npush v) v.

(** *** Words *)

Lemma addressBig_word a : is_word (addressBig a).
Proof. apply is_word_be_value. unfold AddressBytes. rewrite length_be_bytes. lia. Qed.
Lemma hashBig_word h : is_word (be_value (HashBytes h)).
Proof. apply is_word_be_value. unfold HashBytes. rewrite length_be_bytes. lia. Qed.
Lemma BigToAddress_address x : is_address (BigToAddress x).
Proof. rewrite BigToAddress_mod. apply Z.mod_pos_bound. lia. Qed.
Lemma U256_word x : is_word (U256 x).
Proof. rewrite U256_mod. apply is_word_mod. Qed.
Lemma codeSize_word s a : CodeOk s -> is_address a -> is_word (GetCodeSize a s).
Proof. intros Hc Ha. destruct (Hc a Ha) as (H1 & -> & _). by apply is_word_length. Qed.
Lemma mLen_word m : mLen m <= maxMemory -> is_word (mLen m).
Proof. unfold maxMemory, mLen, is_word. lia. Qed.
Lemma is_word_0 : is_word 0.
Proof. done. Qed.
Lemma is_word_1 : is_word 1.
Proof. done. Qed.
Lemma word_nonneg x : is_word x -> 0 <= x.
Proof. unfold is_word. lia. Qed.
Lemma Exp_word x y : is_word y -> is_word (fst (Exp x y)).
Proof. intros Hy. rewrite Exp_correct by apply Hy. apply is_word_mod. Qed.
Lemma land_word x y : is_word x -> is_word y -> is_word (Z.land x y).
Proof. apply is_word_bitops. Qed.
Lemma lor_word x y : is_word x -> is_word y -> is_word (Z.lor x y).
Proof. apply is_word_bitops. Qed.
Lemma lxor_word x y : is_word x -> is_word y -> is_word (Z.lxor x y).
Proof. apply is_word_bitops. Qed.
Lemma byte_word b : is_word (byte_to_Z b).
Proof. pose proof (byte_to_Z_range b). unfold is_word. lia. Qed.
Lemma withGas_self c : c = withGas c (cGas c).
Proof. by destruct c. Qed.
Lemma if_word (b : bool) x y : is_word x -> is_word y -> is_word (if b then x else y).
Proof. by destruct b. Qed.
Lemma data_word b : Z.of_nat (length b) = 32 -> is_word (be_value b).
Proof. intros H. apply is_word_be_value. lia. Qed.
Lemma callData_word b x : small b -> is_word x -> is_word (be_value (getDataBig b x 32)).
Proof. intros Hb Hx. apply data_word. apply getDataBig_small; [done|apply Hx|lia]. Qed.
Lemma pc_word pc : 0 <= pc < 2 ^ 62 + 64 -> is_word pc.
Proof. unfold is_word. lia. Qed.

Lemma memRange_safe n i j :
  Z.of_nat (i + 1) <= n -> Z.of_nat (j + 1) <= n -> MemSafe n (memRange i j).
Proof.
  intros Hi Hj v Hn Hst.
  destruct (lookup_lt_is_Some_2 (vmStack v) i) as [x Hx]; [lia|].
  destruct (lookup_lt_is_Some_2 (vmStack v) j) as [y Hy]; [lia|].
  exists (calcMemSize x y). split.
  - pose proof (proj1 (Forall_lookup _ _) Hst i x Hx) as Hwx. pose proof (proj1 (Forall_lookup _ _) Hst j y Hy) as Hwy.
    unfold is_word in *. unfold calcMemSize. destruct (_ =? _); lia.
  - intros v' E. unfold memRange, mbind, Back. rewrite E, Hx. cbn. by rewrite E, Hy.
Qed.

Lemma memFixed_safe n len : 1 <= n -> 0 <= len -> MemSafe n (memFixed len).
Proof.
  intros Hn Hl v Hv Hst. destruct (vmStack v) as [|x st] eqn:E; [cbn in Hv; lia|].
  exists (calcMemSize x len). split.
  - pose proof (Forall_inv Hst) as Hx. unfold is_word in Hx. unfold calcMemSize. destruct (_ =? _); lia.
  - intros v' E'. unfold memFixed, mbind, Back. by rewrite E'.
Qed.

Lemma memTwo_safe n i j k l :
  Z.of_nat (i + 1) <= n -> Z.of_nat (j + 1) <= n -> Z.of_nat (k + 1) <= n -> Z.of_nat (l + 1) <= n ->
  MemSafe n (memTwo i j k l).
Proof.
  intros Hi Hj Hk Hl v Hn Hst.
  destruct (memRange_safe n i j Hi Hj v Hn Hst) as (x & Hx & Ex).
  destruct (memRange_safe n k l Hk Hl v Hn Hst) as (y & Hy & Ey).
  exists (BigMax x y). split; [unfold BigMax; destruct (_ <? _); lia|].
  intros v' E. unfold memTwo, mbind. by rewrite (Ex v' E), (Ey v' E).
Qed.

End Exec.
#[export] Hint Resolve addressBig_word hashBig_word BigToAddress_address U256_word codeSize_word mLen_word
  is_word_0 is_word_1 is_word_flag is_word_length is_word_u64 word_nonneg
  Exp_word land_word lor_word lxor_word byte_word if_word data_word callData_word pc_word : vm.


(** A machine that fits the invariants, taken apart. *)
Ltac openMachine :=
  let v := fresh "v" in
  intros v [Hpc He Hc Hmem Hst Hknown] Hlen Hsize; destruct v as [pc e c m st];
  cbn [vmPc vmEvm vmContract vmMemory vmStack] in *; takeItems st Hst Hlen.

(** The invariants after an instruction that only moves words. *)
Ltac closePost :=
  split; cbn [vmPc vmEvm vmContract vmMemory vmStack vm_with_stack vm_with_pc vm_with_evm vm_with_contract vm_with_memory];
  [ try done | try done | repeat first [assumption | apply Forall_nil | apply Forall_cons; [auto with vm|]] | cbn [length] in *; lia | try done
  | try (apply co_gas; done) | try apply withGas_self | try (left; lia) ].
Ltac execSafe :=
  lazymatch goal with |- ExecSafe _ _ _ _ _ ?x => let f := headOf x in unfold f end;
  openMachine; repeat wpStep; closePost.

(** What an instruction reads and writes lies in the memory it has bought. *)
Ltac openMemory :=
  let v := fresh "v" in
  intros v [Hpc He Hc Hmem Hst] Hlen Hsize; destruct v as [pc e c m st];
  cbn [vmPc vmEvm vmContract vmMemory vmStack] in *; takeItems st Hst Hlen; specialize (Hsize _ _ eq_refl).
Ltac wpMem :=
  first
  [ wpStep
  | apply wp_memoryGet; cbn [vmMemory]; [auto with vm|auto with vm|try done|done|intros ? ? ?]
  | apply wp_memorySet; [auto with vm|auto with vm|try done|done|intros ? ?] ].
Ltac execMem :=
  lazymatch goal with |- ExecSafe _ _ _ _ _ ?x => let f := headOf x in unfold f end;
  openMemory; repeat wpMem; try closePost.

Section Instructions.
Context {CR : Crypto} {KC : KnownCodes} {S : Type} {SDB : StateDB S} {SL : StateDBLaws S} {BL : BalanceLaws S} {FL : SafetyLaws S}.
Context (W : Z) (HW : W < 2 ^ 256) (s0 : S) (env : Env) (HP : is_word (GasPrice (ctx env))).
Notation wp := (wp W s0).
Notation ExecSafe := (ExecSafe W s0).

Lemma binary_safe :
  Forall (ExecSafe 2 1 None) [opAdd; opSub; opMul; opDiv; opSdiv; opMod; opSmod; opExp; opLt; opGt; opSlt; opSgt;
    opEq; opAnd; opOr; opXor; opByte; opSignExtend].
Proof. repeat apply Forall_cons; try apply Forall_nil; execSafe. Qed.

Lemma others_safe :
  ExecSafe 1 1 None opNot /\ ExecSafe 1 1 None opIszero /\ ExecSafe 3 1 None opAddmod /\
  ExecSafe 3 1 None opMulmod /\ ExecSafe 1 0 None opPop /\ ExecSafe 0 0 None opJumpdest /\
  ExecSafe 0 0 None opStop /\ ExecSafe 1 1 None opSload.
Proof. split_and!; execSafe. Qed.

Lemma environment_safe :
  Forall (ExecSafe 0 1 None) [opAddress; opOrigin env; opCaller; opCallValue; opCallDataSize; opReturnDataSize;
    opCodeSize; opGasprice env; opCoinbase env; opTimestamp env; opNumber env; opDifficulty env; opGasLimit env;
    opPc; opMsize; opGas].
Proof.
  assert (Hr : forall e, EvmOk W s0 e -> small (eReturnData e)) by (by intros e []).
  repeat apply Forall_cons; try apply Forall_nil; execSafe; destruct Hc; auto with vm.
Qed.

Lemma accounts_safe :
  ExecSafe 1 1 None opBalance /\ ExecSafe 1 1 None opExtCodeSize /\ ExecSafe 1 1 None opCallDataLoad /\
  ExecSafe 1 1 None (opBlockhash env).
Proof.
  split_and!; execSafe.
  - apply (balance_word W); [done|by eapply EvmOk_ok|apply He|auto with vm].
  - apply codeSize_word; [apply He|apply BigToAddress_address].
  - apply callData_word; [apply Hc|done].
Qed.

Lemma copies_safe :
  ExecSafe 3 0 (Some memoryCallDataCopy) opCallDataCopy /\ ExecSafe 3 0 (Some memoryCodeCopy) opCodeCopy /\
  ExecSafe 4 0 (Some memoryExtCodeCopy) opExtCodeCopy.
Proof. split_and!; execMem. Qed.

Lemma returns_safe :
  ExecSafe 2 0 (Some memoryReturn) opReturn /\ ExecSafe 2 0 (Some memoryRevert) opRevert.
Proof. split_and!; execMem. Qed.

Lemma memories_safe :
  ExecSafe 1 1 (Some memoryMLoad) opMload /\ ExecSafe 2 0 (Some memoryMStore) opMstore /\
  ExecSafe 2 0 (Some memoryMStore8) opMstore8 /\ ExecSafe 2 1 (Some memorySha3) (opSha3 env).
Proof.
  split_and!; execMem.
  - apply (wp_memoryGet _ _ x 32); cbn [vmMemory]; [auto with vm|done|done|done|intros d Hd _].
    repeat wpStep. closePost.
  - apply (wp_memorySet _ _ _ _ _ _ _ x 32); [auto with vm|done|done|done|intros ? ?]. repeat wpStep. closePost.
  - destruct (memSet8_Ok x (byte_of_Z (Z.land (bigInt64 x0) 255)) m) as (m' & E & Hm'); [auto with vm|done|done|].
    apply wp_memorySet8 with m'; [done|]. repeat wpStep. closePost.
  - by apply (EvmOk_quiet W s0 e (UAddPreimage _ _)).
Qed.

Lemma returnData_safe : ExecSafe 3 0 (Some memoryReturnDataCopy) opReturnDataCopy.
Proof.
  execMem; [exact He|]. bools. rewrite Z.gtb_ltb in *. exfalso.
  assert (Hb : BitLen (x0 + x1) <= 64) by (destruct (Z.ltb_spec 64 (BitLen (x0 + x1))); done || lia).
  unfold is_word in *. apply BitLen_le in Hb; [|lia]. rewrite Z.abs_eq in Hb by lia.
  rewrite !bigUint64_small in * by (unfold is_u64; lia). lia.
Qed.

Lemma store_safe : ExecSafe 2 0 None opSstore.
Proof. execSafe. apply (EvmOk_quiet W s0 e (USetState _ _ _)); [done|split_and!; [apply Hc|apply BigToHash_range..]]. Qed.

Lemma opSuicide_safe : ExecSafe 1 0 None opSuicide.
Proof. execSafe. apply (EvmOk_suicide W s0 e); [done|apply Hc|auto with vm]. Qed.

(** *** Jumps *)

Lemma wp_checkJump pc e c m st pos Q :
  EvmOk W s0 e -> ContractOk c -> knownCode (cCode c) = true -> is_word pos ->
  (forall ok d, EvmOk W s0 (evm_with_jumpdests e d) -> (ok = true -> pos < Z.of_nat (length (cCode c))) ->
     Q ok (mkVM pc (evm_with_jumpdests e d) c m st)) ->
  wp (checkJump pos) Q (mkVM pc e c m st).
Proof.
  intros He Hc Hk Hpos HQ.
  assert (Hd : forall d, CacheOk d -> EvmOk W s0 (evm_with_jumpdests e d)) by (intros d Hd; by destruct He).
  assert (Hs : HasSafe (cCode c) pos (has (eJumpdests e) (cCodeHash c) (cCode c) pos)).
  { destruct (cCode c) as [|b code] eqn:E.
    - unfold has. cbn [length]. rewrite (Z.geb_leb (bigUint64 pos)). pose proof (bigUint64_nonneg pos).
      destruct (Z.leb_spec (Z.of_nat 0) (bigUint64 pos)); [|lia]. rewrite orb_true_r. split; [apply He|done].
    - rewrite (co_hash c Hc) by (by rewrite E). rewrite E.
      apply has_safe; [apply He|done|apply Hpos|rewrite <- E; apply Hc]. }
  unfold checkJump, VmSafeOps.wp. cbn [vmContract vmEvm].
  destruct (has _ _ _ _) as [[ok| | |] d], Hs as [Hd' Hs]; try done. by apply HQ; [apply Hd|].
Qed.

Lemma jumps_safe : ExecSafe 1 0 None opJump /\ ExecSafe 2 0 None opJumpi.
Proof.
  assert (Hp : forall pos c ok, is_word pos -> ContractOk c -> ok = true ->
    (ok = true -> pos < Z.of_nat (length (cCode c))) -> 0 <= bigUint64 pos < Z.of_nat (length (cCode c))).
  { intros pos c ok Hpos Hc Hok Hlt. specialize (Hlt Hok). pose proof (co_code c Hc). unfold small, is_word in *.
    rewrite bigUint64_small by (unfold is_u64; lia). lia. }
  split; [unfold opJump|unfold opJumpi]; openMachine; repeat wpStep.
  - apply wp_checkJump; [done..|intros ok d He' Hok]. repeat wpStep; [done|]. closePost. right. bools.
    by eapply Hp.
  - apply wp_checkJump; [done..|intros ok d He' Hok]. repeat wpStep; [done|]. closePost. right. bools.
    by eapply Hp.
  - closePost. rewrite u64_small by (unfold is_u64; lia). left. lia.
Qed.

(** *** Families *)

Lemma makePush_safe n : 1 <= n <= 32 -> ExecSafe 0 1 None (makePush n n).
Proof.
  intros Hn. unfold makePush. openMachine. pose proof (co_code c Hc) as Hcode. unfold small in Hcode.
  assert (E : i64 (u64 (pc + 1)) = pc + 1) by (rewrite u64_small, i64_small; unfold is_u64; lia).
  repeat wpStep; rewrite E in *.
  - exfalso. bools. destruct (Z.ltb_spec (pc + 1) (Z.of_nat (length (cCode c)))); lia.
  - set (lo := if pc + 1 <? Z.of_nat (length (cCode c)) then pc + 1 else Z.of_nat (length (cCode c))).
    set (hi := if lo + n <? Z.of_nat (length (cCode c)) then lo + n else Z.of_nat (length (cCode c))).
    assert (Hhi : hi - lo <= n).
    { unfold hi. destruct (Z.ltb_spec (lo + n) (Z.of_nat (length (cCode c)))); lia. }
    assert (Hw : is_word (be_value (RightPadBytes (take (Z.to_nat (hi - lo)) (drop (Z.to_nat lo) (cCode c))) n))).
    { apply is_word_be_value. enough (Z.of_nat (length (RightPadBytes
        (take (Z.to_nat (hi - lo)) (drop (Z.to_nat lo) (cCode c))) n)) = n) by lia.
      apply length_RightPadBytes. rewrite length_take, length_drop. lia. }
    closePost. rewrite u64_small by (unfold is_u64; lia). left. lia.
Qed.

Lemma makeDup_safe n : (1 <= n)%nat -> ExecSafe (Z.of_nat n) (Z.of_nat n + 1) None (makeDup n).
Proof.
  intros Hn. unfold makeDup. openMachine. wpStep. unfold VmSafeOps.wp, dup. cbn [vmStack].
  destruct (lookup_lt_is_Some_2 (x :: st) (n - 1)) as [y Hy]; [cbn [length] in *; lia|]. rewrite Hy.
  pose proof (proj1 (Forall_lookup _ _) (Forall_cons _ _ _ Hx Hst) _ _ Hy). closePost.
Qed.

Lemma makeSwap_safe n : ExecSafe (Z.of_nat n + 1) (Z.of_nat n + 1) None (makeSwap n).
Proof.
  unfold makeSwap. openMachine. wpStep. unfold VmSafeOps.wp, swap. cbn [vmStack].
  destruct (lookup_lt_is_Some_2 (x :: st) (n + 1 - 1)) as [y Hy]; [cbn [length] in *; lia|]. rewrite Hy.
  assert (Hall : Forall is_word (x :: st)) by (by apply Forall_cons).
  pose proof (proj1 (Forall_lookup _ _) Hall _ _ Hy). 
  split; cbn [vmPc vmEvm vmContract vmMemory vmStack vm_with_stack]; try done; try (by apply Hc); try apply withGas_self;
    [| |left; lia].
  - apply Forall_insert; [apply Forall_insert|]; done.
  - rewrite !length_insert. lia.
Qed.

Lemma wp_popTopics n pc e c m st Q :
  (n <= length st)%nat -> (forall ts, Q ts (mkVM pc e c m (drop n st))) -> wp (popTopics n) Q (mkVM pc e c m st).
Proof.
  revert st Q. induction n as [|n IH]; intros st Q Hn HQ; [apply wp_ret, HQ|].
  destruct st as [|x st]; [cbn in Hn; lia|]. cbn [popTopics]. wpStep. wpStep. wpStep.
  apply IH; [cbn in Hn; lia|]. intros ts. wpStep. apply HQ.
Qed.

Lemma makeLog_safe n : ExecSafe (2 + Z.of_nat n) 0 (Some memoryLog) (makeLog env n).
Proof.
  unfold makeLog. openMemory. repeat wpStep. cbn [length] in Hlen.
  apply wp_popTopics; [lia|intros ts]. repeat wpMem.
  split; cbn [vmPc vmEvm vmContract vmMemory vmStack vm_with_evm]; try done; try (by apply Hc); try apply withGas_self;
    [| | |left; lia].
  - by apply (EvmOk_quiet W s0 e (UAddLog _)).
  - by apply Forall_drop.
  - rewrite length_drop. cbn [length]. lia.
Qed.

End Instructions.
