(* ===== verification/VmSafeLoop.v ===== *)
(** * Package core/vm: the interpreter and the calls are safe

    Last part of the safety proof.  The calling instructions are safe when the
    calls are, so one round of the interpreter is, and the calls are safe when the
    interpreter is: the knot is tied by induction on the fuel.

    A call is only safe with less gas than 2^60 (the lengths of the big
    exponentiation contract fit into an int for that price).  A round never hands
    out more gas than it has, which [VmGasProofs] shows; [clamp] turns that into a
    callee whose other calls do not matter. *)

From stdpp Require Import base numbers list gmap sets option.
From Stdlib Require Import ZArith Lia Strings.Byte.
From S2P Require Import Prelude Common Params Types VmCore VmGas VmOps VmPrecompiled VmInterp VmArithmetic VmGasProofs VmFuel VmStateSpec VmStateProofs VmAnalysis VmSafety VmSafeOps.

Section Callee.
Context {CR : Crypto} {KC : KnownCodes} {NC : NativeCrypto} {S : Type} {SDB : StateDB S} {SL : StateDBLaws S} {BL : BalanceLaws S}
  {FL : SafetyLaws S}.
Context (W : Z) (HW : W < 2 ^ 256) (env : Env) (HP : is_word (GasPrice (ctx env))).
Notation EVMM := (M (EVM S) vmErr).

(** A call leaves a good EVM, and output that memory can take. *)
Definition CallPost (s0 : S) (r : callResult) (e : EVM S) : Prop := small (fst (fst r)) /\ EvmOk W s0 e.
Definition CreatePost (s0 : S) (r : createResult) (e : EVM S) : Prop :=
  small (fst (fst (fst r))) /\ EvmOk W s0 e.

Record CalleeSafe (s0 : S) (callee : Callee S) : Prop := {
  cs_call : forall c a i g x e, ContractOk c -> is_address a -> small i -> is_word x -> EvmOk W s0 e ->
    wpE W s0 (doCall callee c a i g x) (CallPost s0) e;
  cs_callCode : forall c a i g x e, ContractOk c -> is_address a -> small i -> is_word x -> EvmOk W s0 e ->
    wpE W s0 (doCallCode callee c a i g x) (CallPost s0) e;
  cs_delegate : forall c a i g e, ContractOk c -> is_address a -> small i -> EvmOk W s0 e ->
    wpE W s0 (doDelegateCall callee c a i g) (CallPost s0) e;
  cs_static : forall c a i g e, ContractOk c -> is_address a -> small i -> EvmOk W s0 e ->
    wpE W s0 (doStaticCall callee c a i g) (CallPost s0) e;
  cs_create : forall c i g x e, ContractOk c -> small i -> is_word x -> EvmOk W s0 e ->
    wpE W s0 (doCreate callee c i g x) (CreatePost s0) e
}.

Context (s0 : S) (callee : Callee S) (HC : CalleeSafe s0 callee).
Notation wp := (wp W s0).
Notation ExecSafe' := (ExecSafe W s0).

Lemma wp_onEvm {A} (m : EVMM A) Q pc e c mem st :
  wpE W s0 m (fun a e' => Q a (mkVM pc e' c mem st)) e -> wp (onEvm m) Q (mkVM pc e c mem st).
Proof. unfold wpE, VmSafeOps.wp, onEvm. cbn [vmEvm]. by destruct (m e) as [[] ?]. Qed.

Lemma ContractOk_gas c g : ContractOk c -> is_u64 g -> ContractOk (withGas c g).
Proof. by intros []. Qed.

Lemma BigMax_le x y z : BigMax x y <= z -> x <= z /\ y <= z.
Proof. unfold BigMax. destruct (Z.ltb_spec x y); lia. Qed.

(** The end of a call instruction, which has pushed nothing yet. *)
Lemma finishCall_safe npop pc e c m st retOffset retSize r v :
  EvmOk W s0 e -> ContractOk c -> Forall is_word st -> 0 <= pc -> small (fst (fst r)) ->
  is_word retOffset -> is_word retSize -> calcMemSize retOffset retSize <= mLen m -> mLen m <= maxMemory ->
  vmPc v = pc -> vmContract v = c -> vmMemory v = m -> Z.of_nat (length (vmStack v)) = npop + Z.of_nat (length st) ->
  wp (finishCall retOffset retSize r) (Post W s0 npop 1 v) (mkVM pc e c m st).
Proof.
  intros He Hc Hst Hpc Hr Ho Hs Hfit Hmax <- <- <- Hlen. destruct r as [[out left] err]. unfold finishCall.
  repeat wpMem; split; cbn [vmPc vmEvm vmContract vmMemory vmStack vm_with_contract cGas withGas]; try done;
    try (by left; lia); try (by apply u64_range); try (cbn [length]; lia);
    apply Forall_cons; auto with vm.
Qed.

(** The instructions up to the call. *)
Ltac callSafe H :=
  lazymatch goal with |- ExecSafe _ _ _ _ _ ?x => let f := headOf x in unfold f end;
  openMemory; lazymatch goal with B : BigMax _ _ <= _ |- _ => apply BigMax_le in B as [] end;
  repeat wpMem; apply wp_onEvm; eapply wpE_weaken; [|apply H; auto with vm];
  intros r e' [Hout He']; apply finishCall_safe; try done; cbn [vmStack length] in *; lia.

Lemma opCalls_safe :
  ExecSafe' 7 1 (Some memoryCall) (opCall callee) /\ ExecSafe' 7 1 (Some memoryCall) (opCallCode callee) /\
  ExecSafe' 6 1 (Some memoryDelegateCall) (opDelegateCall callee) /\
  ExecSafe' 6 1 (Some memoryStaticCall) (opStaticCall callee).
Proof.
  split_and!; [callSafe (cs_call s0 callee HC)|callSafe (cs_callCode s0 callee HC)
    |callSafe (cs_delegate s0 callee HC)|callSafe (cs_static s0 callee HC)].
Qed.

Lemma opCreate_safe : ExecSafe' 3 1 (Some memoryCreate) (opCreate env callee).
Proof.
  unfold opCreate. openMemory. repeat wpMem.
  set (gas := if IsEIP150 _ _ then _ else _). assert (Hg : is_u64 gas).
  { unfold gas. destruct (IsEIP150 _ _); [apply u64_range|apply Hc]. }
  assert (HU : exists g, is_u64 g /\ snd (UseGas c gas) = withGas c g).
  { unfold UseGas. destruct (Z.ltb_spec (cGas c) gas); cbn [snd].
    - exists (cGas c). split; [apply Hc|apply withGas_self].
    - exists (cGas c - gas). split; [|done]. pose proof (co_gas c Hc). unfold is_u64 in *. lia. }
  destruct HU as (g & Hg' & ->). apply wp_onEvm. eapply wpE_weaken; [|by apply (cs_create s0 callee HC);
    [apply ContractOk_gas| | |]].
  intros [[[res addr] left] err] e' [Hout He']. repeat wpStep.
  split; cbn [vmPc vmEvm vmContract vmMemory vmStack vm_with_contract cGas withGas]; try done;
    try (by left; lia); try (by apply u64_range); try (cbn [length]; lia).
  - by destruct (bool_decide _).
  - apply Forall_cons; auto with vm.
Qed.

(** ** The tables *)

(** An operation's functions are safe for the stack heights that the table gives. *)
Record OpSafe (o : operation (S := S)) : Prop := {
  os_memory : forall f, oMemorySize o = Some f -> MemSafe (oPop o) f;
  os_gas : GasSafe W s0 (oPop o) (bool_decide (is_Some (oMemorySize o))) (oGasCost o);
  os_exec : ExecSafe' (oPop o) (oPush o) (oMemorySize o) (oExecute o)
}.

Notation GasSafe := (GasSafe W s0).

Lemma OpSafe_of e g npop npush mem b1 b2 b3 b4 b5 :
  match mem with Some f => MemSafe npop f | None => True end ->
  GasSafe npop (bool_decide (is_Some mem)) g -> ExecSafe' npop npush mem e ->
  OpSafe (mkOperation e g npop npush mem b1 b2 b3 b4 b5).
Proof. intros Hm Hg He. split; cbn; [|done|done]. intros f ->. done. Qed.

(** Lookups in the lists of safe functions compare names only. *)
#[local] Opaque VmSafeOps.ExecSafe VmSafeOps.GasSafe MemSafe opAdd opSub opMul opDiv opSdiv opMod opSmod opExp opLt
  opGt opSlt opSgt opEq opAnd opOr opXor opByte opSignExtend opNot opIszero opAddmod opMulmod opPop opJumpdest opStop
  opSload opAddress opOrigin opCaller opCallValue opCallDataSize opReturnDataSize opCodeSize opGasprice opCoinbase
  opTimestamp opNumber opDifficulty opGasLimit opPc opMsize opGas opBalance opExtCodeSize opCallDataLoad opBlockhash
  opCallDataCopy opCodeCopy opExtCodeCopy opReturn opRevert opMload opMstore opMstore8 opSha3 opReturnDataCopy
  opSstore opSuicide opJump opJumpi opCall opCallCode opDelegateCall opStaticCall opCreate.

Ltac memSafe :=
  first [ exact I | apply memRange_safe; lia | apply memFixed_safe; lia | apply memTwo_safe; lia ].
Ltac gasOf :=
  first [ apply const_safe | apply fixedGas_safe | apply exp_safe | apply sstore_safe | apply suicide_safe
        | apply copy_safe | apply memConst_safe | apply memory_safe | apply log_safe | apply calls_safe ].
Ltac inList := repeat first [apply List.in_eq | apply List.in_cons].
Ltac execOf :=
  first
  [ by apply others_safe | by apply accounts_safe | by apply store_safe | by apply opSuicide_safe
  | by apply jumps_safe | by apply copies_safe | by apply returns_safe | by apply memories_safe
  | by apply returnData_safe | by apply opCalls_safe | by apply opCreate_safe
  | by apply (proj1 (List.Forall_forall _ _) (binary_safe W s0)); inList
  | by apply (proj1 (List.Forall_forall _ _) (environment_safe W s0 env HP)); inList ].
Ltac opSafe := intros [= <-]; apply OpSafe_of; [memSafe|gasOf|execOf].

Lemma frontier_safe op o : frontierInstructionSet env callee op = Some o -> OpSafe o.
Proof.
  unfold frontierInstructionSet.
  destruct (_ && _) eqn:E; [|clear E; destruct (_ && _) eqn:E; [|clear E; destruct (_ && _) eqn:E;
    [|clear E; destruct (_ && _) eqn:E; [|clear E; repeat case_match; try done; opSafe]]]]; bools.
  - intros [= <-]. apply OpSafe_of; [done|gasOf|]. apply makePush_safe. lia.
  - intros [= <-]. apply OpSafe_of; [done|gasOf|].
    rewrite <- (Z2Nat.id (op - 127)) at 1 2 by lia. apply makeDup_safe. lia.
  - intros [= <-]. apply OpSafe_of; [done|gasOf|].
    rewrite <- (Z2Nat.id (op - 143)) at 1 2 by lia. apply makeSwap_safe.
  - intros [= <-]. apply OpSafe_of; [memSafe|gasOf|]. apply makeLog_safe.
Qed.

Lemma jumpTable_safe op o : jumpTable env callee op = Some o -> OpSafe o.
Proof.
  assert (Hh : homesteadInstructionSet env callee op = Some o -> OpSafe o).
  { unfold homesteadInstructionSet. destruct (op =? _); [opSafe|apply frontier_safe]. }
  unfold jumpTable. destruct (IsByzantium _ _); [|by destruct (IsHomestead _ _); [|apply frontier_safe]].
  unfold byzantiumInstructionSet. destruct (op =? _); [opSafe|]. destruct (op =? _); [opSafe|].
  destruct (op =? _); [opSafe|]. destruct (op =? _); [opSafe|done].
Qed.

(** Past the end of the code is STOP. *)
Lemma jumpTable_end (c : Contract) pc o :
  Z.of_nat (length (cCode c)) <= pc -> jumpTable env callee (GetOp c pc) = Some o ->
  oHalts o = true /\ oReverts o = false.
Proof.
  intros Hpc. unfold GetOp, GetByte. rewrite lookup_ge_None_2 by lia.
  unfold jumpTable. destruct (IsByzantium _ _); [|destruct (IsHomestead _ _)]; cbn; by intros [= <-].
Qed.

Lemma jumpTable_call o : jumpTable env callee CALL = Some o -> oPop o = 7.
Proof. unfold jumpTable. destruct (IsByzantium _ _); [|destruct (IsHomestead _ _)]; cbn; by intros [= <-]. Qed.

(** ** One round *)

Lemma enforceRestrictions_safe op o v Q :
  jumpTable env callee op = Some o -> oPop o <= Z.of_nat (length (vmStack v)) -> EvmOk W s0 (vmEvm v) ->
  Q tt v -> wp (enforceRestrictions env op o) Q v.
Proof.
  intros Ho Hn He HQ. unfold enforceRestrictions. wpStep. wpStep. repeat (apply wp_if; intros ?); try done.
  bools. subst op. apply jumpTable_call in Ho. destruct (lookup_lt_is_Some_2 (vmStack v) 2) as [x Hx]; [lia|].
  apply wp_bind. eapply wp_Back; [done|]. by apply wp_if; intros ?.
Qed.

(** The memory that an operation is charged for covers what it asks for. *)
Definition MemoryFits (o : operation (S := S)) (st : list Z) (ms : Z) : Prop :=
  match oMemorySize o with
  | Some f => forall v y w, vmStack v = st -> f v = (Ok y, w) -> y <= ms
  | None => ms = 0
  end.

Lemma toWordSize_le x : is_u64 x -> x <= toWordSize x * 32.
Proof.
  intros Hx. unfold toWordSize, MaxUint64, is_u64 in *. rewrite Z.gtb_ltb.
  destruct (Z.ltb_spec (2 ^ 64 - 1 - 31) x); [change ((2 ^ 64 - 1) / 32 + 1) with (2 ^ 59); lia|].
  pose proof (Z.div_mod (x + 31) 32). pose proof (Z.mod_pos_bound (x + 31) 32). lia.
Qed.

Lemma memorySizeOf_safe o v Q :
  OpSafe o -> MachineOk W s0 v -> oPop o <= Z.of_nat (length (vmStack v)) ->
  (forall ms, 0 <= ms -> MemoryFits o (vmStack v) ms -> Q ms v) -> wp (memorySizeOf o) Q v.
Proof.
  intros Ho Hv Hn HQ. unfold memorySizeOf. destruct (oMemorySize o) as [f|] eqn:E.
  2: { apply wp_ret, HQ; [done|]. unfold MemoryFits. by rewrite E. }
  destruct (os_memory o Ho f E v Hn (mo_stack _ _ _ Hv)) as (x & Hx & Hf).
  apply wp_bind. unfold VmSafeOps.wp at 1. rewrite (Hf v eq_refl).
  apply wp_bind, wp_lift; [apply Hv|auto with vm|]. intros size Hs. apply uint64Gas_Ok in Hs as (Hu & -> & Hb).
  assert (Hxu : is_u64 x).
  { apply BitLen_le in Hb; [|lia]. rewrite Z.abs_eq in Hb by done. unfold is_u64. lia. }
  rewrite (bigUint64_small x Hxu) in *.
  apply wp_lift; [apply Hv|auto with vm|]. intros ms Hm.
  apply mulGas_Ok in Hm as [-> Hm]; [|by apply toWordSize_u64|done].
  pose proof (toWordSize_le x Hxu). apply HQ; [lia|]. unfold MemoryFits. rewrite E.
  intros v' y w Ev Ey. rewrite (Hf v' Ev) in Ey. injection Ey as <- _. lia.
Qed.

(** After the charge only the gas and the caches differ. *)
Record Charged (o : operation (S := S)) (ms : Z) (v v' : VM S) : Prop := {
  ch_pc : vmPc v' = vmPc v;
  ch_stack : vmStack v' = vmStack v;
  ch_memory : mStore (vmMemory v') = mStore (vmMemory v);
  ch_evm : EvmOk W s0 (vmEvm v');
  ch_contract : exists g, is_u64 g /\ vmContract v' = withGas (vmContract v) g;
  ch_size : is_Some (oMemorySize o) -> ms <= maxMemory
}.

Lemma chargeGas_safe o ms v :
  OpSafe o -> (forall ms, Yields (oGasCost o ms) (fun cost => 0 <= cost)) ->
  MachineOk W s0 v -> oPop o <= Z.of_nat (length (vmStack v)) ->
  wp (chargeGas o ms) (fun _ => Charged o ms v) v.
Proof.
  intros Ho Hcost Hv Hn. pose proof (os_gas o Ho v ms Hv Hn) as Hg. specialize (Hcost ms v).
  unfold VmSafeOps.wp, chargeGas in *. destruct (oGasCost o ms v) as [[cost| | |] v2]; try done.
  destruct Hg as [[Hpc Hc Hst Hm He] Hms]. specialize (Hcost cost v2 eq_refl). unfold UseGas. rewrite Hc.
  pose proof (co_gas _ (mo_contract _ _ _ Hv)) as Hu. unfold is_u64 in *.
  destruct (Z.ltb_spec (cGas (vmContract v)) cost); [done|]. split; try done.
  - exists (cGas (vmContract v) - cost). split; [unfold is_u64; lia|done].
  - intros Hs. apply Hms. by apply bool_decide_eq_true.
Qed.

(** The machine an operation executes on. *)
Lemma resize_safe o ms v v1 v2 :
  MachineOk W s0 v -> 0 <= ms -> MemoryFits o (vmStack v) ms -> Charged o ms v v1 ->
  v2 = (if ms >? 0 then vm_with_memory v1 (memResize ms (vmMemory v1)) else v1) ->
  MachineOk W s0 v2 /\ vmStack v2 = vmStack v /\ vmPc v2 = vmPc v /\ cCode (vmContract v2) = cCode (vmContract v) /\
  match oMemorySize o with Some f => forall y w, f v2 = (Ok y, w) -> y <= mLen (vmMemory v2) | None => True end.
Proof.
  intros [Hpc He Hc Hm Hst Hk] H0 Hfit [Ep Es Em Hev (g & Hg & Ec) Hms] ->. rewrite Z.gtb_ltb.
  assert (Hlen : mLen (vmMemory v1) = mLen (vmMemory v)) by (unfold mLen; by rewrite Em).
  set (v2 := if 0 <? ms then _ else v1).
  assert (Hv2 : vmPc v2 = vmPc v /\ vmStack v2 = vmStack v /\ vmEvm v2 = vmEvm v1 /\ vmContract v2 = vmContract v1 /\
    ms <= mLen (vmMemory v2) /\ (mLen (vmMemory v2) <= mLen (vmMemory v) \/ mLen (vmMemory v2) = ms)).
  { unfold v2. destruct (Z.ltb_spec 0 ms); [|split_and!; try done; unfold mLen in *; lia].
    cbn [vmPc vmStack vmEvm vmContract vmMemory vm_with_memory]. split_and!; try done; unfold memResize;
      (destruct (Z.ltb_spec (mLen (vmMemory v1)) ms); [|lia]);
      unfold mLen in *; cbn [mStore]; rewrite length_app, length_replicate; lia. }
  destruct Hv2 as (E1 & E2 & E3 & E4 & E5 & E6). clearbody v2. unfold MemoryFits in Hfit. split_and!; try done.
  - split; [by rewrite E1|by rewrite E3|rewrite E4, Ec; by apply ContractOk_gas| |by rewrite E2|by rewrite E4, Ec].
    destruct (oMemorySize o); [|unfold maxMemory in *; lia]. specialize (Hms ltac:(by eexists)). lia.
  - by rewrite E4, Ec.
  - destruct (oMemorySize o); [|done]. intros y w E. specialize (Hfit v2 y w E2 E). lia.
Qed.

(** What a round leaves. *)
Definition StepPost (r : option (list byte * option vmErr)) (v : VM S) : Prop :=
  match r with
  | None => MachineOk W s0 v /\ Z.of_nat (length (vmStack v)) <= StackLimit
  | Some (out, _) => small out /\ EvmOk W s0 (vmEvm v)
  end.

Lemma executeOp_safe o npop npush v :
  wp (oExecute o) (Post W s0 npop npush v) v -> wp (executeOp o) (Post W s0 npop npush v) v.
Proof.
  unfold executeOp, setReturnData, VmSafeOps.wp. destruct (oExecute o v) as [[res|err| |] v']; try done;
    destruct (oReturns o); try done; [|by intros []].
  intros [Hres [] Hst Hh Hm Hg Hc Hpc]. by split.
Qed.

Lemma executeTail_safe o v :
  OpSafe o -> MachineOk W s0 v -> oPop o <= Z.of_nat (length (vmStack v)) ->
  match oMemorySize o with Some f => forall y w, f v = (Ok y, w) -> y <= mLen (vmMemory v) | None => True end ->
  (Z.of_nat (length (cCode (vmContract v))) <= vmPc v -> oHalts o = true /\ oReverts o = false) ->
  Z.of_nat (length (vmStack v)) + oPush o - oPop o <= StackLimit ->
  wp (let! res := executeOp o in
      if oReverts o then ret (Some (res, Some errExecutionReverted))
      else if oHalts o then ret (Some (res, None))
      else
        let! _ := if oJumps o then ret tt
                  else modify (fun v => vm_with_pc v (u64 (vmPc v + 1))) in
        ret None) StepPost v.
Proof.
  intros Ho Hv Hn Hmem Hend Hlim. apply wp_bind.
  eapply wp_weaken; [|apply executeOp_safe, (os_exec o Ho v Hv Hn Hmem)]. clear Hmem.
  intros res v' [Hres Hev Hst Hh Hm Hg Hc Hpc]. destruct Hv as [Hpc0 _ Hc0 Hm0 _ Hk0].
  destruct (oReverts o) eqn:Er; [by apply wp_ret|]. destruct (oHalts o) eqn:Eh; [by apply wp_ret|].
  assert (Hlt : vmPc v < Z.of_nat (length (cCode (vmContract v)))).
  { destruct (Z.lt_ge_cases (vmPc v) (Z.of_nat (length (cCode (vmContract v))))) as [|Hge]; [done|].
    by destruct (Hend Hge). }
  pose proof (co_code _ Hc0) as Hcode. unfold small in Hcode.
  assert (Hok : forall pc, 0 <= pc < 2 ^ 62 + 64 -> MachineOk W s0 (vm_with_pc v' pc)).
  { intros pc H. split; cbn [vmPc vmEvm vmContract vmMemory vmStack vm_with_pc]; try done; [|lia|by rewrite Hc].
    rewrite Hc. by apply ContractOk_gas. }
  apply wp_bind. destruct (oJumps o); [apply wp_ret|apply wp_modify]; apply wp_ret; (split; [|cbn; lia]).
  - destruct v' as [pc' e' c' m' st']. apply (Hok pc'). cbn in *. lia.
  - apply Hok. rewrite u64_small by (unfold is_u64; lia). lia.
Qed.

(** One round of the interpreter. *)
Lemma step_calls_safe N v :
  DisableGasMetering (vmConfig env) = false -> CalleeBound N callee -> MachineOk W s0 v ->
  wp (step env callee) StepPost v.
Proof.
  intros Hmeter HB Hv. unfold step. apply wp_bind, wp_gets. cbv zeta.
  destruct (jumpTable env callee (GetOp (vmContract v) (vmPc v))) as [o|] eqn:Eo; [|by apply wp_throw, Hv].
  pose proof (jumpTable_safe _ _ Eo) as Ho. pose proof (jumpTable_gas env N callee _ _ HB Eo) as Hgas.
  unfold makeStackFunc. apply wp_bind. rewrite Z.gtb_ltb.
  destruct (Z.ltb_spec (Z.of_nat (length (vmStack v))) (oPop o)); [apply Hv|].
  destruct (Z.ltb_spec StackLimit (Z.of_nat (length (vmStack v)) + oPush o - oPop o)); [apply Hv|].
  apply wp_lift; [apply Hv|done|intros _ _]. apply wp_bind.
  apply enforceRestrictions_safe; [done|done|apply Hv|]. apply wp_bind.
  apply memorySizeOf_safe; [done..|]. intros ms Hms Hfit. rewrite Hmeter. apply wp_bind.
  eapply wp_weaken; [|apply chargeGas_safe; [done|apply (og_cost _ _ Hgas)|done|done]].
  intros [] v1 Hch. destruct (resize_safe o ms v v1 _ Hv Hms Hfit Hch eq_refl) as (Hv2 & Es & Ep & Ec & Hmem).
  set (v2 := if ms >? 0 then _ else v1) in *.
  apply wp_bind. assert (Ht : forall Q, Q tt v2 -> wp (if ms >? 0
    then modify (fun v => vm_with_memory v (memResize ms (vmMemory v))) else ret tt) Q v1).
  { intros Q HQ. unfold v2 in HQ. by destruct (ms >? 0). }
  apply Ht. clearbody v2. apply executeTail_safe; rewrite ?Es, ?Ep, ?Ec; try done.
  intros Hend. by eapply jumpTable_end.
Qed.

End Callee.

(** ** Calls with less gas than a bound *)

Section Clamp.
Context {CR : Crypto} {KC : KnownCodes} {NC : NativeCrypto} {S : Type} {SDB : StateDB S} {SL : StateDBLaws S} {BL : BalanceLaws S}
  {FL : SafetyLaws S}.
Context (W : Z) (HW : W < 2 ^ 256) (env : Env) (HP : is_word (GasPrice (ctx env))).
Notation EVMM := (M (EVM S) vmErr).

Definition atMost {A} (N gas : Z) (m : EVMM A) : EVMM A := fun e =>
  if (0 <=? gas) && (gas <? N) then m e else (NoFuel, e).

Definition clamp (N : Z) (callee : Callee S) : Callee S :=
  mkCallee (fun c a i g x => atMost N g (doCall callee c a i g x))
    (fun c a i g x => atMost N g (doCallCode callee c a i g x))
    (fun c a i g => atMost N g (doDelegateCall callee c a i g))
    (fun c a i g => atMost N g (doStaticCall callee c a i g))
    (fun c i g x => atMost N g (doCreate callee c i g x)).

Lemma atMost_finer {A} N gas (m : EVMM A) : Finer (atMost N gas m) m.
Proof. intros e. unfold atMost. destruct (_ && _); [right; reflexivity|by left]. Qed.

Lemma atMost_bound {A} N (left : A -> Z) (f : Z -> EVMM A) :
  CallBound N left f -> CallBound N left (fun g => atMost N g (f g)).
Proof.
  intros Hf gas e Hu HN. unfold atMost. unfold is_u64 in Hu.
  destruct (Z.leb_spec 0 gas), (Z.ltb_spec gas N); try lia. by apply Hf.
Qed.

Lemma clamp_finer N callee : FinerCallee (clamp N callee) callee.
Proof. split; intros; apply atMost_finer. Qed.

Lemma clamp_bound N callee : CalleeBound N callee -> CalleeBound N (clamp N callee).
Proof. intros []. split; intros; cbn; by apply atMost_bound. Qed.

(** A round hands out less gas than it has, so it is the round of the clamped callee. *)
Lemma step_safe s0 N callee v :
  DisableGasMetering (vmConfig env) = false -> CalleeBound N callee -> CalleeSafe W s0 (clamp N callee) ->
  MachineOk W s0 v -> gasOf v <= N -> wp W s0 (step env callee) (StepPost W s0) v.
Proof.
  intros Hm HB HC Hv Hg. pose proof (clamp_bound N callee HB) as HB'.
  pose proof (step_calls_safe W HW env HP s0 (clamp N callee) HC N v Hm HB' Hv) as Hs.
  destruct (step_gas env N (clamp N callee) v Hm HB' (co_gas _ (mo_contract _ _ _ Hv)) Hg) as [Hnf _].
  destruct (step_finer env _ _ (clamp_finer N callee) v) as [E|E]; [done|].
  unfold wp in *. by rewrite <- E.
Qed.

End Clamp.

(** ** [EVM.Call] and its siblings *)

Section Calls.
Context {CR : Crypto} {KC : KnownCodes} {NC : NativeCrypto} {NL : NativeLaws} {S : Type} {SDB : StateDB S} {SL : StateDBLaws S}
  {BL : BalanceLaws S} {FL : SafetyLaws S}.
Context (W : Z) (HW : W < 2 ^ 256) (env : Env) (HP : is_word (GasPrice (ctx env))).
Notation VMM := (M (VM S) vmErr).
Notation EVMM := (M (EVM S) vmErr).

(** The interpreter's loop on machines with less gas than [N]; nothing is asked of
    a machine whose code is not known. *)
Definition LoopSafe (N : Z) (loopF : VMM (list byte * option vmErr)) : Prop :=
  forall s0 v, (knownCode (cCode (vmContract v)) = true -> MachineOk W s0 v) -> gasOf v < N ->
    wp W s0 loopF (fun r v' => small (fst r) /\ EvmOk W s0 (vmEvm v')) v.

Context (N : Z) (HN : N <= 2 ^ 60) (loopF : VMM (list byte * option vmErr)) (HL : LoopSafe N loopF).

Definition refOk (r : ContractRef) : Prop :=
  match r with AccountRef a => is_address a | ContractCaller c => ContractOk c end.

Lemma refOk_address r : refOk r -> is_address (refAddress r).
Proof. destruct r; [done|]. by intros []. Qed.

Definition RunPost (s0 : S) (r : list byte * option vmErr * Contract) (e : EVM S) : Prop :=
  small (fst (fst r)) /\ EvmOk W s0 e.

Lemma Run_safe s0 c input e :
  ContractOk c -> cGas c < N -> small input -> EvmOk W s0 e -> wpE W s0 (Run loopF c input) (RunPost s0) e.
Proof.
  intros Hc Hg Hi He. unfold Run, wpE.
  assert (He1 : forall d, EvmOk W s0 (evm_with_returnData (evm_with_depth e d) [])) by (intros d; by destruct He).
  destruct (cCode c) eqn:Ec; [split; [done|by destruct He]|].
  pose proof (HL s0 (mkVM 0 (evm_with_returnData (evm_with_depth e (eDepth e + 1)) []) (withInput c input)
    NewMemory [])) as Hl. unfold wp in Hl.
  assert (Hm : knownCode (cCode c) = true -> MachineOk W s0 (mkVM 0 (evm_with_returnData (evm_with_depth e (eDepth e + 1)) [])
    (withInput c input) NewMemory [])) by (split; try done; [apply He1|by destruct Hc]).
  specialize (Hl Hm Hg). destruct (loopF _) as [[[out err]|x| |] v']; cbn [rbind]; try done.
  - destruct Hl as [Hout []]. by split.
  - by destruct Hl.
Qed.

Lemma run_safe s0 c input e :
  ContractOk c -> cGas c < N -> small input -> EvmOk W s0 e -> wpE W s0 (run env loopF c input) (RunPost s0) e.
Proof.
  intros Hc Hg Hi He. unfold run. destruct (cCodeAddr c) as [a|]; [|by apply Run_safe].
  destruct (precompiles env a) as [p|]; [|by apply Run_safe].
  pose proof (co_gas _ Hc) as Hu. unfold is_u64 in Hu.
  destruct (RunPrecompiled_fine p input c Hi) as (out & err & gas & -> & Hout & _); [lia|]. by split.
Qed.

(** *** Snapshots *)

Lemma wpE_rebase {A} s0 s1 (m : EVMM A) Q e : Evolves s0 s1 -> wpE W s1 m Q e -> wpE W s0 m Q e.
Proof.
  intros H. unfold wpE. destruct (m e) as [[] e']; try done. intros [He Hi Hc Hr]. split; try done.
  by eapply Evolves_trans.
Qed.

Lemma EvmOk_rebase s0 s1 e : Evolves s0 s1 -> EvmOk W s1 e -> EvmOk W s0 e.
Proof. intros H [He Hi Hc Hr]. split; try done. by eapply Evolves_trans. Qed.

(** What the code after a snapshot knows of it. *)
Definition Snapped (s0 s : S) (id : Z) (s1 : S) : Prop :=
  Evolves s0 s /\ sOk s /\ StateInv W s /\ Snapshot s = (id, s1).

Lemma takeSnapshot_safe {A} s0 (k : Z -> EVMM A) Q e :
  EvmOk W s0 e ->
  (forall id s1, Snapped s0 (eState e) id s1 -> EvmOk W s1 (evm_with_state e s1) -> sEq (eState e) s1 ->
     wpE W s0 (k id) Q (evm_with_state e s1)) ->
  wpE W s0 (mbind takeSnapshot k) Q e.
Proof.
  intros He HQ. pose proof (EvmOk_ok _ _ _ He) as Hok. apply wpE_bind. unfold wpE at 1, takeSnapshot.
  destruct (Snapshot (eState e)) as [id s1] eqn:E. destruct (snapshot_ok _ _ _ Hok E) as [Hok1 Heq].
  apply HQ; [|destruct He as [H1 H2 H3 H4]; split; try done|done].
  - destruct He. by split_and!.
  - by apply Evolves_refl.
  - eapply StateInv_eq; [done| |done]. apply (snapshot_tidy _ _ _ Hok E), H2.
Qed.

Lemma Snapped_evolves s0 s id s1 : Snapped s0 s id s1 -> Evolves s0 s1.
Proof. intros (H1 & H2 & _ & E). eapply Evolves_trans; [done|]. by eapply snapshot_evolves. Qed.

Lemma revertTo_safe s0 s id s1 Q e :
  Snapped s0 s id s1 -> EvmOk W s1 e -> (forall s3, EvmOk W s0 (evm_with_state e s3) -> Q tt (evm_with_state e s3)) ->
  wpE W s0 (revertTo id) Q e.
Proof.
  intros (H1 & H2 & H3 & E) He HQ. destruct (revert_evolves s id s1 (eState e) H2 E (eo_evolves _ _ _ He))
    as (s3 & E3 & Heq & Hev). unfold wpE, revertTo. rewrite E3. apply HQ. destruct He as [He1 He2 He3 He4].
  split; try done; [by eapply Evolves_trans|]. eapply StateInv_eq; [done| |done].
  apply (revert_tidy (eState e) id s3 (proj1 He1) E3), He2.
Qed.

Lemma settle_safe s0 s id s1 r e :
  Snapped s0 s id s1 -> RunPost s1 r e -> wpE W s0 (settle id r) (CallPost W s0) e.
Proof.
  intros Hs [Hr He]. destruct r as [[out err] c]. unfold settle. destruct err as [x|].
  - apply wpE_bind. eapply revertTo_safe; [done|done|]. intros s3 Hs3. by split.
  - split; [done|]. eapply EvmOk_rebase; [by eapply Snapped_evolves|done].
Qed.

(** The run of a contract after the snapshot, and its settling. *)
Lemma runSettle_safe s0 s id s1 c input e :
  Snapped s0 s id s1 -> ContractOk c -> cGas c < N -> small input -> EvmOk W s1 e ->
  wpE W s0 (mbind (run env loopF c input) (settle id)) (CallPost W s0) e.
Proof.
  intros Hs Hc Hg Hi He. apply wpE_bind. eapply wpE_rebase; [by eapply Snapped_evolves|].
  eapply wpE_weaken; [|by apply run_safe]. intros r e' Hr. by eapply settle_safe.
Qed.

(** *** The calls *)

Lemma wpE_gets {A B} s0 (f : EVM S -> A) (k : A -> EVMM B) Q e :
  wpE W s0 (k (f e)) Q e -> wpE W s0 (mbind (gets f) k) Q e.
Proof. done. Qed.
Lemma wpE_onState {B} s0 (f : S -> S) (k : unit -> EVMM B) Q e :
  wpE W s0 (k tt) Q (evm_with_state e (f (eState e))) -> wpE W s0 (mbind (onStateE f) k) Q e.
Proof. done. Qed.
Lemma wpE_onState_if {B} s0 (b : bool) (f : S -> S) (k : unit -> EVMM B) Q e :
  (forall s, s = (if b then f (eState e) else eState e) -> wpE W s0 (k tt) Q (evm_with_state e s)) ->
  wpE W s0 (mbind (if b then onStateE f else ret tt) k) Q e.
Proof. intros H. destruct e, b; by apply H. Qed.

Lemma wpE_enter {B} s0 s1 caller (k : unit -> EVMM B) Q e :
  EvmOk W s1 e -> (forall d, EvmOk W s1 (evm_with_jumpdests e d) -> wpE W s0 (k tt) Q (evm_with_jumpdests e d)) ->
  wpE W s0 (mbind (enterContract caller) k) Q e.
Proof.
  intros He HQ. apply wpE_bind. destruct caller as [a|c]; unfold enterContract, wpE at 1, modify, ret.
  - apply HQ. by destruct He.
  - destruct e as [s d g ro rd jd]. apply (HQ jd). done.
Qed.

(** The code of an account is loaded with its hash. *)
Lemma loaded_safe caller self a x gas s :
  CodeOk s -> is_address a -> is_address self -> is_word x -> is_u64 gas ->
  ContractOk (SetCallCode (NewContract caller self x gas) a (GetCodeHash a s) (GetCode a s)).
Proof. intros Hc Ha Hs Hx Hg. destruct (Hc a Ha) as (H1 & _ & H3). by split. Qed.

Lemma CanTransfer_ge (s : S) a x : negb (CanTransfer s a x) = false -> x <= GetBalance a s.
Proof. unfold CanTransfer. rewrite Z.geb_leb. intros H%negb_false_iff. by apply Z.leb_le. Qed.

Lemma Transfer_safe s1 e a b x :
  EvmOk W s1 e -> is_address a -> is_address b -> 0 <= x <= GetBalance a (eState e) ->
  EvmOk W s1 (evm_with_state e (Transfer a b x (eState e))).
Proof.
  intros He Ha Hb Hx. pose proof (EvmOk_ok _ _ _ He) as Hok. apply EvmOk_state; [done| |].
  - intros _. eapply Evolves_trans; [by apply (update_evolves (USubBalance a x))|].
    apply (update_evolves (UAddBalance b x)). by apply (update_ok (USubBalance a x)).
  - apply transfer_inv; try done. apply He.
Qed.

Lemma balance_quiet u a s : quiet u -> sOk s -> GetBalance a (runUpdate u s) = GetBalance a s.
Proof. intros Hq Hok. rewrite update_balance by done. by destruct u. Qed.

Section One.
Context (caller : ContractRef) (Hcaller : refOk caller) (s0 : S) (gas : Z) (Hgas : 0 <= gas < N).

Lemma gas_u64 : is_u64 gas.
Proof. unfold is_u64. lia. Qed.

Lemma Call_safe addr input x e :
  is_address addr -> small input -> is_word x -> EvmOk W s0 e ->
  wpE W s0 (Call env loopF caller addr input gas x) (CallPost W s0) e.
Proof.
  intros Ha Hi Hx He. unfold Call. apply wpE_gets. destruct (_ && _); [by split|].
  destruct (_ >? _); [by split|]. destruct (negb _) eqn:Ec; [by split|]. apply CanTransfer_ge in Ec.
  apply takeSnapshot_safe; [done|]. intros id s1 Hs He1 Heq. apply wpE_gets.
  destruct (_ && _ && _ && _); [split; [done|]; eapply EvmOk_rebase; [by eapply Snapped_evolves|done]|].
  assert (Hb : GetBalance (refAddress caller) s1 = GetBalance (refAddress caller) (eState e))
    by apply (sv_balance _ _ (sEq_view _ _ Heq)).
  apply wpE_onState_if. intros s2 E2. cbn [eState evm_with_state] in E2.
  assert (Hs2 : EvmOk W s1 (evm_with_state e s2) /\ GetBalance (refAddress caller) s2 = GetBalance (refAddress caller) s1).
  { subst s2. destruct (negb _); [|done]. split; [by apply (EvmOk_quiet W s1 _ (UCreateAccount addr) He1)|].
    apply (balance_quiet (UCreateAccount addr)); [done|apply He1]. }
  destruct Hs2 as [He2 Hb2]. apply wpE_onState.
  pose proof (refOk_address caller Hcaller) as Hr. unfold is_word in Hx.
  assert (He3 := Transfer_safe s1 (evm_with_state e s2) (refAddress caller) addr x He2 Hr Ha).
  cbn [eState evm_with_state] in *. specialize (He3 ltac:(lia)).
  eapply wpE_enter; [exact He3|]. intros d Hd. apply wpE_gets.
  eapply runSettle_safe; [done| |apply Hgas|done|done].
  apply loaded_safe; [apply Hd|done|done|done|apply gas_u64].
Qed.

Lemma CallCode_safe addr input x e :
  is_address addr -> small input -> is_word x -> EvmOk W s0 e ->
  wpE W s0 (CallCode env loopF caller addr input gas x) (CallPost W s0) e.
Proof.
  intros Ha Hi Hx He. unfold CallCode. apply wpE_gets. destruct (_ && _); [by split|].
  destruct (_ >? _); [by split|]. destruct (negb _) eqn:Ec; [by split|].
  apply takeSnapshot_safe; [done|]. intros id s1 Hs He1 Heq.
  eapply wpE_enter; [exact He1|]. intros d Hd. apply wpE_gets.
  eapply runSettle_safe; [done| |apply Hgas|done|done].
  apply loaded_safe; [apply Hd|done|by apply refOk_address|done|apply gas_u64].
Qed.

Lemma StaticCall_safe addr input e :
  is_address addr -> small input -> EvmOk W s0 e ->
  wpE W s0 (StaticCall env loopF caller addr input gas) (CallPost W s0) e.
Proof.
  intros Ha Hi He. unfold StaticCall. apply wpE_gets. destruct (_ && _); [by split|].
  destruct (_ >? _); [by split|]. apply wpE_bind. unfold setReadOnly at 1. unfold wpE at 1, modify.
  assert (Hro : EvmOk W s0 (evm_with_readOnly e true)) by (by destruct He).
  apply takeSnapshot_safe; [exact Hro|]. intros id s1 Hs He1 Heq.
  eapply wpE_enter; [exact He1|]. intros d Hd. apply wpE_gets.
  apply wpE_bind. eapply wpE_rebase; [by eapply Snapped_evolves|]. eapply wpE_weaken; [|apply run_safe].
  - intros r e' Hr. apply wpE_bind. eapply wpE_weaken; [|by eapply settle_safe].
    intros res e2 [Hres []]. apply wpE_bind. by split.
  - apply loaded_safe; [apply Hd|done|done|done|apply gas_u64].
  - apply Hgas.
  - done.
  - done.
Qed.

End One.

Lemma DelegateCall_safe parent s0 gas addr input e :
  ContractOk parent -> 0 <= gas < N -> is_address addr -> small input -> EvmOk W s0 e ->
  wpE W s0 (DelegateCall env loopF (ContractCaller parent) addr input gas) (CallPost W s0) e.
Proof.
  intros Hp Hg Ha Hi He. unfold DelegateCall. apply wpE_gets. destruct (_ && _); [by split|].
  destruct (_ >? _); [by split|]. apply takeSnapshot_safe; [done|]. intros id s1 Hs He1 Heq. apply wpE_gets.
  eapply runSettle_safe; [done| |apply Hg|done|done].
  destruct (si_code _ _ (eo_inv _ _ _ He1) addr Ha) as (H1 & _ & H3). destruct Hp. split; try done.
  unfold is_u64. cbn. lia.
Qed.

(** *** Creation *)

Lemma CreateAddress_address b nonce : is_address (CreateAddress b nonce).
Proof.
  unfold CreateAddress, BytesToAddress. rewrite setBytes_value by done. apply Z.mod_pos_bound. done.
Qed.

Lemma deploy_safe s0 s id s1 a r e :
  Snapped s0 s id s1 -> is_address a -> RunPost s1 r e -> wpE W s0 (deploy env a id r) (CreatePost W s0) e.
Proof.
  intros Hs Ha [Hr He]. destruct r as [[out err] c]. unfold deploy. cbn [fst] in Hr. cbv zeta.
  apply wpE_bind.
  assert (Hpay : wpE W s0 (if bool_decide (err = None) && negb (IsEIP158 (chainConfig env) (envNumber env) &&
      (Z.of_nat (length out) >? MaxCodeSize)) then
      let '(ok, contract) := UseGas c (u64 (Z.of_nat (length out) * CreateDataGas)) in
      if ok then let! _ := onStateE (SetCode a out) in ret (err, contract)
      else ret (Some ErrCodeStoreOutOfGas, contract)
    else ret (err, c)) (fun _ e' => EvmOk W s1 e') e).
  { destruct (_ && _); [|done]. destruct (UseGas _ _) as [[] c']; [|done].
    apply wpE_onState. by apply (EvmOk_quiet W s1 e (USetCode a out)). }
  eapply wpE_weaken; [|exact Hpay]. clear Hpay e He. intros [err' c'] e He. apply wpE_bind.
  assert (He0 : EvmOk W s0 e) by (eapply EvmOk_rebase; [by eapply Snapped_evolves|done]).
  destruct (_ || _); [|by split]. apply wpE_bind. eapply revertTo_safe; [done|done|]. intros s3 H3. by split.
Qed.

Lemma Create_safe caller s0 gas code x e :
  refOk caller -> 0 <= gas < N -> small code -> is_word x -> EvmOk W s0 e ->
  wpE W s0 (Create env loopF caller code gas x) (CreatePost W s0) e.
Proof.
  intros Hc Hg Hcode Hx He. pose proof (refOk_address caller Hc) as Hr. unfold Create. apply wpE_gets.
  destruct (_ >? _); [by split|]. destruct (negb (CanTransfer _ _ _)) eqn:Ec; [by split|]. apply CanTransfer_ge in Ec.
  apply wpE_onState. apply wpE_gets. set (n := GetNonce (refAddress caller) (eState e)). set (a := CreateAddress _ _).
  pose proof (CreateAddress_address (refAddress caller) n : is_address a) as Ha.
  set (u := USetNonce (refAddress caller) (u64 (n + 1))).
  assert (He1 : EvmOk W s0 (evm_with_state e (runUpdate u (eState e)))) by (by apply EvmOk_quiet).
  assert (Hb1 : GetBalance (refAddress caller) (runUpdate u (eState e)) = GetBalance (refAddress caller) (eState e))
    by (apply balance_quiet; [done|by eapply EvmOk_ok]).
  change (SetNonce (refAddress caller) (u64 (n + 1)) (eState e)) with (runUpdate u (eState e)).
  destruct (_ || _); [by split|]. apply takeSnapshot_safe; [done|]. intros id s1 Hs He2 Heq.
  pose proof (sv_balance _ _ (sEq_view _ _ Heq) (refAddress caller)) as Hb2. cbn [eState evm_with_state] in *.
  apply wpE_onState. set (u2 := UCreateAccount a).
  change (CreateAccount a) with (runUpdate u2). cbn [eState evm_with_state].
  assert (He3 := EvmOk_quiet W s1 _ u2 He2 Ha). assert (Hb3 := balance_quiet u2 (refAddress caller) s1 Ha (EvmOk_ok _ _ _ He2)).
  apply wpE_onState_if. intros s4 E4. cbn [eState evm_with_state] in *.
  assert (Hs4 : EvmOk W s1 (evm_with_state e s4) /\
    GetBalance (refAddress caller) s4 = GetBalance (refAddress caller) (runUpdate u2 s1)).
  { subst s4. destruct (IsEIP158 _ _); [|done]. split; [by apply (EvmOk_quiet W s1 _ (USetNonce a 1) He3)|].
    apply (balance_quiet (USetNonce a 1)); [done|apply He3]. }
  destruct Hs4 as [He4 Hb4]. apply wpE_onState. unfold is_word in Hx.
  assert (He5 := Transfer_safe s1 _ (refAddress caller) a x He4 Hr Ha). cbn [eState evm_with_state] in *.
  specialize (He5 ltac:(lia)). eapply wpE_enter; [exact He5|]. intros d Hd.
  assert (Hev : Evolves s0 s1) by (by eapply Snapped_evolves).
  destruct (_ && _); [split; [done|]; by eapply EvmOk_rebase|].
  apply wpE_bind. eapply wpE_rebase; [done|]. eapply wpE_weaken; [|apply run_safe; [split; try done|apply Hg|done|exact Hd]].
  - intros r e' Hrun. by eapply deploy_safe.
  - unfold is_u64. cbn. lia.
Qed.

Lemma calleeOf_safe s0 : CalleeSafe W s0 (clamp N (calleeOf env loopF)).
Proof.
  assert (H : forall A gas (m : EVMM A) Q e, (0 <= gas < N -> wpE W s0 m Q e) -> wpE W s0 (atMost N gas m) Q e).
  { intros A gas m Q e Hm. unfold atMost, wpE in *.
    destruct (Z.leb_spec 0 gas), (Z.ltb_spec gas N); cbn [andb]; try done. by apply Hm. }
  split; intros; apply H; intros Hg; cbn;
    [by apply Call_safe|by apply CallCode_safe|by apply DelegateCall_safe|by apply StaticCall_safe|by apply Create_safe].
Qed.

End Calls.

(** ** The loop on known codes *)

(** The interpreter's loop, stopped at a code that is not known. *)
Fixpoint loopOn {CR : Crypto} {NC : NativeCrypto} {S : Type} {SDB : StateDB S} (known : list byte -> bool) (env : Env)
    (fuel : nat) : M (VM S) vmErr (list byte * option vmErr) := fun v =>
  match fuel with
  | O => (NoFuel, v)
  | Datatypes.S fuel =>
      if negb (known (cCode (vmContract v))) then (NoFuel, v)
      else
        let '(r, v) := step env (calleeOf env (loopOn known env fuel)) v in
        match r with
        | Ok None => loopOn known env fuel v
        | Ok (Some x) => (Ok x, v)
        | Err e => (Ok ([], Some e), v)
        | Panic => (Panic, v)
        | NoFuel => (NoFuel, v)
        end
  end.

Section LoopOn.
Context {CR : Crypto} {NC : NativeCrypto} {S : Type} {SDB : StateDB S} (env : Env).

(** Where the restricted run returns, it is the run. *)
Lemma loopOn_finer known fuel : Finer (loopOn (S := S) known env fuel) (loop env fuel).
Proof.
  induction fuel as [|fuel IH]; intros v; [by left|]. cbn [loopOn loop].
  destruct (known _); cbn [negb]; [|by left].
  destruct (step_finer env _ _ (calleeOf_finer env _ _ IH) v) as [E|E].
  - left. destruct (step env (calleeOf env (loopOn known env fuel)) v) as [r v1]. by cbn in *; subst.
  - rewrite <- E. destruct (step env (calleeOf env (loopOn known env fuel)) v) as [[[x|]| | |] v1]; [right; reflexivity|apply IH|right; reflexivity..].
Qed.

(** Without a restriction it is the run. *)
Lemma loop_finer_on known fuel : (forall c, known c = true) -> Finer (loop (S := S) env fuel) (loopOn known env fuel).
Proof.
  intros Hk. induction fuel as [|fuel IH]; intros v; [by left|]. cbn [loopOn loop].
  rewrite Hk. cbn [negb].
  destruct (step_finer env _ _ (calleeOf_finer env _ _ IH) v) as [E|E].
  - left. destruct (step env (calleeOf env (loop env fuel)) v) as [r v1]. by cbn in *; subst.
  - rewrite <- E. destruct (step env (calleeOf env (loop env fuel)) v) as [[[x|]| | |] v1]; [right; reflexivity|apply IH|right; reflexivity..].
Qed.

(** A callee that returns nothing in place of a run that was stopped. *)
Definition patch {A} (a : A) (m : M (EVM S) vmErr A) : M (EVM S) vmErr A := fun e =>
  match m e with (NoFuel, _) => (Ok a, e) | r => r end.

Definition patched (c : Callee S) : Callee S :=
  mkCallee (fun x a i g v => patch ([], 0, None) (doCall c x a i g v))
    (fun x a i g v => patch ([], 0, None) (doCallCode c x a i g v))
    (fun x a i g => patch ([], 0, None) (doDelegateCall c x a i g))
    (fun x a i g => patch ([], 0, None) (doStaticCall c x a i g))
    (fun x i g v => patch ([], 0, 0, None) (doCreate c x i g v)).

Lemma patch_finer {A} (a : A) m : Finer m (patch a m).
Proof. intros e. unfold patch. destruct (m e) as [[] e']; by (left + right). Qed.

Lemma patched_finer c : FinerCallee c (patched c).
Proof. split; intros; apply patch_finer. Qed.

Lemma patch_bound {A} N (left : A -> Z) a (f1 f2 : Z -> M (EVM S) vmErr A) :
  left a = 0 -> (forall g, Finer (f1 g) (f2 g)) -> CallBound N left f2 -> CallBound N left (fun g => patch a (f1 g)).
Proof.
  intros Ha Hf Hb gas e Hu Hg. specialize (Hb gas e Hu Hg). unfold patch, is_u64 in *.
  destruct (Hf gas e) as [E|E]; [|rewrite E in *].
  - destruct (f1 gas e) as [r e']. cbn in E. subst r. cbn. split; [done|]. intros a' [= <-]. lia.
  - destruct (f2 gas e) as [[] e']; cbn in *; try done. by destruct Hb.
Qed.

Lemma patched_bound N c1 c2 : FinerCallee c1 c2 -> CalleeBound N c2 -> CalleeBound N (patched c1).
Proof.
  intros [] HB. split; intros; cbn;
    [eapply patch_bound; [done| |apply (cb_call _ _ HB)]|eapply patch_bound; [done| |apply (cb_callCode _ _ HB)]
    |eapply patch_bound; [done| |apply (cb_delegate _ _ HB)]|eapply patch_bound; [done| |apply (cb_static _ _ HB)]
    |eapply patch_bound; [done| |apply (cb_create _ _ HB)]]; cbn; auto.
Qed.

End LoopOn.

Section Loop.
Context {CR : Crypto} {KC : KnownCodes} {NC : NativeCrypto} {NL : NativeLaws} {S : Type} {SDB : StateDB S} {SL : StateDBLaws S}
  {BL : BalanceLaws S} {FL : SafetyLaws S}.
Context (W : Z) (HW : W < 2 ^ 256) (env : Env) (HP : is_word (GasPrice (ctx env))).
Context (metered : DisableGasMetering (vmConfig env) = false).

Lemma patched_safe s0 N callee : CalleeSafe W s0 (clamp N callee) -> CalleeSafe W s0 (clamp N (patched callee)).
Proof.
  intros [H1 H2 H3 H4 H5].
  assert (H : forall A gas (a : A) (m : M (EVM S) vmErr A) (Q : A -> EVM S -> Prop) e, Q a e ->
    wpE W s0 (atMost N gas m) Q e -> wpE W s0 (atMost N gas (patch a m)) Q e).
  { intros A gas a m Q e HQ. unfold wpE, atMost, patch. destruct (_ && _); [|done]. by destruct (m e) as [[] e']. }
  split; intros; cbn; (apply H; [by split|]);
    [by apply H1|by apply H2|by apply H3|by apply H4|by apply H5].
Qed.

(** A round with calls that may have been stopped. *)
Lemma step_on_safe s0 N c1 c2 v :
  FinerCallee c1 c2 -> CalleeBound N c2 -> CalleeSafe W s0 (clamp N c1) ->
  MachineOk W s0 v -> gasOf v <= N -> wp W s0 (step env c1) (StepPost W s0) v.
Proof.
  intros Hf Hb Hc Hv Hg.
  pose proof (step_safe W HW env HP s0 N (patched c1) v metered (patched_bound N c1 c2 Hf Hb) (patched_safe s0 N c1 Hc) Hv Hg) as Hs.
  unfold wp in *. destruct (step_finer env _ _ (patched_finer c1) v) as [E|E]; [|by rewrite E].
  destruct (step env c1 v) as [r v']. cbn in E. by subst r.
Qed.

Lemma loopOn_safe fuel N : N <= 2 ^ 60 -> LoopSafe W N (loopOn (S := S) knownCode env fuel).
Proof.
  intros HN. induction fuel as [|fuel IH]; intros s0 v Hv Hg; [done|]. unfold wp. cbn [loopOn].
  destruct (knownCode _) eqn:Ek; cbn [negb]; [|done]. specialize (Hv eq_refl).
  set (c1 := calleeOf env (loopOn knownCode env fuel)). set (n := Nat.max fuel (Z.to_nat N)).
  assert (Hf : FinerCallee c1 (calleeOf env (loop env n))).
  { apply calleeOf_finer. intros u. destruct (loopOn_finer env knownCode fuel u) as [E|E]; [by left|].
    destruct (loop_finer_le env fuel n ltac:(lia) u) as [E2|E2]; [left; by rewrite E|right; by rewrite E]. }
  pose proof (calleeOf_bound env _ _ (loop_gas (S := S) env n metered)) as HB.
  assert (HB' : CalleeBound N (calleeOf env (loop env n))).
  { destruct HB as [B1 B2 B3 B4 B5]. split; intros ** gas e Hu Hlt; [apply B1|apply B2|apply B3|apply B4|apply B5]; done || lia. }
  pose proof (step_on_safe s0 N c1 _ v Hf HB' (calleeOf_safe W env N HN _ IH s0) Hv ltac:(lia)) as Hs.
  destruct (step_gas env (Z.of_nat n) _ v metered HB (co_gas _ (mo_contract _ _ _ Hv)) ltac:(lia)) as (_ & _ & Hlt).
  destruct (step_finer env _ _ Hf v) as [E|E].
  - destruct (step env c1 v) as [r v']. cbn in E. by subst r.
  - rewrite <- E in Hlt. unfold wp in Hs. destruct (step env c1 v) as [[[[out err]|]|x| |] v']; try done.
    destruct Hs as [Hv' _]. specialize (Hlt eq_refl). cbn [snd] in *. apply (IH s0 v'); [done|lia].
Qed.

End Loop.
