(* ===== verification/StateProperties.v ===== *)
(** * Package core/state: theorems

    Properties of the state database of [State], with their instances on the
    concrete store of [ToyStore]. *)

From stdpp Require Import base numbers list gmap sets option functions.
From Stdlib Require Import ZArith Lia Strings.Byte.
From S2P Require Import Prelude Common Types Toy VmCore VmStateSpec State StateProofs StateLaws StateSafety ToyStore VmStateProofs.
Import state.

(** ** Definitions *)

Section Runs.
Context {CR : Crypto} {D T : Type} {DB : Database D T}.
Notation statedb := (StateDB D T).

(** What a transaction does to a state: updates, snapshots that are kept and
    snapshots that are reverted, nested in any way. *)
Inductive Runs : statedb -> statedb -> Prop :=
| runs_done s : Runs s s
| runs_update u s s' : Runs (runUpdate u s) s' -> Runs s s'
| runs_keep s id s1 s' : Snapshot s = (id, s1) -> Runs s1 s' -> Runs s s'
| runs_revert s id s1 s2 s3 s' :
    Snapshot s = (id, s1) -> Runs s1 s2 -> RevertToSnapshot id s2 = Some s3 -> Runs s3 s' -> Runs s s'.

(** The updates one after the other, on the database and on observations. *)
Definition runUpdates (us : list update) (s : statedb) : statedb := foldl (fun s u => runUpdate u s) s us.
Definition specUpdates (th bh : Hash) (ti : Z) (us : list update) (x : Obs) : Obs :=
  foldl (fun x u => specUpdate th bh ti u x) x us.

End Runs.

(** A state over a trie with an account [7] that has ether, and an empty account
    [8]. *)
Module Ledger.

Definition trie : gmap Z (list byte) :=
  list_to_map [Store.entry 7 1 1000; Store.entry 8 0 0].
Definition start : StateDB Store.store (gmap Z (list byte)) := Store.stateOver trie.

Definition changes : list update :=
  [USubBalance 7 10; UAddBalance 9 10; USetNonce 7 2; USetState 9 1 5; UAddRefund 3; USuicide 7;
   UCreateAccount 7; USetCode 9 [x00]].

(** Account 8 is touched in a call that is reverted, and gets ether later on. *)
Definition touched : StateDB Store.store (gmap Z (list byte)) := AddBalance 8 0 (snd (Snapshot start)).
Definition rewarded : option (StateDB Store.store (gmap Z (list byte))) :=
  s ← RevertToSnapshot 0 touched; Some (AddBalance 8 500 s).
(** The balance of account 8 before the block's end, and in the state that the
    committed root opens. *)
Definition balanceBefore : option Z := s ← rewarded; Some (GetBalance 8 s).
Definition balanceAfterCommit : option Z :=
  s ← rewarded;
  match Commit true s with
  | Ok (root, s) => s ← New root (db s); Some (GetBalance 8 s)
  | _ => None
  end.

Lemma ledger_ok : StateOk start.
Proof.
  split.
  - intros a o. cbn. by rewrite lookup_empty.
  - constructor.
  - split; [done|intros r Hr; inversion Hr|intros r Hr; inversion Hr].
Qed.

End Ledger.

(** ** Lemmas *)

Section Lemmas.
Context {CR : Crypto} {D T : Type} {DB : Database D T} {DL : DatabaseLaws}.
Notation statedb := (StateDB D T).

Lemma Runs_evolves s s' : Runs s s' -> StateOk s -> Evolves (S := statedb) s s'.
Proof.
  induction 1 as [s|u s s' _ IH|s id s1 s' E _ IH|s id s1 s2 s3 s' E _ IH1 E3 _ IH2]; intros Hok.
  - by apply Evolves_refl.
  - assert (H : Evolves (S := statedb) s (runUpdate u s)) by (by apply update_evolves).
    eapply Evolves_trans; [exact H|]. apply IH, H.
  - assert (H : Evolves (S := statedb) s s1) by (by eapply snapshot_evolves).
    eapply Evolves_trans; [exact H|]. apply IH, H.
  - assert (H1 : Evolves (S := statedb) s s1) by (by eapply snapshot_evolves).
    assert (Hr : exists t, RevertToSnapshot id s2 = Some t /\ stateEq s t /\ Evolves (S := statedb) s t).
    { apply (revert_evolves (SL := stateDBLaws) s id s1 s2); [exact Hok|exact E|exact (IH1 (proj1 H1))]. }
    destruct Hr as (t & Et & _ & Ht). assert (t = s3) as -> by (cbn in Et; congruence).
    eapply Evolves_trans; [exact Ht|]. apply IH2, Ht.
Qed.

#[export] Instance accountOr_proper : Proper (ObsEq ==> eq ==> eq) accountOr.
Proof. intros x y [] a b ->. unfold accountOr. by rewrite eq_acct. Qed.

#[export] Instance setV_proper a v : Proper (ObsEq ==> ObsEq) (setV a v).
Proof. intros x y []. split; cbn; try done. intros b. unfold insert, fn_insert. by case_decide. Qed.

#[export] Instance specUpdate_proper th bh ti u : Proper (ObsEq ==> ObsEq) (specUpdate th bh ti u).
Proof.
  intros x y Hxy. pose proof (accountOr_proper x y Hxy) as Ha.
  destruct u; cbn [specUpdate]; try (rewrite (Ha _ _ eq_refl); by apply setV_proper); destruct Hxy;
    try (destruct (acct y a) eqn:E; rewrite (eq_acct a), E; [by apply setV_proper|done]);
    split; cbn; try done; intros; unfold insert, fn_insert; try case_decide; subst;
    rewrite ?(Ha _ _ eq_refl), ?eq_acct, ?eq_refund, ?eq_logs, ?eq_logSize, ?eq_preimages; try done.
  case_decide; [done|]. apply eq_stor.
Qed.

(** An update stays in its transaction. *)
Definition tx (s : statedb) : Hash * Hash * Z := (thash s, bhash s, txIndex s).

Lemma getStateObject_tx a s : tx (snd (getStateObject a s)) = tx s.
Proof. rewrite getStateObject_eq. destruct (stateObjects s !! a); [done|]. by destruct (loadObject _ _). Qed.

Lemma putDirty_tx a o s : tx (putDirty a o s) = tx s.
Proof. unfold putDirty, fireDirty. by destruct (onDirty o). Qed.

Lemma createObject_tx a s : tx (snd (createObject a s)) = tx s.
Proof.
  unfold createObject. pose proof (getStateObject_tx a s). by destruct (getStateObject a s) as [[] ?].
Qed.

Lemma GetOrNew_tx a s : tx (snd (GetOrNewStateObject a s)) = tx s.
Proof.
  unfold GetOrNewStateObject. pose proof (getStateObject_tx a s) as H.
  destruct (getStateObject a s) as [[] s1]; [done|]. pose proof (createObject_tx a s1).
  destruct (createObject a s1) as [[] ?]. cbn in *. congruence.
Qed.

Lemma update_tx u s : tx (runUpdate u s) = tx s.
Proof.
  assert (Hset : forall a (f : stateObject T -> statedb -> statedb), (forall o s, tx (f o s) = tx s) ->
    tx (let '(o, s) := GetOrNewStateObject a s in f o s) = tx s).
  { intros a f Hf. pose proof (GetOrNew_tx a s). destruct (GetOrNewStateObject a s). cbn in *. by rewrite Hf. }
  destruct u; cbn -[tx]; unfold SubBalance, AddBalance, SetNonce, SetCode, SetState; try apply Hset; intros.
  - unfold CreateAccount. pose proof (createObject_tx a s). destruct (createObject a s) as [[? [p|]] s1]; [|done].
    by etrans; [apply putDirty_tx|].
  - unfold so_SubBalance. destruct (_ =? _); [done|by etrans; [apply putDirty_tx|]].
  - unfold so_AddBalance. destruct (_ =? _); [destruct (empty _)|]; [by etrans; [apply putDirty_tx|]|done|by etrans; [apply putDirty_tx|]].
  - by etrans; [apply putDirty_tx|].
  - unfold so_SetCode. destruct (so_Code _ _ _). by etrans; [apply putDirty_tx|].
  - done.
  - unfold so_SetState. destruct (so_GetState _ _ _ _). by etrans; [apply putDirty_tx|].
  - unfold Suicide. pose proof (getStateObject_tx a s). destruct (getStateObject a s) as [[o|] s1]; [|done].
    by etrans; [apply putDirty_tx|].
  - done.
  - unfold AddPreimage. by destruct (preimages s !! h).
Qed.

Lemma updates_spec us s :
  StateOk s -> ObsEq (abs (runUpdates us s)) (specUpdates (thash s) (bhash s) (txIndex s) us (abs s)).
Proof.
  revert s. induction us as [|u us IH]; intros s Hok; [done|].
  cbn [runUpdates specUpdates foldl]. fold (runUpdates us (runUpdate u s)).
  etrans; [apply IH; by apply (update_ok (StateDBLaws := stateDBLaws))|].
  pose proof (update_tx u s) as E. unfold tx in E. injection E as -> -> ->.
  pose proof (update_spec u s (so_deleted s Hok)) as H. clear -H. unfold specUpdates.
  generalize dependent (abs (runUpdate u s)). generalize (specUpdate (thash s) (bhash s) (txIndex s) u (abs s)).
  induction us as [|v us IH]; intros x y Hxy; [done|]. cbn [foldl]. apply IH. by apply specUpdate_proper.
Qed.

End Lemmas.

(** ** Properties *)

Section Properties.
Context {CR : Crypto} {D T : Type} {DB : Database D T} {DL : DatabaseLaws}.
Notation statedb := (StateDB D T).

(** C22. Whatever happens after a snapshot (updates, further snapshots kept or
    reverted, in any nesting), reverting to it succeeds and restores everything
    that can be observed: every account, the storage, the refund counter, the logs
    and the preimages. *)
Theorem revert_restores_everything (s s1 s2 : statedb) id :
  StateOk s -> Snapshot s = (id, s1) -> Runs s1 s2 ->
  exists s3, RevertToSnapshot id s2 = Some s3 /\ StateOk s3 /\ ObsEq (abs s) (abs s3).
Proof.
  intros Hok E Hr. assert (Hok1 : StateOk s1) by (by apply (Snapshot_ok s id s1)).
  destruct (revert_evolves (SL := stateDBLaws) s id s1 s2 Hok E (Runs_evolves s1 s2 Hr Hok1))
    as (s3 & E3 & [_ Heq] & [Hok3 _]). by exists s3.
Qed.

(** C23. The database refines its specification: any list of updates acts on what
    can be observed as the specification's functions on accounts and storage do. *)
Theorem updates_refine_spec us (s : statedb) :
  StateOk s ->
  ObsEq (abs (runUpdates us s)) (specUpdates (thash s) (bhash s) (txIndex s) us (abs s)).
Proof. apply updates_spec. Qed.

(** Reading changes nothing that can be observed: the objects, the code and
    the storage values that the getters cache leave the observations as they were. *)
Theorem reading_changes_nothing a k (s : statedb) :
  ObsEq (abs (cacheObject a s)) (abs s) /\ ObsEq (abs (cacheCode a s)) (abs s) /\
  ObsEq (abs (cacheState a k s)) (abs s).
Proof. apply caching_same. Qed.

End Properties.

Lemma revert_restores_everything_witness :
  exists s3, RevertToSnapshot 0 (runUpdates Ledger.changes (snd (Snapshot Ledger.start))) = Some s3 /\
    StateOk s3 /\ ObsEq (abs Ledger.start) (abs s3).
Proof.
  apply (revert_restores_everything Ledger.start (snd (Snapshot Ledger.start)));
    [apply Ledger.ledger_ok|reflexivity|].
  unfold Ledger.changes, runUpdates. cbn [foldl]. do 8 eapply runs_update. apply runs_done.
Defined.

Lemma updates_refine_spec_witness :
  ObsEq (abs (runUpdates Ledger.changes Ledger.start))
    (specUpdates 0 0 0 Ledger.changes (abs Ledger.start)) /\
  GetBalance 9 (runUpdates Ledger.changes Ledger.start) = 10.
Proof.
  split; [apply (updates_refine_spec Ledger.changes Ledger.start), Ledger.ledger_ok|by vm_compute].
Defined.

(** Reverting a touch makes the database forget later changes: account 8 is
    touched in a call that is reverted, then gets 500 wei; the getters show the
    wei, but the state that the committed root opens does not have it. *)
Example reverted_touch_loses_changes :
  Ledger.balanceBefore = Some 500 /\ Ledger.balanceAfterCommit = Some 0.
Proof. by vm_compute. Qed.
