(* ===== verification/VmProperties.v ===== *)
(** * Package core/vm: theorems

    Properties of the interpreter and of [EVM.Call] and its siblings, on the state
    database of package core/state, with their instances on a concrete contract. *)

From stdpp Require Import base numbers list gmap sets option functions.
From Stdlib Require Import ZArith Lia Strings.Byte.
From S2P Require Import Prelude Common Params Types Toy VmCore VmGas VmOps VmPrecompiled VmInterp VmArithmetic VmGasProofs VmFuel VmStateSpec State StateProofs StateLaws StateSafety ToyStore VmStateProofs VmAnalysis StateProperties.

(** ** Definitions *)

(** A contract at address 9 that writes its storage and stops, and one at address 10
    that writes and runs into an invalid instruction. *)
Module World.

Notation statedb := (state.StateDB Store.store (gmap Z (list byte))).

Definition chain : ChainConfig :=
  mkChainConfig (Some 1) (Some 0) (Some 0) 0 (Some 0) (Some 0) (Some 0).
Definition context : Context := mkContext (fun _ => 0) 7 1 0 (8 * 10 ^ 6) 5 1000 1.
Definition env : Env := mkEnv context chain (mkVmConfig false false false).

(** PUSH1 5 PUSH1 1 SSTORE STOP, and with the invalid instruction 0xfe. *)
Definition writer : list byte := [x60; x05; x60; x01; x55; x00].
Definition failing : list byte := [x60; x05; x60; x01; x55; xfe].
(** PUSH1 0 PUSH1 0 ... STATICCALL to address 9. *)
Definition reader : list byte :=
  [x60; x00; x60; x00; x60; x00; x60; x00; x60; x09; x62; x01; x00; x00; xfa; x00].

Definition start : statedb :=
  runUpdates [USetCode 9 writer; USetCode 10 failing; USetCode 11 reader] Ledger.start.
Definition evm : EVM statedb := NewEVM start.
Definition caller : ContractRef := AccountRef 7.

Lemma world_ok : StateOk start.
Proof.
  unfold start, runUpdates. cbn [foldl].
  do 3 apply (update_ok (StateDBLaws := stateDBLaws)). apply Ledger.ledger_ok.
Qed.

(** The same machine inside a static call. *)
Definition static : EVM statedb := evm_with_readOnly evm true.

End World.

Section Definitions.
Context {CR : Crypto} {NC : NativeCrypto} {S : Type} {SDB : StateDB S} (env : Env).

(** The ways to run an account's code. *)
Inductive invocation :=
| ICall (addr : Address) (input : list byte) (value : Z)
| ICallCode (addr : Address) (input : list byte) (value : Z)
| IDelegateCall (addr : Address) (input : list byte)
| IStaticCall (addr : Address) (input : list byte).

Definition invokeBy (loopF : M (VM S) vmErr (list byte * option vmErr)) (caller : ContractRef) (gas : Z)
    (i : invocation) (e : EVM S) : result vmErr callResult * EVM S :=
  match i with
  | ICall addr input value => Call env loopF caller addr input gas value e
  | ICallCode addr input value => CallCode env loopF caller addr input gas value e
  | IDelegateCall addr input => DelegateCall env loopF caller addr input gas e
  | IStaticCall addr input => StaticCall env loopF caller addr input gas e
  end.

(** With the interpreter's loop at some fuel. *)
Definition invoke (fuel : nat) : ContractRef -> Z -> invocation -> EVM S -> result vmErr callResult * EVM S :=
  invokeBy (loop env fuel).

End Definitions.

(** ** Lemmas *)

Section Lemmas.
Context {CR : Crypto} {NC : NativeCrypto} {S : Type} {SDB : StateDB S} (env : Env).

Lemma invokeBy_finer l1 l2 caller gas i :
  Finer l1 l2 -> Finer (invokeBy (S := S) env l1 caller gas i) (invokeBy env l2 caller gas i).
Proof.
  intros Hl. destruct (calls_loop_finer env _ _ Hl caller gas) as (H1 & H2 & H3 & H4 & _).
  destruct i; [apply H1|apply H2|apply H3|apply H4].
Qed.

Lemma invoke_finer f1 f2 caller gas i :
  (f1 <= f2)%nat -> Finer (invoke (S := S) env f1 caller gas i) (invoke env f2 caller gas i).
Proof. intros Hf. by apply invokeBy_finer, loop_finer_le. Qed.

Lemma invoke_gas fuel caller gas i :
  DisableGasMetering (vmConfig env) = false -> is_u64 gas -> gas < Z.of_nat fuel ->
  Gives (LeftIn callLeft gas) (invoke (S := S) env fuel caller gas i).
Proof.
  intros Hm Hu Hf. pose proof (loop_gas (S := S) env fuel Hm) as HL.
  destruct i; [by eapply Call_gas|by eapply CallCode_gas|by eapply DelegateCall_gas|by eapply StaticCall_gas].
Qed.

(** A static call does not depend on whether it is made from a static call. *)
Lemma StaticCall_readOnly loopF caller addr input gas (e : EVM S) :
  eState (snd (StaticCall env loopF caller addr input gas e)) =
  eState (snd (StaticCall env loopF caller addr input gas (evm_with_readOnly e true))).
Proof.
  unfold StaticCall.
  repeat match goal with |- context [mbind (gets ?f) ?k ?x] => change (mbind (gets f) k x) with (k (f x) x) end.
  cbv beta. cbn [eDepth evm_with_readOnly]. destruct (_ && _); [done|]. destruct (_ >? _); [done|].
  repeat match goal with |- context [mbind (setReadOnly ?b) ?k ?x] =>
    change (mbind (setReadOnly b) k x) with (k tt (evm_with_readOnly x b)) end.
  cbv beta. change (evm_with_readOnly (evm_with_readOnly e true) true) with (evm_with_readOnly e true).
  unfold mbind, setReadOnly, modify, ret.
  destruct (takeSnapshot _) as [[id| | |] e1]; [|done..].
  destruct (enterContract caller e1) as [[[]| | |] e2]; [|done..].
  destruct (stateOf e2) as [[s| | |] e3]; [|done..].
  match goal with |- context [run env loopF ?c ?i ?x] => destruct (run env loopF c i x) as [[r| | |] e4]; [|done..] end.
  by destruct (settle id r e4) as [[res| | |] e5].
Qed.

Context {SL : StateDBLaws S}.

Lemma invoke_good w R fuel caller gas i :
  StateRel w R -> w = true \/ (match i with ICall _ _ value => value = 0 | _ => True end) ->
  Good w R env callErr (invoke env fuel caller gas i).
Proof.
  intros HR Hv. pose proof (loop_ok w R HR env fuel) as HL.
  destruct i; [by eapply Call_good|by eapply CallCode_good|by eapply DelegateCall_good|by eapply StaticCall_good].
Qed.

End Lemmas.

(** ** Properties *)

Section Termination.
Context {CR : Crypto} {NC : NativeCrypto} {S : Type} {SDB : StateDB S} (env : Env).
Context (metered : DisableGasMetering (vmConfig env) = false).

(** C2. Execution terminates, and gas only falls: with gas metering, every call of
    an account's code has one outcome, the same for every fuel above the gas it is
    given, and returns at most that gas. *)
Theorem calls_terminate caller gas i (e : EVM S) :
  is_u64 gas ->
  exists r, (forall fuel, gas < Z.of_nat fuel -> invoke env fuel caller gas i e = r) /\
    fst r <> NoFuel /\ forall out, fst r = Ok out -> 0 <= callLeft out <= gas.
Proof.
  intros Hu. set (f := Z.to_nat (gas + 1)). exists (invoke env f caller gas i e).
  assert (Hn : forall fuel, gas < Z.of_nat fuel -> fst (invoke env fuel caller gas i e) <> NoFuel)
    by (intros fuel Hf; by apply invoke_gas).
  split; [intros fuel Hf; apply (Finer_stable (fun fuel => invoke env fuel caller gas i) gas);
    [intros; by apply invoke_finer|done|unfold is_u64 in Hu; lia]|].
  apply invoke_gas; [done|done|unfold is_u64 in Hu; lia].
Qed.

(** Creating a contract terminates as well: one outcome for every fuel above
    the gas, which returns at most that gas. *)
Theorem creation_terminates caller code gas value (e : EVM S) :
  is_u64 gas ->
  exists r, (forall fuel, gas < Z.of_nat fuel -> Create env (loop env fuel) caller code gas value e = r) /\
    fst r <> NoFuel /\ forall out, fst r = Ok out -> 0 <= createLeft out <= gas.
Proof.
  intros Hu. set (f := Z.to_nat (gas + 1)). exists (Create env (loop env f) caller code gas value e).
  assert (Hn : forall fuel, gas < Z.of_nat fuel ->
    Gives (LeftIn createLeft gas) (Create (S := S) env (loop env fuel) caller code gas value))
    by (intros fuel Hf; eapply Create_gas; [by apply loop_gas|done|done]).
  split; [|apply Hn; unfold is_u64 in Hu; lia]. intros fuel Hf.
  apply (Finer_stable (fun fuel => Create env (loop env fuel) caller code gas value) gas);
    [|intros f' Hf'; by apply Hn|unfold is_u64 in Hu; lia].
  intros f1 f2 H. apply (calls_loop_finer env _ _ (loop_finer_le env f1 f2 H)).
Qed.

End Termination.

Section Effects.
Context {CR : Crypto} {NC : NativeCrypto} {D T : Type} {DB : state.Database D T} {DL : DatabaseLaws}.
Context (env : Env).
Notation statedb := (state.StateDB D T).

(** C1. A call that returns an error has no effect: every account, the storage, the
    refund counter, the logs and the preimages are as before the call, whatever
    code ran, and the state is well-formed again. *)
Theorem failed_calls_have_no_effect fuel caller gas i (e e' : EVM statedb) out left err :
  StateOk (eState e) -> invoke env fuel caller gas i e = (Ok (out, left, Some err), e') ->
  StateOk (eState e') /\ ObsEq (abs (eState e)) (abs (eState e')).
Proof.
  intros Hok E.
  destruct (invoke_good env true _ fuel caller gas i evolves_rel (or_introl eq_refl) e) as (H1 & _ & _ & H4);
    [done|by left|].
  rewrite E in *. split; [apply H1|]. by apply (H4 _ err eq_refl).
Qed.

(** A creation that returns an error only spends the sender's nonce: apart from
    it the state looks as before.  (Before Homestead, a creation that cannot pay for
    its code keeps its effects; that error is left out.) *)
Theorem failed_creations_spend_the_nonce fuel caller code gas value (e e' : EVM statedb) out addr left err :
  StateOk (eState e) -> IsHomestead (chainConfig env) (envNumber env) = true \/ err <> ErrCodeStoreOutOfGas ->
  Create env (loop env fuel) caller code gas value e = (Ok (out, addr, left, Some err), e') ->
  StateOk (eState e') /\ ObsEq (abs (createStart caller value e)) (abs (eState e')).
Proof.
  intros Hok Herr E.
  destruct (Create_good true _ evolves_rel env (loop env fuel) (loop_ok true _ evolves_rel env fuel)
    caller code gas value e) as (H1 & _ & _ & H4); [done|done|by left|].
  rewrite E in *. split; [apply H1|]. refine (proj2 (H4 (out, addr, left, Some err) err eq_refl _)).
  unfold createErr. cbn. destruct Herr as [->|Hne]; [done|]. by rewrite bool_decide_eq_false_2, orb_true_r.
Qed.

(** C34. Static execution changes no data: a static call, and inside one every call
    without value, leaves all balances, nonces, codes, storage values, suicide marks
    and the refund counter as they are, whatever code runs and however it ends. *)
Theorem static_calls_change_no_data fuel caller gas i (e : EVM statedb) :
  StateOk (eState e) -> rIsByzantium (Rules (chainConfig env) (envNumber env)) = true ->
  (match i with
   | IStaticCall _ _ => True
   | ICall _ _ value => eReadOnly e = true /\ value = 0
   | _ => eReadOnly e = true
   end) ->
  SameData (eState e) (eState (snd (invoke env fuel caller gas i e))).
Proof.
  intros Hok Hbyz Hi.
  assert (H : forall e0, StateOk (eState e0) -> eReadOnly e0 = true ->
    match i with ICall _ _ value => value = 0 | _ => True end ->
    SameData (eState e0) (eState (snd (invoke env fuel caller gas i e0)))).
  { intros e0 Hok0 Hro Hv.
    by destruct (invoke_good env false _ fuel caller gas i unchanged_rel (or_intror Hv) e0)
      as ([_ H1] & _); [|right|]. }
  destruct i; try (by apply H; destruct Hi). unfold invoke. cbn [invokeBy]. rewrite StaticCall_readOnly.
  by apply (H (evm_with_readOnly e true)).
Qed.

End Effects.

Lemma calls_terminate_witness :
  exists r, (forall fuel, 50000 < Z.of_nat fuel ->
      invoke World.env fuel World.caller 50000 (ICall 9 [] 3) World.evm = r) /\
    fst r <> NoFuel /\ forall out, fst r = Ok out -> 0 <= callLeft out <= 50000.
Proof. apply (calls_terminate World.env eq_refl World.caller 50000 (ICall 9 [] 3) World.evm). done. Defined.

Lemma creation_terminates_witness :
  exists r, (forall fuel, 50000 < Z.of_nat fuel ->
      Create World.env (loop World.env fuel) World.caller World.writer 50000 3 World.evm = r) /\
    fst r <> NoFuel /\ forall out, fst r = Ok out -> 0 <= createLeft out <= 50000.
Proof. apply (creation_terminates World.env eq_refl World.caller World.writer 50000 3 World.evm). done. Defined.

Lemma failed_calls_have_no_effect_witness :
  exists out left e',
    invoke World.env 100 World.caller 50000 (ICall 10 [] 3) World.evm =
      (Ok (out, left, Some (errInvalidOpcode 0xfe)), e') /\
    StateOk (eState e') /\ ObsEq (abs (eState World.evm)) (abs (eState e')).
Proof.
  eexists _, _, _. split; [vm_compute; reflexivity|].
  eapply (failed_calls_have_no_effect World.env 100 World.caller 50000 (ICall 10 [] 3) World.evm);
    [apply World.world_ok|vm_compute; reflexivity].
Defined.

Lemma failed_creations_spend_the_nonce_witness :
  exists out addr left e',
    Create World.env (loop World.env 100) World.caller World.failing 60000 3 World.evm =
      (Ok (out, addr, left, Some (errInvalidOpcode 0xfe)), e') /\
    StateOk (eState e') /\ ObsEq (abs (createStart World.caller 3 World.evm)) (abs (eState e')).
Proof.
  eexists _, _, _, _. split; [vm_compute; reflexivity|].
  eapply (failed_creations_spend_the_nonce World.env 100 World.caller World.failing 60000 3 World.evm);
    [apply World.world_ok|by left|vm_compute; reflexivity].
Defined.

Lemma static_calls_change_no_data_witness :
  SameData World.start (eState (snd (invoke World.env 100 World.caller 50000 (IStaticCall 9 []) World.evm))) /\
  option_map snd (match fst (invoke World.env 100 World.caller 50000 (IStaticCall 9 []) World.evm) with
                  | Ok r => Some r | _ => None end) = Some (Some errWriteProtection).
Proof.
  split; [|by vm_compute].
  apply (static_calls_change_no_data World.env 100 World.caller 50000 (IStaticCall 9 []) World.evm);
    [apply World.world_ok|done|done].
Defined.

(** ** Instructions, jumps and memory *)

Section Instructions.
Context {CR : Crypto} {NC : NativeCrypto} {S : Type} {SDB : StateDB S} (env : Env) (callee : Callee S).

(** C38. The arithmetic, comparison and bit instructions compute the functions on
    256-bit words that they stand for (two's complement quotient and remainder that
    round to zero, sign extension of any width, modular exponentiation, the i-th
    byte from the top), leave the rest of the machine alone, and give words. *)
Theorem arithmetic_is_twos_complement op args r :
  Forall is_word args -> wordSem op args = Some r ->
  is_word r /\ forall (v : VM S) st, vmStack v = args ++ st ->
    exists o, jumpTable env callee op = Some o /\ oExecute o v = (Ok [], vm_with_stack v (r :: st)).
Proof.
  intros Hw Hr. split; [by eapply wordSem_word|]. by apply (wordSem_exec env callee op args r).
Qed.

End Instructions.

(** The EVM that the concrete instances below run on. *)
Definition callee0 : Callee World.statedb := calleeOf World.env (loop World.env 0).

Lemma arithmetic_is_twos_complement_witness :
  exists o, jumpTable World.env callee0 0x05 = Some o /\
    forall v : VM World.statedb, vmStack v = [2 ^ 256 - 7; 2] ->
      oExecute o v = (Ok [], vm_with_stack v [2 ^ 256 - 3]).
Proof.
  destruct (arithmetic_is_twos_complement World.env callee0 0x05 [2 ^ 256 - 7; 2] (2 ^ 256 - 3)) as [_ H].
  - by repeat constructor.
  - by vm_compute.
  - destruct (H (mkVM 0 World.evm (NewContract World.caller 9 0 0) NewMemory [2 ^ 256 - 7; 2]) [] eq_refl)
      as (o & Ho & _).
    exists o. split; [exact Ho|]. intros v Hv. destruct (H v [] Hv) as (o' & Ho' & E).
    rewrite Ho in Ho'. injection Ho' as <-. exact E.
Defined.

(** C39. The jump analysis is exact: whatever the contract's bytes, with a cache that
    holds nothing else under the code's hash, a jump is allowed exactly to the
    JUMPDEST instructions that are not inside the data of a PUSH; the test never
    panics and at most adds the code's bitmap to the cache. *)
Theorem jump_analysis_is_exact d h code dest :
  0 <= dest -> Z.of_nat (length code) < 2 ^ 62 -> d !! h = None \/ d !! h = codeBitmap code ->
  exists d', has d h code dest = (Ok (validJump code dest), d') /\
    (d' = d \/ exists bits, codeBitmap code = Some bits /\ d' = <[h := bits]> d).
Proof. apply has_valid. Qed.

(** PUSH2 0x5b5b JUMPDEST STOP: only position 3 is a destination. *)
Lemma jump_analysis_is_exact_witness :
  exists d', has ∅ 1 [x61; x5b; x5b; x5b; x00] 1 = (Ok false, d') /\
    (d' = ∅ \/ exists bits, codeBitmap [x61; x5b; x5b; x5b; x00] = Some bits /\ d' = <[1 := bits]> ∅).
Proof.
  apply (jump_analysis_is_exact ∅ 1 [x61; x5b; x5b; x5b; x00] 1); [lia|done|by left].
Defined.

(** Memory costs what the formula 3w + w^2/512 says: on a memory that is paid
    for, growing it to any size up to 0x1fffffffe0 bytes charges the difference of
    the two totals, nothing when it is large enough, and leaves it paid for. *)
Theorem memory_is_priced_by_the_formula mem n :
  MemoryPaid mem -> 0 < n <= 0x1fffffffe0 ->
  let w := wordsOf n in
  let '(r, mem') := memoryGasCostOn mem n in
  r = Ok (Z.max 0 (memoryFee w - lastGasCost mem)) /\ MemoryPaid (memResize (32 * w) mem').
Proof. apply memoryGas_fee. Qed.

Lemma memory_is_priced_by_the_formula_witness :
  MemoryPaid NewMemory /\
  let '(r, mem') := memoryGasCostOn NewMemory 1000 in
  r = Ok 98 /\ MemoryPaid (memResize 1024 mem').
Proof.
  assert (H : MemoryPaid NewMemory) by (exists 0; by split_and!). split; [exact H|].
  apply (memory_is_priced_by_the_formula NewMemory 1000 H). lia.
Defined.

(** The bound on the memory size is too large: at 2^37 bytes, which the bound
    0xffffffffe0 lets through, the square of the words wraps to 0 and the price
    falls from over 2^55 gas to 12884901888. *)
Example memory_price_wraps :
  2 ^ 37 <= 0xffffffffe0 /\ fst (memoryGasCostOn NewMemory (2 ^ 37)) = Ok 12884901888 /\
  memoryFee (wordsOf (2 ^ 37)) = 2 ^ 55 + 12884901888 /\
  fst (memoryGasCostOn NewMemory (2 ^ 37 - 32)) = Ok (memoryFee (wordsOf (2 ^ 37 - 32))).
Proof. by vm_compute. Qed.
