(* ===== verification/VmSafetyProperties.v ===== *)
(** * Package core/vm: theorems about safety

    From a well-formed EVM, calls and creations do not panic, keep it well-formed
    and create no ether; each round of the interpreter keeps the machine's bounds. *)

From stdpp Require Import base numbers list gmap sets option.
From Stdlib Require Import ZArith Lia Strings.Byte.
From S2P Require Import Prelude Common Params Types Toy VmCore VmGas VmOps VmPrecompiled VmInterp VmArithmetic VmGasProofs VmFuel VmStateSpec State StateProofs StateLaws StateSafety ToyStore VmStateProofs VmAnalysis StateProperties VmProperties VmSafety VmSafeOps VmSafeLoop.

(** ** Definitions *)

(** The arguments that the source's types allow; only a contract can delegate. *)
Definition invocationOk {CR : Crypto} (caller : ContractRef) (i : invocation) : Prop :=
  refOk caller /\
  match i with
  | ICall addr input value | ICallCode addr input value => is_address addr /\ small input /\ is_word value
  | IDelegateCall addr input => is_address addr /\ small input /\ (exists c, caller = ContractCaller c)
  | IStaticCall addr input => is_address addr /\ small input
  end.

(** ** Lemmas *)

Lemma quiet_updates {CR : Crypto} {D T : Type} {DB : state.Database D T} {DL : DatabaseLaws} W us
    (s : state.StateDB D T) :
  Forall quiet us -> StateOk s -> StateInv (SL := stateDBLaws) W s -> StateInv (SL := stateDBLaws) W (runUpdates us s).
Proof.
  intros Hus. revert s. unfold runUpdates. induction Hus as [|u us Hu Hus IH]; intros s Hok Hs; [done|]. cbn [foldl].
  apply IH; [by apply (update_ok (StateDBLaws := stateDBLaws))|by apply (quiet_inv (SL := stateDBLaws))].
Qed.

Section Lemmas.
Context {CR : Crypto} {KC : KnownCodes} {NC : NativeCrypto} {NL : NativeLaws} {S : Type} {SDB : StateDB S}
  {SL : StateDBLaws S} {BL : BalanceLaws S} {FL : SafetyLaws S}.
Context (W : Z) (HW : W < 2 ^ 256) (env : Env) (HP : is_word (GasPrice (ctx env))).
Context (metered : DisableGasMetering (vmConfig env) = false).

Lemma evm_ok_self e :
  sOk (eState e) -> StateInv W (eState e) -> CacheOk (eJumpdests e) -> small (eReturnData e) ->
  EvmOk W (eState e) e.
Proof. intros. split; try done. by apply Evolves_refl. Qed.

(** A call on known codes, at any fuel. *)
Lemma invoke_on_safe fuel caller gas i e :
  invocationOk caller i -> 0 <= gas < 2 ^ 60 -> EvmOk W (eState e) e ->
  wpE W (eState e) (invokeBy env (loopOn knownCode env fuel) caller gas i) (CallPost W (eState e)) e.
Proof.
  intros [Hr Hi] Hg He. pose proof (loopOn_safe (S := S) W HW env HP metered fuel (2 ^ 60) ltac:(lia)) as HL.
  destruct i as [a b x|a b x|a b|a b]; cbn [invokeBy].
  - destruct Hi as (? & ? & ?). apply Call_safe with (N := 2 ^ 60); done || lia.
  - destruct Hi as (? & ? & ?). apply CallCode_safe with (N := 2 ^ 60); done || lia.
  - destruct Hi as (? & ? & c & ->). apply DelegateCall_safe with (N := 2 ^ 60); done || lia.
  - destruct Hi as (? & ?). apply StaticCall_safe with (N := 2 ^ 60); done || lia.
Qed.

(** The run itself, when its restriction to the known codes was not stopped. *)
Lemma invoke_safe fuel caller gas i e :
  fst (invokeBy env (loopOn knownCode env fuel) caller gas i e) <> NoFuel ->
  invocationOk caller i -> 0 <= gas < 2 ^ 60 -> EvmOk W (eState e) e ->
  wpE W (eState e) (invoke env fuel caller gas i) (CallPost W (eState e)) e.
Proof.
  intros Hn Hi Hg He. pose proof (invoke_on_safe fuel caller gas i e Hi Hg He) as H. unfold wpE in *.
  destruct (invokeBy_finer env _ _ caller gas i (loopOn_finer env knownCode fuel) e) as [E|E]; [done|].
  unfold invoke. by rewrite <- E.
Qed.

Lemma create_safe fuel caller gas code x e :
  fst (Create env (loopOn knownCode env fuel) caller code gas x e) <> NoFuel ->
  refOk caller -> small code -> is_word x -> 0 <= gas < 2 ^ 60 -> EvmOk W (eState e) e ->
  wpE W (eState e) (Create env (loop env fuel) caller code gas x) (CreatePost W (eState e)) e.
Proof.
  intros Hn Hr Hc Hx Hg He. pose proof (loopOn_safe (S := S) W HW env HP metered fuel (2 ^ 60) ltac:(lia)) as HL.
  assert (H : wpE W (eState e) (Create env (loopOn knownCode env fuel) caller code gas x) (CreatePost W (eState e)) e)
    by (apply Create_safe with (N := 2 ^ 60); done || lia).
  unfold wpE in *. destruct (calls_loop_finer env _ _ (loopOn_finer env knownCode fuel) caller gas) as (_ & _ & _ & _ & Hf).
  destruct (Hf code x e) as [E|E]; [done|]. by rewrite <- E.
Qed.

End Lemmas.

(** ** Properties *)

Section Safety.
Context {CR : Crypto} {NC : NativeCrypto} {NL : NativeLaws} {D T : Type} {DB : state.Database D T} {DL : DatabaseLaws}.
Context (env : Env) (HP : is_word (GasPrice (ctx env))) (metered : DisableGasMetering (vmConfig env) = false).
Notation statedb := (state.StateDB D T).
Notation EvmOk K := (EvmOk (KC := K) (S := statedb) (SL := stateDBLaws)).

(** The codes that a call runs, its own and those of the calls it makes, are all in
    the list: the run that stops at any other code returns. *)
Definition CallRunsOnly (codes : list (list byte)) (fuel : nat) (caller : ContractRef) (gas : Z) (i : invocation)
    (e : EVM statedb) : Prop :=
  fst (invokeBy env (loopOn (inCodes codes) env fuel) caller gas i e) <> NoFuel.
Definition CreateRunsOnly (codes : list (list byte)) (fuel : nat) (caller : ContractRef) (code : list byte) (gas value : Z)
    (e : EVM statedb) : Prop :=
  fst (Create env (loopOn (inCodes codes) env fuel) caller code gas value e) <> NoFuel.

(** C3. Execution does not go wrong: from a well-formed EVM whose ether fits into a
    word, a call with less than 2^60 gas returns a result (no index out of range in
    stack, memory, code, input or return data, no invalid snapshot, no oversized
    exponentiation), and leaves a well-formed EVM.  The condition is that the codes
    which the call runs, and those whose jump analyses are cached when it starts, are
    a list of codes with different hashes: the analyses are cached by hash. *)
Theorem calls_never_panic W fuel caller gas i (e : EVM statedb) codes (differ : HashesDiffer codes) :
  W < 2 ^ 256 -> EvmOk (codesOf codes differ) W (eState e) e -> invocationOk caller i ->
  0 <= gas < 2 ^ 60 -> gas < Z.of_nat fuel -> CallRunsOnly codes fuel caller gas i e ->
  match invoke env fuel caller gas i e with
  | (Ok (out, _, _), e') => small out /\ EvmOk (codesOf codes differ) W (eState e) e'
  | _ => False
  end.
Proof.
  intros HW He Hi Hg Hf Hon.
  pose proof (invoke_gas (S := statedb) env fuel caller gas i metered ltac:(unfold is_u64; lia) Hf e) as [Hn _].
  destruct (invoke_good env true _ fuel caller gas i evolves_rel (or_introl eq_refl) e) as (_ & _ & Hne & _);
    [by eapply EvmOk_ok|by left|].
  pose proof (invoke_safe (KC := codesOf codes differ) W HW env HP metered fuel caller gas i e Hon Hi Hg He) as H. unfold wpE in H.
  destruct (invoke _ _ _ _ _ e) as [[[[out left] err]|x| |] e']; try done. by destruct (Hne x).
Qed.

(** Creations do not go wrong either, under the same conditions. *)
Theorem creations_never_panic W fuel caller code gas value (e : EVM statedb) codes (differ : HashesDiffer codes) :
  W < 2 ^ 256 -> EvmOk (codesOf codes differ) W (eState e) e -> refOk caller -> small code -> is_word value ->
  0 <= gas < 2 ^ 60 -> gas < Z.of_nat fuel -> CreateRunsOnly codes fuel caller code gas value e ->
  match Create env (loop env fuel) caller code gas value e with
  | (Ok (out, _, _, _), e') => small out /\ EvmOk (codesOf codes differ) W (eState e) e'
  | _ => False
  end.
Proof.
  intros HW He Hr Hc Hv Hg Hf Hon.
  pose proof (Create_gas env _ _ (loop_gas (S := statedb) env fuel metered) caller code gas value
    ltac:(unfold is_u64; lia) Hf e) as [Hn _].
  destruct (Create_good true _ evolves_rel env (loop env fuel) (loop_ok true _ evolves_rel env fuel)
    caller code gas value e) as (_ & _ & Hne & _); [done|by eapply EvmOk_ok|by left|].
  pose proof (create_safe (KC := codesOf codes differ) W HW env HP metered fuel caller gas code value e Hon Hr Hc Hv Hg He) as H.
  unfold wpE in H. destruct (Create _ _ _ _ _ _ e) as [[[[[out addr] left] err]|x| |] e']; try done. by destruct (Hne x).
Qed.

(** C33. Execution creates no ether and no debts: after a call that returns, the sum
    of all balances is at most what it was, and no balance is negative.  (It falls
    when a contract destroys itself in its own favour.) *)
Theorem calls_create_no_ether fuel caller gas i (e e' : EVM statedb) r :
  EvmOk allCodes (supply (eState e)) (eState e) e -> supply (eState e) < 2 ^ 256 ->
  invocationOk caller i -> 0 <= gas < 2 ^ 60 -> gas < Z.of_nat fuel ->
  invoke env fuel caller gas i e = (Ok r, e') ->
  supply (eState e') <= supply (eState e) /\ forall a, is_address a -> 0 <= VmCore.GetBalance a (eState e').
Proof.
  intros He HW Hi Hg Hf E.
  assert (Hon : fst (invokeBy env (loopOn (knownCode (KnownCodes := allCodes)) env fuel) caller gas i e) <> NoFuel).
  { destruct (invokeBy_finer env _ _ caller gas i (loop_finer_on env (knownCode (KnownCodes := allCodes)) fuel (fun _ => eq_refl)) e)
      as [E'|E']; unfold invoke in E; [by rewrite E in E'|]. by rewrite <- E', E. }
  pose proof (invoke_safe (KC := allCodes) _ HW env HP metered fuel caller gas i e Hon Hi Hg He) as H.
  unfold wpE in H. rewrite E in H. destruct H as [_ [_ [_ Hb Hs _] _ _]]. by split.
Qed.

(** The machine's bounds are invariants of the interpreter: each round keeps the
    stack to at most 1024 words below 2^256, the memory to at most 0xffffffffe0
    bytes, the program counter in range, and the gas a uint64. *)
Theorem rounds_keep_the_bounds W fuel (s0 : statedb) (v v' : VM statedb) :
  W < 2 ^ 256 -> MachineOk (KC := allCodes) (SL := stateDBLaws) W s0 v -> Z.of_nat fuel <= 2 ^ 60 -> gasOf v <= Z.of_nat fuel ->
  step env (calleeOf env (loop env fuel)) v = (Ok None, v') ->
  Z.of_nat (length (vmStack v')) <= 1024 /\ Forall is_word (vmStack v') /\
  mLen (vmMemory v') <= 0xffffffffe0 /\ 0 <= vmPc v' < 2 ^ 62 + 64 /\ 0 <= gasOf v' < gasOf v.
Proof.
  intros HW Hv Hf Hg E. pose proof (loop_gas (S := statedb) env fuel metered) as HG.
  pose proof (calleeOf_bound env _ _ HG) as HB. pose proof (co_gas _ (mo_contract _ _ _ Hv)) as Hu.
  pose proof (loopOn_safe (KC := allCodes) (SL := stateDBLaws) W HW env HP metered fuel (Z.of_nat fuel) Hf) as HL.
  pose proof (step_on_safe (KC := allCodes) W HW env HP metered s0 (Z.of_nat fuel) _ _ v
    (calleeOf_finer env _ _ (loopOn_finer env (knownCode (KnownCodes := allCodes)) fuel)) HB
    (calleeOf_safe W env _ Hf _ HL s0) Hv Hg) as Hs.
  destruct (step_gas env (Z.of_nat fuel) _ v metered HB Hu Hg) as (_ & Hle & Hlt).
  unfold wp in Hs. destruct (step_finer env _ _ (calleeOf_finer env _ _
    (loop_finer_on env (knownCode (KnownCodes := allCodes)) fuel (fun _ => eq_refl))) v) as [E'|E']; [by rewrite E in E'|].
  rewrite <- E', E in Hs. rewrite E in Hle, Hlt. clear E E' HL HB HG.
  destruct Hs as [[Hpc _ _ Hm Hst _] Hh]. specialize (Hlt eq_refl). cbn in Hle, Hlt.
  split_and!; try done; lia.
Qed.

End Safety.

(** ** Instances *)

#[global] Instance storeNativeLaws : NativeLaws (CR := Toy.crypto) (NC := Store.nativeCrypto).
Proof.
  split; [|intros; apply length_be_bytes..|done]. intros h [|b sig]; done.
Qed.

(** The accounts of the concrete ledger. *)
Lemma ledger_object a :
  lookObj a Ledger.start = None \/
  exists n b, 0 <= b /\ lookObj a Ledger.start = Some (state.newObject (state.mkAccount n b 0 state.emptyCodeHash) true).
Proof.
  rewrite lookObj_eq. replace (state.stateObjects Ledger.start !! a) with (@None (state.stateObject (gmap Z (list byte)))) by done.
  unfold loadObject. change (state.TryGet (state.trie Ledger.start) (AddressBytes a))
    with (Some (default [] (Ledger.trie !! Store.key (AddressBytes a)))).
  set (k := Store.key (AddressBytes a)). unfold Ledger.trie, list_to_map. cbn [foldr].
  change (Store.entry 7 1 1000) with (Store.key (AddressBytes 7), snd (Store.entry 7 1 1000)).
  change (Store.entry 8 0 0) with (Store.key (AddressBytes 8), snd (Store.entry 8 0 0)). cbn [fst snd].
  destruct (decide (Store.key (AddressBytes 7) = k)) as [<-|H7].
  { right. exists 1, 1000. split; [done|]. rewrite lookup_insert_eq. by vm_compute. }
  rewrite lookup_insert_ne by done. destruct (decide (Store.key (AddressBytes 8) = k)) as [<-|H8].
  { right. exists 0, 0. split; [done|]. rewrite lookup_insert_eq. by vm_compute. }
  left. rewrite lookup_insert_ne by done. by rewrite lookup_empty.
Qed.

Lemma ledger_acct a :
  acct (abs Ledger.start) a = None \/
  exists n b, 0 <= b /\ acct (abs Ledger.start) a = Some (mkView n b state.emptyCodeHash [] false).
Proof.
  unfold abs. cbn [acct]. destruct (ledger_object a) as [->|(n & b & Hb & ->)]; [by left|].
  right. exists n, b. split; [done|]. cbn [fmap option_fmap option_map]. by f_equal.
Qed.

Lemma ledger_inv : StateInv (S := World.statedb) (SL := stateDBLaws) 1000 Ledger.start.
Proof.
  split.
  - refine (proj2 (CodeOk_view Ledger.start) _). intros a v _ Hv.
    destruct (ledger_acct a) as [E|(n & b & Hb & E)]; [congruence|]. rewrite E in Hv. injection Hv as <-. by split.
  - intros a _. change (VmCore.GetBalance a Ledger.start) with (state.GetBalance a Ledger.start).
    rewrite GetBalance_acct. by destruct (ledger_acct a) as [->|(n & b & Hb & ->)].
  - by vm_compute.
  - exact (conj (Tidy_empty Ledger.start eq_refl eq_refl eq_refl) I).
Qed.

Lemma world_inv : StateInv (S := World.statedb) (SL := stateDBLaws) 1000 World.start.
Proof.
  unfold World.start. apply quiet_updates; [|apply Ledger.ledger_ok|apply ledger_inv].
  repeat (apply Forall_cons; [by split|]). apply Forall_nil.
Qed.

Lemma world_evm_ok (K : KnownCodes) : EvmOk (KC := K) (S := World.statedb) (SL := stateDBLaws) 1000 World.start World.evm.
Proof.
  exact (evm_ok_self (SL := stateDBLaws) 1000 World.evm World.world_ok world_inv
    (fun h b (E : None = Some b) => match E with eq_refl => I end) (eq_refl : small [])).
Qed.

(** The codes of the concrete contracts. *)
Lemma world_codes_differ : HashesDiffer [World.writer].
Proof. by intros c1 c2 ->%list_elem_of_singleton ->%list_elem_of_singleton. Qed.

Lemma calls_never_panic_witness :
  match invoke World.env (Z.to_nat 60000) World.caller 50000 (ICall 9 [] 3) World.evm with
  | (Ok (out, _, _), e') =>
      small out /\ EvmOk (KC := codesOf _ world_codes_differ) (S := World.statedb) (SL := stateDBLaws) 1000 World.start e'
  | _ => False
  end.
Proof.
  apply (calls_never_panic World.env ltac:(done) eq_refl 1000 (Z.to_nat 60000) World.caller 50000 (ICall 9 [] 3)
    World.evm [World.writer] world_codes_differ);
    [done|apply world_evm_ok|by split_and!|done|by rewrite Z2Nat.id|by vm_compute].
Defined.

Lemma creations_never_panic_witness :
  match Create World.env (loop World.env (Z.to_nat 60000)) World.caller World.writer 50000 3 World.evm with
  | (Ok (out, _, _, _), e') =>
      small out /\ EvmOk (KC := codesOf _ world_codes_differ) (S := World.statedb) (SL := stateDBLaws) 1000 World.start e'
  | _ => False
  end.
Proof.
  apply (creations_never_panic World.env ltac:(done) eq_refl 1000 (Z.to_nat 60000) World.caller World.writer 50000 3
    World.evm [World.writer] world_codes_differ);
    [done|apply world_evm_ok|done|done|done|done|by rewrite Z2Nat.id|by vm_compute].
Defined.

Lemma world_supply :
  EvmOk (KC := allCodes) (SL := stateDBLaws) (supply (BalanceLaws := balanceLaws) (eState World.evm)) (eState World.evm) World.evm.
Proof.
  assert (E : supply (BalanceLaws := balanceLaws) (eState World.evm) = 1000) by (by vm_compute).
  rewrite E. apply world_evm_ok.
Qed.

Lemma calls_create_no_ether_witness :
  exists r e', invoke World.env (Z.to_nat 60000) World.caller 50000 (ICall 9 [] 3) World.evm = (Ok r, e') /\
    supply (BalanceLaws := balanceLaws) (eState e') <= supply (BalanceLaws := balanceLaws) (eState World.evm) /\
    forall a, is_address a -> 0 <= VmCore.GetBalance a (eState e').
Proof.
  eexists _, _. split; [vm_compute; reflexivity|].
  eapply (calls_create_no_ether World.env ltac:(done) eq_refl (Z.to_nat 60000) World.caller 50000 (ICall 9 [] 3)
    World.evm); [exact world_supply|by vm_compute|by split_and!|done|by rewrite Z2Nat.id|vm_compute; reflexivity].
Defined.

(** The second round of the writer. *)
Definition writerContract : Contract :=
  SetCallCode (NewContract World.caller 9 3 50000) 9 (Keccak256 World.writer) World.writer.
Definition machine : VM World.statedb := mkVM 2 World.evm writerContract NewMemory [5].

Lemma machine_ok : MachineOk (KC := allCodes) (SL := stateDBLaws) 1000 World.start machine.
Proof.
  split; [done|apply world_evm_ok|by split|done| |done]. by repeat constructor.
Qed.

Lemma rounds_keep_the_bounds_witness :
  exists v', step World.env (calleeOf World.env (loop World.env (Z.to_nat 60000))) machine = (Ok None, v') /\
    Z.of_nat (length (vmStack v')) <= 1024 /\ Forall is_word (vmStack v') /\
    mLen (vmMemory v') <= 0xffffffffe0 /\ 0 <= vmPc v' < 2 ^ 62 + 64 /\ 0 <= gasOf v' < 50000.
Proof.
  eexists. split; [vm_compute; reflexivity|].
  eapply (rounds_keep_the_bounds World.env ltac:(done) eq_refl 1000 (Z.to_nat 60000) World.start machine);
    [done|apply machine_ok|by rewrite Z2Nat.id|by rewrite Z2Nat.id|vm_compute; reflexivity].
Defined.
