(* ===== verification/TransitionProofs.v ===== *)
(** * Package core: lemmas about the state transition

    Proved against the interface of the state database: what a message costs, what it
    leaves in the gas pool, and that it keeps the EVM well-formed. *)

From stdpp Require Import base numbers list gmap sets option.
From Stdlib Require Import ZArith Lia Strings.Byte.
From S2P Require Import Prelude Common Params Types VmCore VmGas VmOps VmPrecompiled VmInterp VmArithmetic VmGasProofs VmFuel VmStateSpec VmStateProofs VmAnalysis VmProperties VmSafety VmSafeOps VmSafeLoop VmSafetyProperties Transactions Transition.

(** ** Messages *)

(** What the types of a message and the decoding of its integers allow; its gas below
    the limit that the machine is verified for. *)
Record MessageOk (m : Message) : Prop := {
  mk_from : is_address (msgFrom m);
  mk_to : forall a, msgTo m = Some a -> is_address a;
  mk_amount : 0 <= msgAmount m;
  mk_price : 0 <= msgGasPrice m;
  mk_gas : 0 <= msgGasLimit m < 2 ^ 60;
  mk_data : small (msgData m)
}.

(** ** Gas *)

Lemma nonZeroBytes_le data : 0 <= nonZeroBytes data <= Z.of_nat (length data).
Proof. unfold nonZeroBytes. pose proof (length_filter (fun b => byte_to_Z b <> 0) data). lia. Qed.

(** The intrinsic gas is a base and a price for each byte, without overflow. *)
Lemma IntrinsicGas_spec data creation homestead :
  small data ->
  IntrinsicGas data creation homestead =
  Ok ((if creation && homestead then 53000 else 21000) + 68 * nonZeroBytes data +
      4 * (Z.of_nat (length data) - nonZeroBytes data)) \/
  IntrinsicGas data creation homestead = Err (errVM ErrOutOfGas).
Proof.
  unfold small. intros Hd. pose proof (nonZeroBytes_le data) as Hnz. unfold IntrinsicGas. cbv zeta.
  change TxGasContractCreation with 53000. change TxGas with 21000. change TxDataNonZeroGas with 68.
  change TxDataZeroGas with 4. change MaxUint64 with (2 ^ 64 - 1). set (g := if creation && homestead then 53000 else 21000).
  assert (Hg : 21000 <= g <= 53000) by (unfold g; destruct (_ && _); lia).
  destruct data as [|b r]; [left; f_equal; change (nonZeroBytes []) with 0; cbn [length]; lia|].
  set (data := b :: r) in *. destruct (Z.ltb_spec ((2 ^ 64 - 1 - g) / 68) (nonZeroBytes data)) as [|H1]; [by right|].
  assert (H1' : 68 * nonZeroBytes data <= 2 ^ 64 - 1 - g).
  { pose proof (Z.mul_div_le (2 ^ 64 - 1 - g) 68 ltac:(lia)). lia. }
  rewrite (u64_small (nonZeroBytes data * 68)) by (unfold is_u64; lia).
  rewrite (u64_small (g + _)) by (unfold is_u64; lia). rewrite (u64_small (Z.of_nat (length data) - _)) by (unfold is_u64; lia).
  destruct (Z.ltb_spec ((2 ^ 64 - 1 - (g + nonZeroBytes data * 68)) / 4) (Z.of_nat (length data) - nonZeroBytes data)) as [|H2]; [by right|].
  assert (H2' : 4 * (Z.of_nat (length data) - nonZeroBytes data) <= 2 ^ 64 - 1 - (g + nonZeroBytes data * 68)).
  { pose proof (Z.mul_div_le (2 ^ 64 - 1 - (g + nonZeroBytes data * 68)) 4 ltac:(lia)). lia. }
  left. rewrite (u64_small ((_ - _) * 4)), u64_small by (unfold is_u64; lia). f_equal. lia.
Qed.

Lemma IntrinsicGas_ge data creation homestead gas :
  small data -> IntrinsicGas data creation homestead = Ok gas -> 21000 <= gas.
Proof.
  intros Hd E. pose proof (nonZeroBytes_le data). destruct (IntrinsicGas_spec data creation homestead Hd) as [E'|E'];
    rewrite E in E'; [|done]. injection E' as ->. destruct (_ && _); lia.
Qed.

(** ** The interpreter *)

Section Interpreter.
Context {CR : Crypto} {NC : NativeCrypto} {S : Type} {SDB : StateDB S} (env : Env) (msg : Message).
Context (l1 l2 : M (VM S) vmErr (list byte * option vmErr)) (HL : Finer l1 l2).

Lemma runEvm_finer {A} (m1 m2 : M (EVM S) vmErr A) : Finer m1 m2 -> Finer (runEvm m1) (runEvm m2).
Proof.
  intros H st. unfold runEvm. destruct (H (stEvm st)) as [E|E]; [left|right; by rewrite E].
  destruct (m1 (stEvm st)) as [r e]. cbn in E. by subst r.
Qed.

Lemma ApplyMessage_finer e gp :
  fst (ApplyMessage env msg l1 e gp) = NoFuel \/ ApplyMessage env msg l1 e gp = ApplyMessage env msg l2 e gp.
Proof.
  assert (Hx : Finer (execute env msg l1) (execute env msg l2)).
  { unfold execute. apply Finer_bind; [apply Finer_refl|intros st].
    destruct (calls_loop_finer env _ _ HL (AccountRef (msgFrom msg)) (stGas st)) as (H1 & _ & _ & _ & H5).
    destruct (msgTo msg) as [to|]; (apply Finer_bind; [|intros; try apply Finer_refl]); [apply Finer_refl|..];
      by apply runEvm_finer. }
  unfold ApplyMessage, TransitionDb. apply Finer_bind; [apply Finer_refl|intros _]. cbv zeta.
  do 2 (apply Finer_bind; [apply Finer_refl|intros ?]). apply Finer_bind; [exact Hx|]. intros [[out g] err]. apply Finer_refl.
Qed.
End Interpreter.

Definition isNoFuel {E A : Type} (r : result E A) : bool := match r with NoFuel => true | _ => false end.

Lemma negb_isNoFuel {E A} (r : result E A) : negb (isNoFuel r) = true -> r <> NoFuel.
Proof. by destruct r. Qed.

Lemma mbind_fuel {St E A B} (m : M St E A) (k : A -> M St E B) s : fst (Prelude.mbind m k s) <> NoFuel -> fst (m s) <> NoFuel.
Proof. unfold Prelude.mbind. by destruct (m s) as [[] ?]. Qed.

Section Lemmas.
Context {CR : Crypto} {KC : KnownCodes} {NC : NativeCrypto} {NL : NativeLaws} {S : Type} {SDB : StateDB S} {SL : StateDBLaws S}
  {BL : BalanceLaws S} {FL : SafetyLaws S} {RL : RefundLaws S}.
Context (env : Env) (metered : DisableGasMetering (vmConfig env) = false).
Context (msg : Message) (Hmsg : MessageOk msg) (same_price : GasPrice (ctx env) = msgGasPrice msg).
Notation from := (msgFrom msg).
Notation price := (msgGasPrice msg).

(** Between messages: the EVM well-formed, with no more than [W] ether. *)
Record EvmInv (W : Z) (e : EVM S) : Prop := {
  ei_ok : sOk (eState e);
  ei_inv : StateInv W (eState e);
  ei_cache : CacheOk (eJumpdests e);
  ei_return : small (eReturnData e);
  ei_refund : is_u64 (GetRefund (eState e))
}.

Lemma EvmInv_EvmOk W e : EvmInv W e -> EvmOk W (eState e) e.
Proof. intros []. by apply evm_ok_self. Qed.

Lemma EvmInv_supply W e : EvmInv W e -> EvmInv (supply (eState e)) e.
Proof. intros [Hok [Hc Hb Hs Ht] ? ? ?]. by split. Qed.

Lemma EvmInv_quiet W e u : quiet u -> EvmInv W e -> EvmInv W (evm_with_state e (runUpdate u (eState e))).
Proof.
  intros Hq [Hok Hi ? ? ?]. split; try done; cbn [eState evm_with_state].
  - by apply update_ok.
  - by apply quiet_inv.
  - by apply update_refund.
Qed.

Lemma EvmInv_add W e a x : is_address a -> 0 <= x -> EvmInv W e -> EvmInv (W + x) (evm_with_state e (AddBalance a x (eState e))).
Proof.
  intros Ha Hx [Hok [Hc Hb Hs Ht] ? ? ?]. split; try done; cbn [eState evm_with_state].
  - by apply (update_ok (UAddBalance a x)).
  - split.
    + by apply (update_code (UAddBalance a x)).
    + intros d Hd. rewrite balance_add by done. specialize (Hb d Hd). destruct (a =? d); lia.
    + rewrite supply_add by done. lia.
    + by apply (update_tidy (UAddBalance a x)).
  - by apply (update_refund (UAddBalance a x)).
Qed.

Lemma EvmInv_sub W e a x :
  is_address a -> x <= GetBalance a (eState e) -> EvmInv W e -> EvmInv (W - x) (evm_with_state e (SubBalance a x (eState e))).
Proof.
  intros Ha Hx [Hok [Hc Hb Hs Ht] ? ? ?]. split; try done; cbn [eState evm_with_state].
  - by apply (update_ok (USubBalance a x)).
  - split.
    + by apply (update_code (USubBalance a x)).
    + intros d Hd. rewrite balance_sub by done. specialize (Hb d Hd). destruct (Z.eqb_spec a d); subst; lia.
    + rewrite supply_sub by done. lia.
    + by apply (update_tidy (USubBalance a x)).
  - by apply (update_refund (USubBalance a x)).
Qed.

(** ** Execution *)

(** The state that a failed execution goes back to. *)
Definition startState (s : S) : S := SetNonce from (u64 (GetNonce from s + 1)) s.

(** The errors that take everything back: creations before Homestead keep an account
    without code when they cannot pay for storing it. *)
Definition rollsBack (x : vmErr) : Prop :=
  (IsHomestead (chainConfig env) (envNumber env) = true \/ x <> ErrCodeStoreOutOfGas).

(** What running the message gives. *)
Definition ExecPost (W gas : Z) (s : S) (r : result vmErr (list byte * Z * option vmErr)) (e' : EVM S) : Prop :=
  match r with
  | Ok (out, gasLeft, err) =>
      0 <= gasLeft <= gas /\ EvmInv W e' /\
      (forall x, err = Some x -> rollsBack x -> sEq (startState s) (eState e'))
  | Err _ | NoFuel => False
  | Panic => clash
  end.

Lemma u60_u64 gas : 0 <= gas < 2 ^ 60 -> is_u64 gas.
Proof. unfold is_u64. lia. Qed.

Section Running.
Context (W gas : Z) (fuel : nat) (e : EVM S).
Context (HW : W < 2 ^ 256) (Hgas : 0 <= gas < 2 ^ 60) (Hfuel : gas < Z.of_nat fuel).
Context (Hprice : is_word price) (He : EvmInv W e) (Hdepth : eDepth e = 0).
Context (Hrich : msgAmount msg <= GetBalance from (eState e)).

Lemma price_word : is_word (GasPrice (ctx env)).
Proof. by rewrite same_price. Qed.

Lemma amount_word : is_word (msgAmount msg).
Proof.
  pose proof (balance_word W (eState e) from HW (ei_ok _ _ He) (ei_inv _ _ He) (mk_from _ Hmsg)) as Hb.
  pose proof (mk_amount _ Hmsg). unfold is_word in *. lia.
Qed.

Lemma call_exec to :
  is_address to ->
  let e1 := evm_with_state e (startState (eState e)) in
  fst (Call env (loopOn knownCode env fuel) (AccountRef from) to (msgData msg) gas (msgAmount msg) e1) <> NoFuel ->
  let r := Call env (loop env fuel) (AccountRef from) to (msgData msg) gas (msgAmount msg) e1 in
  ExecPost W gas (eState e) (fst r) (snd r).
Proof.
  intros Hto e1 Hon. assert (He1 : EvmInv W e1) by (apply (EvmInv_quiet W e (USetNonce from _)); [apply Hmsg|done]).
  pose proof (invoke_gas (S := S) env fuel (AccountRef from) gas (ICall to (msgData msg) (msgAmount msg)) metered (u60_u64 _ Hgas) Hfuel e1) as [Hn Hl].
  destruct (invoke_good env true _ fuel (AccountRef from) gas (ICall to (msgData msg) (msgAmount msg)) refund_rel (or_introl eq_refl) e1)
    as ([_ Hr] & _ & Hne & Hf); [apply He1|by left|].
  pose proof (invoke_safe W HW env price_word metered fuel (AccountRef from) gas (ICall to (msgData msg) (msgAmount msg)) e1 Hon) as Hs.
  unfold wpE, invoke in *. cbn [invokeBy] in *.
  assert (Hi : invocationOk (AccountRef from) (ICall to (msgData msg) (msgAmount msg))).
  { split; [apply Hmsg|]. split_and!; [done|apply Hmsg|apply amount_word]. }
  specialize (Hs Hi Hgas (EvmInv_EvmOk W e1 He1)). cbv zeta.
  clear Hon. destruct (Call env (loop env fuel) _ _ _ _ _ e1) as [[[[out gasLeft] err]|x| |] e']; cbn [fst snd] in *; try done; [|by destruct (Hne x)].
  destruct Hs as [_ [[Hok _] Hinv Hcache Hret]]. split_and!.
  - by apply (Hl (out, gasLeft, err)).
  - by apply (Hl (out, gasLeft, err)).
  - split; try done. apply Hr, He1.
  - intros x -> _. by apply (Hf (out, gasLeft, Some x) x).
Qed.

Lemma create_exec :
  fst (Create env (loopOn knownCode env fuel) (AccountRef from) (msgData msg) gas (msgAmount msg) e) <> NoFuel ->
  let r := Create env (loop env fuel) (AccountRef from) (msgData msg) gas (msgAmount msg) e in
  match r with
  | (Ok (out, _, gasLeft, err), e') => ExecPost W gas (eState e) (Ok (out, gasLeft, err)) e'
  | (Panic, _) => clash
  | _ => False
  end.
Proof.
  intros Hon. pose proof (Create_gas env _ _ (loop_gas (S := S) env fuel metered) (AccountRef from) (msgData msg) gas (msgAmount msg) (u60_u64 _ Hgas) Hfuel e) as [Hn Hl].
  destruct (Create_good true _ refund_rel env (loop env fuel) (loop_ok true _ refund_rel env fuel) (AccountRef from) (msgData msg) gas (msgAmount msg) e)
    as ([_ Hr] & _ & Hne & Hf); [done|apply He|by left|].
  pose proof (create_safe W HW env price_word metered fuel (AccountRef from) gas (msgData msg) (msgAmount msg) e Hon
    (mk_from _ Hmsg) (mk_data _ Hmsg) amount_word Hgas (EvmInv_EvmOk W e He)) as Hs.
  unfold wpE in Hs. cbv zeta.
  clear Hon. destruct (Create env (loop env fuel) _ _ _ _ e) as [[[[[out addr] gasLeft] err]|x| |] e']; cbn [fst snd] in *; try done; [|by destruct (Hne x)].
  destruct Hs as [_ [[Hok _] Hinv Hcache Hret]]. split_and!.
  - by apply (Hl (out, addr, gasLeft, err)).
  - by apply (Hl (out, addr, gasLeft, err)).
  - split; try done. apply Hr, He.
  - intros x -> Hx. unfold rollsBack in Hx. specialize (Hf (out, addr, gasLeft, Some x) x eq_refl). unfold createErr in Hf. cbn [snd] in Hf.
    replace (_ || _) with true in Hf by (destruct Hx as [->|Hx]; [done|rewrite (bool_decide_eq_false_2 _ Hx), orb_true_r; done]).
    unfold createStart in Hf. rewrite Hdepth in Hf. cbn [refAddress] in Hf.
    replace (0 >? CallCreateDepth) with false in Hf by done.
    destruct (negb (CanTransfer (eState e) from (msgAmount msg))) eqn:Ec; [|by apply Hf].
    unfold CanTransfer in Ec. rewrite Z.geb_leb in Ec. apply negb_true_iff, Z.leb_gt in Ec. lia.
Qed.
End Running.

(** A sender who cannot pay the amount is told so. *)
Lemma poor_exec loopF st :
  eDepth (stEvm st) = 0 -> sOk (stState st) -> GetBalance from (stState st) < msgAmount msg ->
  exists out gas st', execute env msg loopF st = (Ok (out, gas, Some ErrInsufficientBalance), st') /\
    (stState st' = stState st \/ stState st' = startState (stState st)) /\
    eJumpdests (stEvm st') = eJumpdests (stEvm st) /\ eReturnData (stEvm st') = eReturnData (stEvm st) /\ stGp st' = stGp st.
Proof.
  intros Hd Hok Hp. unfold execute, mbind, gets. destruct (msgTo msg) as [to|].
  - unfold stUpdate, modify, runEvm, Call, mbind, gets. cbn [stEvm st_with_evm evm_with_state eDepth eState].
    fold (startState (stState st)). rewrite Hd. change (0 >? 0) with false. rewrite andb_false_r. change (0 >? CallCreateDepth) with false. cbn [refAddress].
    assert (Hc : CanTransfer (startState (stState st)) from (msgAmount msg) = false).
    { unfold CanTransfer. rewrite Z.geb_leb. apply Z.leb_gt.
      change (startState (stState st)) with (runUpdate (USetNonce from (u64 (GetNonce from (stState st) + 1))) (stState st)).
      by rewrite (balance_quiet (USetNonce from _)) by (done || apply Hmsg). }
    rewrite Hc. cbn [negb ret]. eexists _, _, _. split; [reflexivity|]. split; [by right|]. done.
  - unfold runEvm, Create, mbind, gets. rewrite Hd. change (0 >? CallCreateDepth) with false. cbn [refAddress].
    assert (Hc : CanTransfer (eState (stEvm st)) from (msgAmount msg) = false).
    { unfold CanTransfer. rewrite Z.geb_leb. by apply Z.leb_gt. }
    rewrite Hc. cbn [negb ret]. eexists _, _, _. split; [reflexivity|]. split; [by left|]. done.
Qed.

Lemma rich_exec W fuel st :
  W < 2 ^ 256 -> 0 <= stGas st < 2 ^ 60 -> stGas st < Z.of_nat fuel -> is_word price -> EvmInv W (stEvm st) ->
  eDepth (stEvm st) = 0 -> msgAmount msg <= GetBalance from (stState st) ->
  fst (execute env msg (loopOn knownCode env fuel) st) <> NoFuel ->
  exists r e', execute env msg (loop env fuel) st = (r, st_with_evm e' st) /\
    match r with
    | Ok x => ExecPost W (stGas st) (stState st) (Ok x) e'
    | Panic => clash
    | _ => False
    end.
Proof.
  intros HW Hg Hf Hp He Hd Hr. unfold execute. intros Hon. unfold mbind at 1, gets at 1. unfold mbind at 1, gets at 1 in Hon.
  destruct (msgTo msg) as [to|] eqn:Eto.
  - pose proof (call_exec W (stGas st) fuel (stEvm st) HW Hg Hf Hp He Hr to (mk_to _ Hmsg to Eto)) as H. cbv zeta in H.
    unfold mbind, stUpdate, modify, runEvm in *. cbn [stEvm st_with_evm] in *. fold (startState (stState st)) in *.
    assert (Hc : fst (Call env (loopOn knownCode env fuel) (AccountRef from) to (msgData msg) (stGas st) (msgAmount msg)
      (evm_with_state (stEvm st) (startState (eState (stEvm st))))) <> NoFuel).
    { destruct (Call env (loopOn knownCode env fuel) _ _ _ _ _ _) as [[] ?]; done. }
    specialize (H Hc). destruct (Call env (loop env fuel) _ _ _ _ _ _) as [r e']. cbn [fst snd] in H. eexists _, e'.
    split; [reflexivity|]. by destruct r as [[[out l] err]|x| |].
  - pose proof (create_exec W (stGas st) fuel (stEvm st) HW Hg Hf Hp He Hd Hr) as H. cbv zeta in H. apply mbind_fuel in Hon.
    unfold mbind, runEvm in *.
    assert (Hc : fst (Create env (loopOn knownCode env fuel) (AccountRef from) (msgData msg) (stGas st) (msgAmount msg) (stEvm st)) <> NoFuel).
    { destruct (Create env (loopOn knownCode env fuel) _ _ _ _ _) as [[] ?]; done. }
    specialize (H Hc). destruct (Create env (loop env fuel) _ _ _ _ _) as [[[[[out addr] l] err]|x| |] e']; try done;
      eexists _, e'; by split; [reflexivity|].
Qed.

(** ** The transition *)

Definition fee (gas : Z) : Z := gas * price.

(** Applied: the gas is accounted for, and the state is that of the execution with the
    rest of the gas paid back and the fee paid. *)
Record Applied (gp : Z) (s : S) (used : Z) (failed : bool) (st' : StateTransition S) : Prop := {
  ap_used : 0 < used <= msgGasLimit msg;
  ap_pool : stGp st' = gp - used;
  ap_nonce : msgCheckNonce msg = true -> GetNonce from s = msgNonce msg;
  ap_funds : fee (msgGasLimit msg) <= GetBalance from s;
  ap_evm : EvmInv (supply s) (stEvm st');
  ap_state : exists mid, sOk mid /\ stState st' = AddBalance (Coinbase (ctx env)) (fee used) (AddBalance from (fee (msgGasLimit msg - used)) mid) /\
    (failed = true -> IsHomestead (chainConfig env) (envNumber env) = true ->
     sEq (startState (SubBalance from (fee (msgGasLimit msg)) s)) mid)
}.

(** The transition after buying the gas. *)
Definition bought (st : StateTransition S) : StateTransition S :=
  mkTransition (stGp st - msgGasLimit msg) (msgGasLimit msg) (msgGasLimit msg)
    (evm_with_state (stEvm st) (SubBalance from (fee (msgGasLimit msg)) (stState st))).

(** The refusals before the gas is bought. *)
Definition Rejected (e : txErr) : Prop :=
  match e with
  | ErrNonceTooHigh | ErrNonceTooLow | ErrGasLimitReached | errInsufficientBalanceForGas => True
  | _ => False
  end.

Lemma buyGas_spec (st : StateTransition S) :
  stGas st = 0 ->
  match buyGas msg st with
  | (Ok _, st') => fee (msgGasLimit msg) <= GetBalance from (stState st) /\ msgGasLimit msg <= stGp st /\ st' = bought st
  | (Err x, st') => Rejected x /\ st' = st
  | _ => False
  end.
Proof.
  intros Hg. pose proof (mk_gas _ Hmsg). unfold buyGas. cbv zeta. rewrite Hg, u64_small by (unfold is_u64; lia).
  fold (fee (msgGasLimit msg)). destruct (Z.ltb_spec (GetBalance from (stState st)) (fee (msgGasLimit msg))); [done|].
  unfold SubGas. by destruct (Z.ltb_spec (stGp st) (msgGasLimit msg)).
Qed.

Lemma preCheck_spec (st : StateTransition S) :
  stGas st = 0 ->
  match preCheck msg st with
  | (Ok _, st') =>
      (msgCheckNonce msg = true -> GetNonce from (stState st) = msgNonce msg) /\
      fee (msgGasLimit msg) <= GetBalance from (stState st) /\ msgGasLimit msg <= stGp st /\ st' = bought st
  | (Err x, st') => Rejected x /\ st' = st
  | _ => False
  end.
Proof.
  intros Hg. pose proof (buyGas_spec st Hg) as H. unfold preCheck, mbind, gets.
  destruct (msgCheckNonce msg); cbn [throw ret]; [|by destruct (buyGas msg st) as [[]]].
  destruct (Z.ltb_spec (GetNonce from (stState st)) (msgNonce msg)); [done|]. rewrite Z.gtb_ltb.
  destruct (Z.ltb_spec (msgNonce msg) (GetNonce from (stState st))); [done|]. cbn [ret].
  destruct (buyGas msg st) as [[]]; try done. destruct H as (? & ? & ?). split_and!; try done. lia.
Qed.

(** After the execution with [g] gas left, of [st]'s state [mid]. *)
Lemma refund_spec W (st : StateTransition S) :
  0 <= stGas st <= stInitialGas st -> stInitialGas st < 2 ^ 60 -> EvmInv W (stEvm st) ->
  0 <= stGp st -> stGp st + stInitialGas st < 2 ^ 64 -> 2 <= stInitialGas st - stGas st ->
  exists gas, stGas st <= gas < stInitialGas st /\
    refundGas msg st = (Ok tt, mkTransition (stGp st + gas) gas (stInitialGas st)
      (evm_with_state (stEvm st) (AddBalance from (fee gas) (stState st)))).
Proof.
  intros Hg Hi He Hgp Hsum H2. unfold refundGas, gasUsed, AddGas. cbv zeta. change MaxUint64 with (2 ^ 64 - 1).
  rewrite (u64_small (stInitialGas st - stGas st)) by (unfold is_u64; lia).
  pose proof (ei_refund _ _ He) as Hr. unfold is_u64 in Hr. set (q := (stInitialGas st - stGas st) / 2). set (r := if q >? GetRefund (stState st) then GetRefund (stState st) else q).
  assert (Hrange : 0 <= r <= q).
  { unfold r, stState. rewrite Z.gtb_ltb. pose proof (Z.div_pos (stInitialGas st - stGas st) 2 ltac:(lia) ltac:(lia)).
    destruct (Z.ltb_spec (GetRefund (eState (stEvm st))) q); unfold q in *; lia. }
  pose proof (Z.mul_div_le (stInitialGas st - stGas st) 2 ltac:(lia)). fold q in H.
  rewrite u64_small by (unfold is_u64; lia). exists (stGas st + r). split; [lia|]. cbn [stGp st_with_evm st_with_gas].
  rewrite Z.gtb_ltb. destruct (Z.ltb_spec (2 ^ 64 - 1 - (stGas st + r)) (stGp st)); [lia|].
  by rewrite u64_small by (unfold is_u64; lia).
Qed.

(** Refused after that: the gas is bought and not paid back, and the sender's nonce may
    have grown; nothing else has changed. *)
Record Forfeited (gp : Z) (s : S) (st' : StateTransition S) : Prop := {
  ff_funds : fee (msgGasLimit msg) <= GetBalance from s;
  ff_pool : stGp st' = gp - msgGasLimit msg;
  ff_state : let s1 := SubBalance from (fee (msgGasLimit msg)) s in
    sEq s1 (stState st') \/ sEq (startState s1) (stState st')
}.

(** The errors of a message, and what each leaves. *)
Definition Refused (gp : Z) (e : EVM S) (x : txErr) (st' : StateTransition S) : Prop :=
  match x with
  | errVM ErrOutOfGas | errVM ErrInsufficientBalance => Forfeited gp (eState e) st'
  | _ => Rejected x /\ st' = NewStateTransition e gp
  end.

Definition TransPost (gp : Z) (e : EVM S) (r : result txErr (list byte * Z * bool)) (st' : StateTransition S) : Prop :=
  match r with
  | Ok (out, used, failed) => Applied gp (eState e) used failed st'
  | Err x => Refused gp e x st' /\ EvmInv (supply (eState e)) (stEvm st')
  | Panic => clash
  | NoFuel => False
  end.

Lemma price_small W st gas :
  W < 2 ^ 256 -> EvmInv W (stEvm st) -> fee gas <= GetBalance from (stState st) -> 1 <= gas -> is_word price.
Proof.
  intros HW He Hf Hg. pose proof (mk_price _ Hmsg). pose proof (balance_word W _ from HW (ei_ok _ _ He) (ei_inv _ _ He) (mk_from _ Hmsg)) as Hb.
  unfold is_word, fee, stState in *. nia.
Qed.

Lemma EvmInv_le W W' e : W <= W' -> EvmInv W e -> EvmInv W' e.
Proof. intros HW [? [? ? ? ?] ? ? ?]. split; try done. split; try done. lia. Qed.

Lemma fee_nonneg gas : 0 <= gas -> 0 <= fee gas.
Proof. intros Hg. pose proof (mk_price _ Hmsg). unfold fee. nia. Qed.

(** The end of the transition: refund and fee. *)
Lemma finish_spec W (st : StateTransition S) (k : Z -> result txErr (list byte * Z * bool)) :
  is_address (Coinbase (ctx env)) ->
  0 <= stGas st <= stInitialGas st -> stInitialGas st = msgGasLimit msg -> EvmInv W (stEvm st) ->
  0 <= stGp st -> stGp st + stInitialGas st < 2 ^ 64 -> 2 <= stInitialGas st - stGas st ->
  exists used st', 0 < used <= msgGasLimit msg /\
    (let! _ := refundGas msg in let! st := gets (fun st => st) in
     let! _ := stUpdate (AddBalance (Coinbase (ctx env)) (gasUsed st * price)) in
     (fun st' => (k (gasUsed st), st'))) st = (k used, st') /\
    stGp st' = stGp st + msgGasLimit msg - used /\ EvmInv (W + fee (msgGasLimit msg)) (stEvm st') /\
    stState st' = AddBalance (Coinbase (ctx env)) (fee used) (AddBalance from (fee (msgGasLimit msg - used)) (stState st)).
Proof.
  intros Hcb Hg Hi He Hgp Hsum H2. pose proof (mk_gas _ Hmsg) as Hm.
  destruct (refund_spec W st Hg ltac:(lia) He Hgp Hsum H2) as (gas & Hgas & Er). unfold mbind. rewrite Er. cbn [gets stUpdate modify].
  set (st1 := mkTransition _ _ _ _). assert (Hu : gasUsed st1 = msgGasLimit msg - gas).
  { unfold gasUsed. cbn. rewrite Hi. apply u64_small. unfold is_u64. lia. }
  exists (msgGasLimit msg - gas). eexists. split; [lia|]. rewrite Hu. split; [reflexivity|].
  replace (msgGasLimit msg - (msgGasLimit msg - gas)) with gas by lia.
  cbn [stGp stEvm st_with_evm st1 stState evm_with_state eState]. split_and!; [lia| |done].
  replace (fee (msgGasLimit msg)) with (fee gas + fee (msgGasLimit msg - gas)) by (unfold fee; lia).
  rewrite Z.add_assoc. pose proof (EvmInv_add W (stEvm st) from (fee gas) (mk_from _ Hmsg) (fee_nonneg gas ltac:(lia)) He) as He1.
  apply (EvmInv_add _ (evm_with_state (stEvm st) (AddBalance from (fee gas) (stState st))) (Coinbase (ctx env))
    (fee (msgGasLimit msg - gas)) Hcb); [apply fee_nonneg; lia|exact He1].
Qed.

Lemma EvmInv_same W e e' :
  eState e' = eState e -> eJumpdests e' = eJumpdests e -> eReturnData e' = eReturnData e -> EvmInv W e -> EvmInv W e'.
Proof. intros E1 E2 E3 []. split; by rewrite ?E1, ?E2, ?E3. Qed.

Lemma Rejected_refused gp e x st' :
  EvmInv (supply (eState e)) e -> Rejected x /\ st' = NewStateTransition e gp ->
  Refused gp e x st' /\ EvmInv (supply (eState e)) (stEvm st').
Proof. intros He [Hx ->]. by destruct x. Qed.

Lemma transition_spec W fuel e gp :
  is_address (Coinbase (ctx env)) -> supply (eState e) < 2 ^ 256 -> EvmInv W e -> eDepth e = 0 ->
  0 <= gp < 2 ^ 64 -> msgGasLimit msg < Z.of_nat fuel ->
  fst (ApplyMessage env msg (loopOn knownCode env fuel) e gp) <> NoFuel ->
  let '(r, st') := ApplyMessage env msg (loop env fuel) e gp in TransPost gp e r st'.
Proof.
  intros Hcb HW He0 Hd Hgp Hf Hon. pose proof (EvmInv_supply W e He0) as He. clear He0. cbv zeta.
  pose proof (mk_gas _ Hmsg) as Hm. pose proof (fee_nonneg (msgGasLimit msg) ltac:(lia)) as Hfee.
  unfold ApplyMessage, TransitionDb in *. unfold mbind at 1. unfold mbind at 1 in Hon.
  pose proof (preCheck_spec (NewStateTransition e gp) eq_refl) as Hpre.
  destruct (preCheck msg (NewStateTransition e gp)) as [[[]|x| |] st1]; try done; [|by apply Rejected_refused].
  destruct Hpre as (Hn & Hfunds & Hle & ->). cbn [NewStateTransition stGp stState stEvm] in Hn, Hfunds, Hle.
  set (s1 := SubBalance from (fee (msgGasLimit msg)) (eState e)).
  assert (He1 : EvmInv (supply (eState e) - fee (msgGasLimit msg)) (evm_with_state e s1)) by (by apply EvmInv_sub; [apply Hmsg|..]).
  assert (He1' : EvmInv (supply (eState e)) (evm_with_state e s1)) by (eapply EvmInv_le; [|done]; lia).
  assert (Hff : forall st, stGp st = gp - msgGasLimit msg -> sEq s1 (stState st) \/ sEq (startState s1) (stState st) ->
    Forfeited gp (eState e) st) by (by split).
  unfold mbind at 1, lift at 1. unfold mbind at 1, lift at 1 in Hon.
  destruct (IntrinsicGas_spec (msgData msg) (bool_decide (msgTo msg = None)) (IsHomestead (chainConfig env) (envNumber env))
    (mk_data _ Hmsg)) as [Eig|Eig].
  2: { rewrite Eig. split; [apply Hff; [done|by left]|done]. }
  rewrite Eig in Hon |- *. apply IntrinsicGas_ge in Eig; [|apply Hmsg]. set (ig := _ + _) in *. clearbody ig.
  unfold mbind at 1, useGas. unfold mbind at 1, useGas in Hon. cbn [bought stGas NewStateTransition] in Hon |- *.
  destruct (Z.ltb_spec (msgGasLimit msg) ig); [split; [apply Hff; [done|by left]|done]|].
  set (st2 := st_with_gas _ _) in *. assert (Hs2 : stState st2 = s1) by done. assert (Hd2 : eDepth (stEvm st2) = 0) by done.
  apply mbind_fuel in Hon. unfold mbind at 1.
  destruct (Z.lt_ge_cases (GetBalance from (stState st2)) (msgAmount msg)) as [Hpoor|Hrich].
  { destruct (poor_exec (loop env fuel) st2 Hd2 (ei_ok _ _ He1) Hpoor) as (out & g & st3 & -> & Hst & Ej & Er & Eg). cbn.
    assert (He3 : EvmInv (supply (eState e)) (evm_with_state (stEvm st2) (stState st3))).
    { destruct Hst as [->| ->]; [done|]. apply (EvmInv_quiet _ (stEvm st2) (USetNonce from _)); [apply Hmsg|done]. }
    split; [|by eapply EvmInv_same; [..|exact He3]]. apply Hff; [exact Eg|].
    change (stState (st_with_gas g st3)) with (stState st3). by destruct Hst as [->| ->]; [left|right]. }
  assert (Hprice : is_word price). { apply (price_small (supply (eState e)) (NewStateTransition e gp) (msgGasLimit msg)); try done. lia. }
  destruct (rich_exec (supply (eState e) - fee (msgGasLimit msg)) fuel st2) as (r & e' & -> & Hr); try done; try (cbn; lia).
  destruct r as [[[out g] err]|x| |]; try done. destruct Hr as (Hg & He' & Hback). cbn [stGas st2 st_with_gas] in Hg.
  unfold mbind at 1, modify at 1. set (st3 := st_with_gas g _).
  destruct (bool_decide (err = Some ErrInsufficientBalance)) eqn:Eib.
  { apply bool_decide_eq_true in Eib. split; [|eapply EvmInv_le; [|exact He']; lia].
    apply Hff; [done|]. right. by apply (Hback _ Eib); right. }
  apply bool_decide_eq_false in Eib. set (failed := negb (bool_decide (err = None))).
  destruct (finish_spec (supply (eState e) - fee (msgGasLimit msg)) st3 (fun used => Ok (out, used, failed)))
    as (used & st' & Hu & E & Egp & He4 & Es); try done; try (cbn; lia).
  unfold ret. rewrite E. cbn [fst snd TransPost]. split; try done.
  - rewrite Egp. cbn. lia.
  - replace (supply (eState e)) with (supply (eState e) - fee (msgGasLimit msg) + fee (msgGasLimit msg)) by lia. done.
  - exists (eState e'). split; [apply He'|]. split; [done|]. intros Hfail Hh. unfold failed in Hfail. apply negb_true_iff, bool_decide_eq_false in Hfail.
    destruct err as [x|]; [|done]. apply (Hback x eq_refl). by left.
Qed.
End Lemmas.
