(* ===== verification/ProcessorProofs.v ===== *)
(** * Package core: lemmas about processing blocks

    The invariant of the EVM between the transactions of a block, kept by preparing,
    applying and finalising, on the state database of package core/state. *)

From stdpp Require Import base numbers list gmap sets option functions.
From Stdlib Require Import ZArith Lia Strings.Byte.
From S2P Require Import Prelude Rlp Common Params Types CliqueSnapshot CliqueEngine VmCore VmGas VmOps VmPrecompiled VmInterp VmStateSpec VmStateProofs VmAnalysis VmFuel VmSafety VmSafeOps VmSafeLoop VmSafetyProperties Transactions TransactionProofs Transition TransitionProofs State StateProofs StateLaws StateSafety StateFinalise Receipts Blocks Processor.

Section Blocks.
Context {CR : Crypto} {KC : KnownCodes} {NC : NativeCrypto} {NL : NativeLaws} {D T : Type} {DB : state.Database D T}.
Context {DL : DatabaseLaws} {TL : TrieLaws}.
Notation statedb := (state.StateDB D T).

(** The invariant, with an account trie whose nodes can all be read. *)
Definition WorldInv (W : Z) (e : EVM statedb) : Prop :=
  EvmInv (SL := stateDBLaws) (FL := safetyLawsOn whole) W e.

Lemma WorldInv_le W W' e : W <= W' -> WorldInv W e -> WorldInv W' e.
Proof. apply EvmInv_le. Qed.

(** No other address has the hash of a dirty one. *)
Definition DirtyApart (s : statedb) : Prop := forall a, a ∈ state.stateObjectsDirty s -> AddressApart a.

Lemma WorldInv_FinInv W e : W < 2 ^ 256 -> WorldInv W e -> DirtyApart (eState e) -> FinInv true (eState e).
Proof.
  intros HW [Hok [Hc Hb Hs [Ht Hw]] _ _ _] Hap. split; [apply Hok|done|done| |done|done]. intros a Ha. split; [by apply Hb|].
  pose proof (balance_le_supply (SafetyLaws := safetyLawsOn whole) (eState e) a Hok Hb Ha) as Hle.
  change (VmCore.GetBalance a (eState e)) with (state.GetBalance a (eState e)) in Hle. lia.
Qed.

Lemma WorldInv_finalise W e :
  W < 2 ^ 256 -> WorldInv W e -> DirtyApart (eState e) ->
  exists s', state.Finalise true (eState e) = Some s' /\ Finalised true (eState e) s' /\ WorldInv W (evm_with_state e s').
Proof.
  intros HW He Hap. destruct (Finalise_spec true (eState e) (WorldInv_FinInv W e HW He Hap)) as (s' & E & H). exists s'. split_and!; [done|done|].
  destruct He as [Hok [Hc Hb Hs [Ht Hw]] Hj Hr _]. split; try done; [apply H| |].
  - split.
    + by eapply Finalised_code.
    + intros a Ha. cbn [eState evm_with_state]. specialize (Hb a Ha).
      change (VmCore.GetBalance a s') with (state.GetBalance a s').
      change (VmCore.GetBalance a (eState e)) with (state.GetBalance a (eState e)) in Hb.
      destruct (Finalised_balance _ _ _ a H Ha) as [->| ->]; lia.
    + cbn [eState evm_with_state]. etrans; [|exact Hs]. by eapply Finalised_supply.
    + split; apply H.
  - cbn. unfold state.GetRefund. by rewrite (proj2 (proj2 (fd_cleared _ _ _ H))).
Qed.

(** The fields that [Prepare] sets are not observed. *)
Lemma Prepare_look th bh ti a (s : statedb) : lookObj a (state.Prepare th bh ti s) = lookObj a s.
Proof. by apply lookObj_fields. Qed.

Lemma Prepare_balance th bh ti a (s : statedb) : state.GetBalance a (state.Prepare th bh ti s) = state.GetBalance a s.
Proof. unfold state.GetBalance, state.look. change (fst (state.getStateObject a ?x)) with (lookObj a x). by rewrite Prepare_look. Qed.

Lemma WorldInv_prepare W e th bh ti : WorldInv W e -> WorldInv W (evm_with_state e (state.Prepare th bh ti (eState e))).
Proof.
  intros [Hok [Hc Hb Hs [Ht Hw]] Hj Hr Hf]. split; try done.
  - destruct Hok as [Hd Hjn [R1 R2 R3]]. by split; [..|split].
  - split.
    + rewrite CodeOk_view in *. intros a v Ha. cbn [abs acct eState evm_with_state]. rewrite Prepare_look. by apply Hc.
    + intros a Ha. specialize (Hb a Ha). cbn [eState evm_with_state VmCore.GetBalance state.vmStateDB] in *. by rewrite Prepare_balance.
    + etrans; [|exact Hs]. apply Z.eq_le_incl, sumOver_ext. intros a _. apply Prepare_balance.
    + split; [|done]. by destruct Ht.
Qed.

Lemma WorldInv_reset W e : WorldInv W e -> WorldInv W (evmReset e).
Proof. by apply EvmInv_same. Qed.

(** ** Failed messages *)

(** What a transfer of ether leaves alone. *)
Record SameRest (s s' : statedb) : Prop := {
  sr_nonce : forall a, state.GetNonce a s' = state.GetNonce a s;
  sr_code : forall a, state.GetCode a s' = state.GetCode a s;
  sr_storage : forall a k, state.GetState a k s' = state.GetState a k s;
  sr_logs : forall h, state.GetLogs h s' = state.GetLogs h s
}.

#[local] Instance SameRest_preorder : PreOrder SameRest.
Proof. split; [intros s; by split|]. intros s1 s2 s3 [] []. split; intros; etrans; eauto. Qed.

(** Setting what is seen of one account. *)
Lemma setV_rest (s s' : statedb) a v :
  ObsEq (abs s') (setV a v (abs s)) -> vCode v = vCode (accountOr (abs s) a) ->
  (forall b, state.GetNonce b s' = if a =? b then vNonce v else state.GetNonce b s) /\
  (forall b, state.GetCode b s' = state.GetCode b s) /\
  (forall b k, state.GetState b k s' = state.GetState b k s) /\ (forall h, state.GetLogs h s' = state.GetLogs h s).
Proof.
  intros [Ha Hs _ Hl _ _] Ec.
  assert (Hv : forall A (f : View -> A) dflt b, viewOr f dflt b s' = if a =? b then f v else viewOr f dflt b s).
  { intros A f dflt b. unfold viewOr. rewrite Ha. cbn. destruct (Z.eqb_spec a b) as [<-|Hne]; [by rewrite fn_lookup_insert|].
    by rewrite fn_lookup_insert_ne. }
  split_and!; [intros b|intros b|done|done];
    destruct (getters_view b s) as (_ & En & _ & Eg & _), (getters_view b s') as (_ & En' & _ & Eg' & _).
  - by rewrite En, En', Hv.
  - rewrite Eg, Eg', Hv. destruct (Z.eqb_spec a b) as [<-|]; [|done]. rewrite Ec. unfold accountOr, viewOr. by destruct (acct _ _).
Qed.

Lemma accountOr_nonce (s : statedb) a : vNonce (accountOr (abs s) a) = state.GetNonce a s.
Proof.
  destruct (getters_view a s) as (_ & -> & _). unfold accountOr, viewOr. by destruct (acct _ _).
Qed.

Lemma balance_rest u a x (s : statedb) :
  u = UAddBalance a x \/ u = USubBalance a x -> StateOk s -> SameRest s (runUpdate u s).
Proof.
  intros Hu Hok. pose proof (update_spec u s (so_deleted s Hok)) as H.
  destruct Hu as [->| ->]; cbn [specUpdate] in H; apply setV_rest in H as (H1 & H2 & H3 & H4); try done; cbn [vNonce] in H1;
    (split; try done; intros b; rewrite H1; destruct (Z.eqb_spec a b) as [<-|]; [apply accountOr_nonce|done]).
Qed.

Lemma nonce_rest a n (s : statedb) b :
  StateOk s ->
  state.GetNonce b (state.SetNonce a n s) = (if a =? b then n else state.GetNonce b s) /\
  state.GetCode b (state.SetNonce a n s) = state.GetCode b s /\
  (forall k, state.GetState b k (state.SetNonce a n s) = state.GetState b k s) /\
  forall h, state.GetLogs h (state.SetNonce a n s) = state.GetLogs h s.
Proof.
  intros Hok. pose proof (update_spec (USetNonce a n) s (so_deleted s Hok)) as H. cbn [specUpdate runUpdate] in H.
  by apply setV_rest in H as (H1 & H2 & H3 & H4).
Qed.

Lemma sEq_rest (s s' : statedb) : stateEq s s' -> SameRest s s' /\ forall a, state.GetBalance a s' = state.GetBalance a s.
Proof.
  intros H. pose proof H as [_ [_ Hs _ Hl _ _]].
  assert (Hv : forall A (f : View -> A) dflt a, viewOr f dflt a s' = viewOr f dflt a s) by (intros; by apply viewOr_eq).
  split; [split|]; try (intros a; destruct (getters_view a s) as (? & ? & _ & ? & _), (getters_view a s') as (? & ? & _ & ? & _)); try congruence.
  - intros k. symmetry. apply Hs.
  - symmetry. apply Hl.
Qed.

(** A failed message: the sender pays for the gas, its nonce grows, and that is all. *)
Record OnlyPaid (from coinbase : Address) (price : Z) (s s' : statedb) : Prop := {
  op_balance : forall a, state.GetBalance a s' =
    state.GetBalance a s - (if from =? a then price else 0) + (if coinbase =? a then price else 0);
  op_nonce : forall a, state.GetNonce a s' = if from =? a then u64 (state.GetNonce a s + 1) else state.GetNonce a s;
  op_code : forall a, state.GetCode a s' = state.GetCode a s;
  op_storage : forall a k, state.GetState a k s' = state.GetState a k s;
  op_logs : forall h, state.GetLogs h s' = state.GetLogs h s
}.

Lemma failed_only_pays msg coinbase (s mid : statedb) used :
  StateOk s -> StateOk mid -> stateEq (startState msg (VmCore.SubBalance (msgFrom msg) (fee msg (msgGasLimit msg)) s)) mid ->
  OnlyPaid (msgFrom msg) coinbase (fee msg used) s
    (VmCore.AddBalance coinbase (fee msg used) (VmCore.AddBalance (msgFrom msg) (fee msg (msgGasLimit msg - used)) mid)).
Proof.
  intros Hs Hm Hmid. set (f := msgFrom msg) in *. set (total := fee msg (msgGasLimit msg)) in *. set (back := fee msg (msgGasLimit msg - used)).
  assert (Hfee : total = fee msg used + back) by (unfold total, back, fee; lia).
  set (s1 := state.SubBalance f total s). set (s2 := state.SetNonce f (u64 (state.GetNonce f s1 + 1)) s1).
  change (stateEq s2 mid) in Hmid. set (s3 := state.AddBalance f back mid).
  pose proof (update_ok (StateDBLaws := stateDBLaws) (USubBalance f total) s Hs) as H1. change (StateOk s1) in H1.
  pose proof (update_ok (StateDBLaws := stateDBLaws) (USetNonce f (u64 (state.GetNonce f s1 + 1))) s1 H1) as H2. change (StateOk s2) in H2.
  pose proof (update_ok (StateDBLaws := stateDBLaws) (UAddBalance f back) mid Hm) as H3. change (StateOk s3) in H3.
  destruct (sEq_rest s2 mid Hmid) as [[N2 C2 S2 L2] B2].
  destruct (balance_rest (USubBalance f total) f total s (or_intror eq_refl) Hs) as [N1 C1 S1 L1].
  destruct (balance_rest (UAddBalance f back) f back mid (or_introl eq_refl) Hm) as [N3 C3 S3 L3].
  destruct (balance_rest (UAddBalance coinbase (fee msg used)) coinbase (fee msg used) s3 (or_introl eq_refl) H3) as [N4 C4 S4 L4].
  pose proof (fun a => nonce_rest f (u64 (state.GetNonce f s1 + 1)) s1 a H1) as HN. fold s2 in HN.
  change (runUpdate (USubBalance f total) s) with s1 in *. change (runUpdate (UAddBalance f back) mid) with s3 in *.
  set (s4 := runUpdate (UAddBalance coinbase (fee msg used)) s3) in *.
  change (OnlyPaid f coinbase (fee msg used) s s4). split.
  - intros a. pose proof (update_balance_law (UAddBalance coinbase (fee msg used)) a s3 H3) as E4.
    pose proof (update_balance_law (UAddBalance f back) a mid Hm) as E3. pose proof (update_balance_law (USetNonce f (u64 (state.GetNonce f s1 + 1))) a s1 H1) as E2.
    pose proof (update_balance_law (USubBalance f total) a s Hs) as E1. specialize (B2 a).
    cbn [balanceAfter] in E1, E2, E3, E4. fold s4 in E4. change (runUpdate (UAddBalance f back) mid) with s3 in E3.
    change (runUpdate (USetNonce f (u64 (state.GetNonce f s1 + 1))) s1) with s2 in E2. change (runUpdate (USubBalance f total) s) with s1 in E1.
    cbn [VmCore.GetBalance state.vmStateDB] in *. rewrite E4, E3, B2, E2, E1. destruct (f =? a), (coinbase =? a); lia.
  - intros a. rewrite N4, N3, N2. destruct (HN a) as (-> & _). rewrite !N1. by destruct (Z.eqb_spec f a) as [<-|].
  - intros a. rewrite C4, C3, C2. destruct (HN a) as (_ & -> & _). apply C1.
  - intros a k. rewrite S4, S3, S2. destruct (HN a) as (_ & _ & -> & _). apply S1.
  - intros h. rewrite L4, L3, L2. destruct (HN 0) as (_ & _ & _ & ->). apply L1.
Qed.

(** ** Transactions *)

(** Gas above what is left in the pool is refused before anything is done. *)
Lemma over_limit env msg loopF (e : EVM statedb) gp :
  gp < msgGasLimit msg -> exists x, ApplyMessage env msg loopF e gp = (Err x, NewStateTransition e gp).
Proof.
  intros Hg. assert (Hb : exists x, buyGas msg (NewStateTransition e gp) = (Err x, NewStateTransition e gp)).
  { unfold buyGas, SubGas. cbn [stGp NewStateTransition]. destruct (_ <? _ * _); [by eexists|].
    destruct (Z.ltb_spec gp (msgGasLimit msg)); [by eexists|lia]. }
  assert (Hp : exists x, preCheck msg (NewStateTransition e gp) = (Err x, NewStateTransition e gp)).
  { unfold preCheck, mbind, gets. destruct (msgCheckNonce msg); cbn [throw ret]; [|exact Hb].
    destruct (_ <? _); [by eexists|]. destruct (_ >? _); [by eexists|]. exact Hb. }
  destruct Hp as [x Hp]. exists x. unfold ApplyMessage, TransitionDb. unfold mbind at 1. by rewrite Hp.
Qed.

Context (env : Env) (metered : DisableGasMetering (vmConfig env) = false).
Context (header : Header) (eip158 : IsEIP158 (chainConfig env) (hNumber header) = true).
Context (coinbase : is_address (Coinbase (ctx env))).

(** Between the transactions of a block with [G] gas. *)
Record ProgInv (W G : Z) (p : Progress D T) : Prop := {
  pi_world : WorldInv W (pgEvm p);
  pi_pool : pgPool p = G - pgUsed p;
  pi_used : 0 <= pgUsed p <= G
}.

Definition MessageOf (tx : Transaction) (msg : Message) : Prop :=
  is_address (msgFrom msg) /\ msgTo msg = tdRecipient (txData tx) /\ msgNonce msg = tdNonce (txData tx) /\
  msgAmount msg = tdAmount (txData tx) /\ msgGasLimit msg = tdGasLimit (txData tx) /\ msgGasPrice msg = tdPrice (txData tx) /\
  msgData msg = tdPayload (txData tx) /\ msgCheckNonce msg = true.

Lemma MessageOf_ok tx msg : TxOk tx -> MessageOf tx msg -> msgGasLimit msg < 2 ^ 60 -> MessageOk msg.
Proof.
  intros [] (Hf & Et & En & Ea & Eg & Ep & Ed & _) Hg. split; rewrite ?Et, ?Ea, ?Ep, ?Ed; try done. rewrite Eg in *.
  unfold is_u64 in *. lia.
Qed.

(** Finalising after a transaction, with the root before Byzantium. *)
Lemma finalise_either W e :
  W < 2 ^ 256 -> WorldInv W e -> DirtyApart (eState e) ->
  exists root s', (if IsByzantium (chainConfig env) (hNumber header) then s ← state.Finalise true (eState e); Some ([], s)
     else '(h, s) ← state.IntermediateRoot (IsEIP158 (chainConfig env) (hNumber header)) (eState e); Some (HashBytes h, s)) = Some (root, s') /\
    Finalised true (eState e) s' /\ WorldInv W (evm_with_state e s').
Proof.
  intros HW He Hap. destruct (WorldInv_finalise W e HW He Hap) as (s' & E & H1 & H2).
  destruct (IsByzantium _ _); [|unfold state.IntermediateRoot; rewrite eip158]; rewrite E; by eexists _, s'.
Qed.

Lemma makeReceipt_some root failed cumulative gas msg tx (s : statedb) :
  exists r, makeReceipt root failed cumulative gas msg tx s = Some r /\ rcGasUsed r = gas /\ rcCumulativeGasUsed r = cumulative.
Proof.
  unfold makeReceipt. cbv zeta. match goal with |- context [CreateBloom ?l] => destruct (CreateBloom_spec l) as (b & z & E & _) end.
  rewrite E. by eexists.
Qed.

Definition TxPost (W G : Z) (p : Progress D T) (r : result txErr (Receipt * Z)) (p' : Progress D T) : Prop :=
  match r with
  | Ok (receipt, gas) =>
      ProgInv W G p' /\ 0 < gas /\ pgUsed p' = pgUsed p + gas /\ rcGasUsed receipt = gas /\ rcCumulativeGasUsed receipt = pgUsed p'
  | Err _ => True
  | Panic => clash
  | NoFuel => False
  end.

(** Applying the transaction runs known codes only, and the addresses that are dirty after
    it are among the given ones. *)
Definition txWithin (As : gset Address) (fuel : nat) (tx : Transaction) (signer : Signer) (p : Progress D T) : bool :=
  match fst (AsMessage signer tx) with
  | Ok msg =>
      let env := withMessage env msg in
      let e := evmReset (pgEvm p) in
      negb (isNoFuel (fst (ApplyMessage env msg (loopOn knownCode env fuel) e (pgPool p)))) &&
      bool_decide (state.stateObjectsDirty (stState (snd (ApplyMessage env msg (loop env fuel) e (pgPool p)))) ⊆ As)
  | _ => true
  end.

Context (As : gset Address) (apart : forall a, a ∈ As -> AddressApart a).

Lemma ApplyTransaction_spec W G fuel tx signer p :
  W < 2 ^ 256 -> G < 2 ^ 60 -> G < Z.of_nat fuel -> TxOk tx -> ProgInv W G p -> txWithin As fuel tx signer p = true ->
  let '(r, p') := ApplyTransaction env fuel header tx signer p in TxPost W G p r p'.
Proof.
  intros HW HG Hfuel Htx [Hw Hp Hu] Hin. pose proof (AsMessage_ok signer tx Htx) as Hm. unfold ApplyTransaction, txWithin in *.
  destruct (fst (AsMessage signer tx)) as [msg|x| |]; [|done..]. change (MessageOf tx msg) in Hm.
  assert (He : WorldInv W (evmReset (pgEvm p))) by (by apply WorldInv_reset).
  assert (Hsup : supply (eState (evmReset (pgEvm p))) <= W) by apply (ei_inv _ _ He).
  destruct (Z.lt_ge_cases (pgPool p) (msgGasLimit msg)) as [Hover|Hgas].
  { cbv zeta. destruct (over_limit (withMessage env msg) msg (loop (withMessage env msg) fuel) (evmReset (pgEvm p)) (pgPool p) Hover)
      as [x ->]. done. }
  assert (Hmsg : MessageOk msg) by (eapply MessageOf_ok; [done..|lia]).
  apply andb_prop in Hin as [Hon Hdirty%bool_decide_eq_true]. apply negb_isNoFuel in Hon.
  pose proof (transition_spec (SL := stateDBLaws) (FL := safetyLawsOn whole) (withMessage env msg) metered msg Hmsg eq_refl W fuel
    (evmReset (pgEvm p)) (pgPool p) coinbase (Z.le_lt_trans _ _ _ Hsup HW) He eq_refl ltac:(lia) ltac:(lia) Hon) as Hpost.
  cbv zeta. clear Hon. destruct (ApplyMessage _ msg (loop _ fuel) _ _) as [[[[out gas] failed]|x| |] st']; try done. destruct Hpost as [Hu' Hgp _ _ Hevm _].
  cbn [pgEvm pgPool pgUsed]. assert (Hevm' : WorldInv W (stEvm st')) by (by eapply WorldInv_le).
  destruct (finalise_either W (stEvm st') HW Hevm') as (root & s' & -> & _ & Hfin); [intros a Ha; apply apart, (Hdirty a Ha)|].
  assert (Eu : u64 (pgUsed p + gas) = pgUsed p + gas) by (apply u64_small; unfold is_u64; lia). rewrite Eu.
  destruct (makeReceipt_some root failed (pgUsed p + gas) gas msg tx s') as (r & -> & Er1 & Er2). cbn.
  split_and!; [split; cbn; [done|lia|lia]|lia|done|done|done].
Qed.

(** ** Blocks *)

(** The receipts of a block: each adds its gas to the sum of those before it. *)
Fixpoint Cumulative (used : Z) (rs : list Receipt) (used' : Z) : Prop :=
  match rs with
  | [] => used' = used
  | r :: rs => 0 < rcGasUsed r /\ rcCumulativeGasUsed r = used + rcGasUsed r /\ Cumulative (rcCumulativeGasUsed r) rs used'
  end.

(** The same for the transactions of a block that are applied. *)
Fixpoint txsWithin (fuel : nat) (bh : Hash) (signer : Signer) (i : Z) (txs : list Transaction) (p : Progress D T) : bool :=
  match txs with
  | [] => true
  | tx :: txs =>
      let e := pgEvm p in
      let p := mkProgress (evm_with_state e (state.Prepare (txHash tx) bh i (eState e))) (pgPool p) (pgUsed p) in
      txWithin As fuel tx signer p &&
      match ApplyTransaction env fuel header tx signer p with
      | (Ok _, p) => txsWithin fuel bh signer (i + 1) txs p
      | _ => true
      end
  end.

Lemma applyAll_spec W G fuel bh signer txs : forall i p,
  W < 2 ^ 256 -> G < 2 ^ 60 -> G < Z.of_nat fuel -> Forall TxOk txs -> ProgInv W G p ->
  txsWithin fuel bh signer i txs p = true ->
  match applyAll env fuel header bh signer i txs p with
  | (Ok rs, p') => ProgInv W G p' /\ length rs = length txs /\ Cumulative (pgUsed p) rs (pgUsed p')
  | (Err _, _) => True
  | (Panic, _) => clash
  | (NoFuel, _) => False
  end.
Proof.
  induction txs as [|tx txs IH]; intros i p HW HG Hf Htxs Hp Hin; [by split|].
  cbn [applyAll]. cbn [txsWithin] in Hin. apply andb_prop in Hin as [Hin Hrest]. unfold mbind at 1, modify at 1.
  set (p1 := mkProgress _ _ _). assert (Hp1 : ProgInv W G p1) by (destruct Hp; split; try done; by apply WorldInv_prepare).
  unfold mbind at 1. pose proof (ApplyTransaction_spec W G fuel tx signer p1 HW HG Hf (Forall_inv Htxs) Hp1 Hin) as H. fold p1 in Hrest.
  destruct (ApplyTransaction env fuel header tx signer p1) as [[[r gas]|x| |] p2]; try done.
  destruct H as (Hp2 & Hg & Eu & Er & Ec). unfold mbind at 1.
  specialize (IH (i + 1) p2 HW HG Hf (Forall_inv_tail Htxs) Hp2 Hrest).
  destruct (applyAll env fuel header bh signer (i + 1) txs p2) as [[rs|x| |] p3]; try done.
  destruct IH as (Hp3 & Hl & Hc). cbn. change (pgUsed p) with (pgUsed p1). rewrite Er, Ec. split_and!; try done; congruence.
Qed.

Lemma Cumulative_le used rs used' : Cumulative used rs used' -> used <= used'.
Proof.
  revert used. induction rs as [|r rs IH]; intros used; cbn; [lia|]. intros (H1 & H2 & H3%IH). lia.
Qed.

(** The reward and the root at the end of a block. *)
Lemma Finalize_spec W h (e : EVM statedb) :
  IsEIP158 (chainConfig env) (hNumber h) = true -> is_address (hCoinbase h) ->
  W + BlockReward < 2 ^ 256 -> WorldInv W e -> DirtyApart (state.AddBalance (hCoinbase h) BlockReward (eState e)) ->
  exists h' s', Finalize (chainConfig env) h (eState e) = Some (h', s') /\ WorldInv (W + BlockReward) (evm_with_state e s').
Proof.
  intros H158 Hcb HW He Hap.
  pose proof (EvmInv_add (SL := stateDBLaws) (FL := safetyLawsOn whole) W e (hCoinbase h) BlockReward Hcb ltac:(done) He) as He1.
  destruct (WorldInv_finalise _ _ HW He1 Hap) as (s' & E & _ & H2).
  unfold Finalize, state.IntermediateRoot. rewrite H158.
  change (eState (evm_with_state e ?s)) with s in E. cbn [VmCore.AddBalance state.vmStateDB] in E. rewrite E.
  cbn [base.mbind option_bind]. by eexists _, s'.
Qed.

End Blocks.

Section Process.
Context {CR : Crypto} {KC : KnownCodes} {NC : NativeCrypto} {NL : NativeLaws} {D T : Type} {DB : state.Database D T}.
Context {DL : DatabaseLaws} {TL : TrieLaws}.
Notation statedb := (state.StateDB D T).

(** A state between blocks, with no more than [W] ether. *)
Definition StateOkFor (W : Z) (s : statedb) : Prop := WorldInv W (NewEVM s).

Lemma StateOkFor_evm W e : WorldInv W e -> StateOkFor W (eState e).
Proof. intros []. by split. Qed.

Lemma StateOkFor_supply W s : StateOkFor W s -> supply (SL := stateDBLaws) s <= W.
Proof. intros H. apply (ei_inv _ _ H). Qed.

(** What the block and the configuration have to be like. *)
Record BlockOk (eng : Engine statedb) (config : ChainConfig) (cfg : VmConfig) (block : Block) : Prop := {
  bk_metered : DisableGasMetering cfg = false;
  bk_fork : IsEIP158 config (hNumber (CopyHeader (bHeader block))) = true;
  bk_gas : 0 <= hGasLimit (bHeader block) < 2 ^ 60;
  bk_author : forall a, engAuthor eng (CopyHeader (bHeader block)) = Some a -> is_address a;
  bk_coinbase : is_address (hCoinbase (bHeader block));
  bk_engine : engFinalize eng = Finalize config;
  bk_transactions : Forall TxOk (bTransactions block)
}.

(** Processing the block runs known codes only, and the addresses that are dirty when it
    finalises are among the given ones. *)
Definition blockWithin (As : gset Address) (config : ChainConfig) (eng : Engine statedb) (chain : headerReader) (cfg : VmConfig)
    (fuel : nat) (block : Block) (s : statedb) : bool :=
  let header := CopyHeader (bHeader block) in
  let env := mkEnv (NewEVMContextLite header chain (default 0 (engAuthor eng header))) config cfg in
  let signer := MakeSigner config (hNumber header) in
  let bh := headerHash (bHeader block) in
  let p := mkProgress (NewEVM s) (hGasLimit header) 0 in
  txsWithin env header As fuel bh signer 0 (bTransactions block) p &&
  bool_decide (state.stateObjectsDirty (state.AddBalance (hCoinbase header) BlockReward
    (eState (pgEvm (snd (applyAll env fuel header bh signer 0 (bTransactions block) p))))) ⊆ As).

Lemma Process_spec As eng config chain cfg fuel block (s : statedb) W :
  (forall a, a ∈ As -> AddressApart a) -> blockWithin As config eng chain cfg fuel block s = true ->
  BlockOk eng config cfg block -> StateOkFor W s -> W + BlockReward < 2 ^ 256 -> hGasLimit (bHeader block) < Z.of_nat fuel ->
  match Process eng config chain cfg fuel block s with
  | Ok (receipts, logs, used, s') =>
      length receipts = length (bTransactions block) /\ Cumulative 0 receipts used /\ used <= hGasLimit (bHeader block) /\
      StateOkFor (W + BlockReward) s'
  | Err _ => True
  | Panic => clash
  | NoFuel => False
  end.
Proof.
  intros Hap Hin [Hm H158 Hg Ha Hc He Ht] Hs HW Hf. unfold Process, blockWithin in *. set (h := CopyHeader (bHeader block)).
  assert (HR : 0 < BlockReward) by done. change (hGasLimit h) with (hGasLimit (bHeader block)).
  assert (EA : AddGas (hGasLimit (bHeader block)) 0 = Some (hGasLimit (bHeader block))).
  { unfold AddGas. change MaxUint64 with (2 ^ 64 - 1). destruct (Z.gtb_spec 0 (2 ^ 64 - 1 - hGasLimit (bHeader block))); [lia|].
    f_equal. apply u64_small. unfold is_u64. lia. }
  rewrite EA. set (env := mkEnv _ config cfg) in *. cbv zeta in Hin. set (p := mkProgress _ _ _) in *. apply andb_prop in Hin as [Hin Hdirty%bool_decide_eq_true].
  assert (Hcb : is_address (Coinbase (ctx env))).
  { cbn. fold h. destruct (engAuthor eng h) eqn:E; [by apply Ha|]. by split. }
  pose proof (applyAll_spec env Hm h H158 Hcb As Hap W (hGasLimit (bHeader block)) fuel (headerHash (bHeader block))
    (MakeSigner config (hNumber h)) (bTransactions block) 0 p ltac:(lia) ltac:(lia) Hf Ht) as H.
  destruct (applyAll _ _ _ _ _ _ _ p) as [[rs|x| |] p'].
  - destruct H as ([Hw Hp Hu] & Hl & Hcum); [split; [exact Hs|cbn; lia|cbn; lia]|exact Hin|]. cbn [rbind]. rewrite He.
    destruct (Finalize_spec env W h (pgEvm p') H158 Hc HW Hw) as (h' & s' & EF & HF); [intros a Haa; apply Hap, (Hdirty a Haa)|]. cbn [chainConfig env] in EF. rewrite EF.
    split_and!; [done|done|lia|]. by apply (StateOkFor_evm _ _ HF).
  - done.
  - apply H; [split; [exact Hs|cbn; lia|cbn; lia]|exact Hin].
  - apply H; [split; [exact Hs|cbn; lia|cbn; lia]|exact Hin].
Qed.
End Process.
