(* ===== verification/TransactionProperties.v ===== *)
(** * Package core/types: theorems about transactions and receipts

    Signing and recovering, replay protection, the encodings of transactions and
    receipts, and bloom filters, with instances on concrete values. *)

From stdpp Require Import base numbers list option.
From Stdlib Require Import ZArith Lia Strings.Byte.
From S2P Require Import Prelude Rlp RlpStream RlpRawProofs Common Params Types Toy VmCore VmPrecompiled VmStateSpec Transactions TransactionProofs State Receipts.

(** ** Concrete values *)

Module Sample.

Definition transfer : Transaction := NewTransaction 3 9 (Some 1000) 21000 (Some 5) [x2a].
(** Signatures name their key in the first byte. *)
Definition signature : list byte := x01 :: replicate 62 x00 ++ [x01; x00].
Definition sign (_ : list byte) : option (list byte) := Some signature.
Definition chain : Signer := EIP155Signer 60.
Definition signed : Transaction :=
  match SignTx (CR := Toy.crypto) sign chain transfer with Ok tx => tx | _ => transfer end.

Definition encoded : Transaction := mkTransaction (mkTxdata 3 5 21000 (Some 9) 1000 [x2a] 155 77 99) None.

Definition log : state.DerivedLog := state.mkDerivedLog (mkLog 9 [1; 2] [x07; x08] 12) 77 88 0 3.
Definition receipt : Receipt := mkReceipt [] 1 30000 emptyBloom [log] 77 0 21000.

End Sample.

(** ** Theorems *)

Section Theorems.
Context {CR : Crypto}.

(** C35. Signing and recovering are inverse: when [SignTx] gets a valid signature from
    which the signer's public key can be recovered, the sender of the transaction it
    returns is the address of that key, for every signer whose chain id is not zero. *)
Theorem signed_transactions_have_their_signer sign s tx sig v pub :
  (forall c, s = EIP155Signer c -> 0 < c) ->
  sign (HashBytes (signerHash s tx)) = Some sig -> length sig = 65%nat -> sig !! 64%nat = Some v ->
  ValidateSignatureValues (byte_to_Z v) (sigR sig) (sigS sig) (strict s) = true ->
  Ecrecover (HashBytes (signerHash s tx)) sig = Some (x04 :: pub) ->
  exists tx', SignTx sign s tx = Ok tx' /\ fst (Sender s tx') = Ok (keyAddress pub).
Proof. intros Hc Hs. unfold SignTx. rewrite Hs. by apply sender_of_signature. Qed.

(** C36. Replay protection: a transaction signed for chain [c] has no sender on any other
    chain id, and none under the rules before EIP 155. *)
Theorem protected_transactions_stay_on_their_chain sign c tx sig v tx' :
  0 < c -> sign (HashBytes (signerHash (EIP155Signer c) tx)) = Some sig -> length sig = 65%nat ->
  sig !! 64%nat = Some v -> byte_to_Z v = 0 \/ byte_to_Z v = 1 -> SignTx sign (EIP155Signer c) tx = Ok tx' ->
  (forall c', c' <> c -> fst (Sender (EIP155Signer c') tx') = Err ErrInvalidChainId) /\
  fst (Sender HomesteadSigner tx') = Err ErrInvalidSig /\ fst (Sender FrontierSigner tx') = Err ErrInvalidSig.
Proof.
  intros Hc Hs Hl Hv Hv01. unfold SignTx. rewrite Hs. intros E.
  destruct (protected_elsewhere c sig tx v tx' Hc Hl Hv Hv01 E) as (H1 & H2 & H3).
  rewrite (WithSignature_eq _ _ _ v) in E by (done || lia). injection E as <-.
  assert (Hn : forall s x, senderOf s (withValues (signedV (EIP155Signer c) (byte_to_Z v)) (sigR sig) (sigS sig) tx) = Err x ->
    fst (Sender s (withValues (signedV (EIP155Signer c) (byte_to_Z v)) (sigR sig) (sigS sig) tx)) = Err x).
  { intros s x Hx. unfold Sender. by rewrite Hx. }
  split_and!; [intros c' Hne; by apply Hn, H1|by apply Hn|by apply Hn].
Qed.

(** A transaction goes round through its encoding, recipient and all: decoding what
    [EncodeRLP] writes gives the transaction, without the cached sender. *)
Theorem transactions_roundtrip tx :
  txSizeOk (txData tx) ->
  exists b, EncodeToBytes (txRLP (txData tx)) = Ok b /\ decodeTx b = Some (mkTransaction (txData tx) None).
Proof. apply tx_roundtrip. Qed.

(** C37. Bloom filters have no false negatives: the filter of a block's receipts exists, has
    256 bytes, and finds the address and every topic of every log in them. *)
Theorem blooms_find_every_log rs :
  exists b, CreateBloom rs = Some b /\ length b = 256%nat /\
    forall r l, r ∈ rs -> l ∈ state.dLog <$> rcLogs r ->
      BloomLookup b (AddressBytes (lAddress l)) = true /\ forall t, t ∈ lTopics l -> BloomLookup b (HashBytes t) = true.
Proof.
  destruct (CreateBloom_spec rs) as (b & z & E & Hl & Ez & Hc). exists b. split_and!; [done|done|].
  assert (H : forall r l k, r ∈ rs -> l ∈ state.dLog <$> rcLogs r -> k ∈ logKeys l -> BloomLookup b k = true).
  { intros r l k Hr Hlog Hk. unfold BloomLookup. rewrite Ez. apply Z.eqb_eq. by apply (Hc r l). }
  intros r l Hr Hlog. split; [|intros t Ht]; apply (H r l); try done; unfold logKeys; [by left|].
  right. apply list_elem_of_fmap. by exists t.
Qed.

(** A receipt goes round through the encoding of the database with its logs and
    their derived fields; only the status of a receipt that has a root, as before
    Byzantium, is not kept. *)
Theorem receipts_roundtrip r :
  ReceiptOk r -> rlpSize (receiptStorageRLP r) < 2 ^ 64 ->
  exists b, EncodeToBytes (receiptStorageRLP r) = Ok b /\
    decodeReceiptForStorage b = Some (mkReceipt (rcPostState r) (storedStatus r) (rcCumulativeGasUsed r) (rcBloom r) (rcLogs r)
                                        (rcTxHash r) (rcContractAddress r) (rcGasUsed r)).
Proof. apply receipt_roundtrip. Qed.

End Theorems.

(** ** Instances *)

Example signed_transactions_have_their_signer_witness :
  exists tx', SignTx (CR := Toy.crypto) Sample.sign Sample.chain Sample.transfer = Ok tx' /\
    fst (Sender (CR := Toy.crypto) Sample.chain tx') = Ok (keyAddress (CR := Toy.crypto) [x01]).
Proof.
  refine (signed_transactions_have_their_signer Sample.sign Sample.chain Sample.transfer Sample.signature x00 [x01] _ _ _ _ _ _);
    try (vm_compute; reflexivity). intros c [= <-]. reflexivity.
Defined.

Example protected_transactions_stay_on_their_chain_witness :
  (forall c', c' <> 60 -> fst (Sender (CR := Toy.crypto) (EIP155Signer c') Sample.signed) = Err ErrInvalidChainId) /\
  fst (Sender (CR := Toy.crypto) HomesteadSigner Sample.signed) = Err ErrInvalidSig /\
  fst (Sender (CR := Toy.crypto) FrontierSigner Sample.signed) = Err ErrInvalidSig.
Proof.
  refine (protected_transactions_stay_on_their_chain Sample.sign 60 Sample.transfer Sample.signature x00 Sample.signed _ _ _ _ _ _);
    try (vm_compute; reflexivity). left. reflexivity.
Defined.

Lemma sample_encoded_ok : txSizeOk (txData Sample.encoded).
Proof.
  unfold txSizeOk, is_u64, small.
  cbn [Sample.encoded txData tdNonce tdPrice tdGasLimit tdRecipient tdAmount tdPayload tdV tdR tdS length].
  repeat (apply conj); try lia. intros a Ha. injection Ha as <-. by split.
Qed.

Lemma sample_receipt_ok : ReceiptOk Sample.receipt.
Proof.
  assert (Hh : forall h, 0 <= h < 1000 -> is_hash h /\ is_address h /\ is_u64 h) by (unfold is_hash, is_address, is_u64; lia).
  split; cbn [Sample.receipt rcPostState rcStatus rcCumulativeGasUsed rcBloom rcTxHash rcContractAddress rcLogs rcGasUsed].
  - left. split; [reflexivity|]. right. reflexivity.
  - unfold is_u64. lia.
  - apply length_replicate.
  - apply Hh. lia.
  - apply Hh. lia.
  - apply Forall_cons; [|apply Forall_nil]. unfold LogOk.
    cbn [Sample.log state.dLog state.dTxHash state.dTxIndex state.dBlockHash state.dIndex lAddress lTopics lBlockNumber].
    repeat (apply conj); try (apply Hh; lia). apply Forall_cons; [apply Hh; lia|]. apply Forall_cons; [apply Hh; lia|apply Forall_nil].
  - unfold is_u64. lia.
Qed.

Example transactions_roundtrip_witness :
  exists b, EncodeToBytes (txRLP (txData Sample.encoded)) = Ok b /\ decodeTx b = Some Sample.encoded.
Proof. exact (transactions_roundtrip Sample.encoded sample_encoded_ok). Defined.

Example receipts_roundtrip_witness :
  exists b, EncodeToBytes (receiptStorageRLP Sample.receipt) = Ok b /\ decodeReceiptForStorage b = Some Sample.receipt.
Proof. refine (receipts_roundtrip Sample.receipt sample_receipt_ok _). vm_compute. reflexivity. Defined.
