(* ===== verification/ProcessorProperties.v ===== *)
(** * Package core: theorems about messages and blocks

    What a message costs and does, what a failed one leaves behind, what finalising
    removes, and the sums of a block, with instances on the concrete contracts of
    [VmProperties]. *)

From stdpp Require Import base numbers list gmap sets option.
From Stdlib Require Import ZArith Lia Strings.Byte.
From S2P Require Import Prelude Rlp Common Params Types Toy CliqueSnapshot CliqueEngine VmCore VmGas VmOps VmPrecompiled VmInterp VmStateSpec VmStateProofs VmAnalysis VmFuel VmSafety VmSafeOps VmSafeLoop VmProperties VmSafetyProperties Transactions TransactionProofs Transition TransitionProofs State StateProofs StateLaws StateSafety StateFinalise StateProperties ToyStore Receipts Blocks Processor ProcessorProofs.

(** ** A concrete block *)

Module Bank.

(** Account 7 with more ether than in [World]. *)
Definition start : World.statedb := VmCore.AddBalance 7 (10 ^ 9) World.start.
Definition evm : EVM World.statedb := NewEVM start.

(** A call of the contract that writes, and of the one that fails. *)
Definition message (to : Address) : Message := mkMessage (Some to) 7 1 3 100000 2 [] true.
Definition env (to : Address) : Env := withMessage World.env (message to).
Definition fuel : nat := Z.to_nat 200001.



End Bank.

(** ** Theorems *)


Section Messages.
Context {CR : Crypto} {NC : NativeCrypto} {NL : NativeLaws} {S : Type} {SDB : StateDB S} {SL : StateDBLaws S}
  {BL : BalanceLaws S} {FL : SafetyLaws S} {RL : RefundLaws S}.


End Messages.

Section Blocks.
Context {CR : Crypto} {NC : NativeCrypto} {NL : NativeLaws} {D T : Type} {DB : state.Database D T} {DL : DatabaseLaws}.
Notation statedb := (state.StateDB D T).

(** C6. A message whose execution fails only pays: the gas it used moves from the sender to
    the coinbase, the sender's nonce grows by one, and no other balance, nonce, code,
    storage or log changes.  From Homestead on, where a creation that cannot pay for its
    code fails like any other. *)
Theorem failed_messages_only_pay env msg W fuel (e : EVM statedb) gp out used st' :
  DisableGasMetering (vmConfig env) = false -> MessageOk msg -> GasPrice (ctx env) = msgGasPrice msg ->
  is_address (Coinbase (ctx env)) -> supply (eState e) < 2 ^ 256 ->
  EvmInv (KC := allCodes) (SL := stateDBLaws) W e -> eDepth e = 0 -> 0 <= gp < 2 ^ 64 -> msgGasLimit msg < Z.of_nat fuel ->
  IsHomestead (chainConfig env) (envNumber env) = true ->
  ApplyMessage env msg (loop env fuel) e gp = (Ok (out, used, true), st') ->
  OnlyPaid (msgFrom msg) (Coinbase (ctx env)) (used * msgGasPrice msg) (eState e) (eState (stEvm st')).
Proof.
  intros Hm Hmsg Hp Hcb Hs He Hd Hgp Hf Hh E.
  assert (Hon : fst (ApplyMessage env msg (loopOn (knownCode (KnownCodes := allCodes)) env fuel) e gp) <> NoFuel).
  { destruct (ApplyMessage_finer env msg _ _ (loop_finer_on env (knownCode (KnownCodes := allCodes)) fuel (fun _ => eq_refl)) e gp)
      as [E'|E']; [by rewrite E in E'|]. by rewrite <- E', E. }
  pose proof (transition_spec (KC := allCodes) (SL := stateDBLaws) env Hm msg Hmsg Hp W fuel e gp Hcb Hs He Hd Hgp Hf Hon) as H.
  rewrite E in H. destruct H as [_ _ _ _ _ (mid & Hok & Es & Hmid)].
  change (eState (stEvm st')) with (stState st'). rewrite Es.
  apply failed_only_pays; [apply He|exact Hok|by apply Hmid].
Qed.

Context {TL : TrieLaws}.



End Blocks.

(** ** Instances *)

Lemma bank_world (K : KnownCodes) : StateOkFor (KC := K) (1000 + 10 ^ 9) Bank.start.
Proof.
  assert (Hw : WorldInv (KC := K) 1000 World.evm).
  { split; [apply World.world_ok|exact world_inv|intros h b; cbn; by rewrite lookup_empty|done|done]. }
  exact (EvmInv_add (SL := stateDBLaws) (FL := safetyLawsOn whole) 1000 World.evm 7 (10 ^ 9) ltac:(done) ltac:(done) Hw).
Qed.

Lemma bank_supply : supply (S := World.statedb) (SL := stateDBLaws) (eState Bank.evm) < 2 ^ 256.
Proof. apply (Z.le_lt_trans _ _ _ (StateOkFor_supply (KC := allCodes) _ _ (bank_world _))). lia. Qed.

Lemma bank_fuel x : x < 200001 -> x < Z.of_nat Bank.fuel.
Proof. intros Hx. unfold Bank.fuel. rewrite Z2Nat.id; lia. Qed.

Lemma bank_message to : is_address to -> MessageOk (Bank.message to).
Proof.
  intros Hto. split; cbn [Bank.message msgFrom msgTo msgAmount msgGasPrice msgGasLimit msgData]; unfold is_address, small; try (cbn; lia).
  intros a [= <-]. exact Hto.
Qed.

Lemma bank_coinbase to : is_address (Coinbase (ctx (Bank.env to))).
Proof. by split. Qed.

Lemma bank_pool : 0 <= 150000 < 2 ^ 64.
Proof. lia. Qed.



Example failed_messages_only_pay_witness :
  match ApplyMessage (Bank.env 10) (Bank.message 10) (loop (Bank.env 10) Bank.fuel) Bank.evm 150000 with
  | (Ok (_, used, failed), st') => failed = true /\ OnlyPaid 7 0 (used * 2) Bank.start (eState (stEvm st'))
  | _ => False
  end.
Proof.
  pose proof (fun out used st' => failed_messages_only_pay (Bank.env 10) (Bank.message 10) (1000 + 10 ^ 9) Bank.fuel Bank.evm 150000
    out used st' eq_refl (bank_message 10 ltac:(done)) eq_refl (bank_coinbase 10) bank_supply (bank_world _) eq_refl bank_pool
    (bank_fuel 100000 eq_refl) eq_refl) as H.
  assert (Hok : match fst (ApplyMessage (Bank.env 10) (Bank.message 10) (loop (Bank.env 10) Bank.fuel) Bank.evm 150000) with
    | Ok (_, _, failed) => failed | _ => false end = true) by (vm_compute; reflexivity).
  revert H Hok. generalize (ApplyMessage (Bank.env 10) (Bank.message 10) (loop (Bank.env 10) Bank.fuel) Bank.evm 150000).
  intros [[[[out used] failed]|x| |] st'] H Hok; try discriminate Hok. cbn in Hok. rewrite Hok in H.
  split; [exact Hok|]. rewrite <- Hok in H. apply (H out used st'). rewrite Hok. reflexivity.
Defined.







