(* ===== verification/ToyChain.v ===== *)
(** * Concrete chains for examples

    Caches that are finite maps, finite universes of headers, and a small tree of headers
    over a genesis block. *)

From stdpp Require Import base numbers list gmap option.
From Stdlib Require Import ZArith Lia Strings.Byte.
From S2P Require Import Prelude Rlp RlpProofs RlpDecodeProofs RlpRawProofs Common Params Types Toy TrieDatabase CliqueSnapshot CliqueEngineSpec CliqueProperties CliqueEngineProperties Transactions State ToyStore Receipts Blocks ChainDb Genesis ChainDbProofs HeaderChain HeaderChainStore.

(** Caches that never evict. *)
#[global] Instance mapLRU (V : Type) : LRU (gmap Z V) Z V := {|
  lruCache := Net.mapCache V;
  cacheContains := fun k c => bool_decide (is_Some (c !! k));
  cachePurge := fun _ => ∅
|}.
#[global] Instance mapLRULaws (V : Type) : LRULaws (gmap Z V) Z V.
Proof.
  split; [apply NetChain.mapCacheLaws|..].
  - intros k c [v E]%bool_decide_eq_true. by exists v.
  - intros k c. apply lookup_empty.
  - intros k c. cbn. by rewrite lookup_empty.
Qed.

Section Finite.
Context {CR : Crypto}.

Definition bignatb (x : option Z) : bool := match x with Some z => 0 <=? z | None => false end.
Definition hashb (x : Z) : bool := (0 <=? x) && (x <? 2 ^ 256).
Definition addressb (x : Z) : bool := (0 <=? x) && (x <? 2 ^ 160).
Definition u64b (x : Z) : bool := (0 <=? x) && (x <? 2 ^ 64).

Definition headerOkb (h : Header) : bool :=
  forallb hashb [hParentHash h; hUncleHash h; hRoot h; hTxHash h; hReceiptHash h; hMixDigest h] &&
  forallb addressb (hCoinbase h :: hSigners h ++ hVoters h) && (length (hBloom h) =? 256)%nat &&
  forallb bignatb [hDifficulty h; hNumber h; hTime h] && (u64b (hGasLimit h) && u64b (hGasUsed h)) && (length (hNonce h) =? 8)%nat.
Definition storableb (h : Header) : bool := headerOkb h && (rlpSize (headerRLP h) <? 2 ^ 64) && hashb (headerHash h).

Lemma forallb_Forall' {A} (f : A -> bool) (P : A -> Prop) l : (forall x, f x = true -> P x) -> forallb f l = true -> Forall P l.
Proof. intros Hf. induction l as [|x l IH]; [constructor|]. cbn. intros [H1 H2]%andb_true_iff. constructor; auto. Qed.

Lemma headerOkb_ok h : headerOkb h = true -> HeaderOk h.
Proof.
  unfold headerOkb. rewrite !andb_true_iff. intros [[[[[H1 H2] H3] H4] [H5 H6]] H7]. split.
  - eapply forallb_Forall'; [|exact H1]. unfold hashb, is_hash. intros x [? ?]%andb_true_iff. lia.
  - eapply forallb_Forall'; [|exact H2]. unfold addressb, is_address. intros x [? ?]%andb_true_iff. lia.
  - by apply Nat.eqb_eq.
  - eapply forallb_Forall'; [|exact H4]. intros [z|] Hz; [|done]. exists z. split; [done|]. by apply Z.leb_le.
  - unfold u64b, is_u64 in *. apply andb_true_iff in H5, H6. lia.
  - by apply Nat.eqb_eq.
Qed.
Lemma storableb_ok h : storableb h = true -> Storable h.
Proof.
  unfold storableb. rewrite !andb_true_iff. intros [[H1 H2] H3]. split; [by apply headerOkb_ok|by apply Z.ltb_lt|].
  unfold hashb, is_hash in *. apply andb_true_iff in H3. lia.
Qed.

(** A finite set of headers, checked by evaluation. *)
Definition universeb (l : list Header) : bool :=
  forallb (fun h => storableb h && hashb (hParentHash h) && negb (headerHash h =? 0) && (numberOf h <? chaindb.missingNumber) &&
                    bool_decide (hNumber h = Some (numberOf h)) && (difficultyOf h <? 2 ^ 128)) l &&
  forallb (fun h => forallb (fun h' => negb (headerHash h =? headerHash h') || bool_decide (h = h')) l) l.

Lemma universeb_ok l : universeb l = true -> Universe (fun h => h ∈ l).
Proof.
  unfold universeb. rewrite andb_true_iff, !forallb_forall. intros [H1 H2].
  assert (Hall : forall h, h ∈ l -> storableb h = true /\ hashb (hParentHash h) = true /\ headerHash h <> 0 /\ numberOf h < chaindb.missingNumber /\
    hNumber h = Some (numberOf h) /\ difficultyOf h < 2 ^ 128).
  { intros h Hh. apply list_elem_of_In in Hh. specialize (H1 h Hh). rewrite !andb_true_iff in H1. destruct H1 as [[[[[A1 A2] A3] A4] A5] A6].
    split_and!; [done|done|by apply negb_true_iff, Z.eqb_neq in A3|by apply Z.ltb_lt|by apply bool_decide_eq_true in A5|by apply Z.ltb_lt]. }
  split; intros h Hh.
  - by apply storableb_ok, Hall.
  - destruct (Hall h Hh) as (_ & Hp & _). unfold hashb, is_hash in *. apply andb_true_iff in Hp. lia.
  - by apply Hall.
  - intros Hh1 Hh2 E. apply list_elem_of_In in Hh1. specialize (H2 h Hh1). rewrite forallb_forall in H2. apply list_elem_of_In in Hh2. specialize (H2 Hh Hh2).
    apply orb_true_iff in H2 as [H2|H2]; [|by apply bool_decide_eq_true in H2]. apply negb_true_iff, Z.eqb_neq in H2. done.
  - by apply Hall.
  - by apply Hall.
  - by apply Hall.
Qed.
End Finite.

(** ** A tree of headers *)

Module Tree.
#[global] Existing Instance Toy.crypto.

Definition config : ChainConfig := mkChainConfig (Some 1) (Some 0) (Some 0) 0 (Some 0) (Some 0) (Some 0).
#[global] Instance json : ConfigJSON := {| configMarshal := fun _ => Some [x7b; x7d]; configUnmarshal := fun _ => Some config |}.

(** An account with a balance of 1000, one signer. *)
Definition spec : genesis.Genesis :=
  genesis.mkGenesis (Some config) 0 0 [] [1] [1] [] 8000000 (Some 1) 0 0 {[ 7 := genesis.mkAccount [] ∅ 1000 0 ]} 0 0 0.
Definition nets : genesis.Networks := genesis.mkNetworks 1 config 2 config config spec.
Definition noStore : Store.store := Store.mkStore ∅ ∅.
Definition flush (_ : Hash) (d : Store.store) : Store.store := d.

Definition iteration : genesis.Iteration := genesis.mkIteration map_to_list (fun _ => map_to_list).
Definition committed : result genesis.genesisErr (Block * Store.store) * chaindb.DB := genesis.Commit iteration nets flush spec noStore ∅.
Definition db0 : chaindb.DB := snd committed.
Definition headerOn (parent : Hash) (n d : Z) : Header :=
  mkHeader parent 0 9 [] [] [] 5 6 7 emptyBloom (Some d) (Some n) 8000000 0 (Some n) [] 0 (replicate 8 x00).
Definition block0 : Block := match fst committed with Ok (b, _) => b | _ => mkBlock (headerOn 0 0 0) [] [] end.
Definition h0 : Header := bHeader block0.

(** [h0]-[a1]-[a2] and [a1]-[c2]-[c3], with one difficulty each. *)
Definition a1 : Header := headerOn (headerHash h0) 1 2.
Definition a2 : Header := headerOn (headerHash a1) 2 2.
Definition c2 : Header := headerOn (headerHash a1) 2 1.
Definition c3 : Header := headerOn (headerHash c2) 3 4.
Definition headers : list Header := [h0; a1; a2; c2; c3].

Definition chain : Type := headerchain.HeaderChain (gmap Z Header) (gmap Z Z) (gmap Z Z).
Definition opened : result chaindb.chainErr chain := headerchain.NewHeaderChain db0 ∅ ∅ ∅.
Definition start : chain :=
  match opened with Ok hc => hc | _ => headerchain.mkHeaderChain ∅ h0 None 0 ∅ ∅ ∅ end.
(** The chain after some writes, without luck at ties. *)
Definition write (h : Header) (hc : chain) : chain := snd (headerchain.WriteHeader 10 false h hc).
Definition forked : chain := write c2 (write a2 (write a1 start)).

Lemma headers_universe : Universe (fun h => h ∈ headers).
Proof. apply universeb_ok. by vm_compute. Qed.

Lemma committed_ok : exists d, committed = (Ok (block0, d), db0).
Proof.
  assert (H : isOk (fst committed) = true) by by vm_compute. unfold block0, db0. destruct committed as [[[b d]| | |] db]; try discriminate H. by exists d.
Qed.
Lemma opened_ok : opened = Ok start.
Proof. assert (H : isOk opened = true) by by vm_compute. unfold start. by destruct opened. Qed.
End Tree.
