(* ===== verification/BlockValidator.v ===== *)
(** * Package core: validating blocks

    [BlockValidator] of src/core/block_validator.go with what it asks of [BlockChain]
    (src/core/blockchain.go): whether a block and its state are known.  The cache of
    states is the class [state.Database].

    Then the properties of blocks: they go round through their encoding; a header that
    validates fixes the body and the receipts of its block; assembled blocks validate; gas
    limits move slowly. *)

From stdpp Require Import base numbers list gmap option.
From Stdlib Require Import ZArith Lia Strings.Byte.
From S2P Require Import Prelude Rlp RlpStream RlpProofs RlpDecodeProofs RlpTypeProofs RlpRawProofs Common Params Types Toy TrieDatabase Trie TrieTree TrieHash TrieProofs CliqueSnapshot CliqueProperties Transactions TransactionProofs State Receipts Blocks ChainDb Genesis ChainDbProofs HeaderChain ToyStore TransactionProperties ToyChain.

Module validator.

Inductive validErr :=
| ErrKnownBlock
| ErrUnknownAncestor
| ErrPrunedAncestor
| errUncles
| errUncleHash
| errTxHash
| errGasUsed
| errBloom
| errReceiptHash
| errRoot.

(** The part of the block chain that validation reads. *)
Record BlockChain (BC D : Type) := mkBlockChain { bcDb : chaindb.DB; blockCache : BC; stateCache : D }.
Arguments mkBlockChain {BC D}.
Arguments bcDb {BC D}.
Arguments blockCache {BC D}.
Arguments stateCache {BC D}.

Definition GasLimitBoundDivisor : Z := 1024.
Definition MinGasLimit : Z := 5000.

(** With the target that a flag can set. *)
Definition CalcGasLimit (target : Z) (parent : Block) : Z :=
  let used := hGasUsed (bHeader parent) in
  let parentLimit := hGasLimit (bHeader parent) in
  let contrib := u64 (used + used / 2) / GasLimitBoundDivisor in
  let decay := u64 (parentLimit / GasLimitBoundDivisor - 1) in
  let limit := u64 (parentLimit - decay + contrib) in
  let limit := if limit <? MinGasLimit then MinGasLimit else limit in
  if limit <? target then
    let limit := u64 (parentLimit + decay) in
    if limit >? target then target else limit
  else limit.

Section Validator.
Context {CR : Crypto} {BC D T : Type} {BCI : LRU BC Z Block} {DB : state.Database D T}.
Notation chain := (BlockChain BC D).
Notation BM A := (M chain validErr A).
Notation statedb := (state.StateDB D T).

(** ** blockchain.go *)

Definition setBlocks (c : BC) (bc : chain) : chain := mkBlockChain (bcDb bc) c (stateCache bc).

Definition HasBlock (hash : Hash) (number : Z) (bc : chain) : bool :=
  cacheContains hash (blockCache bc) || chaindb.Has (chaindb.numHashKey chaindb.bodyPrefix number hash) (bcDb bc).
Definition HasState (hash : Hash) (bc : chain) : bool := bool_decide (is_Some (state.OpenTrie (stateCache bc) hash : option T)).

Definition GetBlock (hash : Hash) (number : Z) : BM (option Block) := fun bc =>
  let '(hit, c) := cacheGet hash (blockCache bc) in
  let bc := setBlocks c bc in
  match hit with
  | Some block => (Ok (Some block), bc)
  | None =>
      match chaindb.GetBlock hash number (bcDb bc) with
      | None => (Ok None, bc)
      | Some block => (Ok (Some block), setBlocks (cacheAdd (blockHash block) block (blockCache bc)) bc)
      end
  end.
Definition HasBlockAndState (hash : Hash) (number : Z) : BM bool :=
  let! block := GetBlock hash number in
  match block with None => ret false | Some b => gets (HasState (hRoot (bHeader b))) end.

(** ** block_validator.go *)

Definition derived {E A} (r : result E A) : result validErr A :=
  match r with Ok a => Ok a | NoFuel => NoFuel | _ => Panic end.

(** The checks that only look at the block. *)
Definition checkBody (block : Block) : result validErr unit :=
  let header := CopyHeader (bHeader block) in
  guard* (length (bUncles block) =? 0)%nat else errUncles in
  guard* CalcUncleHash (bUncles block) =? hUncleHash header else errUncleHash in
  let* hash := derived (DeriveSha (txsRlp (bTransactions block))) in
  guard* hash =? hTxHash header else errTxHash in
  Ok tt.

Definition ValidateBody (block : Block) : BM unit :=
  let! number := lift (uint64Of (hNumber (bHeader block))) in
  let! known := HasBlockAndState (blockHash block) number in
  if known then throw ErrKnownBlock
  else
    let parent := hParentHash (bHeader block) in
    let! linkable := HasBlockAndState parent (u64 (number - 1)) in
    if negb linkable then
      let! has := gets (HasBlock parent (u64 (number - 1))) in
      throw (if has then ErrPrunedAncestor else ErrUnknownAncestor)
    else lift (checkBody block).

(** With the state, whose root is computed on the way. *)
Definition ValidateState (config : ChainConfig) (block : Block) (s : statedb) (receipts : list Receipt) (usedGas : Z)
    : result validErr statedb :=
  let header := CopyHeader (bHeader block) in
  guard* hGasUsed (bHeader block) =? usedGas else errGasUsed in
  let* rbloom := deref (CreateBloom receipts) in
  guard* bool_decide (rbloom = hBloom header) else errBloom in
  let* receiptSha := derived (DeriveSha (receiptsRlp receipts)) in
  guard* receiptSha =? hReceiptHash header else errReceiptHash in
  let* (root, s) := deref (state.IntermediateRoot (IsEIP158 config (hNumber header)) s) in
  guard* hRoot header =? root else errRoot in
  Ok s.
End Validator.
End validator.

(** * Properties of blocks *)

Import validator.

(** A block goes round through its network encoding: [DecodeRLP] of what [EncodeRLP]
    writes has the same header, the same uncles and the same transactions; only the cached
    senders of the transactions are not sent. *)
Theorem blocks_roundtrip `{Crypto} b :
  HeaderOk (bHeader b) -> BodyOk (blockBody b) -> rlpSize (blockRLP b) < 2 ^ 64 ->
  exists bs, EncodeToBytes (blockRLP b) = Ok bs /\ decodeBlock bs = Some (mkBlock (bHeader b) (uncached <$> bTransactions b) (bUncles b)).
Proof. apply block_roundtrip. Qed.

Section Validation.
Context {CR : Crypto} {BC D T : Type} {BCI : LRU BC Z Block} {DB : state.Database D T}.
Notation chain := (BlockChain BC D).
Notation statedb := (state.StateDB D T).

(** ** What the checks say *)

Lemma checkBody_ok b :
  ListOk (txsRlp (bTransactions b)) -> checkBody b = Ok tt <->
  bUncles b = [] /\ hUncleHash (bHeader b) = EmptyUncleHash /\ hTxHash (bHeader b) = rootOf (listTree (txsRlp (bTransactions b))).
Proof.
  intros Hl. unfold checkBody. cbn [CopyHeader hUncleHash hTxHash]. destruct (bUncles b) as [|u us]; [|split; [done|by intros []]]. cbn [length Nat.eqb].
  change (CalcUncleHash []) with EmptyUncleHash. destruct (Z.eqb_spec EmptyUncleHash (hUncleHash (bHeader b))) as [E|Hne]; [|split; [done|intros (_ & E & _); congruence]].
  rewrite DeriveSha_root by done. cbn [derived rbind]. destruct (Z.eqb_spec (rootOf (listTree (txsRlp (bTransactions b)))) (hTxHash (bHeader b))) as [E'|Hne].
  - by split.
  - split; [done|intros (_ & _ & E'); congruence].
Qed.

Lemma ValidateBody_checks b (bc : chain) : fst (ValidateBody b bc) = Ok tt -> checkBody b = Ok tt.
Proof.
  unfold ValidateBody, mbind, lift, gets, throw. destruct (uint64Of _) as [n| | |]; [|discriminate..].
  destruct (HasBlockAndState _ _ bc) as [[[]| | |] bc1]; [discriminate| |discriminate..].
  destruct (HasBlockAndState _ _ bc1) as [[[]| | |] bc2]; [exact id|discriminate..].
Qed.

(** Transactions are told apart by their encodings. *)
Lemma txsRlp_inj txs txs' :
  Forall (fun tx => txSizeOk (txData tx)) txs -> Forall (fun tx => txSizeOk (txData tx)) txs' -> txsRlp txs = txsRlp txs' -> txData <$> txs = txData <$> txs'.
Proof.
  unfold txsRlp. revert txs'. induction txs as [|tx txs IH]; intros [|tx' txs'] H1 H2 E; try done. cbn [fmap list_fmap] in *.
  apply (f_equal (fun l => (hd [] l, tl l))) in E. cbn [hd tl] in E. pose proof (f_equal fst E) as Eh. pose proof (f_equal snd E) as Et. cbn [fst snd] in Eh, Et.
  f_equal; [|apply IH; [by apply Forall_inv_tail in H1|by apply Forall_inv_tail in H2|done]]. apply Forall_inv in H1, H2.
  destruct (decode_reader txType (txRLP (txData tx))) as (b & _ & Eb & _ & Ed & _); [done|by apply tx_type|by apply tx_size|].
  destruct (decode_reader txType (txRLP (txData tx'))) as (b' & _ & Eb' & _ & Ed' & _); [done|by apply tx_type|by apply tx_size|].
  assert (Ev : txRLP (txData tx) = txRLP (txData tx')) by congruence. pose proof (tx_back _ H1) as E1. rewrite Ev, (tx_back _ H2) in E1. by injection E1.
Qed.

(** C12. A header fixes the body of its block: two blocks with one header that both
    pass [ValidateBody], on whatever chains, have the same transactions, and no uncles.  It
    takes that the hash tells the nodes of the two transaction tries apart. *)
Theorem headers_fix_their_bodies P b b' (bc bc' : chain) :
  Distinct P -> bHeader b = bHeader b' ->
  ListOk (txsRlp (bTransactions b)) -> ListOk (txsRlp (bTransactions b')) ->
  Known P (listTree (txsRlp (bTransactions b))) -> Known P (listTree (txsRlp (bTransactions b'))) ->
  Forall (fun tx => txSizeOk (txData tx)) (bTransactions b) -> Forall (fun tx => txSizeOk (txData tx)) (bTransactions b') ->
  fst (ValidateBody b bc) = Ok tt -> fst (ValidateBody b' bc') = Ok tt ->
  bUncles b = [] /\ bUncles b' = [] /\ txData <$> bTransactions b = txData <$> bTransactions b'.
Proof.
  intros HP Eh Hl Hl' Hk Hk' Ht Ht' HV HV'. apply ValidateBody_checks in HV, HV'. apply checkBody_ok in HV as (Hu & _ & E); [|done].
  apply checkBody_ok in HV' as (Hu' & _ & E'); [|done]. split_and!; [done..|]. apply txsRlp_inj; [done..|]. apply (DeriveSha_binds P); [done..|].
  rewrite !DeriveSha_root by done. congruence.
Qed.

(** So it fixes what its receipts commit to. *)
Lemma headers_fix_their_receipts P config b (s s' : statedb) rs rs' used used' t t' :
  Distinct P -> ListOk (receiptsRlp rs) -> ListOk (receiptsRlp rs') -> Known P (listTree (receiptsRlp rs)) -> Known P (listTree (receiptsRlp rs')) ->
  ValidateState config b s rs used = Ok t -> ValidateState config b s' rs' used' = Ok t' -> used = used' /\ receiptsRlp rs = receiptsRlp rs'.
Proof.
  intros HP Hl Hl' Hk Hk' HV HV'. unfold ValidateState in HV, HV'. rewrite DeriveSha_root in HV by done. rewrite DeriveSha_root in HV' by done.
  cbn [derived rbind] in HV, HV'. go_inv HV. go_inv HV'. bools. split; [congruence|]. apply (DeriveSha_binds P); [done..|]. rewrite !DeriveSha_root by done. congruence.
Qed.

(** ** Assembled blocks *)

Lemma EmptyRootHash_root : EmptyRootHash = Ok (rootOf (listTree [])).
Proof. apply DeriveSha_root. split; [cbn; lia|constructor]. Qed.

Lemma NewBlock_spec h txs uncles rs :
  ListOk (txsRlp txs) -> ListOk (receiptsRlp rs) ->
  exists b bloom, NewBlock h txs uncles rs = Ok b /\ bTransactions b = txs /\ bUncles b = CopyHeader <$> uncles /\
    bHeader b = withRoots (rootOf (listTree (txsRlp txs))) (rootOf (listTree (receiptsRlp rs))) (CalcUncleHash uncles) bloom (CopyHeader h) /\
    match rs with [] => bloom = hBloom h | _ => CreateBloom rs = Some bloom end.
Proof.
  intros Ht Hr. unfold NewBlock. assert (Et : match txs with [] => EmptyRootHash | _ => DeriveSha (txsRlp txs) end = Ok (rootOf (listTree (txsRlp txs)))).
  { destruct txs; [apply EmptyRootHash_root|by apply DeriveSha_root]. }
  assert (Er : match rs with [] => EmptyRootHash | _ => DeriveSha (receiptsRlp rs) end = Ok (rootOf (listTree (receiptsRlp rs)))).
  { destruct rs; [apply EmptyRootHash_root|by apply DeriveSha_root]. }
  rewrite Et, Er. cbn [rbind]. destruct (CreateBloom_spec rs) as (bloom & _ & Eb & _).
  assert (Eu : match uncles with [] => EmptyUncleHash | _ => CalcUncleHash uncles end = CalcUncleHash uncles) by (destruct uncles; reflexivity). rewrite Eu.
  destruct rs as [|r rs].
  - eexists _, _. split_and!; reflexivity.
  - rewrite Eb. cbn [deref rbind]. eexists _, _. split_and!; reflexivity.
Qed.

Lemma CreateBloom_nil : CreateBloom [] = Some emptyBloom.
Proof. by vm_compute. Qed.

(** C13. Assembled blocks validate: the block that [NewBlock] assembles from a header,
    transactions and receipts passes [ValidateBody] on a chain that knows its parent and not
    the block, and passes [ValidateState] with these receipts, the gas of the header and a state
    that has the header's root.  A header for a block without receipts must come with an empty
    bloom filter. *)
Theorem assembled_blocks_validate config h txs rs (s s' : statedb) n :
  hNumber h = Some n -> ListOk (txsRlp txs) -> ListOk (receiptsRlp rs) -> (rs = [] -> hBloom h = emptyBloom) ->
  state.IntermediateRoot (IsEIP158 config (hNumber h)) s = Some (hRoot h, s') ->
  exists b, NewBlock h txs [] rs = Ok b /\ bTransactions b = txs /\
    ValidateState config b s rs (hGasUsed h) = Ok s' /\
    forall (bc bc1 bc2 : chain),
      HasBlockAndState (blockHash b) (bigUint64 n) bc = (Ok false, bc1) ->
      HasBlockAndState (hParentHash h) (u64 (bigUint64 n - 1)) bc1 = (Ok true, bc2) -> ValidateBody b bc = (Ok tt, bc2).
Proof.
  intros En Ht Hr Hb Hroot. destruct (NewBlock_spec h txs [] rs Ht Hr) as (b & bloom & E & Et & Eu & Eh & Ebl). exists b. split; [done|]. split; [done|].
  assert (Ec : CreateBloom rs = Some bloom) by (destruct rs; [rewrite Ebl, Hb by done; apply CreateBloom_nil|done]). split.
  - unfold ValidateState. rewrite Eh. cbn [withRoots CopyHeader hGasUsed hBloom hReceiptHash hNumber hRoot]. rewrite Z.eqb_refl, Ec. cbn [deref rbind].
    rewrite bool_decide_eq_true_2 by done. rewrite DeriveSha_root by done. cbn [derived rbind]. rewrite Z.eqb_refl, En. cbn [default]. rewrite En in Hroot.
    unfold id. rewrite Hroot. cbn [deref rbind]. by rewrite Z.eqb_refl.
  - intros bc bc1 bc2 H1 H2. unfold ValidateBody, mbind, lift, gets. rewrite Eh at 1. cbn [withRoots CopyHeader hNumber]. rewrite En. cbn [default uint64Of]. unfold id.
    rewrite H1. rewrite Eh at 1. cbn [withRoots CopyHeader hParentHash]. rewrite H2. cbn [negb].
    replace (checkBody b) with (Ok (E := validErr) tt); [done|]. symmetry. apply checkBody_ok; [by rewrite Et|]. rewrite Eu, Eh, Et. done.
Qed.

(** [NewBlock] keeps the bloom filter of the header when there are no receipts, and a
    block with a stale one does not validate. *)
Lemma stale_blooms_stay config h txs (s : statedb) :
  ListOk (txsRlp txs) -> hBloom h <> emptyBloom ->
  exists b, NewBlock h txs [] [] = Ok b /\ hBloom (bHeader b) = hBloom h /\ ValidateState config b s [] (hGasUsed h) = Err errBloom.
Proof.
  intros Ht Hb. destruct (NewBlock_spec h txs [] [] Ht) as (b & bloom & E & _ & _ & Eh & Ebl); [split; [cbn; lia|constructor]|]. subst bloom.
  exists b. split; [done|]. rewrite Eh. split; [done|]. unfold ValidateState. rewrite Eh. cbn [withRoots CopyHeader hGasUsed hBloom]. rewrite Z.eqb_refl.
  rewrite CreateBloom_nil. cbn [deref rbind]. by rewrite bool_decide_eq_false_2.
Qed.
End Validation.

(** The gas limit of the next block is near that of its parent. *)
Lemma gas_limits_move_slowly target parent :
  MinGasLimit <= hGasLimit (bHeader parent) < 2 ^ 62 -> 0 <= hGasUsed (bHeader parent) <= hGasLimit (bHeader parent) -> MinGasLimit <= target ->
  let limit := hGasLimit (bHeader parent) in
  MinGasLimit <= CalcGasLimit target parent /\ limit - limit / 1024 < CalcGasLimit target parent <= limit + limit / 1024.
Proof.
  unfold CalcGasLimit, MinGasLimit, GasLimitBoundDivisor. set (l := hGasLimit _). set (u := hGasUsed _). intros Hl Hu Ht. cbn zeta.
  assert (Hq : 4 <= l / 1024) by (apply Z.div_le_lower_bound; lia). assert (Hq' : l / 1024 <= l) by (apply Z.div_le_upper_bound; lia).
  assert (Hh : 0 <= u / 2 <= u) by (split; [apply Z.div_pos|apply Z.div_le_upper_bound]; lia).
  rewrite (u64_small (u + u / 2)) by (unfold is_u64; lia). rewrite (u64_small (l / 1024 - 1)) by (unfold is_u64; lia).
  assert (Hc : 0 <= (u + u / 2) / 1024 <= l / 1024 + (l / 1024 + 1) / 2 + 1).
  { split; [apply Z.div_pos; lia|]. pose proof (Z.div_mod l 1024 ltac:(lia)). pose proof (Z.mod_pos_bound l 1024 ltac:(lia)).
    pose proof (Z.div_mod (l / 1024 + 1) 2 ltac:(lia)). pose proof (Z.mod_pos_bound (l / 1024 + 1) 2 ltac:(lia)).
    pose proof (Z.div_mod u 2 ltac:(lia)). pose proof (Z.mod_pos_bound u 2 ltac:(lia)). apply Z.lt_succ_r, Z.div_lt_upper_bound; [lia|]. lia. }
  assert (Hc2 : (l / 1024 + 1) / 2 <= l / 1024 - 2).
  { pose proof (Z.div_mod (l / 1024 + 1) 2 ltac:(lia)). pose proof (Z.mod_pos_bound (l / 1024 + 1) 2 ltac:(lia)). lia. }
  rewrite (u64_small (l - (l / 1024 - 1) + (u + u / 2) / 1024)) by (unfold is_u64; lia). rewrite (u64_small (l + (l / 1024 - 1))) by (unfold is_u64; lia).
  set (x := l - (l / 1024 - 1) + (u + u / 2) / 1024) in *. assert (Hx : l - l / 1024 < x <= l + l / 1024) by lia.
  destruct (Z.ltb_spec x 5000);
    (match goal with |- context [?a <? target] => destruct (Z.ltb_spec a target) end; [destruct (Z.gtb_spec (l + (l / 1024 - 1)) target)|]); lia.
Qed.

(** ** Instances *)

Module Assembled.
(** The chain of a new database with its state, and a block on top: one transaction, one
    receipt, and the state with no account. *)
Definition chain : BlockChain (gmap Z Block) Store.store :=
  mkBlockChain Tree.db0 ∅ (match fst Tree.committed with Ok (_, d) => d | _ => Tree.noStore end).
Definition statedb : state.StateDB Store.store Store.trieMap := Store.stateOver ∅.
Definition header : Header :=
  mkHeader (headerHash Tree.h0) 0 9 [] [] [] (Store.root ∅) 0 0 [] (Some 2) (Some 1) 8000000 21000 (Some 15) [] 0 (replicate 8 x00).
Definition receipts : list Receipt := [Sample.receipt].
Definition block (tx : Transaction) : Block := match NewBlock header [tx] [] receipts with Ok b => b | _ => mkBlock header [] [] end.
(** The same transaction after its sender was asked for. *)
Definition cached : Transaction := mkTransaction (txData Sample.encoded) (Some (HomesteadSigner, 3)).

Definition tree : tree := listTree (txsRlp [Sample.encoded]).
Definition known (b : list byte) : Prop := b ∈ blobs [tree].

Lemma txs_ok : ListOk (txsRlp [Sample.encoded]).
Proof. split; [cbn; lia|]. constructor; [split; [vm_compute; discriminate|by vm_compute]|constructor]. Qed.
Lemma receipts_ok : ListOk (receiptsRlp receipts).
Proof. split; [cbn; lia|]. constructor; [split; [vm_compute; discriminate|by vm_compute]|constructor]. Qed.
Lemma block_body tx : txData tx = txData Sample.encoded -> bTransactions (block tx) = [tx] /\ bUncles (block tx) = [].
Proof.
  intros E. assert (Hl : ListOk (txsRlp [tx])) by (unfold txsRlp; cbn [fmap list_fmap]; rewrite E; exact txs_ok).
  destruct (NewBlock_spec header [tx] [] receipts Hl receipts_ok) as (b & bloom & Eb & Et & Eu & _). unfold block. rewrite Eb. by split.
Qed.
Lemma body_ok tx : txData tx = txData Sample.encoded -> BodyOk (blockBody (block tx)).
Proof.
  intros E. destruct (block_body tx E) as [Et Eu]. unfold blockBody. rewrite Et, Eu. split; cbn [Transactions Uncles]; constructor; [rewrite E; exact sample_encoded_ok|constructor].
Qed.
End Assembled.

Example blocks_roundtrip_witness :
  exists bs, EncodeToBytes (blockRLP (Assembled.block Assembled.cached)) = Ok bs /\
    decodeBlock bs = Some (mkBlock (bHeader (Assembled.block Assembled.cached)) [uncached Assembled.cached] []).
Proof.
  destruct (Assembled.block_body Assembled.cached eq_refl) as [Et Eu]. change [uncached Assembled.cached] with (uncached <$> [Assembled.cached]).
  rewrite <- Et. rewrite <- Eu.
  refine (blocks_roundtrip (Assembled.block Assembled.cached) _ _ _).
  - apply headerOkb_ok. vm_compute. reflexivity.
  - apply Assembled.body_ok. reflexivity.
  - vm_compute. reflexivity.
Defined.

Example headers_fix_their_bodies_witness :
  txData <$> bTransactions (Assembled.block Sample.encoded) = txData <$> bTransactions (Assembled.block Assembled.cached).
Proof.
  pose proof (proj1 (Assembled.block_body Sample.encoded eq_refl)) as Et. pose proof (proj1 (Assembled.block_body Assembled.cached eq_refl)) as Et'.
  apply (headers_fix_their_bodies (T := Store.trieMap) Assembled.known (Assembled.block Sample.encoded) (Assembled.block Assembled.cached) Assembled.chain Assembled.chain).
  - apply distinct_Distinct. vm_compute. reflexivity.
  - vm_compute. reflexivity.
  - rewrite Et. exact Assembled.txs_ok.
  - rewrite Et'. exact Assembled.txs_ok.
  - rewrite Et. apply Known_blobs. left.
  - rewrite Et'. apply Known_blobs. left.
  - apply (bo_txs _ (Assembled.body_ok Sample.encoded eq_refl)).
  - apply (bo_txs _ (Assembled.body_ok Assembled.cached eq_refl)).
  - vm_compute. reflexivity.
  - vm_compute. reflexivity.
Defined.

Example assembled_blocks_validate_witness :
  exists b s', NewBlock Assembled.header [Sample.encoded] [] Assembled.receipts = Ok b /\
    ValidateState Tree.config b Assembled.statedb Assembled.receipts 21000 = Ok s'.
Proof.
  destruct (state.IntermediateRoot true Assembled.statedb) as [[r s']|] eqn:E; [|vm_compute in E; discriminate E].
  assert (Er : r = hRoot Assembled.header).
  { assert (H : fst <$> state.IntermediateRoot true Assembled.statedb = Some (hRoot Assembled.header)) by (vm_compute; reflexivity). rewrite E in H. injection H as H. exact H. }
  subst r. destruct (assembled_blocks_validate (BC := gmap Z Block) Tree.config Assembled.header [Sample.encoded] Assembled.receipts Assembled.statedb s' 1) as (b & Eb & _ & Hv & _).
  - reflexivity.
  - exact Assembled.txs_ok.
  - exact Assembled.receipts_ok.
  - discriminate.
  - exact E.
  - exists b, s'. split; [exact Eb|exact Hv].
Defined.
