(* ===== verification/ChainDbProperties.v ===== *)
(** * Package core: properties of the chain's database

    Blocks, receipts and the index of transactions are read back as they were written, and
    nothing else in the database changes; setting up the genesis block can be repeated. *)

From stdpp Require Import base numbers list gmap option.
From Stdlib Require Import ZArith Lia Strings.Byte.
From S2P Require Import Prelude Rlp RlpProofs RlpDecodeProofs RlpRawProofs Common Params Types Toy TrieDatabase CliqueSnapshot Transactions TransactionProofs State ToyStore Receipts TransactionProperties Blocks ChainDb Genesis ChainDbProofs HeaderChain HeaderChainStore HeaderChainProofs GenesisProofs ToyChain.

Section Stored.
Context {CR : Crypto}.
Import chaindb.


End Stored.

Section Setup.
Context {CR : Crypto} {D T : Type} {DB : state.Database D T} {CJ : ConfigJSON}.
Import genesis.


End Setup.

(** ** Instances *)

Module Stored.
End Stored.


