(* ===== verification/HeaderChainProperties.v ===== *)
(** * Package core: properties of the chain of headers

    Every chain of headers that is reached from a new database is numbered along the
    ancestors of its head, whatever forks and reorganisations led to it; imports keep the
    heaviest header at the head; rewinding leaves the chain below; ancestors are found. *)

From stdpp Require Import base numbers list gmap option.
From Stdlib Require Import ZArith Lia Strings.Byte.
From S2P Require Import Prelude Rlp Common Params Types Toy TrieDatabase CliqueSnapshot CliqueEngineSpec Transactions State ToyStore Receipts Blocks ChainDb Genesis ChainDbProofs HeaderChain HeaderChainStore HeaderChainProofs HeaderChainRewind HeaderChainQueries GenesisProofs ToyChain.
Import headerchain.

Section Reachable.
Context {CR : Crypto} {D T : Type} {DB : state.Database D T} {CJ : ConfigJSON}.
Context {HC TC NC : Type} {HCI : LRU HC Z Header} {TCI : LRU TC Z Z} {NCI : LRU NC Z Z}.
Context {HCL : LRULaws HC Z Header} {TCL : LRULaws TC Z Z} {NCL : LRULaws NC Z Z}.
Context (U : Header -> Prop) (HU : Universe U).
Notation chain := (HeaderChain HC TC NC).

Definition heightOf (hc : chain) : Z := from_option numberOf 0 (currentHeader hc).

(** The number of a header follows that of its parent: the engine verifies it. *)
Definition Numbered (hc : chain) (h : Header) : Prop := forall p, stored U hc p -> headerHash p = hParentHash h -> numberOf h = numberOf p + 1.
Definition Unforked (hc : chain) (N : Z) : Prop := forall h, stored U hc h -> N < numberOf h -> onChain hc h.

(** The chains that can be reached: opened on a new database, with headers written, heads
    set back and headers looked up. *)
Inductive Reached : chain -> Prop :=
| Reached_open it nets flush spec (d d' : D) b td db hcache tcache ncache hc :
    genesis.Commit (T := T) it nets flush spec d ∅ = (Ok (b, d'), db) -> genesis.gDifficulty spec = Some td -> 0 <= td < 2 ^ 128 -> U (bHeader b) ->
    emptyCache hcache -> emptyCache tcache -> emptyCache ncache -> NewHeaderChain db hcache tcache ncache = Ok hc -> Reached hc
| Reached_write fuel coin h hc r hc' :
    Reached hc -> U h -> Numbered hc h -> heightOf hc < Z.of_nat fuel -> numberOf h < Z.of_nat fuel -> WriteHeader fuel coin h hc = (r, hc') -> Reached hc'
| Reached_rewind fuel N delFn hc r hc' :
    Reached hc -> 0 <= N <= heightOf hc -> Unforked hc N -> DeletesBodies delFn -> heightOf hc < Z.of_nat fuel -> SetHead fuel N delFn hc = (r, hc') -> Reached hc'
| Reached_header x n hc r hc' : Reached hc -> is_hash x -> is_u64 n -> GetHeader x n hc = (r, hc') -> Reached hc'
| Reached_td x n hc r hc' : Reached hc -> is_hash x -> is_u64 n -> GetTd x n hc = (r, hc') -> Reached hc'.

Lemma Inv_height (hc : chain) head : Inv U hc head -> heightOf hc = numberOf head.
Proof. intros HI. unfold heightOf. by rewrite (iv_current _ _ _ HI). Qed.

(** The parent of a header is stored, or no header has its hash. *)
Lemma parent_stored (hc : chain) head x :
  Inv U hc head -> is_hash x -> (exists p, stored U hc p /\ headerHash p = x) \/ (forall p, stored U hc p -> headerHash p <> x).
Proof.
  intros HI Hx. pose proof (gd_store _ _ (iv_good _ _ _ HI)) as HS. destruct (decide (chaindb.GetBlockNumber x (chainDb hc) = chaindb.missingNumber)) as [E|Hne].
  - right. intros p Hp <-. rewrite (sr_number _ _ _ HS p Hp) in E. pose proof (un_number U HU p (proj1 Hp)). lia.
  - left. by apply (sr_known _ _ _ HS).
Qed.

(** Written headers are stored, or their parent is not known. *)
Lemma write_outcome (hc : chain) head h fuel coin :
  Inv U hc head -> U h -> Numbered hc h -> heightOf hc < Z.of_nat fuel -> numberOf h < Z.of_nat fuel ->
  exists r hc' head', WriteHeader fuel coin h hc = (r, hc') /\ Inv U hc' head' /\
    ((exists st, r = Ok st /\ stored U hc' h) \/ (r = Err chaindb.ErrUnknownAncestor /\ chainDb hc' = chainDb hc)).
Proof.
  intros HI Hu Hn Hf1 Hf2. rewrite (Inv_height hc head HI) in Hf1. destruct (parent_stored hc head (hParentHash h) HI) as [(p & Hp & E)|Hno]; [by apply (un_parent U HU)| |].
  - pose proof (gd_store _ _ (iv_good _ _ _ HI)) as HS. destruct (sr_td U _ _ HS p Hp) as (td & Et & _), (sr_td U _ _ HS head (iv_stored _ _ _ HI)) as (tdh & Eth & _).
    destruct (WriteHeader_spec U HU hc head h p td tdh coin fuel) as (b & hc' & _ & Ew & HI' & _ & Hs & _); [done|done|done|split; [done|by apply Hn]|done..|].
    eexists _, hc', _. split; [exact Ew|]. split; [exact HI'|]. left. eexists. split; [reflexivity|]. apply Hs. by right.
  - destruct (WriteHeader_unknown U HU hc head h coin fuel HI Hu Hno) as (hc' & Ew & HR). eexists _, hc', head. split; [exact Ew|].
    split; [by eapply Inv_reads|]. right. split; [done|]. apply HR.
Qed.

Lemma reached_inv hc : Reached hc -> exists head, Inv U hc head.
Proof.
  induction 1 as [it nets flush spec d d' b td db hcache tcache ncache hc EC Etd Htd Hu H1 H2 H3 EN
    |fuel coin h hc r hc' _ [head HI] Hu Hn Hf1 Hf2 E|fuel N delFn hc r hc' _ [head HI] HN Hun Hdel Hf E
    |x n hc r hc' _ [head HI] Hx Hn E|x n hc r hc' _ [head HI] Hx Hn E].
  - destruct (Commit_written it nets flush spec d d' b td ∅ db) as [H0 HW]; [by apply (un_storable U HU)|done|lia|done|].
    destruct (fresh_opens U HU b td db Hu H0 Htd HW hcache tcache ncache H1 H2 H3) as (hc' & E' & HI & _). rewrite EN in E'. injection E' as ->. by eexists.
  - destruct (write_outcome hc head h fuel coin HI Hu Hn Hf1 Hf2) as (r' & hc1 & head' & E' & HI' & _). rewrite E in E'. injection E' as -> ->. by exists head'.
  - rewrite (Inv_height hc head HI) in HN, Hf.
    destruct (SetHead_spec U HU hc head N fuel delFn HI HN Hdel) as (head' & hc1 & E' & _ & _ & HI' & _); [|done|].
    { intros h Hh Hlt. apply (onChain_anc U HU hc head h HI Hh). by apply Hun. }
    rewrite E in E'. injection E' as -> ->. by exists head'.
  - destruct (GetHeader_reads U HU hc x n (iv_good _ _ _ HI) Hx Hn) as (r' & hc1 & E' & HR & _). rewrite E in E'. injection E' as -> ->. exists head. by eapply Inv_reads.
  - destruct (GetTd_reads U HU hc x n (iv_good _ _ _ HI) Hx Hn) as (r' & hc1 & E' & HR & _). rewrite E in E'. injection E' as -> ->. exists head. by eapply Inv_reads.
Qed.



(** ** Imports *)




(** ** Rewinding *)

(** C29. Rewinding leaves the chain below: [SetHead] to a number above which every stored
    header is canonical makes the ancestor with that number the head, deletes the headers above and
    no others, and leaves the canonical chain numbered along the ancestors of the new head. *)
Theorem rewinding_leaves_the_chain_below (hc : chain) head N fuel delFn :
  Inv U hc head -> 0 <= N <= numberOf head -> DeletesBodies delFn -> Unforked hc N -> numberOf head < Z.of_nat fuel ->
  exists head' (hc' : chain), SetHead fuel N delFn hc = (Ok tt, hc') /\ Anc U (chainDb hc) head head' /\ numberOf head' = N /\ Inv U hc' head' /\
    forall h, stored U hc' h <-> stored U hc h /\ numberOf h <= N.
Proof.
  intros HI HN Hdel Hun Hf. apply SetHead_spec; [done..| |done]. intros h Hh Hlt. apply (onChain_anc U HU hc head h HI Hh). by apply Hun.
Qed.

(** ** Ancestors *)


End Reachable.

(** ** Instances *)

Import Tree.
#[local] Notation inTree := (fun h => h ∈ headers).

Lemma in_tree h : bool_decide (h ∈ headers) = true -> h ∈ headers.
Proof. apply bool_decide_eq_true. Qed.

Lemma start_reached : Reached (T := Store.trieMap) inTree start.
Proof.
  destruct committed_ok as [d E]. apply (Reached_open _ iteration nets flush spec noStore d block0 1 db0 ∅ ∅ ∅);
    [exact E|done|lia|apply in_tree; by vm_compute|intros x; apply lookup_empty..|exact opened_ok].
Qed.

(** Numbers follow the parents in the whole tree. *)
Lemma tree_numbered h (hc : chain) : h ∈ headers -> Numbered inTree hc h.
Proof.
  intros Hh p [Hp _] E.
  assert (Hall : forallb (fun h => forallb (fun p => negb (headerHash p =? hParentHash h) || (numberOf h =? numberOf p + 1)) headers) headers = true) by by vm_compute.
  rewrite forallb_forall in Hall. specialize (Hall h). rewrite forallb_forall in Hall. apply list_elem_of_In in Hh, Hp. specialize (Hall Hh p Hp).
  rewrite E, Z.eqb_refl in Hall. by apply Z.eqb_eq in Hall.
Qed.

Lemma write_reached h (hc : chain) :
  Reached (T := Store.trieMap) inTree hc -> h ∈ headers -> heightOf hc < 10 -> numberOf h < 10 -> Reached (T := Store.trieMap) inTree (write h hc).
Proof.
  intros Hr Hh Hf1 Hf2. eapply (Reached_write _ 10 false h hc (fst (WriteHeader 10 false h hc))); [done|done|by apply tree_numbered|lia|lia|].
  unfold write. by destruct (WriteHeader 10 false h hc).
Qed.

Lemma forked_reached : Reached (T := Store.trieMap) inTree forked.
Proof.
  unfold forked. do 3 (apply write_reached; [|apply in_tree; by vm_compute|by vm_compute|by vm_compute]). apply start_reached.
Qed.



Lemma unforked_tree (hc : chain) N :
  forallb (fun h => negb (bool_decide (chaindb.GetHeader (headerHash h) (numberOf h) (chainDb hc) = Some h)) || (numberOf h <=? N) ||
    (canonical hc (numberOf h) =? headerHash h)) headers = true -> Unforked inTree hc N.
Proof.
  rewrite forallb_forall. intros H h [Hh E] Hlt. apply list_elem_of_In in Hh. specialize (H h Hh). rewrite bool_decide_eq_true_2 in H by done. cbn [negb orb] in H.
  apply orb_true_iff in H as [H|H]; [apply Z.leb_le in H; lia|by apply Z.eqb_eq in H].
Qed.



(** [c3] is the head, and [c2] becomes it. *)
Example rewinding_leaves_the_chain_below_witness :
  exists head' hc', SetHead 10 2 deleteBodies (write c3 forked) = (Ok tt, hc') /\ numberOf head' = 2 /\ Inv inTree hc' head'.
Proof.
  assert (HI : exists head, Inv inTree (write c3 forked) head /\ numberOf head = 3).
  { destruct (reached_inv inTree headers_universe (write c3 forked)) as [head HI];
      [apply write_reached; [exact forked_reached|apply in_tree; vm_compute; reflexivity|vm_compute; reflexivity..]|].
    exists head. split; [exact HI|]. rewrite <- (Inv_height _ _ _ HI). vm_compute. reflexivity. }
  destruct HI as (head & HI & En).
  destruct (rewinding_leaves_the_chain_below inTree headers_universe (write c3 forked) head 2 10 deleteBodies HI) as (head' & hc' & E & _ & En' & HI' & _).
  - rewrite En. split; discriminate.
  - exact deleteBodies_ok.
  - apply unforked_tree. vm_compute. reflexivity.
  - rewrite En. reflexivity.
  - exists head', hc'. split; [exact E|]. split; [exact En'|exact HI'].
Defined.



(** Rewinding deletes only the canonical headers: a branch that left the chain above the new
    head stays, without its ancestors, and a heavy header on top of it brings the node down. *)
Lemma orphans_panic :
  fst (SetHead 10 0 deleteBodies forked) = Ok tt /\
  chaindb.GetHeader (headerHash c2) 2 (chainDb (snd (SetHead 10 0 deleteBodies forked))) = Some c2 /\
  fst (WriteHeader 10 false c3 (snd (SetHead 10 0 deleteBodies forked))) = Panic.
Proof. split; [by vm_compute|]. split; [|by vm_compute]. apply (bool_decide_eq_true_1 _). by vm_compute. Qed.
